(* ===== verification/_CoqProject ===== *)
-Q . S2P
Prelude.v
Effects.v
GoStrings.v
Digest.v
Documents.v
Json.v
Calls.v
SandboxSpec.v
Systems.v
Topology.v
Admission.v
Compilation.v
Lifecycle.v
Creation.v
Destruction.v
Exposure.v
Releases.v
Changes.v
ChangeRun.v
Nodes.v
Endpoints.v
Namespace.v
Vps.v
ControlDocuments.v
Tables.v
LeaseQueue.v
Ledger.v
Deployments.v
DeploymentSteps.v
Policies.v
PolicySafety.v
RateLimit.v
Rows.v
Metering.v
Enrollment.v
EnrollmentSafety.v
Agents.v
AgentHistory.v
AgentSafety.v
AgentTokens.v
AgentCalls.v
NodeArtifacts.v
Paths.v
Postgres.v
NodeAgent.v
NodeReconcile.v
NodeFleet.v
Routing.v
ExtractSafety.v
NodeTurns.v
Readers.v
Uploads.v
Views.v
ControlCalls.v
Service.v
ServiceSafety.v
Dispatch.v
DispatchSafety.v
ChangeSafety.v
ChangeOutcome.v
ReleaseSafety.v
Machine.v
Writers.v
Concurrency.v
Provider.v
Billing.v
Servers.v
ObjectStore.v
Example.v
SandboxTheorems.v
SystemTheorems.v
ChangeTheorems.v
ReleaseTheorems.v
NodeTheorems.v
ControlTheorems.v
AgentTheorems.v
ProviderTheorems.v
MeteringTheorems.v
BillingTheorems.v
ServerTheorems.v
