(* ===== verification/Prelude.v ===== *)
(** * Verification of canter: the SDK, the node agent and the control plane

    Canter hosts applications: an agent drafts what should run, a person (or a
    standing policy a person made) authorizes exactly that, and the control plane
    carries it out over an object store ("m1"), a compute provider and an agent
    on each host.  This development models the parts of the Go program that
    decide, and proves what makes them safe to run concurrently and to retry.

    ** The parts and how they interact

    - the SDK (src/sdk): contracts of sandboxes and Systems, their compilation to
      execution graphs, the lifecycle of a sandbox document (create, reconcile,
      expose, destroy), releases, Changes, node snapshots.  Everything durable is
      a JSON document in the store, written by compare-and-swap;
    - the provider client (src/internal/provider/compute) implements the SDK's
      interface of a compute provider over the HTTP API of an OpenStack cloud,
      the object store client (src/internal/provider/m1) that of the store over
      the conditional operations of an S3 service;
    - the node agent (src/cmd/canter-node, src/internal/runtime/driver) polls the
      desired release, runs its replicas, proxies traffic to them and executes
      runtime actions such as migrations;
    - the control plane (src/internal/controlplane) keeps tenants, policies,
      Changes, deployments and their executions in PostgreSQL, and has dispatchers
      that call the SDK under a lease; it meters what runs, charges for it and
      has a payment service (Stripe) take the money.

    ** How the code is modelled

    A Go struct is a [Record] in a [Module] of its name with the Go field names
    (Documents, ControlDocuments); an error is a value of [error] (this file); an
    [int] is a [Z], with its width written out where it can overflow ([add64],
    [mul64], [div64]); strings are bytes; the Unicode tables of upper and lower
    case and of quoting are the parameters of the class [Unicode] (GoStrings).
    An instant is an integer count of nanoseconds: the rounding of PostgreSQL and
    of RFC 3339 is not modelled.

    A function that calls the outside is a [prog] (Effects): a tree whose nodes
    are the calls it makes and whose branches are the answers.  The calls are
    [sdk_call] for the SDK (Calls), [agent_call] for the node (AgentCalls),
    [control_call] for the service and the dispatchers (ControlCalls) and, in
    two layers, [api_call] and [http_call] for the provider client (Provider),
    [billing_call] for the conversations with the payment service (Billing),
    [server_call] for standalone servers (Servers); [s3_call] is what the object store client asks of its service.  [wp] is
    the rule for every environment: the answers are arbitrary, so other
    processes, failures and crashes of the rest are all included, and a guard
    constrains each call by the history before it.  [run] executes a program
    against a concrete handler, and [pool_step] interleaves several.

    A database transaction is one function from the tables to the tables
    (Ledger, Deployments, Policies, Enrollment, Agents, Metering, Servers; the
    statements they share are in Tables): its row locks or its isolation level make it
    atomic.  Its clock, the ids it draws and the rows other transactions hold
    locked are arguments, so every interleaving of transactions is a list of steps.

    ** The files

    Foundations: Prelude, Effects, GoStrings (package strings, path and strconv),
    Digest (SHA-256 and hexadecimal), Json (encoding/json as far as digests need
    it).  Documents, Calls: the SDK's structs and interfaces.

    SDK: SandboxSpec (sdk/spec.go); Systems with Topology, Admission and
    Compilation (sdk/system.go, runtime_plan.go, system_view.go, ScaleCapacity);
    Namespace (document keys, with internal/controlplane/system_scope.go);
    Lifecycle, Creation, Destruction (sdk/client.go) and Exposure (sdk/release.go):
    one transition per callback of a mutate function; Machine: the state machine
    of a sandbox document; Writers, Concurrency: every writer follows it, alone
    and interleaved; Releases, Nodes, Endpoints (sdk/release.go,
    node_gateway.go, endpoint.go), ReleaseSafety, Readers (what reads only, and
    what drafting may touch); Changes, ChangeRun
    (sdk/change.go, change_request.go), ChangeSafety, ChangeOutcome; Vps (sdk/vps.go, billing.go).

    Clients: Provider (internal/provider/compute/client.go: authentication and
    requests, and the operations as programs over them); ObjectStore
    (internal/provider/m1/client.go: the methods as programs over an S3 service,
    and that they are the store [StateStore] which Concurrency asks for).

    Node agent: NodeArtifacts, Paths, ExtractSafety (unpacking artifacts);
    Postgres (driver registry and PostgreSQL driver); NodeAgent (with what a
    replica reads), NodeReconcile, NodeFleet, NodeTurns
    (fleet, health, drain and the turns of the main loop); Routing (the proxy's
    targets and their in-flight counts).

    Control plane: LeaseQueue (the abstract contract of a leased queue, and the
    statements two tables share through the class [LeaseRow]); Ledger (ledger.go)
    and Deployments with DeploymentSteps (initial_deployment_store.go), two
    instances of it; Tables (statements); Rows (the rows of nodes, agents, billing
    and servers, and what the payment service answers); Enrollment, EnrollmentSafety
    (node_gateway_store.go); Agents (store.go from BeginDeviceAuthorization to
    RevokeInstallation, agent_permissions.go, agent_workers.go, agent_pairing.go,
    approval_capability_store.go, and what operator_store.go and
    account_deletion_store.go do to installations), with
    AgentHistory (the transactions in any order, and the invariant), AgentSafety
    (each keeps it) and AgentTokens (what a token gives, and what ends it);
    Policies, PolicySafety (standing_policy.go); RateLimit
    (rate_limit.go); Uploads (what is accepted as an application); Views
    (public_views.go: what is redacted); Service, ServiceSafety (service.go);
    Dispatch, DispatchSafety (initial_deployment.go); Servers (vps.go: the
    spend guard, drafts, approvals, routes and the dispatcher of standalone
    servers, with allowWorkspace of http.go).

    Billing: Metering (the usage ledger: billing_collector.go and the statements of billing.go),
    Billing (pricing/, billing_stripe.go, billing_payment.go, billing_plans.go
    and the conversations of billing.go and billing_collector.go).

    Example is a concrete world for the witnesses.

    ** What the theorems show

    - SandboxTheorems: every operation writes the sandbox document only along the
      state machine and creates a server only under a recorded attempt; any
      number of concurrent operations refine the machine; its invariants hold on
      every run; identities are kept until the document is destroyed; and
      the object store client is a store as these theorems ask for, given what
      [S3Bucket] says of its service: a document read is the one written, with
      invalid UTF-8 replaced as encoding/json does.
    - SystemTheorems: System.Validate accepts exactly the admissible contracts
      (equivalence with a declarative definition); compilation yields a closed
      graph within budget and without overflow; the replica limit is exact;
      bindings and the documents of different tenants do not collide.
    - ChangeTheorems: applying, compensating, authorizing and drafting a Change
      do only what was authorized, under a lease that fences; how an application
      and a compensation end; waits terminate;
      what the migration language admits.  [hidden_drop_column] and
      [hidden_statement] exhibit inputs it should not admit.
    - ReleaseTheorems: publishing, staging and what nodes may fetch; the words
      shells and systemd read back from what is quoted for them.
    - NodeTheorems: no routed process is stopped, a fleet reconciliation ends in
      one of two states and leaves no process of its own behind, unpacking is confined, migrations run once, counts and
      round robin of the proxy, termination of the health wait.
    - ControlTheorems: both ledgers refine the leased queue; executions are
      fenced; deployments are authorized, exclusive and within the spend cap;
      policy decisions are sound; requests are limited; what the control plane
      accepts a node can unpack; applying under a policy and both dispatchers
      mutate only what was decided, authorized, fresh and paid for, in order and
      under their claim.
    - AgentTheorems: one token of a node acts for a System, enrollments are
      exchanged once, and what an exchange or a revocation ends stays ended;
      refresh tokens and device codes are used once and a replay
      ends the family; revocation is final; a principal acts within its grant; a
      link approves one Change under one digest, once, and not after the grant it
      came from was changed.
    - ProviderTheorems: however the operations of one client interleave, tokens
      and the password go only where they belong, in requests of the forms the
      client knows; exposing a port makes each
      change at most once and in order, and looking an exposure up agrees with
      it; the smallest shape that fits is picked; deletion of a policy is bounded.
    - MeteringTheorems: whatever transactions run, no more is charged for a
      resource than its readings cost; uninterrupted, exactly the whole cents, with
      a division that rounds as PostgreSQL's may.
    - BillingTheorems: what is sent to the payment service is what was recorded;
      what the webhook, the checkout, the collector and a change of plan may
      write, and on what evidence; validated prices charge the published bill;
      signatures of the service are accepted.
    - ServerTheorems: a server is created, changed and destroyed only under its
      lock, on evidence; an undisturbed turn of the dispatcher brings it where it
      belongs; in any interleaving servers move along their life, what
      they may cost stays within the limit, and what is reserved for one is
      released only once it is destroyed.

    ** Bounds and fuel

    Loops that the code bounds have their bound: [retry_limit] and the other
    retry counts of the mutate functions, the limits on artifacts, graphs and
    policies.  Loops a timer or a context ends take fuel; the theorems on waits
    ([waits_terminate], [waitHealthy_terminates]) show that with more fuel than
    the ticks the timer can give the fuel never decides: 120 ticks suffice for
    the health wait of 30 seconds.  Elsewhere a safety theorem holds for every
    amount of fuel, and running out is the error [OutOfFuel].  The fuel of
    [waitForDrain] is its deadline of ten seconds.  Kahn's algorithm, path and
    string functions take fuel that is proved or chosen to be the length of the
    input.

    ** What is not modelled, and why

    HTTP handlers (routing, decoding and status codes around the operations),
    the client of the model, gzip and tar decoding ([open_archive] is a
    parameter), JSON and YAML decoding (of the provider's answers the parameter
    [Unmarshal], of the payment service's the class [StripeDecode]), parsing of
    URLs ([url_Parse]), the reverse proxy's forwarding, sign-in (passwords,
    passkeys, OAuth: cryptography and external services), the reports of usage
    and forecasts (floating point, for display), GitHub, the operator (prompts
    and model calls) and user interfaces.  Of the store, the tables above; not
    pages of indexes, sealed secrets (AES), nor accounts and their deletion, except
    for what that does to agents; nor the purge of a private workspace.  A
    connection that holds an advisory lock is taken to last.  Of a server, its view for display and the slots of its goroutines (the dispatcher
    takes one or not, as it is answered).  SQL indexes and constraints are written into
    the transactions they make fail. *)

From Stdlib Require Export ZArith Lia Ascii String.
From stdpp Require Export base tactics list gmap strings numbers fin_maps pretty sorting.

(** The development is written in Go's vocabulary: [==] and [!=] are Go's
    comparisons as booleans. *)
Declare Scope go_scope.
Delimit Scope go_scope with go.
Notation "a == b" := (bool_decide (a = b)) (at level 70, no associativity) : go_scope.
Notation "a != b" := (negb (bool_decide (a = b))) (at level 70, no associativity) : go_scope.
(** Concatenation reduces on a constructor. *)
#[global] Arguments String.append : simpl nomatch.
#[global] Open Scope Z_scope.
#[global] Open Scope go_scope.

(** ** Errors

    The error values the program builds or inspects.  [Wrapf] is
    [fmt.Errorf] with a final [%w] verb, [WrapfBefore] with an initial one; [URLError] is
    net/url's [Error], [TimeoutError] an error of package net whose [Timeout()]
    is true, [APIError] smithy's with its error code, [External] any other error value
    that comes from a package the program only calls.  [Panic] is a Go run-time
    panic, [OutOfFuel] the bound of a modelled loop: neither is a Go error. *)
Inductive error : Type :=
  | Errorf (msg : string)
  | Wrapf (prefix : string) (cause : error)
  | WrapfBefore (cause : error) (suffix : string)
  | LifecycleFenceError (message : string)
  | DuplicateManagedResourceError (Kind Identity : string) (Count : Z)
  | AmbiguousManagedResourceError (Kind Identity : string) (Cause : error)
  | HTTPError (StatusCode : Z) (Body : string)
  | TransportError (Operation : string) (Cause : error)
  | URLError (Op URL : string) (Cause : error)
  | TimeoutError (msg : string)
  | APIError (Code : string) (msg : string)
  | UnsupportedClassError (Class : string)
  | ErrConflict
  | ErrNotFound
  | ErrForbidden
  | ErrCapacity
  | ErrUnauthorized
  | Canceled
  | DeadlineExceeded
  | External (msg : string)
  | Panic (msg : string)
  | OutOfFuel.

#[global] Instance error_eq_dec : EqDecision error.
Proof. solve_decision. Defined.

(** ** Results: Go's [(T, error)] where the value matters only on success *)
Inductive result (A : Type) : Type :=
  | Ok (a : A)
  | Err (e : error).
Arguments Ok {A} a.
Arguments Err {A} e.

#[global] Instance result_eq_dec `{EqDecision A} : EqDecision (result A).
Proof. solve_decision. Defined.

#[global] Instance result_ret : MRet result := @Ok.
#[global] Instance result_bind : MBind result := fun A B f m =>
  match m with Ok a => f a | Err e => Err e end.
#[global] Instance result_map : FMap result := fun A B f m =>
  match m with Ok a => Ok (f a) | Err e => Err e end.

Definition is_ok {A} (r : result A) : bool :=
  match r with Ok _ => true | Err _ => false end.

(** [if cond { return err }]. *)
Definition reject_if (cond : bool) (e : error) : result unit :=
  if cond then Err e else Ok tt.

(** Go's [for _, x := range xs { if err := f(x); err != nil { return err } }]
    with a loop-carried state. *)
Fixpoint fold_result {A S : Type} (f : S -> A -> result S) (s : S) (xs : list A) : result S :=
  match xs with
  | [] => Ok s
  | x :: rest => s' ← f s x; fold_result f s' rest
  end.

(** ** Machine integers: Go's [int] and [int64] are 64-bit two's complement *)
Definition max_int : Z := 9223372036854775807.
Definition min_int : Z := -9223372036854775808.
Definition int_range (x : Z) : Prop := min_int <= x <= max_int.
Definition i64 (x : Z) : Z := (x + 2 ^ 63) mod 2 ^ 64 - 2 ^ 63.
Definition add64 (x y : Z) : Z := i64 (x + y).
Definition sub64 (x y : Z) : Z := i64 (x - y).
Definition mul64 (x y : Z) : Z := i64 (x * y).
(** Go's [/] and [%] truncate toward zero. *)
Definition div64 (x y : Z) : Z := i64 (Z.quot x y).
Definition rem64 (x y : Z) : Z := Z.rem x y.

Lemma i64_id x : int_range x -> i64 x = x.
Proof.
  unfold int_range, i64, min_int, max_int. intros H.
  rewrite Z.mod_small; lia.
Qed.

Lemma i64_range x : int_range (i64 x).
Proof.
  unfold int_range, i64, min_int, max_int.
  pose proof (Z.mod_pos_bound (x + 2 ^ 63) (2 ^ 64) ltac:(lia)). lia.
Qed.

(** [l[i]]: [None] is Go's out-of-range panic. *)
Definition go_index {A} (l : list A) (i : Z) : option A := if i <? 0 then None else l !! Z.to_nat i.

(** [m[key(x)] = x] on a map listed in insertion order. *)
Fixpoint put_by {A} (key : A -> string) (x : A) (l : list A) : list A :=
  match l with
  | [] => [x]
  | y :: l' => if key y == key x then x :: l' else y :: put_by key x l'
  end.

(** ** Automation *)
Create HintDb go discriminated.

Lemma reject_if_ok cond e : reject_if cond e = Ok tt <-> cond = false.
Proof. destruct cond; simpl; split; congruence. Qed.

Lemma result_bind_ok {A B} (m : result A) (f : A -> result B) b :
  m ≫= f = Ok b <-> exists a, m = Ok a /\ f a = Ok b.
Proof. destruct m; simpl; [naive_solver|split; [done|naive_solver]]. Qed.

Lemma existsb_elem {A} (f : A -> bool) l x : existsb f l = false -> x ∈ l -> f x = false.
Proof.
  intros Hf Hx. apply not_true_is_false. intros Ht. rewrite <- not_true_iff_false in Hf. apply Hf, existsb_exists.
  exists x. by rewrite <- list_elem_of_In.
Qed.

Lemma is_ok_true {A} (r : result A) : is_ok r = true <-> exists a, r = Ok a.
Proof. destruct r; simpl; naive_solver. Qed.

Lemma fold_result_app {A S} (f : S -> A -> result S) s xs ys :
  fold_result f s (xs ++ ys) = s' ← fold_result f s xs; fold_result f s' ys.
Proof. revert s. induction xs as [|x xs IH]; intros s; simpl; [done|]. destruct (f s x); simpl; auto. Qed.

(** A loop that only checks. *)
Lemma fold_result_reject {A} (bad : A -> bool) (e : A -> error) u v xs :
  fold_result (fun _ x => reject_if (bad x) (e x)) u xs = Ok v -> Forall (fun x => bad x = false) xs.
Proof.
  destruct u, v. induction xs as [|x xs IH]; simpl; [constructor|].
  destruct (bad x) eqn:E; simpl; [done|]. intros Hf. constructor; auto.
Qed.

(** Rule for a range loop that returns early: an invariant of the state,
    indexed by the elements already seen. *)
Lemma fold_result_inv {A S} (f : S -> A -> result S) (I : list A -> S -> Prop) xs s s' :
  I [] s ->
  (forall done x st st', I done st -> f st x = Ok st' -> I (done ++ [x]) st') ->
  fold_result f s xs = Ok s' -> I xs s'.
Proof.
  intros H0 Hstep.
  enough (forall pre st, I pre st -> fold_result f st xs = Ok s' -> I (pre ++ xs) s') as Hgen.
  { intros H. exact (Hgen [] s H0 H). }
  induction xs as [|x xs IH]; intros pre st Hpre H; simpl in H.
  - rewrite app_nil_r. by injection H as <-.
  - apply result_bind_ok in H as (st' & Hx & H).
    replace (pre ++ x :: xs) with ((pre ++ [x]) ++ xs) by (by rewrite <- app_assoc).
    eauto.
Qed.

(** ** Sums over a list *)
Fixpoint sum_by {A} (f : A -> Z) (l : list A) : Z :=
  match l with [] => 0 | x :: l' => f x + sum_by f l' end.

Lemma sum_by_app {A} (f : A -> Z) l1 l2 : sum_by f (l1 ++ l2) = sum_by f l1 + sum_by f l2.
Proof. induction l1; simpl; lia. Qed.

Lemma sum_by_nonneg {A} (f : A -> Z) l : (forall x, x ∈ l -> 0 <= f x) -> 0 <= sum_by f l.
Proof. induction l as [|x l IH]; simpl; [done|]. intros Hf. pose proof (Hf x ltac:(by left)). 
  assert (0 <= sum_by f l) by (apply IH; intros; apply Hf; by right). lia. Qed.
Lemma sum_by_ext {A} (f g : A -> Z) l : (forall x, x ∈ l -> f x = g x) -> sum_by f l = sum_by g l.
Proof. induction l as [|x l IH]; intros Hfg; [done|]. cbn. rewrite Hfg by left. f_equal. apply IH. intros y Hy. apply Hfg. by right. Qed.
Lemma sum_by_elem {A} (f : A -> Z) l x : (forall y, y ∈ l -> 0 <= f y) -> x ∈ l -> f x <= sum_by f l.
Proof.
  intros Hf (l1 & l2 & ->)%list_elem_of_split. rewrite sum_by_app. cbn [sum_by].
  pose proof (sum_by_nonneg f l1). pose proof (sum_by_nonneg f l2).
  assert (0 <= sum_by f l1 /\ 0 <= sum_by f l2) by (split; [apply H|apply H0]; intros; apply Hf; set_solver). lia.
Qed.
(** Each term above zero has its own term on the other side. *)
Lemma sum_by_inject {A B K} (f : A -> Z) (g : B -> Z) (key : A -> K) (key' : B -> K) l m :
  NoDup (key <$> l) -> (forall b, b ∈ m -> 0 <= g b) ->
  (forall a, a ∈ l -> f a <= 0 \/ exists b, b ∈ m /\ key' b = key a /\ f a <= g b) -> sum_by f l <= sum_by g m.
Proof.
  revert m. induction l as [|a l IH]; intros m Hnd Hg Hf; cbn [sum_by]; [by apply sum_by_nonneg|].
  rewrite fmap_cons in Hnd. apply NoDup_cons in Hnd as [Ha Hnd].
  destruct (Hf a ltac:(by left)) as [H0|(b & Hb & Hk & Hab)].
  - assert (sum_by f l <= sum_by g m); [|lia]. apply IH; [done..|]. intros x Hx. apply Hf. by right.
  - apply list_elem_of_split in Hb as (m1 & m2 & ->). rewrite sum_by_app. cbn [sum_by].
    assert (sum_by f l <= sum_by g (m1 ++ m2)) as Hl; [|rewrite sum_by_app in Hl; lia]. apply IH; [done| |].
    + intros x Hx. apply Hg. set_solver.
    + intros x Hx. destruct (Hf x ltac:(by right)) as [?|(b' & Hb' & Hk' & Hx')]; [by left|right]. exists b'. split; [|done].
      assert (b' <> b) by (intros ->; apply Ha, list_elem_of_fmap; exists x; split; [congruence|done]). set_solver.
Qed.

Create Rewrite HintDb go_rw.
#[export] Hint Rewrite @reject_if_ok : go_rw.
#[export] Hint Resolve i64_id i64_range : go.

(** Invert a validator that returned [Ok]: one hypothesis per check it passed. *)
Ltac ok_inv :=
  repeat match goal with
  | H : Ok _ = Ok _ |- _ => injection H as H
  | H : Err _ = Ok _ |- _ => discriminate H
  | H : Ok _ = Err _ |- _ => discriminate H
  | H : reject_if _ _ = Ok _ |- _ =>
      let u := fresh in
      match type of H with _ = Ok tt => apply reject_if_ok in H | _ = Ok ?x => destruct x; apply reject_if_ok in H end
  | H : mbind _ _ = Ok _ |- _ =>
      apply result_bind_ok in H; destruct H as (? & ? & H)
  end.

(** Reduce a hypothesis made of boolean tests to propositions. *)
Ltac bool_inv :=
  repeat match goal with
  | H : _ || _ = false |- _ => apply orb_false_iff in H; destruct H
  | H : _ && _ = true |- _ => apply andb_true_iff in H; destruct H
  | H : negb _ = false |- _ => apply negb_false_iff in H
  | H : negb _ = true |- _ => apply negb_true_iff in H
  | H : bool_decide _ = true |- _ => apply bool_decide_eq_true_1 in H
  | H : bool_decide _ = false |- _ => apply bool_decide_eq_false_1 in H
  | H : (_ <? _) = true |- _ => apply Z.ltb_lt in H
  | H : (_ <? _) = false |- _ => apply Z.ltb_ge in H
  | H : (_ <=? _) = true |- _ => apply Z.leb_le in H
  | H : (_ <=? _) = false |- _ => apply Z.leb_gt in H
  end.
