(* ===== verification/Effects.v ===== *)
(** * Effectful programs, their traces and their interleavings

    The SDK talks to an object store, a compute provider, a model, the clock
    and a random source.  A Go function that does is modelled as a [prog]: a
    tree whose nodes are the calls it makes, branching on the answer.  What the
    rest of the world does between two calls (other Canter processes, failures,
    an eventually consistent provider) is the choice of the answers.

    - [wp] is the rule for *every* environment: a postcondition, and a guard
      every call must satisfy, both seeing the history of calls and answers;
    - [run] executes a program against a concrete handler (the witnesses);
    - [pool_step] interleaves several programs over one shared state, a call
      being atomic (the theorems about concurrent writers). *)

From S2P Require Import Prelude.
From stdpp Require Import relations.

Section Prog.
Context {C : Type} {R : C -> Type}.

Inductive prog (A : Type) : Type :=
  | Ret (a : A)
  | Call (c : C) (k : R c -> prog A).
Arguments Ret {A} a.
Arguments Call {A} c k.

Fixpoint prog_bind {A B} (f : A -> prog B) (p : prog A) : prog B :=
  match p with
  | Ret a => f a
  | Call c k => Call c (fun r => prog_bind f (k r))
  end.

#[global] Instance prog_mret : MRet prog := @Ret.
#[global] Instance prog_mbind : MBind prog := @prog_bind.

Definition call (c : C) : prog (R c) := Call c Ret.

(** [x, err := p; if err != nil { return err }; k(x)]. *)
Definition bind_ok {A B} (p : prog (result A)) (k : A -> prog (result B)) : prog (result B) :=
  r ← p; match r with Ok a => k a | Err e => Ret (Err e) end.

Definition lift {A} (r : result A) : prog (result A) := Ret r.

Lemma bind_ok_lift {A B} (r : result A) (k : A -> prog (result B)) :
  bind_ok (lift r) k = match r with Ok a => k a | Err e => Ret (Err e) end.
Proof. done. Qed.

Lemma bind_ret {A B} (a : A) (f : A -> prog B) : Ret a ≫= f = f a.
Proof. done. Qed.

(** A call together with the answer it got; histories are newest first. *)
Record event : Type := Event { ev_call : C; ev_answer : R ev_call }.

(** ** Weakest preconditions over histories

    [rely h c r]: the environment may answer [r]; [guar h c]: the program may
    make the call [c] after the history [h]. *)
Section Wp.
Context (rely : list event -> forall c, R c -> Prop) (guar : list event -> C -> Prop).

Fixpoint wp {A} (p : prog A) (Q : list event -> A -> Prop) (h : list event) : Prop :=
  match p with
  | Ret a => Q h a
  | Call c k => guar h c /\ forall r, rely h c r -> wp (k r) Q (Event c r :: h)
  end.

Lemma wp_bind {A B} (p : prog A) (f : A -> prog B) Q h :
  wp (p ≫= f) Q h <-> wp p (fun h' a => wp (f a) Q h') h.
Proof.
  revert h. induction p as [a|c k IH]; intros h; [done|].
  simpl. split; intros [Hg Hk]; (split; [done|]); intros r Hr; apply IH; auto.
Qed.

Lemma wp_mono {A} (p : prog A) (Q Q' : list event -> A -> Prop) h :
  wp p Q h -> (forall h' a, Q h' a -> Q' h' a) -> wp p Q' h.
Proof.
  revert h. induction p as [a|c k IH]; intros h; simpl; [auto|].
  intros [Hg Hk] HQ. split; [done|]. intros r Hr. apply IH; auto.
Qed.

Lemma wp_bind_mono {A B} (p : prog A) (f : A -> prog B) (P : list event -> A -> Prop) Q h :
  wp p P h -> (forall h' a, P h' a -> wp (f a) Q h') -> wp (p ≫= f) Q h.
Proof. intros Hp Hf. apply wp_bind. eapply wp_mono; eauto. Qed.

Lemma wp_bind_ok {A B} (p : prog (result A)) (k : A -> prog (result B)) Q h :
  wp p (fun h' r => match r with Ok a => wp (k a) Q h' | Err e => Q h' (Err e) end) h ->
  wp (bind_ok p k) Q h.
Proof.
  intros H. unfold bind_ok. apply wp_bind. eapply wp_mono; [exact H|].
  by intros h' [a|e].
Qed.

Lemma wp_call c (Q : list event -> R c -> Prop) h :
  guar h c -> (forall r, rely h c r -> Q (Event c r :: h) r) -> wp (call c) Q h.
Proof. simpl. auto. Qed.

Lemma wp_ret {A} (a : A) (Q : list event -> A -> Prop) h : Q h a -> wp (Ret a) Q h.
Proof. done. Qed.

(** The history only grows. *)
Lemma wp_history {A} (p : prog A) Q h :
  wp p Q h -> wp p (fun h' a => Q h' a /\ exists l, h' = l ++ h) h.
Proof.
  revert h. induction p as [a|c k IH]; intros h; simpl.
  - intros HQ. split; [done|]. by exists [].
  - intros [Hg Hk]. split; [done|]. intros r Hr.
    eapply wp_mono; [apply IH; auto|]. intros h' a [HQ [l ->]].
    split; [done|]. exists (l ++ [Event c r]). by rewrite <- app_assoc.
Qed.
End Wp.

(** Two facts about the same program hold together. *)
Lemma wp_conj rely guar1 guar2 {A} (p : prog A) Q1 Q2 h :
  wp rely guar1 p Q1 h -> wp rely guar2 p Q2 h ->
  wp rely (fun h c => guar1 h c /\ guar2 h c) p (fun h a => Q1 h a /\ Q2 h a) h.
Proof.
  revert h. induction p as [a|c k IH]; intros h; simpl; [auto|].
  intros [H1 K1] [H2 K2]. split; [auto|]. intros r Hr. apply IH; auto.
Qed.

(** ** Guards

    [safe guar p]: whatever happened before and whatever is answered, every
    call of [p] satisfies [guar]. *)
Definition safe (guar : list event -> C -> Prop) {A} (p : prog A) : Prop :=
  forall h, wp (fun _ _ _ => True) guar p (fun _ _ => True) h.

(** The same, with what is known of the result. *)
Definition safe_post (guar : list event -> C -> Prop) {A} (P : A -> Prop) (p : prog A) : Prop :=
  forall h, wp (fun _ _ _ => True) guar p (fun _ a => P a) h.

Section Safe.
Context (guar : list event -> C -> Prop).

Lemma safe_post_ret {A} (P : A -> Prop) a : P a -> safe_post guar P (Ret a).
Proof. by intros HP h. Qed.

Lemma safe_post_bind {A B} (P : A -> Prop) (Q : B -> Prop) (p : prog A) (f : A -> prog B) :
  safe_post guar P p -> (forall a, P a -> safe_post guar Q (f a)) -> safe_post guar Q (p ≫= f).
Proof. intros Hp Hf h. eapply wp_bind_mono; [apply Hp|]. intros h' a Ha. by apply Hf. Qed.

Lemma safe_post_any {A B} (Q : B -> Prop) (p : prog A) (f : A -> prog B) :
  safe guar p -> (forall a, safe_post guar Q (f a)) -> safe_post guar Q (p ≫= f).
Proof. intros Hp Hf h. eapply wp_bind_mono; [apply Hp|]. intros h' a _. apply Hf. Qed.

Lemma safe_post_safe {A} (P : A -> Prop) (p : prog A) : safe_post guar P p -> safe guar p.
Proof. intros Hp h. eapply wp_mono; [apply Hp|done]. Qed.

Lemma safe_post_mono {A} (P Q : A -> Prop) (p : prog A) :
  safe_post guar P p -> (forall a, P a -> Q a) -> safe_post guar Q p.
Proof. intros Hp HPQ h. eapply wp_mono; [apply Hp|]. auto. Qed.

Lemma safe_wp {A} (p : prog A) h : safe guar p -> wp (fun _ _ _ => True) guar p (fun _ _ => True) h.
Proof. intros Hp. apply Hp. Qed.

Lemma safe_ret {A} (a : A) : safe guar (Ret a).
Proof. by intros h. Qed.

Lemma safe_call c : (forall h, guar h c) -> safe guar (call c).
Proof. intros Hc h. apply wp_call; auto. Qed.

Lemma safe_bind {A B} (p : prog A) (f : A -> prog B) :
  safe guar p -> (forall a, safe guar (f a)) -> safe guar (p ≫= f).
Proof. intros Hp Hf h. eapply wp_bind_mono; [apply Hp|]. intros h' a _. apply Hf. Qed.

Lemma safe_bind_ok {A B} (p : prog (result A)) (k : A -> prog (result B)) :
  safe guar p -> (forall a, safe guar (k a)) -> safe guar (bind_ok p k).
Proof. intros Hp Hk. apply safe_bind; [done|]. intros [a|e]; [apply Hk|apply safe_ret]. Qed.

Lemma wp_safe_bind {A B} (p : prog A) (f : A -> prog B) P h :
  wp (fun _ _ _ => True) guar p P h -> (forall h' a, P h' a -> wp (fun _ _ _ => True) guar (f a) (fun _ _ => True) h') ->
  wp (fun _ _ _ => True) guar (p ≫= f) (fun _ _ => True) h.
Proof. apply wp_bind_mono. Qed.
End Safe.

Lemma wp_guard rely (guar guar' : list event -> C -> Prop) {A} (p : prog A) Q h :
  (forall h c, guar h c -> guar' h c) -> wp rely guar p Q h -> wp rely guar' p Q h.
Proof.
  intros Hg. revert h. induction p as [a|c k IH]; intros h; simpl; [done|].
  intros [H1 H2]. split; auto.
Qed.

Lemma safe_mono (guar guar' : list event -> C -> Prop) {A} (p : prog A) :
  (forall h c, guar h c -> guar' h c) -> safe guar p -> safe guar' p.
Proof. intros Hg Hp h. eapply wp_guard; [exact Hg|apply Hp]. Qed.

(** A program that makes only calls of one kind adds only such events. *)
Lemma wp_only rely (P : C -> Prop) {A} (p : prog A) h :
  safe (fun _ c => P c) p ->
  wp rely (fun _ c => P c) p (fun h' _ => exists l, h' = l ++ h /\ Forall (fun e => P (ev_call e)) l) h.
Proof.
  intros Hp. specialize (Hp h). revert h Hp. induction p as [a|c k IH]; intros h; cbn [wp]; [by exists []|].
  intros [Hc Hk]. split; [done|]. intros r _. eapply wp_mono; [apply IH, Hk, I|].
  intros h' a (l & -> & Hl). exists (l ++ [Event c r]). rewrite <- app_assoc. split; [done|].
  apply Forall_app. split; [done|]. by repeat constructor.
Qed.

(** ** Execution against a concrete handler *)
Section Run.
Context {S : Type} (handler : S -> forall c, R c * S).

Fixpoint run {A} (p : prog A) (s : S) (h : list event) : A * S * list event :=
  match p with
  | Ret a => (a, s, h)
  | Call c k => let '(r, s') := handler s c in run (k r) s' (Event c r :: h)
  end.

Lemma run_bind {A B} (p : prog A) (f : A -> prog B) s h :
  run (p ≫= f) s h = let '(a, s', h') := run p s h in run (f a) s' h'.
Proof.
  revert s h. induction p as [a|c k IH]; intros s h; simpl; [done|].
  destruct (handler s c) as [r s']. apply IH.
Qed.

(** [wp] is sound: what holds for every environment holds of a run. *)
Lemma wp_run rely guar {A} (p : prog A) Q s h :
  (forall s h c r s', handler s c = (r, s') -> rely h c r) ->
  wp rely guar p Q h ->
  let '(a, _, h') := run p s h in Q h' a.
Proof.
  intros Hrely. revert s h. induction p as [a|c k IH]; intros s h; simpl; [done|].
  intros [_ Hk]. destruct (handler s c) as [r s'] eqn:E. apply IH. eauto.
Qed.
End Run.

(** ** Interleaving

    Several programs over one state; each step executes one call of one of
    them.  A thread's history is what it saw itself. *)
Section Pool.
Context {S A : Type} (handler : S -> forall c, R c * S).

Record thread : Type := Thread { th_prog : prog A; th_history : list event }.

Inductive pool_step : list thread * S -> list thread * S -> Prop :=
  | pool_call ts i c k h s r s' :
      ts !! i = Some (Thread (Call c k) h) ->
      handler s c = (r, s') ->
      pool_step (ts, s) (<[i := Thread (k r) (Event c r :: h)]> ts, s').

(** Invariants of the pool by induction on the steps. *)
Lemma pool_invariant (I : list thread * S -> Prop) x y :
  I x -> (forall x y, I x -> pool_step x y -> I y) -> rtc pool_step x y -> I y.
Proof. intros Hx Hstep Hrtc. induction Hrtc; eauto. Qed.

(** Executing a schedule: thread numbers, in order. *)
Definition pool_exec (x : list thread * S) (i : nat) : list thread * S :=
  match x.1 !! i with
  | Some (Thread (Call c k) h) =>
      let '(r, st) := handler x.2 c in (<[i := Thread (k r) (Event c r :: h)]> x.1, st)
  | _ => x
  end.

Lemma pool_exec_steps (x : list thread * S) l : rtc pool_step x (fold_left pool_exec l x).
Proof.
  revert x. induction l as [|i l IH]; intros x; simpl; [done|].
  etransitivity; [|apply IH]. destruct x as [ts st]. unfold pool_exec. simpl.
  destruct (ts !! i) as [[[a|c k] h]|] eqn:Ei; [done| |done].
  destruct (handler st c) as [r st'] eqn:Eh. apply rtc_once. by eapply pool_call.
Qed.
End Pool.

(** ** Polling loops

    [for { x := check(); if decided(x) { return }; select { ... } }]: the check
    either decides or the loop waits for [wait] to say whether to go on.  The
    fuel bounds the number of waits: [poll] returns [None] only after [fuel]
    waits that all said to go on. *)
Fixpoint poll {A} (fuel : nat) (check : prog (option A)) (wait : prog (option A)) : prog (option A) :=
  match fuel with
  | O => Ret None
  | S fuel' =>
      r ← check;
      match r with
      | Some a => Ret (Some a)
      | None =>
          w ← wait;
          match w with
          | Some a => Ret (Some a)
          | None => poll fuel' check wait
          end
      end
  end.

(** If the environment cannot let [wait] go on more than [n] times, [n + 1]
    units of fuel are enough.  [waits] counts in the history. *)
Lemma poll_fuel rely {A} (check wait : prog (option A)) (waits : list event -> nat) n fuel h :
  (forall h, wp rely (fun _ _ => True) check (fun h' r => (waits h <= waits h')%nat) h) ->
  (forall h, wp rely (fun _ _ => True) wait
     (fun h' r => r = None -> (S (waits h) <= waits h' <= n)%nat) h) ->
  (n - waits h < fuel)%nat -> 
  wp rely (fun _ _ => True) (poll fuel check wait) (fun h' r => is_Some r) h.
Proof.
  intros Hc Hw. revert h. induction fuel as [|fuel IH]; intros h Hf; [lia|]. simpl.
  eapply wp_bind_mono; [apply Hc|]. intros h1 [a|] H1; [by apply wp_ret|].
  eapply wp_bind_mono; [apply Hw|]. intros h2 [a|] H2; [by apply wp_ret|].
  specialize (H2 eq_refl). apply IH. lia.
Qed.

(** Partial correctness of a poll: each result is one the check or the wait decided. *)
Lemma poll_inv rely guar {A} (check wait : prog (option A)) (I : list event -> Prop) Q fuel h :
  I h ->
  (forall h, I h -> wp rely guar check (fun h' r => match r with Some a => Q h' (Some a) | None => I h' end) h) ->
  (forall h, I h -> wp rely guar wait (fun h' r => match r with Some a => Q h' (Some a) | None => I h' end) h) ->
  (forall h, I h -> Q h None) ->
  wp rely guar (poll fuel check wait) Q h.
Proof.
  intros HI Hc Hw HN. revert h HI. induction fuel as [|fuel IH]; intros h HI; simpl; [auto|].
  eapply wp_bind_mono; [by apply Hc|]. intros h1 [a|] H1; [done|].
  eapply wp_bind_mono; [by apply Hw|]. intros h2 [a|] H2; [done|]. auto.
Qed.

Lemma safe_poll guar {A} (check wait : prog (option A)) fuel :
  safe guar check -> safe guar wait -> safe guar (poll fuel check wait).
Proof.
  intros Hc Hw. induction fuel as [|fuel IH]; simpl; [apply safe_ret|].
  apply safe_bind; [done|]. intros [a|]; [apply safe_ret|].
  apply safe_bind; [done|]. intros [a|]; [apply safe_ret|done].
Qed.
End Prog.

Arguments prog {C} R A.
Arguments Ret {C R A} a.
Arguments Call {C R A} c k.
Arguments event {C} R.
Arguments Event {C R} ev_call ev_answer.
Arguments ev_call {C R} _.
Arguments ev_answer {C R} _.
Arguments thread {C} R A.
Arguments Thread {C R A} _ _.
Arguments call {C R} c : simpl never.

Notation "x ←! p ; k" := (bind_ok p (fun x => k))
  (at level 20, p at level 100, k at level 200, only parsing) : go_scope.
Notation "' pat ←! p ; k" := (bind_ok p (fun x => match x with pat => k end))
  (at level 20, pat pattern, p at level 100, k at level 200, only parsing) : go_scope.

#[export] Hint Resolve wp_ret : go.

(** One call of a [wp] goal: its guard, then the continuation for any answer. *)
Ltac wp_ask :=
  match goal with
  | |- wp ?rely ?guar (call ?c) ?Q ?h => change (guar h c /\ forall a, rely h c a -> Q (Event c a :: h) a)
  end; split; [try done|intros ? _; cbv beta].

(** The same, keeping what the environment guarantees of the answer. *)
Tactic Notation "wp_ask_as" ident(a) ident(Ha) :=
  match goal with
  | |- wp ?rely ?guar (call ?c) ?Q ?h => change (guar h c /\ forall a, rely h c a -> Q (Event c a :: h) a)
  end; split; [try done|intros a Ha; cbv beta].
