(* ===== verification/GoStrings.v ===== *)
(** * Go strings

    A Go string is a sequence of bytes, here a Rocq [string].  This file models
    the functions of packages strings, strconv and regexp (character-class
    patterns only) the program uses, with the lemmas the components share.

    What depends on the Unicode tables (case mapping and quoting of strings
    with a byte above 0x7f) is a parameter, the class [Unicode]; on ASCII
    strings, Go's fast path, the functions are written out. *)

From S2P Require Import Prelude.

Class Unicode : Type := {
  unicode_ToUpper : string -> string;   (* strings.Map(unicode.ToUpper, s) *)
  unicode_ToLower : string -> string;
  unicode_Quote : string -> string
}.

Definition byte_of (c : ascii) : Z := Z.of_nat (nat_of_ascii c).
Definition chr (n : Z) : ascii := ascii_of_nat (Z.to_nat n).
Definition bytes (l : list Z) : string := String.string_of_list_ascii (chr <$> l).
Definition between (lo hi : ascii) (c : ascii) : bool :=
  (byte_of lo <=? byte_of c) && (byte_of c <=? byte_of hi).

Fixpoint string_forallb (f : ascii -> bool) (s : string) : bool :=
  match s with
  | EmptyString => true
  | String c s' => f c && string_forallb f s'
  end.

Fixpoint map_string (f : ascii -> ascii) (s : string) : string :=
  match s with
  | EmptyString => EmptyString
  | String c s' => String (f c) (map_string f s')
  end.

Definition is_ascii (s : string) : bool := string_forallb (fun c => byte_of c <? 128) s.
Definition is_lower : ascii -> bool := between "a" "z".
Definition is_upper : ascii -> bool := between "A" "Z".
Definition is_digit : ascii -> bool := between "0" "9".
Definition upper_byte (c : ascii) : ascii := if is_lower c then chr (byte_of c - 32) else c.
Definition lower_byte (c : ascii) : ascii := if is_upper c then chr (byte_of c + 32) else c.

(** ** Package strings *)
Definition slen (s : string) : Z := Z.of_nat (String.length s).
Definition HasPrefix (s prefix : string) : bool := String.prefix prefix s.

Fixpoint HasSuffix (s suffix : string) : bool :=
  (s == suffix) || match s with EmptyString => false | String _ s' => HasSuffix s' suffix end.

Fixpoint drop_bytes (n : nat) (s : string) : string :=
  match n, s with
  | S n', String _ s' => drop_bytes n' s'
  | _, _ => s
  end.

Fixpoint take_bytes (n : nat) (s : string) : string :=
  match n, s with
  | S n', String c s' => String c (take_bytes n' s')
  | _, _ => EmptyString
  end.

Definition TrimPrefix (s prefix : string) : string :=
  if HasPrefix s prefix then drop_bytes (String.length prefix) s else s.
Definition TrimSuffix (s suffix : string) : string :=
  if HasSuffix s suffix then take_bytes (String.length s - String.length suffix) s else s.

(** [strings.TrimRight(s, cutset)] for an ASCII cutset of one byte. *)
Fixpoint TrimRight (s : string) (c : ascii) : string :=
  match s with
  | EmptyString => EmptyString
  | String a s' =>
      match TrimRight s' c with
      | EmptyString => if a == c then EmptyString else String a EmptyString
      | t => String a t
      end
  end.

(** [strings.Split(s, sep)] for a one-byte separator: never empty. *)
Fixpoint Split (s : string) (sep : ascii) : list string :=
  match s with
  | EmptyString => [EmptyString]
  | String a s' =>
      if a == sep then EmptyString :: Split s' sep
      else match Split s' sep with
           | [] => [String a EmptyString]
           | w :: ws => String a w :: ws
           end
  end.

Definition Join (l : list string) (sep : string) : string := String.concat sep l.

Fixpoint Contains (s sub : string) : bool :=
  String.prefix sub s || match s with EmptyString => false | String _ s' => Contains s' sub end.

(** [strings.Cut(s, sep)]: around the first occurrence. *)
Fixpoint Cut (s sep : string) : option (string * string) :=
  if String.prefix sep s then Some (EmptyString, drop_bytes (String.length sep) s)
  else match s with
       | EmptyString => None
       | String a s' =>
           match Cut s' sep with
           | Some (before, after) => Some (String a before, after)
           | None => None
           end
       end.

(** [strings.ReplaceAll(s, old, new)] for a one-byte [old]. *)
Fixpoint ReplaceAll (s : string) (old : ascii) (new : string) : string :=
  match s with
  | EmptyString => EmptyString
  | String a s' => (if a == old then new else String a EmptyString) +:+ ReplaceAll s' old new
  end.

Fixpoint contains_byte (s : string) (c : ascii) : bool :=
  match s with EmptyString => false | String a s' => (a == c) || contains_byte s' c end.
Definition ContainsAny (s : string) (cs : list ascii) : bool := existsb (contains_byte s) cs.

(** [unicode.IsSpace], as the UTF-8 encodings of its code points. *)
Definition space_encodings : list string :=
  ((fun b => bytes [b]) <$> [9; 10; 11; 12; 13; 32]) ++
  [bytes [194; 133]; bytes [194; 160]; bytes [225; 154; 128]] ++
  ((fun b => bytes [226; 128; b]) <$>
     [128; 129; 130; 131; 132; 133; 134; 135; 136; 137; 138; 168; 169; 175]) ++
  [bytes [226; 129; 159]; bytes [227; 128; 128]].

(** Length of the space at the head of the string, 0 if there is none. *)
Definition space_len (encs : list string) (s : string) : nat :=
  match List.find (fun e => String.prefix e s) encs with
  | Some e => String.length e
  | None => 0
  end.

Fixpoint trim_left (encs : list string) (skip : nat) (s : string) : string :=
  match s with
  | EmptyString => EmptyString
  | String _ s' =>
      match skip with
      | S k => trim_left encs k s'
      | O => match space_len encs s with
             | O => s
             | S k => trim_left encs k s'
             end
      end
  end.

Definition rev_string (s : string) : string :=
  String.string_of_list_ascii (rev (String.list_ascii_of_string s)).
Definition TrimLeftSpace (s : string) : string := trim_left space_encodings 0 s.
Definition TrimRightSpace (s : string) : string :=
  rev_string (trim_left (rev_string <$> space_encodings) 0 (rev_string s)).
Definition TrimSpace (s : string) : string := TrimRightSpace (TrimLeftSpace s).

(** [strings.Fields]: maximal runs of bytes that are not in a space. *)
Fixpoint fields_go (skip : nat) (cur : string) (s : string) : list string :=
  let flush := if cur == EmptyString then [] else [rev_string cur] in
  match s with
  | EmptyString => flush
  | String a s' =>
      match skip with
      | S k => fields_go k cur s'
      | O => match space_len space_encodings s with
             | O => fields_go 0 (String a cur) s'
             | S k => flush ++ fields_go k EmptyString s'
             end
      end
  end.
Definition Fields (s : string) : list string := fields_go 0 EmptyString s.

(** ** Package strconv, and the verbs of fmt *)
Definition Itoa (n : Z) : string := pretty n.
Definition quote_char : ascii := chr 34.
Definition hex_digit (n : Z) : ascii :=
  if n <? 10 then chr (48 + n) else chr (87 + n).
Definition ascii_quote_byte (c : ascii) : string :=
  let b := byte_of c in
  if c == quote_char then bytes [92; 34]
  else if b =? 92 then bytes [92; 92]
  else if b =? 7 then "\a" else if b =? 8 then "\b" else if b =? 9 then "\t"
  else if b =? 10 then "\n" else if b =? 11 then "\v" else if b =? 12 then "\f"
  else if b =? 13 then "\r"
  else if (b <? 32) || (b =? 127) then "\x" +:+ String (hex_digit (b / 16)) (String (hex_digit (b mod 16)) EmptyString)
  else String c EmptyString.
Fixpoint ascii_quote (s : string) : string :=
  match s with EmptyString => EmptyString | String c s' => ascii_quote_byte c +:+ ascii_quote s' end.
(** The verb [%q]. *)
Definition Quote `{Unicode} (s : string) : string :=
  if is_ascii s
  then String quote_char (ascii_quote s) +:+ String quote_char EmptyString
  else unicode_Quote s.
Definition ToUpper `{Unicode} (s : string) : string :=
  if is_ascii s then map_string upper_byte s else unicode_ToUpper s.
Definition ToLower `{Unicode} (s : string) : string :=
  if is_ascii s then map_string lower_byte s else unicode_ToLower s.
(** The verb [%t]. *)
Definition FormatBool (b : bool) : string := if b then "true" else "false".

(** ** Package regexp: [^first rest{0,n}$] *)
Definition class_match (first rest : ascii -> bool) (n : nat) (s : string) : bool :=
  match s with
  | EmptyString => false
  | String c s' => first c && string_forallb rest s' && (String.length s' <=? n)%nat
  end.

(** ** Package encoding/hex *)
Definition hex_byte (b : Z) : string :=
  String (hex_digit (b / 16)) (String (hex_digit (b mod 16)) EmptyString).
Fixpoint hex_encode (l : list Z) : string :=
  match l with [] => EmptyString | b :: l' => hex_byte b +:+ hex_encode l' end.
Definition hex_value (c : ascii) : option Z :=
  if is_digit c then Some (byte_of c - 48)
  else if between "a" "f" c then Some (byte_of c - 87)
  else if between "A" "F" c then Some (byte_of c - 55)
  else None.
Fixpoint hex_decode (s : string) : option (list Z) :=
  match s with
  | EmptyString => Some []
  | String c (String d s') =>
      h ← hex_value c; l ← hex_value d; rest ← hex_decode s'; Some (16 * h + l :: rest)
  | String _ EmptyString => None
  end.
Definition string_bytes (s : string) : list Z := byte_of <$> String.list_ascii_of_string s.

(** ** Package encoding/base64: StdEncoding *)
Definition b64_char (n : Z) : ascii :=
  if n <? 26 then chr (65 + n) else if n <? 52 then chr (71 + n) else if n <? 62 then chr (n - 4)
  else if n =? 62 then "+"%char else "/"%char.
Definition b64_value (c : ascii) : option Z :=
  if is_upper c then Some (byte_of c - 65) else if is_lower c then Some (byte_of c - 71)
  else if is_digit c then Some (byte_of c + 4)
  else if c == "+"%char then Some 62 else if c == "/"%char then Some 63 else None.
Definition b64_quad (a b c d : Z) : string :=
  String (b64_char a) (String (b64_char b) (String (b64_char c) (String (b64_char d) EmptyString))).
Fixpoint base64_encode (l : list Z) : string :=
  match l with
  | [] => EmptyString
  | [a] => String (b64_char (a / 4)) (String (b64_char (a mod 4 * 16)) "==")
  | [a; b] =>
      String (b64_char (a / 4)) (String (b64_char (a mod 4 * 16 + b / 16)) (String (b64_char (b mod 16 * 4)) "="))
  | a :: b :: c :: l' =>
      b64_quad (a / 4) (a mod 4 * 16 + b / 16) (b mod 16 * 4 + c / 64) (c mod 64) +:+ base64_encode l'
  end.
(** Not strict: the unused bits of the last group are ignored. *)
Fixpoint base64_groups (s : string) : option (list Z) :=
  match s with
  | EmptyString => Some []
  | String a (String b (String "=" (String "=" EmptyString))) =>
      x ← b64_value a; y ← b64_value b; Some [x * 4 + y / 16]
  | String a (String b (String c (String "=" EmptyString))) =>
      x ← b64_value a; y ← b64_value b; z ← b64_value c; Some [x * 4 + y / 16; y mod 16 * 16 + z / 4]
  | String a (String b (String c (String d s'))) =>
      x ← b64_value a; y ← b64_value b; z ← b64_value c; w ← b64_value d; rest ← base64_groups s';
      Some (x * 4 + y / 16 :: y mod 16 * 16 + z / 4 :: z mod 4 * 64 + w :: rest)
  | _ => None
  end%char.
(** Line breaks are skipped. *)
Definition base64_decode (s : string) : option string :=
  bytes <$> base64_groups (ReplaceAll (ReplaceAll s (chr 10) EmptyString) (chr 13) EmptyString).

Example base64_ex : base64_encode (string_bytes "canter!") = "Y2FudGVyIQ==" /\ base64_decode "Y2Fu
dGVyIQ==" = Some "canter!".
Proof. split; vm_compute; reflexivity. Qed.

(** ** Lemmas *)
Lemma append_nil_r s : s +:+ EmptyString = s.
Proof. induction s as [|a s IH]; simpl; [done|by rewrite ?IH]. Qed.

Lemma append_assoc s t u : s +:+ (t +:+ u) = (s +:+ t) +:+ u.
Proof. induction s as [|a s IH]; simpl; [done|by rewrite ?IH]. Qed.

Lemma length_append (s t : string) : String.length (s +:+ t) = (String.length s + String.length t)%nat.
Proof. induction s as [|a s IH]; simpl; [done|by rewrite ?IH]. Qed.

Lemma append_inj_l p s t : p +:+ s = p +:+ t -> s = t.
Proof. induction p; simpl; [done|]. intros H. injection H as H. auto. Qed.

Lemma append_inj_length s t s' t' :
  String.length s = String.length s' -> s +:+ t = s' +:+ t' -> s = s' /\ t = t'.
Proof.
  revert s'. induction s as [|a s IH]; intros [|a' s'] Hl H; simpl in *; try lia; [auto|].
  injection H as -> H. injection Hl as Hl. destruct (IH _ Hl H) as [-> ->]. auto.
Qed.

Lemma append_inj_r s t u : s +:+ u = t +:+ u -> s = t.
Proof.
  intros H. apply (append_inj_length s u t u); [|exact H].
  apply (f_equal String.length) in H. rewrite !length_append in H. lia.
Qed.

Lemma HasPrefix_spec s p : HasPrefix s p = true <-> exists t, s = p +:+ t.
Proof.
  unfold HasPrefix. revert s. induction p as [|a p IH]; intros s; simpl.
  - split; [by eexists|destruct s; done].
  - destruct s as [|b s]; [split; [done|by intros [t Ht]]|].
    simpl. destruct (ascii_dec a b) as [->|Hne].
    + rewrite IH. split; intros [t Ht]; exists t; [congruence|by injection Ht].
    + split; [done|]. intros [t Ht]. injection Ht as -> _. done.
Qed.

Lemma HasSuffix_spec s p : HasSuffix s p = true <-> exists t, s = t +:+ p.
Proof.
  induction s as [|a s IH]; cbn [HasSuffix]; rewrite orb_true_iff, bool_decide_eq_true.
  - split; [intros [<-|?]; [by exists EmptyString|done]|].
    intros [[|? ?] Ht]; [left; done|discriminate].
  - rewrite IH. split.
    + intros [<-|[t ->]]; [by exists EmptyString|by exists (String a t)].
    + intros [[|b t] Ht]; [left; done|]. injection Ht as -> ->. right. by exists t.
Qed.

Lemma string_forallb_app f s t : string_forallb f (s +:+ t) = string_forallb f s && string_forallb f t.
Proof. induction s; simpl; [done|]. rewrite IHs. by rewrite andb_assoc. Qed.

Lemma string_forallb_impl (f g : ascii -> bool) s :
  (forall c, f c = true -> g c = true) -> string_forallb f s = true -> string_forallb g s = true.
Proof. intros Hfg. induction s; simpl; [done|]. rewrite !andb_true_iff. naive_solver. Qed.

Lemma drop_append p s : drop_bytes (String.length p) (p +:+ s) = s.
Proof. induction p; simpl; [by destruct s|done]. Qed.

Lemma take_append p s : take_bytes (String.length p) (p +:+ s) = p.
Proof. induction p; simpl; [by destruct s|congruence]. Qed.

Lemma length_take_bytes n s : String.length (take_bytes n s) = (n `min` String.length s)%nat.
Proof. revert n. induction s as [|a s IH]; intros [|n]; simpl; [done..|]. by rewrite IH. Qed.

Lemma TrimPrefix_append p s : TrimPrefix (p +:+ s) p = s.
Proof.
  unfold TrimPrefix. replace (HasPrefix (p +:+ s) p) with true by (symmetry; apply HasPrefix_spec; eauto).
  apply drop_append.
Qed.

Lemma TrimSuffix_append s p : TrimSuffix (s +:+ p) p = s.
Proof.
  unfold TrimSuffix. replace (HasSuffix (s +:+ p) p) with true by (symmetry; apply HasSuffix_spec; eauto).
  rewrite length_append, Nat.add_sub. apply take_append.
Qed.

(** A string that does not end with [c] is a fixed point of [TrimRight]. *)
Lemma TrimRight_idem s c : HasSuffix s (String c EmptyString) = false -> TrimRight s c = s.
Proof.
  induction s as [|a s IH]; [done|]. intros H.
  cbn [HasSuffix] in H. apply orb_false_iff in H as [H1 H2]. simpl.
  rewrite IH by done. destruct s as [|b s]; [|done].
  destruct (decide (a = c)) as [->|E]; [by rewrite bool_decide_true in H1|by rewrite bool_decide_false].
Qed.

Lemma Split_nonempty s c : Split s c <> [].
Proof. destruct s as [|a s]; simpl; [done|]. case_bool_decide; [done|]. by destruct (Split s c). Qed.

Lemma Join_Split s c : Join (Split s c) (String c EmptyString) = s.
Proof.
  induction s as [|a s IH]; [done|]. cbn [Split]. unfold Join in *.
  pose proof (Split_nonempty s c). case_bool_decide as E.
  - subst. destruct (Split s c) as [|w ws]; [done|]. simpl. simpl in IH. by rewrite IH.
  - destruct (Split s c) as [|w ws]; [done|]. destruct ws; simpl in *; by rewrite <- IH.
Qed.

Lemma Split_no_sep s c : Forall (fun w => contains_byte w c = false) (Split s c).
Proof.
  induction s as [|a s IH]; cbn [Split]; [by repeat constructor|].
  destruct (decide (a = c)) as [E|E];
    [rewrite bool_decide_true by done; by constructor|rewrite bool_decide_false by done].
  destruct (Split s c) as [|w ws]; [by repeat constructor; simpl; rewrite bool_decide_false|].
  apply Forall_cons in IH as [IHw IHs]. constructor; [|done].
  simpl. by rewrite bool_decide_false.
Qed.

Lemma Itoa_inj n m : Itoa n = Itoa m -> n = m.
Proof. apply (inj pretty). Qed.

Lemma class_match_cons first rest n c s :
  class_match first rest n (String c s) = true ->
  first c = true /\ string_forallb rest s = true /\ (String.length s <= n)%nat.
Proof.
  simpl. rewrite !andb_true_iff. intros [[? ?] ?]. apply Nat.leb_le in H1. auto.
Qed.

(** ** Words *)
Lemma Split_app a b c : Split (a +:+ String c b) c = Split a c ++ Split b c.
Proof.
  induction a as [|x a IH]; cbn [String.append Split]; [by rewrite bool_decide_true|].
  destruct (decide (x = c)) as [->|E]; [rewrite bool_decide_true by done|rewrite bool_decide_false by done].
  - simpl. by rewrite IH.
  - rewrite IH. pose proof (Split_nonempty a c). by destruct (Split a c).
Qed.

Lemma Split_word w c : contains_byte w c = false -> Split w c = [w].
Proof.
  induction w as [|a w IH]; [done|]. cbn [contains_byte Split]. intros Hw. apply orb_false_iff in Hw as [Ha Hw].
  rewrite Ha, IH; done.
Qed.

Lemma Split_Join ws c :
  ws <> [] -> Forall (fun w => contains_byte w c = false) ws -> Split (Join ws (String c EmptyString)) c = ws.
Proof.
  intros Hne Hws. induction Hws as [|w ws Hw Hws IH]; [done|]. destruct ws as [|w' ws]; [by apply Split_word|].
  change (Join (w :: w' :: ws) (String c EmptyString)) with
    (w +:+ (String c EmptyString +:+ Join (w' :: ws) (String c EmptyString))).
  change (String c EmptyString +:+ ?x) with (String c x). rewrite Split_app, Split_word by done. by rewrite IH.
Qed.

Lemma Contains_spec s sub : Contains s sub = true <-> exists a b, s = a +:+ (sub +:+ b).
Proof.
  induction s as [|x s IH]; cbn [Contains]; rewrite orb_true_iff.
  - change (String.prefix sub EmptyString) with (HasPrefix EmptyString sub). rewrite HasPrefix_spec. split.
    + intros [[t Ht]|?]; [|done]. by exists EmptyString, t.
    + intros (a & b & E). left. destruct a; [by exists b|done].
  - change (String.prefix sub (String x s)) with (HasPrefix (String x s) sub). rewrite HasPrefix_spec, IH. split.
    + intros [[t Ht]|(a & b & ->)]; [by exists EmptyString, t|by exists (String x a), b].
    + intros ([|y a] & b & E); [left; by exists b|]. injection E as -> ->. right. by exists a, b.
Qed.

(** No word of [Fields] contains a space. *)
Lemma contains_byte_app s t c : contains_byte (s +:+ t) c = contains_byte s c || contains_byte t c.
Proof. induction s as [|a s IH]; simpl; [done|]. by rewrite IH, orb_assoc. Qed.

Lemma list_ascii_app s t :
  String.list_ascii_of_string (s +:+ t) = String.list_ascii_of_string s ++ String.list_ascii_of_string t.
Proof. induction s as [|a s IH]; simpl; [done|]. by rewrite IH. Qed.

Lemma contains_byte_elem s c : contains_byte s c = true <-> c ∈ String.list_ascii_of_string s.
Proof.
  induction s as [|a s IH]; simpl; [split; [done|by intros ?%elem_of_nil]|].
  rewrite orb_true_iff, bool_decide_eq_true, elem_of_cons, IH. naive_solver.
Qed.

Lemma contains_byte_rev s c : contains_byte (rev_string s) c = contains_byte s c.
Proof.
  apply eq_bool_prop_intro. rewrite !Is_true_true, !contains_byte_elem. unfold rev_string.
  rewrite String.list_ascii_of_string_of_list_ascii. rewrite !list_elem_of_In. symmetry. apply in_rev.
Qed.

Lemma space_len_space s : space_len space_encodings (String " " s) <> 0%nat.
Proof. by destruct s. Qed.

Lemma fields_no_space skip cur s :
  contains_byte cur " " = false -> Forall (fun w => contains_byte w " " = false) (fields_go skip cur s).
Proof.
  revert skip cur. induction s as [|a s IH]; intros skip cur Hcur; cbn [fields_go]; cbv zeta.
  - destruct (cur == EmptyString); repeat constructor. by rewrite contains_byte_rev.
  - destruct skip; [|by apply IH]. destruct (space_len _ _) eqn:El.
    + apply IH. simpl. rewrite Hcur, orb_false_r. apply bool_decide_eq_false. intros ->. by apply space_len_space in El.
    + apply Forall_app. split; [|by apply IH]. destruct (cur == EmptyString); repeat constructor. by rewrite contains_byte_rev.
Qed.

(** A phrase at the start of, or inside, words joined by spaces is a run of the words. *)
Lemma prefix_words ws p t :
  Forall (fun w => contains_byte w " " = false) ws -> HasPrefix (Join ws " ") (p +:+ String " " t) = true ->
  exists rest, ws = Split p " " ++ rest.
Proof.
  intros Hws Hp. apply HasPrefix_spec in Hp as [u Hu]. rewrite <- append_assoc in Hu.
  destruct ws as [|w ws]; [by destruct p|].
  exists (Split (t +:+ u) " "). rewrite <- (Split_Join (w :: ws) " ") by done. by rewrite Hu, <- Split_app.
Qed.

Lemma inner_words ws p :
  Forall (fun w => contains_byte w " " = false) ws -> Contains (Join ws " ") (String " " (p +:+ " ")) = true ->
  exists before after, ws = before ++ Split p " " ++ after.
Proof.
  intros Hws Hp. apply Contains_spec in Hp as (a & b & E).
  destruct ws as [|w ws]; [by destruct a|].
  exists (Split a " "), (Split b " "). rewrite <- (Split_Join (w :: ws) " ") by done. unfold Join in *. rewrite E.
  change (String " " (p +:+ " ") +:+ b) with (String " " ((p +:+ " ") +:+ b)).
  rewrite Split_app, <- append_assoc. f_equal. change (" " +:+ b) with (String " " b). by rewrite Split_app.
Qed.
