(* ===== verification/Digest.v ===== *)
(** * SHA-256 and content digests

    Go's [sha256.Sum256] followed by [hex.EncodeToString], which the program
    uses to name artifacts, bind authorizations to plans and derive identities.
    The function is written out (FIPS 180-4) so that witnesses compute it; the
    theorems about the program only use its shape: 64 lowercase hexadecimal
    digits. *)

From S2P Require Import Prelude GoStrings.

Module Sha256.

Definition w32 (x : Z) : Z := x mod 2 ^ 32.
Definition rotr (n x : Z) : Z := Z.lor (Z.shiftr x n) (w32 (Z.shiftl x (32 - n))).
Definition add32 (x y : Z) : Z := w32 (x + y).
Definition ch (x y z : Z) : Z := Z.lxor (Z.land x y) (Z.land (Z.lxor x 4294967295) z).
Definition maj (x y z : Z) : Z := Z.lxor (Z.lxor (Z.land x y) (Z.land x z)) (Z.land y z).
Definition bsig0 (x : Z) : Z := Z.lxor (Z.lxor (rotr 2 x) (rotr 13 x)) (rotr 22 x).
Definition bsig1 (x : Z) : Z := Z.lxor (Z.lxor (rotr 6 x) (rotr 11 x)) (rotr 25 x).
Definition ssig0 (x : Z) : Z := Z.lxor (Z.lxor (rotr 7 x) (rotr 18 x)) (Z.shiftr x 3).
Definition ssig1 (x : Z) : Z := Z.lxor (Z.lxor (rotr 17 x) (rotr 19 x)) (Z.shiftr x 10).

(** The constants of the standard: the first 32 bits of the fractional parts of
    the cube roots (square roots) of the first primes. *)
Definition primes (bound : nat) : list Z :=
  List.filter (fun p => forallb (fun d => negb (p mod d =? 0)) (seqZ 2 (p - 2))) (seqZ 2 (Z.of_nat bound)).

(** The largest [r] below [2 ^ bits] with [r ^ k <= n]. *)
Fixpoint root (k : Z) (bits : nat) (r n : Z) : Z :=
  match bits with
  | O => r
  | S b =>
      let r' := r + 2 ^ Z.of_nat b in
      root k b (if r' ^ k <=? n then r' else r) n
  end.
Definition fraction_bits (k p : Z) : Z := root k 40 0 (p * 2 ^ (32 * k)) mod 2 ^ 32.

Definition K : list Z := Eval vm_compute in (fraction_bits 3 <$> primes 310).
Definition H0 : list Z := Eval vm_compute in (fraction_bits 2 <$> primes 18).

(** The message is padded with 0x80, zeros and its length in bits. *)
Definition be64 (x : Z) : list Z :=
  (fun i => Z.shiftr x (8 * i) mod 256) <$> [7; 6; 5; 4; 3; 2; 1; 0].
Definition pad (msg : list Z) : list Z :=
  let n := Z.of_nat (length msg) in
  msg ++ [128] ++ replicate (Z.to_nat ((55 - n) mod 64)) 0 ++ be64 (8 * n).

Fixpoint words (l : list Z) : list Z :=
  match l with
  | a :: b :: c :: d :: l' => a * 2 ^ 24 + b * 2 ^ 16 + c * 2 ^ 8 + d :: words l'
  | _ => []
  end.

(** The schedule, newest word first. *)
Fixpoint expand (n : nat) (w : list Z) : list Z :=
  match n with
  | O => w
  | S n' =>
      let x := add32 (add32 (ssig1 (nth 1 w 0)) (nth 6 w 0)) (add32 (ssig0 (nth 14 w 0)) (nth 15 w 0)) in
      expand n' (x :: w)
  end.

Definition round (st : list Z) (kw : Z * Z) : list Z :=
  match st with
  | [a; b; c; d; e; f; g; h] =>
      let t1 := add32 (add32 h (bsig1 e)) (add32 (ch e f g) (add32 kw.1 kw.2)) in
      let t2 := add32 (bsig0 a) (maj a b c) in
      [add32 t1 t2; a; b; c; add32 d t1; e; f; g]
  | _ => st
  end.

Definition compress (st block : list Z) : list Z :=
  zip_with add32 st (fold_left round (zip K (rev (expand 48 (rev block)))) st).

Fixpoint blocks (fuel : nat) (ws : list Z) (st : list Z) : list Z :=
  match fuel, ws with
  | S fuel', _ :: _ => blocks fuel' (drop 16 ws) (compress st (take 16 ws))
  | _, _ => st
  end.

Definition word_bytes (w : Z) : list Z :=
  (fun i => Z.shiftr w (8 * i) mod 256) <$> [3; 2; 1; 0].

Definition sum (msg : list Z) : list Z :=
  let ws := words (pad msg) in
  concat (word_bytes <$> blocks (length ws) ws H0).

End Sha256.

(** [sum := sha256.Sum256([]byte(s)); hex.EncodeToString(sum[:])]. *)
Definition sha256_hex (s : string) : string := hex_encode (Sha256.sum (string_bytes s)).

(** FIPS 180-4 test vectors. *)
Example sha256_abc :
  sha256_hex "abc" = "ba7816bf8f01cfea414140de5dae2223b00361a396177a9cb410ff61f20015ad".
Proof. vm_compute. reflexivity. Qed.

Example sha256_two_blocks :
  sha256_hex "abcdbcdecdefdefgefghfghighijhijkijkljklmklmnlmnomnopnopq" =
  "248d6a61d20638b8e5c026930c3e6039a33ce45964ff2167f6ecedd419db06c1".
Proof. vm_compute. reflexivity. Qed.

(** ** Shape of a digest *)
Definition is_lower_hex (c : ascii) : bool := is_digit c || between "a" "f" c.

Lemma length_round st kw : length st = 8%nat -> length (Sha256.round st kw) = 8%nat.
Proof. intros H. do 9 (destruct st as [|? st]; try done). Qed.

Lemma length_rounds kws st : length st = 8%nat -> length (fold_left Sha256.round kws st) = 8%nat.
Proof. revert st. induction kws; simpl; auto using length_round. Qed.

Lemma length_blocks fuel ws st : length st = 8%nat -> length (Sha256.blocks fuel ws st) = 8%nat.
Proof.
  revert ws st. induction fuel as [|fuel IH]; intros [|w ws] st H; simpl; auto.
  apply IH. unfold Sha256.compress. rewrite length_zip_with, length_rounds, H by done. done.
Qed.

Lemma length_concat_words ws : length (concat (Sha256.word_bytes <$> ws)) = (4 * length ws)%nat.
Proof. induction ws as [|w ws IH]; [done|]. rewrite fmap_cons, concat_cons, length_app, IH. simpl. lia. Qed.

Lemma length_sum msg : length (Sha256.sum msg) = 32%nat.
Proof. unfold Sha256.sum. rewrite length_concat_words, length_blocks; done. Qed.

Lemma sum_bytes msg : Forall (fun b => 0 <= b < 256) (Sha256.sum msg).
Proof.
  apply Forall_concat, Forall_fmap, Forall_true. intros w.
  unfold compose, Sha256.word_bytes. repeat constructor; simpl; apply Z.mod_pos_bound; lia.
Qed.

(** A finite check by computation. *)
Lemma check_below (P : Z -> bool) k n : forallb P (seqZ 0 k) = true -> 0 <= n < k -> P n = true.
Proof. rewrite forallb_forall. intros HP Hn. apply HP. apply list_elem_of_In, elem_of_seqZ. lia. Qed.

Lemma hex_digit_lower n : 0 <= n < 16 -> is_lower_hex (hex_digit n) = true.
Proof. by apply (check_below (fun n => is_lower_hex (hex_digit n))). Qed.

Lemma hex_encode_lower l :
  Forall (fun b => 0 <= b < 256) l -> string_forallb is_lower_hex (hex_encode l) = true.
Proof.
  induction 1 as [|b l Hb _ IH]; [done|]. simpl. rewrite IH.
  rewrite !hex_digit_lower; [done|..].
  - apply Z.mod_pos_bound. lia.
  - split; [apply Z.div_pos; lia|apply Z.div_lt_upper_bound; lia].
Qed.

Lemma length_hex_encode l : String.length (hex_encode l) = (2 * length l)%nat.
Proof. induction l as [|b l IH]; [done|]. simpl. rewrite IH. lia. Qed.

Lemma sha256_hex_length s : String.length (sha256_hex s) = 64%nat.
Proof. unfold sha256_hex. by rewrite length_hex_encode, length_sum. Qed.

Lemma sha256_hex_lower s : string_forallb is_lower_hex (sha256_hex s) = true.
Proof. apply hex_encode_lower, sum_bytes. Qed.

Lemma hex_value_digit n : 0 <= n < 16 -> hex_value (hex_digit n) = Some n.
Proof.
  intros Hn. by apply (check_below (fun n => hex_value (hex_digit n) == Some n)), bool_decide_eq_true in Hn.
Qed.

(** Hexadecimal round trip on bytes. *)
Lemma hex_decode_encode l :
  Forall (fun b => 0 <= b < 256) l -> hex_decode (hex_encode l) = Some l.
Proof.
  induction 1 as [|b l Hb _ IH]; [done|]. simpl. rewrite IH.
  rewrite !hex_value_digit; simpl.
  - f_equal. f_equal. pose proof (Z.div_mod b 16). lia.
  - split; [apply Z.div_pos; lia|apply Z.div_lt_upper_bound; lia].
  - apply Z.mod_pos_bound. lia.
Qed.

Lemma is_lower_hex_not_upper c : is_lower_hex c = true -> is_upper c = false.
Proof.
  unfold is_lower_hex, is_digit, is_upper, between. 
  change (byte_of "0"%char) with 48; change (byte_of "9"%char) with 57;
  change (byte_of "a"%char) with 97; change (byte_of "f"%char) with 102;
  change (byte_of "A"%char) with 65; change (byte_of "Z"%char) with 90.
  lia.
Qed.

Lemma is_lower_hex_ascii c : is_lower_hex c = true -> (byte_of c <? 128) = true.
Proof.
  unfold is_lower_hex, is_digit, between.
  change (byte_of "0"%char) with 48; change (byte_of "9"%char) with 57;
  change (byte_of "a"%char) with 97; change (byte_of "f"%char) with 102. lia.
Qed.

(** A lowercase hexadecimal string is its own lower case. *)
Lemma ToLower_lower_hex `{Unicode} s : string_forallb is_lower_hex s = true -> ToLower s = s.
Proof.
  intros Hs. unfold ToLower, is_ascii.
  rewrite (string_forallb_impl _ _ _ is_lower_hex_ascii Hs).
  induction s as [|c s IH]; [done|]. simpl in *. apply andb_true_iff in Hs as [Hc Hs].
  rewrite IH by done. unfold lower_byte. by rewrite (is_lower_hex_not_upper c Hc).
Qed.
