(* ===== verification/Documents.v ===== *)
(** * The documents of the SDK

    One record per Go struct of sdk/ and internal/provider/compute/, each in a
    module of its name so that the fields keep theirs: [State.Phase s].
    [with_F] is the assignment [s.F = v] on a value.

    Conventions: [int], [int64] and instants are [Z] (an instant is its
    UnixNano, [zero_time] is Go's zero [time.Time]); a pointer that may be nil
    is an [option]; a [map[string]string] is a [gmap]; nil and empty slices or
    maps are not distinguished (no code modelled here does). *)

From S2P Require Import Prelude.

Definition zero_time : Z := -62135596800 * 10 ^ 9.

(** provider/compute Shape *)
Module Shape.

Record Shape : Type := mk {
  ID : string;
  Name : string;
  VCPU : Z;
  Memory : Z;
  GB : Z
}.

#[global] Instance Shape_eq_dec : EqDecision Shape.
Proof. solve_decision. Defined.

End Shape.
Abbreviation Shape := Shape.Shape (only parsing).

(** provider/compute Address *)
Module Address.

Record Address : Type := mk {
  Addr : string;
  Version : Z;
  Type_ : string
}.

#[global] Instance Address_eq_dec : EqDecision Address.
Proof. solve_decision. Defined.

End Address.
Abbreviation Address := Address.Address (only parsing).

(** provider/compute Fault *)
Module Fault.

Record Fault : Type := mk {
  Code : Z;
  Message : string;
  Details : string
}.

#[global] Instance Fault_eq_dec : EqDecision Fault.
Proof. solve_decision. Defined.

End Fault.
Abbreviation Fault := Fault.Fault (only parsing).

(** provider/compute Server; the address map is listed in iteration order *)
Module Server.

Record Server : Type := mk {
  ID : string;
  Name : string;
  Status : string;
  Metadata : gmap string string;
  Fault_ : option Fault.Fault;
  Addresses : list (string * list Address.Address)
}.

#[global] Instance Server_eq_dec : EqDecision Server.
Proof. solve_decision. Defined.

End Server.
Abbreviation Server := Server.Server (only parsing).

(** provider/compute SecurityPolicy *)
Module SecurityPolicy.

Record SecurityPolicy : Type := mk {
  ID : string;
  PortID : string;
  RuleID : string;
  Port : Z
}.

#[global] Instance SecurityPolicy_eq_dec : EqDecision SecurityPolicy.
Proof. solve_decision. Defined.

End SecurityPolicy.
Abbreviation SecurityPolicy := SecurityPolicy.SecurityPolicy (only parsing).

(** provider/compute ManagedServerRequest *)
Module ManagedServerRequest.

Record ManagedServerRequest : Type := mk {
  Name : string;
  Sandbox : string;
  OperationID : string;
  FlavorID : string;
  ImageID : string;
  NetworkID : string;
  UserData : string
}.

#[global] Instance ManagedServerRequest_eq_dec : EqDecision ManagedServerRequest.
Proof. solve_decision. Defined.

End ManagedServerRequest.
Abbreviation ManagedServerRequest := ManagedServerRequest.ManagedServerRequest (only parsing).

(** provider/compute ManagedTCPExposureRequest *)
Module ManagedTCPExposureRequest.

Record ManagedTCPExposureRequest : Type := mk {
  ServerID : string;
  Name : string;
  Ownership : string;
  Port : Z
}.

#[global] Instance ManagedTCPExposureRequest_eq_dec : EqDecision ManagedTCPExposureRequest.
Proof. solve_decision. Defined.

End ManagedTCPExposureRequest.
Abbreviation ManagedTCPExposureRequest := ManagedTCPExposureRequest.ManagedTCPExposureRequest (only parsing).

(** client.go Resource *)
Module Resource.

Record Resource : Type := mk {
  ID : string;
  Name : string;
  Status : string;
  Address : string
}.

#[global] Instance Resource_eq_dec : EqDecision Resource.
Proof. solve_decision. Defined.

Definition with_Status (v : string) (x : Resource) : Resource :=
  mk x.(ID) x.(Name) v x.(Address).
Definition with_Address (v : string) (x : Resource) : Resource :=
  mk x.(ID) x.(Name) x.(Status) v.

End Resource.
Abbreviation Resource := Resource.Resource (only parsing).

(** client.go Attempt *)
Module Attempt.

Record Attempt : Type := mk {
  ID : string;
  Status : string;
  Failure : string
}.

#[global] Instance Attempt_eq_dec : EqDecision Attempt.
Proof. solve_decision. Defined.

End Attempt.
Abbreviation Attempt := Attempt.Attempt (only parsing).

(** client.go NetworkPolicy *)
Module NetworkPolicy.

Record NetworkPolicy : Type := mk {
  ID : string;
  PortID : string;
  RuleID : string;
  Name : string;
  Ownership : string;
  Protocol : string;
  Port : Z
}.

#[global] Instance NetworkPolicy_eq_dec : EqDecision NetworkPolicy.
Proof. solve_decision. Defined.

End NetworkPolicy.
Abbreviation NetworkPolicy := NetworkPolicy.NetworkPolicy (only parsing).

(** client.go ExposureIntent *)
Module ExposureIntent.

Record ExposureIntent : Type := mk {
  OperationID : string;
  ServerID : string;
  Name : string;
  Ownership : string;
  Protocol : string;
  Port : Z;
  Phase : string;
  MutationUnresolved : bool;
  CreatedAt : Z;
  AttemptedAt : option Z
}.

#[global] Instance ExposureIntent_eq_dec : EqDecision ExposureIntent.
Proof. solve_decision. Defined.

Definition with_Phase (v : string) (x : ExposureIntent) : ExposureIntent :=
  mk x.(OperationID) x.(ServerID) x.(Name) x.(Ownership) x.(Protocol) x.(Port) v x.(MutationUnresolved) x.(CreatedAt) x.(AttemptedAt).
Definition with_MutationUnresolved (v : bool) (x : ExposureIntent) : ExposureIntent :=
  mk x.(OperationID) x.(ServerID) x.(Name) x.(Ownership) x.(Protocol) x.(Port) x.(Phase) v x.(CreatedAt) x.(AttemptedAt).

End ExposureIntent.
Abbreviation ExposureIntent := ExposureIntent.ExposureIntent (only parsing).

(** client.go ComputeResourceIntent *)
Module ComputeResourceIntent.

Record ComputeResourceIntent : Type := mk {
  Replica : Z;
  Name : string;
  ProofKey : string;
  NetworkIndex : Z;
  ResourceID : string;
  Phase : string;
  AttemptID : string;
  CreateAttemptedAt : option Z;
  ReconcileUntil : option Z
}.

#[global] Instance ComputeResourceIntent_eq_dec : EqDecision ComputeResourceIntent.
Proof. solve_decision. Defined.

Definition with_NetworkIndex (v : Z) (x : ComputeResourceIntent) : ComputeResourceIntent :=
  mk x.(Replica) x.(Name) x.(ProofKey) v x.(ResourceID) x.(Phase) x.(AttemptID) x.(CreateAttemptedAt) x.(ReconcileUntil).
Definition with_ResourceID (v : string) (x : ComputeResourceIntent) : ComputeResourceIntent :=
  mk x.(Replica) x.(Name) x.(ProofKey) x.(NetworkIndex) v x.(Phase) x.(AttemptID) x.(CreateAttemptedAt) x.(ReconcileUntil).
Definition with_Phase (v : string) (x : ComputeResourceIntent) : ComputeResourceIntent :=
  mk x.(Replica) x.(Name) x.(ProofKey) x.(NetworkIndex) x.(ResourceID) v x.(AttemptID) x.(CreateAttemptedAt) x.(ReconcileUntil).
Definition with_AttemptID (v : string) (x : ComputeResourceIntent) : ComputeResourceIntent :=
  mk x.(Replica) x.(Name) x.(ProofKey) x.(NetworkIndex) x.(ResourceID) x.(Phase) v x.(CreateAttemptedAt) x.(ReconcileUntil).
Definition with_CreateAttemptedAt (v : option Z) (x : ComputeResourceIntent) : ComputeResourceIntent :=
  mk x.(Replica) x.(Name) x.(ProofKey) x.(NetworkIndex) x.(ResourceID) x.(Phase) x.(AttemptID) v x.(ReconcileUntil).
Definition with_ReconcileUntil (v : option Z) (x : ComputeResourceIntent) : ComputeResourceIntent :=
  mk x.(Replica) x.(Name) x.(ProofKey) x.(NetworkIndex) x.(ResourceID) x.(Phase) x.(AttemptID) x.(CreateAttemptedAt) v.

End ComputeResourceIntent.
Abbreviation ComputeResourceIntent := ComputeResourceIntent.ComputeResourceIntent (only parsing).

(** client.go CreationIntent *)
Module CreationIntent.

Record CreationIntent : Type := mk {
  OperationID : string;
  DesiredClass : string;
  DesiredImage : string;
  ShapeID : string;
  ImageID : string;
  NetworkIDs : list string;
  Resources : list ComputeResourceIntent.ComputeResourceIntent;
  Phase : string;
  CreatedAt : Z
}.

#[global] Instance CreationIntent_eq_dec : EqDecision CreationIntent.
Proof. solve_decision. Defined.

Definition with_Resources (v : list ComputeResourceIntent.ComputeResourceIntent) (x : CreationIntent) : CreationIntent :=
  mk x.(OperationID) x.(DesiredClass) x.(DesiredImage) x.(ShapeID) x.(ImageID) x.(NetworkIDs) v x.(Phase) x.(CreatedAt).
Definition with_Phase (v : string) (x : CreationIntent) : CreationIntent :=
  mk x.(OperationID) x.(DesiredClass) x.(DesiredImage) x.(ShapeID) x.(ImageID) x.(NetworkIDs) x.(Resources) v x.(CreatedAt).

End CreationIntent.
Abbreviation CreationIntent := CreationIntent.CreationIntent (only parsing).

(** client.go State *)
Module State.

Record State : Type := mk {
  Sandbox : string;
  Phase : string;
  Class_ : string;
  Image : string;
  Resources : list Resource.Resource;
  Attempts : list Attempt.Attempt;
  ProofKeys : list string;
  CreatedAt : Z;
  DestroyedAt : option Z;
  Failure : string;
  NetworkPolicies : list NetworkPolicy.NetworkPolicy;
  CreationIntent_ : option CreationIntent.CreationIntent;
  ExposureIntent_ : option ExposureIntent.ExposureIntent
}.

#[global] Instance State_eq_dec : EqDecision State.
Proof. solve_decision. Defined.

Definition with_Phase (v : string) (x : State) : State :=
  mk x.(Sandbox) v x.(Class_) x.(Image) x.(Resources) x.(Attempts) x.(ProofKeys) x.(CreatedAt) x.(DestroyedAt) x.(Failure) x.(NetworkPolicies) x.(CreationIntent_) x.(ExposureIntent_).
Definition with_Resources (v : list Resource.Resource) (x : State) : State :=
  mk x.(Sandbox) x.(Phase) x.(Class_) x.(Image) v x.(Attempts) x.(ProofKeys) x.(CreatedAt) x.(DestroyedAt) x.(Failure) x.(NetworkPolicies) x.(CreationIntent_) x.(ExposureIntent_).
Definition with_Attempts (v : list Attempt.Attempt) (x : State) : State :=
  mk x.(Sandbox) x.(Phase) x.(Class_) x.(Image) x.(Resources) v x.(ProofKeys) x.(CreatedAt) x.(DestroyedAt) x.(Failure) x.(NetworkPolicies) x.(CreationIntent_) x.(ExposureIntent_).
Definition with_DestroyedAt (v : option Z) (x : State) : State :=
  mk x.(Sandbox) x.(Phase) x.(Class_) x.(Image) x.(Resources) x.(Attempts) x.(ProofKeys) x.(CreatedAt) v x.(Failure) x.(NetworkPolicies) x.(CreationIntent_) x.(ExposureIntent_).
Definition with_Failure (v : string) (x : State) : State :=
  mk x.(Sandbox) x.(Phase) x.(Class_) x.(Image) x.(Resources) x.(Attempts) x.(ProofKeys) x.(CreatedAt) x.(DestroyedAt) v x.(NetworkPolicies) x.(CreationIntent_) x.(ExposureIntent_).
Definition with_NetworkPolicies (v : list NetworkPolicy.NetworkPolicy) (x : State) : State :=
  mk x.(Sandbox) x.(Phase) x.(Class_) x.(Image) x.(Resources) x.(Attempts) x.(ProofKeys) x.(CreatedAt) x.(DestroyedAt) x.(Failure) v x.(CreationIntent_) x.(ExposureIntent_).
Definition with_CreationIntent_ (v : option CreationIntent.CreationIntent) (x : State) : State :=
  mk x.(Sandbox) x.(Phase) x.(Class_) x.(Image) x.(Resources) x.(Attempts) x.(ProofKeys) x.(CreatedAt) x.(DestroyedAt) x.(Failure) x.(NetworkPolicies) v x.(ExposureIntent_).
Definition with_ExposureIntent_ (v : option ExposureIntent.ExposureIntent) (x : State) : State :=
  mk x.(Sandbox) x.(Phase) x.(Class_) x.(Image) x.(Resources) x.(Attempts) x.(ProofKeys) x.(CreatedAt) x.(DestroyedAt) x.(Failure) x.(NetworkPolicies) x.(CreationIntent_) v.

End State.
Abbreviation State := State.State (only parsing).

(** client.go Operation *)
Module Operation.

Record Operation : Type := mk {
  Kind : string;
  Name : string;
  Class_ : string;
  Image : string;
  Replicas : Z;
  Prefix : string
}.

#[global] Instance Operation_eq_dec : EqDecision Operation.
Proof. solve_decision. Defined.

End Operation.
Abbreviation Operation := Operation.Operation (only parsing).

(** client.go Plan *)
Module Plan.

Record Plan : Type := mk {
  SchemaVersion : string;
  Summary : string;
  Operations : list Operation.Operation;
  Model : string;
  LatencyMS : Z
}.

#[global] Instance Plan_eq_dec : EqDecision Plan.
Proof. solve_decision. Defined.

Definition with_Model (v : string) (x : Plan) : Plan :=
  mk x.(SchemaVersion) x.(Summary) x.(Operations) v x.(LatencyMS).
Definition with_LatencyMS (v : Z) (x : Plan) : Plan :=
  mk x.(SchemaVersion) x.(Summary) x.(Operations) x.(Model) v.

End Plan.
Abbreviation Plan := Plan.Plan (only parsing).

(** client.go ApplyResult *)
Module ApplyResult.

Record ApplyResult : Type := mk {
  OperationID : string;
  Plan_ : Plan.Plan;
  State_ : State.State;
  ReceiptKey : string;
  ElapsedMS : Z
}.

#[global] Instance ApplyResult_eq_dec : EqDecision ApplyResult.
Proof. solve_decision. Defined.

Definition with_State_ (v : State.State) (x : ApplyResult) : ApplyResult :=
  mk x.(OperationID) x.(Plan_) v x.(ReceiptKey) x.(ElapsedMS).

End ApplyResult.
Abbreviation ApplyResult := ApplyResult.ApplyResult (only parsing).

(** client.go BootProof *)
Module BootProof.

Record BootProof : Type := mk {
  Sandbox : string;
  Status : string;
  ExitCode : Z;
  Hostname : string;
  MessageBase64 : string
}.

#[global] Instance BootProof_eq_dec : EqDecision BootProof.
Proof. solve_decision. Defined.

End BootProof.
Abbreviation BootProof := BootProof.BootProof (only parsing).

(** client.go Checkpoint *)
Module Checkpoint.

Record Checkpoint : Type := mk {
  ID : string;
  Sandbox : string;
  Message : string;
  CreatedAt : Z;
  Verified : bool
}.

#[global] Instance Checkpoint_eq_dec : EqDecision Checkpoint.
Proof. solve_decision. Defined.

Definition with_Verified (v : bool) (x : Checkpoint) : Checkpoint :=
  mk x.(ID) x.(Sandbox) x.(Message) x.(CreatedAt) v.

End Checkpoint.
Abbreviation Checkpoint := Checkpoint.Checkpoint (only parsing).

(** actor.go ActorRef *)
Module ActorRef.

Record ActorRef : Type := mk {
  Kind : string;
  ID : string;
  SessionID : string;
  DisplayName : string
}.

#[global] Instance ActorRef_eq_dec : EqDecision ActorRef.
Proof. solve_decision. Defined.

End ActorRef.
Abbreviation ActorRef := ActorRef.ActorRef (only parsing).

(** actor.go ChangeBaseRevision *)
Module ChangeBaseRevision.

Record ChangeBaseRevision : Type := mk {
  WorkspaceID : string;
  WorkspaceRevision : Z;
  SystemRevision : Z
}.

#[global] Instance ChangeBaseRevision_eq_dec : EqDecision ChangeBaseRevision.
Proof. solve_decision. Defined.

End ChangeBaseRevision.
Abbreviation ChangeBaseRevision := ChangeBaseRevision.ChangeBaseRevision (only parsing).

(** release.go CapacityLease *)
Module CapacityLease.

Record CapacityLease : Type := mk {
  ExpiresAt : Z;
  RestoreReplicas : Z
}.

#[global] Instance CapacityLease_eq_dec : EqDecision CapacityLease.
Proof. solve_decision. Defined.

End CapacityLease.
Abbreviation CapacityLease := CapacityLease.CapacityLease (only parsing).

(** release.go ReleaseManifest *)
Module ReleaseManifest.

Record ReleaseManifest : Type := mk {
  SchemaVersion : string;
  System : string;
  Version : string;
  ArtifactKey : string;
  ArtifactSHA : string;
  Command : list string;
  Environment : gmap string string;
  HealthPath : string;
  PublicPort : Z;
  Replicas : Z;
  CapacityLease_ : option CapacityLease.CapacityLease;
  RequestedAt : Z
}.

#[global] Instance ReleaseManifest_eq_dec : EqDecision ReleaseManifest.
Proof. solve_decision. Defined.

Definition with_Replicas (v : Z) (x : ReleaseManifest) : ReleaseManifest :=
  mk x.(SchemaVersion) x.(System) x.(Version) x.(ArtifactKey) x.(ArtifactSHA) x.(Command) x.(Environment) x.(HealthPath) x.(PublicPort) v x.(CapacityLease_) x.(RequestedAt).
Definition with_CapacityLease_ (v : option CapacityLease.CapacityLease) (x : ReleaseManifest) : ReleaseManifest :=
  mk x.(SchemaVersion) x.(System) x.(Version) x.(ArtifactKey) x.(ArtifactSHA) x.(Command) x.(Environment) x.(HealthPath) x.(PublicPort) x.(Replicas) v x.(RequestedAt).
Definition with_RequestedAt (v : Z) (x : ReleaseManifest) : ReleaseManifest :=
  mk x.(SchemaVersion) x.(System) x.(Version) x.(ArtifactKey) x.(ArtifactSHA) x.(Command) x.(Environment) x.(HealthPath) x.(PublicPort) x.(Replicas) x.(CapacityLease_) v.

End ReleaseManifest.
Abbreviation ReleaseManifest := ReleaseManifest.ReleaseManifest (only parsing).

(** release.go ObservedCapacityLease *)
Module ObservedCapacityLease.

Record ObservedCapacityLease : Type := mk {
  ExpiresAt : Z;
  RestoreReplicas : Z;
  Phase : string
}.

#[global] Instance ObservedCapacityLease_eq_dec : EqDecision ObservedCapacityLease.
Proof. solve_decision. Defined.

End ObservedCapacityLease.
Abbreviation ObservedCapacityLease := ObservedCapacityLease.ObservedCapacityLease (only parsing).

(** release.go ObservedService *)
Module ObservedService.

Record ObservedService : Type := mk {
  Name : string;
  Binding : string;
  Kind : string;
  Engine : string;
  Phase : string;
  Endpoint : string
}.

#[global] Instance ObservedService_eq_dec : EqDecision ObservedService.
Proof. solve_decision. Defined.

Definition with_Phase (v : string) (x : ObservedService) : ObservedService :=
  mk x.(Name) x.(Binding) x.(Kind) x.(Engine) v x.(Endpoint).
Definition with_Endpoint (v : string) (x : ObservedService) : ObservedService :=
  mk x.(Name) x.(Binding) x.(Kind) x.(Engine) x.(Phase) v.

End ObservedService.
Abbreviation ObservedService := ObservedService.ObservedService (only parsing).

(** release.go ObservedRelease *)
Module ObservedRelease.

Record ObservedRelease : Type := mk {
  SchemaVersion : string;
  System : string;
  Phase : string;
  DesiredVersion : string;
  RunningVersion : string;
  PID : Z;
  Restarts : Z;
  PublicPort : Z;
  InternalPort : Z;
  DesiredReplicas : Z;
  ReadyReplicas : Z;
  ReplicaPIDs : list Z;
  CapacityLease_ : option ObservedCapacityLease.ObservedCapacityLease;
  Healthy : bool;
  Message : string;
  Services : list ObservedService.ObservedService;
  Node : string;
  UpdatedAt : Z
}.

#[global] Instance ObservedRelease_eq_dec : EqDecision ObservedRelease.
Proof. solve_decision. Defined.

End ObservedRelease.
Abbreviation ObservedRelease := ObservedRelease.ObservedRelease (only parsing).

(** release.go RuntimeControl *)
Module RuntimeControl.

Record RuntimeControl : Type := mk {
  ID : string;
  Action : string;
  RequestedAt : Z
}.

#[global] Instance RuntimeControl_eq_dec : EqDecision RuntimeControl.
Proof. solve_decision. Defined.

End RuntimeControl.
Abbreviation RuntimeControl := RuntimeControl.RuntimeControl (only parsing).

(** node_gateway.go control-ack.json object *)
Module ControlAck.

Record ControlAck : Type := mk {
  ID : string;
  Action : string;
  CompletedAt : Z
}.

#[global] Instance ControlAck_eq_dec : EqDecision ControlAck.
Proof. solve_decision. Defined.

End ControlAck.
Abbreviation ControlAck := ControlAck.ControlAck (only parsing).

(** release.go StagedArtifact *)
Module StagedArtifact.

Record StagedArtifact : Type := mk {
  Key : string;
  SHA256 : string;
  Size : Z;
  ContentType : string;
  Filename : string
}.

#[global] Instance StagedArtifact_eq_dec : EqDecision StagedArtifact.
Proof. solve_decision. Defined.

End StagedArtifact.
Abbreviation StagedArtifact := StagedArtifact.StagedArtifact (only parsing).

(** runtime_action.go RuntimeAction *)
Module RuntimeAction.

Record RuntimeAction : Type := mk {
  SchemaVersion : string;
  ID : string;
  System : string;
  Service : string;
  Kind : string;
  Parameters : gmap string string;
  LeaseKey : string;
  FencingToken : string;
  RequestedAt : Z
}.

#[global] Instance RuntimeAction_eq_dec : EqDecision RuntimeAction.
Proof. solve_decision. Defined.

Definition with_LeaseKey (v : string) (x : RuntimeAction) : RuntimeAction :=
  mk x.(SchemaVersion) x.(ID) x.(System) x.(Service) x.(Kind) x.(Parameters) v x.(FencingToken) x.(RequestedAt).

End RuntimeAction.
Abbreviation RuntimeAction := RuntimeAction.RuntimeAction (only parsing).

(** runtime_action.go RuntimeActionResult *)
Module RuntimeActionResult.

Record RuntimeActionResult : Type := mk {
  SchemaVersion : string;
  ID : string;
  System : string;
  Service : string;
  Kind : string;
  Phase : string;
  Message : string;
  Duplicate : bool;
  CompletedAt : Z
}.

#[global] Instance RuntimeActionResult_eq_dec : EqDecision RuntimeActionResult.
Proof. solve_decision. Defined.

End RuntimeActionResult.
Abbreviation RuntimeActionResult := RuntimeActionResult.RuntimeActionResult (only parsing).

(** runtime_action.go ChangeLease *)
Module ChangeLease.

Record ChangeLease : Type := mk {
  SchemaVersion : string;
  ChangeID : string;
  Holder : string;
  FencingToken : string;
  ExpiresAt : Z
}.

#[global] Instance ChangeLease_eq_dec : EqDecision ChangeLease.
Proof. solve_decision. Defined.

Definition with_ExpiresAt (v : Z) (x : ChangeLease) : ChangeLease :=
  mk x.(SchemaVersion) x.(ChangeID) x.(Holder) x.(FencingToken) v.

End ChangeLease.
Abbreviation ChangeLease := ChangeLease.ChangeLease (only parsing).

(** system.go ServiceResources *)
Module ServiceResources.

Record ServiceResources : Type := mk {
  VCPU : Z;
  MemoryMiB : Z
}.

#[global] Instance ServiceResources_eq_dec : EqDecision ServiceResources.
Proof. solve_decision. Defined.

End ServiceResources.
Abbreviation ServiceResources := ServiceResources.ServiceResources (only parsing).

(** system.go Readiness *)
Module Readiness.

Record Readiness : Type := mk {
  Protocol : string;
  Port : Z
}.

#[global] Instance Readiness_eq_dec : EqDecision Readiness.
Proof. solve_decision. Defined.

End Readiness.
Abbreviation Readiness := Readiness.Readiness (only parsing).

(** spec.go Metadata *)
Module Metadata.

Record Metadata : Type := mk {
  Name : string
}.

#[global] Instance Metadata_eq_dec : EqDecision Metadata.
Proof. solve_decision. Defined.

End Metadata.
Abbreviation Metadata := Metadata.Metadata (only parsing).

(** spec.go ComputeSpec *)
Module ComputeSpec.

Record ComputeSpec : Type := mk {
  Class_ : string;
  Image : string;
  Replicas : Z;
  Bootstrap : string
}.

#[global] Instance ComputeSpec_eq_dec : EqDecision ComputeSpec.
Proof. solve_decision. Defined.

End ComputeSpec.
Abbreviation ComputeSpec := ComputeSpec.ComputeSpec (only parsing).

(** spec.go M1Spec *)
Module M1Spec.

Record M1Spec : Type := mk {
  Prefix : string
}.

#[global] Instance M1Spec_eq_dec : EqDecision M1Spec.
Proof. solve_decision. Defined.

End M1Spec.
Abbreviation M1Spec := M1Spec.M1Spec (only parsing).

(** spec.go Policy *)
Module Policy.

Record Policy : Type := mk {
  MaxReplicas : Z
}.

#[global] Instance Policy_eq_dec : EqDecision Policy.
Proof. solve_decision. Defined.

End Policy.
Abbreviation Policy := Policy.Policy (only parsing).

(** spec.go Desired *)
Module Desired.

Record Desired : Type := mk {
  Intent : string;
  Compute : ComputeSpec.ComputeSpec;
  M1 : M1Spec.M1Spec;
  Policy_ : Policy.Policy
}.

#[global] Instance Desired_eq_dec : EqDecision Desired.
Proof. solve_decision. Defined.

End Desired.
Abbreviation Desired := Desired.Desired (only parsing).

(** spec.go Spec *)
Module Spec.

Record Spec : Type := mk {
  APIVersion : string;
  Kind : string;
  Metadata_ : Metadata.Metadata;
  Spec_ : Desired.Desired
}.

#[global] Instance Spec_eq_dec : EqDecision Spec.
Proof. solve_decision. Defined.

End Spec.
Abbreviation Spec := Spec.Spec (only parsing).

(** system.go HostConstraint *)
Module HostConstraint.

Record HostConstraint : Type := mk {
  Class_ : string;
  Count : Z;
  MemoryMiB : Z;
  SystemReserve : Z
}.

#[global] Instance HostConstraint_eq_dec : EqDecision HostConstraint.
Proof. solve_decision. Defined.

End HostConstraint.
Abbreviation HostConstraint := HostConstraint.HostConstraint (only parsing).

(** system.go Constraints *)
Module Constraints.

Record Constraints : Type := mk {
  Host : HostConstraint.HostConstraint
}.

#[global] Instance Constraints_eq_dec : EqDecision Constraints.
Proof. solve_decision. Defined.

End Constraints.
Abbreviation Constraints := Constraints.Constraints (only parsing).

(** system.go SystemService *)
Module SystemService.

Record SystemService : Type := mk {
  Name : string;
  Kind : string;
  Engine : string;
  Isolation : string;
  Instances : Z;
  DependsOn : list string;
  Resources : ServiceResources.ServiceResources;
  Readiness_ : Readiness.Readiness;
  Networking : string
}.

#[global] Instance SystemService_eq_dec : EqDecision SystemService.
Proof. solve_decision. Defined.

End SystemService.
Abbreviation SystemService := SystemService.SystemService (only parsing).

(** system.go SystemContract *)
Module SystemContract.

Record SystemContract : Type := mk {
  Intent : string;
  Constraints_ : Constraints.Constraints;
  Services : list SystemService.SystemService;
  M1 : M1Spec.M1Spec
}.

#[global] Instance SystemContract_eq_dec : EqDecision SystemContract.
Proof. solve_decision. Defined.

Definition with_Constraints_ (v : Constraints.Constraints) (x : SystemContract) : SystemContract :=
  mk x.(Intent) v x.(Services) x.(M1).
Definition with_Services (v : list SystemService.SystemService) (x : SystemContract) : SystemContract :=
  mk x.(Intent) x.(Constraints_) v x.(M1).
Definition with_M1 (v : M1Spec.M1Spec) (x : SystemContract) : SystemContract :=
  mk x.(Intent) x.(Constraints_) x.(Services) v.

End SystemContract.
Abbreviation SystemContract := SystemContract.SystemContract (only parsing).

(** system.go System *)
Module System.

Record System : Type := mk {
  APIVersion : string;
  Kind : string;
  Metadata_ : Metadata.Metadata;
  Spec_ : SystemContract.SystemContract
}.

#[global] Instance System_eq_dec : EqDecision System.
Proof. solve_decision. Defined.

Definition with_Spec_ (v : SystemContract.SystemContract) (x : System) : System :=
  mk x.(APIVersion) x.(Kind) x.(Metadata_) v.

End System.
Abbreviation System := System.System (only parsing).

(** system.go GraphNode *)
Module GraphNode.

Record GraphNode : Type := mk {
  ID : string;
  Kind : string;
  DependsOn : list string;
  Placement : string;
  Resources : ServiceResources.ServiceResources;
  Properties : gmap string string
}.

#[global] Instance GraphNode_eq_dec : EqDecision GraphNode.
Proof. solve_decision. Defined.

End GraphNode.
Abbreviation GraphNode := GraphNode.GraphNode (only parsing).

(** system.go Invariant *)
Module Invariant.

Record Invariant : Type := mk {
  Kind : string;
  Subject : string;
  Value : string
}.

#[global] Instance Invariant_eq_dec : EqDecision Invariant.
Proof. solve_decision. Defined.

End Invariant.
Abbreviation Invariant := Invariant.Invariant (only parsing).

(** system.go Capacity *)
Module Capacity.

Record Capacity : Type := mk {
  HostMemoryMiB : Z;
  SystemReserveMiB : Z;
  GuestMemoryMiB : Z;
  UnallocatedMemory : Z
}.

#[global] Instance Capacity_eq_dec : EqDecision Capacity.
Proof. solve_decision. Defined.

End Capacity.
Abbreviation Capacity := Capacity.Capacity (only parsing).

(** system.go ExecutionGraph *)
Module ExecutionGraph.

Record ExecutionGraph : Type := mk {
  SchemaVersion : string;
  System : string;
  Nodes : list GraphNode.GraphNode;
  Invariants : list Invariant.Invariant;
  Capacity_ : Capacity.Capacity
}.

#[global] Instance ExecutionGraph_eq_dec : EqDecision ExecutionGraph.
Proof. solve_decision. Defined.

End ExecutionGraph.
Abbreviation ExecutionGraph := ExecutionGraph.ExecutionGraph (only parsing).

(** system_view.go ServiceBinding *)
Module ServiceBinding.

Record ServiceBinding : Type := mk {
  Service : string;
  Kind : string;
  Engine : string;
  Environment : string;
  Consumers : list string
}.

#[global] Instance ServiceBinding_eq_dec : EqDecision ServiceBinding.
Proof. solve_decision. Defined.

End ServiceBinding.
Abbreviation ServiceBinding := ServiceBinding.ServiceBinding (only parsing).

(** runtime_plan.go RuntimeService *)
Module RuntimeService.

Record RuntimeService : Type := mk {
  Name : string;
  Binding : string;
  Kind : string;
  Engine : string;
  Instances : Z;
  Resources : ServiceResources.ServiceResources;
  Readiness_ : Readiness.Readiness
}.

#[global] Instance RuntimeService_eq_dec : EqDecision RuntimeService.
Proof. solve_decision. Defined.

End RuntimeService.
Abbreviation RuntimeService := RuntimeService.RuntimeService (only parsing).

(** runtime_plan.go RuntimePlan *)
Module RuntimePlan.

Record RuntimePlan : Type := mk {
  SchemaVersion : string;
  System : string;
  Services : list RuntimeService.RuntimeService
}.

#[global] Instance RuntimePlan_eq_dec : EqDecision RuntimePlan.
Proof. solve_decision. Defined.

End RuntimePlan.
Abbreviation RuntimePlan := RuntimePlan.RuntimePlan (only parsing).

(** change.go ReplicaScalePlan *)
Module ReplicaScalePlan.

Record ReplicaScalePlan : Type := mk {
  Service : string;
  FromReplicas : Z;
  ToReplicas : Z;
  CapacityMode : string;
  LeaseSeconds : Z;
  RestoreAt : option Z;
  RestoreToReplicas : Z
}.

#[global] Instance ReplicaScalePlan_eq_dec : EqDecision ReplicaScalePlan.
Proof. solve_decision. Defined.

End ReplicaScalePlan.
Abbreviation ReplicaScalePlan := ReplicaScalePlan.ReplicaScalePlan (only parsing).

(** change.go ChangeImpact *)
Module ChangeImpact.

Record ChangeImpact : Type := mk {
  AffectedServices : list string;
  Availability : string;
  Data : string;
  MonthlyCostDeltaCents : Z
}.

#[global] Instance ChangeImpact_eq_dec : EqDecision ChangeImpact.
Proof. solve_decision. Defined.

Definition with_AffectedServices (v : list string) (x : ChangeImpact) : ChangeImpact :=
  mk v x.(Availability) x.(Data) x.(MonthlyCostDeltaCents).
Definition with_Data (v : string) (x : ChangeImpact) : ChangeImpact :=
  mk x.(AffectedServices) x.(Availability) v x.(MonthlyCostDeltaCents).

End ChangeImpact.
Abbreviation ChangeImpact := ChangeImpact.ChangeImpact (only parsing).

(** change.go Migration *)
Module Migration.

Record Migration : Type := mk {
  ID : string;
  Service : string;
  Class_ : string;
  SQL : string;
  Digest : string;
  Reversibility : string
}.

#[global] Instance Migration_eq_dec : EqDecision Migration.
Proof. solve_decision. Defined.

End Migration.
Abbreviation Migration := Migration.Migration (only parsing).

(** change.go ChangeVerification *)
Module ChangeVerification.

Record ChangeVerification : Type := mk {
  Method : string;
  Path : string;
  ExpectedStatus : Z;
  BodyContains : string
}.

#[global] Instance ChangeVerification_eq_dec : EqDecision ChangeVerification.
Proof. solve_decision. Defined.

Definition with_Method (v : string) (x : ChangeVerification) : ChangeVerification :=
  mk v x.(Path) x.(ExpectedStatus) x.(BodyContains).
Definition with_ExpectedStatus (v : Z) (x : ChangeVerification) : ChangeVerification :=
  mk x.(Method) x.(Path) v x.(BodyContains).

End ChangeVerification.
Abbreviation ChangeVerification := ChangeVerification.ChangeVerification (only parsing).

(** change.go ChangePlan *)
Module ChangePlan.

Record ChangePlan : Type := mk {
  BaseRevision : ChangeBaseRevision.ChangeBaseRevision;
  BaseVersion : string;
  Release : ReleaseManifest.ReleaseManifest;
  Scale : option ReplicaScalePlan.ReplicaScalePlan;
  Migration_ : option Migration.Migration;
  Verification : ChangeVerification.ChangeVerification;
  Impact : ChangeImpact.ChangeImpact
}.

#[global] Instance ChangePlan_eq_dec : EqDecision ChangePlan.
Proof. solve_decision. Defined.

Definition with_BaseRevision (v : ChangeBaseRevision.ChangeBaseRevision) (x : ChangePlan) : ChangePlan :=
  mk v x.(BaseVersion) x.(Release) x.(Scale) x.(Migration_) x.(Verification) x.(Impact).
Definition with_Migration_ (v : option Migration.Migration) (x : ChangePlan) : ChangePlan :=
  mk x.(BaseRevision) x.(BaseVersion) x.(Release) x.(Scale) v x.(Verification) x.(Impact).
Definition with_Impact (v : ChangeImpact.ChangeImpact) (x : ChangePlan) : ChangePlan :=
  mk x.(BaseRevision) x.(BaseVersion) x.(Release) x.(Scale) x.(Migration_) x.(Verification) v.

End ChangePlan.
Abbreviation ChangePlan := ChangePlan.ChangePlan (only parsing).

(** change.go Authorization *)
Module Authorization.

Record Authorization : Type := mk {
  Digest : string;
  AuthorizedAt : Z;
  AuthorizedBy : option ActorRef.ActorRef
}.

#[global] Instance Authorization_eq_dec : EqDecision Authorization.
Proof. solve_decision. Defined.

End Authorization.
Abbreviation Authorization := Authorization.Authorization (only parsing).

(** change.go ChangeOperation *)
Module ChangeOperation.

Record ChangeOperation : Type := mk {
  ID : string;
  Kind : string;
  Description : string;
  Reversibility : string;
  Compensation : string;
  Phase : string;
  Attempts : Z;
  StartedAt : option Z;
  CompletedAt : option Z;
  Failure : string
}.

#[global] Instance ChangeOperation_eq_dec : EqDecision ChangeOperation.
Proof. solve_decision. Defined.

Definition with_Phase (v : string) (x : ChangeOperation) : ChangeOperation :=
  mk x.(ID) x.(Kind) x.(Description) x.(Reversibility) x.(Compensation) v x.(Attempts) x.(StartedAt) x.(CompletedAt) x.(Failure).
Definition with_Attempts (v : Z) (x : ChangeOperation) : ChangeOperation :=
  mk x.(ID) x.(Kind) x.(Description) x.(Reversibility) x.(Compensation) x.(Phase) v x.(StartedAt) x.(CompletedAt) x.(Failure).
Definition with_StartedAt (v : option Z) (x : ChangeOperation) : ChangeOperation :=
  mk x.(ID) x.(Kind) x.(Description) x.(Reversibility) x.(Compensation) x.(Phase) x.(Attempts) v x.(CompletedAt) x.(Failure).
Definition with_CompletedAt (v : option Z) (x : ChangeOperation) : ChangeOperation :=
  mk x.(ID) x.(Kind) x.(Description) x.(Reversibility) x.(Compensation) x.(Phase) x.(Attempts) x.(StartedAt) v x.(Failure).
Definition with_Failure (v : string) (x : ChangeOperation) : ChangeOperation :=
  mk x.(ID) x.(Kind) x.(Description) x.(Reversibility) x.(Compensation) x.(Phase) x.(Attempts) x.(StartedAt) x.(CompletedAt) v.

End ChangeOperation.
Abbreviation ChangeOperation := ChangeOperation.ChangeOperation (only parsing).

(** change.go ChangeEvidence *)
Module ChangeEvidence.

Record ChangeEvidence : Type := mk {
  OperationID : string;
  Kind : string;
  Statement : string;
  ObservedAt : Z
}.

#[global] Instance ChangeEvidence_eq_dec : EqDecision ChangeEvidence.
Proof. solve_decision. Defined.

End ChangeEvidence.
Abbreviation ChangeEvidence := ChangeEvidence.ChangeEvidence (only parsing).

(** change.go Change *)
Module Change.

Record Change : Type := mk {
  SchemaVersion : string;
  ID : string;
  System : string;
  Summary : string;
  Phase : string;
  Digest : string;
  DraftedBy : option ActorRef.ActorRef;
  Plan_ : ChangePlan.ChangePlan;
  Authorization_ : option Authorization.Authorization;
  Operations : list ChangeOperation.ChangeOperation;
  Evidence : list ChangeEvidence.ChangeEvidence;
  Residuals : list string;
  Failure : string;
  CreatedAt : Z;
  UpdatedAt : Z;
  CompletedAt : option Z
}.

#[global] Instance Change_eq_dec : EqDecision Change.
Proof. solve_decision. Defined.

Definition with_Phase (v : string) (x : Change) : Change :=
  mk x.(SchemaVersion) x.(ID) x.(System) x.(Summary) v x.(Digest) x.(DraftedBy) x.(Plan_) x.(Authorization_) x.(Operations) x.(Evidence) x.(Residuals) x.(Failure) x.(CreatedAt) x.(UpdatedAt) x.(CompletedAt).
Definition with_DraftedBy (v : option ActorRef.ActorRef) (x : Change) : Change :=
  mk x.(SchemaVersion) x.(ID) x.(System) x.(Summary) x.(Phase) x.(Digest) v x.(Plan_) x.(Authorization_) x.(Operations) x.(Evidence) x.(Residuals) x.(Failure) x.(CreatedAt) x.(UpdatedAt) x.(CompletedAt).
Definition with_Authorization_ (v : option Authorization.Authorization) (x : Change) : Change :=
  mk x.(SchemaVersion) x.(ID) x.(System) x.(Summary) x.(Phase) x.(Digest) x.(DraftedBy) x.(Plan_) v x.(Operations) x.(Evidence) x.(Residuals) x.(Failure) x.(CreatedAt) x.(UpdatedAt) x.(CompletedAt).
Definition with_Operations (v : list ChangeOperation.ChangeOperation) (x : Change) : Change :=
  mk x.(SchemaVersion) x.(ID) x.(System) x.(Summary) x.(Phase) x.(Digest) x.(DraftedBy) x.(Plan_) x.(Authorization_) v x.(Evidence) x.(Residuals) x.(Failure) x.(CreatedAt) x.(UpdatedAt) x.(CompletedAt).
Definition with_Evidence (v : list ChangeEvidence.ChangeEvidence) (x : Change) : Change :=
  mk x.(SchemaVersion) x.(ID) x.(System) x.(Summary) x.(Phase) x.(Digest) x.(DraftedBy) x.(Plan_) x.(Authorization_) x.(Operations) v x.(Residuals) x.(Failure) x.(CreatedAt) x.(UpdatedAt) x.(CompletedAt).
Definition with_Residuals (v : list string) (x : Change) : Change :=
  mk x.(SchemaVersion) x.(ID) x.(System) x.(Summary) x.(Phase) x.(Digest) x.(DraftedBy) x.(Plan_) x.(Authorization_) x.(Operations) x.(Evidence) v x.(Failure) x.(CreatedAt) x.(UpdatedAt) x.(CompletedAt).
Definition with_Failure (v : string) (x : Change) : Change :=
  mk x.(SchemaVersion) x.(ID) x.(System) x.(Summary) x.(Phase) x.(Digest) x.(DraftedBy) x.(Plan_) x.(Authorization_) x.(Operations) x.(Evidence) x.(Residuals) v x.(CreatedAt) x.(UpdatedAt) x.(CompletedAt).
Definition with_UpdatedAt (v : Z) (x : Change) : Change :=
  mk x.(SchemaVersion) x.(ID) x.(System) x.(Summary) x.(Phase) x.(Digest) x.(DraftedBy) x.(Plan_) x.(Authorization_) x.(Operations) x.(Evidence) x.(Residuals) x.(Failure) x.(CreatedAt) v x.(CompletedAt).
Definition with_CompletedAt (v : option Z) (x : Change) : Change :=
  mk x.(SchemaVersion) x.(ID) x.(System) x.(Summary) x.(Phase) x.(Digest) x.(DraftedBy) x.(Plan_) x.(Authorization_) x.(Operations) x.(Evidence) x.(Residuals) x.(Failure) x.(CreatedAt) x.(UpdatedAt) v.

End Change.
Abbreviation Change := Change.Change (only parsing).

(** endpoint.go PublicEndpointObservation *)
Module PublicEndpointObservation.

Record PublicEndpointObservation : Type := mk {
  SchemaVersion : string;
  System : string;
  Version : string;
  Phase : string;
  URL : string;
  StatusCode : Z;
  Message : string;
  ObservedAt : Z
}.

#[global] Instance PublicEndpointObservation_eq_dec : EqDecision PublicEndpointObservation.
Proof. solve_decision. Defined.

Definition with_Phase (v : string) (x : PublicEndpointObservation) : PublicEndpointObservation :=
  mk x.(SchemaVersion) x.(System) x.(Version) v x.(URL) x.(StatusCode) x.(Message) x.(ObservedAt).
Definition with_URL (v : string) (x : PublicEndpointObservation) : PublicEndpointObservation :=
  mk x.(SchemaVersion) x.(System) x.(Version) x.(Phase) v x.(StatusCode) x.(Message) x.(ObservedAt).
Definition with_StatusCode (v : Z) (x : PublicEndpointObservation) : PublicEndpointObservation :=
  mk x.(SchemaVersion) x.(System) x.(Version) x.(Phase) x.(URL) v x.(Message) x.(ObservedAt).
Definition with_Message (v : string) (x : PublicEndpointObservation) : PublicEndpointObservation :=
  mk x.(SchemaVersion) x.(System) x.(Version) x.(Phase) x.(URL) x.(StatusCode) v x.(ObservedAt).

End PublicEndpointObservation.
Abbreviation PublicEndpointObservation := PublicEndpointObservation.PublicEndpointObservation (only parsing).

(** release.go PublishReleaseInput *)
Module PublishReleaseInput.

Record PublishReleaseInput : Type := mk {
  ArtifactPath : string;
  Command : list string;
  Environment : gmap string string;
  HealthPath : string;
  PublicPort : Z
}.

#[global] Instance PublishReleaseInput_eq_dec : EqDecision PublishReleaseInput.
Proof. solve_decision. Defined.

End PublishReleaseInput.
Abbreviation PublishReleaseInput := PublishReleaseInput.PublishReleaseInput (only parsing).

(** release.go StagedReleaseInput *)
Module StagedReleaseInput.

Record StagedReleaseInput : Type := mk {
  Artifact : StagedArtifact.StagedArtifact;
  Command : list string;
  Environment : gmap string string;
  HealthPath : string;
  PublicPort : Z
}.

#[global] Instance StagedReleaseInput_eq_dec : EqDecision StagedReleaseInput.
Proof. solve_decision. Defined.

End StagedReleaseInput.
Abbreviation StagedReleaseInput := StagedReleaseInput.StagedReleaseInput (only parsing).

(** release.go NodeBootstrapConfig *)
Module NodeBootstrapConfig.

Record NodeBootstrapConfig : Type := mk {
  GatewayURL : string;
  EnrollmentID : string;
  EnrollmentToken : string
}.

#[global] Instance NodeBootstrapConfig_eq_dec : EqDecision NodeBootstrapConfig.
Proof. solve_decision. Defined.

End NodeBootstrapConfig.
Abbreviation NodeBootstrapConfig := NodeBootstrapConfig.NodeBootstrapConfig (only parsing).

(** node_gateway.go NodeDesiredRelease *)
Module NodeDesiredRelease.

Record NodeDesiredRelease : Type := mk {
  SchemaVersion : string;
  System : string;
  Version : string;
  ArtifactSHA : string;
  Command : list string;
  Environment : gmap string string;
  HealthPath : string;
  PublicPort : Z;
  Replicas : Z;
  CapacityLease_ : option CapacityLease.CapacityLease;
  RequestedAt : Z
}.

#[global] Instance NodeDesiredRelease_eq_dec : EqDecision NodeDesiredRelease.
Proof. solve_decision. Defined.

End NodeDesiredRelease.
Abbreviation NodeDesiredRelease := NodeDesiredRelease.NodeDesiredRelease (only parsing).

(** node_gateway.go NodeRuntimeAction *)
Module NodeRuntimeAction.

Record NodeRuntimeAction : Type := mk {
  Action : RuntimeAction.RuntimeAction;
  Lease : ChangeLease.ChangeLease
}.

#[global] Instance NodeRuntimeAction_eq_dec : EqDecision NodeRuntimeAction.
Proof. solve_decision. Defined.

End NodeRuntimeAction.
Abbreviation NodeRuntimeAction := NodeRuntimeAction.NodeRuntimeAction (only parsing).

(** node_gateway.go NodeSnapshot *)
Module NodeSnapshot.

Record NodeSnapshot : Type := mk {
  SchemaVersion : string;
  Generation : string;
  System : string;
  RuntimePlan_ : option RuntimePlan.RuntimePlan;
  Desired_ : option NodeDesiredRelease.NodeDesiredRelease;
  Control : option RuntimeControl.RuntimeControl;
  RuntimeAction_ : option NodeRuntimeAction.NodeRuntimeAction
}.

#[global] Instance NodeSnapshot_eq_dec : EqDecision NodeSnapshot.
Proof. solve_decision. Defined.

End NodeSnapshot.
Abbreviation NodeSnapshot := NodeSnapshot.NodeSnapshot (only parsing).

(** change.go DraftChangeInput *)
Module DraftChangeInput.

Record DraftChangeInput : Type := mk {
  Summary : string;
  Release : PublishReleaseInput.PublishReleaseInput;
  MigrationPath : string;
  MigrationID : string;
  Database : string;
  Verification : ChangeVerification.ChangeVerification
}.

#[global] Instance DraftChangeInput_eq_dec : EqDecision DraftChangeInput.
Proof. solve_decision. Defined.

End DraftChangeInput.
Abbreviation DraftChangeInput := DraftChangeInput.DraftChangeInput (only parsing).

(** change.go DraftScaleChangeInput *)
Module DraftScaleChangeInput.

Record DraftScaleChangeInput : Type := mk {
  Summary : string;
  Service : string;
  Replicas : Z;
  ForSeconds : Z;
  Verification : ChangeVerification.ChangeVerification
}.

#[global] Instance DraftScaleChangeInput_eq_dec : EqDecision DraftScaleChangeInput.
Proof. solve_decision. Defined.

End DraftScaleChangeInput.
Abbreviation DraftScaleChangeInput := DraftScaleChangeInput.DraftScaleChangeInput (only parsing).

(** change.go changeLeaseGuard (the mutex and the store are not data) *)
Module changeLeaseGuard.

Record changeLeaseGuard : Type := mk {
  key : string;
  lease : ChangeLease.ChangeLease;
  etag : string;
  err : option error
}.

#[global] Instance changeLeaseGuard_eq_dec : EqDecision changeLeaseGuard.
Proof. solve_decision. Defined.

Definition with_lease (v : ChangeLease.ChangeLease) (x : changeLeaseGuard) : changeLeaseGuard :=
  mk x.(key) v x.(etag) x.(err).
Definition with_etag (v : string) (x : changeLeaseGuard) : changeLeaseGuard :=
  mk x.(key) x.(lease) v x.(err).
Definition with_err (v : option error) (x : changeLeaseGuard) : changeLeaseGuard :=
  mk x.(key) x.(lease) x.(etag) v.

End changeLeaseGuard.
Abbreviation changeLeaseGuard := changeLeaseGuard.changeLeaseGuard (only parsing).

(** vps.go VPSPlan *)
Module VPSPlan.

Record VPSPlan : Type := mk {
  Spec_ : Spec.Spec;
  Shape_ : Shape.Shape;
  ImageID : string;
  Networks : list string
}.

#[global] Instance VPSPlan_eq_dec : EqDecision VPSPlan.
Proof. solve_decision. Defined.

End VPSPlan.
Abbreviation VPSPlan := VPSPlan.VPSPlan (only parsing).

(** vps.go VPSRequest *)
Module VPSRequest.

Record VPSRequest : Type := mk {
  Name : string;
  VCPUs : Z;
  MemoryMiB : Z;
  DiskGiB : Z;
  SSHPublicKey : string;
  SSHCIDR : string;
  ForSeconds : Z
}.

#[global] Instance VPSRequest_eq_dec : EqDecision VPSRequest.
Proof. solve_decision. Defined.

Definition with_SSHPublicKey (v : string) (x : VPSRequest) : VPSRequest :=
  mk x.(Name) x.(VCPUs) x.(MemoryMiB) x.(DiskGiB) v x.(SSHCIDR) x.(ForSeconds).
Definition with_SSHCIDR (v : string) (x : VPSRequest) : VPSRequest :=
  mk x.(Name) x.(VCPUs) x.(MemoryMiB) x.(DiskGiB) x.(SSHPublicKey) v x.(ForSeconds).

End VPSRequest.
Abbreviation VPSRequest := VPSRequest.VPSRequest (only parsing).

(** billing.go BillingResource *)
Module BillingResource.

Record BillingResource : Type := mk {
  ID : string;
  Kind : string;
  Units : Z
}.

#[global] Instance BillingResource_eq_dec : EqDecision BillingResource.
Proof. solve_decision. Defined.

End BillingResource.
Abbreviation BillingResource := BillingResource.BillingResource (only parsing).

(** change_request.go ChangeRequestRelease *)
Module ChangeRequestRelease.

Record ChangeRequestRelease : Type := mk {
  Artifact : string;
  Command : list string;
  Environment : gmap string string;
  HealthPath : string;
  PublicPort : Z
}.

#[global] Instance ChangeRequestRelease_eq_dec : EqDecision ChangeRequestRelease.
Proof. solve_decision. Defined.

End ChangeRequestRelease.
Abbreviation ChangeRequestRelease := ChangeRequestRelease.ChangeRequestRelease (only parsing).

(** change_request.go ChangeRequestMigration *)
Module ChangeRequestMigration.

Record ChangeRequestMigration : Type := mk {
  Path : string;
  ID : string;
  Service : string
}.

#[global] Instance ChangeRequestMigration_eq_dec : EqDecision ChangeRequestMigration.
Proof. solve_decision. Defined.

End ChangeRequestMigration.
Abbreviation ChangeRequestMigration := ChangeRequestMigration.ChangeRequestMigration (only parsing).

(** change_request.go ChangeRequestScale *)
Module ChangeRequestScale.

Record ChangeRequestScale : Type := mk {
  Service : string;
  Replicas : Z;
  ForSeconds : Z
}.

#[global] Instance ChangeRequestScale_eq_dec : EqDecision ChangeRequestScale.
Proof. solve_decision. Defined.

End ChangeRequestScale.
Abbreviation ChangeRequestScale := ChangeRequestScale.ChangeRequestScale (only parsing).

(** change_request.go ChangeRequestVerification *)
Module ChangeRequestVerification.

Record ChangeRequestVerification : Type := mk {
  Method : string;
  Path : string;
  ExpectedStatus : Z;
  BodyContains : string
}.

#[global] Instance ChangeRequestVerification_eq_dec : EqDecision ChangeRequestVerification.
Proof. solve_decision. Defined.

Definition with_Method (v : string) (x : ChangeRequestVerification) : ChangeRequestVerification :=
  mk v x.(Path) x.(ExpectedStatus) x.(BodyContains).
Definition with_ExpectedStatus (v : Z) (x : ChangeRequestVerification) : ChangeRequestVerification :=
  mk x.(Method) x.(Path) v x.(BodyContains).

End ChangeRequestVerification.
Abbreviation ChangeRequestVerification := ChangeRequestVerification.ChangeRequestVerification (only parsing).

(** change_request.go ChangeRequestSpec *)
Module ChangeRequestSpec.

Record ChangeRequestSpec : Type := mk {
  System : string;
  Summary : string;
  Release : option ChangeRequestRelease.ChangeRequestRelease;
  Scale : option ChangeRequestScale.ChangeRequestScale;
  Migration : option ChangeRequestMigration.ChangeRequestMigration;
  Verification : ChangeRequestVerification.ChangeRequestVerification
}.

#[global] Instance ChangeRequestSpec_eq_dec : EqDecision ChangeRequestSpec.
Proof. solve_decision. Defined.

End ChangeRequestSpec.
Abbreviation ChangeRequestSpec := ChangeRequestSpec.ChangeRequestSpec (only parsing).

(** change_request.go ChangeRequest *)
Module ChangeRequest.

Record ChangeRequest : Type := mk {
  APIVersion : string;
  Kind : string;
  Metadata_ : Metadata.Metadata;
  Spec_ : ChangeRequestSpec.ChangeRequestSpec
}.

#[global] Instance ChangeRequest_eq_dec : EqDecision ChangeRequest.
Proof. solve_decision. Defined.

End ChangeRequest.
Abbreviation ChangeRequest := ChangeRequest.ChangeRequest (only parsing).

(** endpoint.go ReleaseView *)
Module ReleaseView.

Record ReleaseView : Type := mk {
  Release : ObservedRelease.ObservedRelease;
  PublicEndpoint : PublicEndpointObservation.PublicEndpointObservation
}.

#[global] Instance ReleaseView_eq_dec : EqDecision ReleaseView.
Proof. solve_decision. Defined.

End ReleaseView.
Abbreviation ReleaseView := ReleaseView.ReleaseView (only parsing).
