(* ===== verification/Json.v ===== *)
(** * Package encoding/json, as far as digests depend on it

    [Marshal] of the values the program hashes: objects with their fields in
    struct order, maps with sorted keys, HTML-safe string escapes, instants in
    RFC 3339 with nanoseconds.  Instants are in UTC, as the program makes them. *)

From S2P Require Import Prelude GoStrings Documents.

#[local] Set Warnings "-register-all".

Inductive json : Type :=
  | JNull
  | JBool (b : bool)
  | JInt (n : Z)
  | JString (s : string)
  | JArray (l : list json)
  | JObject (fields : list (string * json)).

(** ** Strings *)
Definition uXXXX (n : Z) : string :=
  "\u" +:+ String (hex_digit (n / 4096)) (String (hex_digit (n / 256 mod 16))
    (String (hex_digit (n / 16 mod 16)) (String (hex_digit (n mod 16)) EmptyString))).

Definition json_ascii (c : ascii) : string :=
  let b := byte_of c in
  if b =? 34 then bytes [92; 34]
  else if b =? 92 then bytes [92; 92]
  else if b =? 8 then "\b" else if b =? 12 then "\f" else if b =? 10 then "\n"
  else if b =? 13 then "\r" else if b =? 9 then "\t"
  else if (b <? 32) || (b =? 60) || (b =? 62) || (b =? 38) then uXXXX b
  else String c EmptyString.

Definition continuation (lo hi : Z) (s : string) : option (Z * string) :=
  match s with
  | String c s' => if (lo <=? byte_of c) && (byte_of c <=? hi) then Some (byte_of c, s') else None
  | EmptyString => None
  end.

(** The rune at the head of a string that starts with a byte above 0x7f: its
    code point and length, or [None] for an invalid encoding. *)
Definition decode_rune (s : string) : option (Z * nat) :=
  match s with
  | EmptyString => None
  | String c s' =>
      let b := byte_of c in
      if (194 <=? b) && (b <=? 223) then
        '(x, _) ← continuation 128 191 s'; Some ((b - 192) * 64 + (x - 128), 2%nat)
      else if (224 <=? b) && (b <=? 239) then
        '(x, s'') ← continuation (if b =? 224 then 160 else 128) (if b =? 237 then 159 else 191) s';
        '(y, _) ← continuation 128 191 s'';
        Some ((b - 224) * 4096 + (x - 128) * 64 + (y - 128), 3%nat)
      else if (240 <=? b) && (b <=? 244) then
        '(x, s'') ← continuation (if b =? 240 then 144 else 128) (if b =? 244 then 143 else 191) s';
        '(y, s3) ← continuation 128 191 s'';
        '(z, _) ← continuation 128 191 s3;
        Some ((b - 240) * 262144 + (x - 128) * 4096 + (y - 128) * 64 + (z - 128), 4%nat)
      else None
  end.

(** [copy]: bytes of the current rune still to be copied; [skip]: to be dropped. *)
Fixpoint json_escape (copy skip : nat) (s : string) : string :=
  match s with
  | EmptyString => EmptyString
  | String c s' =>
      match copy, skip with
      | S n, _ => String c (json_escape n 0 s')
      | O, S n => json_escape 0 n s'
      | O, O =>
          if byte_of c <? 128 then json_ascii c +:+ json_escape 0 0 s'
          else match decode_rune s with
               | None => "\ufffd" +:+ json_escape 0 0 s'
               | Some (rune, n) =>
                   if (rune =? 8232) || (rune =? 8233) then uXXXX rune +:+ json_escape 0 (n - 1) s'
                   else String c (json_escape (n - 1) 0 s')
               end
      end
  end.
Definition json_string (s : string) : string :=
  String quote_char EmptyString +:+ json_escape 0 0 s +:+ String quote_char EmptyString.

(** Decoding gives back the string with each byte of an invalid encoding
    replaced by U+FFFD. *)
Fixpoint valid_utf8 (copy : nat) (s : string) : string :=
  match s with
  | EmptyString => EmptyString
  | String c s' =>
      match copy with
      | S n => String c (valid_utf8 n s')
      | O =>
          if byte_of c <? 128 then String c (valid_utf8 0 s')
          else match decode_rune s with
               | None => bytes [239; 191; 189] +:+ valid_utf8 0 s'
               | Some (_, n) => String c (valid_utf8 (n - 1) s')
               end
      end
  end.
Definition decoded_string (s : string) : string := valid_utf8 0 s.

(** An ASCII string comes only from itself. *)
Lemma decoded_ascii s t : is_ascii t = true -> decoded_string s = t <-> s = t.
Proof.
  unfold decoded_string, is_ascii. revert s. induction t as [|c t IH]; intros s Ht.
  - destruct s as [|x s]; [done|]. split; [|done]. cbn [valid_utf8]. destruct (_ <? 128); [done|]. by destruct (decode_rune _) as [[]|].
  - cbn in Ht. apply andb_true_iff in Ht as [Hc Ht]. destruct s as [|x s]; [done|]. cbn [valid_utf8].
    destruct (byte_of x <? 128) eqn:Ex.
    + split; intros [= -> E]; f_equal; by apply (IH s Ht).
    + split; [|intros [= -> _]; congruence]. destruct (decode_rune _) as [[r n]|]; [intros [= -> _]; congruence|]. intros [= <- _].
      by vm_compute in Hc.
Qed.

(** ** Rendering *)
Fixpoint render (j : json) : string :=
  match j with
  | JNull => "null"
  | JBool b => FormatBool b
  | JInt n => Itoa n
  | JString s => json_string s
  | JArray l => "[" +:+ Join (render <$> l) "," +:+ "]"
  | JObject fields =>
      "{" +:+ Join ((fun kv => json_string kv.1 +:+ ":" +:+ render kv.2) <$> fields) "," +:+ "}"
  end.

(** Fields of a struct: [field] always, the others with [omitempty]. *)
Definition field (name : string) (v : json) : list (string * json) := [(name, v)].
Definition omit_string (name s : string) : list (string * json) :=
  if s == EmptyString then [] else [(name, JString s)].
Definition omit_int (name : string) (n : Z) : list (string * json) := if n =? 0 then [] else [(name, JInt n)].
Definition omit_bool (name : string) (b : bool) : list (string * json) := if b then [(name, JBool b)] else [].
Definition omit_list {A} (name : string) (f : A -> json) (l : list A) : list (string * json) :=
  match l with [] => [] | _ => [(name, JArray (f <$> l))] end.
Definition omit_option {A} (name : string) (f : A -> json) (o : option A) : list (string * json) :=
  match o with None => [] | Some x => [(name, f x)] end.

Definition key_le (a b : string * string) : Prop := String.leb a.1 b.1 = true.
#[export] Instance key_le_dec : RelDecision key_le.
Proof. intros a b. unfold key_le. apply _. Defined.
Definition omit_map (name : string) (m : gmap string string) : list (string * json) :=
  match merge_sort key_le (map_to_list m) with
  | [] => []
  | l => [(name, JObject ((fun kv => (kv.1, JString kv.2)) <$> l))]
  end.
Definition strings_json (l : list string) : json := JArray (JString <$> l).
(** A nil slice without [omitempty] is [null]; nil and empty are not
    distinguished here, and the values hashed always have such slices non-nil. *)

(** ** Instants: time.Time.MarshalJSON *)
(** Days since the epoch to year, month and day (proleptic Gregorian). *)
Definition civil (days : Z) : Z * Z * Z :=
  let z := days + 719468 in
  let era := z / 146097 in
  let doe := z mod 146097 in
  let yoe := (doe - doe / 1460 + doe / 36524 - doe / 146096) / 365 in
  let doy := doe - (365 * yoe + yoe / 4 - yoe / 100) in
  let mp := (5 * doy + 2) / 153 in
  let d := doy - (153 * mp + 2) / 5 + 1 in
  let m := if mp <? 10 then mp + 3 else mp - 9 in
  (yoe + era * 400 + (if m <=? 2 then 1 else 0), m, d).

Fixpoint digits (width : nat) (n : Z) : string :=
  match width with
  | O => EmptyString
  | S w => digits w (n / 10) +:+ String (chr (48 + n mod 10)) EmptyString
  end.

(** The fraction without its trailing zeros. *)
Definition fraction (ns : Z) : string :=
  if ns =? 0 then EmptyString else "." +:+ TrimRight (digits 9 ns) "0"%char.

(** [t.Format(layout)] for time.RFC3339 with the fraction [frac]. *)
Definition rfc3339_with (frac : string) (t : Z) : string :=
  let seconds := t / 10 ^ 9 in
  let '(y, m, d) := civil (seconds / 86400) in
  let s := seconds mod 86400 in
  digits 4 y +:+ "-" +:+ digits 2 m +:+ "-" +:+ digits 2 d +:+ "T" +:+
  digits 2 (s / 3600) +:+ ":" +:+ digits 2 (s / 60 mod 60) +:+ ":" +:+ digits 2 (s mod 60) +:+ frac +:+ "Z".
Definition rfc3339 (t : Z) : string := rfc3339_with (fraction (t mod 10 ^ 9)) t.
Definition rfc3339_seconds (t : Z) : string := rfc3339_with EmptyString t.
Definition time_json (t : Z) : json := JString (rfc3339 t).

(** An instant outside the years 0 to 9999 cannot be marshalled. *)
Definition marshals (t : Z) : bool := let '(y, _, _) := civil (t / 10 ^ 9 / 86400) in (0 <=? y) && (y <=? 9999).

Example rfc3339_now : rfc3339 1753875296012340000 = "2025-07-30T11:34:56.01234Z".
Proof. vm_compute. reflexivity. Qed.
Example rfc3339_zero : rfc3339 zero_time = "0001-01-01T00:00:00Z".
Proof. vm_compute. reflexivity. Qed.
Example json_escapes : json_string ("a<" +:+ bytes [226; 128; 168; 255; 34]) =
  bytes [34] +:+ "a\u003c\u2028\ufffd\" +:+ bytes [34; 34].
Proof. vm_compute. reflexivity. Qed.
Example decodes_replacing : decoded_string ("a" +:+ bytes [195; 169; 255; 226; 40]) = "a" +:+ bytes [195; 169; 239; 191; 189; 239; 191; 189; 40].
Proof. vm_compute. reflexivity. Qed.
