(* ===== verification/Calls.v ===== *)
(** * What the SDK calls

    The interfaces of sdk/client.go ([objectStore], [computeProvider],
    [modelProvider]) and what its functions take from the machine: the clock,
    random bytes, [select] over a timer and a context, files, HTTP requests.
    [sdk_call] has one constructor per operation, [answer] its Go result type;
    an SDK method is a [prog answer].  [HTTPDo] answers the status and the body
    or the error of reading it. *)

From S2P Require Import Prelude Effects GoStrings Documents.

(** JSON documents of the object store, by the Go type they are decoded into. *)
Inductive kind : Type :=
  | KState | KApplyResult | KChange | KLease | KManifest | KObserved | KControl | KControlAck
  | KAction | KActionResult | KRuntimePlan | KProof | KCheckpoint | KEndpoint.

Definition doc (k : kind) : Type :=
  match k with
  | KState => State
  | KApplyResult => ApplyResult
  | KChange => Change
  | KLease => ChangeLease
  | KManifest => ReleaseManifest
  | KObserved => ObservedRelease
  | KControl => RuntimeControl
  | KControlAck => ControlAck
  | KAction => RuntimeAction
  | KActionResult => RuntimeActionResult
  | KRuntimePlan => RuntimePlan
  | KProof => BootProof
  | KCheckpoint => Checkpoint
  | KEndpoint => PublicEndpointObservation
  end.

#[global] Instance kind_eq_dec : EqDecision kind.
Proof. solve_decision. Defined.

#[global] Instance doc_eq_dec k : EqDecision (doc k).
Proof. destruct k; simpl; apply _. Defined.

(** Which case of a [select] was taken: [<-ctx.Done()], a timer, the ticker. *)
Inductive wake : Type := WDone (e : error) | WTimer | WTick.

Inductive sdk_call : Type :=
  (* objectStore *)
  | M1Put (key data contentType : string)
  | M1PutJSON (k : kind) (key : string) (v : doc k)
  | M1PutJSONIfAbsent (k : kind) (key : string) (v : doc k)
  | M1PutJSONIfMatch (k : kind) (key etag : string) (v : doc k)
  | M1Get (k : kind) (key : string)
  | M1GetBytes (key : string)
  | M1GetBytesLimited (key : string) (limit : Z)
  | M1GetJSONVersion (k : kind) (key : string)
  | M1GetOptional (k : kind) (key : string)
  | M1PresignPut (key : string) (lifetime : Z)
  | M1PresignGet (key : string) (lifetime : Z)
  | M1Delete (key : string)
  | M1StoredBytes (prefix : string)
  (* computeProvider *)
  | Resolve (class image : string)
  | ResolveSize (vcpus memoryMiB diskGiB : Z) (image : string)
  | CreateManaged (request : ManagedServerRequest)
  | FindManagedServers (sandbox operationID name : string)
  | GetServer (id : string)
  | WaitActive (id : string)
  | DeleteServer (id : string)
  | ExposeManagedTCP (request : ManagedTCPExposureRequest)
  | FindManagedTCPExposure (request : ManagedTCPExposureRequest)
  | DeleteSecurityPolicy (id : string)
  | ServerShape (id : string)
  (* an optional method of the provider or the store: a Go type assertion *)
  | Supports (method : string)
  (* modelProvider *)
  | ModelCompile (prompt : string)
  (* the machine *)
  | Now
  | RandRead
  | Select
  | ReadFile (path : string)
  | HTTPPrepare (method url : string)
  | HTTPDo (method url : string)
  (* the lease guard of an applying Change, shared with its heartbeat *)
  | ReadGuard
  | WriteGuard (g : changeLeaseGuard).

Definition answer (c : sdk_call) : Type :=
  match c with
  | M1Put _ _ _ | M1PutJSON _ _ _ | M1Delete _ => result unit
  | M1PutJSONIfAbsent _ _ _ | M1PutJSONIfMatch _ _ _ _ => result (string * bool)
  | M1Get k _ => result (doc k)
  | M1GetBytes _ | M1GetBytesLimited _ _ => result string
  | M1GetJSONVersion k _ => result (option (doc k * string))
  | M1GetOptional k _ => result (option (doc k))
  | M1PresignPut _ _ | M1PresignGet _ _ => result string
  | M1StoredBytes _ => result Z
  | Resolve _ _ | ResolveSize _ _ _ _ => result (Shape * string * list string)
  | CreateManaged _ | GetServer _ | WaitActive _ => result Server
  | FindManagedServers _ _ _ => result (list Server)
  | DeleteServer _ | DeleteSecurityPolicy _ => result unit
  | ExposeManagedTCP _ => result SecurityPolicy
  | FindManagedTCPExposure _ => result (option SecurityPolicy)
  | ServerShape _ => result Shape
  | Supports _ => bool
  | ModelCompile _ => result (Plan * string * Z)
  | Now => Z
  | RandRead => result (list Z)
  | Select => wake
  | ReadFile _ => result string
  | HTTPPrepare _ _ => result unit
  | HTTPDo _ _ => result (Z * result string)
  | ReadGuard => changeLeaseGuard
  | WriteGuard _ => unit
  end.

Abbreviation sdk := (prog answer).
Abbreviation trace := (list (event answer)).

(** ** Error classification (internal/provider/compute) *)
Fixpoint errors_As (p : error -> bool) (e : error) : bool :=
  p e || match e with
         | Wrapf _ e' | WrapfBefore e' _ | AmbiguousManagedResourceError _ _ e' | TransportError _ e' | URLError _ _ e' =>
             errors_As p e'
         | _ => false
         end.

Definition IsDuplicateManagedResource : error -> bool :=
  errors_As (fun e => match e with DuplicateManagedResourceError _ _ _ => true | _ => false end).
Definition IsAmbiguousManagedResource : error -> bool :=
  errors_As (fun e => match e with AmbiguousManagedResourceError _ _ _ => true | _ => false end).
(** [errors.As] stops at the first [HTTPError] of the chain. *)
Fixpoint http_error (e : error) : option (Z * string) :=
  match e with
  | HTTPError code body => Some (code, body)
  | Wrapf _ e' | WrapfBefore e' _ | AmbiguousManagedResourceError _ _ e' | TransportError _ e' | URLError _ _ e' =>
      http_error e'
  | _ => None
  end.
Definition isHTTPStatus (e : error) (status : Z) : bool :=
  match http_error e with Some (code, _) => code =? status | None => false end.
Definition IsNotFound (e : error) : bool := isHTTPStatus e 404.
Definition IsNetworkExhausted `{Unicode} (e : error) : bool :=
  match http_error e with
  | Some (_, body) => Contains (ToLower body) "no fixed ip addresses available"
  | None => false
  end.
Definition isLifecycleFenceError : error -> bool :=
  errors_As (fun e => match e with LifecycleFenceError _ => true | _ => false end).
Definition isContextError : error -> bool :=
  errors_As (fun e => match e with Canceled | DeadlineExceeded => true | _ => false end).

(** [interface{ Timeout() bool }]: [url.Error] asks the error it holds. *)
Fixpoint times_out (e : error) : bool :=
  match e with
  | TimeoutError _ | DeadlineExceeded => true
  | URLError _ _ e' => times_out e'
  | _ => false
  end.
(** [errors.As] with that interface: the first of the chain that has it. *)
Fixpoint chain_times_out (e : error) : bool :=
  match e with
  | Wrapf _ e' | WrapfBefore e' _ | AmbiguousManagedResourceError _ _ e' | TransportError _ e' => chain_times_out e'
  | _ => times_out e
  end.
Definition transport_reason (cause : error) : string :=
  if errors_As (fun e => e == DeadlineExceeded) cause then "request timed out"
  else if errors_As (fun e => e == Canceled) cause then "request canceled"
  else if chain_times_out cause then "request timed out"
  else "transport error".
Definition transport_text `{Unicode} (op : string) (cause : error) : string :=
  let operation := ToLower (TrimSpace op) in
  let operation := if operation == EmptyString then "request" else operation in
  "compute " +:+ operation +:+ " failed: " +:+ transport_reason cause.

(** [err.Error()]. *)
Fixpoint Error `{Unicode} (e : error) : string :=
  match e with
  | Errorf msg | LifecycleFenceError msg | External msg | Panic msg | TimeoutError msg | APIError _ msg => msg
  | Wrapf prefix e' => prefix +:+ Error e'
  | WrapfBefore e' suffix => Error e' +:+ suffix
  | DuplicateManagedResourceError kd ident n =>
      "managed " +:+ kd +:+ " " +:+ Quote ident +:+ " is ambiguous: found " +:+ Itoa n +:+ " matches"
  | AmbiguousManagedResourceError kd ident cause =>
      "managed " +:+ kd +:+ " " +:+ Quote ident +:+ " has an unresolved provider outcome: " +:+ Error cause
  | HTTPError code _ => "compute request failed with HTTP " +:+ Itoa code
  | TransportError op cause => transport_text op cause
  | URLError op url cause => op +:+ " " +:+ Quote url +:+ ": " +:+ Error cause
  | UnsupportedClassError class =>
      "unsupported_compute_class: host class " +:+ Quote class +:+
      " is unsupported; supported classes: c1, c2, c3"
  | ErrConflict => "conflict"
  | ErrNotFound => "not found"
  | ErrForbidden => "forbidden"
  | ErrCapacity => "capacity unavailable"
  | ErrUnauthorized => "unauthorized"
  | Canceled => "context canceled"
  | DeadlineExceeded => "context deadline exceeded"
  | OutOfFuel => "out of fuel"
  end.

(** [Server.IPv4()]. *)
Definition IPv4 (s : Server) : string :=
  match List.find (fun a => (Address.Version a =? 4) && (Address.Addr a != EmptyString))
                  (concat (snd <$> Server.Addresses s)) with
  | Some a => Address.Addr a
  | None => EmptyString
  end.

(** client.go [newID]: eight random bytes, or the clock if there are none. *)
Definition newID : sdk string :=
  r ← call RandRead;
  match (r : result (list Z)) with
  | Ok b => Ret (hex_encode b)
  | Err _ => n ← call Now; Ret (Itoa n)
  end.

(** Durations, in nanoseconds. *)
Definition Second : Z := 10 ^ 9.
Definition Minute : Z := 60 * Second.
Definition Millisecond : Z := 10 ^ 6.

(** ** The calls by their Go names *)
Definition Put (key data contentType : string) : sdk (result unit) := call (M1Put key data contentType).
Definition PutJSON (k : kind) (key : string) (v : doc k) : sdk (result unit) := call (M1PutJSON k key v).
Definition PutJSONIfAbsent (k : kind) (key : string) (v : doc k) : sdk (result (string * bool)) :=
  call (M1PutJSONIfAbsent k key v).
Definition PutJSONIfMatch (k : kind) (key etag : string) (v : doc k) : sdk (result (string * bool)) :=
  call (M1PutJSONIfMatch k key etag v).
Definition Get (k : kind) (key : string) : sdk (result (doc k)) := call (M1Get k key).
Definition GetBytes (key : string) : sdk (result string) := call (M1GetBytes key).
Definition GetJSONVersion (k : kind) (key : string) : sdk (result (option (doc k * string))) :=
  call (M1GetJSONVersion k key).
Definition GetOptional (k : kind) (key : string) : sdk (result (option (doc k))) := call (M1GetOptional k key).
Definition FindServers (sandbox operationID name : string) : sdk (result (list Server)) :=
  call (FindManagedServers sandbox operationID name).
Definition InspectServer (id : string) : sdk (result Server) := call (GetServer id).
Definition Delete (id : string) : sdk (result unit) := call (DeleteServer id).
Definition now : sdk Z := call Now.
Definition select : sdk wake := call Select.

(** [time.Since(started).Milliseconds()]: durations saturate. *)
Definition sat64 (x : Z) : Z := Z.max min_int (Z.min max_int x).
Definition since_ms (started now : Z) : Z := Z.quot (sat64 (now - started)) Millisecond.

(** [x, err := p; if err != nil { return e(err) }; k(x)]. *)
Definition bind_wrap {A B} (p : sdk (result A)) (wrap : error -> error) (k : A -> sdk (result B)) : sdk (result B) :=
  r ← p; match r with Ok a => k a | Err e => Ret (Err (wrap e)) end.

Lemma wp_bind_wrap rely guar {A B} (p : sdk (result A)) wrap (k : A -> sdk (result B)) Q h :
  wp rely guar p (fun h' r => match r with Ok a => wp rely guar (k a) Q h' | Err e => Q h' (Err (wrap e)) end) h ->
  wp rely guar (bind_wrap p wrap k) Q h.
Proof. intros Hp. unfold bind_wrap. apply wp_bind. eapply wp_mono; [exact Hp|]. by intros h' [a|e]. Qed.

Lemma wp_now rely guar Q h :
  guar h Now -> (forall t, rely h Now t -> Q (Event (R:=answer) Now t :: h) t) -> wp rely guar now Q h.
Proof. intros Hg Hk. by apply wp_call. Qed.

(** The structural rules of [safe], as far as they go. *)
Ltac safe_step :=
  match goal with
  | |- safe _ (let '(_, _) := ?x in _) => destruct x
  | |- safe _ (Ret _) => apply safe_ret
  | |- safe _ (mret _) => apply safe_ret
  | |- safe _ (lift _) => apply safe_ret
  | |- safe _ (mbind _ _) => apply safe_bind; [|intros ?]
  | |- safe _ (bind_ok _ _) => apply safe_bind_ok; [|intros ?]
  | |- safe _ (bind_wrap _ _ _) => apply safe_bind; [|intros [?|?]; [|apply safe_ret]]
  | |- safe _ (match ?x with _ => _ end) => destruct x eqn:?
  | |- safe _ (poll _ _ _) => apply safe_poll
  | |- safe _ _ => solve [eauto with safe]
  end.
Ltac safe_tac := repeat (cbv beta zeta; safe_step).
Create HintDb safe.

(** The guard may also see that its history extends the one before. *)
Lemma wp_guard_history rely guar {A} (p : sdk A) Q h :
  wp rely guar p Q h -> wp rely (fun h' c => guar h' c /\ exists l, h' = l ++ h) p Q h.
Proof.
  revert h. induction p as [a|c k IH]; intros h; simpl; [done|].
  intros [Hg Hk]. split; [split; [done|by exists []]|]. intros r Hr.
  eapply wp_guard; [|apply IH; auto]. intros h' c' [Hg' [l ->]]. split; [done|].
  exists (l ++ [Event c r]). by rewrite <- app_assoc.
Qed.

(** ** Calls that change nothing outside *)
Definition reading (h : trace) (c : sdk_call) : Prop :=
  match c with
  | M1Put _ _ _ | M1PutJSON _ _ _ | M1PutJSONIfAbsent _ _ _ | M1PutJSONIfMatch _ _ _ _ | M1Delete _
  | CreateManaged _ | DeleteServer _ | ExposeManagedTCP _ | DeleteSecurityPolicy _ | WriteGuard _ => False
  | _ => True
  end.

Lemma reading_call c : (forall h, reading h c) -> safe (R := answer) reading (call c).
Proof. apply safe_call. Qed.

Lemma reading_newID : safe reading newID.
Proof. unfold newID. safe_tac; by apply reading_call. Qed.
Lemma reading_now : safe reading now.
Proof. by apply reading_call. Qed.
Lemma reading_select : safe reading select.
Proof. by apply reading_call. Qed.
Lemma reading_GetJSONVersion k key : safe reading (GetJSONVersion k key).
Proof. by apply reading_call. Qed.
Lemma reading_Get k key : safe reading (Get k key).
Proof. by apply reading_call. Qed.
Lemma reading_GetBytes key : safe reading (GetBytes key).
Proof. by apply reading_call. Qed.
Lemma reading_GetOptional k key : safe reading (GetOptional k key).
Proof. by apply reading_call. Qed.
Lemma reading_FindServers a b c : safe reading (FindServers a b c).
Proof. by apply reading_call. Qed.
Lemma reading_InspectServer id : safe reading (InspectServer id).
Proof. by apply reading_call. Qed.

#[export] Hint Resolve reading_newID reading_now reading_select reading_GetBytes reading_FindServers
  reading_InspectServer : safe.
#[export] Hint Extern 1 (safe _ (GetJSONVersion _ _)) => apply reading_GetJSONVersion : safe.
#[export] Hint Extern 1 (safe _ (Get _ _)) => apply reading_Get : safe.
#[export] Hint Extern 1 (safe _ (GetOptional _ _)) => apply reading_GetOptional : safe.
