(* ===== verification/SandboxSpec.v ===== *)
(** * Sandbox contracts (sdk/spec.go)

    The name patterns, the validation of object-store prefixes and of a
    Sandbox [Spec]. *)

From S2P Require Import Prelude GoStrings Documents.

Definition APIVersion : string := "canter.dev/v1alpha1".

(** The patterns [^[a-z][a-z0-9-]{0,47}$] and [^[A-Za-z0-9][A-Za-z0-9._-]{0,127}$],
    and sdk/change.go's [^[A-Z][A-Z0-9_]{0,127}$]. *)
Definition is_alnum (c : ascii) : bool := is_upper c || is_lower c || is_digit c.
Definition safeName (s : string) : bool :=
  class_match is_lower (fun c => is_lower c || is_digit c || (c == "-"%char)) 47 s.
Definition safeM1Segment (s : string) : bool :=
  class_match is_alnum (fun c => is_alnum c || (c == "."%char) || (c == "_"%char) || (c == "-"%char)) 127 s.
Definition environmentName (s : string) : bool :=
  class_match is_upper (fun c => is_upper c || is_digit c || (c == "_"%char)) 127 s.

Section Validation.
Context `{Unicode}.

Definition unsafe_segment (segment : string) : bool :=
  negb (safeM1Segment segment) || (segment == ".") || (segment == "..").

Definition ValidateM1Prefix (prefix : string) : result unit :=
  if (prefix == EmptyString) || (512 <? slen prefix) || HasPrefix prefix "/" || HasSuffix prefix "/"
  then Err (Errorf "m1 prefix must be a safe relative path of at most 512 characters")
  else fold_result (fun _ segment =>
         reject_if (unsafe_segment segment)
           (Errorf ("m1 prefix contains unsafe segment " +:+ Quote segment))) tt (Split prefix "/").

(** [Spec.Validate] reports every problem, in this order. *)
Definition spec_problems (s : Spec) : list string :=
  let d := Spec.Spec_ s in
  let problem (b : bool) (text : string) := if b then [text] else [] in
  problem (Spec.APIVersion s != APIVersion) ("apiVersion must be " +:+ APIVersion) ++
  problem (Spec.Kind s != "Sandbox") "kind must be Sandbox" ++
  problem (negb (safeName (Metadata.Name (Spec.Metadata_ s))))
    "metadata.name must be lowercase, start with a letter, and contain at most 48 letters, digits, or hyphens" ++
  problem (TrimSpace (Desired.Intent d) == EmptyString) "spec.intent is required" ++
  problem (ComputeSpec.Class_ (Desired.Compute d) == EmptyString) "spec.compute.class is required" ++
  problem (ComputeSpec.Image (Desired.Compute d) == EmptyString) "spec.compute.image is required" ++
  problem (ComputeSpec.Replicas (Desired.Compute d) <? 1) "spec.compute.replicas must be at least 1" ++
  problem (Policy.MaxReplicas (Desired.Policy_ d) <? 1) "spec.policy.maxReplicas must be at least 1" ++
  problem (Policy.MaxReplicas (Desired.Policy_ d) <? ComputeSpec.Replicas (Desired.Compute d))
    "requested replicas exceed policy.maxReplicas" ++
  problem (negb (is_ok (ValidateM1Prefix (M1Spec.Prefix (Desired.M1 d)))))
    "spec.m1.prefix must be a safe relative prefix".

Definition Spec_Validate (s : Spec) : result unit :=
  match spec_problems s with
  | [] => Ok tt
  | problems => Err (Errorf (Join problems "; "))
  end.

(** ** What validation guarantees *)
Lemma ValidateM1Prefix_ok prefix :
  ValidateM1Prefix prefix = Ok tt <->
  prefix <> EmptyString /\ slen prefix <= 512 /\ HasPrefix prefix "/" = false /\
  HasSuffix prefix "/" = false /\ Forall (fun seg => unsafe_segment seg = false) (Split prefix "/").
Proof.
  unfold ValidateM1Prefix.
  assert (forall l, fold_result (fun _ seg => reject_if (unsafe_segment seg)
            (Errorf ("m1 prefix contains unsafe segment " +:+ Quote seg))) tt l = Ok tt <->
          Forall (fun seg => unsafe_segment seg = false) l) as Hl.
  { induction l as [|x l IH]; simpl; [by split|]. rewrite Forall_cons, <- IH.
    destruct (unsafe_segment x); simpl; naive_solver. }
  destruct (_ || _) eqn:E.
  - split; [done|]. intros (H1 & H2 & H3 & H4 & _).
    rewrite H3, H4, !orb_false_r in E. apply orb_true_iff in E as [E|E]; bool_inv; [done|lia].
  - bool_inv. rewrite Hl. naive_solver.
Qed.

Lemma Spec_Validate_ok s :
  Spec_Validate s = Ok tt <-> spec_problems s = [].
Proof. unfold Spec_Validate. destruct (spec_problems s); naive_solver. Qed.

End Validation.

(** A safe name contains neither a slash nor a dot. *)
Lemma safeName_chars s c :
  safeName s = true -> (c = "/"%char \/ c = "."%char) -> contains_byte s c = false.
Proof.
  unfold safeName. destruct s as [|a s]; [done|]. intros H Hc.
  apply class_match_cons in H as (Ha & Hs & _). simpl. rewrite bool_decide_false.
  2:{ intros ->. by destruct Hc as [-> | ->]. }
  simpl. induction s as [|b s IH]; [done|]. simpl in *. apply andb_true_iff in Hs as [Hb Hs].
  rewrite bool_decide_false; [by apply IH|]. intros ->. by destruct Hc as [-> | ->].
Qed.
