(* ===== verification/Systems.v ===== *)
(** * System contracts and their compilation
    (sdk/system.go, sdk/runtime_plan.go, sdk/system_view.go,
    internal/computeclass/class.go, internal/controlplane/system_scope.go)

    A System declares services on a number of hosts.  [System_Validate] is the
    whole admission check: names, resources, expansion budgets, the dependency
    graph (Kahn's algorithm) and host capacity, in Go's 64-bit arithmetic;
    [CompileSystem] expands an admitted System into its execution graph. *)

From S2P Require Import Prelude GoStrings Documents SandboxSpec.

Section Systems.
Context `{Unicode}.

(** ** Compute classes (internal/computeclass) *)
Definition supported : list string := ["c1"; "c2"; "c3"].
Definition Supported : list string := supported.

Fixpoint class_index (class : string) (i : Z) (l : list string) : option Z :=
  match l with
  | [] => None
  | candidate :: l' => if class == candidate then Some i else class_index class (i + 1) l'
  end.
Definition Index (class : string) : option Z := class_index class 0 supported.
Definition computeclass_Validate (class : string) : result unit :=
  match Index class with Some _ => Ok tt | None => Err (UnsupportedClassError class) end.

(** ** Service bindings *)
Definition binding_byte (c : ascii) : ascii :=
  if is_lower c then upper_byte c
  else if is_upper c || is_digit c then c
  else "_"%char.

Definition ServiceBindingName (service : string) : result string :=
  if negb (safeName service) then Err (Errorf ("invalid service name " +:+ Quote service))
  else Ok ("CANTER_SERVICE_" +:+ map_string binding_byte service +:+ "_URL").

(** ** Validation *)
Definition maxCompiledSystemNodes : Z := 10000.
Definition maxCompiledSystemEdges : Z := 100000.

(** First loop: each service on its own, the totals and the names seen. *)
Definition validate_service (st : gset string * Z * Z) (service : SystemService)
    : result (gset string * Z * Z) :=
  let '(seen, guestMemory, totalInstances) := st in
  let name := SystemService.Name service in
  let instances := SystemService.Instances service in
  let memory := ServiceResources.MemoryMiB (SystemService.Resources service) in
  let readiness := SystemService.Readiness_ service in
  reject_if (negb (safeName name) || bool_decide (name ∈ seen))
    (Errorf "service names must be valid and unique");;
  reject_if ((SystemService.Kind service == EmptyString) || (instances <? 1) ||
             (ServiceResources.VCPU (SystemService.Resources service) <? 1) || (memory <? 1))
    (Errorf ("service " +:+ name +:+ " has invalid kind, instances, or resources"));;
  reject_if ((SystemService.Isolation service != "firecracker") && (SystemService.Isolation service != "process"))
    (Errorf ("service " +:+ name +:+ " requests unsupported isolation " +:+ Quote (SystemService.Isolation service)));;
  reject_if ((SystemService.Kind service == "database") && (SystemService.Engine service == EmptyString))
    (Errorf ("database service " +:+ name +:+ " requires an engine"));;
  reject_if ((Readiness.Protocol readiness == EmptyString) || (Readiness.Port readiness <? 1) ||
             (65535 <? Readiness.Port readiness))
    (Errorf ("service " +:+ name +:+ " requires a valid readiness check"));;
  reject_if (sub64 (div64 maxCompiledSystemNodes 2) totalInstances <? instances)
    (Errorf ("system exceeds the " +:+ Itoa maxCompiledSystemNodes +:+ "-node compilation limit"));;
  let totalInstances := add64 totalInstances instances in
  reject_if (div64 max_int instances <? memory)
    (Errorf ("service " +:+ name +:+ " memory total overflows capacity accounting"));;
  let serviceMemory := mul64 instances memory in
  reject_if (sub64 max_int guestMemory <? serviceMemory)
    (Errorf "guest memory total overflows capacity accounting");;
  Ok ({[name]} ∪ seen, add64 guestMemory serviceMemory, totalInstances).

(** Second loop: the dependencies of one service are declared, distinct and
    not itself; the edge budget; the tables of Kahn's algorithm. *)
Definition validate_dependency (name : string) (seen : gset string)
    (dependencies : gset string) (dependency : string) : result (gset string) :=
  reject_if ((dependency == name) || negb (bool_decide (dependency ∈ seen)))
    (Errorf ("service " +:+ name +:+ " has invalid dependency " +:+ Quote dependency));;
  reject_if (bool_decide (dependency ∈ dependencies))
    (Errorf ("service " +:+ name +:+ " has duplicate dependency " +:+ Quote dependency));;
  Ok ({[dependency]} ∪ dependencies).

Definition append_dependent (name : string) (dependents : gmap string (list string))
    (dependency : string) : gmap string (list string) :=
  <[dependency := default [] (dependents !! dependency) ++ [name]]> dependents.

Definition validate_edges (seen : gset string)
    (st : Z * gmap string Z * gmap string (list string)) (service : SystemService)
    : result (Z * gmap string Z * gmap string (list string)) :=
  let '(expandedEdges, dependencyCounts, dependents) := st in
  let name := SystemService.Name service in
  let deps := SystemService.DependsOn service in
  let n := Z.of_nat (length deps) in
  fold_result (validate_dependency name seen) ∅ deps;;
  reject_if (div64 (sub64 maxCompiledSystemEdges expandedEdges) (SystemService.Instances service) <? n)
    (Errorf ("system exceeds the " +:+ Itoa maxCompiledSystemEdges +:+ "-edge compilation limit"));;
  Ok (add64 expandedEdges (mul64 n (SystemService.Instances service)),
      <[name := n]> dependencyCounts,
      fold_left (append_dependent name) deps dependents).

(** Kahn's algorithm, with [ready] as a stack (its top is the head). *)
Definition release_dependent (st : gmap string Z * list string) (dependent : string)
    : gmap string Z * list string :=
  let '(counts, ready) := st in
  let n := sub64 (default 0 (counts !! dependent)) 1 in
  (<[dependent := n]> counts, if n == 0 then dependent :: ready else ready).

Fixpoint kahn (fuel : nat) (dependents : gmap string (list string))
    (counts : gmap string Z) (ready : list string) : gmap string Z * list string :=
  match fuel, ready with
  | S fuel', name :: rest =>
      let '(counts', ready') :=
        fold_left release_dependent (default [] (dependents !! name)) (counts, rest) in
      kahn fuel' dependents counts' ready'
  | _, _ => (counts, ready)
  end.

Definition initially_ready (counts : gmap string Z) (services : list SystemService) : list string :=
  rev (List.filter (fun name => default 0 (counts !! name) == 0) (SystemService.Name <$> services)).

Definition needs_isolation (isolation : string) (services : list SystemService) : bool :=
  existsb (fun service => SystemService.Isolation service == isolation) services.

Definition services_of (s : System) : list SystemService := SystemContract.Services (System.Spec_ s).
Definition host_of (s : System) : HostConstraint :=
  Constraints.Host (SystemContract.Constraints_ (System.Spec_ s)).
Definition name_of (s : System) : string := Metadata.Name (System.Metadata_ s).
Definition prefix_of (s : System) : string := M1Spec.Prefix (SystemContract.M1 (System.Spec_ s)).

Definition validate_header (s : System) : result unit :=
  let host := host_of s in
  reject_if ((System.APIVersion s != APIVersion) || (System.Kind s != "System"))
    (Errorf ("system requires apiVersion " +:+ APIVersion +:+ " and kind System"));;
  reject_if (negb (safeName (name_of s)) || (TrimSpace (SystemContract.Intent (System.Spec_ s)) == EmptyString))
    (Errorf "system requires a valid name and non-empty intent");;
  reject_if ((HostConstraint.Class_ host == EmptyString) || (HostConstraint.Count host <? 1) ||
             (HostConstraint.MemoryMiB host <? 1) || (HostConstraint.SystemReserve host <? 0) ||
             (HostConstraint.MemoryMiB host <=? HostConstraint.SystemReserve host))
    (Errorf "system requires a valid host constraint");;
  computeclass_Validate (HostConstraint.Class_ host);;
  reject_if (length (services_of s) == 0%nat) (Errorf "system requires at least one service");;
  reject_if (negb (is_ok (ValidateM1Prefix (prefix_of s))))
    (Errorf "system requires a safe relative m1 prefix").

Definition validate_dag (s : System) (dependencyCounts : gmap string Z)
    (dependents : gmap string (list string)) : result unit :=
  let '(counts, _) := kahn (length (services_of s)) dependents dependencyCounts
                           (initially_ready dependencyCounts (services_of s)) in
  reject_if (existsb (fun kv => kv.2 != 0) (map_to_list counts))
    (Errorf "system service dependencies contain a cycle").

Definition validate_capacity (s : System) (guestMemory totalInstances : Z) : result unit :=
  let host := host_of s in
  let count := HostConstraint.Count host in
  reject_if (maxCompiledSystemNodes <? count)
    (Errorf ("system exceeds the " +:+ Itoa maxCompiledSystemNodes +:+ "-node compilation limit"));;
  reject_if ((div64 max_int count <? HostConstraint.MemoryMiB host) ||
             (div64 max_int count <? HostConstraint.SystemReserve host))
    (Errorf "host capacity overflows capacity accounting");;
  let available := mul64 count (sub64 (HostConstraint.MemoryMiB host) (HostConstraint.SystemReserve host)) in
  let runtimeNodesPerHost :=
    (if needs_isolation "firecracker" (services_of s) then 1 else 0) +
    (if needs_isolation "process" (services_of s) then 1 else 0) in
  reject_if (maxCompiledSystemNodes <?
             add64 (add64 1 (mul64 count (add64 1 runtimeNodesPerHost))) (mul64 2 totalInstances))
    (Errorf ("system exceeds the " +:+ Itoa maxCompiledSystemNodes +:+ "-node compilation limit"));;
  reject_if (available <? guestMemory)
    (Errorf ("guest memory " +:+ Itoa guestMemory +:+ " MiB exceeds host capacity " +:+
             Itoa available +:+ " MiB after system reserve")).

Definition System_Validate (s : System) : result unit :=
  validate_header s;;
  '(seen, guestMemory, totalInstances) ← fold_result validate_service (∅, 0, 0) (services_of s);
  '(_, dependencyCounts, dependents) ← fold_result (validate_edges seen) (0, ∅, ∅) (services_of s);
  validate_dag s dependencyCounts dependents;;
  validate_capacity s guestMemory totalInstances.

(** ** Compilation *)
Definition host_id (i : Z) : string := "compute/host-" +:+ Itoa i.
Definition firecracker_id (i : Z) : string := "runtime/firecracker-host-" +:+ Itoa i.
Definition process_id (i : Z) : string := "runtime/process-host-" +:+ Itoa i.
Definition instance_suffix (name : string) (i : Z) : string := name +:+ "-" +:+ Itoa i.
Definition no_resources : ServiceResources := ServiceResources.mk 0 0.

Definition host_nodes (s : System) (i : Z) : list GraphNode :=
  let host := host_of s in
  [GraphNode.mk (host_id i) "compute.host" [] EmptyString no_resources
     (<["class" := HostConstraint.Class_ host]> {["memoryMiB" := Itoa (HostConstraint.MemoryMiB host)]})] ++
  (if needs_isolation "firecracker" (services_of s)
   then [GraphNode.mk (firecracker_id i) "runtime.firecracker" [host_id i] (host_id i) no_resources ∅] else []) ++
  (if needs_isolation "process" (services_of s)
   then [GraphNode.mk (process_id i) "runtime.process" [host_id i] (host_id i) no_resources ∅] else []).

Definition host_invariants (s : System) (i : Z) : list Invariant :=
  if needs_isolation "firecracker" (services_of s)
  then [Invariant.mk "host.capability" (host_id i) "kvm"] else [].

Definition is_process (service : SystemService) : bool := SystemService.Isolation service == "process".
Definition workload_id (service : SystemService) (instance : Z) : string :=
  (if is_process service then "process/" else "microvm/") +:+ instance_suffix (SystemService.Name service) instance.
Definition service_id (name : string) (instance : Z) : string := "service/" +:+ instance_suffix name instance.

Definition readiness_text (service : SystemService) : string :=
  Readiness.Protocol (SystemService.Readiness_ service) +:+ ":" +:+
  Itoa (Readiness.Port (SystemService.Readiness_ service)).

Definition instance_nodes (hostIndex : Z) (service : SystemService) (instance : Z) : list GraphNode :=
  let hostID := host_id hostIndex in
  let runtimeID := if is_process service then process_id hostIndex else firecracker_id hostIndex in
  let workloadKind := if is_process service then "runtime.process-instance" else "runtime.microvm" in
  let workloadID := workload_id service instance in
  let base := <["readiness" := readiness_text service]> {["networking" := SystemService.Networking service]} in
  let properties : gmap string string :=
    if SystemService.Kind service == "database"
    then <["binding" := match ServiceBindingName (SystemService.Name service) with Ok b => b | Err _ => EmptyString end]> base
    else base in
  [GraphNode.mk workloadID workloadKind [runtimeID] hostID (SystemService.Resources service)
     {["isolation" := SystemService.Isolation service]};
   GraphNode.mk (service_id (SystemService.Name service) instance)
     (SystemService.Kind service +:+ "." +:+ SystemService.Engine service)
     ([workloadID; "m1/system"] ++ ((fun dependency => service_id dependency 1) <$> SystemService.DependsOn service))
     workloadID no_resources properties].

Definition instance_invariants (service : SystemService) (instance : Z) : list Invariant :=
  [Invariant.mk "resource.memory" (workload_id service instance)
     (Itoa (ServiceResources.MemoryMiB (SystemService.Resources service)) +:+ "MiB");
   Invariant.mk "service.ready" (service_id (SystemService.Name service) instance) (readiness_text service)].

(** The two nested loops over services and their instances, in order. *)
Definition all_instances (services : list SystemService) : list (SystemService * Z) :=
  concat ((fun service => (fun i => (service, i)) <$> seqZ 1 (SystemService.Instances service)) <$> services).

Record compile_state : Type := CompileState {
  cs_nodes : list GraphNode;
  cs_invariants : list Invariant;
  cs_guestMemory : Z;
  cs_hostIndex : Z
}.

Definition compile_instance (count : Z) (st : compile_state) (si : SystemService * Z) : compile_state :=
  let '(service, instance) := si in
  CompileState (cs_nodes st ++ instance_nodes (cs_hostIndex st) service instance)
    (cs_invariants st ++ instance_invariants service instance)
    (add64 (cs_guestMemory st) (ServiceResources.MemoryMiB (SystemService.Resources service)))
    (add64 (rem64 (cs_hostIndex st) count) 1).

Definition node_le (a b : GraphNode) : Prop := String.leb (GraphNode.ID a) (GraphNode.ID b) = true.
#[global] Instance node_le_dec : RelDecision node_le.
Proof. intros a b. unfold node_le. apply _. Defined.

Definition CompileSystem (s : System) : result ExecutionGraph :=
  System_Validate s;;
  let host := host_of s in
  let count := HostConstraint.Count host in
  let m1 := GraphNode.mk "m1/system" "m1.namespace" [] EmptyString no_resources {["prefix" := prefix_of s]} in
  let start := CompileState (m1 :: concat (host_nodes s <$> seqZ 1 count))
                 (concat (host_invariants s <$> seqZ 1 count)) 0 1 in
  let final := fold_left (compile_instance count) (all_instances (services_of s)) start in
  Ok (ExecutionGraph.mk "v1" (name_of s)
        (merge_sort node_le (cs_nodes final)) (cs_invariants final)
        (Capacity.mk (mul64 count (HostConstraint.MemoryMiB host))
           (mul64 count (HostConstraint.SystemReserve host)) (cs_guestMemory final)
           (sub64 (mul64 count (sub64 (HostConstraint.MemoryMiB host) (HostConstraint.SystemReserve host)))
              (cs_guestMemory final)))).

(** ** Runtime plans *)
Definition runtime_service (service : SystemService) : result (list RuntimeService) :=
  if SystemService.Kind service != "database" then Ok []
  else
    binding ← ServiceBindingName (SystemService.Name service);
    Ok [RuntimeService.mk (SystemService.Name service) binding (SystemService.Kind service)
          (ToLower (SystemService.Engine service)) (SystemService.Instances service)
          (SystemService.Resources service) (SystemService.Readiness_ service)].

Definition CompileRuntimePlan (s : System) : result RuntimePlan :=
  System_Validate s;;
  services ← fold_result (fun acc service => l ← runtime_service service; Ok (acc ++ l)) [] (services_of s);
  Ok (RuntimePlan.mk "v1" (name_of s) services).

Definition RuntimePlan_Validate (p : RuntimePlan) (system : string) : result unit :=
  reject_if ((RuntimePlan.SchemaVersion p != "v1") || (RuntimePlan.System p != system))
    (Errorf ("runtime plan does not belong to system " +:+ system));;
  fold_result (fun _ service =>
    reject_if (match ServiceBindingName (RuntimeService.Name service) with
               | Err _ => true
               | Ok binding => (RuntimeService.Binding service != binding) ||
                               (RuntimeService.Kind service == EmptyString) ||
                               (RuntimeService.Engine service == EmptyString) ||
                               (RuntimeService.Instances service <? 1)
               end) (Errorf "runtime plan contains an invalid service")) tt (RuntimePlan.Services p).

(** ** Capability bindings of the semantic view (sdk/system_view.go) *)
Definition consumers_of (services : list SystemService) (name : string) : list string :=
  concat ((fun consumer =>
    (fun _ => SystemService.Name consumer) <$>
      List.filter (fun dependency => dependency == name) (SystemService.DependsOn consumer)) <$> services).

Definition service_binding (services : list SystemService) (service : SystemService)
    : result (list ServiceBinding) :=
  if SystemService.Kind service != "database" then Ok []
  else
    binding ← ServiceBindingName (SystemService.Name service);
    Ok [ServiceBinding.mk (SystemService.Name service) (SystemService.Kind service)
          (SystemService.Engine service) binding (consumers_of services (SystemService.Name service))].

Definition CompileSystemView (s : System) : result (ExecutionGraph * list ServiceBinding) :=
  graph ← CompileSystem s;
  bindings ← fold_result (fun acc service => l ← service_binding (services_of s) service; Ok (acc ++ l))
               [] (services_of s);
  Ok (graph, bindings).

(** ** Application capacity (sdk/change.go) *)
Fixpoint scale_target (services : list SystemService) (serviceName : string)
    (target : option SystemService) (usedByOthers : Z) : option SystemService * Z :=
  match services with
  | [] => (target, usedByOthers)
  | service :: rest =>
      if SystemService.Name service == serviceName
      then scale_target rest serviceName (Some service) usedByOthers
      else scale_target rest serviceName target
             (add64 usedByOthers (mul64 (SystemService.Instances service)
                (ServiceResources.MemoryMiB (SystemService.Resources service))))
  end.

Definition ScaleCapacity (s : System) (serviceName : string) : result (SystemService * Z) :=
  System_Validate s;;
  let host := host_of s in
  reject_if (HostConstraint.Count host != 1)
    (Errorf "application replica scaling currently requires exactly one allocated host; multi-host placement must be a separate governed Change");;
  let '(target, usedByOthers) := scale_target (services_of s) serviceName None 0 in
  match target with
  | None => Err (Errorf ("service " +:+ serviceName +:+ " is not declared by the System"))
  | Some target =>
      reject_if ((SystemService.Networking target != "public") ||
                 (Readiness.Protocol (SystemService.Readiness_ target) != "http") ||
                 (SystemService.Isolation target != "process") || (SystemService.Kind target == "database"))
        (Errorf ("service " +:+ serviceName +:+ " is not a process-isolated public HTTP application"));;
      let available := sub64 (mul64 (HostConstraint.Count host)
                        (sub64 (HostConstraint.MemoryMiB host) (HostConstraint.SystemReserve host))) usedByOthers in
      let maxReplicas := div64 available (ServiceResources.MemoryMiB (SystemService.Resources target)) in
      reject_if (maxReplicas <? 1) (Errorf ("service " +:+ serviceName +:+ " has no schedulable capacity"));;
      Ok (target, maxReplicas)
  end.

(** ** The host contract derived from a System (sdk/release.go) *)
Definition SystemHostSpec (s : System) (bootstrap : string) : Spec :=
  let host := host_of s in
  Spec.mk APIVersion "Sandbox" (System.Metadata_ s)
    (Desired.mk "Run the Canter node runtime and reconcile versioned application releases."
       (ComputeSpec.mk (HostConstraint.Class_ host) "ubuntu-24.04" (HostConstraint.Count host) bootstrap)
       (SystemContract.M1 (System.Spec_ s)) (Policy.mk (HostConstraint.Count host))).

Fixpoint public_port (services : list SystemService) : result Z :=
  match services with
  | [] => Err (Errorf "system has no HTTP service readiness port")
  | service :: rest =>
      let port := Readiness.Port (SystemService.Readiness_ service) in
      if (SystemService.Networking service == "public") &&
         (Readiness.Protocol (SystemService.Readiness_ service) == "http") && (0 <? port)
      then Ok port else public_port rest
  end.
Definition systemPublicPort (s : System) : result Z := public_port (services_of s).

(** ** Workspace scoping (internal/controlplane/system_scope.go) *)
Definition canonicalSystemPrefix (workspaceID systemName : string) : result string :=
  let prefix := "workspaces/" +:+ workspaceID +:+ "/systems/" +:+ systemName in
  match ValidateM1Prefix prefix with
  | Err e => Err (Wrapf "cannot derive workspace-scoped m1 prefix: " e)
  | Ok _ => Ok prefix
  end.

Definition with_prefix (prefix : string) (s : System) : System :=
  System.with_Spec_ (SystemContract.with_M1 (M1Spec.mk prefix) (System.Spec_ s)) s.

Definition canonicalizeSystemForWorkspace (workspaceID : string) (s : System) : result System :=
  (if prefix_of s != EmptyString then ValidateM1Prefix (prefix_of s) else Ok tt);;
  prefix ← canonicalSystemPrefix workspaceID (name_of s);
  let s' := with_prefix prefix s in
  System_Validate s';;
  Ok s'.

Definition validateCanonicalSystemForWorkspace (workspaceID : string) (s : System) : result unit :=
  System_Validate s;;
  prefix ← canonicalSystemPrefix workspaceID (name_of s);
  reject_if (prefix_of s != prefix) (WrapfBefore ErrConflict (": System m1 prefix must be " +:+ Quote prefix)).

End Systems.
