(* ===== verification/Topology.v ===== *)
(** * Kahn's algorithm, as System.Validate runs it

    [kahn] of [Systems] decrements 64-bit counters stored in a map and keeps
    the ready services on a stack.  This file proves that it terminates within
    one round per service and that its counters all reach zero exactly when the
    dependency graph has a ranking. *)

From S2P Require Import Prelude GoStrings Documents SandboxSpec Systems.

Section Kahn.
Context (names : list string) (deps : string -> list string).
Context (dependents : gmap string (list string)).

Definition missing (P : list string) (d : string) : nat :=
  length (List.filter (fun x => negb (bool_decide (x ∈ P))) (deps d)).

Definition ranked (rank : string -> nat) : Prop :=
  forall d x, d ∈ names -> x ∈ deps d -> (rank x < rank d)%nat.

(** The tables the second validation loop builds. *)
Record tables_ok : Prop := {
  tbl_names : NoDup names;
  tbl_bound : Z.of_nat (length names) <= max_int;
  tbl_deps_nodup d : d ∈ names -> NoDup (deps d);
  tbl_deps_names d x : d ∈ names -> x ∈ deps d -> x ∈ names;
  tbl_dependents n d : d ∈ default [] (dependents !! n) <-> d ∈ names /\ n ∈ deps d;
  tbl_dependents_nodup n : NoDup (default [] (dependents !! n))
}.

Record kahn_inv (P : list string) (counts : gmap string Z) (ready : list string) : Prop := {
  inv_nodup : NoDup (P ++ ready);
  inv_names x : x ∈ P ++ ready -> x ∈ names;
  inv_counts d : d ∈ names -> counts !! d = Some (Z.of_nat (missing P d));
  inv_dom d : d ∉ names -> counts !! d = None;
  inv_zero d : d ∈ names -> missing P d = 0%nat <-> d ∈ P ++ ready;
  inv_topo P1 d P2 : P = P1 ++ d :: P2 -> forall x, x ∈ deps d -> x ∈ P2
}.

Lemma missing_zero P d : missing P d = 0%nat <-> forall x, x ∈ deps d -> x ∈ P.
Proof.
  unfold missing. induction (deps d) as [|y l IH]; simpl.
  - split; [intros _ x Hx; by apply elem_of_nil in Hx|done].
  - destruct (decide (y ∈ P)) as [Hy|Hy].
    + rewrite bool_decide_true by done. simpl. rewrite IH. split.
      * intros H x [->|Hx]%elem_of_cons; auto.
      * intros H x Hx. apply H. by right.
    + rewrite bool_decide_false by done. simpl. split; [done|].
      intros H. destruct Hy. apply H. by left.
Qed.

Lemma filter_remove (P : list string) n (l : list string) :
  NoDup l -> n ∉ P ->
  length (List.filter (fun x => negb (bool_decide (x ∈ P))) l) =
  (length (List.filter (fun x => negb (bool_decide (x ∈ n :: P))) l) +
   if bool_decide (n ∈ l) then 1 else 0)%nat.
Proof.
  intros Hnd HnP. induction Hnd as [|y l Hy Hnd IH]; [done|]. cbn [List.filter].
  destruct (decide (y = n)) as [->|Hne].
  - rewrite (bool_decide_false (n ∈ P)) by done.
    rewrite (bool_decide_true (n ∈ n :: P)) by left.
    rewrite (bool_decide_true (n ∈ n :: l)) by left. simpl. rewrite IH.
    rewrite (bool_decide_false (n ∈ l)) by done. lia.
  - assert (bool_decide (n ∈ y :: l) = bool_decide (n ∈ l)) as ->.
    { apply bool_decide_ext. rewrite elem_of_cons. naive_solver. }
    assert (bool_decide (y ∈ n :: P) = bool_decide (y ∈ P)) as ->.
    { apply bool_decide_ext. rewrite elem_of_cons. naive_solver. }
    destruct (negb _); simpl; rewrite IH; lia.
Qed.

Lemma missing_step P n d :
  NoDup (deps d) -> n ∉ P ->
  missing P d = (missing (n :: P) d + if bool_decide (n ∈ deps d) then 1 else 0)%nat.
Proof. intros. by apply filter_remove. Qed.

Lemma sub64_nat (c : nat) : (1 <= c)%nat -> Z.of_nat c <= max_int -> sub64 (Z.of_nat c) 1 = Z.of_nat (c - 1).
Proof. intros. unfold sub64. rewrite i64_id by (unfold int_range, min_int in *; lia). lia. Qed.

(** The inner loop: every dependent loses one, those that reach zero are pushed. *)
Lemma release_fold (c : string -> nat) ds counts r counts' r' :
  NoDup ds ->
  (forall d, d ∈ ds -> counts !! d = Some (Z.of_nat (c d)) /\ (1 <= c d)%nat /\ Z.of_nat (c d) <= max_int) ->
  fold_left release_dependent ds (counts, r) = (counts', r') ->
  (forall d, d ∈ ds -> counts' !! d = Some (Z.of_nat (c d - 1))) /\
  (forall d, d ∉ ds -> counts' !! d = counts !! d) /\
  (exists new, r' = new ++ r /\ NoDup new /\ forall d, d ∈ new <-> d ∈ ds /\ c d = 1%nat).
Proof.
  intros Hnd. revert counts r. induction Hnd as [|d ds Hd Hnd IH]; intros counts r Hc Hf.
  - injection Hf as <- <-. split_and!; [intros d Hd; by apply elem_of_nil in Hd|done|].
    exists []. split_and!; [done|constructor|]. intros d. rewrite elem_of_nil. naive_solver.
  - cbn [fold_left] in Hf. unfold release_dependent at 2 in Hf.
    destruct (Hc d ltac:(by left)) as (Hcd & H1 & H2).
    rewrite Hcd in Hf. simpl in Hf. rewrite sub64_nat in Hf by done.
    unshelve epose proof (IH _ _ _ Hf) as (IH1 & IH2 & new & -> & Hnn & Hnew).
    { intros d' Hd'. rewrite lookup_insert_ne by (by intros ->). apply Hc. by right. }
    split_and!.
    + intros d' [->|Hd']%elem_of_cons; [|auto]. rewrite IH2 by done. by rewrite lookup_insert_eq.
    + intros d' Hd'. apply not_elem_of_cons in Hd' as [Hne Hd'].
      rewrite IH2 by done. by rewrite lookup_insert_ne.
    + destruct (decide (c d = 1%nat)) as [E|E].
      * rewrite bool_decide_true by lia.
        exists (new ++ [d]). rewrite <- app_assoc. split_and!; [done| |].
        -- apply NoDup_app. split_and!; [done| |apply NoDup_singleton].
           intros x Hx ->%list_elem_of_singleton. apply Hnew in Hx. naive_solver.
        -- intros x. rewrite elem_of_app, list_elem_of_singleton, Hnew, elem_of_cons. naive_solver.
      * rewrite bool_decide_false by lia. exists new. split_and!; [done..|].
        intros x. rewrite Hnew, elem_of_cons. naive_solver.
Qed.

Context (Htbl : tables_ok).

Lemma missing_le P d : d ∈ names -> Z.of_nat (missing P d) <= max_int.
Proof.
  intros Hd. assert (missing P d <= length (deps d))%nat.
  { unfold missing. induction (deps d); simpl; [done|]. destruct (negb _); simpl; lia. }
  assert (length (deps d) <= length names)%nat.
  { apply submseteq_length, NoDup_submseteq; [by apply Htbl|]. intros x. by apply Htbl. }
  pose proof (tbl_bound Htbl). lia.
Qed.

Lemma kahn_step P n rest counts counts' ready' :
  kahn_inv P counts (n :: rest) ->
  fold_left release_dependent (default [] (dependents !! n)) (counts, rest) = (counts', ready') ->
  kahn_inv (n :: P) counts' ready'.
Proof.
  intros HI Hf.
  assert (n ∈ names) as Hn by (apply (inv_names _ _ _ HI); set_solver).
  assert (n ∉ P) as HnP.
  { pose proof (inv_nodup _ _ _ HI) as H. apply NoDup_app in H as (_ & H & _). intros Hin. eapply H; [done|left]. }
  unshelve epose proof (release_fold (missing P) _ _ _ _ _ (tbl_dependents_nodup Htbl n) _ Hf)
    as (H1 & H2 & new & -> & Hnew & Hin).
  { intros d Hd. apply Htbl in Hd as [Hd Hnd]. split_and!.
    - by apply (inv_counts _ _ _ HI).
    - rewrite (missing_step P n d) by (auto; by apply Htbl). rewrite bool_decide_true by done. lia.
    - by apply missing_le. }
  assert (forall d, d ∈ names -> counts' !! d = Some (Z.of_nat (missing (n :: P) d))) as Hcounts.
  { intros d Hd. destruct (decide (n ∈ deps d)) as [Hnd|Hnd].
    - rewrite H1 by (apply Htbl; auto). rewrite (missing_step P n d) by (auto; by apply Htbl).
      rewrite bool_decide_true by done. f_equal. lia.
    - rewrite H2 by (rewrite (tbl_dependents Htbl); naive_solver). rewrite (inv_counts _ _ _ HI) by done.
      rewrite (missing_step P n d) by (auto; by apply Htbl). rewrite bool_decide_false by done. f_equal. lia. }
  assert (forall d, d ∈ new <-> d ∈ names /\ n ∈ deps d /\ missing (n :: P) d = 0%nat) as Hin'.
  { intros d. rewrite Hin, (tbl_dependents Htbl). split.
    - intros [[Hd Hnd] E]. split_and!; [done..|].
      rewrite (missing_step P n d) in E by (auto; by apply Htbl). rewrite bool_decide_true in E by done. lia.
    - intros (Hd & Hnd & E). split; [done|]. rewrite (missing_step P n d) by (auto; by apply Htbl).
      rewrite bool_decide_true by done. lia. }
  assert (forall d, d ∈ new -> d ∉ P ++ n :: rest) as Hfresh.
  { intros d Hd Hold. apply Hin' in Hd as (Hd & Hnd & _). apply (inv_zero _ _ _ HI) in Hold; [|done].
    rewrite (missing_step P n d) in Hold by (auto; by apply Htbl). rewrite bool_decide_true in Hold by done. lia. }
  split.
  - pose proof (inv_nodup _ _ _ HI) as Hnd.
    assert ((n :: P) ++ new ++ rest ≡ₚ new ++ (P ++ n :: rest)) as -> by solve_Permutation.
    apply NoDup_app. split_and!; [done|exact Hfresh|done].
  - intros x Hx. apply elem_of_app in Hx as [Hx|Hx].
    + apply (inv_names _ _ _ HI). set_solver.
    + apply elem_of_app in Hx as [Hx|Hx]; [apply Hin' in Hx; naive_solver|]. apply (inv_names _ _ _ HI). set_solver.
  - exact Hcounts.
  - intros d Hd. rewrite H2; [by apply (inv_dom _ _ _ HI)|]. rewrite (tbl_dependents Htbl). naive_solver.
  - intros d Hd. pose proof (inv_zero _ _ _ HI d Hd) as Hz.
    pose proof (missing_step P n d (tbl_deps_nodup Htbl d Hd) HnP) as Hs. split.
    + intros E. destruct (decide (n ∈ deps d)) as [Hnd|Hnd].
      * assert (d ∈ new) by (by apply Hin'). set_solver.
      * rewrite bool_decide_false in Hs by done. assert (d ∈ P ++ n :: rest) by (apply Hz; lia). set_solver.
    + intros Hx. assert (d ∈ new \/ d ∈ P ++ n :: rest) as [Hd'|Hd'] by set_solver.
      * apply Hin' in Hd'. naive_solver.
      * apply Hz in Hd'. lia.
  - intros P1 d P2 E x Hx. destruct P1 as [|p P1]; simpl in E; injection E as -> ->.
    + apply (missing_zero P2 d); [|done]. apply (inv_zero _ _ _ HI); [done|]. set_solver.
    + eapply (inv_topo _ _ _ HI); eauto.
Qed.

(** Termination and the final invariant: [length names] rounds are enough. *)
Lemma kahn_spec fuel P counts ready :
  kahn_inv P counts ready -> (length names - length P <= fuel)%nat ->
  exists P' counts', kahn fuel dependents counts ready = (counts', []) /\ kahn_inv P' counts' [].
Proof.
  revert P counts ready. induction fuel as [|fuel IH]; intros P counts ready HI Hf.
  - assert (ready = []) as ->; [|by eauto].
    assert (length (P ++ ready) <= length names)%nat as Hl.
    { apply submseteq_length, NoDup_submseteq; [apply HI|]. intros x. apply HI. }
    rewrite length_app in Hl. destruct ready; simpl in *; [done|lia].
  - destruct ready as [|n rest]; [by eauto|]. simpl.
    destruct (fold_left _ _ _) as [counts' ready'] eqn:Hfold.
    eapply IH; [by eapply kahn_step|]. simpl. lia.
Qed.

Fixpoint rank_in (P : list string) (d : string) : nat :=
  match P with
  | [] => 0
  | x :: P' => if decide (x = d) then S (length P') else rank_in P' d
  end.

Lemma rank_in_le P d : (rank_in P d <= length P)%nat.
Proof. induction P as [|x P IH]; simpl; [done|]. destruct (decide _); lia. Qed.

Lemma rank_in_topo P d x :
  (forall P1 d P2, P = P1 ++ d :: P2 -> forall x, x ∈ deps d -> x ∈ P2) ->
  NoDup P -> d ∈ P -> x ∈ deps d -> (rank_in P x < rank_in P d)%nat.
Proof.
  induction P as [|p P IH]; intros Htopo Hnd Hd Hx; [by apply elem_of_nil in Hd|].
  apply NoDup_cons in Hnd as [Hp Hnd]. simpl.
  destruct (decide (p = d)) as [->|Hne].
  - pose proof (Htopo [] d P eq_refl x Hx). rewrite decide_False by (by intros ->).
    pose proof (rank_in_le P x). lia.
  - apply elem_of_cons in Hd as [->|Hd]; [done|].
    assert (forall P1 d P2, P = P1 ++ d :: P2 -> forall x, x ∈ deps d -> x ∈ P2) as Htopo'.
    { intros P1 d' P2 -> . apply (Htopo (p :: P1) d' P2 eq_refl). }
    assert (x ∈ P).
    { apply list_elem_of_split in Hd as (l1 & l2 & ->). pose proof (Htopo' l1 d l2 eq_refl x Hx). set_solver. }
    rewrite decide_False by (by intros ->). by apply IH.
Qed.

(** The counters all reach zero exactly when the graph has a ranking. *)
Lemma kahn_zero_iff P counts :
  kahn_inv P counts [] ->
  (forall d, d ∈ names -> counts !! d = Some 0) <-> exists rank, ranked rank.
Proof.
  intros HI. split.
  - intros Hz. exists (rank_in P). intros d x Hd Hx.
    apply rank_in_topo; [apply HI| |..|done].
    + pose proof (inv_nodup _ _ _ HI) as H. by rewrite app_nil_r in H.
    + pose proof (inv_counts _ _ _ HI d Hd) as Hc. rewrite Hz in Hc by done.
      assert (missing P d = 0%nat) as Hm by (injection Hc; lia).
      apply (inv_zero _ _ _ HI) in Hm; [|done]. by rewrite app_nil_r in Hm.
  - intros [rank Hrank]. intros d.
    remember (rank d) as r eqn:Er. revert d Er.
    induction r as [r IH] using lt_wf_ind. intros d -> Hd.
    rewrite (inv_counts _ _ _ HI) by done. do 2 f_equal.
    assert (missing P d = 0%nat) as ->; [|done]. apply missing_zero. intros x Hx.
    assert (x ∈ names) as Hxn by (by apply Htbl with d).
    assert (counts !! x = Some 0) as Hc by (eapply IH; [|done|done]; by apply Hrank).
    rewrite (inv_counts _ _ _ HI) in Hc by done.
    assert (x ∈ P ++ []) as H; [|by rewrite app_nil_r in H].
    apply (inv_zero _ _ _ HI); [done|]. injection Hc. lia.
Qed.

End Kahn.
