(* ===== verification/Admission.v ===== *)
(** * What System.Validate admits

    [admissible] is the specification of an admitted System, over unbounded
    integers and without an algorithm for the dependency graph.
    [System_Validate_iff] is the refinement: the checks of the source, in
    64-bit arithmetic and with Kahn's algorithm, accept exactly it. *)

From S2P Require Import Prelude GoStrings Documents SandboxSpec Systems Topology.

Section Spec.
Context `{Unicode}.

Definition instances_of (sv : SystemService) : Z := SystemService.Instances sv.
Definition memory_of (sv : SystemService) : Z := ServiceResources.MemoryMiB (SystemService.Resources sv).
Definition deps_of (sv : SystemService) : list string := SystemService.DependsOn sv.
Definition total_instances (l : list SystemService) : Z := sum_by instances_of l.
Definition guest_memory (l : list SystemService) : Z := sum_by (fun sv => instances_of sv * memory_of sv) l.
Definition total_edges (l : list SystemService) : Z :=
  sum_by (fun sv => Z.of_nat (length (deps_of sv)) * instances_of sv) l.

Record service_ok (sv : SystemService) : Prop := {
  so_name : safeName (SystemService.Name sv) = true;
  so_kind : SystemService.Kind sv <> EmptyString;
  so_instances : 1 <= instances_of sv;
  so_vcpu : 1 <= ServiceResources.VCPU (SystemService.Resources sv);
  so_memory : 1 <= memory_of sv;
  so_isolation : SystemService.Isolation sv = "firecracker" \/ SystemService.Isolation sv = "process";
  so_engine : SystemService.Kind sv = "database" -> SystemService.Engine sv <> EmptyString;
  so_protocol : Readiness.Protocol (SystemService.Readiness_ sv) <> EmptyString;
  so_port : 1 <= Readiness.Port (SystemService.Readiness_ sv) <= 65535
}.

Record deps_ok (names : list string) (sv : SystemService) : Prop := {
  do_nodup : NoDup (deps_of sv);
  do_declared d : d ∈ deps_of sv -> d ∈ names;
  do_self : SystemService.Name sv ∉ deps_of sv
}.

Definition acyclic (l : list SystemService) : Prop :=
  exists rank : string -> nat, forall sv d, sv ∈ l -> d ∈ deps_of sv ->
    (rank d < rank (SystemService.Name sv))%nat.

Definition runtimes (l : list SystemService) : Z :=
  (if needs_isolation "firecracker" l then 1 else 0) + (if needs_isolation "process" l then 1 else 0).

Record services_ok (l : list SystemService) : Prop := {
  ss_names : NoDup (SystemService.Name <$> l);
  ss_services : Forall service_ok l;
  ss_total : total_instances l <= 5000;
  ss_guest : guest_memory l <= max_int
}.

Record edges_ok (l : list SystemService) : Prop := {
  es_deps : Forall (deps_ok (SystemService.Name <$> l)) l;
  es_edges : total_edges l <= 100000
}.

Record capacity_ok (s : System) : Prop := {
  co_nodes : 1 + HostConstraint.Count (host_of s) * (1 + runtimes (services_of s)) +
             2 * total_instances (services_of s) <= 10000;
  co_count : HostConstraint.Count (host_of s) <= 10000;
  co_memory : HostConstraint.Count (host_of s) * HostConstraint.MemoryMiB (host_of s) <= max_int;
  co_guest : guest_memory (services_of s) <=
             HostConstraint.Count (host_of s) *
             (HostConstraint.MemoryMiB (host_of s) - HostConstraint.SystemReserve (host_of s))
}.

Record admissible (s : System) : Prop := {
  ad_header : validate_header s = Ok tt;
  ad_services : services_ok (services_of s);
  ad_edges : edges_ok (services_of s);
  ad_acyclic : acyclic (services_of s);
  ad_capacity : capacity_ok s
}.

(** ** The header *)
Lemma header_host s :
  validate_header s = Ok tt ->
  1 <= HostConstraint.Count (host_of s) /\ 1 <= HostConstraint.MemoryMiB (host_of s) /\
  0 <= HostConstraint.SystemReserve (host_of s) < HostConstraint.MemoryMiB (host_of s) /\
  services_of s <> [] /\ is_ok (ValidateM1Prefix (prefix_of s)) = true /\ safeName (name_of s) = true.
Proof.
  unfold validate_header. intros Hv. ok_inv. bool_inv.
  destruct (services_of s); split_and!; try done; lia.
Qed.

(** ** First loop *)
Lemma validate_service_iff seen guest total sv seen' guest' total' :
  0 <= total <= 5000 -> 0 <= guest <= max_int ->
  validate_service (seen, guest, total) sv = Ok (seen', guest', total') <->
  service_ok sv /\ SystemService.Name sv ∉ seen /\
  total + instances_of sv <= 5000 /\ guest + instances_of sv * memory_of sv <= max_int /\
  seen' = {[SystemService.Name sv]} ∪ seen /\ guest' = guest + instances_of sv * memory_of sv /\
  total' = total + instances_of sv.
Proof.
  intros Ht Hg. unfold validate_service. fold (instances_of sv) (memory_of sv).
  assert (div64 maxCompiledSystemNodes 2 = 5000) as -> by done.
  assert (sub64 5000 total = 5000 - total) as ->.
  { unfold sub64. apply i64_id. unfold int_range, min_int, max_int. lia. }
  set (inst := instances_of sv) in *. set (mem := memory_of sv) in *.
  assert (Hdiv : 1 <= inst -> div64 max_int inst = max_int / inst).
  { intros. unfold div64. rewrite Z.quot_div_nonneg by (unfold max_int; lia). apply i64_id.
    unfold int_range, min_int, max_int in *. split; [|apply Z.div_le_upper_bound; nia].
    transitivity 0; [lia|apply Z.div_pos; lia]. }
  assert (Hmul : 1 <= inst -> 1 <= mem -> mem <= max_int / inst -> mul64 inst mem = inst * mem /\ inst * mem <= max_int).
  { intros. pose proof (Z.mul_div_le max_int inst ltac:(lia)). split; [|nia].
    unfold mul64. apply i64_id. unfold int_range, min_int, max_int in *. nia. }
  assert (Hsub : sub64 max_int guest = max_int - guest).
  { unfold sub64. apply i64_id. unfold int_range, min_int, max_int in *. lia. }
  rewrite Hsub. clear Hsub. split.
  - intros Hv. ok_inv. bool_inv. subst seen' guest' total'.
    rewrite Hdiv in * by lia. destruct Hmul as [Hm1 Hm2]; [lia..|]. rewrite Hm1 in *.
    assert (add64 guest (inst * mem) = guest + inst * mem) as ->.
    { unfold add64. apply i64_id. unfold int_range, min_int, max_int in *. nia. }
    assert (add64 total inst = total + inst) as ->.
    { unfold add64. apply i64_id. unfold int_range, min_int, max_int in *. lia. }
    split_and!; try done; try lia.
    constructor; try done; try lia.
    + destruct (decide (SystemService.Isolation sv = "firecracker")); [by left|right].
      rewrite bool_decide_false in * by done. simpl in *. by bool_inv.
    + intros Hk. rewrite bool_decide_true in * by done. simpl in *. by bool_inv.
  - intros (Hok & Hseen & Htot & Hguest & -> & -> & ->). destruct Hok. fold inst mem in so_instances0, so_memory0.
    assert (mem <= max_int / inst) as Hmem by (apply Z.div_le_lower_bound; lia).
    rewrite Hdiv by lia. destruct Hmul as [Hm1 Hm2]; [lia..|]. rewrite Hm1.
    assert (add64 guest (inst * mem) = guest + inst * mem) as ->.
    { unfold add64. apply i64_id. unfold int_range, min_int, max_int in *. nia. }
    assert (add64 total inst = total + inst) as ->.
    { unfold add64. apply i64_id. unfold int_range, min_int, max_int in *. lia. }
    rewrite so_name0. rewrite (bool_decide_false (_ ∈ seen)) by done.
    rewrite (bool_decide_false (SystemService.Kind sv = EmptyString)) by done.
    rewrite (bool_decide_false (Readiness.Protocol _ = EmptyString)) by done.
    assert ((SystemService.Isolation sv != "firecracker") && (SystemService.Isolation sv != "process") = false) as ->.
    { destruct so_isolation0 as [-> | ->]; done. }
    assert ((SystemService.Kind sv == "database") && (SystemService.Engine sv == EmptyString) = false) as ->.
    { destruct (decide (SystemService.Kind sv = "database")) as [E|E].
      - rewrite (bool_decide_true _ E), bool_decide_false; auto.
      - by rewrite (bool_decide_false _ E). }
    simpl negb. simpl orb.
    repeat match goal with |- context [reject_if ?b ?e] =>
      rewrite (proj2 (reject_if_ok b e)) by (rewrite ?orb_false_iff; lia) end.
    done.
Qed.

Lemma validate_services_sound l seen guest total :
  fold_result validate_service (∅, 0, 0) l = Ok (seen, guest, total) ->
  services_ok l /\ (forall n, n ∈ seen <-> n ∈ SystemService.Name <$> l) /\
  guest = guest_memory l /\ total = total_instances l /\ 0 <= guest /\ 0 <= total.
Proof.
  intros Hv.
  pose (I := fun (done : list SystemService) (st : gset string * Z * Z) =>
    let '(seen, guest, total) := st in
    NoDup (SystemService.Name <$> done) /\ Forall service_ok done /\
    (forall n, n ∈ seen <-> n ∈ SystemService.Name <$> done) /\
    guest = guest_memory done /\ total = total_instances done /\ 0 <= guest <= max_int /\ 0 <= total <= 5000).
  enough (I l (seen, guest, total)) as (? & ? & ? & -> & -> & ? & ?).
  { split_and!; try done; try lia. constructor; try done; lia. }
  refine (fold_result_inv _ I l _ _ _ _ Hv); unfold I.
  { split_and!; try done; try (unfold max_int; lia); try set_solver; constructor. }
  clear. intros done sv [[seen guest] total] [[seen' guest'] total'] (H1 & H2 & H3 & -> & -> & Hg & Ht) Hs.
  apply validate_service_iff in Hs as (Hok & Hn & Hi & Hm & -> & -> & ->); [|done..].
  pose proof (so_instances _ Hok). pose proof (so_memory _ Hok).
  split_and!.
  - rewrite fmap_app. apply NoDup_app. split_and!; [done| |apply NoDup_singleton].
    intros x Hx ->%list_elem_of_singleton. by apply Hn, H3.
  - apply Forall_app; auto.
  - intros n. rewrite fmap_app, elem_of_union, elem_of_app, elem_of_singleton, H3. simpl.
    rewrite list_elem_of_singleton. naive_solver.
  - unfold guest_memory. rewrite sum_by_app. simpl. lia.
  - unfold total_instances. rewrite sum_by_app. simpl. lia.
  - nia.
  - done.
  - lia.
  - done.
Qed.

Lemma validate_services_complete l seen guest total :
  0 <= total -> 0 <= guest -> NoDup (SystemService.Name <$> l) ->
  (forall n, n ∈ SystemService.Name <$> l -> n ∉ seen) -> Forall service_ok l ->
  total + total_instances l <= 5000 -> guest + guest_memory l <= max_int ->
  exists seen', fold_result validate_service (seen, guest, total) l =
     Ok (seen', guest + guest_memory l, total + total_instances l) /\
     forall n, n ∈ seen' <-> n ∈ seen \/ n ∈ SystemService.Name <$> l.
Proof.
  revert seen guest total. induction l as [|sv l IH]; intros seen guest total H1 H2 Hnd Hfresh Hok Ht Hg.
  - exists seen. unfold total_instances, guest_memory. simpl. rewrite !Z.add_0_r. split; [done|]. set_solver.
  - apply Forall_cons in Hok as [Hsv Hok]. rewrite fmap_cons in *. apply NoDup_cons in Hnd as [Hn Hnd].
    pose proof (so_instances _ Hsv). pose proof (so_memory _ Hsv).
    assert (0 <= total_instances l).
    { apply sum_by_nonneg. intros x Hx. rewrite Forall_forall in Hok. pose proof (so_instances _ (Hok x Hx)). lia. }
    assert (0 <= guest_memory l).
    { apply sum_by_nonneg. intros x Hx. rewrite Forall_forall in Hok.
      pose proof (so_instances _ (Hok x Hx)). pose proof (so_memory _ (Hok x Hx)). nia. }
    change (total_instances (sv :: l)) with (instances_of sv + total_instances l) in *.
    change (guest_memory (sv :: l)) with (instances_of sv * memory_of sv + guest_memory l) in *.
    assert (0 <= instances_of sv * memory_of sv) by nia.
    cbn [fold_result].
    assert (validate_service (seen, guest, total) sv =
      Ok ({[SystemService.Name sv]} ∪ seen, guest + instances_of sv * memory_of sv, total + instances_of sv)) as ->.
    { apply validate_service_iff; [lia..|]. split_and!; try done; try lia. apply Hfresh. by left. }
    cbn [mbind result_bind]. edestruct (IH ({[SystemService.Name sv]} ∪ seen) (guest + instances_of sv * memory_of sv)
      (total + instances_of sv)) as (seen' & -> & Hs); try lia; try done.
    { intros n Hin. apply not_elem_of_union. split; [|apply Hfresh; by right].
      rewrite elem_of_singleton. by intros ->. }
    exists seen'. split; [by rewrite !Z.add_assoc|]. intros n. rewrite Hs. set_solver.
Qed.

(** ** Second loop *)
Lemma validate_dependency_iff name seen acc d acc' :
  validate_dependency name seen acc d = Ok acc' <->
  d <> name /\ d ∈ seen /\ d ∉ acc /\ acc' = {[d]} ∪ acc.
Proof.
  unfold validate_dependency. destruct (decide (d = name)) as [E|E].
  { rewrite (bool_decide_true (d = name)) by done. simpl. naive_solver. }
  rewrite (bool_decide_false (d = name)) by done.
  destruct (decide (d ∈ seen)) as [Es|Es].
  2:{ rewrite (bool_decide_false (d ∈ seen)) by done. simpl. naive_solver. }
  rewrite (bool_decide_true (d ∈ seen)) by done.
  destruct (decide (d ∈ acc)) as [Ea|Ea].
  - rewrite (bool_decide_true (d ∈ acc)) by done. simpl. naive_solver.
  - rewrite (bool_decide_false (d ∈ acc)) by done. simpl. naive_solver.
Qed.

Lemma validate_dependencies_iff name seen acc deps :
  is_ok (fold_result (validate_dependency name seen) acc deps) = true <->
  NoDup deps /\ forall d, d ∈ deps -> d ∈ seen /\ d <> name /\ d ∉ acc.
Proof.
  revert acc. induction deps as [|d deps IH]; intros acc; cbn [fold_result].
  - split; [|done]. intros _. split; [constructor|]. intros d Hd. by apply elem_of_nil in Hd.
  - destruct (validate_dependency name seen acc d) as [acc'|e] eqn:E; cbn [mbind result_bind].
    + apply validate_dependency_iff in E as (H1 & H2 & H3 & ->). rewrite IH, NoDup_cons. split.
      * intros [Hnd Hall]. split_and!; [|done|].
        -- intros Hd. apply Hall in Hd. set_solver.
        -- intros x [->|Hx]%elem_of_cons; [done|]. apply Hall in Hx. set_solver.
      * intros [[Hd Hnd] Hall]. split; [done|]. intros x Hx.
        destruct (Hall x ltac:(by right)) as (? & ? & ?). split_and!; [done..|].
        apply not_elem_of_union. split; [|done]. rewrite elem_of_singleton. by intros ->.
    + split; [done|]. intros [_ Hall]. destruct (Hall d ltac:(by left)) as (? & ? & ?).
      enough (validate_dependency name seen acc d = Ok ({[d]} ∪ acc)) by congruence.
      by apply validate_dependency_iff.
Qed.

Lemma validate_edges_iff seen edges counts dents sv st' :
  0 <= edges <= 100000 -> 1 <= instances_of sv <= 5000 ->
  validate_edges seen (edges, counts, dents) sv = Ok st' <->
  NoDup (deps_of sv) /\ (forall d, d ∈ deps_of sv -> d ∈ seen /\ d <> SystemService.Name sv) /\
  edges + Z.of_nat (length (deps_of sv)) * instances_of sv <= 100000 /\
  st' = (edges + Z.of_nat (length (deps_of sv)) * instances_of sv,
         <[SystemService.Name sv := Z.of_nat (length (deps_of sv))]> counts,
         fold_left (append_dependent (SystemService.Name sv)) (deps_of sv) dents).
Proof.
  intros He Hi. unfold validate_edges. fold (deps_of sv) (instances_of sv).
  pose proof (validate_dependencies_iff (SystemService.Name sv) seen ∅ (deps_of sv)) as Hdeps.
  set (n := Z.of_nat (length (deps_of sv))) in *. assert (0 <= n) by lia.
  assert (sub64 maxCompiledSystemEdges edges = 100000 - edges) as ->.
  { unfold sub64, maxCompiledSystemEdges. apply i64_id. unfold int_range, min_int, max_int. lia. }
  assert (div64 (100000 - edges) (instances_of sv) = (100000 - edges) / instances_of sv) as ->.
  { unfold div64. rewrite Z.quot_div_nonneg by lia. apply i64_id.
    unfold int_range, min_int, max_int. split.
    - transitivity 0; [lia|apply Z.div_pos; lia].
    - apply Z.div_le_upper_bound; [lia|]. nia. }
  assert (n <= (100000 - edges) / instances_of sv <-> edges + n * instances_of sv <= 100000) as Hn.
  { split; intros Hle.
    - pose proof (Z.mul_div_le (100000 - edges) (instances_of sv) ltac:(lia)). nia.
    - apply Z.div_le_lower_bound; lia. }
  assert (edges + n * instances_of sv <= 100000 ->
    add64 edges (mul64 n (instances_of sv)) = edges + n * instances_of sv) as Hadd.
  { intros. unfold add64, mul64. rewrite (i64_id (n * _)), i64_id; [done|..]; unfold int_range, min_int, max_int; nia. }
  destruct (fold_result (validate_dependency _ seen) ∅ (deps_of sv)) as [acc|e]; simpl in Hdeps.
  - destruct (proj1 Hdeps eq_refl) as [Hnd Hall]. simpl.
    destruct (_ <? n) eqn:E; simpl; bool_inv.
    + split; [done|]. intros (_ & _ & Hle & _). apply Hn in Hle. lia.
    + apply Hn in E. rewrite Hadd by done. split.
      * intros Heq. injection Heq as <-. split_and!; try done. intros d Hd. by destruct (Hall d Hd) as (? & ? & _).
      * by intros (_ & _ & _ & ->).
  - simpl. split; [done|]. intros (Hnd & Hall & _). enough (false = true) by done. apply Hdeps.
    split; [done|]. intros d Hd. destruct (Hall d Hd). set_solver.
Qed.

Lemma append_dependents_lookup name deps dents n :
  NoDup deps ->
  default [] (fold_left (append_dependent name) deps dents !! n) =
  default [] (dents !! n) ++ (if decide (n ∈ deps) then [name] else []).
Proof.
  intros Hnd. revert dents. induction Hnd as [|d deps Hd Hnd IH]; intros dents.
  - simpl. by rewrite app_nil_r.
  - cbn [fold_left]. rewrite IH. unfold append_dependent.
    destruct (decide (d = n)) as [->|Hne].
    + rewrite lookup_insert_eq. rewrite (decide_False (P := n ∈ deps)) by done.
      rewrite decide_True by (by left). simpl. by rewrite app_nil_r.
    + rewrite lookup_insert_ne by done. f_equal.
      destruct (decide (n ∈ deps)); [rewrite decide_True by (by right)|rewrite decide_False by set_solver]; done.
Qed.

Definition deps_by_name (l : list SystemService) (d : string) : list string :=
  match List.find (fun sv => SystemService.Name sv == d) l with Some sv => deps_of sv | None => [] end.

Lemma deps_by_name_eq l sv :
  NoDup (SystemService.Name <$> l) -> sv ∈ l -> deps_by_name l (SystemService.Name sv) = deps_of sv.
Proof.
  unfold deps_by_name. induction l as [|x l IH]; intros Hnd Hin; [by apply elem_of_nil in Hin|].
  rewrite fmap_cons in Hnd. apply NoDup_cons in Hnd as [Hx Hnd]. simpl.
  apply elem_of_cons in Hin as [->|Hin]; [by rewrite bool_decide_true|].
  rewrite bool_decide_false; [by apply IH|]. intros E. apply Hx. rewrite E. by apply list_elem_of_fmap_2.
Qed.

(** What the tables hold after the second loop. *)
Definition tables_inv (done : list SystemService) (st : Z * gmap string Z * gmap string (list string)) : Prop :=
  let '(edges, counts, dents) := st in
  edges = total_edges done /\ 0 <= edges <= 100000 /\
  (forall sv, sv ∈ done -> NoDup (deps_of sv)) /\
  (forall n, counts !! n = if decide (n ∈ SystemService.Name <$> done)
     then Some (Z.of_nat (length (deps_by_name done n))) else None) /\
  (forall n d, d ∈ default [] (dents !! n) <-> exists sv, sv ∈ done /\ SystemService.Name sv = d /\ n ∈ deps_of sv) /\
  (forall n, NoDup (default [] (dents !! n))).

Lemma deps_by_name_snoc done sv n :
  SystemService.Name sv ∉ SystemService.Name <$> done ->
  deps_by_name (done ++ [sv]) n =
  if decide (n = SystemService.Name sv) then deps_of sv else deps_by_name done n.
Proof.
  intros Hn. unfold deps_by_name. induction done as [|x done IH]; simpl.
  - destruct (decide (n = SystemService.Name sv)) as [->|Hne]; [by rewrite bool_decide_true|].
    by rewrite bool_decide_false.
  - rewrite fmap_cons, not_elem_of_cons in Hn. destruct Hn as [Hx Hn].
    destruct (decide (SystemService.Name x = n)) as [<-|Hxn].
    + rewrite bool_decide_true by done. by rewrite decide_False by congruence.
    + rewrite bool_decide_false by done. by apply IH.
Qed.

Lemma tables_inv_step seen done st sv st' :
  SystemService.Name sv ∉ SystemService.Name <$> done -> 1 <= instances_of sv <= 5000 ->
  tables_inv done st -> validate_edges seen st sv = Ok st' -> tables_inv (done ++ [sv]) st'.
Proof.
  intros Hn Hi HI Hs. destruct st as [[edges counts] dents].
  destruct HI as (-> & He & Hnd & Hc & Hd & Hdn).
  apply validate_edges_iff in Hs as (Hdeps & Hall & Hle & ->); [|done..].
  split_and!.
  - unfold total_edges. rewrite sum_by_app. simpl. lia.
  - nia.
  - lia.
  - intros sv'. rewrite elem_of_app, list_elem_of_singleton. intros [?| ->]; auto.
  - intros n. rewrite deps_by_name_snoc by done. rewrite fmap_app. simpl.
    destruct (decide (n = SystemService.Name sv)) as [->|Hne].
    + rewrite lookup_insert_eq, decide_True; [done|]. set_solver.
    + rewrite lookup_insert_ne by done. rewrite Hc.
      destruct (decide (n ∈ SystemService.Name <$> done)).
      * by rewrite decide_True by set_solver.
      * by rewrite decide_False by set_solver.
  - intros n d. rewrite append_dependents_lookup by done. rewrite elem_of_app, Hd. split.
    + intros [(x & ? & ? & ?)|Hin]; [exists x; set_solver|].
      destruct (decide (n ∈ deps_of sv)); [|by apply elem_of_nil in Hin].
      apply list_elem_of_singleton in Hin as ->. exists sv. set_solver.
    + intros (x & Hx & <- & Hnx). apply elem_of_app in Hx as [Hx|Hx]; [left; eauto|].
      apply list_elem_of_singleton in Hx as ->. right. rewrite decide_True by done. by left.
  - intros n. rewrite append_dependents_lookup by done. apply NoDup_app. split_and!; [done| |].
    + intros x Hx Hin. destruct (decide (n ∈ deps_of sv)); [|by apply elem_of_nil in Hin].
      apply list_elem_of_singleton in Hin as ->. apply Hd in Hx as (y & Hy & E & _).
      apply Hn. rewrite <- E. by apply list_elem_of_fmap_2.
    + destruct (decide _); [apply NoDup_singleton|constructor].
Qed.

Lemma validate_edges_fold seen l st :
  NoDup (SystemService.Name <$> l) -> (forall sv, sv ∈ l -> 1 <= instances_of sv <= 5000) ->
  fold_result (validate_edges seen) (0, ∅, ∅) l = Ok st ->
  tables_inv l st /\
  (forall sv, sv ∈ l -> NoDup (deps_of sv) /\ forall d, d ∈ deps_of sv -> d ∈ seen /\ d <> SystemService.Name sv).
Proof.
  intros Hnd Hi Hf.
  pose (I := fun (done : list SystemService) st => forall rest, l = done ++ rest -> tables_inv done st /\
    forall sv, sv ∈ done -> NoDup (deps_of sv) /\ forall d, d ∈ deps_of sv -> d ∈ seen /\ d <> SystemService.Name sv).
  enough (forall done x, (exists rest, l = done ++ x :: rest) ->
    (SystemService.Name x ∉ SystemService.Name <$> done) /\ 1 <= instances_of x <= 5000) as Hx.
  2:{ intros done x [rest ->]. rewrite fmap_app, fmap_cons in Hnd. apply NoDup_app in Hnd as (_ & Hnd & _).
      split; [|apply Hi; set_solver]. intros Hin. eapply Hnd; [exact Hin|]. by left. }
  enough (forall done rest st, l = done ++ rest -> tables_inv done st ->
    (forall sv, sv ∈ done -> NoDup (deps_of sv) /\ forall d, d ∈ deps_of sv -> d ∈ seen /\ d <> SystemService.Name sv) ->
    forall st', fold_result (validate_edges seen) st rest = Ok st' -> tables_inv l st' /\
    forall sv, sv ∈ l -> NoDup (deps_of sv) /\ forall d, d ∈ deps_of sv -> d ∈ seen /\ d <> SystemService.Name sv) as Hgen.
  { eapply (Hgen [] l (0, ∅, ∅) eq_refl); [|by intros sv Hsv%elem_of_nil|exact Hf].
    split_and!; try done; try lia.
    - by intros sv Hsv%elem_of_nil.
    - intros n d. rewrite lookup_empty. simpl. rewrite elem_of_nil. split; [done|].
      by intros (x & Hin%elem_of_nil & _).
    - intros n. rewrite lookup_empty. constructor. }
  clear Hf I. intros done rest. revert done. induction rest as [|x rest IH]; intros done s0 El HI Hall s' Hf.
  - rewrite app_nil_r in El. subst done. injection Hf as <-. by split.
  - cbn [fold_result] in Hf. apply result_bind_ok in Hf as (s1 & Hs & Hf).
    destruct (Hx done x (ex_intro _ rest El)) as [Hfresh Hinst].
    eapply (IH (done ++ [x])); [by rewrite <- app_assoc|by eapply tables_inv_step| |exact Hf].
    intros sv. rewrite elem_of_app, list_elem_of_singleton. intros [?| ->]; [auto|].
    destruct s0 as [[edges counts] dents]. destruct HI as (-> & He & _).
    by apply validate_edges_iff in Hs as (? & ? & _).
Qed.

Lemma total_edges_nonneg l : (forall sv, sv ∈ l -> 1 <= instances_of sv) -> 0 <= total_edges l.
Proof. intros Hi. apply sum_by_nonneg. intros sv Hsv. pose proof (Hi sv Hsv). nia. Qed.

Lemma validate_edges_complete seen l edges counts dents :
  (forall sv, sv ∈ l -> 1 <= instances_of sv <= 5000) ->
  (forall sv, sv ∈ l -> NoDup (deps_of sv) /\ forall d, d ∈ deps_of sv -> d ∈ seen /\ d <> SystemService.Name sv) ->
  0 <= edges -> edges + total_edges l <= 100000 ->
  exists st, fold_result (validate_edges seen) (edges, counts, dents) l = Ok st.
Proof.
  revert edges counts dents. induction l as [|x l IH]; intros edges counts dents Hi Hall He Ht; [by eexists|].
  cbn [fold_result]. change (total_edges (x :: l))
    with (Z.of_nat (length (deps_of x)) * instances_of x + total_edges l) in Ht.
  assert (0 <= total_edges l) by (apply total_edges_nonneg; intros; apply Hi; by right).
  pose proof (Hi x ltac:(by left)). destruct (Hall x ltac:(by left)) as [Hnd Hd].
  assert (0 <= Z.of_nat (length (deps_of x)) * instances_of x) by nia.
  rewrite (proj2 (validate_edges_iff seen edges counts dents x _ ltac:(lia) ltac:(lia)))
    by (split_and!; [done..|lia|reflexivity]).
  cbn [mbind result_bind]. apply IH; [intros; apply Hi; by right|intros; apply Hall; by right|nia|lia].
Qed.

(** ** The dependency graph *)
Lemma existsb_nonzero (counts : gmap string Z) :
  existsb (fun kv => kv.2 != 0) (map_to_list counts) = false <-> forall n z, counts !! n = Some z -> z = 0.
Proof.
  split.
  - intros Hf n z Hn. apply elem_of_map_to_list in Hn. destruct (decide (z = 0)) as [|Hz]; [done|].
    enough (existsb (fun kv => kv.2 != 0) (map_to_list counts) = true) by congruence.
    apply existsb_exists. exists (n, z). split; [by apply list_elem_of_In|]. simpl. by rewrite bool_decide_false.
  - intros Hall. apply not_true_iff_false. rewrite existsb_exists. intros ([n z] & Hin & Hz). simpl in Hz.
    apply list_elem_of_In, elem_of_map_to_list in Hin. rewrite (Hall n z Hin) in Hz. done.
Qed.

Lemma tables_ok_of l st :
  services_ok l -> Forall (deps_ok (SystemService.Name <$> l)) l ->
  tables_inv l st -> tables_ok (SystemService.Name <$> l) (deps_by_name l) st.2.
Proof.
  destruct st as [[edges counts] dents]. intros Hok Hdeps (_ & _ & _ & _ & Hd & Hdn).
  rewrite Forall_forall in Hdeps.
  assert (forall d, d ∈ SystemService.Name <$> l -> exists sv, sv ∈ l /\ d = SystemService.Name sv /\
    deps_by_name l d = deps_of sv) as Hname.
  { intros d Hin. apply list_elem_of_fmap in Hin as (sv & -> & Hin). exists sv. split_and!; [done..|].
    apply deps_by_name_eq; [by apply Hok|done]. }
  split; simpl.
  - apply Hok.
  - rewrite length_fmap. pose proof (ss_total _ Hok) as Ht. pose proof (ss_services _ Hok) as Hs.
    assert (Z.of_nat (length l) <= total_instances l); [|unfold max_int; lia].
    clear -Hs. induction Hs as [|sv l Hsv Hs IH]; [done|].
    change (total_instances (sv :: l)) with (instances_of sv + total_instances l).
    pose proof (so_instances _ Hsv). cbn [length]. lia.
  - intros d Hin. destruct (Hname d Hin) as (sv & Hsv & -> & ->). by apply (Hdeps sv Hsv).
  - intros d x Hin Hx. destruct (Hname d Hin) as (sv & Hsv & -> & E). rewrite E in Hx. by apply (Hdeps sv Hsv).
  - intros n d. rewrite Hd. split.
    + intros (sv & Hsv & <- & Hn). split; [by apply list_elem_of_fmap_2|]. by rewrite (deps_by_name_eq l sv (ss_names l Hok) Hsv).
    + intros [Hin Hn]. destruct (Hname d Hin) as (sv & Hsv & -> & E). rewrite E in Hn. by exists sv.
  - done.
Qed.

Lemma kahn_inv_start l st :
  services_ok l -> Forall (deps_ok (SystemService.Name <$> l)) l -> tables_inv l st ->
  kahn_inv (SystemService.Name <$> l) (deps_by_name l) [] st.1.2 (initially_ready st.1.2 l).
Proof.
  destruct st as [[edges counts] dents]. intros Hok Hdeps (_ & _ & _ & Hc & _ & _). simpl.
  set (names := SystemService.Name <$> l) in *.
  assert (forall d, missing (deps_by_name l) [] d = length (deps_by_name l d)) as Hm.
  { intros d. unfold missing. induction (deps_by_name l d) as [|x l' IH]; [done|].
    cbn [List.filter]. rewrite bool_decide_false by set_solver. simpl in *. by f_equal. }
  assert (forall d, d ∈ names -> counts !! d = Some (Z.of_nat (missing (deps_by_name l) [] d))) as Hcounts.
  { intros d Hd. by rewrite Hc, decide_True, Hm. }
  assert (forall d, d ∈ initially_ready counts l <-> d ∈ names /\ missing (deps_by_name l) [] d = 0%nat) as Hready.
  { intros d. unfold initially_ready. rewrite list_elem_of_In, <- in_rev, filter_In, <- list_elem_of_In.
    fold names. split; intros [Hd E]; (split; [done|]).
    - rewrite Hcounts in E by done. simpl in E. bool_inv. lia.
    - rewrite Hcounts, E by done. done. }
  split; simpl.
  - unfold initially_ready. rewrite NoDup_ListNoDup. apply List.NoDup_rev. apply List.NoDup_filter, NoDup_ListNoDup, Hok.
  - intros x Hx. by apply Hready in Hx as [? _].
  - done.
  - intros d Hd. by rewrite Hc, decide_False.
  - intros d Hd. rewrite Hready. naive_solver.
  - by intros [|? ?] d P2.
Qed.

Lemma acyclic_ranked l :
  NoDup (SystemService.Name <$> l) ->
  acyclic l <-> exists rank, ranked (SystemService.Name <$> l) (deps_by_name l) rank.
Proof.
  intros Hnd. unfold acyclic, ranked. split; intros [rank Hr]; exists rank.
  - intros d x Hd Hx. apply list_elem_of_fmap in Hd as (sv & -> & Hsv).
    rewrite deps_by_name_eq in Hx by done. eauto.
  - intros sv d Hsv Hd. apply Hr; [by apply list_elem_of_fmap_2|]. by rewrite deps_by_name_eq.
Qed.

Lemma validate_dag_iff s st :
  services_ok (services_of s) -> Forall (deps_ok (SystemService.Name <$> services_of s)) (services_of s) ->
  tables_inv (services_of s) st ->
  validate_dag s st.1.2 st.2 = Ok tt <-> acyclic (services_of s).
Proof.
  intros Hok Hdeps HI. set (l := services_of s) in *.
  pose proof (tables_ok_of _ _ Hok Hdeps HI) as Htbl.
  pose proof (kahn_inv_start _ _ Hok Hdeps HI) as Hstart.
  destruct (kahn_spec _ _ _ Htbl (length l) [] _ _ Hstart) as (P & counts & Hk & HP).
  { rewrite length_fmap. simpl. lia. }
  unfold validate_dag. fold l. rewrite Hk. rewrite reject_if_ok, existsb_nonzero, acyclic_ranked by apply Hok.
  rewrite <- (kahn_zero_iff _ _ _ Htbl _ _ HP). split.
  - intros Hz d Hd. pose proof (inv_counts _ _ _ _ _ HP d Hd) as Hc. rewrite Hc. by rewrite (Hz _ _ Hc).
  - intros Hz n z Hn. destruct (decide (n ∈ SystemService.Name <$> l)) as [Hin|Hin].
    + rewrite Hz in Hn by done. by injection Hn.
    + rewrite (inv_dom _ _ _ _ _ HP) in Hn by done. done.
Qed.

(** ** Capacity *)
Lemma runtimes_bound l : 0 <= runtimes l <= 2.
Proof. unfold runtimes. do 2 destruct (needs_isolation _ _); lia. Qed.

Lemma validate_capacity_iff s :
  validate_header s = Ok tt -> 0 <= total_instances (services_of s) <= 5000 ->
  validate_capacity s (guest_memory (services_of s)) (total_instances (services_of s)) = Ok tt <-> capacity_ok s.
Proof.
  intros Hh Ht. destruct (header_host s Hh) as (Hc & Hm & Hr & _).
  pose proof (runtimes_bound (services_of s)) as Hrt.
  unfold validate_capacity. fold (runtimes (services_of s)).
  set (c := HostConstraint.Count (host_of s)) in *. set (m := HostConstraint.MemoryMiB (host_of s)) in *.
  set (r := HostConstraint.SystemReserve (host_of s)) in *. set (rt := runtimes (services_of s)) in *.
  set (t := total_instances (services_of s)) in *. set (g := guest_memory (services_of s)) in *.
  unfold maxCompiledSystemNodes.
  assert (Hdiv : c <= 10000 -> div64 max_int c = max_int / c).
  { intros. unfold div64. rewrite Z.quot_div_nonneg by (unfold max_int; lia). apply i64_id.
    unfold int_range, min_int, max_int. split; [transitivity 0; [lia|apply Z.div_pos; lia]|].
    apply Z.div_le_upper_bound; lia. }
  assert (Hle : m <= max_int / c <-> c * m <= max_int).
  { split; [|intros; apply Z.div_le_lower_bound; lia]. intros. pose proof (Z.mul_div_le max_int c ltac:(lia)). nia. }
  assert (Hnodes : c <= 10000 -> add64 (add64 1 (mul64 c (add64 1 rt))) (mul64 2 t) = 1 + c * (1 + rt) + 2 * t).
  { intros. unfold add64, mul64. rewrite (i64_id (1 + rt)) by (unfold int_range, min_int, max_int; lia).
    assert (0 <= c * (1 + rt) <= 30000) by nia.
    rewrite (i64_id (c * (1 + rt))), (i64_id (2 * t)), (i64_id (1 + _)) by (unfold int_range, min_int, max_int; lia).
    apply i64_id. unfold int_range, min_int, max_int. lia. }
  assert (Havail : c * m <= max_int -> mul64 c (sub64 m r) = c * (m - r)).
  { intros. unfold mul64, sub64. rewrite (i64_id (m - r)) by (unfold int_range, min_int, max_int in *; nia).
    apply i64_id. unfold int_range, min_int, max_int in *. nia. }
  split.
  - intros Hv. ok_inv. bool_inv. rewrite Hdiv, Hnodes in * by lia.
    assert (c * m <= max_int) by (apply Hle; lia). rewrite Havail in * by done. by split.
  - intros [H1 H2 H3 H4]. fold c m r rt t g in H1, H2, H3, H4.
    rewrite Hdiv, Hnodes, Havail by done. assert (m <= max_int / c) by (by apply Hle).
    repeat match goal with |- context [reject_if ?b ?e] =>
      rewrite (proj2 (reject_if_ok b e)) by (rewrite ?orb_false_iff; lia) end.
    done.
Qed.

(** ** The refinement *)
Lemma instances_bound l sv :
  services_ok l -> sv ∈ l -> 1 <= instances_of sv <= 5000.
Proof.
  intros Hok Hin. pose proof (ss_services _ Hok) as Hs. pose proof (ss_total _ Hok) as Ht.
  assert (forall x, x ∈ l -> 1 <= instances_of x) as Hpos.
  { intros x Hx. rewrite Forall_forall in Hs. apply (so_instances _ (Hs x Hx)). }
  split; [by apply Hpos|]. apply list_elem_of_split in Hin as (l1 & l2 & ->).
  unfold total_instances in Ht. rewrite sum_by_app in Ht. simpl in Ht.
  assert (0 <= sum_by instances_of l1) by (apply sum_by_nonneg; intros x Hx; pose proof (Hpos x ltac:(set_solver)); lia).
  assert (0 <= sum_by instances_of l2) by (apply sum_by_nonneg; intros x Hx; pose proof (Hpos x ltac:(set_solver)); lia).
  lia.
Qed.

Lemma admitted_iff s : System_Validate s = Ok tt <-> admissible s.
Proof.
  unfold System_Validate. split.
  - intros Hv. apply result_bind_ok in Hv as ([] & Hh & Hv).
    apply result_bind_ok in Hv as ([[seen guest] total] & Hs & Hv).
    apply validate_services_sound in Hs as (Hok & Hseen & -> & -> & Hg & Ht).
    apply result_bind_ok in Hv as (st & Hf & Hv).
    apply validate_edges_fold in Hf as [HI Hall]; [|apply Hok|by intros sv; apply instances_bound].
    assert (edges_ok (services_of s)) as He.
    { destruct st as [[edges counts] dents]. destruct HI as (E & He & _). split; [|lia].
      apply Forall_forall. intros sv Hsv. destruct (Hall sv Hsv) as [Hnd Hd]. split; [done| |].
      - intros d Hin. by apply Hseen, Hd.
      - intros Hin. by destruct (Hd _ Hin). }
    destruct st as [[edges counts] dents]. apply result_bind_ok in Hv as ([] & Hdag & Hv).
    apply (validate_dag_iff s (edges, counts, dents)) in Hdag; [|done|apply He|done].
    apply validate_capacity_iff in Hv; [|done|pose proof (ss_total _ Hok); lia]. by split.
  - intros [Hh Hok [Hdeps Hedges] Hac Hcap]. rewrite Hh. cbn [mbind result_bind].
    assert (0 <= total_instances (services_of s)) as Ht.
    { apply sum_by_nonneg. intros x Hx. pose proof (instances_bound _ _ Hok Hx). lia. }
    destruct (validate_services_complete (services_of s) ∅ 0 0) as (seen & -> & Hseen);
      try lia; try apply Hok; try (intros n Hn; set_solver).
    rewrite !Z.add_0_l. cbn [mbind result_bind].
    rewrite Forall_forall in Hdeps.
    assert (forall sv, sv ∈ services_of s -> NoDup (deps_of sv) /\
      forall d, d ∈ deps_of sv -> d ∈ seen /\ d <> SystemService.Name sv) as Hall.
    { intros sv Hsv. destruct (Hdeps sv Hsv) as [H1 H2 H3]. split; [done|]. intros d Hd.
      split; [|by intros ->]. apply Hseen. right. by apply H2. }
    destruct (validate_edges_complete seen (services_of s) 0 ∅ ∅) as [st Hf];
      [by intros sv; apply instances_bound|done|lia|lia|].
    rewrite Hf. destruct (validate_edges_fold seen _ _ (ss_names _ Hok) ltac:(by intros sv; apply instances_bound) Hf) as [HI _].
    destruct st as [[edges counts] dents]. cbn [mbind result_bind].
    assert (validate_dag s counts dents = Ok tt) as ->.
    { apply (validate_dag_iff s (edges, counts, dents)); [done|by apply Forall_forall|done|done]. }
    cbn [mbind result_bind]. apply validate_capacity_iff; [done|pose proof (ss_total _ Hok); lia|done].
Qed.

End Spec.
