(* ===== verification/Compilation.v ===== *)
(** * What CompileSystem produces

    The ids of the compiled nodes are distinct, because the id of a node
    determines what the node stands for; every dependency and placement names a
    node; and the capacity is accounted for without overflow. *)

From S2P Require Import Prelude Effects GoStrings Documents SandboxSpec Systems Topology Admission.

(** ** Numbers contain no dash *)
Lemma pretty_N_go_digits n s :
  contains_byte s "-" = false -> contains_byte (pretty_N_go n s) "-" = false.
Proof.
  revert s. induction (N.lt_wf_0 n) as [n _ IH]; intros s Hs.
  destruct (decide (n = 0)%N) as [->|]; [by rewrite pretty_N_go_0|].
  rewrite pretty_N_go_step by lia. apply IH; [apply N.div_lt; lia|].
  simpl. rewrite Hs, orb_false_r. unfold pretty_N_char. by repeat case_match.
Qed.

Lemma Itoa_no_dash n : 0 <= n -> contains_byte (Itoa n) "-" = false.
Proof.
  intros Hn. unfold Itoa, pretty, pretty_Z. destruct n as [|p|p]; [done| |lia].
  unfold pretty, pretty_positive, pretty, pretty_N. case_decide; [done|]. by apply pretty_N_go_digits.
Qed.

Lemma instance_suffix_inj n i m j :
  0 <= i -> 0 <= j -> instance_suffix n i = instance_suffix m j -> n = m /\ i = j.
Proof.
  intros Hi Hj E. unfold instance_suffix in E. apply (f_equal (fun s => Split s "-")) in E.
  change ("-" +:+ ?x) with (String "-" x) in E. rewrite !Split_app in E.
  rewrite !(Split_word (Itoa _)) in E by by apply Itoa_no_dash.
  apply app_inj_tail in E as [E E']. apply Itoa_inj in E'. split; [|done].
  by rewrite <- (Join_Split n "-"), <- (Join_Split m "-"), E.
Qed.

(** ** What a node stands for *)
Inductive node_key : Type :=
  | KeyM1 | KeyHost (i : Z) | KeyFirecracker (i : Z) | KeyProcess (i : Z)
  | KeyWorkload (process : bool) (name : string) (i : Z) | KeyService (name : string) (i : Z).

Definition key_id (k : node_key) : string :=
  match k with
  | KeyM1 => "m1/system"
  | KeyHost i => host_id i
  | KeyFirecracker i => firecracker_id i
  | KeyProcess i => process_id i
  | KeyWorkload process name i => (if process then "process/" else "microvm/") +:+ instance_suffix name i
  | KeyService name i => service_id name i
  end.

Definition key_ok (k : node_key) : Prop :=
  match k with
  | KeyM1 => True
  | KeyHost i | KeyFirecracker i | KeyProcess i | KeyWorkload _ _ i | KeyService _ i => 0 <= i
  end.

Lemma key_id_inj k k' : key_ok k -> key_ok k' -> key_id k = key_id k' -> k = k'.
Proof.
  destruct k as [|i|i|i|[] n i|n i], k' as [|j|j|j|[] m j|m j]; simpl; intros Hk Hk' E; try done; try discriminate E.
  1-3: unfold host_id, firecracker_id, process_id in E; apply append_inj_l, Itoa_inj in E; by subst.
  all: try unfold service_id in E.
  all: (apply (append_inj_l "process/") in E || apply (append_inj_l "microvm/") in E || apply (append_inj_l "service/") in E).
  all: by apply instance_suffix_inj in E as [-> ->].
Qed.

Section Compilation.
Context `{Unicode}.

Definition host_keys (s : System) (i : Z) : list node_key :=
  [KeyHost i] ++ (if needs_isolation "firecracker" (services_of s) then [KeyFirecracker i] else []) ++
  (if needs_isolation "process" (services_of s) then [KeyProcess i] else []).
Definition instance_keys (si : SystemService * Z) : list node_key :=
  [KeyWorkload (is_process si.1) (SystemService.Name si.1) si.2; KeyService (SystemService.Name si.1) si.2].

Definition compiled_keys (s : System) : list node_key :=
  KeyM1 :: (seqZ 1 (HostConstraint.Count (host_of s)) ≫= host_keys s) ++ (all_instances (services_of s) ≫= instance_keys).

Lemma concat_fmap_bind {A B} (f : A -> list B) l : concat (f <$> l) = l ≫= f.
Proof. induction l as [|x l IH]; [done|]. rewrite fmap_cons, bind_cons. cbn [concat]. by rewrite IH. Qed.

Lemma host_nodes_ids s i : GraphNode.ID <$> host_nodes s i = key_id <$> host_keys s i.
Proof. unfold host_nodes, host_keys. by destruct (needs_isolation "firecracker" _), (needs_isolation "process" _). Qed.

Lemma instance_nodes_ids hi si : GraphNode.ID <$> instance_nodes hi si.1 si.2 = key_id <$> instance_keys si.
Proof. done. Qed.

Lemma concat_ids {A} (f : A -> list GraphNode) (g : A -> list node_key) l :
  (forall x, GraphNode.ID <$> f x = key_id <$> g x) -> GraphNode.ID <$> concat (f <$> l) = key_id <$> (l ≫= g).
Proof. intros Hfg. induction l as [|x l IH]; [done|].
  rewrite fmap_cons, bind_cons. cbn [concat]. by rewrite !fmap_app, IH, Hfg. Qed.

(** The nodes of the fold: their ids do not depend on the host chosen. *)
Lemma compile_ids count l st :
  GraphNode.ID <$> cs_nodes (fold_left (compile_instance count) l st) =
  (GraphNode.ID <$> cs_nodes st) ++ (key_id <$> (l ≫= instance_keys)).
Proof.
  revert st. induction l as [|[sv i] l IH]; intros st; [by rewrite app_nil_r|].
  cbn [fold_left]. rewrite IH, bind_cons. cbn [compile_instance cs_nodes]. by rewrite !fmap_app, <- app_assoc.
Qed.

Lemma compile_nodes count l st n :
  0 < count <= max_int -> 1 <= cs_hostIndex st <= count ->
  n ∈ cs_nodes (fold_left (compile_instance count) l st) ->
  n ∈ cs_nodes st \/ exists hi sv i, 1 <= hi <= count /\ (sv, i) ∈ l /\ n ∈ instance_nodes hi sv i.
Proof.
  intros Hc. revert st. induction l as [|[sv i] l IH]; intros st Hst Hn; simpl in Hn; [by left|].
  apply IH in Hn as [Hn|(hi & sv' & i' & Hhi & Hl & Hn)].
  - cbn [cs_nodes] in Hn. apply elem_of_app in Hn as [Hn|Hn]; [by left|].
    right. exists (cs_hostIndex st), sv, i. split_and!; [lia..|left|done].
  - right. exists hi, sv', i'. split_and!; [lia..|by right|done].
  - simpl. unfold add64, rem64. pose proof (Z.rem_bound_pos (cs_hostIndex st) count ltac:(lia) ltac:(lia)).
    unfold max_int in Hc. rewrite i64_id by (unfold int_range, min_int, max_int; lia). lia.
Qed.

Lemma compile_memory count l st :
  0 <= cs_guestMemory st -> (forall si, si ∈ l -> 0 <= memory_of si.1) ->
  cs_guestMemory st + sum_by (fun si => memory_of si.1) l <= max_int ->
  cs_guestMemory (fold_left (compile_instance count) l st) =
  cs_guestMemory st + sum_by (fun si => memory_of si.1) l.
Proof.
  revert st. induction l as [|[sv i] l IH]; intros st H0 Hl Hmax; simpl in *; [lia|].
  pose proof (Hl (sv, i) ltac:(left)). simpl in *.
  assert (0 <= sum_by (fun si => memory_of si.1) l) by (apply sum_by_nonneg; intros; apply Hl; by right).
  assert (add64 (cs_guestMemory st) (memory_of sv) = cs_guestMemory st + memory_of sv) as E.
  { unfold add64. rewrite i64_id; [done|]. unfold int_range, min_int. lia. }
  rewrite IH; simpl; fold (memory_of sv); rewrite ?E; try lia. intros si Hsi. apply Hl. by right.
Qed.

(** ** The instances *)
Lemma all_instances_cons sv l :
  all_instances (sv :: l) = ((fun i => (sv, i)) <$> seqZ 1 (SystemService.Instances sv)) ++ all_instances l.
Proof. done. Qed.

Lemma elem_of_instances l sv i : (sv, i) ∈ all_instances l <-> sv ∈ l /\ 1 <= i <= instances_of sv.
Proof.
  induction l as [|sv' l IH]; [split; [by intros ?%elem_of_nil|by intros [?%elem_of_nil _]]|].
  rewrite all_instances_cons, elem_of_app, IH, elem_of_cons, list_elem_of_fmap. unfold instances_of. split.
  - intros [(j & [= -> ->] & Hj)|[? ?]]; [|naive_solver]. apply elem_of_seqZ in Hj. split; [by left|lia].
  - intros [[->|?] ?]; [|naive_solver]. left. exists i. split; [done|]. apply elem_of_seqZ. lia.
Qed.

Lemma sum_instances (f : SystemService -> Z) l :
  (forall sv, sv ∈ l -> 0 <= instances_of sv) ->
  sum_by (fun si => f si.1) (all_instances l) = sum_by (fun sv => instances_of sv * f sv) l.
Proof.
  induction l as [|sv l IH]; intros Hl; [done|]. rewrite all_instances_cons, sum_by_app, IH by (intros; apply Hl; by right).
  simpl. f_equal. pose proof (Hl sv ltac:(left)) as Hn. unfold instances_of in *.
  assert (forall m k, sum_by (fun si => f si.1) ((fun i => (sv, i)) <$> seqZ k (Z.of_nat m)) = Z.of_nat m * f sv) as Hs.
  { induction m as [|m IHm]; intros k; [done|]. rewrite seqZ_cons by lia. simpl fmap. cbn [sum_by fst].
    replace (Z.pred (Z.of_nat (S m))) with (Z.of_nat m) by lia. rewrite IHm. lia. }
  specialize (Hs (Z.to_nat (SystemService.Instances sv)) 1). by rewrite Z2Nat.id in Hs by lia.
Qed.

Lemma NoDup_instances l :
  NoDup (SystemService.Name <$> l) -> NoDup (all_instances l).
Proof.
  intros Hnd. induction l as [|sv l IH]; [constructor|]. rewrite fmap_cons, NoDup_cons in Hnd. destruct Hnd as [Hsv Hnd].
  rewrite all_instances_cons. apply NoDup_app. split_and!; [|intros [sv' i]|by apply IH].
  - apply NoDup_fmap_2; [by intros ? ? [=]|apply NoDup_seqZ].
  - intros (j & [= -> ->] & _)%list_elem_of_fmap [Hin _]%elem_of_instances. apply Hsv. by apply list_elem_of_fmap_2.
Qed.

(** ** The keys are distinct *)
Lemma name_unique l sv sv' :
  NoDup (SystemService.Name <$> l) -> sv ∈ l -> sv' ∈ l -> SystemService.Name sv = SystemService.Name sv' -> sv = sv'.
Proof.
  intros Hnd [i Hi]%list_elem_of_lookup [j Hj]%list_elem_of_lookup E.
  assert (i = j) as ->; [|congruence]. eapply NoDup_lookup; [exact Hnd| |]; rewrite list_lookup_fmap.
  - by rewrite Hi.
  - by rewrite Hj, E.
Qed.

Lemma NoDup_keys s : NoDup (SystemService.Name <$> services_of s) -> NoDup (compiled_keys s).
Proof.
  intros Hnd. unfold compiled_keys. apply NoDup_cons. split.
  { rewrite elem_of_app. intros [Hk|Hk]; apply list_elem_of_bind in Hk as (x & Hx & _).
    - unfold host_keys in Hx. destruct (needs_isolation _ _), (needs_isolation _ _); set_solver.
    - unfold instance_keys in Hx. set_solver. }
  apply NoDup_app. split_and!.
  - apply NoDup_bind; [| |apply NoDup_seqZ].
    + intros i j k _ _. unfold host_keys. destruct (needs_isolation _ _), (needs_isolation _ _); set_solver.
    + intros i _. unfold host_keys. destruct (needs_isolation _ _), (needs_isolation _ _); repeat constructor; set_solver.
  - intros k Hk Hk'. apply list_elem_of_bind in Hk as (i & Hi & _), Hk' as (si & Hsi & _).
    unfold host_keys, instance_keys in *. destruct (needs_isolation _ _), (needs_isolation _ _); set_solver.
  - apply NoDup_bind; [| |by apply NoDup_instances].
    + intros [sv i] [sv' j] k H1%elem_of_instances H2%elem_of_instances. unfold instance_keys. simpl.
      intros Hk Hk'. assert (SystemService.Name sv = SystemService.Name sv' /\ i = j) as [E ->] by set_solver.
      f_equal. by eapply name_unique; [exact Hnd|apply H1|apply H2|].
    + intros [sv i] _. unfold instance_keys. repeat constructor; set_solver.
Qed.

(** ** The graph *)
Definition node_ids (g : ExecutionGraph) : list string := GraphNode.ID <$> ExecutionGraph.Nodes g.

Record graph_ok (s : System) (g : ExecutionGraph) : Prop := {
  go_ids : NoDup (node_ids g);
  go_closed n d : n ∈ ExecutionGraph.Nodes g -> d ∈ GraphNode.DependsOn n -> d ∈ node_ids g;
  go_placed n : n ∈ ExecutionGraph.Nodes g -> GraphNode.Placement n = EmptyString \/ GraphNode.Placement n ∈ node_ids g;
  go_sorted : Sorted node_le (ExecutionGraph.Nodes g);
  go_size : Z.of_nat (length (ExecutionGraph.Nodes g)) <= 10000;
  go_guest : Capacity.GuestMemoryMiB (ExecutionGraph.Capacity_ g) = guest_memory (services_of s);
  go_unallocated :
    Capacity.HostMemoryMiB (ExecutionGraph.Capacity_ g) =
      Capacity.SystemReserveMiB (ExecutionGraph.Capacity_ g) + Capacity.GuestMemoryMiB (ExecutionGraph.Capacity_ g) +
      Capacity.UnallocatedMemory (ExecutionGraph.Capacity_ g) /\
    0 <= Capacity.UnallocatedMemory (ExecutionGraph.Capacity_ g)
}.

(** The final state of the fold. *)
Definition compiled (s : System) : compile_state :=
  let count := HostConstraint.Count (host_of s) in
  fold_left (compile_instance count) (all_instances (services_of s))
    (CompileState (GraphNode.mk "m1/system" "m1.namespace" [] EmptyString no_resources {["prefix" := prefix_of s]} ::
                   concat (host_nodes s <$> seqZ 1 count)) (concat (host_invariants s <$> seqZ 1 count)) 0 1).

Lemma compiled_ids s : GraphNode.ID <$> cs_nodes (compiled s) = key_id <$> compiled_keys s.
Proof.
  unfold compiled. rewrite compile_ids. unfold compiled_keys. cbn [cs_nodes]. rewrite !fmap_cons, fmap_app.
  by rewrite (concat_ids _ _ _ (host_nodes_ids s)).
Qed.

Lemma key_ok_compiled s k : k ∈ compiled_keys s -> key_ok k.
Proof.
  unfold compiled_keys. rewrite elem_of_cons, elem_of_app. intros [->|[Hk|Hk]]; [done|..];
    apply list_elem_of_bind in Hk as (x & Hx & Hin).
  - apply elem_of_seqZ in Hin. assert (0 <= x) by lia. unfold host_keys in Hx.
    destruct (needs_isolation _ _), (needs_isolation _ _); set_solver.
  - destruct x as [sv i]. apply elem_of_instances in Hin as [_ Hi]. assert (0 <= i) by lia. unfold instance_keys in Hx. set_solver.
Qed.

Lemma NoDup_map_inj {A B} (P : A -> Prop) (f : A -> B) l :
  (forall x y, P x -> P y -> f x = f y -> x = y) -> (forall x, x ∈ l -> P x) -> NoDup l -> NoDup (f <$> l).
Proof.
  intros Hf HP Hnd. induction Hnd as [|x l Hx Hnd IH]; [constructor|]. rewrite fmap_cons. constructor.
  - intros (y & E & Hy)%list_elem_of_fmap. apply Hf in E as ->; [done|apply HP..]; [by left|by right].
  - apply IH. intros y Hy. apply HP. by right.
Qed.

Lemma compiled_NoDup s :
  NoDup (SystemService.Name <$> services_of s) -> NoDup (GraphNode.ID <$> cs_nodes (compiled s)).
Proof.
  intros Hnd. rewrite compiled_ids. apply (NoDup_map_inj key_ok); [apply key_id_inj|apply key_ok_compiled|by apply NoDup_keys].
Qed.

(** Which keys there are. *)
Lemma host_key_in s i : 1 <= i <= HostConstraint.Count (host_of s) -> KeyHost i ∈ compiled_keys s.
Proof.
  intros Hi. unfold compiled_keys. right. apply elem_of_app. left. apply list_elem_of_bind. exists i.
  split; [unfold host_keys; set_solver|apply elem_of_seqZ; lia].
Qed.

Lemma runtime_key_in s sv i :
  sv ∈ services_of s -> SystemService.Isolation sv = "firecracker" \/ SystemService.Isolation sv = "process" ->
  1 <= i <= HostConstraint.Count (host_of s) ->
  (if is_process sv then KeyProcess i else KeyFirecracker i) ∈ compiled_keys s.
Proof.
  intros Hsv Hiso Hi. unfold compiled_keys. right. apply elem_of_app. left. apply list_elem_of_bind. exists i.
  split; [|apply elem_of_seqZ; lia]. unfold host_keys, is_process.
  assert (needs_isolation (SystemService.Isolation sv) (services_of s) = true) as Hn.
  { unfold needs_isolation. apply existsb_exists. exists sv. rewrite <- list_elem_of_In. split; [done|].
    by apply bool_decide_eq_true. }
  destruct Hiso as [E|E]; rewrite E in *; simpl; rewrite Hn; set_solver.
Qed.

Lemma instance_key_in s sv i k :
  sv ∈ services_of s -> 1 <= i <= instances_of sv -> k ∈ instance_keys (sv, i) -> k ∈ compiled_keys s.
Proof.
  intros Hsv Hi Hk. unfold compiled_keys. right. apply elem_of_app. right. apply list_elem_of_bind. exists (sv, i).
  split; [done|by apply elem_of_instances].
Qed.

Lemma key_id_in s k : k ∈ compiled_keys s -> key_id k ∈ GraphNode.ID <$> cs_nodes (compiled s).
Proof. intros Hk. rewrite compiled_ids. by apply list_elem_of_fmap_2. Qed.

Lemma admissible_count s : admissible s -> 0 < HostConstraint.Count (host_of s) <= max_int.
Proof.
  intros [Hh _ _ _ Hc]. apply header_host in Hh as (? & _). pose proof (co_count _ Hc). unfold max_int. lia.
Qed.

(** Where a compiled node comes from. *)
Lemma compiled_node s n :
  admissible s -> n ∈ cs_nodes (compiled s) ->
  GraphNode.DependsOn n = [] /\ GraphNode.Placement n = EmptyString \/
  (exists i, 1 <= i <= HostConstraint.Count (host_of s) /\
     GraphNode.DependsOn n = [host_id i] /\ GraphNode.Placement n = host_id i) \/
  exists hi sv i, 1 <= hi <= HostConstraint.Count (host_of s) /\ sv ∈ services_of s /\ 1 <= i <= instances_of sv /\
    n ∈ instance_nodes hi sv i.
Proof.
  intros Hadm Hn. pose proof (admissible_count s Hadm) as Hc.
  apply compile_nodes in Hn as [Hn|(hi & sv & i & Hhi & Hl & Hn)]; [| |done|simpl; lia].
  - cbn [cs_nodes] in Hn. apply elem_of_cons in Hn as [->|Hn]; [by left|].
    rewrite concat_fmap_bind in Hn. apply list_elem_of_bind in Hn as (i & Hi & Hin). apply elem_of_seqZ in Hin.
    unfold host_nodes in Hi. rewrite !elem_of_app in Hi. destruct Hi as [Hi|[Hi|Hi]].
    + apply list_elem_of_singleton in Hi as ->. by left.
    + destruct (needs_isolation _ _); [|by apply elem_of_nil in Hi]. apply list_elem_of_singleton in Hi as ->.
      right; left. exists i. split_and!; [lia..|done|done].
    + destruct (needs_isolation _ _); [|by apply elem_of_nil in Hi]. apply list_elem_of_singleton in Hi as ->.
      right; left. exists i. split_and!; [lia..|done|done].
  - apply elem_of_instances in Hl as [Hsv Hi]. right; right. by exists hi, sv, i.
Qed.

Lemma compiled_closed s n d :
  admissible s -> n ∈ cs_nodes (compiled s) -> d ∈ GraphNode.DependsOn n -> d ∈ GraphNode.ID <$> cs_nodes (compiled s).
Proof.
  intros Hadm Hn Hd.
  apply compiled_node in Hn as [[E _]|[(i & Hi & E & _)|(hi & sv & i & Hhi & Hsv & Hi & Hn)]]; [| | |done].
  - rewrite E in Hd. by apply elem_of_nil in Hd.
  - rewrite E in Hd. apply list_elem_of_singleton in Hd as ->. by apply (key_id_in s (KeyHost i)), host_key_in.
  - destruct (ad_services _ Hadm) as [Hnames Hok _ _]. rewrite Forall_forall in Hok.
    unfold instance_nodes in Hn. apply elem_of_cons in Hn as [->|Hn%list_elem_of_singleton].
    + cbn [GraphNode.DependsOn] in Hd. apply list_elem_of_singleton in Hd as ->.
      pose proof (runtime_key_in s sv hi Hsv (so_isolation _ (Hok _ Hsv)) Hhi) as Hk.
      destruct (is_process sv); by apply (key_id_in s) in Hk.
    + subst n. cbn [GraphNode.DependsOn] in Hd. rewrite elem_of_app, elem_of_cons, list_elem_of_singleton in Hd.
      destruct Hd as [[-> | ->]|Hd].
      * apply (key_id_in s (KeyWorkload (is_process sv) (SystemService.Name sv) i)).
        apply (instance_key_in s sv i); [done|done|left].
      * apply (key_id_in s KeyM1). left.
      * apply list_elem_of_fmap in Hd as (dep & -> & Hdep).
        pose proof (es_deps _ (ad_edges _ Hadm)) as Hdeps. rewrite Forall_forall in Hdeps.
        apply (do_declared _ _ (Hdeps _ Hsv)) in Hdep. apply list_elem_of_fmap in Hdep as (sv' & -> & Hsv').
        apply (key_id_in s (KeyService (SystemService.Name sv') 1)). apply (instance_key_in s sv' 1); [done| |right; left].
        pose proof (so_instances _ (Hok _ Hsv')). lia.
Qed.

Lemma compiled_placed s n :
  admissible s -> n ∈ cs_nodes (compiled s) ->
  GraphNode.Placement n = EmptyString \/ GraphNode.Placement n ∈ GraphNode.ID <$> cs_nodes (compiled s).
Proof.
  intros Hadm Hn.
  apply compiled_node in Hn as [[_ E]|[(i & Hi & _ & E)|(hi & sv & i & Hhi & Hsv & Hi & Hn)]]; [by left| | |done]; right.
  - rewrite E. by apply (key_id_in s (KeyHost i)), host_key_in.
  - unfold instance_nodes in Hn. apply elem_of_cons in Hn as [->|Hn%list_elem_of_singleton].
    + by apply (key_id_in s (KeyHost hi)), host_key_in.
    + subst n. apply (key_id_in s (KeyWorkload (is_process sv) (SystemService.Name sv) i)).
      apply (instance_key_in s sv i); [done|done|left].
Qed.

Lemma length_bind_const {A B} (f : A -> list B) n l :
  (forall x, length (f x) = n) -> length (l ≫= f) = (length l * n)%nat.
Proof. intros Hf. induction l as [|x l IH]; [done|]. rewrite bind_cons, length_app, IH, Hf. simpl. lia. Qed.

Lemma compiled_size s :
  admissible s -> Z.of_nat (length (cs_nodes (compiled s))) <= 10000.
Proof.
  intros Hadm. rewrite <- (length_fmap GraphNode.ID), compiled_ids, length_fmap. unfold compiled_keys. simpl.
  rewrite length_app, (length_bind_const _ 2 (all_instances _)) by done.
  rewrite (length_bind_const (host_keys s) (length (host_keys s 1))) by
    (intros x; unfold host_keys; by destruct (needs_isolation _ _), (needs_isolation _ _)).
  rewrite length_seqZ. pose proof (co_nodes _ (ad_capacity _ Hadm)) as Hn. pose proof (admissible_count s Hadm).
  assert (Z.of_nat (length (host_keys s 1)) = 1 + runtimes (services_of s)) as Hl.
  { unfold host_keys, runtimes. by destruct (needs_isolation "firecracker" _), (needs_isolation "process" _). }
  assert (Z.of_nat (length (all_instances (services_of s))) = total_instances (services_of s)) as Ht.
  { pose proof (sum_instances (fun _ => 1) (services_of s)) as Hs. unfold total_instances.
    assert (forall A (l : list A), sum_by (fun _ => 1) l = Z.of_nat (length l)) as Hone
      by (intros A l; induction l; simpl; lia).
    rewrite <- Hone, Hs.
    - apply sum_by_ext. intros sv _. lia.
    - intros sv Hsv. destruct (ad_services _ Hadm) as [_ Hok _ _]. rewrite Forall_forall in Hok.
      pose proof (so_instances _ (Hok _ Hsv)). lia. }
  nia.
Qed.

Lemma compiled_guest s : admissible s -> cs_guestMemory (compiled s) = guest_memory (services_of s).
Proof.
  intros Hadm. destruct (ad_services _ Hadm) as [_ Hok _ Hg]. rewrite Forall_forall in Hok.
  assert (forall sv, sv ∈ services_of s -> 0 <= instances_of sv) as Hi
    by (intros sv Hsv; pose proof (so_instances _ (Hok _ Hsv)); lia).
  unfold compiled. rewrite compile_memory; cbn [cs_guestMemory].
  - by rewrite Z.add_0_l, (sum_instances memory_of).
  - lia.
  - intros [sv i] [Hsv _]%elem_of_instances. pose proof (so_memory _ (Hok _ Hsv)). simpl. lia.
  - by rewrite Z.add_0_l, (sum_instances memory_of).
Qed.

#[export] Instance node_le_total : Total node_le.
Proof. intros a b. apply String.leb_total. Qed.

Lemma CompileSystem_graph_ok s g : CompileSystem s = Ok g -> graph_ok s g.
Proof.
  unfold CompileSystem. intros Hg. apply result_bind_ok in Hg as ([] & Hv & Hg). apply admitted_iff in Hv as Hadm.
  cbv zeta in Hg. fold (compiled s) in Hg. injection Hg as <-.
  pose proof (merge_sort_Permutation node_le (cs_nodes (compiled s))) as Hperm.
  assert (forall n, n ∈ merge_sort node_le (cs_nodes (compiled s)) <-> n ∈ cs_nodes (compiled s)) as Hin
    by (intros n; by rewrite Hperm).
  assert (forall i, i ∈ GraphNode.ID <$> merge_sort node_le (cs_nodes (compiled s)) <->
                    i ∈ GraphNode.ID <$> cs_nodes (compiled s)) as Hids by (intros i; by rewrite Hperm).
  split; unfold node_ids; simpl.
  - rewrite Hperm. apply compiled_NoDup, Hadm.
  - intros n d Hn Hd. apply Hids. apply Hin in Hn. by eapply compiled_closed.
  - intros n Hn. rewrite Hids. apply compiled_placed; [done|by apply Hin].
  - apply Sorted_merge_sort, _.
  - rewrite Hperm. by apply compiled_size.
  - by apply compiled_guest.
  - rewrite compiled_guest by done. destruct (ad_capacity _ Hadm) as [_ Hc Hm Hgc].
    destruct (header_host s (ad_header _ Hadm)) as (Hcount & Hmem & Hres & _).
    assert (0 <= guest_memory (services_of s)) as Hgn.
    { destruct (ad_services _ Hadm) as [_ Hok _ _]. rewrite Forall_forall in Hok. apply sum_by_nonneg. intros sv Hsv.
      pose proof (so_memory _ (Hok _ Hsv)). pose proof (so_instances _ (Hok _ Hsv)). nia. }
    set (c := HostConstraint.Count (host_of s)) in *. set (m := HostConstraint.MemoryMiB (host_of s)) in *.
    set (r := HostConstraint.SystemReserve (host_of s)) in *. unfold mul64, sub64, max_int in *.
    rewrite !(i64_id (m - r)) by (unfold int_range, min_int, max_int; nia).
    rewrite !(i64_id (c * m)) by (unfold int_range, min_int, max_int; nia).
    rewrite !(i64_id (c * r)) by (unfold int_range, min_int, max_int; nia).
    rewrite !(i64_id (c * (m - r))) by (unfold int_range, min_int, max_int; nia).
    rewrite i64_id by (unfold int_range, min_int, max_int; nia). nia.
Qed.

End Compilation.

(** ** Replicas that fit, and service bindings

    The lemmas behind [ScaleCapacity] (sdk/change.go), the runtime plan and the
    names services are bound to (sdk/runtime_plan.go). *)

Section Capacity.
Context `{Unicode}.

(** ** Scaling one service *)
(** The System with [k] instances of one of its services. *)
Definition with_instances (k : Z) (sv : SystemService) : SystemService :=
  SystemService.mk (SystemService.Name sv) (SystemService.Kind sv) (SystemService.Engine sv) (SystemService.Isolation sv)
    k (SystemService.DependsOn sv) (SystemService.Resources sv) (SystemService.Readiness_ sv)
    (SystemService.Networking sv).
Definition rescale (name : string) (k : Z) (l : list SystemService) : list SystemService :=
  (fun sv => if SystemService.Name sv == name then with_instances k sv else sv) <$> l.

(** What the other services use. *)
Definition others_memory (name : string) (l : list SystemService) : Z :=
  sum_by (fun sv => if SystemService.Name sv == name then 0 else instances_of sv * memory_of sv) l.

Lemma others_le name l :
  Forall service_ok l -> 0 <= others_memory name l <= guest_memory l.
Proof.
  unfold others_memory, guest_memory.
  induction 1 as [|sv l Hsv Hl IH]; simpl; [lia|].
  pose proof (so_instances _ Hsv). pose proof (so_memory _ Hsv). case_bool_decide; nia.
Qed.

Lemma scale_target_spec name l t used :
  Forall service_ok l -> 0 <= used -> used + guest_memory l <= max_int ->
  (scale_target l name t used).2 = used + others_memory name l.
Proof.
  intros Hl. revert t used. induction Hl as [|sv l Hsv Hl IH]; intros t used H0 Hmax; simpl; [unfold others_memory; simpl; lia|].
  pose proof (others_le name l Hl). pose proof (so_instances _ Hsv). pose proof (so_memory _ Hsv).
  change (guest_memory (sv :: l)) with (instances_of sv * memory_of sv + guest_memory l) in Hmax.
  unfold others_memory. cbn [sum_by]. fold (others_memory name l). case_bool_decide; rewrite IH; try nia.
  - unfold add64, mul64. fold (instances_of sv) (memory_of sv).
    rewrite (i64_id (_ * _)), i64_id by (unfold int_range, min_int in *; nia). lia.
  - unfold add64. apply Z.le_trans with 0; [done|]. unfold mul64. fold (instances_of sv) (memory_of sv).
    rewrite (i64_id (_ * _)), i64_id by (unfold int_range, min_int in *; nia). nia.
  - unfold add64, mul64. fold (instances_of sv) (memory_of sv).
    rewrite (i64_id (_ * _)), i64_id by (unfold int_range, min_int in *; nia). nia.
Qed.

Lemma scale_target_found name l t used t' :
  (scale_target l name t used).1 = Some t' -> t = Some t' \/ t' ∈ l /\ SystemService.Name t' = name.
Proof.
  revert t used. induction l as [|sv l IH]; intros t used; simpl; [by left|]. case_bool_decide as E; intros Ht.
  - apply IH in Ht as [[= <-]|[Hin Hn]]; right; [split; [left|done]|split; [by right|done]].
  - apply IH in Ht as [Ht|[Hin Hn]]; [by left|right; split; [by right|done]].
Qed.

Lemma rescaled_memory name k l t :
  NoDup (SystemService.Name <$> l) -> t ∈ l -> SystemService.Name t = name ->
  guest_memory (rescale name k l) = others_memory name l + k * memory_of t.
Proof.
  intros Hnd Ht Hn. induction l as [|sv l IH]; [by apply elem_of_nil in Ht|].
  apply NoDup_cons in Hnd as [Hsv Hnd]. unfold guest_memory, others_memory, rescale. rewrite fmap_cons. cbn [sum_by].
  fold (rescale name k l) (others_memory name l). apply elem_of_cons in Ht as [<-|Ht].
  - rewrite !bool_decide_true by done. unfold instances_of, memory_of, with_instances. cbn.
    assert (forall l', SystemService.Name t ∉ SystemService.Name <$> l' ->
      guest_memory (rescale name k l') = others_memory name l') as Hrest.
    { induction l' as [|x l' IH']; [done|]. rewrite fmap_cons, not_elem_of_cons. intros [Hx Hl'].
      unfold guest_memory, others_memory, rescale. rewrite fmap_cons. cbn [sum_by].
      rewrite !bool_decide_false by congruence. fold (rescale name k l') (others_memory name l').
      by rewrite <- IH'. }
    specialize (Hrest _ Hsv). unfold guest_memory in Hrest. unfold instances_of, memory_of in Hrest. rewrite Hrest.
    unfold memory_of. lia.
  - assert (SystemService.Name sv <> name) as Hne by (intros E; apply Hsv; rewrite E, <- Hn; by apply list_elem_of_fmap_2).
    rewrite !bool_decide_false by done. specialize (IH Hnd Ht). unfold guest_memory in IH. rewrite IH. lia.
Qed.

Definition schedulable (s : System) : Z :=
  HostConstraint.MemoryMiB (host_of s) - HostConstraint.SystemReserve (host_of s).

Lemma ScaleCapacity_ok s name t n :
  ScaleCapacity s name = Ok (t, n) ->
  t ∈ services_of s /\ SystemService.Name t = name /\ SystemService.Kind t <> "database" /\ 1 <= n /\
  forall k, guest_memory (rescale name k (services_of s)) <= schedulable s <-> k <= n.
Proof.
  unfold ScaleCapacity. cbv zeta. intros ([] & Hv & Hc)%result_bind_ok. apply admitted_iff in Hv as Hadm.
  apply result_bind_ok in Hc as ([] & Hone & Hc). apply reject_if_ok in Hone. bool_inv.
  pose proof (ad_services _ Hadm) as Hs. pose proof (scale_target_found name (services_of s) None 0) as Hfound.
  destruct (others_le name _ (ss_services _ Hs)) as [Ho0 Ho]. pose proof (ss_guest _ Hs) as Hguest.
  pose proof (scale_target_spec name (services_of s) None 0 (ss_services _ Hs) ltac:(lia) ltac:(lia)) as Hused.
  destruct (scale_target _ _ _ _) as [[t'|] used]; [|done]. simpl in Hused, Hfound. subst used.
  destruct (Hfound t' eq_refl) as [?|[Hin Hname]]; [done|].
  apply result_bind_ok in Hc as ([] & Hkind & Hc). apply reject_if_ok in Hkind. bool_inv.
  apply result_bind_ok in Hc as ([] & Hn & Hc). apply reject_if_ok in Hn. bool_inv.
  injection Hc as -> <-. split_and!; [done..|].
  intros k. rewrite (rescaled_memory name k _ t (ss_names _ Hs) Hin Hname).
  pose proof (co_guest _ (ad_capacity _ Hadm)) as Hg. pose proof (co_memory _ (ad_capacity _ Hadm)) as Hm.
  destruct (header_host s (ad_header _ Hadm)) as (_ & Hmem & Hres & _). rewrite Hone in *. fold (schedulable s) in *.
  pose proof (proj1 (Forall_forall _ _) (ss_services _ Hs) t Hin) as Ht. pose proof (so_memory _ Ht) as Hmem1.
  unfold div64, mul64, sub64. fold (schedulable s) (memory_of t).
  assert (schedulable s <= max_int) by (unfold schedulable; lia).
  set (o := others_memory name (services_of s)) in *. set (room := schedulable s) in *. set (m := memory_of t) in *.
  rewrite (i64_id room), (i64_id (1 * _)), (i64_id (_ - _)) by (unfold int_range, min_int, max_int in *; lia).
  replace (1 * room - (0 + o)) with (room - o) by lia.
  rewrite Z.quot_div_nonneg by lia.
  pose proof (Z.mul_div_le (room - o) m ltac:(lia)). pose proof (Z.div_pos (room - o) m ltac:(lia) ltac:(lia)).
  rewrite i64_id by (unfold int_range, min_int, max_int in *; nia). split; intros Hk.
  - apply Z.div_le_lower_bound; lia.
  - nia.
Qed.

(** ** Service bindings *)
Definition name_byte (c : ascii) : bool := is_lower c || is_digit c || (c == "-"%char).
Definition binding_ok (c : ascii) : bool := is_upper c || is_digit c || (c == "_"%char).

Lemma binding_byte_ok c : name_byte c = true -> binding_ok (binding_byte c) = true.
Proof. destruct c as [[] [] [] [] [] [] [] []]; vm_compute; auto. Qed.

(** Where a name's byte comes from. *)
Definition unbind (c : ascii) : ascii := if c == "_"%char then "-"%char else lower_byte c.
Lemma binding_byte_inv c : name_byte c = true -> unbind (binding_byte c) = c.
Proof. destruct c as [[] [] [] [] [] [] [] []]; intros Hc; vm_compute in Hc |- *; congruence. Qed.

Lemma map_string_inv (f g : ascii -> ascii) (P : ascii -> bool) s :
  (forall c, P c = true -> g (f c) = c) -> string_forallb P s = true -> map_string g (map_string f s) = s.
Proof.
  intros Hfg. induction s as [|c s IH]; simpl; [done|]. intros [Hc Hs]%andb_true_iff. by rewrite Hfg, IH.
Qed.

Lemma safeName_bytes s : safeName s = true -> string_forallb name_byte s = true /\ (String.length s <= 48)%nat.
Proof.
  destruct s as [|c s]; [done|]. intros (Hc & Hs & Hl)%class_match_cons. simpl. split; [|lia].
  apply andb_true_iff. split; [unfold name_byte; by rewrite Hc|exact Hs].
Qed.

Lemma map_string_forallb f P Q s :
  (forall c, P c = true -> Q (f c) = true) -> string_forallb P s = true -> string_forallb Q (map_string f s) = true.
Proof. intros HPQ. induction s as [|c s IH]; simpl; [done|]. intros [Hc Hs]%andb_true_iff. rewrite HPQ; auto. Qed.

Lemma length_map_string f s : String.length (map_string f s) = String.length s.
Proof. induction s; simpl; congruence. Qed.

Lemma ServiceBindingName_ok n b :
  ServiceBindingName n = Ok b -> safeName n = true /\ b = "CANTER_SERVICE_" +:+ (map_string binding_byte n +:+ "_URL").
Proof. unfold ServiceBindingName. destruct (safeName n); [|done]. by intros [= <-]. Qed.
End Capacity.
