(* ===== verification/Lifecycle.v ===== *)
(** * Sandbox lifecycle documents: fences and transitions (sdk/client.go)

    A sandbox is one JSON document, [State], changed only by compare-and-swap.
    This file holds what every operation of the lifecycle shares: the loops
    [mutateCreationState] and [mutateDestroyState], and the transitions they
    run.  [Creation] and [Destruction] hold the operations.

    A transition is Go's closure over [&current] and [&resource]: [None] for
    [(false, nil)], [Some next] for [(true, nil)] with the document as the
    closure left it.  [context.WithoutCancel] changes no call and is left out. *)

From S2P Require Import Prelude Effects GoStrings Documents SandboxSpec Calls.

Section Lifecycle.
Context `{Unicode}.

Definition retry_limit : nat := 8.
Definition op_text (operationID rest : string) : string := "compute operation " +:+ operationID +:+ rest.
Definition fence (operationID rest : string) : error := LifecycleFenceError (op_text operationID rest).
Definition attempt_fence (attemptID rest : string) : error :=
  LifecycleFenceError ("compute attempt " +:+ attemptID +:+ rest).

Definition in_phases (phase : string) (phases : list string) : bool := existsb (fun p => phase == p) phases.
Definition intent_phase (s : State) : string :=
  match State.CreationIntent_ s with Some ci => CreationIntent.Phase ci | None => EmptyString end.

(** [current.Phase == p && current.CreationIntent.Phase == p]. *)
Definition both_phases (s : State) (ci : CreationIntent) (phase : string) : bool :=
  (State.Phase s == phase) && (CreationIntent.Phase ci == phase).

(** Assignments through [&current.CreationIntent.Resources[index]]. *)
Definition set_resource (index : Z) (r : ComputeResourceIntent) (ci : CreationIntent) (s : State) : State :=
  State.with_CreationIntent_
    (Some (CreationIntent.with_Resources (<[Z.to_nat index := r]> (CreationIntent.Resources ci)) ci)) s.
Definition set_phases (phase : string) (ci : CreationIntent) (s : State) : State :=
  State.with_Phase phase (State.with_CreationIntent_ (Some (CreationIntent.with_Phase phase ci)) s).

(** ** mutateCreationState *)
Definition transition : Type :=
  State -> CreationIntent -> option ComputeResourceIntent -> result (option State).

Definition creation_target (operationID : string) (resourceIndex : Z) (attemptID : string)
    (read : option (State * string))
    : result (State * CreationIntent * option ComputeResourceIntent * string) :=
  match read with
  | Some (current, etag) =>
      match State.CreationIntent_ current with
      | Some ci =>
          reject_if ((CreationIntent.OperationID ci != operationID) ||
                     (State.Phase current == "destroying") || (State.Phase current == "destroyed") ||
                     (CreationIntent.Phase ci == "destroying") || (CreationIntent.Phase ci == "destroyed"))
            (fence operationID " lost its lifecycle fence");;
          if resourceIndex <? 0 then Ok (current, ci, None, etag)
          else
            match CreationIntent.Resources ci !! Z.to_nat resourceIndex with
            | None => Err (fence operationID " resource intent changed")
            | Some resource =>
                reject_if ((attemptID != EmptyString) && (ComputeResourceIntent.AttemptID resource != attemptID))
                  (fence operationID (" attempt " +:+ attemptID +:+ " lost its lifecycle fence"));;
                Ok (current, ci, Some resource, etag)
            end
      | None => Err (fence operationID " lost its lifecycle fence")
      end
  | None => Err (fence operationID " lost its lifecycle fence")
  end.

Fixpoint mutate_creation (retries : nat) (key operationID : string) (resourceIndex : Z) (attemptID : string)
    (mutate : transition) : sdk (result State) :=
  match retries with
  | O => Ret (Err (Errorf (op_text operationID " state changed continuously during transition")))
  | S retries' =>
      read ←! GetJSONVersion KState key;
      '(current, ci, resource, etag) ←! lift (creation_target operationID resourceIndex attemptID read);
      next ←! lift (mutate current ci resource);
      match next with
      | None => Ret (Ok current)
      | Some next =>
          '(_, written) ←! PutJSONIfMatch KState key etag next;
          if (written : bool) then Ret (Ok next)
          else mutate_creation retries' key operationID resourceIndex attemptID mutate
      end
  end.
Definition mutateCreationState := mutate_creation retry_limit.

(** ** The recorded resources *)
Definition observed_resource (server : Server) : Resource :=
  Resource.mk (Server.ID server) (Server.Name server) (Server.Status server) (IPv4 server).

Fixpoint update_resources (l : list Resource) (server : Server) : list Resource :=
  match l with
  | [] => [observed_resource server]
  | r :: l' =>
      if (Resource.ID r == Server.ID server) || (Resource.Name r == Server.Name server)
      then observed_resource server :: l' else r :: update_resources l' server
  end.
Definition updateResource (s : State) (server : Server) : State :=
  State.with_Resources (update_resources (State.Resources s) server) s.

Fixpoint remove_resources (l : list Resource) (id : string) : list Resource :=
  match l with
  | [] => []
  | r :: l' => if Resource.ID r == id then l' else r :: remove_resources l' id
  end.
Definition removeResource (s : State) (id : string) : State :=
  State.with_Resources (remove_resources (State.Resources s) id) s.

(** ** Transitions of one resource *)
(** A transition of a resource dereferences [resource]. *)
Definition with_resource (f : State -> CreationIntent -> ComputeResourceIntent -> result (option State)) : transition :=
  fun current ci resource =>
    match resource with
    | Some r => f current ci r
    | None => Err (Panic "nil pointer dereference")
    end.

Definition attach (operationID : string) (index : Z) (attemptID : string) (server : Server) : transition :=
  with_resource (fun current ci r =>
    let phase := ComputeResourceIntent.Phase r in
    reject_if (negb (both_phases current ci "creating"))
      (fence operationID (" cannot attach in phase " +:+ State.Phase current));;
    if in_phases phase ["attached"; "active"; "ready"] then
      reject_if (ComputeResourceIntent.ResourceID r != Server.ID server)
        (attempt_fence attemptID " is already attached to another resource");;
      Ok None
    else
      reject_if ((phase != "creating") || (attemptID == EmptyString))
        (attempt_fence attemptID (" cannot attach in phase " +:+ phase));;
      let r' := ComputeResourceIntent.with_Phase "attached"
                  (ComputeResourceIntent.with_ResourceID (Server.ID server) r) in
      Ok (Some (updateResource (set_resource index r' ci current) server))).

Definition persistResourceAttachment (key operationID : string) (index : Z) (attemptID : string) (server : Server)
    : sdk (result State) :=
  bind_wrap (mutateCreationState key operationID index attemptID (attach operationID index attemptID server))
    (Wrapf ("persist attached compute " +:+ Server.ID server +:+ ": ")) (fun s => Ret (Ok s)).

Definition activate (operationID : string) (index : Z) (attemptID : string) (server : Server) : transition :=
  with_resource (fun current ci r =>
    let phase := ComputeResourceIntent.Phase r in
    reject_if (negb (both_phases current ci "creating") || (ComputeResourceIntent.ResourceID r != Server.ID server))
      (fence operationID (" cannot record active resource " +:+ Server.ID server));;
    if in_phases phase ["active"; "ready"] then Ok None
    else
      reject_if (phase != "attached") (attempt_fence attemptID (" cannot become active from " +:+ phase));;
      Ok (Some (updateResource (set_resource index (ComputeResourceIntent.with_Phase "active" r) ci current) server))).

Definition persistResourceActive (key operationID : string) (index : Z) (attemptID : string) (server : Server)
    : sdk (result State) :=
  bind_wrap (mutateCreationState key operationID index attemptID (activate operationID index attemptID server))
    (Wrapf ("persist active compute " +:+ Server.ID server +:+ ": ")) (fun s => Ret (Ok s)).

Definition exhaust (index : Z) (attemptID serverID : string) : transition :=
  with_resource (fun current ci r =>
    reject_if (negb (both_phases current ci "creating") || (ComputeResourceIntent.ResourceID r != serverID) ||
               negb (in_phases (ComputeResourceIntent.Phase r) ["attached"; "active"]))
      (attempt_fence attemptID " cannot record exhausted network");;
    let r' := ComputeResourceIntent.mk (ComputeResourceIntent.Replica r) (ComputeResourceIntent.Name r)
                (ComputeResourceIntent.ProofKey r) (add64 (ComputeResourceIntent.NetworkIndex r) 1)
                EmptyString "pending" EmptyString None None in
    let failed := Attempt.mk serverID "DELETED" "network capacity exhausted" in
    Ok (Some (removeResource
                (set_resource index r' ci (State.with_Attempts (State.Attempts current ++ [failed]) current)) serverID))).

Definition persistExhaustedNetwork (key operationID : string) (index : Z) (attemptID serverID : string)
    : sdk (result State) :=
  bind_wrap (mutateCreationState key operationID index attemptID (exhaust index attemptID serverID))
    (Wrapf "persist exhausted network attempt: ") (fun s => Ret (Ok s)).

Definition prove (operationID : string) (index : Z) (attemptID : string) : transition :=
  with_resource (fun current ci r =>
    let phase := ComputeResourceIntent.Phase r in
    reject_if (negb (both_phases current ci "creating")) (fence operationID " cannot record proof-ready resource");;
    if phase == "ready" then Ok None
    else
      reject_if (phase != "active") (attempt_fence attemptID (" cannot become ready from " +:+ phase));;
      Ok (Some (set_resource index (ComputeResourceIntent.with_Phase "ready" r) ci current))).

Definition persistResourceReady (key operationID : string) (index : Z) (attemptID : string) : sdk (result State) :=
  bind_wrap (mutateCreationState key operationID index attemptID (prove operationID index attemptID))
    (Wrapf "persist proof-ready compute: ") (fun s => Ret (Ok s)).

(** ** Transitions of the whole operation *)
Definition finish_creation (operationID : string) : transition := fun current ci _ =>
  if both_phases current ci "ready" then Ok None
  else
    reject_if (negb (both_phases current ci "creating"))
      (fence operationID (" cannot become ready from " +:+ State.Phase current));;
    fold_result (fun _ r =>
      reject_if (ComputeResourceIntent.Phase r != "ready")
        (fence operationID (" has a resource in phase " +:+ ComputeResourceIntent.Phase r)))
      tt (CreationIntent.Resources ci);;
    Ok (Some (State.with_Failure EmptyString (set_phases "ready" ci current))).

Definition persistCreationReady (key operationID : string) : sdk (result State) :=
  bind_wrap (mutateCreationState key operationID (-1) EmptyString (finish_creation operationID))
    (Wrapf "persist ready sandbox: ") (fun s => Ret (Ok s)).

Definition record_failure (operationID : string) (cause : error) (terminal : bool) : transition := fun current ci _ =>
  reject_if (negb (both_phases current ci "creating"))
    (fence operationID (" cannot record failure in phase " +:+ State.Phase current));;
  let failed := State.with_Failure (Error cause) current in
  Ok (Some (if terminal then set_phases "failed" ci failed else failed)).

(** The functions that update [*state] return it with their error. *)
Definition recordCreationFailure (key : string) (state : State) (operationID : string) (cause : error)
    (terminal : bool) : sdk (State * option error) :=
  r ← mutateCreationState key operationID (-1) EmptyString (record_failure operationID cause terminal);
  match r with
  | Ok persisted => Ret (persisted, None)
  | Err e => Ret (state, Some e)
  end.

Definition escalate (operationID : string) (cause : error) : transition := fun current ci _ =>
  if both_phases current ci "escalated" then Ok None
  else
    reject_if (negb (both_phases current ci "creating"))
      (fence operationID (" cannot escalate in phase " +:+ State.Phase current));;
    Ok (Some (State.with_Failure (Error cause) (set_phases "escalated" ci current))).

Definition escalateCreation (key : string) (state : State) (operationID : string) (cause : error)
    : sdk (State * error) :=
  r ← mutateCreationState key operationID (-1) EmptyString (escalate operationID cause);
  match r with
  | Ok persisted => Ret (persisted, cause)
  | Err e => Ret (state, Wrapf (Error cause +:+ "; persist escalated creation: ") e)
  end.

(** ** mutateDestroyState *)
Definition destroy_target (creationOperationID exposureOperationID : string) (read : option (State * string))
    : result (State * string) :=
  let owned {A} (id : A -> string) (operationID : string) (intent : option A) : bool :=
    (operationID == EmptyString) || match intent with Some i => id i == operationID | None => false end in
  match read with
  | Some (current, etag) =>
      reject_if (negb ((State.Phase current == "destroying") &&
                       owned CreationIntent.OperationID creationOperationID (State.CreationIntent_ current) &&
                       owned ExposureIntent.OperationID exposureOperationID (State.ExposureIntent_ current)))
        (LifecycleFenceError "destroy operation lost its lifecycle fence");;
      Ok (current, etag)
  | None => Err (LifecycleFenceError "destroy operation lost its lifecycle fence")
  end.

Fixpoint mutate_destroy (retries : nat) (key creationOperationID exposureOperationID : string)
    (mutate : State -> sdk (result State)) : sdk (result State) :=
  match retries with
  | O => Ret (Err (Errorf "destroy state changed continuously during transition"))
  | S retries' =>
      read ←! GetJSONVersion KState key;
      '(current, etag) ←! lift (destroy_target creationOperationID exposureOperationID read);
      next ←! mutate current;
      '(_, written) ←! PutJSONIfMatch KState key etag next;
      if (written : bool) then Ret (Ok next)
      else mutate_destroy retries' key creationOperationID exposureOperationID mutate
  end.
(** Every closure given to it reports a change, so [!changed] is left out. *)
Definition mutateDestroyState := mutate_destroy retry_limit.

End Lifecycle.
