(* ===== verification/Creation.v ===== *)
(** * Creating a sandbox (sdk/client.go: Plan, Apply, Status and reconciliation)

    [Apply] records a creation intent, then reconciles every resource of it with
    the provider: look up, acquire a create attempt, create, attach, wait for
    the server and for its boot proof.  A crashed [Apply] is resumed from the
    document by the next one.

    The polling loops and the loop over networks have the fuel [fuel]; running
    out is [OutOfFuel]. *)

From S2P Require Import Prelude Effects GoStrings Documents Json SandboxSpec Calls Lifecycle.

(** ** Deterministic network order *)
Definition fnv32a_step (h : Z) (c : ascii) : Z := (Z.lxor h (byte_of c) * 16777619) mod 2 ^ 32.
Definition fnv32a (s : string) : Z := fold_left fnv32a_step (String.list_ascii_of_string s) 2166136261.

Definition rotate (values : list string) (seed : string) : list string :=
  if (length values <? 2)%nat then values
  else let start := Z.to_nat (fnv32a seed mod Z.of_nat (length values)) in
       drop start values ++ take start values.

Section Creation.
Context `{Unicode}.
Context (fuel : nat) (createReconcileGrace : Z).

Definition sandbox_of (spec : Spec) : string := Metadata.Name (Spec.Metadata_ spec).
Definition spec_prefix (spec : Spec) : string := M1Spec.Prefix (Desired.M1 (Spec.Spec_ spec)).
Definition compute_of (spec : Spec) : ComputeSpec := Desired.Compute (Spec.Spec_ spec).
Definition base (prefix : string) : string := TrimRight prefix "/".
Definition stateKey (spec : Spec) : string := base (spec_prefix spec) +:+ "/state.json".

(** ** Plan *)
(** In a prompt or script below, [`] stands for a double quote and [~] for a
    line feed. *)
Definition quoted (s : string) : string :=
  ReplaceAll (ReplaceAll s "`"%char (String quote_char EmptyString)) "~"%char (bytes [10]).

(** [json.Marshal(spec)]. *)
Definition spec_tree (spec : Spec) : json :=
  let desired := Spec.Spec_ spec in
  let compute := Desired.Compute desired in
  JObject
    (field "apiVersion" (JString (Spec.APIVersion spec)) ++ field "kind" (JString (Spec.Kind spec)) ++
     field "metadata" (JObject (field "name" (JString (Metadata.Name (Spec.Metadata_ spec))))) ++
     field "spec" (JObject
       (field "intent" (JString (Desired.Intent desired)) ++
        field "compute" (JObject
          (field "class" (JString (ComputeSpec.Class_ compute)) ++ field "image" (JString (ComputeSpec.Image compute)) ++
           field "replicas" (JInt (ComputeSpec.Replicas compute)) ++
           omit_string "bootstrap" (ComputeSpec.Bootstrap compute))) ++
        field "m1" (JObject (field "prefix" (JString (M1Spec.Prefix (Desired.M1 desired))))) ++
        field "policy" (JObject (field "maxReplicas" (JInt (Policy.MaxReplicas (Desired.Policy_ desired)))))))).
Definition spec_json (spec : Spec) : string := render (spec_tree spec).

Definition plan_prompt (spec : Spec) : string :=
  quoted ("You are Canter's intent compiler. Convert the supplied validated sandbox spec into JSON only.~" +:+
  "The exact schema is {`schemaVersion`:`v1`,`summary`:`...`,`operations`:[...]}. Emit exactly two operations in this order:~" +:+
  "1. {`kind`:`m1.ensure`,`name`:metadata.name,`prefix`:spec.m1.prefix}~" +:+
  "2. {`kind`:`compute.ensure`,`name`:metadata.name,`class`:spec.compute.class,`image`:spec.compute.image,`replicas`:spec.compute.replicas}~" +:+
  "Do not add provider names, credentials, IDs, commands, fields, or markdown. Spec: ") +:+ spec_json spec.

Definition wanted_operations (spec : Spec) : list Operation :=
  [Operation.mk "m1.ensure" (sandbox_of spec) EmptyString EmptyString 0 (spec_prefix spec);
   Operation.mk "compute.ensure" (sandbox_of spec) (ComputeSpec.Class_ (compute_of spec))
     (ComputeSpec.Image (compute_of spec)) (ComputeSpec.Replicas (compute_of spec)) EmptyString].

Definition validatePlan (spec : Spec) (plan : Plan) : result unit :=
  reject_if ((Plan.SchemaVersion plan != "v1") || (length (Plan.Operations plan) != 2%nat))
    (Errorf "unexpected plan shape");;
  fold_result (fun i want =>
    reject_if (Plan.Operations plan !! i != Some want)
      (Errorf ("operation " +:+ Itoa (Z.of_nat i + 1) +:+ " differs from the validated spec"));;
    Ok (S i)) 0%nat (wanted_operations spec);;
  Ok tt.

Definition Client_Plan (spec : Spec) : sdk (result Plan) :=
  _ ←! lift (Spec_Validate spec);
  '(plan, modelName, latency) ←! (call (ModelCompile (plan_prompt spec)) : sdk (result (Plan * string * Z)));
  let plan := Plan.with_LatencyMS latency (Plan.with_Model modelName plan) in
  bind_wrap (lift (validatePlan spec plan)) (Wrapf "model plan rejected: ") (fun _ => Ret (Ok plan)).

(** ** Checkpoint *)
Definition Client_Checkpoint (sandbox prefix message : string) : sdk (result Checkpoint) :=
  if negb (safeName sandbox) then Ret (Err (Errorf "invalid sandbox name")) else
  bind_wrap (lift (ValidateM1Prefix prefix)) (Wrapf "invalid m1 prefix: ") (fun _ =>
  id ← newID;
  createdAt ← now;
  let cp := Checkpoint.mk id sandbox message createdAt false in
  let key := base prefix +:+ "/checkpoints/" +:+ id +:+ ".json" in
  _ ←! PutJSON KCheckpoint key cp;
  bind_wrap (Get KCheckpoint key) (Wrapf "checkpoint write could not be read back: ") (fun readback =>
  if (Checkpoint.ID readback != id) || (Checkpoint.Message readback != message)
  then Ret (Err (Errorf "checkpoint readback did not match write"))
  else Ret (Ok (Checkpoint.with_Verified true cp)))).

(** ** The creation intent *)
Definition resource_name (spec : Spec) (replica : Z) : string :=
  "canter-" +:+ sandbox_of spec +:+ "-" +:+ Itoa replica.

Definition pending_resource (spec : Spec) (opID : string) (replica : Z) : ComputeResourceIntent :=
  ComputeResourceIntent.mk replica (resource_name spec replica)
    (base (spec_prefix spec) +:+ "/proofs/" +:+ opID +:+ "-" +:+ Itoa replica +:+ ".json")
    0 EmptyString "pending" EmptyString None None.

Definition intent_state (spec : Spec) (opID : string) (createdAt : Z) (shape : Shape) (imageID : string)
    (networkIDs : list string) : State :=
  let c := compute_of spec in
  let resources := pending_resource spec opID <$> seqZ 1 (ComputeSpec.Replicas c) in
  let intent := CreationIntent.mk opID (ComputeSpec.Class_ c) (ComputeSpec.Image c) (Shape.ID shape) imageID
                  networkIDs resources "creating" createdAt in
  State.mk (sandbox_of spec) "creating" (ComputeSpec.Class_ c) (ComputeSpec.Image c) [] []
    (ComputeResourceIntent.ProofKey <$> resources) createdAt None EmptyString [] (Some intent) None.

Definition createResolvedIntent (spec : Spec) (key : string) (replacing : bool) (etag : string)
    (shape : Shape) (imageID : string) (networkIDs : list string) : sdk (result State) :=
  opID ← newID;
  createdAt ← now;
  let state := intent_state spec opID createdAt shape imageID (rotate networkIDs opID) in
  bind_wrap (if replacing then PutJSONIfMatch KState key etag state else PutJSONIfAbsent KState key state)
    (Wrapf "persist compute creation intent: ") (fun '(_, written) =>
  if (written : bool) then Ret (Ok state)
  else Ret (Err (Errorf ("sandbox " +:+ Quote (sandbox_of spec) +:+
         " creation intent was concurrently claimed; retry after inspecting current state")))).

Definition createIntent (spec : Spec) (key : string) (replacing : bool) (etag : string) : sdk (result State) :=
  '(shape, imageID, networkIDs) ←!
    (call (Resolve (ComputeSpec.Class_ (compute_of spec)) (ComputeSpec.Image (compute_of spec)))
       : sdk (result (Shape * string * list string)));
  createResolvedIntent spec key replacing etag shape imageID networkIDs.

Definition valid_resource_intent (spec : Spec) (networks : list string) (index : nat) (r : ComputeResourceIntent) : bool :=
  let n := Z.of_nat (length networks) in
  let phase := ComputeResourceIntent.Phase r in
  let exhausted := ComputeResourceIntent.NetworkIndex r == n in
  let unsafeCreating := (phase == "creating") &&
    ((ComputeResourceIntent.AttemptID r == EmptyString) ||
     (ComputeResourceIntent.CreateAttemptedAt r == None) || (ComputeResourceIntent.ReconcileUntil r == None)) in
  let replica := Z.of_nat index + 1 in
  negb ((ComputeResourceIntent.Replica r != replica) || (ComputeResourceIntent.Name r != resource_name spec replica) ||
        (ComputeResourceIntent.ProofKey r == EmptyString) || (ComputeResourceIntent.NetworkIndex r <? 0) ||
        (n <? ComputeResourceIntent.NetworkIndex r) || (exhausted && (phase != "pending")) || unsafeCreating).

Definition validateCreationIntent (spec : Spec) (state : State) : result unit :=
  let legacy := Errorf ("sandbox " +:+ Quote (sandbox_of spec) +:+
                        " has legacy or incomplete creating state; refusing unsafe replay") in
  match State.CreationIntent_ state with
  | None => Err legacy
  | Some intent =>
      reject_if ((CreationIntent.OperationID intent == EmptyString) || (CreationIntent.ShapeID intent == EmptyString) ||
                 (CreationIntent.ImageID intent == EmptyString) || (length (CreationIntent.NetworkIDs intent) == 0%nat))
        legacy;;
      reject_if ((State.Sandbox state != sandbox_of spec) ||
                 (CreationIntent.DesiredClass intent != ComputeSpec.Class_ (compute_of spec)) ||
                 (CreationIntent.DesiredImage intent != ComputeSpec.Image (compute_of spec)) ||
                 (Z.of_nat (length (CreationIntent.Resources intent)) != ComputeSpec.Replicas (compute_of spec)))
        (Errorf ("sandbox " +:+ Quote (sandbox_of spec) +:+ " creation intent does not match the requested spec"));;
      fold_result (fun index r =>
        reject_if (negb (valid_resource_intent spec (CreationIntent.NetworkIDs intent) index r))
          (Errorf ("sandbox " +:+ Quote (sandbox_of spec) +:+ " has an invalid resource creation intent"));;
        Ok (S index)) 0%nat (CreationIntent.Resources intent);;
      Ok tt
  end.

(** ** Acquiring a create attempt *)
Definition creationReconcileGrace : Z :=
  if 0 <? createReconcileGrace then createReconcileGrace else 30 * Second.

Definition op_of (s : State) : option string := CreationIntent.OperationID <$> State.CreationIntent_ s.

Definition acquire_target (expected : State) (resourceIndex : Z) (read : option (State * string))
    : result (State * CreationIntent * ComputeResourceIntent * string) :=
  let changed := Errorf "compute creation intent changed before attempt acquisition" in
  match read with
  | Some (current, etag) =>
      match State.CreationIntent_ current with
      | Some ci =>
          reject_if (op_of expected != Some (CreationIntent.OperationID ci)) changed;;
          match CreationIntent.Resources ci !! Z.to_nat resourceIndex with
          | None => Err changed
          | Some resource =>
              reject_if (negb (both_phases current ci "creating"))
                (fence (CreationIntent.OperationID ci)
                   (" cannot acquire a create attempt in phase " +:+ State.Phase current));;
              reject_if (ComputeResourceIntent.Phase resource != "pending")
                (Errorf ("compute create attempt for " +:+ ComputeResourceIntent.Name resource +:+
                         " was concurrently claimed in phase " +:+ ComputeResourceIntent.Phase resource));;
              Ok (current, ci, resource, etag)
          end
      | None => Err changed
      end
  | None => Err changed
  end.

Definition attempted (r : ComputeResourceIntent) (attemptID : string) (attemptedAt : Z) : ComputeResourceIntent :=
  ComputeResourceIntent.mk (ComputeResourceIntent.Replica r) (ComputeResourceIntent.Name r)
    (ComputeResourceIntent.ProofKey r) (ComputeResourceIntent.NetworkIndex r) (ComputeResourceIntent.ResourceID r)
    "creating" attemptID (Some attemptedAt) (Some (attemptedAt + creationReconcileGrace)).

Definition acquireResourceCreateAttempt (key : string) (expected : State) (resourceIndex : Z) : sdk (result State) :=
  bind_wrap (GetJSONVersion KState key) (Wrapf "read compute create attempt state: ") (fun read =>
  '(current, ci, resource, etag) ←! lift (acquire_target expected resourceIndex read);
  attemptedAt ← now;
  attemptID ← newID;
  let next := set_resource resourceIndex (attempted resource attemptID attemptedAt) ci current in
  bind_wrap (PutJSONIfMatch KState key etag next) (Wrapf "persist compute create attempt: ") (fun '(_, written) =>
  if (written : bool) then Ret (Ok next)
  else Ret (Err (Errorf ("compute create attempt for " +:+ ComputeResourceIntent.Name resource +:+
                         " was concurrently claimed"))))).

(** ** Finding the managed server *)
Definition duplicate_compute (name : string) (count : Z) : error :=
  DuplicateManagedResourceError "compute resource" name count.
Definition metadata_is (server : Server) (key value : string) : bool :=
  default EmptyString (Server.Metadata server !! key) == value.
(** The server carries the identity of this intent. *)
Definition owns_server (sandbox operationID name : string) (server : Server) : bool :=
  (Server.Name server == name) && metadata_is server "canter.managed" "true" &&
  metadata_is server "canter.sandbox" sandbox && metadata_is server "canter.operation" operationID &&
  metadata_is server "canter.resource" name.

Definition single_match (name : string) (matches : list Server) : result (option Server) :=
  match matches with
  | [] => Ok None
  | [server] => Ok (Some server)
  | _ => Err (duplicate_compute name (Z.of_nat (length matches)))
  end.

Definition reconcileManagedServer (spec : Spec) (operationID : string) (intent : ComputeResourceIntent)
    : sdk (result (option Server)) :=
  let name := ComputeResourceIntent.Name intent in
  let id := ComputeResourceIntent.ResourceID intent in
  let search := matches ←! FindServers (sandbox_of spec) operationID name; lift (single_match name matches) in
  if id != EmptyString then
    r ← InspectServer id;
    match r with
    | Ok server =>
        if negb (owns_server (sandbox_of spec) operationID name server)
        then Ret (Err (Errorf ("compute resource " +:+ id +:+ " no longer matches its durable creation intent")))
        else
          matches ←! FindServers (sandbox_of spec) operationID name;
          if (1 <? length matches)%nat || match matches with [m] => Server.ID m != Server.ID server | _ => false end
          then Ret (Err (duplicate_compute name (Z.max 2 (Z.of_nat (length matches)))))
          else Ret (Ok (Some server))
    | Err e =>
        if negb (IsNotFound e) then Ret (Err (Wrapf ("inspect intended compute " +:+ id +:+ ": ") e)) else search
    end
  else search.

Definition from_poll {A} (r : option (result A)) : result A := default (Err OutOfFuel) r.

Definition waitForManagedServerVisibility (spec : Spec) (operationID : string) (intent : ComputeResourceIntent)
    (until : Z) : sdk (result (option Server)) :=
  r ← poll fuel
    (found ← reconcileManagedServer spec operationID intent;
     match found with
     | Err _ | Ok (Some _) => Ret (Some found)
     | Ok None => t ← now; if until - t <=? 0 then Ret (Some (Ok None)) else Ret None
     end)
    (w ← select;
     match w with
     | WDone e => Ret (Some (Err e))
     | WTimer => Ret (Some (Ok None))
     | WTick => Ret None
     end);
  Ret (from_poll r).

(** ** Cleaning up a server whose record was fenced off *)
Inductive cleanup_claim : Type :=
  | Nothing_to_clean
  | Claim (next : State) (etag priorPhase : string).

Definition cleanup_target (operationID : string) (resourceIndex : Z) (attemptID : string) (server : Server)
    (read : option (State * string)) : cleanup_claim :=
  match read with
  | Some (current, etag) =>
      match State.CreationIntent_ current with
      | Some ci =>
          if CreationIntent.OperationID ci != operationID then Nothing_to_clean else
          match CreationIntent.Resources ci !! Z.to_nat resourceIndex with
          | None => Nothing_to_clean
          | Some resource =>
              if (ComputeResourceIntent.AttemptID resource != attemptID) ||
                 (ComputeResourceIntent.Phase resource == "destroyed") || (State.Phase current != "escalated")
              then Nothing_to_clean
              else
                let cleaning := ComputeResourceIntent.with_Phase "cleaning"
                                  (ComputeResourceIntent.with_ResourceID (Server.ID server) resource) in
                Claim (set_resource resourceIndex cleaning ci (State.with_Phase "cleanup" current)) etag
                  (ComputeResourceIntent.Phase resource)
          end
      | None => Nothing_to_clean
      end
  | None => Nothing_to_clean
  end.

(** [None]: nothing to clean; [Some priorPhase]: the cleanup is claimed. *)
Fixpoint claim_cleanup (retries : nat) (key operationID : string) (resourceIndex : Z) (attemptID : string)
    (server : Server) : sdk (result (option string)) :=
  match retries with
  | O => Ret (Err (Errorf "compute cleanup could not acquire its lifecycle fence"))
  | S retries' =>
      read ←! GetJSONVersion KState key;
      match cleanup_target operationID resourceIndex attemptID server read with
      | Nothing_to_clean => Ret (Ok None)
      | Claim next etag priorPhase =>
          '(_, written) ←! PutJSONIfMatch KState key etag next;
          if (written : bool) then Ret (Ok (Some priorPhase))
          else claim_cleanup retries' key operationID resourceIndex attemptID server
      end
  end.

Definition cleaned_state (operationID : string) (resourceIndex : Z) (attemptID : string) (server : Server)
    (priorPhase : string) (deleteErr : option error) (read : option (State * string)) : result (State * string) :=
  let lost := LifecycleFenceError "compute cleanup lost its lifecycle fence" in
  match read with
  | Some (current, etag) =>
      match State.CreationIntent_ current with
      | Some ci =>
          reject_if ((State.Phase current != "cleanup") || (CreationIntent.OperationID ci != operationID)) lost;;
          match CreationIntent.Resources ci !! Z.to_nat resourceIndex with
          | None => Err lost
          | Some resource =>
              reject_if ((ComputeResourceIntent.AttemptID resource != attemptID) ||
                         (ComputeResourceIntent.Phase resource != "cleaning") ||
                         (ComputeResourceIntent.ResourceID resource != Server.ID server))
                (LifecycleFenceError "compute cleanup resource fence changed");;
              let phase := match deleteErr with None => "destroyed" | Some _ => priorPhase end in
              let next := removeResource
                (set_resource resourceIndex (ComputeResourceIntent.with_Phase phase resource) ci
                   (State.with_Phase "escalated" current)) (Server.ID server) in
              Ok (match deleteErr with
                  | None => next
                  | Some e => State.with_Failure
                      ("cleanup stale compute " +:+ Server.ID server +:+ ": " +:+ Error e) next
                  end, etag)
          end
      | None => Err lost
      end
  | None => Err lost
  end.

Fixpoint record_cleanup (retries : nat) (key operationID : string) (resourceIndex : Z) (attemptID : string)
    (server : Server) (priorPhase : string) (deleteErr : option error) : sdk (result unit) :=
  match retries with
  | O => Ret (Err (Errorf "compute cleanup state changed continuously"))
  | S retries' =>
      read ←! GetJSONVersion KState key;
      '(next, etag) ←! lift (cleaned_state operationID resourceIndex attemptID server priorPhase deleteErr read);
      '(_, written) ←! PutJSONIfMatch KState key etag next;
      if (written : bool) then Ret (match deleteErr with None => Ok tt | Some e => Err e end)
      else record_cleanup retries' key operationID resourceIndex attemptID server priorPhase deleteErr
  end.

Definition cleanupComputeAfterFence (key operationID : string) (resourceIndex : Z) (attemptID : string)
    (server : Server) : sdk (result unit) :=
  claim ←! claim_cleanup retry_limit key operationID resourceIndex attemptID server;
  match claim with
  | None => Ret (Ok tt)
  | Some priorPhase =>
      deleted ← Delete (Server.ID server);
      let deleteErr := match deleted with Ok _ => None | Err e => Some e end in
      record_cleanup retry_limit key operationID resourceIndex attemptID server priorPhase deleteErr
  end.

(** ** The boot script and its proof *)
Definition bootScript (spec : Spec) (proofURL : string) : string :=
  quoted "#!/bin/sh~set +e~canter_log=/tmp/canter-bootstrap.log~canter_rc_file=/tmp/canter-bootstrap.rc~(~(~set -eu~" +:+
  ComputeSpec.Bootstrap (compute_of spec) +:+
  quoted ("~)~printf '%s' `$?` > `$canter_rc_file`~) 2>&1 | tee `$canter_log`~" +:+
  "canter_rc=$(cat `$canter_rc_file`)~if [ `$canter_rc` -eq 0 ]; then canter_status=booted; else canter_status=failed; fi~canter_message_b64=$(tail -n 1 `$canter_log` | base64 | tr -d '\n')~") +:+
  quoted "printf '{`sandbox`:`" +:+ sandbox_of spec +:+
  quoted ("`,`status`:`%s`,`exitCode`:%s,`hostname`:`%s`,`messageBase64`:`%s`}' `$canter_status` `$canter_rc` `$(hostname)` `$canter_message_b64` | curl -fsS -X PUT -H 'Content-Type: application/json' --data-binary @- '") +:+
  proofURL +:+ quoted "'~exit `$canter_rc`~".

Definition proof_verdict (proof : BootProof) : result unit :=
  if (BootProof.Status proof != "booted") || (BootProof.ExitCode proof != 0) then
    let message :=
      match base64_decode (BootProof.MessageBase64 proof) with
      | Some decoded => if TrimSpace decoded != EmptyString then TrimSpace decoded else "bootstrap reported failure"
      | None => "bootstrap reported failure"
      end in
    Err (Errorf ("compute bootstrap failed on " +:+ BootProof.Hostname proof +:+ " with exit code " +:+
                 Itoa (BootProof.ExitCode proof) +:+ ": " +:+ message))
  else Ok tt.

Definition waitForProof (key : string) : sdk (result unit) :=
  r ← poll fuel
    (found ← GetOptional KProof key;
     Ret (match found with
          | Err e => Some (Err (Wrapf "read compute boot proof: " e))
          | Ok (Some proof) => Some (proof_verdict proof)
          | Ok None => None
          end))
    (w ← select;
     Ret (match w with
          | WDone e => Some (Err (Wrapf "compute became active but did not write boot proof before deadline: " e))
          | _ => None
          end));
  Ret (from_poll r).

(** ** Reconciling one resource *)
(** How a piece of the loop ends: [return err], or the value it computed. *)
Definition partial (A : Type) : Type := State * (error + A).

Definition escalated {A} (key : string) (state : State) (operationID : string) (cause : error) : sdk (partial A) :=
  '(state, e) ← escalateCreation key state operationID cause;
  Ret (state, inl e).

(** [_ = c.recordCreationFailure(...); return ret]. *)
Definition recorded {A} (key : string) (state : State) (operationID : string) (cause ret : error) : sdk (partial A) :=
  '(state, _) ← recordCreationFailure key state operationID cause false;
  Ret (state, inl ret).

Definition ambiguous (name : string) : string :=
  "compute create for " +:+ name +:+ " remained ambiguous after reconciliation grace".

(** The lookups at the head of an iteration: a server, or none and no doubt. *)
Definition locate (spec : Spec) (key operationID : string) (state : State) (r : ComputeResourceIntent)
    : sdk (partial (option Server)) :=
  let lookup_failed (e : error) : sdk (partial (option Server)) :=
    if IsDuplicateManagedResource e then escalated key state operationID e
    else recorded key state operationID e e in
  let still_ambiguous : sdk (partial (option Server)) :=
    escalated key state operationID (Errorf (ambiguous (ComputeResourceIntent.Name r))) in
  found ← reconcileManagedServer spec operationID r;
  match found with
  | Err e => lookup_failed e
  | Ok (Some server) => Ret (state, inr (Some server))
  | Ok None =>
      match ComputeResourceIntent.Phase r == "creating", ComputeResourceIntent.ReconcileUntil r with
      | true, Some until =>
          t ← now;
          if t <? until then
            found ← waitForManagedServerVisibility spec operationID r until;
            match found with
            | Err e => lookup_failed e
            | Ok None => still_ambiguous
            | Ok (Some server) => Ret (state, inr (Some server))
            end
          else
            t ← now;
            if negb (t <? until) then still_ambiguous else Ret (state, inr None)
      | _, _ => Ret (state, inr None)
      end
  end.

Definition server_request (spec : Spec) (operationID proofURL networkID : string) (ci : CreationIntent)
    (r : ComputeResourceIntent) : ManagedServerRequest :=
  ManagedServerRequest.mk (ComputeResourceIntent.Name r) (sandbox_of spec) operationID
    (CreationIntent.ShapeID ci) (CreationIntent.ImageID ci) networkID (bootScript spec proofURL).

(** After [CreateManaged]: which server exists now. *)
Definition confirm_create (spec : Spec) (key operationID : string) (state : State) (r : ComputeResourceIntent)
    (until : Z) (created : result Server) : sdk (partial Server) :=
  let name := ComputeResourceIntent.Name r in
  matches ← FindServers (sandbox_of spec) operationID name;
  match matches with
  | Err lookupErr =>
      Ret (state, match created with
                  | Err createErr => inl (Wrapf ("create compute failed (" +:+ Error createErr +:+
                                                 ") and reconciliation failed: ") lookupErr)
                  | Ok server =>
                      if Server.ID server == EmptyString
                      then inl (Wrapf ("reconcile created compute " +:+ name +:+
                                       " failed and provider returned no resource: ") lookupErr)
                      else inr server
                  end)
  | Ok [] =>
      match created with
      | Err createErr =>
          found ← waitForManagedServerVisibility spec operationID r until;
          match found with
          | Err e => if IsDuplicateManagedResource e then escalated key state operationID e else Ret (state, inl e)
          | Ok None => escalated key state operationID (Wrapf (ambiguous name +:+ ": ") createErr)
          | Ok (Some server) => Ret (state, inr server)
          end
      | Ok server =>
          Ret (state, if Server.ID server == EmptyString
                      then inl (Errorf "provider returned an empty compute resource") else inr server)
      end
  | Ok [server] => Ret (state, inr server)
  | Ok l => escalated key state operationID (duplicate_compute name (Z.of_nat (length l)))
  end.

(** [persistResourceAttachment], and the cleanup when it is refused. *)
Definition attach_or_cleanup (key operationID : string) (index : Z) (state : State) (r : ComputeResourceIntent)
    (server : Server) (what : string) : sdk (partial unit) :=
  attached ← persistResourceAttachment key operationID index (ComputeResourceIntent.AttemptID r) server;
  match attached with
  | Ok next => Ret (next, inr tt)
  | Err e =>
      cleaned ← cleanupComputeAfterFence key operationID index (ComputeResourceIntent.AttemptID r) server;
      Ret (state, inl (match cleaned with
                       | Ok _ => e
                       | Err cleanupErr =>
                           Wrapf (Error e +:+ "; cleanup " +:+ what +:+ " compute " +:+ Server.ID server +:+ ": ")
                             cleanupErr
                       end))
  end.

Definition resource_at (state : State) (index : Z) : option (CreationIntent * ComputeResourceIntent) :=
  ci ← State.CreationIntent_ state;
  r ← CreationIntent.Resources ci !! Z.to_nat index;
  Some (ci, r).

(** Acquire an attempt, create the server, confirm it and record it. *)
Definition create_resource (spec : Spec) (key operationID : string) (index : Z) (state : State)
    (r : ComputeResourceIntent) : sdk (partial Server) :=
  presigned ← (call (M1PresignPut (ComputeResourceIntent.ProofKey r) (15 * Minute)) : sdk (result string));
  match presigned with
  | Err e => Ret (state, inl (Wrapf "create m1 proof URL: " e))
  | Ok proofURL =>
      acquired ← acquireResourceCreateAttempt key state index;
      match acquired with
      | Err e => Ret (state, inl e)
      | Ok state =>
          match resource_at state index with
          | None => Ret (state, inl (Panic "index out of range"))
          | Some (ci, r) =>
              match go_index (CreationIntent.NetworkIDs ci) (ComputeResourceIntent.NetworkIndex r),
                    ComputeResourceIntent.ReconcileUntil r with
              | Some networkID, Some until =>
                  created ← (call (CreateManaged (server_request spec operationID proofURL networkID ci r))
                               : sdk (result Server));
                  '(state, confirmed) ← confirm_create spec key operationID state r until created;
                  match confirmed with
                  | inl e => Ret (state, inl e)
                  | inr server =>
                      '(state, attached) ← attach_or_cleanup key operationID index state r server "unrecorded";
                      Ret (state, match attached with inl e => inl e | inr _ => inr server end)
                  end
              | _, _ => Ret (state, inl (Panic "index out of range"))
              end
          end
      end
  end.

(** One iteration of the loop over networks: [inr true] is [break]. *)
Definition reconcile_network (spec : Spec) (key operationID : string) (index : Z) (state : State)
    (r : ComputeResourceIntent) : sdk (partial bool) :=
  '(state, located) ← locate spec key operationID state r;
  match located with
  | inl e => Ret (state, inl e)
  | inr found =>
      '(state, present) ←
        match found with
        | None => create_resource spec key operationID index state r
        | Some server =>
            if ComputeResourceIntent.Phase r == "creating" then
              '(state, attached) ← attach_or_cleanup key operationID index state r server "stale";
              Ret (state, match attached with inl e => inl e | inr _ => inr server end)
            else Ret (state, inr server)
        end;
      match present with
      | inl e => Ret (state, inl e)
      | inr server =>
          match resource_at state index with
          | None => Ret (state, inl (Panic "index out of range"))
          | Some (_, r) =>
              let attempt := ComputeResourceIntent.AttemptID r in
              active ← (call (WaitActive (Server.ID server)) : sdk (result Server));
              match active with
              | Ok active =>
                  persisted ← persistResourceActive key operationID index attempt active;
                  match persisted with
                  | Ok next => Ret (next, inr true)
                  | Err e =>
                      if isLifecycleFenceError e then
                        cleaned ← cleanupComputeAfterFence key operationID index attempt active;
                        Ret (state, inl (match cleaned with
                                         | Ok _ => e
                                         | Err cleanupErr =>
                                             Wrapf (Error e +:+ "; cleanup late active compute " +:+
                                                    Server.ID server +:+ ": ") cleanupErr
                                         end))
                      else Ret (state, inl e)
                  end
              | Err waitErr =>
                  if negb (IsNetworkExhausted waitErr)
                  then recorded key state operationID waitErr
                         (Wrapf ("wait for compute " +:+ Server.ID server +:+ ": ") waitErr)
                  else
                    deleted ← Delete (Server.ID server);
                    match deleted with
                    | Err e =>
                        Ret (state, inl (Wrapf ("network allocation failed and cleanup of compute " +:+
                                                Server.ID server +:+ " also failed: ") e))
                    | Ok _ =>
                        next ← persistExhaustedNetwork key operationID index attempt (Server.ID server);
                        Ret (match next with Ok next => (next, inr false) | Err e => (state, inl e) end)
                    end
              end
          end
      end
  end.

Fixpoint reconcile_networks (n : nat) (spec : Spec) (key operationID : string) (index : Z) (state : State)
    : sdk (partial unit) :=
  match resource_at state index with
  | None => Ret (state, inl (Panic "index out of range"))
  | Some (ci, r) =>
      if ComputeResourceIntent.NetworkIndex r <? Z.of_nat (length (CreationIntent.NetworkIDs ci)) then
        match n with
        | O => Ret (state, inl OutOfFuel)
        | S n' =>
            '(state, step) ← reconcile_network spec key operationID index state r;
            match step with
            | inl e => Ret (state, inl e)
            | inr true => Ret (state, inr tt)
            | inr false => reconcile_networks n' spec key operationID index state
            end
        end
      else Ret (state, inr tt)
  end.

Definition reconcile_resource (spec : Spec) (key operationID : string) (state : State) (index : Z)
    : sdk (partial unit) :=
  match resource_at state index with
  | None => Ret (state, inl (Panic "index out of range"))
  | Some (_, r) =>
      if ComputeResourceIntent.Phase r == "ready" then Ret (state, inr tt) else
      '(state, networks) ← reconcile_networks fuel spec key operationID index state;
      match networks, resource_at state index with
      | inl e, _ => Ret (state, inl e)
      | inr _, None => Ret (state, inl (Panic "index out of range"))
      | inr _, Some (_, r) =>
          if ComputeResourceIntent.Phase r != "active"
          then Ret (state, inl (Errorf "all eligible compute networks exhausted their address capacity"))
          else
            proof ← waitForProof (ComputeResourceIntent.ProofKey r);
            match proof with
            | Err e =>
                '(state, persistErr) ← recordCreationFailure key state operationID e (negb (isContextError e));
                Ret (state, inl (match persistErr with
                                 | Some pe => Wrapf (Error e +:+ "; persist interrupted creation: ") pe
                                 | None => e
                                 end))
            | Ok _ =>
                ready ← persistResourceReady key operationID index (ComputeResourceIntent.AttemptID r);
                Ret (match ready with Ok next => (next, inr tt) | Err e => (state, inl e) end)
            end
      end
  end.

Fixpoint reconcile_resources (indices : list Z) (spec : Spec) (key operationID : string) (state : State)
    : sdk (partial unit) :=
  match indices with
  | [] =>
      ready ← persistCreationReady key operationID;
      Ret (match ready with Ok next => (next, inr tt) | Err e => (state, inl e) end)
  | index :: rest =>
      '(state, step) ← reconcile_resource spec key operationID state index;
      match step with
      | inl e => Ret (state, inl e)
      | inr _ => reconcile_resources rest spec key operationID state
      end
  end.

Definition reconcileCreation (spec : Spec) (key : string) (state : State) : sdk (partial unit) :=
  match State.CreationIntent_ state with
  | None => Ret (state, inl (Panic "nil pointer dereference"))
  | Some ci =>
      reconcile_resources (seqZ 0 (Z.of_nat (length (CreationIntent.Resources ci)))) spec key
        (CreationIntent.OperationID ci) state
  end.

(** ** Apply and Status *)
(** Results returned together with an error are kept with it. *)
Definition Client_Apply (spec : Spec) : sdk (option ApplyResult * option error) :=
  let fail e := Ret (None, Some e) in
  started ← now;
  match Spec_Validate spec with
  | Err e => fail e
  | Ok _ =>
      let key := stateKey spec in
      read ← GetJSONVersion KState key;
      match read with
      | Err e => fail (Wrapf "read existing sandbox state: " e)
      | Ok read =>
          let prior_phase := match read with Some (prior, _) => State.Phase prior | None => EmptyString end in
          if match read with Some (prior, _) => State.Sandbox prior != sandbox_of spec | None => false end
          then fail (Errorf "sandbox state does not belong to requested sandbox")
          else if bool_decide (is_Some read) && (prior_phase != "destroyed") && (prior_phase != "creating")
          then fail (Errorf ("sandbox " +:+ Quote (sandbox_of spec) +:+ " already has live state in phase " +:+
                             prior_phase +:+ "; inspect it with canter status"))
          else
            plan ← Client_Plan spec;
            match plan with
            | Err e => fail e
            | Ok plan =>
                start ←
                  match read with
                  | None => createIntent spec key false EmptyString
                  | Some (prior, etag) =>
                      if State.Phase prior == "destroyed" then createIntent spec key true etag
                      else lift (validateCreationIntent spec prior;; Ok prior)
                  end;
                match start with
                | Err e => fail e
                | Ok state =>
                    '(state, outcome) ← reconcileCreation spec key state;
                    let opID := default EmptyString (op_of state) in
                    match outcome with
                    | inl e =>
                        t ← now;
                        Ret (Some (ApplyResult.mk opID plan state EmptyString (since_ms started t)), Some e)
                    | inr _ =>
                        let receiptKey := base (spec_prefix spec) +:+ "/receipts/" +:+ opID +:+ ".json" in
                        t ← now;
                        let res := ApplyResult.mk opID plan state receiptKey (since_ms started t) in
                        written ← PutJSON KApplyResult receiptKey res;
                        match written with
                        | Err e => fail e
                        | Ok _ => Ret (Some res, None)
                        end
                    end
                end
            end
      end
  end.

Fixpoint refresh_resources (l : list Resource) : sdk (result (list Resource)) :=
  match l with
  | [] => Ret (Ok [])
  | r :: l' =>
      r ←! (if Resource.Status r == "DELETED" then Ret (Ok r)
            else server ←! InspectServer (Resource.ID r);
                 Ret (Ok (Resource.with_Address (IPv4 server) (Resource.with_Status (Server.Status server) r))));
      l' ←! refresh_resources l';
      Ret (Ok (r :: l'))
  end.

Definition Client_Status (spec : Spec) : sdk (option State * option error) :=
  let fail e := Ret (None, Some e) in
  match Spec_Validate spec with
  | Err e => fail e
  | Ok _ =>
      read ← Get KState (stateKey spec);
      match read with
      | Err e => fail e
      | Ok state =>
          if State.Sandbox state != sandbox_of spec
          then fail (Errorf "sandbox state does not belong to requested sandbox")
          else if State.Phase state == "destroyed" then Ret (Some state, None)
          else if State.Phase state == "cleanup"
          then Ret (Some state, Some (Errorf "sandbox cleanup is already in progress"))
          else
            resources ← refresh_resources (State.Resources state);
            match resources with
            | Err e => fail e
            | Ok resources => Ret (Some (State.with_Resources resources state), None)
            end
      end
  end.

End Creation.
