(* ===== verification/Destruction.v ===== *)
(** * Destroying a sandbox (sdk/client.go: Destroy)

    [Destroy] fences the document with the phase [destroying], deletes every
    server and network policy the sandbox owns, records each deletion, and ends
    with the phase [destroyed]; what it cannot decide it escalates.

    [visit] is the order in which a [range] over a Go map visits its entries. *)

From S2P Require Import Prelude Effects GoStrings Documents SandboxSpec Calls Lifecycle Creation.

Section Destruction.
Context `{Unicode}.
Context (visit : forall A, list A -> list A).

(** [State{}]. *)
Definition zero_state : State :=
  State.mk EmptyString EmptyString EmptyString EmptyString [] [] [] zero_time None EmptyString [] None None.

(** ** The fence *)
Definition creation_op (s : State) : string :=
  match State.CreationIntent_ s with Some ci => CreationIntent.OperationID ci | None => EmptyString end.
Definition exposure_op (s : State) : string :=
  match State.ExposureIntent_ s with Some ei => ExposureIntent.OperationID ei | None => EmptyString end.
Definition exposure_unresolved (ei : ExposureIntent) : bool :=
  ExposureIntent.MutationUnresolved ei || in_phases (ExposureIntent.Phase ei) ["creating"; "destroying"; "cleaning"].

(** [set_intents ci_phase ei_phase]: the phases of the intents that exist. *)
Definition set_creation_phase (phase : string) (s : State) : State :=
  State.with_CreationIntent_ (CreationIntent.with_Phase phase <$> State.CreationIntent_ s) s.
Definition set_exposure (f : ExposureIntent -> ExposureIntent) (s : State) : State :=
  State.with_ExposureIntent_ (f <$> State.ExposureIntent_ s) s.

Definition destroying_state (s : State) : State :=
  set_exposure (fun ei => ExposureIntent.with_MutationUnresolved (exposure_unresolved ei)
                            (ExposureIntent.with_Phase "destroying" ei))
    (set_creation_phase "destroying" (State.with_Failure EmptyString (State.with_Phase "destroying" s))).

(** ** Transitions *)
Definition destroy_escalated (cause : error) (s : State) : State :=
  set_exposure (ExposureIntent.with_Phase "escalated")
    (set_creation_phase "escalated" (State.with_Failure (Error cause) (State.with_Phase "escalated" s))).

Definition resource_destroyed (index : Z) (name : string) (s : State) : result State :=
  match State.CreationIntent_ s with
  | None => Err (Panic "nil pointer dereference")
  | Some ci =>
      match CreationIntent.Resources ci !! Z.to_nat index with
      | None => Err (LifecycleFenceError "creation resources changed during destroy")
      | Some r =>
          Ok (State.with_Resources
                ((fun x => if Resource.Name x == name then Resource.with_Status "DELETED" x else x) <$> State.Resources s)
                (set_resource index (ComputeResourceIntent.with_Phase "destroyed" r) ci s))
      end
  end.

Definition policy_removed (id : string) (s : State) : State :=
  State.with_NetworkPolicies (List.filter (fun p => NetworkPolicy.ID p != id) (State.NetworkPolicies s)) s.

Definition exposure_closed (ei : ExposureIntent) : ExposureIntent :=
  ExposureIntent.with_MutationUnresolved false (ExposureIntent.with_Phase "destroyed" ei).

Definition exposure_destroyed (s : State) : result State :=
  match State.ExposureIntent_ s with
  | None => Err (Panic "nil pointer dereference")
  | Some _ => Ok (set_exposure exposure_closed s)
  end.

Definition all_destroyed (t : Z) (s : State) : State :=
  set_exposure exposure_closed
    (set_creation_phase "destroyed"
       (State.with_Failure EmptyString (State.with_DestroyedAt (Some t) (State.with_Phase "destroyed" s)))).

(** ** What belongs to the sandbox *)
Definition ownedServersForDestroy (spec : Spec) (operationID : string) (intent : ComputeResourceIntent)
    : sdk (result (list Server)) :=
  let name := ComputeResourceIntent.Name intent in
  let id := ComputeResourceIntent.ResourceID intent in
  bind_wrap (FindServers (sandbox_of spec) operationID name)
    (Wrapf ("reconcile compute " +:+ name +:+ " before destroy: ")) (fun matches =>
  let owned := fold_left (fun l server => put_by Server.ID server l) matches [] in
  if id != EmptyString then
    inspected ← InspectServer id;
    match inspected with
    | Ok server =>
        if negb (owns_server (sandbox_of spec) operationID name server)
        then Ret (Err (Errorf ("compute resource " +:+ id +:+ " does not belong to fenced operation " +:+ operationID)))
        else Ret (Ok (visit _ (put_by Server.ID server owned)))
    | Err e =>
        if negb (IsNotFound e) then Ret (Err (Wrapf ("inspect compute " +:+ id +:+ " before destroy: ") e))
        else Ret (Ok (visit _ owned))
    end
  else Ret (Ok (visit _ owned))).

Definition policy_matches (intent : ExposureIntent) (p : NetworkPolicy) : bool :=
  (NetworkPolicy.Name p == ExposureIntent.Name intent) &&
  (NetworkPolicy.Ownership p == ExposureIntent.Ownership intent) &&
  (NetworkPolicy.Protocol p == ExposureIntent.Protocol intent) &&
  (NetworkPolicy.Port p == ExposureIntent.Port intent).

Definition found_policy (intent : ExposureIntent) (p : SecurityPolicy) : NetworkPolicy :=
  NetworkPolicy.mk (SecurityPolicy.ID p) (SecurityPolicy.PortID p) (SecurityPolicy.RuleID p)
    (ExposureIntent.Name intent) (ExposureIntent.Ownership intent) (ExposureIntent.Protocol intent)
    (SecurityPolicy.Port p).

(** The network policies to delete, or the cause to escalate with. *)
Definition policies_to_delete (state : State) : sdk (error + list NetworkPolicy) :=
  match State.ExposureIntent_ state with
  | None =>
      Ret (match State.NetworkPolicies state with
           | [] => inr []
           | _ => inl (Errorf "cannot safely destroy network policies without a durable exposure operation")
           end)
  | Some intent =>
      let recorded := fold_left (fun l p => put_by NetworkPolicy.ID p l)
                        (List.filter (policy_matches intent) (State.NetworkPolicies state)) [] in
      let request := ManagedTCPExposureRequest.mk (ExposureIntent.ServerID intent) (ExposureIntent.Name intent)
                       (ExposureIntent.Ownership intent) (ExposureIntent.Port intent) in
      found ← (call (FindManagedTCPExposure request) : sdk (result (option SecurityPolicy)));
      Ret (match found with
           | Err e => inl (Wrapf "reconcile public endpoint before destroy: " e)
           | Ok (Some policy) => inr (put_by NetworkPolicy.ID (found_policy intent policy) recorded)
           | Ok None =>
               if ExposureIntent.MutationUnresolved intent && (length recorded == 0%nat)
               then inl (Errorf ("public endpoint operation " +:+ ExposureIntent.OperationID intent +:+
                                 " is still in flight with no visible exact managed policy"))
               else inr recorded
           end)
  end.

(** ** Destroy *)
Section Run.
Context (spec : Spec) (key creationOperationID exposureOperationID : string).

Definition mutate_now (f : State -> result State) : sdk (result State) :=
  mutateDestroyState key creationOperationID exposureOperationID (fun s => lift (f s)).

(** How a piece of [Destroy] ends: [return state, err], or the next state. *)
Definition destroy_escalate (state : State) (cause : error) : sdk (State * option error) :=
  persisted ← mutate_now (fun s => Ok (destroy_escalated cause s));
  Ret (match persisted with
       | Ok next => (next, Some cause)
       | Err e => (state, Some (Wrapf (Error cause +:+ "; persist interrupted destroy: ") e))
       end).

Fixpoint delete_servers (l : list Server) : sdk (result unit) :=
  match l with
  | [] => Ret (Ok tt)
  | server :: l' =>
      bind_wrap (Delete (Server.ID server)) (Wrapf ("delete compute " +:+ Server.ID server +:+ ": ")) (fun _ =>
      delete_servers l')
  end.

Definition destroy_resource (state : State) (index : Z) : sdk (State * option error) :=
  match resource_at state index with
  | None => Ret (state, Some (Panic "index out of range"))
  | Some (_, r) =>
      let name := ComputeResourceIntent.Name r in
      servers ← ownedServersForDestroy spec creationOperationID r;
      match servers with
      | Err e => destroy_escalate state e
      | Ok servers =>
          if (ComputeResourceIntent.Phase r != "destroyed") && (length servers == 0%nat) &&
             ((ComputeResourceIntent.Phase r == "creating") || (ComputeResourceIntent.ResourceID r != EmptyString))
          then destroy_escalate state (Errorf ("compute resource " +:+ name +:+
                                               " is unresolved with no visible exact managed resource"))
          else
            deleted ← delete_servers servers;
            match deleted with
            | Err e => destroy_escalate state e
            | Ok _ =>
                persisted ← mutate_now (resource_destroyed index name);
                Ret (match persisted with
                     | Ok next => (next, None)
                     | Err e => (state, Some (Wrapf ("persist deleted compute " +:+ name +:+ ": ") e))
                     end)
            end
      end
  end.

Fixpoint destroy_resources (indices : list Z) (state : State) : sdk (State * option error) :=
  match indices with
  | [] => Ret (state, None)
  | index :: rest =>
      '(state, err) ← destroy_resource state index;
      match err with
      | Some e => Ret (state, Some e)
      | None => destroy_resources rest state
      end
  end.

Fixpoint destroy_policies (l : list NetworkPolicy) (state : State) : sdk (State * option error) :=
  match l with
  | [] => Ret (state, None)
  | policy :: l' =>
      let id := NetworkPolicy.ID policy in
      deleted ← (call (DeleteSecurityPolicy id) : sdk (result unit));
      match deleted with
      | Err e => destroy_escalate state (Wrapf ("delete network policy " +:+ id +:+ ": ") e)
      | Ok _ =>
          persisted ← mutate_now (fun s => Ok (policy_removed id s));
          match persisted with
          | Err e => Ret (state, Some (Wrapf ("persist deleted network policy " +:+ id +:+ ": ") e))
          | Ok next => destroy_policies l' next
          end
      end
  end.

Definition destroy_exposure (state : State) : sdk (State * option error) :=
  match State.ExposureIntent_ state with
  | Some ei =>
      if ExposureIntent.Phase ei != "destroyed" then
        persisted ← mutate_now exposure_destroyed;
        Ret (match persisted with
             | Ok next => (next, None)
             | Err e => (state, Some (Wrapf "persist deleted public endpoint: " e))
             end)
      else Ret (state, None)
  | None => Ret (state, None)
  end.

Definition finish_destroy (state : State) : sdk (State * option error) :=
  persisted ← mutateDestroyState key creationOperationID exposureOperationID
                (fun s => t ← now; Ret (Ok (all_destroyed t s)));
  match persisted with
  | Err e => Ret (state, Some e)
  | Ok state =>
      id ← newID;
      written ← PutJSON KState (base (spec_prefix spec) +:+ "/receipts/destroy-" +:+ id +:+ ".json") state;
      Ret (match written with Ok _ => (state, None) | Err e => (zero_state, Some e) end)
  end.

(** [if err != nil { return state, err }; k(state)]. *)
Definition and_then (p : sdk (State * option error)) (k : State -> sdk (State * option error))
    : sdk (State * option error) :=
  '(state, err) ← p;
  match err with Some e => Ret (state, Some e) | None => k state end.

Definition destroy_fenced (state : State) : sdk (State * option error) :=
  match State.CreationIntent_ state, State.Resources state with
  | None, _ :: _ =>
      destroy_escalate state
        (Errorf "cannot safely destroy compute resources without a durable creation operation")
  | ci, _ =>
      policies ← policies_to_delete state;
      match policies with
      | inl cause => destroy_escalate state cause
      | inr policies =>
          let count := match ci with Some ci => length (CreationIntent.Resources ci) | None => 0%nat end in
          and_then (destroy_resources (seqZ 0 (Z.of_nat count)) state) (fun state =>
          and_then (destroy_policies (visit _ policies) state) (fun state =>
          and_then (destroy_exposure state) finish_destroy))
      end
  end.
End Run.

Definition Client_Destroy (spec : Spec) : sdk (option State * option error) :=
  let fail e := Ret (None, Some e) in
  let key := stateKey spec in
  match Spec_Validate spec with
  | Err e => fail e
  | Ok _ =>
      read ← GetJSONVersion KState key;
      match read with
      | Err e => fail e
      | Ok None => fail (Errorf "sandbox state is missing")
      | Ok (Some (state, etag)) =>
          if State.Sandbox state != sandbox_of spec
          then fail (Errorf "sandbox state does not belong to requested sandbox")
          else if State.Phase state == "destroyed" then Ret (Some state, None)
          else
            fenced ←
              if State.Phase state != "destroying" then
                bind_wrap (PutJSONIfMatch KState key etag (destroying_state state))
                  (Wrapf "record destroying state: ") (fun '(_, written) =>
                if (written : bool) then Ret (Ok (destroying_state state))
                else Ret (Err (Errorf "sandbox lifecycle changed before destroy could acquire its fence")))
              else Ret (Ok state);
            match fenced with
            | Err e => fail e
            | Ok state =>
                '(state, err) ← destroy_fenced spec key (creation_op state) (exposure_op state) state;
                Ret (Some state, err)
            end
      end
  end.

End Destruction.
