(* ===== verification/Exposure.v ===== *)
(** * Public endpoints of a host (sdk/release.go)

    [exposeSpecTCP] gives the one host of a ready sandbox a named and owned
    network policy.  The exposure intent is durable before the provider is
    asked; a response lost after that is never retried blindly but looked up,
    and escalated when it stays ambiguous. *)

From S2P Require Import Prelude Effects GoStrings Digest Documents SandboxSpec Calls Systems Lifecycle Creation Destruction.

Section Exposure.
Context `{Unicode}.

(** ** mutateExposureState *)
Definition exposure_fence (operationID rest : string) : error :=
  LifecycleFenceError ("public endpoint operation " +:+ operationID +:+ rest).

Definition exposure_target (operationID : string) (read : option (State * string))
    : result (State * ExposureIntent * string) :=
  match read with
  | Some (current, etag) =>
      match State.ExposureIntent_ current with
      | Some ei =>
          reject_if ((ExposureIntent.OperationID ei != operationID) ||
                     (State.Phase current == "destroying") || (State.Phase current == "destroyed") ||
                     (ExposureIntent.Phase ei == "destroying") || (ExposureIntent.Phase ei == "destroyed"))
            (exposure_fence operationID " lost its lifecycle fence");;
          Ok (current, ei, etag)
      | None => Err (exposure_fence operationID " lost its lifecycle fence")
      end
  | None => Err (exposure_fence operationID " lost its lifecycle fence")
  end.

Fixpoint mutate_exposure (retries : nat) (key operationID : string)
    (mutate : State -> ExposureIntent -> result (option State)) : sdk (result State) :=
  match retries with
  | O => Ret (Err (Errorf ("public endpoint operation " +:+ operationID +:+
                           " state changed continuously during transition")))
  | S retries' =>
      read ←! GetJSONVersion KState key;
      '(current, ei, etag) ←! lift (exposure_target operationID read);
      next ←! lift (mutate current ei);
      match next with
      | None => Ret (Ok current)
      | Some next =>
          '(_, written) ←! PutJSONIfMatch KState key etag next;
          if (written : bool) then Ret (Ok next) else mutate_exposure retries' key operationID mutate
      end
  end.
Definition mutateExposureState := mutate_exposure retry_limit.

(** ** Transitions *)
Definition ready_intent (ei : ExposureIntent) : ExposureIntent :=
  ExposureIntent.with_MutationUnresolved false (ExposureIntent.with_Phase "ready" ei).

Definition complete (operationID : string) (policy : SecurityPolicy) (recoverEscalated : bool)
    (current : State) (ei : ExposureIntent) : result (option State) :=
  let mapped := NetworkPolicy.mk (SecurityPolicy.ID policy) (SecurityPolicy.PortID policy)
                  (SecurityPolicy.RuleID policy) (ExposureIntent.Name ei) (ExposureIntent.Ownership ei) "tcp"
                  (SecurityPolicy.Port policy) in
  let phase := ExposureIntent.Phase ei in
  let recovering := recoverEscalated && (State.Phase current == "escalated") && (phase == "escalated") &&
                    ExposureIntent.MutationUnresolved ei in
  reject_if ((negb recovering && (State.Phase current != "ready")) ||
             (negb recovering && (phase != "creating") && (phase != "ready")))
    (exposure_fence operationID (" cannot complete in phase " +:+ State.Phase current));;
  let next := State.with_Failure EmptyString (State.with_ExposureIntent_ (Some (ready_intent ei)) current) in
  if existsb (fun p => NetworkPolicy.ID p == NetworkPolicy.ID mapped) (State.NetworkPolicies current) then
    Ok (if phase == "ready" then None else Some next)
  else
    Ok (Some (State.with_Phase "ready"
                (State.with_NetworkPolicies (State.NetworkPolicies current ++ [mapped]) next))).

Definition exposure_failure (operationID : string) (cause : error) (current : State) (ei : ExposureIntent)
    : result (option State) :=
  reject_if ((State.Phase current != "ready") || (ExposureIntent.Phase ei != "creating"))
    (exposure_fence operationID " cannot record failure");;
  Ok (Some (State.with_Failure (Error cause) current)).

Definition exposure_escalated (operationID : string) (cause : error) (current : State) (ei : ExposureIntent)
    : result (option State) :=
  if (State.Phase current == "escalated") && (ExposureIntent.Phase ei == "escalated") then Ok None
  else
    reject_if ((State.Phase current != "ready") || (ExposureIntent.Phase ei != "creating"))
      (exposure_fence operationID " cannot escalate");;
    Ok (Some (State.with_Failure (Error cause) (State.with_Phase "escalated"
                (State.with_ExposureIntent_ (Some (ExposureIntent.with_Phase "escalated" ei)) current)))).

(** ** Cleaning up a policy whose record was fenced off *)
Definition exposure_cleanup_target (operationID : string) (read : option (State * string)) : option (State * string) :=
  match read with
  | Some (current, etag) =>
      match State.ExposureIntent_ current with
      | Some ei =>
          if (ExposureIntent.OperationID ei != operationID) || negb (ExposureIntent.MutationUnresolved ei) ||
             (ExposureIntent.Phase ei == "destroyed") || (State.Phase current != "escalated")
          then None
          else Some (State.with_Phase "cleanup"
                       (State.with_ExposureIntent_ (Some (ExposureIntent.with_Phase "cleaning" ei)) current), etag)
      | None => None
      end
  | None => None
  end.

(** [false]: nothing to clean. *)
Fixpoint claim_exposure_cleanup (retries : nat) (key operationID : string) : sdk (result bool) :=
  match retries with
  | O => Ret (Err (Errorf "public endpoint cleanup could not acquire its lifecycle fence"))
  | S retries' =>
      read ←! GetJSONVersion KState key;
      match exposure_cleanup_target operationID read with
      | None => Ret (Ok false)
      | Some (next, etag) =>
          '(_, written) ←! PutJSONIfMatch KState key etag next;
          if (written : bool) then Ret (Ok true) else claim_exposure_cleanup retries' key operationID
      end
  end.

Definition removeNetworkPolicy (policies : list NetworkPolicy) (id : string) : list NetworkPolicy :=
  List.filter (fun p => NetworkPolicy.ID p != id) policies.

Definition exposure_cleaned (operationID policyID : string) (deleteErr : option error)
    (read : option (State * string)) : result (State * string) :=
  let lost := LifecycleFenceError "public endpoint cleanup lost its lifecycle fence" in
  match read with
  | Some (current, etag) =>
      match State.ExposureIntent_ current with
      | Some ei =>
          reject_if ((State.Phase current != "cleanup") || (ExposureIntent.OperationID ei != operationID) ||
                     (ExposureIntent.Phase ei != "cleaning")) lost;;
          let ei' := match deleteErr with
                     | None => exposure_closed ei
                     | Some _ => ExposureIntent.with_MutationUnresolved true (ExposureIntent.with_Phase "escalated" ei)
                     end in
          let next := State.with_NetworkPolicies (removeNetworkPolicy (State.NetworkPolicies current) policyID)
                        (State.with_ExposureIntent_ (Some ei') (State.with_Phase "escalated" current)) in
          Ok (match deleteErr with
              | None => next
              | Some e => State.with_Failure
                            ("cleanup stale network policy " +:+ policyID +:+ ": " +:+ Error e) next
              end, etag)
      | None => Err lost
      end
  | None => Err lost
  end.

Fixpoint record_exposure_cleanup (retries : nat) (key operationID policyID : string) (deleteErr : option error)
    : sdk (result unit) :=
  match retries with
  | O => Ret (Err (Errorf "public endpoint cleanup state changed continuously"))
  | S retries' =>
      read ←! GetJSONVersion KState key;
      '(next, etag) ←! lift (exposure_cleaned operationID policyID deleteErr read);
      '(_, written) ←! PutJSONIfMatch KState key etag next;
      if (written : bool) then Ret (match deleteErr with None => Ok tt | Some e => Err e end)
      else record_exposure_cleanup retries' key operationID policyID deleteErr
  end.

Definition cleanupExposureAfterFence (key operationID policyID : string) : sdk (result unit) :=
  claimed ←! claim_exposure_cleanup retry_limit key operationID;
  if (claimed : bool) then
    deleted ← (call (DeleteSecurityPolicy policyID) : sdk (result unit));
    let deleteErr := match deleted with Ok _ => None | Err e => Some e end in
    record_exposure_cleanup retry_limit key operationID policyID deleteErr
  else Ret (Ok tt).

(** ** Ending an exposure

    [result *ApplyResult] is passed along: each function returns it with its
    error. *)
Definition exposed : Type := ApplyResult * option error.

Definition completeExposureMode (key : string) (res : ApplyResult) (operationID : string) (policy : SecurityPolicy)
    (recoverEscalated : bool) : sdk exposed :=
  persisted ← mutateExposureState key operationID (complete operationID policy recoverEscalated);
  match persisted with
  | Err e =>
      if isLifecycleFenceError e && (SecurityPolicy.ID policy != EmptyString) then
        cleaned ← cleanupExposureAfterFence key operationID (SecurityPolicy.ID policy);
        Ret (res, Some (match cleaned with
                        | Ok _ => e
                        | Err cleanupErr =>
                            Wrapf (Error e +:+ "; cleanup stale network policy " +:+ SecurityPolicy.ID policy +:+ ": ")
                              cleanupErr
                        end))
      else Ret (res, Some e)
  | Ok state =>
      let res := ApplyResult.with_State_ state res in
      if ApplyResult.ReceiptKey res != EmptyString then
        written ← PutJSON KApplyResult (ApplyResult.ReceiptKey res) res;
        Ret (res, match written with Ok _ => None | Err e => Some e end)
      else Ret (res, None)
  end.
Definition completeExposure (key : string) (res : ApplyResult) (operationID : string) (policy : SecurityPolicy)
    : sdk exposed := completeExposureMode key res operationID policy false.

Definition recordExposureFailure (key : string) (res : ApplyResult) (operationID : string) (cause : error)
    : sdk exposed :=
  persisted ← mutateExposureState key operationID (exposure_failure operationID cause);
  Ret (match persisted with
       | Ok state => (ApplyResult.with_State_ state res, None)
       | Err e => (res, Some e)
       end).

Definition escalateExposure (key : string) (res : ApplyResult) (operationID : string) (cause : error) : sdk exposed :=
  persisted ← mutateExposureState key operationID (exposure_escalated operationID cause);
  Ret (match persisted with
       | Ok state => (ApplyResult.with_State_ state res, Some cause)
       | Err e => (res, Some (Wrapf (Error cause +:+ "; persist escalated exposure: ") e))
       end).

(** ** exposeSpecTCP *)
Definition requested_intent (operationID serverID name ownership : string) (port t : Z) : ExposureIntent :=
  ExposureIntent.mk operationID serverID name ownership "tcp" port "creating" true t (Some t).

Definition same_exposure (ei : ExposureIntent) (serverID name ownership : string) (port : Z) : bool :=
  (ExposureIntent.ServerID ei == serverID) && (ExposureIntent.Name ei == name) &&
  (ExposureIntent.Ownership ei == ownership) && (ExposureIntent.Protocol ei == "tcp") &&
  (ExposureIntent.Port ei == port).

Definition recorded_policies (s : State) (name ownership : string) (port : Z) : list NetworkPolicy :=
  List.filter (fun p => (NetworkPolicy.Name p == name) && (NetworkPolicy.Ownership p == ownership) &&
                        (NetworkPolicy.Protocol p == "tcp") && (NetworkPolicy.Port p == port))
    (State.NetworkPolicies s).

Definition find_exposure (request : ManagedTCPExposureRequest) : sdk (result (option SecurityPolicy)) :=
  call (FindManagedTCPExposure request).
Definition ensure_exposure (request : ManagedTCPExposureRequest) : sdk (result SecurityPolicy) :=
  call (ExposeManagedTCP request).

(** The intent is durable and no policy is recorded for it yet. *)
Definition resolve_exposure (key : string) (res : ApplyResult) (ei : ExposureIntent)
    (request : ManagedTCPExposureRequest) (createCapable recoverEscalated : bool) : sdk exposed :=
  let operationID := ExposureIntent.OperationID ei in
  if createCapable then
    ensured ← ensure_exposure request;
    match ensured with
    | Ok policy => completeExposure key res operationID policy
    | Err e =>
        if IsDuplicateManagedResource e || IsAmbiguousManagedResource e
        then escalateExposure key res operationID e
        else
          '(res, persistErr) ← recordExposureFailure key res operationID e;
          Ret (res, Some (match persistErr with
                          | Some pe => Wrapf (Error e +:+ "; persist interrupted exposure: ") pe
                          | None => e
                          end))
    end
  else if (ExposureIntent.Phase ei == "escalated") && recoverEscalated then
    found ← find_exposure request;
    match found with
    | Ok (Some policy) => completeExposureMode key res operationID policy true
    | Err e =>
        if IsDuplicateManagedResource e then Ret (res, Some e) else
        ensured ← ensure_exposure request;
        match ensured with
        | Err e => escalateExposure key res operationID e
        | Ok policy => completeExposureMode key res operationID policy true
        end
    | Ok None =>
        ensured ← ensure_exposure request;
        match ensured with
        | Err e => escalateExposure key res operationID e
        | Ok policy => completeExposureMode key res operationID policy true
        end
    end
  else if ExposureIntent.Phase ei != "creating" then
    Ret (res, Some (Errorf ("public endpoint intent is in terminal phase " +:+ ExposureIntent.Phase ei)))
  else
    found ← find_exposure request;
    match found with
    | Err e => escalateExposure key res operationID e
    | Ok None =>
        escalateExposure key res operationID
          (AmbiguousManagedResourceError "network policy" (ManagedTCPExposureRequest.Name request)
             (Errorf "persisted in-flight exposure has no visible exact policy"))
    | Ok (Some policy) => completeExposure key res operationID policy
    end.

Definition continue_exposure (key : string) (res : ApplyResult) (ei : ExposureIntent)
    (serverID name ownership : string) (port : Z) (createCapable recoverEscalated recoverableEscalation : bool)
    : sdk exposed :=
  let operationID := ExposureIntent.OperationID ei in
  match recorded_policies (ApplyResult.State_ res) name ownership port with
  | [] =>
      resolve_exposure key res ei (ManagedTCPExposureRequest.mk serverID name ownership port) createCapable
        recoverEscalated
  | [p] =>
      completeExposureMode key res operationID
        (SecurityPolicy.mk (NetworkPolicy.ID p) (NetworkPolicy.PortID p) (NetworkPolicy.RuleID p)
           (NetworkPolicy.Port p)) recoverableEscalation
  | l =>
      escalateExposure key res operationID
        (DuplicateManagedResourceError "network policy state" name (Z.of_nat (length l)))
  end.

Definition exposeSpecTCP (spec : Spec) (res : ApplyResult) (recoverEscalated : bool) (port : Z)
    (name ownership : string) : sdk exposed :=
  let key := stateKey spec in
  read ← GetJSONVersion KState key;
  match read with
  | Err e => Ret (res, Some (Wrapf "read public endpoint intent state: " e))
  | Ok None => Ret (res, Some (Errorf "public endpoint host state is missing"))
  | Ok (Some (current, etag)) =>
      let res := ApplyResult.with_State_ current res in
      let recoverableEscalation :=
        recoverEscalated && (State.Phase current == "escalated") &&
        match State.ExposureIntent_ current with
        | Some ei => (ExposureIntent.Phase ei == "escalated") && ExposureIntent.MutationUnresolved ei
        | None => false
        end in
      match State.Resources current with
      | [host] =>
          if ((State.Phase current != "ready") && negb recoverableEscalation) || (Resource.Status host == "DELETED")
          then Ret (res, Some (Errorf "public endpoint currently requires exactly one host"))
          else
            let serverID := Resource.ID host in
            match State.ExposureIntent_ current with
            | None =>
                t ← now;
                id ← newID;
                let ei := requested_intent ("expose-" +:+ id) serverID name ownership port t in
                let next := State.with_Failure EmptyString (State.with_ExposureIntent_ (Some ei) current) in
                let res := ApplyResult.with_State_ next res in
                written ← PutJSONIfMatch KState key etag next;
                match written with
                | Err e => Ret (res, Some (Wrapf "persist public endpoint intent: " e))
                | Ok (_, false) => Ret (res, Some (Errorf "public endpoint intent was concurrently claimed"))
                | Ok (_, true) =>
                    continue_exposure key res ei serverID name ownership port true recoverEscalated
                      recoverableEscalation
                end
            | Some ei =>
                if negb (same_exposure ei serverID name ownership port)
                then escalateExposure key res (ExposureIntent.OperationID ei)
                       (Errorf "durable public endpoint intent does not match the requested exposure")
                else
                  continue_exposure key res ei serverID name ownership port false recoverEscalated
                    recoverableEscalation
            end
      | _ => Ret (res, Some (Errorf "public endpoint currently requires exactly one host"))
      end
  end.

(** ** Endpoints of a System's host *)
Definition systemEndpointPolicyIdentity (s : System) : string * string :=
  let digest := sha256_hex (base (prefix_of s) +:+ bytes [0] +:+ name_of s) in
  let short := if 32 <? slen (name_of s) then take_bytes 32 (name_of s) else name_of s in
  ("canter-" +:+ short +:+ "-" +:+ take_bytes 16 digest, "sha256:" +:+ digest).

Definition exposeSystemHostMode (s : System) (res : ApplyResult) (recoverEscalated : bool) : sdk exposed :=
  match systemPublicPort s with
  | Err e => Ret (res, Some e)
  | Ok port =>
      let '(name, ownership) := systemEndpointPolicyIdentity s in
      exposeSpecTCP (SystemHostSpec s "true") res recoverEscalated port name ownership
  end.
Definition exposeSystemHost (s : System) (res : ApplyResult) : sdk exposed := exposeSystemHostMode s res false.

Definition SystemHostStatus (s : System) : sdk (option State * option error) := Client_Status (SystemHostSpec s "true").

Definition empty_result (state : State) : ApplyResult :=
  ApplyResult.mk EmptyString (Plan.mk EmptyString EmptyString [] EmptyString 0) state EmptyString 0.

Definition ExposeSystemHost (s : System) : sdk (result State) :=
  '(state, err) ← SystemHostStatus s;
  match state, err with
  | Some state, None =>
      '(res, err) ← exposeSystemHost s (empty_result state);
      Ret (match err with Some e => Err e | None => Ok (ApplyResult.State_ res) end)
  | _, Some e => Ret (Err e)
  | None, None => Ret (Err (Panic "no state"))
  end.

(** [State{}, err] on failure. *)
Definition RecoverSystemHostExposure (s : System) : sdk (result State) :=
  '(state, err) ← SystemHostStatus s;
  match state, err with
  | Some state, None =>
      '(res, err) ← exposeSystemHostMode s (empty_result state) true;
      Ret (match err with Some e => Err e | None => Ok (ApplyResult.State_ res) end)
  | _, Some e => Ret (Err e)
  | None, None => Ret (Err (Panic "no state"))
  end.

End Exposure.
