(* ===== verification/Releases.v ===== *)
(** * Releases (sdk/release.go, sdk/node_gateway.go)

    Content-addressed artifacts, release manifests, desired state, and the
    documents exchanged with a node.  A release's version is a prefix of its
    artifact's digest; [persistReleaseManifest] keeps two digests with the same
    prefix apart. *)

From S2P Require Import Prelude Effects GoStrings Digest Documents Json SandboxSpec Calls Systems Lifecycle Creation.
From S2P Require Import Destruction Exposure.

(** ** Package path/filepath *)
Fixpoint last_element (s : string) : string :=
  match s with
  | EmptyString => EmptyString
  | String c s' => if contains_byte s "/"%char then last_element s' else s
  end.
Definition Base (path : string) : string :=
  if path == EmptyString then "."
  else match TrimRight path "/"%char with
       | EmptyString => "/"
       | p => last_element p
       end.
(** From the last dot of the last element. *)
Fixpoint Ext (path : string) : string :=
  match path with
  | EmptyString => EmptyString
  | String c s' =>
      if (c == "."%char) && negb (contains_byte s' "/"%char) && negb (contains_byte s' "."%char) then path else Ext s'
  end.

(** ** Quoting (renderNodeBootstrap) *)
Definition single_quote : string := "'".
Definition shellQuote (value : string) : string :=
  single_quote +:+ ReplaceAll value "'"%char "'\''" +:+ single_quote.

Definition double_quote : string := String quote_char EmptyString.
Definition systemdQuoteArg (value : string) : result string :=
  if (value == EmptyString) || ContainsAny value [chr 0; chr 13; chr 10]
  then Err (Errorf "systemd argument contains control characters")
  else
    let value := ReplaceAll value (chr 92) (bytes [92; 92]) in
    let value := ReplaceAll value quote_char (bytes [92; 34]) in
    let value := ReplaceAll value "%"%char "%%" in
    Ok (double_quote +:+ value +:+ double_quote).

(** [url.PathEscape]. *)
Definition upper_hex (n : Z) : ascii := if n <? 10 then chr (48 + n) else chr (55 + n).
Definition path_byte (c : ascii) : string :=
  if is_alnum c || existsb (fun d => c == d) ["-"; "_"; "."; "~"; "$"; "&"; "+"; ":"; "="; "@"]%char
  then String c EmptyString
  else String "%" (String (upper_hex (byte_of c / 16)) (String (upper_hex (byte_of c mod 16)) EmptyString)).
Fixpoint PathEscape (s : string) : string :=
  match s with EmptyString => EmptyString | String c s' => path_byte c +:+ PathEscape s' end.

(** ** Keys *)
Definition system_base (s : System) : string := base (prefix_of s).
Definition desiredKey (s : System) : string := system_base s +:+ "/desired.json".
Definition observedKey (s : System) : string := system_base s +:+ "/observed.json".
Definition controlKey (s : System) : string := system_base s +:+ "/control.json".
Definition releaseKey (s : System) (version : string) : string := system_base s +:+ "/releases/" +:+ version +:+ ".json".
Definition runtimeActionRequestKey (s : System) : string := system_base s +:+ "/runtime-actions/request.json".
Definition runtimeActionResultKey (s : System) (id : string) : string :=
  system_base s +:+ "/runtime-actions/results/" +:+ id +:+ ".json".
Definition runtimePlanKey (s : System) : string := system_base s +:+ "/runtime-plan.json".
Definition controlAckKey (s : System) : string := system_base s +:+ "/control-ack.json".
Definition changesPrefix (s : System) : string := system_base s +:+ "/changes/".

Section Releases.
Context `{Unicode}.

(** ** Staged artifacts *)
Definition maxStagedArtifactBytes : Z := 64 * 2 ^ 20.
Definition artifactPrefix : string := "control-plane/artifacts/sha256/".

Definition ControlPlaneArtifactKey (digest : string) : result string :=
  match hex_decode digest with
  | Some decoded =>
      if (length decoded != 32%nat) || (digest != ToLower digest)
      then Err (Errorf "artifact requires a lowercase SHA-256 digest")
      else Ok (artifactPrefix +:+ digest +:+ ".tar.gz")
  | None => Err (Errorf "artifact requires a lowercase SHA-256 digest")
  end.

Definition canonical_artifact (key digest : string) : bool :=
  match ControlPlaneArtifactKey digest with Ok expected => key == expected | Err _ => false end.

Definition DeleteControlPlaneArtifact (key : string) : sdk (result unit) :=
  let digest := TrimSuffix (TrimPrefix key artifactPrefix) ".tar.gz" in
  if negb (canonical_artifact key digest)
  then Ret (Err (Errorf "artifact erasure requires a canonical staged object key"))
  else
    supported ← (call (Supports "Delete") : sdk bool);
    if negb supported then Ret (Err (Errorf "artifact erasure is unavailable"))
    else (call (M1Delete key) : sdk (result unit)).

Definition StageControlPlaneArtifact (artifact filename contentType : string) : sdk (result StagedArtifact) :=
  if (slen artifact == 0) || (maxStagedArtifactBytes <? slen artifact)
  then Ret (Err (Errorf ("artifact must be between 1 and " +:+ Itoa maxStagedArtifactBytes +:+ " bytes")))
  else
    let contentType := if contentType == EmptyString then "application/gzip" else contentType in
    let digest := sha256_hex artifact in
    key ←! lift (ControlPlaneArtifactKey digest);
    bind_wrap (Put key artifact contentType) (Wrapf "upload control-plane artifact: ") (fun _ =>
    let cleanFilename := if filename != EmptyString then Base filename else EmptyString in
    Ret (Ok (StagedArtifact.mk key digest (slen artifact) contentType cleanFilename))).

Definition readArtifactBytes (key : string) (limit : Z) : sdk (result string) :=
  bounded ← (call (Supports "GetBytesLimited") : sdk bool);
  if (bounded : bool) then (call (M1GetBytesLimited key limit) : sdk (result string))
  else
    data ←! GetBytes key;
    if limit <? slen data then Ret (Err (Errorf ("artifact exceeds " +:+ Itoa limit +:+ " bytes")))
    else Ret (Ok data).

Definition VerifyStagedArtifact (artifact : StagedArtifact) : sdk (result unit) :=
  let size := StagedArtifact.Size artifact in
  let digest := StagedArtifact.SHA256 artifact in
  if (size <? 1) || (maxStagedArtifactBytes <? size)
  then Ret (Err (Errorf ("staged artifact size must be between 1 and " +:+ Itoa maxStagedArtifactBytes +:+ " bytes")))
  else
    expectedKey ←! lift (ControlPlaneArtifactKey digest);
    if StagedArtifact.Key artifact != expectedKey
    then Ret (Err (Errorf ("staged artifact key is not canonical for digest " +:+ digest)))
    else
      bind_wrap (readArtifactBytes (StagedArtifact.Key artifact) size) (Wrapf "read staged artifact: ") (fun data =>
      if slen data != size
      then Ret (Err (Errorf ("staged artifact size mismatch: expected " +:+ Itoa size +:+ ", got " +:+ Itoa (slen data))))
      else if sha256_hex data != digest
      then Ret (Err (Errorf ("staged artifact digest mismatch: expected " +:+ digest +:+ ", got " +:+ sha256_hex data)))
      else Ret (Ok tt)).

(** ** Manifests *)
Definition persistReleaseManifest (s : System) (manifest : ReleaseManifest) : sdk (result unit) :=
  let key := releaseKey s (ReleaseManifest.Version manifest) in
  '(_, written) ←! PutJSONIfAbsent KManifest key manifest;
  if (written : bool) then Ret (Ok tt)
  else
    existing ←! GetOptional KManifest key;
    match existing with
    | Some existing =>
        if ReleaseManifest.ArtifactSHA existing != ReleaseManifest.ArtifactSHA manifest
        then Ret (Err (Errorf ("release version " +:+ Quote (ReleaseManifest.Version manifest) +:+
                               " is already bound to a different artifact digest")))
        else PutJSON KManifest key manifest
    | None => Ret (Err (Errorf ("release version " +:+ Quote (ReleaseManifest.Version manifest) +:+
                                " is already bound to a different artifact digest")))
    end.

Definition valid_release (command : list string) (publicPort : Z) (healthPath : string) : result unit :=
  reject_if ((length command == 0%nat) || (publicPort <? 1) || (65535 <? publicPort) || negb (HasPrefix healthPath "/"))
    (Errorf "release requires a command, absolute health path, and valid public port").

(** [digest[:12]]. *)
Definition version_of (digest : string) : string := take_bytes 12 digest.

Definition new_manifest (s : System) (artifactKey digest : string) (command : list string)
    (environment : gmap string string) (healthPath : string) (publicPort t : Z) : ReleaseManifest :=
  ReleaseManifest.mk "v1" (name_of s) (version_of digest) artifactKey digest command environment healthPath publicPort
    1 None t.

Definition set_desired (s : System) (manifest : ReleaseManifest) : sdk (result ReleaseManifest) :=
  bind_wrap (PutJSON KManifest (desiredKey s) manifest) (Wrapf "set desired release: ") (fun _ => Ret (Ok manifest)).

Definition PublishStagedRelease (s : System) (input : StagedReleaseInput) : sdk (result ReleaseManifest) :=
  let artifact := StagedReleaseInput.Artifact input in
  _ ←! lift (System_Validate s);
  _ ←! lift (valid_release (StagedReleaseInput.Command input) (StagedReleaseInput.PublicPort input)
               (StagedReleaseInput.HealthPath input));
  if (StagedArtifact.Key artifact == EmptyString) || (StagedArtifact.Size artifact <? 1)
  then Ret (Err (Errorf "release requires a valid staged artifact"))
  else
    _ ←! VerifyStagedArtifact artifact;
    t ← now;
    let manifest := new_manifest s (StagedArtifact.Key artifact) (StagedArtifact.SHA256 artifact)
                      (StagedReleaseInput.Command input) (StagedReleaseInput.Environment input)
                      (StagedReleaseInput.HealthPath input) (StagedReleaseInput.PublicPort input) t in
    bind_wrap (persistReleaseManifest s manifest) (Wrapf "persist release manifest: ") (fun _ => set_desired s manifest).

Definition maxReleaseArtifactBytes : Z := 512 * 2 ^ 20.
Definition readReleaseArtifact (path : string) : sdk (result string) :=
  data ←! (call (ReadFile path) : sdk (result string));
  if (slen data == 0) || (maxReleaseArtifactBytes <? slen data)
  then Ret (Err (Errorf ("release artifact must be between 1 and " +:+ Itoa maxReleaseArtifactBytes +:+ " bytes")))
  else Ret (Ok data).

Definition StageRelease (s : System) (input : PublishReleaseInput) : sdk (result ReleaseManifest) :=
  _ ←! lift (System_Validate s);
  _ ←! lift (valid_release (PublishReleaseInput.Command input) (PublishReleaseInput.PublicPort input)
               (PublishReleaseInput.HealthPath input));
  artifact ←! readReleaseArtifact (PublishReleaseInput.ArtifactPath input);
  let digest := sha256_hex artifact in
  let artifactKey := system_base s +:+ "/artifacts/" +:+ digest +:+ Ext (PublishReleaseInput.ArtifactPath input) in
  bind_wrap (Put artifactKey artifact "application/gzip") (Wrapf "upload release artifact: ") (fun _ =>
  t ← now;
  let manifest := new_manifest s artifactKey digest (PublishReleaseInput.Command input)
                    (PublishReleaseInput.Environment input) (PublishReleaseInput.HealthPath input)
                    (PublishReleaseInput.PublicPort input) t in
  bind_wrap (persistReleaseManifest s manifest) (Wrapf "persist release manifest: ") (fun _ => Ret (Ok manifest))).

Definition PublishRelease (s : System) (input : PublishReleaseInput) : sdk (result ReleaseManifest) :=
  manifest ←! StageRelease s input; set_desired s manifest.

Definition ReleaseStatus (s : System) : sdk (result ObservedRelease) := Get KObserved (observedKey s).

Definition RollbackRelease (s : System) (version : string) : sdk (result ReleaseManifest) :=
  if version == EmptyString then Ret (Err (Errorf "rollback version is required"))
  else
    bind_wrap (Get KManifest (releaseKey s version)) (Wrapf "load rollback release: ") (fun manifest =>
    t ← now;
    let manifest := ReleaseManifest.with_RequestedAt t manifest in
    _ ←! PutJSON KManifest (desiredKey s) manifest;
    Ret (Ok manifest)).

Definition RestartRelease (s : System) : sdk (result RuntimeControl) :=
  id ← newID;
  t ← now;
  let control := RuntimeControl.mk id "restart" t in
  _ ←! PutJSON KControl (controlKey s) control;
  Ret (Ok control).

(** ** Destroying the host of a System *)
Definition host_destroyed (t : Z) (o : ObservedRelease) : ObservedRelease :=
  ObservedRelease.mk (ObservedRelease.SchemaVersion o) (ObservedRelease.System o) "host-destroyed"
    (ObservedRelease.DesiredVersion o) EmptyString 0 (ObservedRelease.Restarts o) (ObservedRelease.PublicPort o) 0 0 0 []
    (ObservedRelease.CapacityLease_ o) false "compute host destroyed"
    ((fun sv => ObservedService.with_Endpoint EmptyString (ObservedService.with_Phase "stopped" sv)) <$>
       ObservedRelease.Services o)
    (ObservedRelease.Node o) t.

Definition DestroySystemHost (visit : forall A, list A -> list A) (s : System) : sdk (result State) :=
  '(state, err) ← Client_Destroy visit (SystemHostSpec s "true");
  match state, err with
  | _, Some e => Ret (Err e)
  | None, None => Ret (Err (Panic "no state"))
  | Some state, None =>
      observed ←! GetOptional KObserved (observedKey s);
      match observed with
      | None => Ret (Ok state)
      | Some observed =>
          t ← now;
          _ ←! PutJSON KObserved (observedKey s) (host_destroyed t observed);
          Ret (Ok state)
      end
  end.

(** ** Documents for a node (sdk/node_gateway.go) *)
Definition node_release (d : ReleaseManifest) : NodeDesiredRelease :=
  let replicas := if ReleaseManifest.Replicas d <? 1 then 1 else ReleaseManifest.Replicas d in
  NodeDesiredRelease.mk (ReleaseManifest.SchemaVersion d) (ReleaseManifest.System d) (ReleaseManifest.Version d)
    (ReleaseManifest.ArtifactSHA d) (ReleaseManifest.Command d) (ReleaseManifest.Environment d)
    (ReleaseManifest.HealthPath d) (ReleaseManifest.PublicPort d) replicas (ReleaseManifest.CapacityLease_ d)
    (ReleaseManifest.RequestedAt d).

Definition snapshot_plan (s : System) : sdk (result (option RuntimePlan)) :=
  plan ←! GetOptional KRuntimePlan (runtimePlanKey s);
  match plan with
  | None => Ret (Ok None)
  | Some plan => _ ←! lift (RuntimePlan_Validate plan (name_of s)); Ret (Ok (Some plan))
  end.

Definition snapshot_desired (s : System) : sdk (result (option NodeDesiredRelease)) :=
  desired ←! GetOptional KManifest (desiredKey s);
  match desired with
  | None => Ret (Ok None)
  | Some desired =>
      if (ReleaseManifest.SchemaVersion desired != "v1") || (ReleaseManifest.System desired != name_of s)
      then Ret (Err (Errorf "invalid desired release for system"))
      else Ret (Ok (Some (node_release desired)))
  end.

Definition snapshot_control (s : System) : sdk (result (option RuntimeControl)) :=
  control ←! GetOptional KControl (controlKey s);
  match control with
  | None => Ret (Ok None)
  | Some control =>
      if RuntimeControl.ID control == EmptyString then Ret (Ok None)
      else
        ack ←! GetOptional KControlAck (controlAckKey s);
        Ret (Ok (match ack with
                 | Some ack => if ControlAck.ID ack == RuntimeControl.ID control then None else Some control
                 | None => Some control
                 end))
  end.

(** The lease still authorizes this action. *)
Definition lease_covers (action : RuntimeAction) (lease : ChangeLease) (t : Z) : bool :=
  (ChangeLease.FencingToken lease == RuntimeAction.FencingToken action) && (t <? ChangeLease.ExpiresAt lease) &&
  HasPrefix (RuntimeAction.ID action) (ChangeLease.ChangeID lease +:+ "-").

Definition snapshot_action (s : System) : sdk (result (option NodeRuntimeAction)) :=
  action ←! GetOptional KAction (runtimeActionRequestKey s);
  match action with
  | None => Ret (Ok None)
  | Some action =>
      completed ←! GetOptional KActionResult (runtimeActionResultKey s (RuntimeAction.ID action));
      match completed with
      | Some _ => Ret (Ok None)
      | None =>
          if HasPrefix (RuntimeAction.LeaseKey action) (changesPrefix s) then
            lease ←! GetOptional KLease (RuntimeAction.LeaseKey action);
            match lease with
            | None => Ret (Ok None)
            | Some lease =>
                (* time.Now() is read only when the fencing tokens agree *)
                if ChangeLease.FencingToken lease != RuntimeAction.FencingToken action then Ret (Ok None)
                else
                  t ← now;
                  Ret (Ok (if lease_covers action lease t
                           then Some (NodeRuntimeAction.mk (RuntimeAction.with_LeaseKey EmptyString action) lease)
                           else None))
            end
          else Ret (Ok None)
      end
  end.

End Releases.
