(* ===== verification/Changes.v ===== *)
(** * Changes: what is authorized, and under which lease (sdk/change.go)

    The immutable part of a Change (its plan and the program of its operations)
    is bound by a digest; this file models the digest, the migration language,
    the keys, and the lease that serializes the execution of changes.  The
    execution itself is in [ChangeRun].

    [changeLeaseGuard] is shared by the applying goroutine and its heartbeat;
    both read and write it through the calls [ReadGuard] and [WriteGuard].  The
    Go mutex makes each method below atomic with respect to the other
    goroutine; the model lets them interleave at every call, which allows more. *)

From S2P Require Import Prelude Effects GoStrings Digest Documents Json SandboxSpec Calls Systems Creation Releases.

Section Changes.
Context `{Unicode}.

(** ** Names and keys *)
Definition safeReleaseVersion (version : string) : bool :=
  safeM1Segment version && (version != ".") && (version != "..").

Definition changeKey (s : System) (id : string) : string := system_base s +:+ "/changes/" +:+ id +:+ ".json".
Definition changeLeaseKey (s : System) : string := system_base s +:+ "/changes/execution.lease.json".

(** ** The expand-only migration language *)
Definition strip_comment (line : string) : string :=
  match Cut line "--" with Some (before, _) => before | None => line end.
Definition newline : ascii := chr 10.
Definition stripSQLComments (sql : string) : string :=
  Join (strip_comment <$> Split sql newline) (String newline EmptyString).

Definition firstN (value : string) (limit : Z) : string :=
  if slen value <=? limit then value else take_bytes (Z.to_nat limit) value +:+ "...".

Definition forbidden_operations : list string :=
  [" DROP "; "DELETE "; "TRUNCATE "; "UPDATE "; "RENAME "; "ALTER COLUMN"; "SET NOT NULL"; "CREATE OR REPLACE";
   "GRANT "; "REVOKE "].

Definition normalized (statement : string) : string := Join (Fields (ToUpper statement)) " ".

Definition expand_statement (text : string) : bool :=
  (HasPrefix text "ALTER TABLE " && Contains text " ADD COLUMN IF NOT EXISTS ") ||
  HasPrefix text "CREATE TABLE IF NOT EXISTS " || HasPrefix text "CREATE INDEX IF NOT EXISTS " ||
  HasPrefix text "CREATE UNIQUE INDEX IF NOT EXISTS ".

Definition check_statement (raw : string) : result unit :=
  let statement := TrimSpace raw in
  if statement == EmptyString then Ok tt
  else reject_if (negb (expand_statement (normalized statement)))
         (Errorf ("migration statement is outside the expand-only v0 language: " +:+ Quote (firstN statement 120))).

Definition validateExpandMigration (sql : string) : result unit :=
  let clean := stripSQLComments sql in
  reject_if (TrimSpace clean == EmptyString) (Errorf "migration is empty");;
  let upper := ToUpper clean in
  fold_result (fun _ forbidden =>
      reject_if (Contains (" " +:+ upper +:+ " ") forbidden)
        (Errorf ("expand-only migration contains forbidden operation " +:+ Quote (TrimSpace forbidden))))
    tt forbidden_operations;;
  fold_result (fun _ raw => check_statement raw) tt (Split clean ";"%char).

(** ** The digest *)
Definition base_revision_json (r : ChangeBaseRevision) : json :=
  JObject (omit_string "workspaceId" (ChangeBaseRevision.WorkspaceID r) ++
           omit_int "workspaceRevision" (ChangeBaseRevision.WorkspaceRevision r) ++
           omit_int "systemRevision" (ChangeBaseRevision.SystemRevision r)).

Definition capacity_lease_json (l : CapacityLease) : json :=
  JObject (field "expiresAt" (time_json (CapacityLease.ExpiresAt l)) ++
           field "restoreReplicas" (JInt (CapacityLease.RestoreReplicas l))).

Definition manifest_json (r : ReleaseManifest) : json :=
  JObject (field "schemaVersion" (JString (ReleaseManifest.SchemaVersion r)) ++
           field "system" (JString (ReleaseManifest.System r)) ++
           field "version" (JString (ReleaseManifest.Version r)) ++
           omit_string "artifactKey" (ReleaseManifest.ArtifactKey r) ++
           field "artifactSha256" (JString (ReleaseManifest.ArtifactSHA r)) ++
           field "command" (strings_json (ReleaseManifest.Command r)) ++
           omit_map "environment" (ReleaseManifest.Environment r) ++
           field "healthPath" (JString (ReleaseManifest.HealthPath r)) ++
           field "publicPort" (JInt (ReleaseManifest.PublicPort r)) ++
           field "replicas" (JInt (ReleaseManifest.Replicas r)) ++
           omit_option "capacityLease" capacity_lease_json (ReleaseManifest.CapacityLease_ r) ++
           field "requestedAt" (time_json (ReleaseManifest.RequestedAt r))).

Definition scale_json (p : ReplicaScalePlan) : json :=
  JObject (field "service" (JString (ReplicaScalePlan.Service p)) ++
           field "fromReplicas" (JInt (ReplicaScalePlan.FromReplicas p)) ++
           field "toReplicas" (JInt (ReplicaScalePlan.ToReplicas p)) ++
           field "capacityMode" (JString (ReplicaScalePlan.CapacityMode p)) ++
           omit_int "leaseSeconds" (ReplicaScalePlan.LeaseSeconds p) ++
           omit_option "restoreAt" time_json (ReplicaScalePlan.RestoreAt p) ++
           omit_int "restoreToReplicas" (ReplicaScalePlan.RestoreToReplicas p)).

Definition migration_json (m : Migration) : json :=
  JObject (field "id" (JString (Migration.ID m)) ++ field "service" (JString (Migration.Service m)) ++
           field "class" (JString (Migration.Class_ m)) ++ field "sql" (JString (Migration.SQL m)) ++
           field "digest" (JString (Migration.Digest m)) ++
           field "reversibility" (JString (Migration.Reversibility m))).

Definition verification_json (v : ChangeVerification) : json :=
  JObject (field "method" (JString (ChangeVerification.Method v)) ++
           field "path" (JString (ChangeVerification.Path v)) ++
           field "expectedStatus" (JInt (ChangeVerification.ExpectedStatus v)) ++
           omit_string "bodyContains" (ChangeVerification.BodyContains v)).

Definition impact_json (i : ChangeImpact) : json :=
  JObject (field "affectedServices" (strings_json (ChangeImpact.AffectedServices i)) ++
           field "availability" (JString (ChangeImpact.Availability i)) ++
           field "data" (JString (ChangeImpact.Data i)) ++
           field "monthlyCostDeltaCents" (JInt (ChangeImpact.MonthlyCostDeltaCents i))).

Definition change_plan_json (p : ChangePlan) : json :=
  JObject (field "baseRevision" (base_revision_json (ChangePlan.BaseRevision p)) ++
           field "baseVersion" (JString (ChangePlan.BaseVersion p)) ++
           field "release" (manifest_json (ChangePlan.Release p)) ++
           omit_option "scale" scale_json (ChangePlan.Scale p) ++
           omit_option "migration" migration_json (ChangePlan.Migration_ p) ++
           field "verification" (verification_json (ChangePlan.Verification p)) ++
           field "impact" (impact_json (ChangePlan.Impact p))).

(** What is authorized of an operation: not its progress. *)
Definition authorizedOperation (o : ChangeOperation) : json :=
  JObject (field "id" (JString (ChangeOperation.ID o)) ++ field "kind" (JString (ChangeOperation.Kind o)) ++
           field "description" (JString (ChangeOperation.Description o)) ++
           field "reversibility" (JString (ChangeOperation.Reversibility o)) ++
           omit_string "compensation" (ChangeOperation.Compensation o)).

Definition plan_instants (p : ChangePlan) : list Z :=
  let release := ChangePlan.Release p in
  ReleaseManifest.RequestedAt release ::
  match ReleaseManifest.CapacityLease_ release with Some l => [CapacityLease.ExpiresAt l] | None => [] end ++
  match ChangePlan.Scale p with
  | Some scale => match ReplicaScalePlan.RestoreAt scale with Some t => [t] | None => [] end
  | None => []
  end.

Definition change_payload (plan : ChangePlan) (operations : list ChangeOperation) : json :=
  JObject (field "plan" (change_plan_json plan) ++
           field "operations" (JArray (authorizedOperation <$> operations))).

Definition digestChange (plan : ChangePlan) (operations : list ChangeOperation) : result string :=
  if forallb marshals (plan_instants plan) then Ok (sha256_hex (render (change_payload plan operations)))
  else Err (External "json: Time.MarshalJSON: year outside of range [0,9999]").

(** ** Progress of the operations *)
Definition operationReached (operations : list ChangeOperation) (kind : string) : bool :=
  existsb (fun o => (ChangeOperation.Kind o == kind) &&
     ((ChangeOperation.Phase o == "running") || (ChangeOperation.Phase o == "completed") ||
      (ChangeOperation.Phase o == "failed"))) operations.
Definition operationCompleted (operations : list ChangeOperation) (kind : string) : bool :=
  existsb (fun o => (ChangeOperation.Kind o == kind) && (ChangeOperation.Phase o == "completed")) operations.
Definition appendUnique (values : list string) (value : string) : list string :=
  if existsb (fun existing => existing == value) values then values else values ++ [value].

Definition effectiveReleaseReplicas (release : ReleaseManifest) (now : Z) : Z :=
  let replicas := if ReleaseManifest.Replicas release <? 1 then 1 else ReleaseManifest.Replicas release in
  match ReleaseManifest.CapacityLease_ release with
  | Some lease =>
      if (CapacityLease.ExpiresAt lease <=? now) && (0 <? CapacityLease.RestoreReplicas lease)
      then CapacityLease.RestoreReplicas lease else replicas
  | None => replicas
  end.

Definition scaleDescription (service : string) (from to : Z) (restoreAt : option Z) : string :=
  "set " +:+ service +:+ " application capacity from " +:+ Itoa from +:+ " to " +:+ Itoa to +:+
  " replicas within existing host allocation" +:+
  match restoreAt with
  | Some t => " and automatically restore " +:+ Itoa from +:+ " replicas at " +:+ rfc3339_seconds t
  | None => EmptyString
  end.

(** ** The execution lease *)
Definition changeLeaseDuration : Z := 20 * Second.

Definition ReadLeaseGuard : sdk changeLeaseGuard := call ReadGuard.
Definition WriteLeaseGuard (g : changeLeaseGuard) : sdk unit := call (WriteGuard g).

Fixpoint acquire_lease (attempts : nat) (s : System) (changeID : string) : sdk (result changeLeaseGuard) :=
  match attempts with
  | O => Ret (Err (Errorf "change lease was contended repeatedly"))
  | S attempts' =>
      let key := changeLeaseKey s in
      read ←! GetJSONVersion KLease key;
      t ← now;
      holder ← newID;
      token ← newID;
      let lease := ChangeLease.mk "v1" changeID holder token (t + changeLeaseDuration) in
      let next (written : result (string * bool)) : sdk (result changeLeaseGuard) :=
        match written with
        | Err e => Ret (Err e)
        | Ok (_, false) => acquire_lease attempts' s changeID
        | Ok (etag, true) =>
            let guard := changeLeaseGuard.mk key lease etag None in
            _ ← WriteLeaseGuard guard;
            Ret (Ok guard)
        end in
      match read with
      | None => written ← PutJSONIfAbsent KLease key lease; next written
      | Some (prior, etag) =>
          if ChangeLease.ExpiresAt prior <=? t
          then written ← PutJSONIfMatch KLease key etag lease; next written
          else Ret (Err (Errorf ("system is already applying change " +:+ ChangeLease.ChangeID prior +:+ " with holder " +:+
                                 ChangeLease.Holder prior +:+ " until " +:+ rfc3339_seconds (ChangeLease.ExpiresAt prior))))
      end
  end.
Definition acquireChangeLease (s : System) (changeID : string) : sdk (result changeLeaseGuard) :=
  acquire_lease 5 s changeID.

(** One tick of the heartbeat; [false] ends the goroutine. *)
Definition heartbeat_tick : sdk bool :=
  g ← ReadLeaseGuard;
  t ← now;
  let lease := ChangeLease.with_ExpiresAt (t + changeLeaseDuration) (changeLeaseGuard.lease g) in
  let g := changeLeaseGuard.with_lease lease g in
  written ← PutJSONIfMatch KLease (changeLeaseGuard.key g) (changeLeaseGuard.etag g) lease;
  match written with
  | Ok (etag, true) => _ ← WriteLeaseGuard (changeLeaseGuard.with_etag etag g); Ret true
  | Ok (_, false) =>
      _ ← WriteLeaseGuard (changeLeaseGuard.with_err (Some (Errorf "change lease fencing token was superseded")) g);
      Ret false
  | Err e => _ ← WriteLeaseGuard (changeLeaseGuard.with_err (Some e) g); Ret false
  end.

(** [fuel] bounds the number of ticks: the loop ends with the process. *)
Fixpoint heartbeat (fuel : nat) : sdk unit :=
  match fuel with
  | O => Ret tt
  | S fuel' =>
      w ← select;
      match w with
      | WDone _ => Ret tt
      | _ => continue ← heartbeat_tick; if (continue : bool) then heartbeat fuel' else Ret tt
      end
  end.

Definition Assert : sdk (result unit) :=
  g ← ReadLeaseGuard;
  match changeLeaseGuard.err g with
  | Some e => Ret (Err e)
  | None =>
      read ←! GetJSONVersion KLease (changeLeaseGuard.key g);
      let lost := Err (Errorf "change execution lost its lease") in
      match read with
      | None => Ret lost
      | Some (current, _) =>
          if ChangeLease.FencingToken current != ChangeLease.FencingToken (changeLeaseGuard.lease g) then Ret lost
          else t ← now; Ret (if ChangeLease.ExpiresAt current <=? t then lost else Ok tt)
      end
  end.

Definition Token : sdk string :=
  g ← ReadLeaseGuard; Ret (ChangeLease.FencingToken (changeLeaseGuard.lease g)).

Definition Close : sdk unit :=
  g ← ReadLeaseGuard;
  t ← now;
  let g := changeLeaseGuard.with_lease (ChangeLease.with_ExpiresAt t (changeLeaseGuard.lease g)) g in
  written ← PutJSONIfMatch KLease (changeLeaseGuard.key g) (changeLeaseGuard.etag g) (changeLeaseGuard.lease g);
  WriteLeaseGuard (match written with Ok (etag, true) => changeLeaseGuard.with_etag etag g | _ => g end).

End Changes.
