(* ===== verification/ChangeRun.v ===== *)
(** * Changes: drafting, authorizing, applying, compensating (sdk/change.go)

    A Change is a document mutated in place; here it is passed along, and each
    function returns it with its error, as the code returns [change, err].
    [visit] is the iteration order of a Go map, [fuel] bounds the polling
    loops (running out is [OutOfFuel]); [actor] and [revision] are what the
    context carries. *)

From S2P Require Import Prelude Effects GoStrings Digest Documents Json Calls SandboxSpec Systems Creation Destruction.
From S2P Require Import Exposure Releases Changes.

Section ChangeRun.
Context `{Unicode}.
Context (fuel : nat) (visit : forall A, list A -> list A).

(** ** Reading and saving *)
Definition saveChange (s : System) (change : Change) : sdk (Change * result unit) :=
  t ← now;
  let change := Change.with_UpdatedAt t change in
  saved ← PutJSON KChange (changeKey s (Change.ID change)) change;
  Ret (change, saved).

Definition InspectChange (s : System) (id : string) : sdk (result Change) :=
  _ ←! lift (System_Validate s);
  if negb (safeName id) then Ret (Err (Errorf "invalid change id"))
  else
    change ←! Get KChange (changeKey s id);
    let plan := Change.Plan_ change in
    Ret (if (Change.SchemaVersion change != "v1") || (Change.System change != name_of s)
         then Err (Errorf "change does not belong to system")
         else if Change.ID change != id then Err (Errorf "change identity does not match its object key")
         else if negb (safeReleaseVersion (ChangePlan.BaseVersion plan)) ||
                 negb (safeReleaseVersion (ReleaseManifest.Version (ChangePlan.Release plan))) ||
                 (ReleaseManifest.System (ChangePlan.Release plan) != name_of s)
         then Err (Errorf "change contains an invalid release identity")
         else Ok change).

Definition AuthorizeChange (actor : option ActorRef) (s : System) (id digest : string) : sdk (result Change) :=
  change ←! InspectChange s id;
  if Change.Phase change != "drafted"
  then Ret (Err (Errorf ("change in phase " +:+ Change.Phase change +:+ " cannot be authorized")))
  else
    actual ←! lift (digestChange (Change.Plan_ change) (Change.Operations change));
    if (digest == EmptyString) || (digest != Change.Digest change) || (digest != actual)
    then Ret (Err (Errorf "authorization digest does not match the immutable change plan"))
    else
      t ← now;
      let change := Change.with_UpdatedAt t (Change.with_Phase "authorized"
                      (Change.with_Authorization_ (Some (Authorization.mk digest t actor)) change)) in
      '(change, saved) ← saveChange s change;
      Ret (match saved with Ok _ => Ok change | Err e => Err e end).

(** ** Waiting *)
(** [timeout.String()] of a whole number of seconds under a minute. *)
Definition seconds_String (timeout : Z) : string := Itoa (timeout / Second) +:+ "s".

Definition waitRuntimeAction (s : System) (id : string) : sdk (result RuntimeActionResult) :=
  r ← poll fuel
    (found ← GetOptional KActionResult (runtimeActionResultKey s id);
     Ret (match found with
          | Err e => Some (Err e)
          | Ok (Some res) =>
              Some (if RuntimeActionResult.Phase res != "completed"
                    then Err (Errorf ("runtime action failed: " +:+ RuntimeActionResult.Message res)) else Ok res)
          | Ok None => None
          end))
    (w ← select; Ret (match w with WDone e => Some (Err e) | _ => None end));
  Ret (from_poll r).

Definition healthy_version (version : string) (observed : ObservedRelease) : bool :=
  (ObservedRelease.Phase observed == "running") && ObservedRelease.Healthy observed &&
  (ObservedRelease.RunningVersion observed == version).
Definition failed_version (version : string) (observed : ObservedRelease) : bool :=
  (ObservedRelease.Phase observed == "release-failed") && (ObservedRelease.DesiredVersion observed == version).

Definition waitReleaseVersion (s : System) (version : string) (timeout : Z) : sdk (result ObservedRelease) :=
  r ← poll fuel
    (found ← ReleaseStatus s;
     Ret (match found with
          | Err e => Some (Err e)
          | Ok observed =>
              if healthy_version version observed then Some (Ok observed)
              else if failed_version version observed
              then Some (Err (Errorf ("candidate release failed: " +:+ ObservedRelease.Message observed)))
              else None
          end))
    (w ← select;
     Ret (match w with
          | WDone e => Some (Err e)
          | WTimer => Some (Err (Errorf ("release " +:+ version +:+ " did not become healthy within " +:+
                                         seconds_String timeout)))
          | WTick => None
          end));
  Ret (from_poll r).

Definition replicas_ready (version : string) (replicas : Z) (observed : ObservedRelease) : bool :=
  healthy_version version observed && (ObservedRelease.DesiredReplicas observed == replicas) &&
  (ObservedRelease.ReadyReplicas observed == replicas) &&
  (Z.of_nat (length (ObservedRelease.ReplicaPIDs observed)) == replicas).

Definition lease_expired (observed : ObservedRelease) : bool :=
  match ObservedRelease.CapacityLease_ observed with
  | Some lease => HasPrefix (ObservedCapacityLease.Phase lease) "expired"
  | None => false
  end.

Definition waitReleaseReplicas (s : System) (version : string) (replicas timeout : Z) : sdk (result ObservedRelease) :=
  r ← poll fuel
    (found ← ReleaseStatus s;
     Ret (match found with
          | Err e => Some (Err e)
          | Ok observed =>
              if replicas_ready version replicas observed then Some (Ok observed)
              else if failed_version version observed
              then Some (Err (Errorf ("replica reconciliation failed: " +:+ ObservedRelease.Message observed)))
              else if lease_expired observed
              then Some (Err (Errorf "temporary scale lease expired before target verification completed"))
              else None
          end))
    (w ← select;
     Ret (match w with
          | WDone e => Some (Err e)
          | WTimer => Some (Err (Errorf ("release " +:+ version +:+ " did not reach " +:+ Itoa replicas +:+
                                         " healthy replicas within " +:+ seconds_String timeout)))
          | WTick => None
          end));
  Ret (from_poll r).

(** ** Executing one operation *)
Definition ready_replicas (observed : ObservedRelease) : Z :=
  let ready := ObservedRelease.ReadyReplicas observed in
  if (ready <? 1) && (0 <? ObservedRelease.PID observed) then 1 else ready.

Definition assert_state (s : System) (plan : ChangePlan) : sdk (result string) :=
  observed ←! ReleaseStatus s;
  let base := ChangePlan.BaseVersion plan in
  if negb (healthy_version base observed)
  then Ret (Err (Errorf ("production moved after planning: expected healthy " +:+ base +:+ ", observed phase=" +:+
                         ObservedRelease.Phase observed +:+ " version=" +:+ ObservedRelease.RunningVersion observed +:+
                         " healthy=" +:+ FormatBool (ObservedRelease.Healthy observed))))
  else
    let unchanged := Ret (Ok "base release remained healthy and unchanged") in
    match ChangePlan.Scale plan with
    | None => unchanged
    | Some scale =>
        if ready_replicas observed != ReplicaScalePlan.FromReplicas scale
        then Ret (Err (Errorf ("production capacity moved after planning: expected " +:+
                               Itoa (ReplicaScalePlan.FromReplicas scale) +:+ " ready replicas, observed " +:+
                               Itoa (ready_replicas observed))))
        else unchanged
    end.

Definition run_migration (s : System) (change : Change) (operation : ChangeOperation) (lease : changeLeaseGuard)
    : sdk (result string) :=
  match ChangePlan.Migration_ (Change.Plan_ change) with
  | None => Ret (Err (Errorf "migration operation has no migration plan"))
  | Some m =>
      token ← Token;
      t ← now;
      let action := RuntimeAction.mk "v1" (Change.ID change +:+ "-" +:+ ChangeOperation.ID operation) (name_of s)
                      (Migration.Service m) (ChangeOperation.Kind operation)
                      (<["migrationId" := Migration.ID m]> (<["digest" := Migration.Digest m]>
                         (<["sql" := Migration.SQL m]> ∅))) (changeLeaseGuard.key lease) token t in
      _ ←! PutJSON KAction (runtimeActionRequestKey s) action;
      res ←! waitRuntimeAction s (RuntimeAction.ID action);
      Ret (Ok (if RuntimeActionResult.Duplicate res
               then RuntimeActionResult.Message res +:+ "; idempotency ledger prevented duplicate execution"
               else RuntimeActionResult.Message res))
  end.

(** [release.set-desired]. *)
Definition run_release (s : System) (plan : ChangePlan) : sdk (result string) :=
  _ ←! Assert;
  _ ←! PutJSON KManifest (desiredKey s) (ChangePlan.Release plan);
  Ret (Ok ("desired release set to exact artifact " +:+ ReleaseManifest.ArtifactSHA (ChangePlan.Release plan))).

Definition run_scale (s : System) (plan : ChangePlan) : sdk (result string) :=
  let release := ChangePlan.Release plan in
  match ChangePlan.Scale plan with
  | None => Ret (Err (Errorf "scale operation has no valid replica plan"))
  | Some scale =>
      if ReleaseManifest.Replicas release != ReplicaScalePlan.ToReplicas scale
      then Ret (Err (Errorf "scale operation has no valid replica plan"))
      else
        expired ← match ReleaseManifest.CapacityLease_ release with
                  | Some lease => t ← now; Ret (CapacityLease.ExpiresAt lease <=? t)
                  | None => Ret false
                  end;
        if (expired : bool) then Ret (Err (Errorf "temporary scale lease expired before execution"))
        else
          _ ←! Assert;
          _ ←! PutJSON KManifest (desiredKey s) release;
          Ret (Ok ("desired application capacity set to " +:+ Itoa (ReplicaScalePlan.ToReplicas scale) +:+
                   " replicas without changing the release artifact"))
  end.

(** [net.JoinHostPort]: an IPv6 literal is bracketed. *)
Definition JoinHostPort (host port : string) : string :=
  if contains_byte host ":"%char then "[" +:+ host +:+ "]:" +:+ port else host +:+ ":" +:+ port.
Definition endpointBodyLimit : Z := 2 ^ 20.
Definition readEndpointBody (body : result string) : result string :=
  raw ← body;
  reject_if (endpointBodyLimit <? slen raw) (Errorf "public endpoint response exceeded the 1 MiB limit");;
  Ok raw.

Definition response_matches (v : ChangeVerification) (status : Z) (body : string) : bool :=
  (status == ChangeVerification.ExpectedStatus v) &&
  ((ChangeVerification.BodyContains v == EmptyString) || Contains body (ChangeVerification.BodyContains v)).

Definition verify_http (s : System) (plan : ChangePlan) : sdk (result string) :=
  '(state, err) ← SystemHostStatus s;
  match state, err with
  | Some state, None =>
      match State.Resources state with
      | [host] =>
          if Resource.Address host == EmptyString
          then Ret (Err (Errorf "verification requires exactly one addressed host"))
          else
            let v := ChangePlan.Verification plan in
            let url := "http://" +:+ JoinHostPort (Resource.Address host)
                         (Itoa (ReleaseManifest.PublicPort (ChangePlan.Release plan))) +:+ ChangeVerification.Path v in
            bind_wrap (call (HTTPPrepare (ChangeVerification.Method v) url) : sdk (result unit))
              (fun _ => Errorf "could not prepare verification request") (fun _ =>
            bind_wrap (call (HTTPDo (ChangeVerification.Method v) url) : sdk (result (Z * result string)))
              (fun _ => Errorf "verification request failed") (fun response =>
            let '(status, body) := response in
            Ret (match readEndpointBody body with
                 | Err _ => Err (Errorf "could not read verification response")
                 | Ok body =>
                     if negb (response_matches v status body)
                     then Err (Errorf ("verification failed: status=" +:+ Itoa status +:+
                                       "; approved response contract did not match"))
                     else Ok (ChangeVerification.Path v +:+ " returned " +:+ Itoa status +:+
                              ", matched the approved response contract, and produced body sha256:" +:+ sha256_hex body)
                 end)))
      | _ => Ret (Err (Errorf "verification requires exactly one addressed host"))
      end
  | _, _ => Ret (Err (Errorf "could not resolve verification endpoint"))
  end.

Definition wait_timeout : Z := 45 * Second.

Definition executeChangeOperation (s : System) (change : Change) (operation : ChangeOperation)
    (lease : changeLeaseGuard) : sdk (result string) :=
  let plan := Change.Plan_ change in
  let version := ReleaseManifest.Version (ChangePlan.Release plan) in
  let kind := ChangeOperation.Kind operation in
  if kind == "state.assert" then assert_state s plan
  else if kind == "database.expand-migration" then run_migration s change operation lease
  else if kind == "release.set-desired" then run_release s plan
  else if kind == "release.scale" then run_scale s plan
  else if kind == "release.wait-healthy" then
    observed ←! waitReleaseVersion s version wait_timeout;
    Ret (Ok ("release " +:+ ObservedRelease.RunningVersion observed +:+ " healthy on node " +:+
             ObservedRelease.Node observed +:+ " pid " +:+ Itoa (ObservedRelease.PID observed)))
  else if kind == "release.wait-replicas" then
    match ChangePlan.Scale plan with
    | None => Ret (Err (Errorf "replica wait operation has no scale plan"))
    | Some scale =>
        observed ←! waitReleaseReplicas s version (ReplicaScalePlan.ToReplicas scale) wait_timeout;
        Ret (Ok (Itoa (ObservedRelease.ReadyReplicas observed) +:+
                 " distinct application replicas are healthy and serving release " +:+
                 ObservedRelease.RunningVersion observed +:+ " on node " +:+ ObservedRelease.Node observed))
    end
  else if kind == "http.verify" then verify_http s plan
  else Ret (Err (Errorf ("unsupported change operation " +:+ Quote kind))).

(** ** Compensation *)
Definition applied : Type := Change * option error.

Definition saved_error (saved : result unit) : option error := match saved with Ok _ => None | Err e => Some e end.

(** [now := time.Now(); change.Phase = phase; change.CompletedAt = &now; return save(change)]. *)
Definition end_change (s : System) (phase : string) (change : Change) : sdk applied :=
  t ← now;
  '(change, saved) ← saveChange s (Change.with_CompletedAt (Some t) (Change.with_Phase phase change));
  Ret (change, saved_error saved).

(** [change.Phase = "escalated"; _ = save(change); return err]. *)
Definition escalateChange (s : System) (change : Change) (e : error) : sdk applied :=
  '(change, _) ← saveChange s (Change.with_Phase "escalated" change);
  Ret (change, Some e).

(** [if _, err := p; err != nil { escalate }; k]. *)
Definition or_escalate {A} (s : System) (change : Change) (p : sdk (result A)) (k : A -> sdk applied) : sdk applied :=
  r ← p; match r with Ok a => k a | Err e => escalateChange s change e end.

Definition add_evidence (operationID kind statement : string) (t : Z) (change : Change) : Change :=
  Change.with_Evidence (Change.Evidence change ++ [ChangeEvidence.mk operationID kind statement t]) change.

(** The release that undoes a scaling. *)
Definition restored_release (plan : ChangePlan) (scale : ReplicaScalePlan) : ReleaseManifest :=
  ReleaseManifest.with_CapacityLease_ None
    (ReleaseManifest.with_Replicas (ReplicaScalePlan.FromReplicas scale) (ChangePlan.Release plan)).

Definition restore_scale (s : System) (change : Change) : sdk applied :=
  match ChangePlan.Scale (Change.Plan_ change) with
  | Some scale =>
      if operationReached (Change.Operations change) "release.scale" then
        or_escalate s change Assert (fun _ =>
        let restore := restored_release (Change.Plan_ change) scale in
        or_escalate s change (PutJSON KManifest (desiredKey s) restore) (fun _ =>
        or_escalate s change
          (waitReleaseReplicas s (ReleaseManifest.Version restore) (ReleaseManifest.Replicas restore) wait_timeout) (fun _ =>
        t ← now;
        Ret (add_evidence "compensation-scale" "release.scale-restore"
               ("restored " +:+ ReplicaScalePlan.Service scale +:+ " to " +:+ Itoa (ReleaseManifest.Replicas restore) +:+
                " healthy replicas") t change, None))))
      else Ret (change, None)
  | None => Ret (change, None)
  end.

Definition restore_release (s : System) (change : Change) : sdk applied :=
  if operationReached (Change.Operations change) "release.set-desired" then
    or_escalate s change Assert (fun _ =>
    or_escalate s change (Get KManifest (releaseKey s (ChangePlan.BaseVersion (Change.Plan_ change)))) (fun base =>
    or_escalate s change (PutJSON KManifest (desiredKey s) base) (fun _ =>
    or_escalate s change (waitReleaseVersion s (ReleaseManifest.Version base) wait_timeout) (fun _ =>
    t ← now;
    Ret (add_evidence "compensation-release" "release.restore"
           ("restored healthy base release " +:+ ReleaseManifest.Version base) t change, None)))))
  else Ret (change, None).

Definition note_residual (change : Change) : Change :=
  match ChangePlan.Migration_ (Change.Plan_ change) with
  | Some m =>
      if operationCompleted (Change.Operations change) "database.expand-migration"
      then Change.with_Residuals
             (appendUnique (Change.Residuals change)
                ("expand-only migration " +:+ Migration.ID m +:+ " remains applied and backward-compatible")) change
      else change
  | None => change
  end.

(** Nothing was changed in production. *)
Definition untouched (operations : list ChangeOperation) : bool :=
  negb (operationCompleted operations "database.expand-migration") &&
  negb (operationReached operations "release.set-desired") && negb (operationReached operations "release.scale").

Definition compensateChange (s : System) (change : Change) : sdk applied :=
  if untouched (Change.Operations change) then end_change s "rejected" change
  else
    '(change, _) ← saveChange s (Change.with_Phase "compensating" change);
    let change := note_residual change in
    '(change, err) ← restore_scale s change;
    match err with
    | Some e => Ret (change, Some e)
    | None =>
        '(change, err) ← restore_release s change;
        match err with
        | Some e => Ret (change, Some e)
        | None => end_change s "reverted" change
        end
    end.

(** ** Applying *)
Definition set_operation (index : nat) (f : ChangeOperation -> ChangeOperation) (change : Change) : Change :=
  Change.with_Operations (alter f index (Change.Operations change)) change.

Definition start_operation (index : nat) (operation : ChangeOperation) (t : Z) (change : Change) : Change :=
  set_operation index (fun o =>
      ChangeOperation.with_Failure EmptyString (ChangeOperation.with_StartedAt (Some t)
        (ChangeOperation.with_Attempts (add64 (ChangeOperation.Attempts o) 1) (ChangeOperation.with_Phase "running" o))))
    (Change.with_Phase (if ChangeOperation.Kind operation == "http.verify" then "verifying" else "applying") change).

Definition fail_operation (index : nat) (operation : ChangeOperation) (e : error) (change : Change) : Change :=
  Change.with_Failure (ChangeOperation.ID operation +:+ ": " +:+ Error e)
    (set_operation index (fun o => ChangeOperation.with_Failure (Error e) (ChangeOperation.with_Phase "failed" o)) change).

Definition complete_operation (index : nat) (operation : ChangeOperation) (statement : string) (t : Z) (change : Change)
    : Change :=
  add_evidence (ChangeOperation.ID operation) (ChangeOperation.Kind operation) statement t
    (set_operation index (fun o => ChangeOperation.with_CompletedAt (Some t) (ChangeOperation.with_Phase "completed" o))
       change).

(** The branch [executeErr != nil]. *)
Definition abandon (s : System) (index : nat) (operation : ChangeOperation) (e : error) (change : Change) : sdk applied :=
  '(change, _) ← saveChange s (fail_operation index operation e change);
  '(change, compensation) ← compensateChange s change;
  Ret (change, Some (match compensation with
                     | Some ce => Wrapf ("change failed: " +:+ Error e +:+ "; compensation failed: ") ce
                     | None => Wrapf ("change " +:+ Change.Phase change +:+ " after failure: ") e
                     end)).

(** One turn of the loop over the operations. *)
Definition apply_operation (s : System) (lease : changeLeaseGuard) (index : nat) (change : Change)
    (next : Change -> sdk applied) : sdk applied :=
  match Change.Operations change !! index with
  | None => Ret (change, Some (Panic "index out of range"))
  | Some operation =>
      if ChangeOperation.Phase operation == "completed" then next change
      else
        held ← Assert;
        match held with
        | Err e => Ret (change, Some e)
        | Ok _ =>
            t ← now;
            '(change, saved) ← saveChange s (start_operation index operation t change);
            match saved with
            | Err e => Ret (change, Some e)
            | Ok _ =>
                executed ← executeChangeOperation s change operation lease;
                match executed with
                | Err e => abandon s index operation e change
                | Ok statement =>
                    t ← now;
                    '(change, saved) ← saveChange s (complete_operation index operation statement t change);
                    match saved with Err e => Ret (change, Some e) | Ok _ => next change end
                end
            end
        end
  end.

Definition commit (s : System) (change : Change) : sdk applied :=
  t ← now;
  '(change, saved) ← saveChange s (Change.with_Failure EmptyString (Change.with_UpdatedAt t
                       (Change.with_CompletedAt (Some t) (Change.with_Phase "committed" change))));
  Ret (change, saved_error saved).

Fixpoint apply_operations (s : System) (lease : changeLeaseGuard) (indices : list nat) (change : Change) : sdk applied :=
  match indices with
  | [] => commit s change
  | index :: rest => apply_operation s lease index change (apply_operations s lease rest)
  end.

Definition ended (phase : string) : bool :=
  (phase == "committed") || (phase == "rejected") || (phase == "reverted") || (phase == "escalated").
Definition applicable (phase : string) : bool :=
  (phase == "authorized") || (phase == "applying") || (phase == "verifying") || (phase == "compensating").

Definition digest_valid (change : Change) : bool :=
  match digestChange (Change.Plan_ change) (Change.Operations change), Change.Authorization_ change with
  | Ok actual, Some authorization =>
      (Authorization.Digest authorization == Change.Digest change) && (actual == Change.Digest change)
  | _, _ => false
  end.

(** [Change{}], where no change was read. *)
Definition ApplyChange (s : System) (id : string) : sdk (option Change * option error) :=
  inspected ← InspectChange s id;
  match inspected with
  | Err e => Ret (None, Some e)
  | Ok change =>
      if ended (Change.Phase change) then Ret (Some change, None)
      else if negb (applicable (Change.Phase change))
      then Ret (Some change, Some (Errorf ("change in phase " +:+ Change.Phase change +:+ " cannot be applied")))
      else if negb (digest_valid change)
      then Ret (Some change, Some (Errorf "authorized change digest is no longer valid"))
      else
        acquired ← acquireChangeLease s (Change.ID change);
        match acquired with
        | Err e => Ret (Some change, Some e)
        | Ok lease =>
            '(change, err) ←
              (if Change.Phase change == "compensating" then compensateChange s change
               else apply_operations s lease (seq 0 (length (Change.Operations change))) change);
            _ ← Close;
            Ret (Some change, err)
        end
  end.

(** ** Drafting *)
Definition default_verification (v : ChangeVerification) : ChangeVerification :=
  let v := if ChangeVerification.Method v == EmptyString then ChangeVerification.with_Method "GET" v else v in
  if ChangeVerification.ExpectedStatus v =? 0 then ChangeVerification.with_ExpectedStatus 200 v else v.
Definition valid_verification (v : ChangeVerification) : bool :=
  (ChangeVerification.Method v == "GET") && HasPrefix (ChangeVerification.Path v) "/" &&
  negb (ChangeVerification.ExpectedStatus v <? 100) && negb (599 <? ChangeVerification.ExpectedStatus v).

Definition invalid_environment (environment : gmap string string) : result unit :=
  fold_result (fun _ kv => reject_if (negb (environmentName kv.1)) (Errorf ("invalid environment name " +:+ Quote kv.1)))
    tt (visit (string * string) (map_to_list environment)).

Definition pending_operation (id kind description reversibility compensation : string) : ChangeOperation :=
  ChangeOperation.mk id kind description reversibility compensation "pending" 0 None None EmptyString.

Definition running_base (observed : ObservedRelease) : bool :=
  (ObservedRelease.Phase observed == "running") && ObservedRelease.Healthy observed &&
  (ObservedRelease.RunningVersion observed != EmptyString).

Definition current_replicas (observed : ObservedRelease) : Z :=
  let n := if ObservedRelease.DesiredReplicas observed <? 1 then ObservedRelease.ReadyReplicas observed
           else ObservedRelease.DesiredReplicas observed in
  if n <? 1 then 1 else n.

(** The last lines of both drafts. *)
Definition draft (actor : option ActorRef) (s : System) (summary : string) (plan : ChangePlan)
    (operations : list ChangeOperation) : sdk (result Change) :=
  digest ←! lift (digestChange plan operations);
  t ← now;
  id ← newID;
  let change := Change.mk "v1" ("change-" +:+ id) (name_of s) (TrimSpace summary) "drafted" digest actor plan None
                  operations [] [] EmptyString t t None in
  '(change, saved) ← saveChange s change;
  Ret (match saved with Ok _ => Ok change | Err e => Err e end).

Definition with_migration (input : DraftChangeInput) (sql : string) (plan : ChangePlan) : ChangePlan :=
  ChangePlan.with_Impact
    (ChangeImpact.with_Data "backward-compatible schema expansion retained on release rollback"
       (ChangeImpact.with_AffectedServices
          (DraftChangeInput.Database input :: ChangeImpact.AffectedServices (ChangePlan.Impact plan)) (ChangePlan.Impact plan)))
    (ChangePlan.with_Migration_
       (Some (Migration.mk (DraftChangeInput.MigrationID input) (DraftChangeInput.Database input) "expand-only" sql
                (sha256_hex sql) "retained-on-rollback")) plan).

Definition migration_operation (input : DraftChangeInput) : ChangeOperation :=
  pending_operation "02-migration" "database.expand-migration"
    ("apply backward-compatible database expansion " +:+ DraftChangeInput.MigrationID input) "irreversible-safe-residue"
    "retain the compatible schema expansion and report it".

Definition draft_migration (input : DraftChangeInput) (plan : ChangePlan)
    : sdk (result (ChangePlan * list ChangeOperation)) :=
  if DraftChangeInput.MigrationPath input == EmptyString then Ret (Ok (plan, []))
  else
    sql ←! (call (ReadFile (DraftChangeInput.MigrationPath input)) : sdk (result string));
    if negb (safeName (DraftChangeInput.MigrationID input)) || negb (safeName (DraftChangeInput.Database input))
    then Ret (Err (Errorf "migration requires safe migration and database service names"))
    else
      _ ←! lift (validateExpandMigration sql);
      Ret (Ok (with_migration input sql plan, [migration_operation input])).

Definition draft_release (s : System) (input : DraftChangeInput) (observed : ObservedRelease) (currentDesired : ReleaseManifest)
    : sdk (result ReleaseManifest) :=
  release ←! StageRelease s (DraftChangeInput.Release input);
  let release := ReleaseManifest.with_Replicas (current_replicas observed) release in
  release ← match ReleaseManifest.CapacityLease_ currentDesired with
            | Some lease =>
                t ← now;
                Ret (if t <? CapacityLease.ExpiresAt lease
                     then ReleaseManifest.with_CapacityLease_ (Some lease) release else release)
            | None => Ret release
            end;
  bind_wrap (PutJSON KManifest (releaseKey s (ReleaseManifest.Version release)) release)
    (Wrapf "persist release replica intent: ") (fun _ => Ret (Ok release)).

Definition bad_verification : error :=
  Errorf "v0 verification requires GET, an absolute path, and a valid expected status".
Definition no_revision : ChangeBaseRevision := ChangeBaseRevision.mk EmptyString 0 0.

Definition DraftChange (actor : option ActorRef) (revision : option ChangeBaseRevision) (s : System)
    (input : DraftChangeInput) : sdk (result Change) :=
  _ ←! lift (System_Validate s);
  if TrimSpace (DraftChangeInput.Summary input) == EmptyString then Ret (Err (Errorf "change summary is required"))
  else
    _ ←! lift (invalid_environment (PublishReleaseInput.Environment (DraftChangeInput.Release input)));
    bind_wrap (ReleaseStatus s) (Wrapf "read starting release: ") (fun observed =>
    if negb (running_base observed) then Ret (Err (Errorf "change requires a healthy running base release"))
    else
      bind_wrap (Get KManifest (desiredKey s)) (Wrapf "read current desired release: ") (fun currentDesired =>
      release ←! draft_release s input observed currentDesired;
      let verification := default_verification (DraftChangeInput.Verification input) in
      if negb (valid_verification verification) then Ret (Err bad_verification)
      else
        let running := ObservedRelease.RunningVersion observed in
        let plan := ChangePlan.mk (default no_revision revision) running release None None verification
                      (ChangeImpact.mk ["web"] "rolling replacement; no downtime expected" "none" 0) in
        '(plan, migration) ←! draft_migration input plan;
        draft actor s (DraftChangeInput.Summary input) plan
          ([pending_operation "01-precondition" "state.assert" "assert the approved base release is still healthy"
              "read-only" EmptyString] ++ migration ++
           [pending_operation "03-release" "release.set-desired"
              ("set desired release to " +:+ ReleaseManifest.Version release) "compensatable"
              ("restore desired release " +:+ running);
            pending_operation "04-health" "release.wait-healthy" "wait for the proposed release to become healthy"
              "read-only" EmptyString;
            pending_operation "05-verify" "http.verify" "verify the approved application outcome" "read-only"
              EmptyString]))).

Definition scale_operations (service : string) (from to : Z) (restoreAt : option Z) (running : string)
    : list ChangeOperation :=
  [pending_operation "01-precondition" "state.assert"
     ("assert release " +:+ running +:+ " remains healthy at " +:+ Itoa from +:+ " ready replicas") "read-only" EmptyString;
   pending_operation "02-scale" "release.scale" (scaleDescription service from to restoreAt) "compensatable"
     ("restore " +:+ service +:+ " to " +:+ Itoa from +:+ " replicas");
   pending_operation "03-ready" "release.wait-replicas"
     ("wait for " +:+ Itoa to +:+ " healthy " +:+ service +:+ " replicas to join traffic") "read-only" EmptyString;
   pending_operation "04-verify" "http.verify" "verify the approved application outcome while scaled" "read-only"
     EmptyString].

Definition scale_plan (revision : option ChangeBaseRevision) (service : string) (from to forSeconds : Z)
    (restoreAt : option Z) (running : string) (release : ReleaseManifest) (v : ChangeVerification) : ChangePlan :=
  ChangePlan.mk (default no_revision revision) running release
    (Some (ReplicaScalePlan.mk service from to "existing-host" forSeconds restoreAt
             (match restoreAt with Some _ => from | None => 0 end)))
    None v
    (ChangeImpact.mk [service] "capacity adjustment; healthy replicas remain serving" "none" 0).

Definition DraftScaleChange (actor : option ActorRef) (revision : option ChangeBaseRevision) (s : System)
    (input : DraftScaleChangeInput) : sdk (result Change) :=
  let to := DraftScaleChangeInput.Replicas input in
  let forSeconds := DraftScaleChangeInput.ForSeconds input in
  _ ←! lift (System_Validate s);
  if TrimSpace (DraftScaleChangeInput.Summary input) == EmptyString then Ret (Err (Errorf "change summary is required"))
  else
    '(service, maxReplicas) ←! lift (ScaleCapacity s (DraftScaleChangeInput.Service input));
    if (to <? 1) || (maxReplicas <? to)
    then Ret (Err (Errorf ("service " +:+ DraftScaleChangeInput.Service input +:+ " replicas must be between 1 and " +:+
                           Itoa maxReplicas +:+ " within current host capacity")))
    else if negb (forSeconds =? 0) && ((forSeconds <? 60) || (24 * 60 * 60 <? forSeconds))
    then Ret (Err (Errorf "temporary scale duration must be between 60 and 86400 seconds"))
    else
      bind_wrap (ReleaseStatus s) (Wrapf "read starting release: ") (fun observed =>
      if negb (running_base observed) then Ret (Err (Errorf "scale change requires a healthy running base release"))
      else
        bind_wrap (Get KManifest (desiredKey s)) (Wrapf "read desired release: ") (fun release =>
        t ← now;
        let from := effectiveReleaseReplicas release t in
        let ready := ready_replicas observed in
        if (ready != from) || ((0 <? ObservedRelease.DesiredReplicas observed) && (ObservedRelease.DesiredReplicas observed != from))
        then Ret (Err (Errorf ("scale change requires desired and ready replicas to agree; desired=" +:+ Itoa from +:+
                               " ready=" +:+ Itoa ready)))
        else if to == from
        then Ret (Err (Errorf ("service " +:+ SystemService.Name service +:+ " already has " +:+ Itoa from +:+ " ready replicas")))
        else
          let verification := default_verification (DraftScaleChangeInput.Verification input) in
          if negb (valid_verification verification) then Ret (Err bad_verification)
          else
            restoreAt ← (if 0 <? forSeconds then t ← now; Ret (Some (t + forSeconds * Second)) else Ret None);
            let release := ReleaseManifest.with_CapacityLease_
                             ((fun expires => CapacityLease.mk expires from) <$> restoreAt)
                             (ReleaseManifest.with_Replicas to release) in
            let running := ObservedRelease.RunningVersion observed in
            draft actor s (DraftScaleChangeInput.Summary input)
              (scale_plan revision (SystemService.Name service) from to forSeconds restoreAt running release verification)
              (scale_operations (SystemService.Name service) from to restoreAt running))).

End ChangeRun.

(** ** Declarative change requests (sdk/change_request.go)

    The document an agent submits: exactly one of a release and a scaling, an
    optional migration with a release, and a verification. *)

Section Requests.
Context `{Unicode}.
Context (visit : forall A, list A -> list A).

Definition request_spec (r : ChangeRequest) : ChangeRequestSpec.ChangeRequestSpec := ChangeRequest.Spec_ r.

(** The verification with its defaults, as a [ChangeVerification]. *)
Definition request_verification (v : ChangeRequestVerification) : ChangeVerification :=
  default_verification
    (ChangeVerification.mk (ChangeRequestVerification.Method v) (ChangeRequestVerification.Path v)
       (ChangeRequestVerification.ExpectedStatus v) (ChangeRequestVerification.BodyContains v)).

Definition validate_release (release : ChangeRequestRelease) : result unit :=
  reject_if ((TrimSpace (ChangeRequestRelease.Artifact release) == EmptyString) ||
             (length (ChangeRequestRelease.Command release) == 0%nat) ||
             negb (HasPrefix (ChangeRequestRelease.HealthPath release) "/") ||
             (ChangeRequestRelease.PublicPort release <? 1) || (65535 <? ChangeRequestRelease.PublicPort release))
    (Errorf "change request release requires artifact, command, absolute healthPath, and valid publicPort");;
  invalid_environment visit (ChangeRequestRelease.Environment release).

Definition validate_scale (scale : ChangeRequestScale) : result unit :=
  let seconds := ChangeRequestScale.ForSeconds scale in
  reject_if (negb (safeName (ChangeRequestScale.Service scale)) || (ChangeRequestScale.Replicas scale <? 1))
    (Errorf "change request scale requires a valid service and at least one replica");;
  reject_if (negb (seconds =? 0) && ((seconds <? 60) || (86400 <? seconds)))
    (Errorf "change request scale forSeconds must be between 60 and 86400").

Definition validate_migration (migration : ChangeRequestMigration) : result unit :=
  reject_if ((TrimSpace (ChangeRequestMigration.Path migration) == EmptyString) ||
             negb (safeName (ChangeRequestMigration.ID migration)) ||
             negb (safeName (ChangeRequestMigration.Service migration)))
    (Errorf "change request migration requires path, safe id, and safe service").

Definition ChangeRequest_Validate (r : ChangeRequest) : result unit :=
  let spec := request_spec r in
  reject_if ((ChangeRequest.APIVersion r != APIVersion) || (ChangeRequest.Kind r != "Change"))
    (Errorf ("change request requires apiVersion " +:+ APIVersion +:+ " and kind Change"));;
  reject_if (negb (safeName (Metadata.Name (ChangeRequest.Metadata_ r))) ||
             negb (safeName (ChangeRequestSpec.System spec)))
    (Errorf "change request requires valid metadata.name and spec.system");;
  reject_if (TrimSpace (ChangeRequestSpec.Summary spec) == EmptyString)
    (Errorf "change request requires spec.summary");;
  let exactly_one := Errorf "change request requires exactly one of spec.release or spec.scale" in
  match ChangeRequestSpec.Release spec, ChangeRequestSpec.Scale spec with
  | None, None | Some _, Some _ => Err exactly_one
  | Some release, None => validate_release release
  | None, Some scale => validate_scale scale
  end;;
  match ChangeRequestSpec.Migration spec with
  | None => Ok tt
  | Some migration =>
      match ChangeRequestSpec.Release spec with
      | None => Err (Errorf "change request migration may be combined only with a release")
      | Some _ => validate_migration migration
      end
  end;;
  reject_if (negb (valid_verification (request_verification (ChangeRequestSpec.Verification spec))))
    (Errorf "change request verification requires GET, an absolute path, and a valid expectedStatus").

Definition wrong_target (r : ChangeRequest) (s : System) : error :=
  Errorf ("change request targets system " +:+ Quote (ChangeRequestSpec.System (request_spec r)) +:+ ", not " +:+
          Quote (name_of s)).

Definition DraftInput (r : ChangeRequest) (s : System) : result DraftChangeInput :=
  let spec := request_spec r in
  ChangeRequest_Validate r;;
  reject_if (ChangeRequestSpec.System spec != name_of s) (wrong_target r s);;
  match ChangeRequestSpec.Release spec with
  | None => Err (Errorf "change request is a scale request, not a release request")
  | Some release =>
      let input := PublishReleaseInput.mk (ChangeRequestRelease.Artifact release) (ChangeRequestRelease.Command release)
                     (ChangeRequestRelease.Environment release) (ChangeRequestRelease.HealthPath release)
                     (ChangeRequestRelease.PublicPort release) in
      let '(path, id, service) :=
        match ChangeRequestSpec.Migration spec with
        | Some m => (ChangeRequestMigration.Path m, ChangeRequestMigration.ID m, ChangeRequestMigration.Service m)
        | None => (EmptyString, EmptyString, EmptyString)
        end in
      Ok (DraftChangeInput.mk (ChangeRequestSpec.Summary spec) input path id service
            (request_verification (ChangeRequestSpec.Verification spec)))
  end.

Definition scale_input (spec : ChangeRequestSpec.ChangeRequestSpec) (scale : ChangeRequestScale) : DraftScaleChangeInput :=
  DraftScaleChangeInput.mk (ChangeRequestSpec.Summary spec) (ChangeRequestScale.Service scale)
    (ChangeRequestScale.Replicas scale) (ChangeRequestScale.ForSeconds scale)
    (request_verification (ChangeRequestSpec.Verification spec)).

Definition DraftChangeRequest (actor : option ActorRef) (revision : option ChangeBaseRevision) (s : System)
    (r : ChangeRequest) : sdk (result Change) :=
  _ ←! lift (ChangeRequest_Validate r);
  if ChangeRequestSpec.System (request_spec r) != name_of s then Ret (Err (wrong_target r s))
  else
    match ChangeRequestSpec.Scale (request_spec r) with
    | Some scale => DraftScaleChange actor revision s (scale_input (request_spec r) scale)
    | None => input ←! lift (DraftInput r s); DraftChange visit actor revision s input
    end.

End Requests.
