(* ===== verification/Nodes.v ===== *)
(** * What a node reads and writes (sdk/node_gateway.go)

    A node polls a snapshot of its System's desired state, fetches the artifact
    of the desired release, and reports.  The snapshot's generation is the
    digest of its contents.

    Lists whose Go value may be nil are [null] in JSON; the lists below that
    the program builds with [append] from nil are rendered so when empty. *)

From S2P Require Import Prelude Effects GoStrings Digest Documents Json SandboxSpec Calls Systems Creation Releases.
From S2P Require Import Changes.

Section Nodes.
Context `{Unicode}.

(** ** The generation of a snapshot *)
Definition nil_or {A} (f : A -> json) (l : list A) : json := match l with [] => JNull | _ => JArray (f <$> l) end.

Definition runtime_service_json (v : RuntimeService) : json :=
  let r := RuntimeService.Resources v in
  let ready := RuntimeService.Readiness_ v in
  JObject (field "name" (JString (RuntimeService.Name v)) ++ field "binding" (JString (RuntimeService.Binding v)) ++
           field "kind" (JString (RuntimeService.Kind v)) ++ field "engine" (JString (RuntimeService.Engine v)) ++
           field "instances" (JInt (RuntimeService.Instances v)) ++
           field "resources" (JObject (field "vcpu" (JInt (ServiceResources.VCPU r)) ++
                                       field "memoryMiB" (JInt (ServiceResources.MemoryMiB r)))) ++
           field "readiness" (JObject (field "protocol" (JString (Readiness.Protocol ready)) ++
                                       field "port" (JInt (Readiness.Port ready))))).

Definition runtime_plan_json (p : RuntimePlan) : json :=
  JObject (field "schemaVersion" (JString (RuntimePlan.SchemaVersion p)) ++
           field "system" (JString (RuntimePlan.System p)) ++
           field "services" (nil_or runtime_service_json (RuntimePlan.Services p))).

Definition node_desired_json (d : NodeDesiredRelease) : json :=
  JObject (field "schemaVersion" (JString (NodeDesiredRelease.SchemaVersion d)) ++
           field "system" (JString (NodeDesiredRelease.System d)) ++
           field "version" (JString (NodeDesiredRelease.Version d)) ++
           field "artifactSha256" (JString (NodeDesiredRelease.ArtifactSHA d)) ++
           field "command" (nil_or JString (NodeDesiredRelease.Command d)) ++
           omit_map "environment" (NodeDesiredRelease.Environment d) ++
           field "healthPath" (JString (NodeDesiredRelease.HealthPath d)) ++
           field "publicPort" (JInt (NodeDesiredRelease.PublicPort d)) ++
           field "replicas" (JInt (NodeDesiredRelease.Replicas d)) ++
           omit_option "capacityLease" capacity_lease_json (NodeDesiredRelease.CapacityLease_ d) ++
           field "requestedAt" (time_json (NodeDesiredRelease.RequestedAt d))).

Definition control_json (c : RuntimeControl) : json :=
  JObject (field "id" (JString (RuntimeControl.ID c)) ++ field "action" (JString (RuntimeControl.Action c)) ++
           field "requestedAt" (time_json (RuntimeControl.RequestedAt c))).

Definition parameters_json (m : gmap string string) : json :=
  JObject ((fun kv => (kv.1, JString kv.2)) <$> merge_sort key_le (map_to_list m)).

Definition runtime_action_json (a : RuntimeAction) : json :=
  JObject (field "schemaVersion" (JString (RuntimeAction.SchemaVersion a)) ++ field "id" (JString (RuntimeAction.ID a)) ++
           field "system" (JString (RuntimeAction.System a)) ++ field "service" (JString (RuntimeAction.Service a)) ++
           field "kind" (JString (RuntimeAction.Kind a)) ++
           field "parameters" (parameters_json (RuntimeAction.Parameters a)) ++
           field "leaseKey" (JString (RuntimeAction.LeaseKey a)) ++
           field "fencingToken" (JString (RuntimeAction.FencingToken a)) ++
           field "requestedAt" (time_json (RuntimeAction.RequestedAt a))).

Definition change_lease_json (l : ChangeLease) : json :=
  JObject (field "schemaVersion" (JString (ChangeLease.SchemaVersion l)) ++
           field "changeId" (JString (ChangeLease.ChangeID l)) ++ field "holder" (JString (ChangeLease.Holder l)) ++
           field "fencingToken" (JString (ChangeLease.FencingToken l)) ++
           field "expiresAt" (time_json (ChangeLease.ExpiresAt l))).

Definition node_action_json (a : NodeRuntimeAction) : json :=
  JObject (field "action" (runtime_action_json (NodeRuntimeAction.Action a)) ++
           field "lease" (change_lease_json (NodeRuntimeAction.Lease a))).

Definition snapshot_json (plan : option RuntimePlan) (desired : option NodeDesiredRelease)
    (control : option RuntimeControl) (action : option NodeRuntimeAction) : json :=
  JObject (omit_option "runtimePlan" runtime_plan_json plan ++ omit_option "desired" node_desired_json desired ++
           omit_option "control" control_json control ++ omit_option "runtimeAction" node_action_json action).

Definition snapshot_instants (desired : option NodeDesiredRelease) (control : option RuntimeControl)
    (action : option NodeRuntimeAction) : list Z :=
  match desired with
  | Some d => NodeDesiredRelease.RequestedAt d ::
      match NodeDesiredRelease.CapacityLease_ d with Some l => [CapacityLease.ExpiresAt l] | None => [] end
  | None => []
  end ++
  match control with Some c => [RuntimeControl.RequestedAt c] | None => [] end ++
  match action with
  | Some a => [RuntimeAction.RequestedAt (NodeRuntimeAction.Action a); ChangeLease.ExpiresAt (NodeRuntimeAction.Lease a)]
  | None => []
  end.

Definition generation (plan : option RuntimePlan) (desired : option NodeDesiredRelease)
    (control : option RuntimeControl) (action : option NodeRuntimeAction) : result string :=
  if forallb marshals (snapshot_instants desired control action)
  then Ok (sha256_hex (render (snapshot_json plan desired control action)))
  else Err (External "json: Time.MarshalJSON: year outside of range [0,9999]").

Definition Client_NodeSnapshot (s : System) : sdk (result NodeSnapshot) :=
  _ ←! lift (System_Validate s);
  plan ←! snapshot_plan s;
  desired ←! snapshot_desired s;
  control ←! snapshot_control s;
  action ←! snapshot_action s;
  generation ←! lift (generation plan desired control action);
  Ret (Ok (NodeSnapshot.mk "v1" generation (name_of s) plan desired control action)).

(** ** The artifact of the desired release *)
Definition NodeArtifact (s : System) (digest ownedKey : string) : sdk (result string) :=
  if (slen digest != 64) || (digest != ToLower digest) then Ret (Err (Errorf "invalid artifact digest"))
  else
    desired ←! Get KManifest (desiredKey s);
    if (ReleaseManifest.System desired != name_of s) || (ReleaseManifest.ArtifactSHA desired != digest)
    then Ret (Err (Errorf "artifact is not current desired state"))
    else
      let key := ReleaseManifest.ArtifactKey desired in
      if negb (HasPrefix key (system_base s +:+ "/artifacts/")) && (key != ownedKey)
      then Ret (Err (Errorf "artifact key is outside system capability"))
      else
        b ←! GetBytes key;
        if sha256_hex b != digest then Ret (Err (Errorf "artifact digest mismatch")) else Ret (Ok b).

(** ** Reports *)
Definition PutNodeObserved (s : System) (observed : ObservedRelease) : sdk (result unit) :=
  if (ObservedRelease.SchemaVersion observed != "v1") || (ObservedRelease.System observed != name_of s)
  then Ret (Err (Errorf "invalid observed state"))
  else PutJSON KObserved (observedKey s) observed.

Definition PutNodeControlAck (s : System) (controlID : string) (completedAt : Z) : sdk (result unit) :=
  current ←! Get KControl (controlKey s);
  if RuntimeControl.ID current != controlID then Ret (Err (Errorf "control is not current"))
  else PutJSON KControlAck (controlAckKey s)
         (ControlAck.mk (RuntimeControl.ID current) (RuntimeControl.Action current) completedAt).

Definition PutNodeRuntimeActionResult (s : System) (res : RuntimeActionResult) : sdk (result unit) :=
  current ←! Get KAction (runtimeActionRequestKey s);
  if (RuntimeActionResult.SchemaVersion res != "v1") || (RuntimeActionResult.System res != name_of s) ||
     (RuntimeActionResult.ID res != RuntimeAction.ID current)
  then Ret (Err (Errorf "runtime result does not match current action"))
  else if negb (HasPrefix (RuntimeAction.LeaseKey current) (changesPrefix s))
  then Ret (Err (Errorf "runtime action lease is outside system capability"))
  else
    lease ←! Get KLease (RuntimeAction.LeaseKey current);
    let invalid := Ret (Err (Errorf "runtime action lease is no longer valid")) in
    if ChangeLease.FencingToken lease != RuntimeAction.FencingToken current then invalid
    else
      t ← now;
      if lease_covers current lease t
      then PutJSON KActionResult (runtimeActionResultKey s (RuntimeActionResult.ID res)) res
      else invalid.

End Nodes.
