(* ===== verification/Endpoints.v ===== *)
(** * Public endpoints and the bootstrap of a host (sdk/endpoint.go, sdk/release.go)

    What a user or agent outside sees of a System, observed over HTTP and
    recorded; and the bootstrap script that enrolls a host with its gateway.
    [url_Parse] is net/url's parser. *)

From S2P Require Import Prelude Effects GoStrings Digest Documents Json SandboxSpec Calls Systems Topology Lifecycle.
From S2P Require Import Creation Destruction Exposure Releases Changes ChangeRun.

(** The fields of [url.URL] the program looks at. *)
Record URL : Type := MkURL {
  url_Scheme : string;
  url_Host : string;
  url_User : option string;
  url_RawQuery : string;
  url_Fragment : string;
  url_Hostname : string;
  url_Opaque : string
}.

Section Endpoints.
Context `{Unicode}.
Context (fuel : nat).

Definition publicEndpointKey (s : System) : string := system_base s +:+ "/public-endpoint.json".

Definition recordEndpointObservation (s : System) (observation : PublicEndpointObservation)
    : sdk (result PublicEndpointObservation) :=
  bind_wrap (PutJSON KEndpoint (publicEndpointKey s) observation) (Wrapf "record public endpoint observation: ")
    (fun _ => Ret (Ok observation)).

Definition observation_of (s : System) (version phase url : string) (status : Z) (message : string) (t : Z)
    : PublicEndpointObservation :=
  PublicEndpointObservation.mk "v1" (name_of s) version phase url status message t.

(** Phase and message of a response to the approved verification. *)
Definition verification_outcome (v : ChangeVerification) (status : Z) (body : string) : string * string :=
  if status != ChangeVerification.ExpectedStatus v
  then ("failed", "expected HTTP " +:+ Itoa (ChangeVerification.ExpectedStatus v) +:+ ", got HTTP " +:+ Itoa status)
  else if (ChangeVerification.BodyContains v != EmptyString) && negb (Contains body (ChangeVerification.BodyContains v))
  then ("failed", "response body did not contain the approved marker")
  else ("ready", "approved public verification passed").

(** The only resource of the host and its address. *)
Definition host_address (state : State) : option string :=
  match State.Resources state with
  | [host] => if Resource.Address host == EmptyString then None else Some (Resource.Address host)
  | _ => None
  end.

Definition http_get (url : string) : sdk (result (Z * result string)) :=
  _ ←! (call (HTTPPrepare "GET" url) : sdk (result unit));
  (call (HTTPDo "GET" url) : sdk (result (Z * result string))).

Definition endpoint_url (address : string) (port : Z) (path : string) : string :=
  "http://" +:+ JoinHostPort address (Itoa port) +:+ path.

(** The observation is returned with the error when it is recorded as failed. *)
Definition VerifyPublicEndpoint (s : System) (version : string) (v : ChangeVerification)
    : sdk (option PublicEndpointObservation * option error) :=
  let fail (e : error) := Ret (None, Some e) in
  let v := default_verification v in
  if negb (valid_verification v)
  then fail (Errorf "verification requires GET, an absolute path, and a valid expected status")
  else
    '(state, err) ← SystemHostStatus s;
    match state, err with
    | _, Some e => fail e
    | None, None => fail (Panic "no state")
    | Some state, None =>
        match host_address state, systemPublicPort s with
        | None, _ => fail (Errorf "system host has no public address")
        | Some _, Err e => fail e
        | Some address, Ok port =>
            let url := endpoint_url address port (ChangeVerification.Path v) in
            response ← http_get url;
            match response with
            | Err e => fail e
            | Ok (status, body) =>
                match readEndpointBody body with
                | Err e => fail e
                | Ok body =>
                    t ← now;
                    let '(phase, message) := verification_outcome v status body in
                    let observation := observation_of s version phase url status message t in
                    recorded ← recordEndpointObservation s observation;
                    match recorded with
                    | Err e => fail e
                    | Ok _ =>
                        Ret (Some observation,
                             if phase != "ready" then Some (Errorf ("public verification failed: " +:+ message)) else None)
                    end
                end
            end
        end
    end.

(** [observeHTTP]: status and message. *)
Definition observeHTTP (endpoint : string) : sdk (Z * string) :=
  response ← http_get endpoint;
  Ret (match response with
       | Err e => (0, Error e)
       | Ok (status, _) =>
           if (status <? 200) || (300 <=? status) then (status, "public health returned HTTP " +:+ Itoa status)
           else (status, "public endpoint is reachable")
       end).

Definition ObservePublicEndpoint (s : System) (release : ObservedRelease) : sdk (result PublicEndpointObservation) :=
  t ← now;
  let running := ObservedRelease.RunningVersion release in
  let waiting message := recordEndpointObservation s (observation_of s running "waiting" EmptyString 0 message t) in
  if negb (running_base release) then waiting "release is not internally healthy"
  else
    '(state, err) ← SystemHostStatus s;
    match state, err with
    | _, Some e => Ret (Err (Wrapf "inspect public endpoint host: " e))
    | None, None => Ret (Err (Panic "no state"))
    | Some state, None =>
        match host_address state with
        | None => waiting "host has no public address"
        | Some address =>
            port ←! lift (systemPublicPort s);
            manifest ←! GetOptional KManifest (releaseKey s running);
            let path := match manifest with
                        | Some m => if HasPrefix (ReleaseManifest.HealthPath m) "/" then ReleaseManifest.HealthPath m else "/health"
                        | None => "/health"
                        end in
            let url := endpoint_url address port path in
            '(status, message) ← observeHTTP url;
            let phase := if (200 <=? status) && (status <? 300) then "ready" else "waiting" in
            recordEndpointObservation s (observation_of s running phase url status message t)
        end
    end.

Definition InspectRelease (s : System) : sdk (result ReleaseView) :=
  release ←! ReleaseStatus s;
  observation ←! ObservePublicEndpoint s release;
  Ret (Ok (ReleaseView.mk release observation)).

(** The last view, and the error if the endpoint did not become ready. *)
Fixpoint wait_endpoint (n : nat) (s : System) (last : option ReleaseView) : sdk (option ReleaseView * option error) :=
  match n with
  | O => Ret (last, Some OutOfFuel)
  | S n' =>
      view ← InspectRelease s;
      match view with
      | Err e => Ret (last, Some e)
      | Ok view =>
          let endpoint := ReleaseView.PublicEndpoint view in
          if PublicEndpointObservation.Phase endpoint == "ready" then Ret (Some view, None)
          else
            w ← select;
            match w with
            | WDone e =>
                Ret (Some view, Some (Wrapf ("public endpoint did not become ready: " +:+
                                             PublicEndpointObservation.Message endpoint +:+ ": ") e))
            | _ => wait_endpoint n' s (Some view)
            end
      end
  end.
Definition WaitPublicEndpoint (s : System) : sdk (option ReleaseView * option error) := wait_endpoint fuel s None.

(** ** Bootstrapping a host via the gateway *)
Section Bootstrap.
Context (url_Parse : string -> option URL).
Context (createReconcileGrace : Z).

Definition valid_gateway (gateway : NodeBootstrapConfig) : result unit :=
  let bad := Errorf "node gateway URL must be an absolute HTTPS URL" in
  match url_Parse (TrimSpace (NodeBootstrapConfig.GatewayURL gateway)) with
  | None => Err bad
  | Some parsed =>
      reject_if ((url_Scheme parsed != "https") || (url_Host parsed == EmptyString) ||
                 match url_User parsed with Some _ => true | None => false end ||
                 (url_RawQuery parsed != EmptyString) || (url_Fragment parsed != EmptyString)) bad;;
      reject_if ((NodeBootstrapConfig.EnrollmentID gateway == EmptyString) ||
                 negb (HasPrefix (NodeBootstrapConfig.EnrollmentToken gateway) "ce_"))
        (Errorf "valid one-time node enrollment is required")
  end.

Definition gateway_base (gateway : NodeBootstrapConfig) : string :=
  TrimRight (NodeBootstrapConfig.GatewayURL gateway) "/"%char.
Definition exchange_url (gateway : NodeBootstrapConfig) : string :=
  gateway_base gateway +:+ "/v1/node/enrollments/" +:+ PathEscape (NodeBootstrapConfig.EnrollmentID gateway) +:+ "/exchange".

Definition bootstrap_script (nodeURL digest : string) (publicPort : Z) (gateway : NodeBootstrapConfig)
    (systemArg gatewayArg : string) : string :=
  quoted "set -eu~curl -fsSL --proto '=https' --tlsv1.2 " +:+ shellQuote nodeURL +:+
   quoted " -o /usr/local/bin/canter-node~printf '%s  %s\n' " +:+ shellQuote digest +:+
   quoted " /usr/local/bin/canter-node | sha256sum --check --status~chmod 0755 /usr/local/bin/canter-node~" +:+
   quoted "install -d -m 0750 /etc/canter /var/lib/canter-node~" +:+
   quoted "install -m 0600 /dev/null /run/canter-enroll.conf~printf 'header = `Authorization: Bearer %s`\n' " +:+ shellQuote (NodeBootstrapConfig.EnrollmentToken gateway) +:+
   quoted " > /run/canter-enroll.conf~" +:+
   quoted "curl -fsS --proto '=https' --tlsv1.2 --request POST --config /run/canter-enroll.conf " +:+ shellQuote (exchange_url gateway) +:+
   quoted " | python3 -c 'import json,sys; value=json.load(sys.stdin)[`nodeToken`]; assert value.startswith(`cn_`); print(value)' > /etc/canter/node.token~" +:+
   quoted "rm -f /run/canter-enroll.conf~chmod 0600 /etc/canter/node.token~" +:+
   quoted "cat > /etc/systemd/system/canter-node.service <<'EOF'~[Unit]~" +:+
   quoted "Description=Canter application reconciler~After=network-online.target~Wants=network-online.target~~" +:+
   quoted "[Service]~Type=simple~ExecStart=/usr/local/bin/canter-node --system " +:+ systemArg +:+
   quoted " --gateway " +:+ gatewayArg +:+
   quoted " --token-file /etc/canter/node.token --public-port " +:+ Itoa publicPort +:+
   quoted "~Restart=always~RestartSec=1~~[Install]~WantedBy=multi-user.target~EOF~systemctl daemon-reload~" +:+
   quoted "systemctl enable --now canter-node.service~" +:+
   quoted "for attempt in $(seq 1 30); do systemctl is-active --quiet canter-node.service && exit 0; sleep 1; done~" +:+
   quoted "systemctl status --no-pager canter-node.service || true~exit 1".

Definition renderNodeBootstrap (s : System) (nodeURL digest : string) (publicPort : Z) (gateway : NodeBootstrapConfig)
    : result string :=
  System_Validate s;;
  valid_gateway gateway;;
  systemArg ← systemdQuoteArg (name_of s);
  gatewayArg ← systemdQuoteArg (gateway_base gateway);
  Ok (bootstrap_script nodeURL digest publicPort gateway systemArg gatewayArg).

Definition BootstrapSystemHostViaGateway (s : System) (nodeBinary : string) (gateway : NodeBootstrapConfig)
    : sdk (result ApplyResult) :=
  _ ←! lift (System_Validate s);
  _ ←! lift (valid_gateway gateway);
  if HostConstraint.Count (host_of s) != 1
  then Ret (Err (Errorf "node runtime experiment currently requires exactly one host"))
  else
    runtimePlan ←! lift (CompileRuntimePlan s);
    bind_wrap (PutJSON KRuntimePlan (runtimePlanKey s) runtimePlan) (Wrapf "persist runtime plan: ") (fun _ =>
    let digest := sha256_hex nodeBinary in
    let nodeKey := system_base s +:+ "/runtime/canter-node-" +:+ version_of digest in
    _ ←! Put nodeKey nodeBinary "application/octet-stream";
    url ←! (call (M1PresignGet nodeKey (15 * Minute)) : sdk (result string));
    publicPort ←! lift (systemPublicPort s);
    bootstrap ←! lift (renderNodeBootstrap s url digest publicPort gateway);
    '(res, err) ← Client_Apply fuel createReconcileGrace (SystemHostSpec s bootstrap);
    match res, err with
    | _, Some e => Ret (Err e)
    | None, None => Ret (Err (Panic "no result"))
    | Some res, None =>
        '(res, err) ← exposeSystemHost s res;
        Ret (match err with Some e => Err e | None => Ok res end)
    end).

End Bootstrap.

End Endpoints.
