(* ===== verification/Namespace.v ===== *)
(** * The object-store namespace of a System

    Every document of a System lives under its prefix.  [document] lists them;
    [document_key] is the key the source computes for each.  The prefix a
    control plane assigns ([canonicalSystemPrefix]) keeps the documents of two
    tenants apart. *)

From S2P Require Import Prelude Effects GoStrings Documents SandboxSpec Calls Systems Admission Creation Releases.
From S2P Require Import Changes Endpoints.

Inductive document : Type :=
  | DState | DDesired | DObserved | DControl | DControlAck | DRuntimePlan | DEndpoint | DLease
  | DActionRequest | DActionResult (id : string) | DRelease (version : string) | DChange (id : string).

(** Changes are named by [safeName]. *)
Definition document_ok (d : document) : bool := match d with DChange id => safeName id | _ => true end.

Section Namespace.
Context `{Unicode}.

Definition document_key (s : System) (d : document) : string :=
  match d with
  | DState => stateKey (SystemHostSpec s "true")
  | DDesired => desiredKey s
  | DObserved => observedKey s
  | DControl => controlKey s
  | DControlAck => controlAckKey s
  | DRuntimePlan => runtimePlanKey s
  | DEndpoint => publicEndpointKey s
  | DLease => changeLeaseKey s
  | DActionRequest => runtimeActionRequestKey s
  | DActionResult id => runtimeActionResultKey s id
  | DRelease version => releaseKey s version
  | DChange id => changeKey s id
  end.

(** The part below the prefix. *)
Definition document_path (d : document) : string :=
  match d with
  | DState => "state.json"
  | DDesired => "desired.json"
  | DObserved => "observed.json"
  | DControl => "control.json"
  | DControlAck => "control-ack.json"
  | DRuntimePlan => "runtime-plan.json"
  | DEndpoint => "public-endpoint.json"
  | DLease => "changes/execution.lease.json"
  | DActionRequest => "runtime-actions/request.json"
  | DActionResult id => "runtime-actions/results/" +:+ (id +:+ ".json")
  | DRelease version => "releases/" +:+ (version +:+ ".json")
  | DChange id => "changes/" +:+ (id +:+ ".json")
  end.

Lemma document_key_path s d : document_key s d = system_base s +:+ String "/" (document_path d).
Proof.
  destruct d; cbn [document_key document_path]; try done;
    unfold runtimeActionResultKey, releaseKey, changeKey; by rewrite <- ?append_assoc.
Qed.

Lemma json_inj p a b : p +:+ (a +:+ ".json") = p +:+ (b +:+ ".json") -> a = b.
Proof. intros E. by apply append_inj_l, append_inj_r in E. Qed.

Lemma lease_is_no_change id : safeName id = true -> document_path DLease <> document_path (DChange id).
Proof.
  intros Hid E. cbn [document_path] in E.
  change "changes/execution.lease.json" with ("changes/" +:+ ("execution.lease" +:+ ".json")) in E.
  apply json_inj in E as <-. discriminate Hid.
Qed.

Lemma document_path_inj d d' :
  document_ok d = true -> document_ok d' = true -> document_path d = document_path d' -> d = d'.
Proof.
  destruct d, d'; intros Hd Hd' E; try done; cbn [document_path] in E; try discriminate E.
  - by apply lease_is_no_change in E.
  - by apply json_inj in E as ->.
  - by apply json_inj in E as ->.
  - by apply eq_sym, lease_is_no_change in E.
  - by apply json_inj in E as ->.
Qed.

(** ** The prefix a control plane assigns *)
Lemma validated_name s : System_Validate s = Ok tt -> safeName (name_of s) = true.
Proof. intros Hv. apply admitted_iff, ad_header in Hv. unfold validate_header in Hv. ok_inv. by bool_inv. Qed.

Lemma canonical_base w s :
  validateCanonicalSystemForWorkspace w s = Ok tt ->
  system_base s = "workspaces/" +:+ w +:+ "/systems/" +:+ name_of s /\ safeName (name_of s) = true.
Proof.
  unfold validateCanonicalSystemForWorkspace, canonicalSystemPrefix. cbv zeta.
  intros ([] & Hvalid & Hv)%result_bind_ok. apply result_bind_ok in Hv as (p & Hp & Hv).
  destruct (ValidateM1Prefix _) as [[]|] eqn:Ep in Hp; [|done]. injection Hp as <-.
  apply reject_if_ok in Hv. bool_inv. split; [|by apply validated_name].
  apply ValidateM1Prefix_ok in Ep as (_ & _ & _ & Hs & _).
  unfold system_base, base. rewrite Hv. by apply TrimRight_idem.
Qed.

Lemma Split_at w p c : contains_byte w c = false -> Split (w +:+ String c p) c = w :: Split p c.
Proof. intros Hw. by rewrite Split_app, Split_word. Qed.

Lemma Split_base w n p :
  contains_byte w "/" = false -> contains_byte n "/" = false ->
  Split (("workspaces/" +:+ w +:+ "/systems/" +:+ n) +:+ String "/" p) "/" =
  ["workspaces"; w; "systems"; n] ++ Split p "/".
Proof.
  intros Hw Hn. rewrite <- !append_assoc.
  change ("workspaces/" +:+ ?x) with ("workspaces" +:+ String "/" x). rewrite Split_at by done.
  change ("/systems/" +:+ ?x) with (String "/" ("systems" +:+ String "/" x)).
  by rewrite !Split_at by done.
Qed.
End Namespace.
