(* ===== verification/Vps.v ===== *)
(** * Standalone servers and metering (sdk/vps.go, sdk/billing.go)

    A VPS reuses the fenced lifecycle of a sandbox with an allocation resolved
    beforehand.  [ssh_authorized_key] is golang.org/x/crypto/ssh: the canonical
    form of the first key of an authorized_keys text, its options, and the rest
    of the text. *)

From S2P Require Import Prelude Effects GoStrings Digest Documents SandboxSpec Calls Systems Lifecycle Creation.
From S2P Require Import Destruction Exposure Releases.

(** ** net/netip: IPv4 prefixes.  Any other prefix is [None] here. *)
Definition decimal_digits (s : string) : bool := (s != EmptyString) && string_forallb is_digit s.
Definition decimal (s : string) : Z :=
  fold_left (fun n c => n * 10 + (byte_of c - 48)) (String.list_ascii_of_string s) 0.
Definition no_leading_zero (s : string) : bool := (s == "0") || negb (HasPrefix s "0").
Definition number_upto (bound : Z) (s : string) : option Z :=
  if decimal_digits s && no_leading_zero s && (decimal s <=? bound) then Some (decimal s) else None.

Definition ParseIPv4Prefix (s : string) : option (list Z * Z) :=
  match Split s "/"%char with
  | [addr; bits] =>
      octets ← mapM (number_upto 255) (Split addr "."%char);
      n ← number_upto 32 bits;
      if (length octets =? 4)%nat then Some (octets, n) else None
  | _ => None
  end.

(** [Prefix.Masked]. *)
Fixpoint mask_octets (bits : Z) (octets : list Z) : list Z :=
  match octets with
  | [] => []
  | o :: rest =>
      let keep := Z.max 0 (Z.min 8 bits) in
      Z.shiftl (Z.shiftr o (8 - keep)) (8 - keep) :: mask_octets (bits - 8) rest
  end.
Definition prefix_String (p : list Z * Z) : string := Join (Itoa <$> p.1) "." +:+ "/" +:+ Itoa p.2.

Example mask_ex : prefix_String ∘ (fun p => (mask_octets p.2 p.1, p.2)) <$> ParseIPv4Prefix "203.0.113.77/20" =
  Some "203.0.112.0/20".
Proof. vm_compute. reflexivity. Qed.

Section Vps.
Context `{Unicode}.
Context (ssh_authorized_key : string -> option (string * list string * string)).

(** ** Requests: validation replaces the key and the prefix by canonical ones *)
Definition VPSRequest_Validate (r : VPSRequest) : result VPSRequest :=
  reject_if (negb (safeName (VPSRequest.Name r)))
    (Errorf "server name must start with a letter and contain up to 48 lowercase letters, numbers, or hyphens");;
  reject_if ((VPSRequest.VCPUs r <? 1) || (32 <? VPSRequest.VCPUs r) || (VPSRequest.MemoryMiB r <? 512) ||
             (131072 <? VPSRequest.MemoryMiB r) || (VPSRequest.DiskGiB r <? 10) || (2048 <? VPSRequest.DiskGiB r))
    (Errorf "requested VM dimensions are outside supported bounds");;
  reject_if (negb (VPSRequest.ForSeconds r =? 0) && ((VPSRequest.ForSeconds r <? 300) || (604800 <? VPSRequest.ForSeconds r)))
    (Errorf "temporary servers require a duration from 5 minutes to 7 days; use 0 for no automatic expiry");;
  let bad_key := Errorf "supply one SSH public key without authorized_keys options; never a private key" in
  match ssh_authorized_key (VPSRequest.SSHPublicKey r) with
  | None => Err bad_key
  | Some (key, options, rest) =>
      reject_if (negb (rest == EmptyString) || negb (length options == 0%nat) ||
                 (16384 <? slen (VPSRequest.SSHPublicKey r))) bad_key;;
      match ParseIPv4Prefix (VPSRequest.SSHCIDR r) with
      | None => Err (Errorf "SSH access needs an IPv4 CIDR, for example your public IP followed by /32")
      | Some (octets, bits) =>
          Ok (VPSRequest.with_SSHCIDR (prefix_String (mask_octets bits octets, bits))
                (VPSRequest.with_SSHPublicKey (TrimSpace key) r))
      end
  end.

(** Only the validated key and prefix enter the script. *)
Definition vpsBootstrap (request : VPSRequest) : string :=
  quoted ("export DEBIAN_FRONTEND=noninteractive~command -v ufw >/dev/null~command -v sshd >/dev/null~" +:+
    "id canter >/dev/null 2>&1 || useradd -m -s /bin/bash canter~" +:+
    "install -d -m 700 -o canter -g canter /home/canter/.ssh~printf '%s' '") +:+
  base64_encode (string_bytes (VPSRequest.SSHPublicKey request +:+ String (chr 10) EmptyString)) +:+
  quoted ("' | base64 -d > /home/canter/.ssh/authorized_keys~" +:+
    "chown canter:canter /home/canter/.ssh/authorized_keys~" +:+
    "chmod 600 /home/canter/.ssh/authorized_keys~" +:+
    "printf 'canter ALL=(ALL) NOPASSWD:ALL\n' > /etc/sudoers.d/canter~" +:+
    "chmod 440 /etc/sudoers.d/canter~" +:+
    "printf 'PasswordAuthentication no\nKbdInteractiveAuthentication no\nPermitRootLogin no\nAllowUsers canter\n' > /etc/ssh/sshd_config.d/00-canter.conf~" +:+
    "ufw default deny incoming~ufw default allow outgoing~ufw allow from ") +:+
  VPSRequest.SSHCIDR request +:+
  quoted (" to any port 22 proto tcp~ufw --force enable~sshd -t~systemctl restart ssh~" +:+
    "systemctl is-active --quiet ssh~" +:+
    "ssh-keygen -lf /etc/ssh/ssh_host_ed25519_key.pub -E sha256 | awk '{print $2}'").

Definition vps_identity (workspace id : string) : string :=
  "vps-" +:+ take_bytes 32 (sha256_hex (workspace +:+ "/" +:+ id)).

Definition vps_spec (workspace id : string) (request : VPSRequest) : Spec :=
  Spec.mk APIVersion "Sandbox" (Metadata.mk (vps_identity workspace id))
    (Desired.mk ("Standalone VPS " +:+ VPSRequest.Name request)
       (ComputeSpec.mk "vps" "ubuntu-24.04" 1 (vpsBootstrap request))
       (M1Spec.mk ("workspaces/" +:+ workspace +:+ "/vps/" +:+ id)) (Policy.mk 1)).

Definition PlanVPS (workspace id : string) (request : VPSRequest) : sdk (result VPSPlan) :=
  request ←! lift (VPSRequest_Validate request);
  if negb (safeM1Segment workspace) || negb (safeM1Segment id)
  then Ret (Err (Errorf "invalid VPS ownership namespace"))
  else
    sized ← (call (Supports "ResolveSize") : sdk bool);
    if negb sized then Ret (Err (Errorf "VM catalog is unavailable"))
    else
      '(shape, image, networks) ←!
        (call (ResolveSize (VPSRequest.VCPUs request) (VPSRequest.MemoryMiB request) (VPSRequest.DiskGiB request)
                 "ubuntu-24.04") : sdk (result (Shape * string * list string)));
      Ret (Ok (VPSPlan.mk (vps_spec workspace id request) shape image networks)).

(** ** Applying: no plan of a model, no other shape *)
Section Apply.
Context (fuel : nat) (createReconcileGrace : Z) (visit : forall A, list A -> list A).

Definition matches_allocation (plan : VPSPlan) (state : State) : bool :=
  match State.CreationIntent_ state with
  | Some ci => (CreationIntent.ShapeID ci == Shape.ID (VPSPlan.Shape_ plan)) &&
               (CreationIntent.ImageID ci == VPSPlan.ImageID plan)
  | None => false
  end.

Definition vps_state (plan : VPSPlan) : sdk (result State) :=
  let spec := VPSPlan.Spec_ plan in
  read ←! GetJSONVersion KState (stateKey spec);
  match read with
  | Some (state, _) => Ret (Ok state)
  | None => createResolvedIntent spec (stateKey spec) false EmptyString (VPSPlan.Shape_ plan) (VPSPlan.ImageID plan)
              (VPSPlan.Networks plan)
  end.

Definition resume_vps (spec : Spec) (state : State) : sdk (State * option error) :=
  if State.Phase state == "creating" then
    match validateCreationIntent spec state with
    | Err e => Ret (state, Some e)
    | Ok _ =>
        '(state, r) ← reconcileCreation fuel createReconcileGrace spec (stateKey spec) state;
        Ret (state, match r with inl e => Some e | inr _ => None end)
    end
  else Ret (state, None).

Definition ApplyVPS (plan : VPSPlan) : sdk (option State * option error) :=
  let spec := VPSPlan.Spec_ plan in
  match Spec_Validate spec with
  | Err e => Ret (None, Some e)
  | Ok _ =>
      read ← vps_state plan;
      match read with
      | Err e => Ret (None, Some e)
      | Ok state =>
          if negb (matches_allocation plan state)
          then Ret (Some state, Some (Errorf "VM state differs from the approved allocation"))
          else
            '(state, err) ← resume_vps spec state;
            match err with
            | Some e => Ret (Some state, Some e)
            | None =>
                if State.Phase state != "ready"
                then Ret (Some state, Some (Errorf ("VM needs attention in phase " +:+ State.Phase state)))
                else
                  '(res, err) ←
                    exposeSpecTCP spec (empty_result state) false 22 (sandbox_of spec +:+ "-ssh")
                      ("sha256:" +:+ sha256_hex (spec_prefix spec));
                  Ret (Some (ApplyResult.State_ res), err)
            end
      end
  end.

Definition VPSHostFingerprint (plan : VPSPlan) : sdk (result string) :=
  state ←! Get KState (stateKey (VPSPlan.Spec_ plan));
  match State.ProofKeys state with
  | [key] =>
      proof ←! Get KProof key;
      let missing := Ret (Err (Errorf "VM has no verified SSH host fingerprint")) in
      match base64_decode (BootProof.MessageBase64 proof) with
      | None => missing
      | Some value =>
          if (BootProof.Status proof != "booted") || (BootProof.ExitCode proof != 0) ||
             negb (HasPrefix (TrimSpace value) "SHA256:")
          then missing else Ret (Ok (TrimSpace value))
      end
  | _ => Ret (Err (Errorf "VM boot proof is unavailable"))
  end.

(** ** Destroying: the servers must be gone *)
Fixpoint confirm_gone (resources : list Resource) : sdk (result unit) :=
  match resources with
  | [] => Ret (Ok tt)
  | resource :: rest =>
      found ← InspectServer (Resource.ID resource);
      match found with
      | Err e => if IsNotFound e then confirm_gone rest else Ret (Err e)
      | Ok _ => Ret (Err (Errorf "VM deletion is still in progress"))
      end
  end.

Definition vps_tombstone (spec : Spec) : State :=
  State.mk (sandbox_of spec) "destroyed" EmptyString EmptyString [] [] [] zero_time None EmptyString [] None None.

Definition destroy_vps (spec : Spec) : sdk (option State * option error) :=
  '(state, err) ← Client_Destroy visit spec;
  match err, state with
  | Some e, _ => Ret (state, Some e)
  | None, None => Ret (None, Some (Panic "no state"))
  | None, Some destroyed =>
      gone ← confirm_gone (State.Resources destroyed);
      Ret (state, match gone with Ok _ => None | Err e => Some e end)
  end.

Definition DestroyVPS (plan : VPSPlan) : sdk (option State * option error) :=
  let spec := VPSPlan.Spec_ plan in
  prior ← GetOptional KState (stateKey spec);
  match prior with
  | Err e => Ret (None, Some e)
  | Ok (Some _) => destroy_vps spec
  | Ok None =>
      written ← PutJSONIfAbsent KState (stateKey spec) (vps_tombstone spec);
      match written with
      | Err e => Ret (None, Some e)
      | Ok (_, true) => Ret (Some (vps_tombstone spec), None)
      | Ok (_, false) => destroy_vps spec
      end
  end.
End Apply.

(** ** Metering *)
(** Bundles of one vCPU and one GiB. *)
Definition compute_units (shape : Shape) : Z :=
  Z.max (Shape.VCPU shape) (div64 (add64 (Shape.Memory shape) 1023) 1024).
Definition compute_resource (resource : Resource) (shape : Shape) : BillingResource :=
  BillingResource.mk ("compute/" +:+ Resource.ID resource) "compute" (compute_units shape).
Definition server_shape (id : string) : sdk (result Shape) := call (ServerShape id).

(** Resources that no longer exist are skipped. *)
Fixpoint metered_compute (resources : list Resource) (out : list BillingResource) : sdk (result (list BillingResource)) :=
  match resources with
  | [] => Ret (Ok out)
  | resource :: rest =>
      if Resource.Status resource == "DELETED" then metered_compute rest out
      else
        observed ← server_shape (Resource.ID resource);
        match observed with
        | Err e => if IsNotFound e then metered_compute rest out else Ret (Err e)
        | Ok shape =>
            if (Shape.VCPU shape <? 1) || (Shape.Memory shape <? 1)
            then Ret (Err (Errorf "invalid observed compute shape"))
            else metered_compute rest (out ++ [compute_resource resource shape])
        end
  end.

Definition BillingResources (s : System) : sdk (result (list BillingResource)) :=
  metered ← (call (Supports "ServerShape") : sdk bool);
  if negb metered then Ret (Err (Errorf "compute metering unavailable"))
  else
    stored ← (call (Supports "StoredBytes") : sdk bool);
    if negb stored then Ret (Err (Errorf "storage metering unavailable"))
    else
      state ←! GetOptional KState (stateKey (SystemHostSpec s "true"));
      out ←! match state with
             | Some state =>
                 if State.Phase state != "destroyed" then metered_compute (State.Resources state) [] else Ret (Ok [])
             | None => Ret (Ok [])
             end;
      let prefix := system_base s +:+ "/" in
      size ←! (call (M1StoredBytes prefix) : sdk (result Z));
      Ret (Ok (out ++ [BillingResource.mk ("storage/" +:+ prefix) "storage" size])).

Definition owned_by (sandbox : string) (server : Server) : bool :=
  (default EmptyString (Server.Metadata server !! "canter.sandbox") == sandbox) &&
  (default EmptyString (Server.Metadata server !! "canter.managed") == "true").

Fixpoint metered_vps (sandbox : string) (resources : list Resource) (out : list BillingResource)
    : sdk (result (list BillingResource)) :=
  match resources with
  | [] => Ret (Ok out)
  | resource :: rest =>
      found ← InspectServer (Resource.ID resource);
      match found with
      | Err e => if IsNotFound e then metered_vps sandbox rest out else Ret (Err e)
      | Ok server =>
          if negb (owned_by sandbox server) then Ret (Err (Errorf "VM ownership changed"))
          else
            shape ←! server_shape (Resource.ID resource);
            if (Shape.VCPU shape <? 1) || (Shape.Memory shape <? 1)
            then Ret (Err (Errorf "invalid observed VM allocation"))
            else metered_vps sandbox rest (out ++ [compute_resource resource shape])
      end
  end.

Definition VPSBillingResources (plan : VPSPlan) : sdk (result (list BillingResource)) :=
  state ←! GetOptional KState (stateKey (VPSPlan.Spec_ plan));
  match state with
  | None => Ret (Ok [])
  | Some state =>
      metered ← (call (Supports "ServerShape") : sdk bool);
      if negb metered then Ret (Err (Errorf "VM metering unavailable"))
      else metered_vps (sandbox_of (VPSPlan.Spec_ plan)) (State.Resources state) []
  end.

End Vps.
