(* ===== verification/ControlDocuments.v ===== *)
(** * The documents of the control plane

    The records of internal/controlplane/types.go that the modelled operations
    use, with the conventions of [Documents]. *)

From S2P Require Import Prelude Documents.

(** types.go Authority *)
Module Authority.

Record Authority : Type := mk {
  Inspect : bool;
  Draft : bool;
  ApplyMode : string
}.

#[global] Instance Authority_eq_dec : EqDecision Authority.
Proof. solve_decision. Defined.

End Authority.
Abbreviation Authority := Authority.Authority (only parsing).

(** types.go Workspace *)
Module Workspace.

Record Workspace : Type := mk {
  AgentAuthority : Authority.Authority;
  ID : string;
  Name : string;
  Revision : Z;
  Role : string
}.

#[global] Instance Workspace_eq_dec : EqDecision Workspace.
Proof. solve_decision. Defined.

End Workspace.
Abbreviation Workspace := Workspace.Workspace (only parsing).

(** types.go Installation, without its list of workers *)
Module Installation.

Record Installation : Type := mk {
  UseWorkspaceAuthority : bool;
  ActiveSessions : Z;
  ExpiresAt : option Z;
  ID : string;
  WorkspaceID : string;
  Name : string;
  Harness : string;
  Authority_ : Authority.Authority;
  CreatedBy : string;
  CreatedAt : Z;
  LastSeenAt : option Z;
  RevokedAt : option Z
}.

#[global] Instance Installation_eq_dec : EqDecision Installation.
Proof. solve_decision. Defined.

Definition with_UseWorkspaceAuthority (v : bool) (x : Installation) : Installation :=
  mk v x.(ActiveSessions) x.(ExpiresAt) x.(ID) x.(WorkspaceID) x.(Name) x.(Harness) x.(Authority_) x.(CreatedBy) x.(CreatedAt) x.(LastSeenAt) x.(RevokedAt).
Definition with_ActiveSessions (v : Z) (x : Installation) : Installation :=
  mk x.(UseWorkspaceAuthority) v x.(ExpiresAt) x.(ID) x.(WorkspaceID) x.(Name) x.(Harness) x.(Authority_) x.(CreatedBy) x.(CreatedAt) x.(LastSeenAt) x.(RevokedAt).
Definition with_Authority_ (v : Authority.Authority) (x : Installation) : Installation :=
  mk x.(UseWorkspaceAuthority) x.(ActiveSessions) x.(ExpiresAt) x.(ID) x.(WorkspaceID) x.(Name) x.(Harness) v x.(CreatedBy) x.(CreatedAt) x.(LastSeenAt) x.(RevokedAt).
Definition with_LastSeenAt (v : option Z) (x : Installation) : Installation :=
  mk x.(UseWorkspaceAuthority) x.(ActiveSessions) x.(ExpiresAt) x.(ID) x.(WorkspaceID) x.(Name) x.(Harness) x.(Authority_) x.(CreatedBy) x.(CreatedAt) v x.(RevokedAt).
Definition with_RevokedAt (v : option Z) (x : Installation) : Installation :=
  mk x.(UseWorkspaceAuthority) x.(ActiveSessions) x.(ExpiresAt) x.(ID) x.(WorkspaceID) x.(Name) x.(Harness) x.(Authority_) x.(CreatedBy) x.(CreatedAt) x.(LastSeenAt) v.

End Installation.
Abbreviation Installation := Installation.Installation (only parsing).

(** types.go AgentSession *)
Module AgentSession.

Record AgentSession : Type := mk {
  ParentSessionID : string;
  WorkerName : string;
  WorkerDraft : bool;
  ID : string;
  InstallationID : string;
  ClientInstance : string;
  CreatedAt : Z;
  LastSeenAt : Z;
  ExpiresAt : Z;
  EndedAt : option Z
}.

#[global] Instance AgentSession_eq_dec : EqDecision AgentSession.
Proof. solve_decision. Defined.

Definition with_LastSeenAt (v : Z) (x : AgentSession) : AgentSession :=
  mk x.(ParentSessionID) x.(WorkerName) x.(WorkerDraft) x.(ID) x.(InstallationID) x.(ClientInstance) x.(CreatedAt) v x.(ExpiresAt) x.(EndedAt).
Definition with_EndedAt (v : option Z) (x : AgentSession) : AgentSession :=
  mk x.(ParentSessionID) x.(WorkerName) x.(WorkerDraft) x.(ID) x.(InstallationID) x.(ClientInstance) x.(CreatedAt) x.(LastSeenAt) x.(ExpiresAt) v.

End AgentSession.
Abbreviation AgentSession := AgentSession.AgentSession (only parsing).

(** types.go Account *)
Module Account.

Record Account : Type := mk {
  ID : string;
  Email : string;
  CreatedAt : Z
}.

#[global] Instance Account_eq_dec : EqDecision Account.
Proof. solve_decision. Defined.

End Account.
Abbreviation Account := Account.Account (only parsing).

(** types.go Principal *)
Module Principal.

Record Principal : Type := mk {
  Actor : ActorRef.ActorRef;
  Account_ : option Account.Account;
  Installation_ : option Installation.Installation;
  Session : option AgentSession.AgentSession;
  WorkspaceID : string;
  Role : string
}.

#[global] Instance Principal_eq_dec : EqDecision Principal.
Proof. solve_decision. Defined.

End Principal.
Abbreviation Principal := Principal.Principal (only parsing).

(** types.go SystemRecord *)
Module SystemRecord.

Record SystemRecord : Type := mk {
  WorkspaceID : string;
  Revision : Z;
  Contract : System.System;
  CreatedAt : Z;
  UpdatedAt : Z
}.

#[global] Instance SystemRecord_eq_dec : EqDecision SystemRecord.
Proof. solve_decision. Defined.

End SystemRecord.
Abbreviation SystemRecord := SystemRecord.SystemRecord (only parsing).

(** types.go ReplicaRange *)
Module ReplicaRange.

Record ReplicaRange : Type := mk {
  Min : Z;
  Max : Z
}.

#[global] Instance ReplicaRange_eq_dec : EqDecision ReplicaRange.
Proof. solve_decision. Defined.

End ReplicaRange.
Abbreviation ReplicaRange := ReplicaRange.ReplicaRange (only parsing).

(** types.go StandingPolicyEnvelope *)
Module StandingPolicyEnvelope.

Record StandingPolicyEnvelope : Type := mk {
  AllowedInstallationIDs : list string;
  AffectedServices : list string;
  OperationKinds : list string;
  Availability : list string;
  Data : list string;
  AllowedReversibility : list string;
  MaxAdditionalMonthlyCostCents : Z;
  MaxOperations : Z;
  ScaleLimits : gmap string ReplicaRange.ReplicaRange;
  MaxScaleDurationSeconds : Z;
  AllowPermanentScale : bool
}.

#[global] Instance StandingPolicyEnvelope_eq_dec : EqDecision StandingPolicyEnvelope.
Proof. solve_decision. Defined.

End StandingPolicyEnvelope.
Abbreviation StandingPolicyEnvelope := StandingPolicyEnvelope.StandingPolicyEnvelope (only parsing).

(** types.go CreateStandingPolicyInput *)
Module CreateStandingPolicyInput.

Record CreateStandingPolicyInput : Type := mk {
  Name : string;
  Description : string;
  Envelope : StandingPolicyEnvelope.StandingPolicyEnvelope;
  ExpiresAt : Z
}.

#[global] Instance CreateStandingPolicyInput_eq_dec : EqDecision CreateStandingPolicyInput.
Proof. solve_decision. Defined.

End CreateStandingPolicyInput.
Abbreviation CreateStandingPolicyInput := CreateStandingPolicyInput.CreateStandingPolicyInput (only parsing).

(** types.go StandingPolicy *)
Module StandingPolicy.

Record StandingPolicy : Type := mk {
  ID : string;
  WorkspaceID : string;
  System : string;
  Name : string;
  Description : string;
  Digest : string;
  Envelope : StandingPolicyEnvelope.StandingPolicyEnvelope;
  WorkspaceRevision : Z;
  SystemRevision : Z;
  CreatedByAccount : string;
  CreatedAt : Z;
  ExpiresAt : Z;
  RevokedAt : option Z;
  RevokedByAccount : string
}.

#[global] Instance StandingPolicy_eq_dec : EqDecision StandingPolicy.
Proof. solve_decision. Defined.

Definition with_RevokedAt (v : option Z) (x : StandingPolicy) : StandingPolicy :=
  mk x.(ID) x.(WorkspaceID) x.(System) x.(Name) x.(Description) x.(Digest) x.(Envelope) x.(WorkspaceRevision) x.(SystemRevision) x.(CreatedByAccount) x.(CreatedAt) x.(ExpiresAt) v x.(RevokedByAccount).
Definition with_RevokedByAccount (v : string) (x : StandingPolicy) : StandingPolicy :=
  mk x.(ID) x.(WorkspaceID) x.(System) x.(Name) x.(Description) x.(Digest) x.(Envelope) x.(WorkspaceRevision) x.(SystemRevision) x.(CreatedByAccount) x.(CreatedAt) x.(ExpiresAt) x.(RevokedAt) v.

End StandingPolicy.
Abbreviation StandingPolicy := StandingPolicy.StandingPolicy (only parsing).

(** types.go PolicyDecision *)
Module PolicyDecision.

Record PolicyDecision : Type := mk {
  ID : string;
  WorkspaceID : string;
  System : string;
  ChangeID : string;
  ChangeDigest : string;
  Outcome : string;
  Phase : string;
  PolicyID : string;
  PolicyDigest : string;
  EvaluatedByInstallation : string;
  Reason : string;
  ExecutionID : string;
  Failure : string;
  CreatedAt : Z;
  UpdatedAt : Z
}.

#[global] Instance PolicyDecision_eq_dec : EqDecision PolicyDecision.
Proof. solve_decision. Defined.

End PolicyDecision.
Abbreviation PolicyDecision := PolicyDecision.PolicyDecision (only parsing).

(** types.go Execution *)
Module Execution.

Record Execution : Type := mk {
  ID : string;
  WorkspaceID : string;
  SystemName : string;
  ChangeID : string;
  Phase : string;
  RequestedBy : ActorRef.ActorRef;
  Attempts : Z;
  AvailableAt : Z;
  ClaimedBy : string;
  ClaimToken : string;
  LeaseExpiresAt : option Z;
  Failure : string;
  CreatedAt : Z;
  StartedAt : option Z;
  CompletedAt : option Z
}.

#[global] Instance Execution_eq_dec : EqDecision Execution.
Proof. solve_decision. Defined.

End Execution.
Abbreviation Execution := Execution.Execution (only parsing).

(** types.go PolicyApplyResult *)
Module PolicyApplyResult.

Record PolicyApplyResult : Type := mk {
  Decision : PolicyDecision.PolicyDecision;
  Policy : option StandingPolicy.StandingPolicy;
  Change_ : Change.Change;
  Execution_ : option Execution.Execution
}.

#[global] Instance PolicyApplyResult_eq_dec : EqDecision PolicyApplyResult.
Proof. solve_decision. Defined.

End PolicyApplyResult.
Abbreviation PolicyApplyResult := PolicyApplyResult.PolicyApplyResult (only parsing).

(** types.go NodeInstallation *)
Module NodeInstallation.

Record NodeInstallation : Type := mk {
  ID : string;
  WorkspaceID : string;
  System : string;
  M1Prefix : string;
  CreatedAt : Z;
  LastSeenAt : option Z;
  RevokedAt : option Z
}.

#[global] Instance NodeInstallation_eq_dec : EqDecision NodeInstallation.
Proof. solve_decision. Defined.

Definition with_LastSeenAt (v : option Z) (x : NodeInstallation) : NodeInstallation :=
  mk x.(ID) x.(WorkspaceID) x.(System) x.(M1Prefix) x.(CreatedAt) v x.(RevokedAt).
Definition with_RevokedAt (v : option Z) (x : NodeInstallation) : NodeInstallation :=
  mk x.(ID) x.(WorkspaceID) x.(System) x.(M1Prefix) x.(CreatedAt) x.(LastSeenAt) v.

End NodeInstallation.
Abbreviation NodeInstallation := NodeInstallation.NodeInstallation (only parsing).

(** types.go NodeEnrollment *)
Module NodeEnrollment.

Record NodeEnrollment : Type := mk {
  ID : string;
  EnrollmentToken : string;
  ExpiresAt : Z;
  Node : NodeInstallation.NodeInstallation
}.

#[global] Instance NodeEnrollment_eq_dec : EqDecision NodeEnrollment.
Proof. solve_decision. Defined.

End NodeEnrollment.
Abbreviation NodeEnrollment := NodeEnrollment.NodeEnrollment (only parsing).

(** types.go NodeCredential *)
Module NodeCredential.

Record NodeCredential : Type := mk {
  NodeToken : string;
  ExpiresAt : Z;
  Node : NodeInstallation.NodeInstallation
}.

#[global] Instance NodeCredential_eq_dec : EqDecision NodeCredential.
Proof. solve_decision. Defined.

End NodeCredential.
Abbreviation NodeCredential := NodeCredential.NodeCredential (only parsing).

(** types.go DeploymentArtifactEntry *)
Module DeploymentArtifactEntry.

Record DeploymentArtifactEntry : Type := mk {
  Path : string;
  Mode : Z;
  Size : Z
}.

#[global] Instance DeploymentArtifactEntry_eq_dec : EqDecision DeploymentArtifactEntry.
Proof. solve_decision. Defined.

End DeploymentArtifactEntry.
Abbreviation DeploymentArtifactEntry := DeploymentArtifactEntry.DeploymentArtifactEntry (only parsing).

(** types.go DeploymentArtifact *)
Module DeploymentArtifact.

Record DeploymentArtifact : Type := mk {
  WorkspaceID : string;
  SHA256 : string;
  Size : Z;
  ContentType : string;
  Filename : string;
  Entries : list DeploymentArtifactEntry.DeploymentArtifactEntry;
  UploadedBy : ActorRef.ActorRef;
  CreatedAt : Z
}.

#[global] Instance DeploymentArtifact_eq_dec : EqDecision DeploymentArtifact.
Proof. solve_decision. Defined.

End DeploymentArtifact.
Abbreviation DeploymentArtifact := DeploymentArtifact.DeploymentArtifact (only parsing).

(** types.go InitialDeploymentRelease *)
Module InitialDeploymentRelease.

Record InitialDeploymentRelease : Type := mk {
  Command : list string;
  Environment : gmap string string;
  HealthPath : string;
  PublicPort : Z
}.

#[global] Instance InitialDeploymentRelease_eq_dec : EqDecision InitialDeploymentRelease.
Proof. solve_decision. Defined.

End InitialDeploymentRelease.
Abbreviation InitialDeploymentRelease := InitialDeploymentRelease.InitialDeploymentRelease (only parsing).

(** types.go InitialDeploymentPlan *)
Module InitialDeploymentPlan.

Record InitialDeploymentPlan : Type := mk {
  System : System.System;
  ArtifactSHA256 : string;
  Release : InitialDeploymentRelease.InitialDeploymentRelease;
  Verification : ChangeVerification.ChangeVerification;
  WorkspaceRevision : Z;
  ReplacesDeploymentID : string
}.

#[global] Instance InitialDeploymentPlan_eq_dec : EqDecision InitialDeploymentPlan.
Proof. solve_decision. Defined.

End InitialDeploymentPlan.
Abbreviation InitialDeploymentPlan := InitialDeploymentPlan.InitialDeploymentPlan (only parsing).

(** types.go InitialDeploymentOperation *)
Module InitialDeploymentOperation.

Record InitialDeploymentOperation : Type := mk {
  ID : string;
  Kind : string;
  Description : string;
  Phase : string;
  StartedAt : option Z;
  CompletedAt : option Z;
  Failure : string
}.

#[global] Instance InitialDeploymentOperation_eq_dec : EqDecision InitialDeploymentOperation.
Proof. solve_decision. Defined.

End InitialDeploymentOperation.
Abbreviation InitialDeploymentOperation := InitialDeploymentOperation.InitialDeploymentOperation (only parsing).

(** types.go InitialDeployment *)
Module InitialDeployment.

Record InitialDeployment : Type := mk {
  SchemaVersion : string;
  ID : string;
  WorkspaceID : string;
  System : string;
  Summary : string;
  Phase : string;
  Digest : string;
  DraftedBy : ActorRef.ActorRef;
  Authorization_ : option Authorization.Authorization;
  Plan : InitialDeploymentPlan.InitialDeploymentPlan;
  Operations : list InitialDeploymentOperation.InitialDeploymentOperation;
  Evidence : list ChangeEvidence.ChangeEvidence;
  Failure : string;
  CreatedAt : Z;
  UpdatedAt : Z;
  CompletedAt : option Z
}.

#[global] Instance InitialDeployment_eq_dec : EqDecision InitialDeployment.
Proof. solve_decision. Defined.

Definition with_Phase (v : string) (x : InitialDeployment) : InitialDeployment :=
  mk x.(SchemaVersion) x.(ID) x.(WorkspaceID) x.(System) x.(Summary) v x.(Digest) x.(DraftedBy) x.(Authorization_) x.(Plan) x.(Operations) x.(Evidence) x.(Failure) x.(CreatedAt) x.(UpdatedAt) x.(CompletedAt).
Definition with_Authorization_ (v : option Authorization.Authorization) (x : InitialDeployment) : InitialDeployment :=
  mk x.(SchemaVersion) x.(ID) x.(WorkspaceID) x.(System) x.(Summary) x.(Phase) x.(Digest) x.(DraftedBy) v x.(Plan) x.(Operations) x.(Evidence) x.(Failure) x.(CreatedAt) x.(UpdatedAt) x.(CompletedAt).
Definition with_Operations (v : list InitialDeploymentOperation.InitialDeploymentOperation) (x : InitialDeployment) : InitialDeployment :=
  mk x.(SchemaVersion) x.(ID) x.(WorkspaceID) x.(System) x.(Summary) x.(Phase) x.(Digest) x.(DraftedBy) x.(Authorization_) x.(Plan) v x.(Evidence) x.(Failure) x.(CreatedAt) x.(UpdatedAt) x.(CompletedAt).
Definition with_Evidence (v : list ChangeEvidence.ChangeEvidence) (x : InitialDeployment) : InitialDeployment :=
  mk x.(SchemaVersion) x.(ID) x.(WorkspaceID) x.(System) x.(Summary) x.(Phase) x.(Digest) x.(DraftedBy) x.(Authorization_) x.(Plan) x.(Operations) v x.(Failure) x.(CreatedAt) x.(UpdatedAt) x.(CompletedAt).
Definition with_Failure (v : string) (x : InitialDeployment) : InitialDeployment :=
  mk x.(SchemaVersion) x.(ID) x.(WorkspaceID) x.(System) x.(Summary) x.(Phase) x.(Digest) x.(DraftedBy) x.(Authorization_) x.(Plan) x.(Operations) x.(Evidence) v x.(CreatedAt) x.(UpdatedAt) x.(CompletedAt).
Definition with_UpdatedAt (v : Z) (x : InitialDeployment) : InitialDeployment :=
  mk x.(SchemaVersion) x.(ID) x.(WorkspaceID) x.(System) x.(Summary) x.(Phase) x.(Digest) x.(DraftedBy) x.(Authorization_) x.(Plan) x.(Operations) x.(Evidence) x.(Failure) x.(CreatedAt) v x.(CompletedAt).
Definition with_CompletedAt (v : option Z) (x : InitialDeployment) : InitialDeployment :=
  mk x.(SchemaVersion) x.(ID) x.(WorkspaceID) x.(System) x.(Summary) x.(Phase) x.(Digest) x.(DraftedBy) x.(Authorization_) x.(Plan) x.(Operations) x.(Evidence) x.(Failure) x.(CreatedAt) x.(UpdatedAt) v.

End InitialDeployment.
Abbreviation InitialDeployment := InitialDeployment.InitialDeployment (only parsing).

(** types.go InitialDeploymentIndex *)
Module InitialDeploymentIndex.

Record InitialDeploymentIndex : Type := mk {
  ID : string;
  System : string;
  Phase : string;
  Summary : string;
  Digest : string
}.

#[global] Instance InitialDeploymentIndex_eq_dec : EqDecision InitialDeploymentIndex.
Proof. solve_decision. Defined.

End InitialDeploymentIndex.
Abbreviation InitialDeploymentIndex := InitialDeploymentIndex.InitialDeploymentIndex (only parsing).

(** types.go InitialDeploymentExecution *)
Module InitialDeploymentExecution.

Record InitialDeploymentExecution : Type := mk {
  ID : string;
  WorkspaceID : string;
  DeploymentID : string;
  SystemName : string;
  Phase : string;
  RequestedBy : ActorRef.ActorRef;
  Attempts : Z;
  AvailableAt : Z;
  ClaimedBy : string;
  ClaimToken : string;
  LeaseExpiresAt : option Z;
  Failure : string;
  CreatedAt : Z;
  StartedAt : option Z;
  CompletedAt : option Z
}.

#[global] Instance InitialDeploymentExecution_eq_dec : EqDecision InitialDeploymentExecution.
Proof. solve_decision. Defined.

End InitialDeploymentExecution.
Abbreviation InitialDeploymentExecution := InitialDeploymentExecution.InitialDeploymentExecution (only parsing).

(** initial_deployment.go DraftInitialDeploymentInput *)
Module DraftInitialDeploymentInput.

Record DraftInitialDeploymentInput : Type := mk {
  Summary : string;
  System : System.System;
  ArtifactSHA256 : string;
  Release : InitialDeploymentRelease.InitialDeploymentRelease;
  Verification : ChangeVerification.ChangeVerification
}.

#[global] Instance DraftInitialDeploymentInput_eq_dec : EqDecision DraftInitialDeploymentInput.
Proof. solve_decision. Defined.

End DraftInitialDeploymentInput.
Abbreviation DraftInitialDeploymentInput := DraftInitialDeploymentInput.DraftInitialDeploymentInput (only parsing).
