(* ===== verification/Tables.v ===== *)
(** * Tables

    The rows of a database table as a list, in the order of insertion: the
    statements the transactions share, and what they keep. *)

From S2P Require Import Prelude.
#[local] Open Scope Z_scope.

(** [UPDATE ... SET f WHERE p], with the number of rows. *)
Definition update_where {E} (p : E -> bool) (f : E -> E) (l : list E) : list E := (fun e => if p e then f e else e) <$> l.
Definition affected {E} (p : E -> bool) (l : list E) : Z := Z.of_nat (length (List.filter p l)).

Definition unique_violation : error := External "SQLSTATE 23505".
Definition check_violation : error := External "SQLSTATE 23514".
Definition out_of_range : error := External "SQLSTATE 22003".
Definition no_rows : error := External "no rows in result set".

(** A column of type timestamptz holds microseconds. *)
Definition micros (t : Z) : Z := t - t mod 1000.

(** [SELECT] of one row. *)
Definition one_row {E} (e : error) (o : option E) : result E := match o with Some x => Ok x | None => Err e end.
(** [COALESCE(column, v)]. *)
Definition coalesce {V} (v : V) (o : option V) : option V := Some (default v o).

(** A transaction: what its body leaves is committed, or nothing is. *)
Definition tx {S A} (r : result (A * S)) (s : S) : result A * S :=
  match r with Ok (a, s') => (Ok a, s') | Err e => (Err e, s) end.
Lemma tx_spec {S A} (P : S -> Prop) (r : result (A * S)) s : P s -> (forall a s', r = Ok (a, s') -> P s') -> P (tx r s).2.
Proof. intros Hs Hr. destruct r as [[a s']|e]; [by eapply Hr|done]. Qed.
Lemma tx_committed {S A} (r : result (A * S)) s a s' : tx r s = (Ok a, s') <-> r = Ok (a, s').
Proof. destruct r as [[]|]; cbn; split; congruence. Qed.

Section Rows.
Context {E : Type}.
Implicit Types (l : list E) (p : E -> bool) (f : E -> E).

Lemma update_elem p f l x : x ∈ update_where p f l -> exists y, y ∈ l /\ x = if p y then f y else y.
Proof. intros Hx. apply list_elem_of_fmap in Hx as (y & -> & Hy). eauto. Qed.

Lemma elem_update p f l y : y ∈ l -> (if p y then f y else y) ∈ update_where p f l.
Proof. intros Hy. apply list_elem_of_fmap. eauto. Qed.

Lemma find_elem p l x : List.find p l = Some x -> x ∈ l /\ p x = true.
Proof. intros Hf. apply List.find_some in Hf as [Hin Hp]. split; [by apply list_elem_of_In|done]. Qed.

Lemma find_not p l x : List.find p l = None -> x ∈ l -> p x = false.
Proof. intros Hf Hx%list_elem_of_In. by eapply List.find_none in Hf. Qed.

Lemma affected_nonneg p l : 0 <= affected p l.
Proof. unfold affected. lia. Qed.

Lemma affected_exists p l : 0 < affected p l -> exists x, x ∈ l /\ p x = true.
Proof.
  unfold affected. destruct (List.filter p l) as [|x l'] eqn:Hf; cbn [length]; [lia|]. intros _. exists x.
  assert (List.In x (List.filter p l)) as Hx by (rewrite Hf; by left). apply List.filter_In in Hx as [Hx Hp].
  split; [by apply list_elem_of_In|done].
Qed.

Lemma affected_zero p l x : affected p l = 0 -> x ∈ l -> p x = false.
Proof.
  unfold affected. intros Ha Hx%list_elem_of_In. destruct (p x) eqn:Hp; [|done].
  assert (List.In x (List.filter p l)) as Hin by by apply List.filter_In. destruct (List.filter p l); [done|cbn in Ha; lia].
Qed.

(** A sum over a column that an update keeps. *)
Lemma sum_update (g : E -> Z) p f l : (forall x, g (f x) = g x) -> sum_by g (update_where p f l) = sum_by g l.
Proof.
  intros Hg. unfold update_where. induction l as [|x l IH]; [done|]. cbn [fmap list_fmap sum_by]. fold (update_where p f l) in *.
  rewrite IH. by destruct (p x); rewrite ?Hg.
Qed.

(** A selection that neither the rows updated nor what they become belong to. *)
Lemma filter_update p f (q : E -> bool) l :
  (forall x, p x = true -> q x = false /\ q (f x) = false) -> List.filter q (update_where p f l) = List.filter q l.
Proof.
  intros Hp. unfold update_where. induction l as [|x l IH]; [done|]. cbn. destruct (p x) eqn:Ex.
  - destruct (Hp x Ex) as [-> ->]. exact IH.
  - by rewrite IH.
Qed.

(** A selection that an update does not see. *)
Lemma filter_update_keeps p f (q : E -> bool) l :
  (forall x, p x = true -> q (f x) = q x) -> List.filter q (update_where p f l) = update_where p f (List.filter q l).
Proof.
  intros Hq. unfold update_where. induction l as [|x l IH]; [done|]. cbn. rewrite IH. destruct (p x) eqn:Ex; [rewrite (Hq x Ex)|];
    destruct (q x); cbn; by rewrite ?Ex.
Qed.

(** ** Unique columns *)
Section Key.
Context {K : Type} (k : E -> K).

Lemma key_unique l x y : NoDup (k <$> l) -> x ∈ l -> y ∈ l -> k x = k y -> x = y.
Proof.
  intros Hnd Hx Hy He. apply list_elem_of_lookup in Hx as [i Hi]. apply list_elem_of_lookup in Hy as [j Hj].
  assert (i = j) as ->; [|congruence]. eapply NoDup_lookup; [exact Hnd|..]; rewrite list_lookup_fmap.
  - by rewrite Hi.
  - by rewrite Hj, He.
Qed.

Lemma keys_update_where p f l : (forall x, k (f x) = k x) -> k <$> update_where p f l = k <$> l.
Proof.
  intros Hf. unfold update_where. rewrite <- list_fmap_compose. apply list_fmap_ext. intros i x _. unfold compose. by destruct (p x).
Qed.

Lemma keys_insert l x : NoDup (k <$> l) -> (forall y, y ∈ l -> k y <> k x) -> NoDup (k <$> l ++ [x]).
Proof.
  intros Hnd Hx. rewrite fmap_app. apply NoDup_app. split_and!; [done| |apply NoDup_singleton].
  intros i Hi ->%list_elem_of_singleton. apply list_elem_of_fmap in Hi as (y & Hi & Hy). by apply (Hx y Hy).
Qed.

(** A column changed for the rows of one id only, to a value no other row has. *)
Lemma keys_change l p f v :
  NoDup (k <$> l) -> (forall x y, x ∈ l -> y ∈ l -> p x = true -> p y = true -> x = y) ->
  (forall x, k (f x) = v) -> (forall y, y ∈ l -> p y = false -> k y <> v) -> NoDup (k <$> update_where p f l).
Proof.
  intros Hnd Hone Hf Hv. induction l as [|x l IH]; [constructor|]. cbn [update_where] in *. unfold update_where in *. rewrite !fmap_cons in *.
  apply NoDup_cons in Hnd as [Hx Hnd]. apply NoDup_cons. split.
  - intros Hin. apply list_elem_of_fmap in Hin as (z & Hz & Hin). apply list_elem_of_fmap in Hin as (y & -> & Hy).
    destruct (p x) eqn:Ex, (p y) eqn:Ey.
    + rewrite (Hone x y) in Hx by (first [done|by left|by right]). apply Hx. by apply list_elem_of_fmap_2.
    + rewrite Hf in Hz. apply (Hv y); [by right|done|done].
    + rewrite Hf in Hz. apply (Hv x); [by left|done|done].
    + apply Hx. rewrite Hz. by apply list_elem_of_fmap_2.
  - apply IH; [done|intros; apply Hone; by (try right)|intros y Hy; apply Hv; by right].
Qed.
End Key.

(** ** Rows that stay

    [kept R l l']: every row of [l] is still there in [l'], as far as [R] says. *)
Definition kept (R : E -> E -> Prop) l l' : Prop := forall x, x ∈ l -> exists x', x' ∈ l' /\ R x x'.

Section Kept.
Context (R : E -> E -> Prop) `{!Reflexive R, !Transitive R}.

#[export] Instance kept_refl : Reflexive (kept R).
Proof. intros l x Hx. by exists x. Qed.
#[export] Instance kept_trans : Transitive (kept R).
Proof. intros l1 l2 l3 H12 H23 x Hx. destruct (H12 x Hx) as (y & Hy & Hxy). destruct (H23 y Hy) as (z & Hz & ?). exists z. split; [done|by etrans]. Qed.

Lemma kept_insert l x : kept R l (l ++ [x]).
Proof. intros y Hy. exists y. split; [apply elem_of_app; by left|done]. Qed.
Lemma kept_update p f l : (forall x, x ∈ l -> p x = true -> R x (f x)) -> kept R l (update_where p f l).
Proof. intros Hf x Hx. exists (if p x then f x else x). split; [by apply elem_update|]. destruct (p x) eqn:Ep; [by apply Hf|done]. Qed.
End Kept.
End Rows.
