(* ===== verification/LeaseQueue.v ===== *)
(** * Leased jobs

    The abstract contract of the control plane's two execution ledgers: a job
    is queued, then running under a lease with a holder and a fencing token,
    which may expire and be claimed again, then finished for good.  [queue_run]
    relates a history of what was answered to the jobs; what follows from it is
    proved once here.  [LeaseRow] is the interface a table offers: the columns
    the shared statements read and write. *)

From S2P Require Import Prelude GoStrings Documents Tables.

(** ** The contract *)
Inductive job : Type :=
  | Queued
  | Running (worker token : string) (expires : Z)
  | Finished.

(** What an operation answered, with the clock it read. *)
Inductive queue_event : Type :=
  | Enqueued (id : string)
  | Claimed (id worker token : string) (now expires : Z)
  | Renewed (id worker token : string) (now expires : Z)
  | Completed (id worker token : string) (now : Z)
  | Refused.

Definition claimable_job (now : Z) (j : job) : Prop :=
  match j with Queued => True | Running _ _ expires => expires <= now | Finished => False end.

Inductive queue_step : gmap string job -> queue_event -> gmap string job -> Prop :=
  | queue_enqueue q id : q !! id = None -> queue_step q (Enqueued id) (<[id := Queued]> q)
  | queue_claim q id worker token now expires j :
      q !! id = Some j -> claimable_job now j ->
      queue_step q (Claimed id worker token now expires) (<[id := Running worker token expires]> q)
  | queue_renew q id worker token now expires old :
      q !! id = Some (Running worker token old) -> now < old ->
      queue_step q (Renewed id worker token now expires) (<[id := Running worker token expires]> q)
  | queue_complete q id worker token now old :
      q !! id = Some (Running worker token old) -> now < old ->
      queue_step q (Completed id worker token now) (<[id := Finished]> q)
  | queue_refuse q : queue_step q Refused q.

(** Histories are newest first. *)
Inductive queue_run : list queue_event -> gmap string job -> Prop :=
  | run_empty : queue_run [] ∅
  | run_step h q e q' : queue_run h q -> queue_step q e q' -> queue_run (e :: h) q'.

(** Who holds a job, and until when, as the history tells. *)
Fixpoint holder (id : string) (h : list queue_event) : option (string * string * Z) :=
  match h with
  | [] => None
  | Claimed i worker token _ expires :: h' | Renewed i worker token _ expires :: h' =>
      if i == id then Some (worker, token, expires) else holder id h'
  | _ :: h' => holder id h'
  end.

(** The job an event is about. *)
Definition subject (e : queue_event) : option string :=
  match e with
  | Enqueued id | Claimed id _ _ _ _ | Renewed id _ _ _ _ | Completed id _ _ _ => Some id
  | Refused => None
  end.
Definition completes (id : string) (e : queue_event) : Prop :=
  match e with Completed i _ _ _ => i = id | _ => False end.

(** ** What follows *)
Definition described (h : list queue_event) (id : string) (j : option job) : Prop :=
  match j with
  | Some (Running worker token expires) => holder id h = Some (worker, token, expires) /\ Forall (fun e => ~ completes id e) h
  | Some Finished => True
  | Some Queued | None => holder id h = None /\ Forall (fun e => ~ completes id e) h
  end.

Lemma holder_other id e h : subject e <> Some id -> holder id (e :: h) = holder id h.
Proof. destruct e; cbn; try done; intros Hne; by rewrite bool_decide_false by congruence. Qed.

Lemma described_other h id j e : subject e <> Some id -> described h id j -> described (e :: h) id j.
Proof.
  intros He. unfold described. rewrite holder_other by done.
  assert (~ completes id e) as Hc by (destruct e; cbn in *; congruence).
  destruct j as [[|w t x|]|]; [| |done|]; intros [Hh Hf]; (split; [done|by constructor]).
Qed.

Lemma step_other q e q' id : queue_step q e q' -> subject e <> Some id -> q' !! id = q !! id.
Proof. intros Hstep He. destruct Hstep; cbn in He; try done; by rewrite lookup_insert_ne by congruence. Qed.

Lemma run_described h q : queue_run h q -> forall id, described h id (q !! id).
Proof.
  induction 1 as [|h q e q' Hrun IH Hstep]; intros id; [rewrite lookup_empty; by split|]. specialize (IH id).
  destruct (decide (subject e = Some id)) as [He|He].
  2:{ rewrite (step_other _ _ _ _ Hstep He). by apply described_other. }
  destruct Hstep as [q i Hq|q i w t now x j Hq Hc|q i w t now x old Hq Ho|q i w t now old Hq Ho|q]; cbn in He; try done;
    injection He as ->; rewrite lookup_insert_eq; rewrite Hq in IH; cbn; rewrite ?bool_decide_true by done; try done.
  - destruct IH as [Hh Hf]. split; [done|]. constructor; [by intros []|done].
  - split; [done|]. destruct j as [|? ? ?|]; [| |done]; destruct IH as [_ Hf]; (constructor; [by intros []|done]).
  - split; [done|]. constructor; [by intros []|by destruct IH].
Qed.

Lemma run_split h1 h2 q : queue_run (h1 ++ h2) q -> exists q0, queue_run h2 q0.
Proof.
  revert q. induction h1 as [|e h1 IH]; intros q Hrun; [by exists q|].
  inversion Hrun; subst. by eapply IH.
Qed.

Lemma run_inv e h q : queue_run (e :: h) q -> exists q0, queue_run h q0 /\ queue_step q0 e q.
Proof. inversion 1; subst; eauto. Qed.

(** A finished job is never touched again. *)
Lemma completed_stays h1 h2 id worker token now q :
  queue_run (h1 ++ Completed id worker token now :: h2) q ->
  q !! id = Some Finished /\ Forall (fun e => subject e <> Some id) h1.
Proof.
  revert q. induction h1 as [|e h1 IH]; intros q Hrun.
  - apply run_inv in Hrun as (q0 & _ & Hstep). inversion Hstep; subst. split; [by rewrite lookup_insert_eq|constructor].
  - apply run_inv in Hrun as (q0 & Hrun & Hstep). destruct (IH q0 Hrun) as [Hfin Hf].
    assert (subject e <> Some id) as He.
    { intros He. destruct Hstep as [? ? Hq|? ? ? ? ? ? j Hq Hj|? ? ? ? ? ? ? Hq|? ? ? ? ? ? Hq|?]; cbn in He; try done;
        injection He as ->; rewrite Hfin in Hq; try done. by injection Hq as <-. }
    split; [|by constructor]. by rewrite (step_other _ _ _ _ Hstep He).
Qed.

(** A job is completed at most once, by the last worker that claimed it, within
    its lease, and nothing happens to it afterwards. *)
Lemma completed_once h1 h2 id worker token now q :
  queue_run (h1 ++ Completed id worker token now :: h2) q ->
  (exists expires, holder id h2 = Some (worker, token, expires) /\ now < expires) /\
  Forall (fun e => subject e <> Some id) h1 /\ Forall (fun e => ~ completes id e) h2.
Proof.
  intros Hrun. destruct (completed_stays _ _ _ _ _ _ _ Hrun) as [_ Hf]. apply run_split in Hrun as [q1 Hrun].
  apply run_inv in Hrun as (q0 & Hrun & Hstep). inversion Hstep as [| | |? ? ? ? ? old Hq Hold|]; subst.
  pose proof (run_described _ _ Hrun id) as Hd. rewrite Hq in Hd. destruct Hd as [Hh Hc]. split_and!; [|done|done].
  by exists old.
Qed.

(** A job is claimed again only when the lease granted last has expired. *)
Lemma claimed_after h1 h2 id worker token now expires q w t x :
  queue_run (h1 ++ Claimed id worker token now expires :: h2) q -> holder id h2 = Some (w, t, x) -> x <= now.
Proof.
  intros Hrun Hh. apply run_split in Hrun as [q1 Hrun]. apply run_inv in Hrun as (q0 & Hrun & Hstep).
  inversion Hstep as [|? ? ? ? ? ? j Hq Hc| | |]; subst. pose proof (run_described _ _ Hrun id) as Hd. rewrite Hq in Hd.
  destruct j as [|? ? ?|]; [by destruct Hd as [Hd _]; rewrite Hh in Hd| |done].
  destruct Hd as [Hd _]. rewrite Hh in Hd. by injection Hd as -> -> ->.
Qed.

(** ** Tables *)
Class LeaseRow (E : Type) : Type := {
  lr_id : E -> string;
  lr_phase : E -> string;
  lr_available : E -> Z;
  lr_created : E -> Z;
  lr_claimed_by : E -> string;
  lr_token : E -> string;
  lr_lease : E -> option Z;
  lr_claim : string -> string -> Z -> Z -> E -> E;
  lr_renew : Z -> E -> E;
  lr_complete : string -> string -> Z -> E -> E
}.

(** What the assignments of the statements leave in the columns. *)
Class LeaseRowOk (E : Type) `{LeaseRow E} : Prop := {
  ok_claim worker token expires now e :
    let e' := lr_claim worker token expires now e in
    lr_id e' = lr_id e /\ lr_phase e' = "running" /\ lr_claimed_by e' = worker /\ lr_token e' = token /\ lr_lease e' = Some expires;
  ok_renew expires e :
    let e' := lr_renew expires e in
    lr_id e' = lr_id e /\ lr_phase e' = lr_phase e /\ lr_claimed_by e' = lr_claimed_by e /\ lr_token e' = lr_token e /\
    lr_lease e' = Some expires;
  ok_complete phase failure now e :
    let e' := lr_complete phase failure now e in lr_id e' = lr_id e /\ lr_phase e' = phase
}.

Section Table.
Context `{LeaseRow E}.

Definition claimable (now : Z) (e : E) : bool :=
  ((lr_phase e == "queued") && (lr_available e <=? now)) ||
  ((lr_phase e == "running") && match lr_lease e with Some expires => expires <=? now | None => false end).

(** [ORDER BY created_at ... SKIP LOCKED LIMIT 1]: the first of the oldest rows
    that no other transaction has locked. *)
Fixpoint oldest (l : list E) : option E :=
  match l with
  | [] => None
  | e :: l' =>
      match oldest l' with
      | Some e' => if lr_created e' <? lr_created e then Some e' else Some e
      | None => Some e
      end
  end.
Definition candidate (locked : list string) (now : Z) (l : list E) : option E :=
  oldest (List.filter (fun e => claimable now e && negb (bool_decide (lr_id e ∈ locked))) l).

Definition claim_rows (worker token : string) (lease : Z) (locked : list string) (now : Z) (l : list E) : option E * list E :=
  match candidate locked now l with
  | None => (None, l)
  | Some e =>
      (Some (lr_claim worker token (now + lease) now e),
       update_where (fun e' => lr_id e' == lr_id e) (lr_claim worker token (now + lease) now) l)
  end.

(** [id=.. AND phase='running' AND claimed_by=.. AND claim_token=.. AND lease_expires_at>now]. *)
Definition held (id worker token : string) (now : Z) (e : E) : bool :=
  (lr_id e == id) && (lr_phase e == "running") && (lr_claimed_by e == worker) && (lr_token e == token) &&
  match lr_lease e with Some expires => now <? expires | None => false end.

Definition renew_rows (id worker token : string) (expires now : Z) (l : list E) : bool * list E :=
  (affected (held id worker token now) l =? 1, update_where (held id worker token now) (lr_renew expires) l).
Definition complete_rows (id worker token phase failure : string) (now : Z) (l : list E) : bool * list E :=
  (affected (held id worker token now) l =? 1, update_where (held id worker token now) (lr_complete phase failure now) l).

(** ** The contract of a table *)
Definition job_of (e : E) : job :=
  if lr_phase e == "queued" then Queued
  else if lr_phase e == "running" then Running (lr_claimed_by e) (lr_token e) (default 0 (lr_lease e))
  else Finished.
Definition queue_of (l : list E) : gmap string job := list_to_map ((fun e => (lr_id e, job_of e)) <$> l).
Definition ids (l : list E) : list string := lr_id <$> l.
End Table.

Section Refinement.
Context `{LeaseRowOk E}.
Implicit Types l : list E.

Lemma queue_of_lookup l id j : NoDup (ids l) -> queue_of l !! id = Some j <-> exists e, e ∈ l /\ lr_id e = id /\ job_of e = j.
Proof.
  intros Hnd. unfold queue_of. rewrite <- elem_of_list_to_map by by rewrite <- list_fmap_compose.
  rewrite list_elem_of_fmap. split; [intros (e & [= -> ->] & He); eauto|intros (e & He & <- & <-); eauto].
Qed.

Lemma oldest_in l e : oldest l = Some e -> e ∈ l.
Proof.
  revert e. induction l as [|x l IH]; intros e; cbn [oldest]; [done|].
  destruct (oldest l) as [y|]; [|intros [= <-]; left].
  destruct (lr_created y <? lr_created x); intros [= <-]; [right; by apply IH|left].
Qed.

Lemma oldest_none l : oldest l = None -> l = [].
Proof. destruct l as [|x l]; cbn; [done|]. destruct (oldest l); [by destruct (_ <? _)|done]. Qed.

Lemma candidate_in locked now l e : candidate locked now l = Some e -> e ∈ l /\ claimable now e = true.
Proof. intros He%oldest_in%list_elem_of_In. apply List.filter_In in He as [Hin Hc]. bool_inv. by apply list_elem_of_In in Hin. Qed.

Lemma row_unique l x y : NoDup (ids l) -> x ∈ l -> y ∈ l -> lr_id x = lr_id y -> x = y.
Proof.
  intros Hnd Hx Hy He. apply list_elem_of_lookup in Hx as [i Hi]. apply list_elem_of_lookup in Hy as [k Hk].
  assert (i = k) as ->; [|congruence]. eapply NoDup_lookup; [exact Hnd|..]; unfold ids; rewrite list_lookup_fmap.
  - by rewrite Hi.
  - by rewrite Hk, He.
Qed.

(** ** Updates of one row *)
Section Update.
Context (p : E -> bool) (f : E -> E) (id : string).
Hypothesis Hid : forall e, p e = true -> lr_id e = id.
Hypothesis Hf : forall e, lr_id (f e) = lr_id e.

Lemma ids_update l : ids (update_where p f l) = ids l.
Proof. unfold ids, update_where. rewrite <- list_fmap_compose. apply list_fmap_ext. intros i e _. cbn. by destruct (p e). Qed.

Lemma update_none l : (forall e, e ∈ l -> p e = false) -> update_where p f l = l /\ affected p l = 0.
Proof.
  unfold affected. induction l as [|e l IH]; intros Hp; [done|]. destruct IH as [IH1 IH2]; [intros e' He'; apply Hp; by right|].
  unfold update_where in *. rewrite fmap_cons, IH1. cbn [List.filter]. by rewrite (Hp e) by left.
Qed.

Lemma affected_one l e : NoDup (ids l) -> e ∈ l -> p e = true -> affected p l = 1.
Proof.
  unfold affected, ids. induction l as [|x l IH]; intros Hnd He Hp; [by apply not_elem_of_nil in He|].
  rewrite fmap_cons in Hnd. apply NoDup_cons in Hnd as [Hx Hnd]. cbn [List.filter].
  apply elem_of_cons in He as [<-|He]; [|destruct (p x) eqn:Ex; [|by apply IH]].
  - rewrite Hp. cbn [length]. destruct (update_none l) as [_ Ha]; [|unfold affected in Ha; lia].
    intros y Hy. apply not_true_is_false. intros Hpy. apply Hx. rewrite (Hid e Hp), <- (Hid y Hpy).
    by apply list_elem_of_fmap_2.
  - exfalso. apply Hx. rewrite (Hid x Ex), <- (Hid e Hp). by apply list_elem_of_fmap_2.
Qed.

Lemma queue_update l e :
  NoDup (ids l) -> e ∈ l -> p e = true -> queue_of (update_where p f l) = <[id := job_of (f e)]> (queue_of l).
Proof.
  intros Hnd He Hp. apply map_eq. intros i. apply option_eq. intros j.
  rewrite queue_of_lookup by by rewrite ids_update. rewrite lookup_insert_Some, queue_of_lookup by done.
  unfold update_where. split.
  - intros (x' & Hx & <- & <-). apply list_elem_of_fmap in Hx as (x & -> & Hx). destruct (p x) eqn:Ex.
    + left. rewrite Hf, (Hid x Ex). split; [done|]. do 2 f_equal. apply (row_unique l); try done. by rewrite (Hid e Hp), (Hid x Ex).
    + right. split; [|by exists x]. intros Ei. revert Ex.
      assert (x = e) as ->; [|by rewrite Hp]. apply (row_unique l); try done. by rewrite <- Ei, (Hid e Hp).
  - intros [[<- <-]|[Hne (x & Hx & <- & <-)]].
    + exists (f e). split_and!; [|by rewrite Hf, (Hid e Hp)|done]. apply list_elem_of_fmap. exists e. by rewrite Hp.
    + exists x. split_and!; [|done..]. apply list_elem_of_fmap. exists x. split; [|done]. destruct (p x) eqn:Ex; [|done].
      by apply Hid in Ex.
Qed.
End Update.

(** ** The statements *)
Lemma claim_step worker token lease locked now l e l' :
  NoDup (ids l) -> claim_rows worker token lease locked now l = (Some e, l') ->
  queue_step (queue_of l) (Claimed (lr_id e) worker token now (now + lease)) (queue_of l') /\ ids l' = ids l.
Proof.
  unfold claim_rows. intros Hnd. destruct (candidate locked now l) as [x|] eqn:Hx; [|done]. intros [= <- <-].
  apply candidate_in in Hx as [Hx Hc]. destruct (ok_claim worker token (now + lease) now x) as (Hid & Hph & Hby & Htok & Hlease).
  rewrite Hid. split; [|apply ids_update; intros y; by destruct (ok_claim worker token (now + lease) now y)].
  rewrite (queue_update _ _ (lr_id x)) with (e := x); [|by intros y ?%bool_decide_eq_true|
    intros y; by destruct (ok_claim worker token (now + lease) now y)|done|done|by apply bool_decide_true].
  assert (job_of (lr_claim worker token (now + lease) now x) = Running worker token (now + lease)) as ->.
  { unfold job_of. by rewrite Hph, Hby, Htok, Hlease. }
  apply queue_claim with (job_of x); [by apply queue_of_lookup; [|exists x]|].
  unfold claimable in Hc. unfold job_of. case_bool_decide; [done|]. case_bool_decide; [|by destruct (lr_lease x)].
  destruct (lr_lease x); [|done]. cbn in *. bool_inv. lia.
Qed.

Lemma held_inv id worker token now e :
  held id worker token now e = true ->
  lr_id e = id /\ exists expires, lr_lease e = Some expires /\ now < expires /\ job_of e = Running worker token expires.
Proof.
  unfold held. intros Hh. bool_inv. split; [done|]. destruct (lr_lease e) as [x|] eqn:Ex; [|done].
  bool_inv. exists x. split_and!; [done..|]. unfold job_of. rewrite Ex.
  repeat (rewrite bool_decide_false by congruence). rewrite bool_decide_true by done. cbn. congruence.
Qed.

(** Nothing is held, or one row is. *)
Lemma held_cases id worker token now l :
  NoDup (ids l) ->
  (exists e, e ∈ l /\ held id worker token now e = true /\ affected (held id worker token now) l = 1) \/
  (forall f, update_where (held id worker token now) f l = l) /\ affected (held id worker token now) l = 0.
Proof.
  intros Hnd. assert (forall e, held id worker token now e = true -> lr_id e = id) as Hid by by intros e [? _]%held_inv.
  destruct (List.find (held id worker token now) l) as [e|] eqn:Hf.
  - apply List.find_some in Hf as [Hin Hh]. apply list_elem_of_In in Hin. left. exists e. split_and!; [done..|].
    by apply (affected_one _ (fun x => x) id Hid l e).
  - right. assert (forall e, e ∈ l -> held id worker token now e = false) as Hn.
    { intros e He. eapply List.find_none; [done|by apply list_elem_of_In]. }
    split; [intros f; by apply update_none|by apply (update_none _ (fun x => x))].
Qed.

Lemma renew_step id worker token expires now l b l' :
  NoDup (ids l) -> renew_rows id worker token expires now l = (b, l') ->
  queue_step (queue_of l) (if b then Renewed id worker token now expires else Refused) (queue_of l') /\ ids l' = ids l.
Proof.
  intros Hnd. unfold renew_rows. destruct (held_cases id worker token now l Hnd) as [(e & He & Hh & Ha)|[Hu Ha]]; rewrite Ha.
  - intros [= <- <-]. destruct (held_inv _ _ _ _ _ Hh) as (Hid & x & Hx & Hnow & Hj).
    assert (forall y, lr_id (lr_renew expires y) = lr_id y) as Hf by (intros y; by destruct (ok_renew expires y)).
    split; [|by apply ids_update]. rewrite (queue_update _ _ id) with (e := e); [|by intros y [? _]%held_inv|done..].
    assert (job_of (lr_renew expires e) = Running worker token expires) as ->.
    { destruct (ok_renew expires e) as (_ & Hph & Hby & Htok & Hl). revert Hj. unfold job_of. rewrite Hph, Hby, Htok, Hl, Hx.
      case_bool_decide; [done|]. case_bool_decide; [|done]. by intros [= -> ->]. }
    apply queue_renew with x; [by apply queue_of_lookup; [|exists e]|done].
  - intros [= <- <-]. rewrite Hu. split; [constructor|done].
Qed.

Lemma complete_step id worker token phase failure now l b l' :
  NoDup (ids l) -> phase <> "queued" -> phase <> "running" -> complete_rows id worker token phase failure now l = (b, l') ->
  queue_step (queue_of l) (if b then Completed id worker token now else Refused) (queue_of l') /\ ids l' = ids l.
Proof.
  intros Hnd Hq Hr. unfold complete_rows. destruct (held_cases id worker token now l Hnd) as [(e & He & Hh & Ha)|[Hu Ha]]; rewrite Ha.
  - intros [= <- <-]. destruct (held_inv _ _ _ _ _ Hh) as (Hid & x & Hx & Hnow & Hj).
    assert (forall y, lr_id (lr_complete phase failure now y) = lr_id y) as Hf by (intros y; by destruct (ok_complete phase failure now y)).
    split; [|by apply ids_update]. rewrite (queue_update _ _ id) with (e := e); [|by intros y [? _]%held_inv|done..].
    assert (job_of (lr_complete phase failure now e) = Finished) as ->.
    { destruct (ok_complete phase failure now e) as (_ & Hph). unfold job_of. by rewrite Hph, !bool_decide_false by done. }
    apply queue_complete with x; [by apply queue_of_lookup; [|exists e]|done].
  - intros [= <- <-]. rewrite Hu. split; [constructor|done].
Qed.

Lemma insert_step e l :
  NoDup (ids l) -> lr_id e ∉ ids l -> lr_phase e = "queued" ->
  queue_step (queue_of l) (Enqueued (lr_id e)) (queue_of (l ++ [e])) /\ NoDup (ids (l ++ [e])).
Proof.
  intros Hnd He Hph. assert (NoDup (ids (l ++ [e]))) as Hnd'.
  { unfold ids in *. rewrite fmap_app. apply NoDup_app. split_and!; [done| |apply NoDup_singleton].
    intros x Hx Hx'. by apply list_elem_of_singleton in Hx' as ->. }
  assert (queue_of l !! lr_id e = None) as Hnone.
  { apply eq_None_not_Some. intros [j (x & Hx & Hid & _)%queue_of_lookup]; [|done]. apply He. rewrite <- Hid.
    by apply list_elem_of_fmap_2. }
  split; [|done].
  assert (queue_of (l ++ [e]) = <[lr_id e := Queued]> (queue_of l)) as ->; [|by constructor].
  apply map_eq. intros i. apply option_eq. intros j. rewrite queue_of_lookup, lookup_insert_Some, queue_of_lookup by done.
  assert (job_of e = Queued) as Hj by (unfold job_of; by rewrite Hph). split.
  - intros (x & Hx & <- & <-). apply elem_of_app in Hx as [Hx|Hx]; [|apply list_elem_of_singleton in Hx as ->; by left]. right. split; [|by exists x].
    intros Hi. apply He. rewrite Hi. by apply list_elem_of_fmap_2.
  - intros [[<- <-]|[Hne (x & Hx & <- & <-)]]; [exists e|exists x]; rewrite elem_of_app, ?list_elem_of_singleton; auto.
Qed.
End Refinement.
