(* ===== verification/Ledger.v ===== *)
(** * The execution ledger (internal/controlplane/ledger.go)

    The rows of [executions] and the statements over them.  A statement is one
    atomic step of the table; its clock, the ids and tokens drawn and the rows
    other transactions have locked are arguments.  The table is listed in the
    order of insertion.  [ledger_step] runs one operation and says what was
    answered in the vocabulary of [LeaseQueue]. *)

From S2P Require Import Prelude Tables GoStrings Documents ControlDocuments Calls LeaseQueue.
#[local] Open Scope Z_scope.

Section Ledger.
Context `{Unicode}.

(** ** The columns of the statements *)
#[export] Instance Execution_row : LeaseRow Execution.Execution := {
  lr_id := Execution.ID;
  lr_phase := Execution.Phase;
  lr_available := Execution.AvailableAt;
  lr_created := Execution.CreatedAt;
  lr_claimed_by := Execution.ClaimedBy;
  lr_token := Execution.ClaimToken;
  lr_lease := Execution.LeaseExpiresAt;
  lr_claim worker token expires now e :=
    Execution.mk (Execution.ID e) (Execution.WorkspaceID e) (Execution.SystemName e) (Execution.ChangeID e) "running"
      (Execution.RequestedBy e) (Execution.Attempts e + 1) (Execution.AvailableAt e) worker token (Some expires) EmptyString
      (Execution.CreatedAt e) (Some (default now (Execution.StartedAt e))) (Execution.CompletedAt e);
  lr_renew expires e :=
    Execution.mk (Execution.ID e) (Execution.WorkspaceID e) (Execution.SystemName e) (Execution.ChangeID e) (Execution.Phase e)
      (Execution.RequestedBy e) (Execution.Attempts e) (Execution.AvailableAt e) (Execution.ClaimedBy e) (Execution.ClaimToken e)
      (Some expires) (Execution.Failure e) (Execution.CreatedAt e) (Execution.StartedAt e) (Execution.CompletedAt e);
  lr_complete phase failure now e :=
    Execution.mk (Execution.ID e) (Execution.WorkspaceID e) (Execution.SystemName e) (Execution.ChangeID e) phase
      (Execution.RequestedBy e) (Execution.Attempts e) (Execution.AvailableAt e) (Execution.ClaimedBy e) (Execution.ClaimToken e)
      None failure (Execution.CreatedAt e) (Execution.StartedAt e) (Some now)
}.
#[export] Instance Execution_row_ok : LeaseRowOk Execution.Execution.
Proof. by split. Qed.

(** ** The operations *)
Definition same_change (workspaceID systemName changeID : string) (e : Execution) : bool :=
  (Execution.WorkspaceID e == workspaceID) && (Execution.SystemName e == systemName) && (Execution.ChangeID e == changeID).

(** What the queries other than a claim return: they do not read [claim_token]. *)
Definition without_token (e : Execution) : Execution :=
  Execution.mk (Execution.ID e) (Execution.WorkspaceID e) (Execution.SystemName e) (Execution.ChangeID e) (Execution.Phase e)
    (Execution.RequestedBy e) (Execution.Attempts e) (Execution.AvailableAt e) (Execution.ClaimedBy e) EmptyString
    (Execution.LeaseExpiresAt e) (Execution.Failure e) (Execution.CreatedAt e) (Execution.StartedAt e) (Execution.CompletedAt e).

(** The row of a change is unique: a second request finds the first. *)
Definition EnqueueExecution (id workspaceID systemName changeID : string) (actor : ActorRef) (now : Z) (l : list Execution)
    : result Execution * list Execution :=
  match List.find (same_change workspaceID systemName changeID) l with
  | Some existing => (Ok (without_token existing), l)
  | None =>
      if bool_decide (id ∈ ids l) then (Err (External "duplicate key value"), l)
      else
        let e := Execution.mk id workspaceID systemName changeID "queued" actor 0 now EmptyString EmptyString None EmptyString
                   now None None in
        (Ok e, l ++ [e])
  end.

Definition Store_Execution (id : string) (l : list Execution) : result Execution :=
  match List.find (fun e => Execution.ID e == id) l with Some e => Ok (without_token e) | None => Err ErrNotFound end.
Definition ExecutionForChange (workspaceID systemName changeID : string) (l : list Execution) : result Execution :=
  match List.find (same_change workspaceID systemName changeID) l with Some e => Ok (without_token e) | None => Err ErrNotFound end.

Definition ClaimExecution (worker : string) (lease : Z) (claimToken : string) (locked : list string) (now : Z)
    (l : list Execution) : result (option Execution) * list Execution :=
  if (worker == EmptyString) || (lease <=? 0)
  then (Err (Errorf "execution worker and positive lease are required"), l)
  else let '(e, l') := claim_rows worker claimToken lease locked now l in (Ok e, l').

Definition RenewExecution (id worker claimToken : string) (lease now : Z) (l : list Execution) : result unit * list Execution :=
  if (lease <=? 0) || (claimToken == EmptyString) then (Err ErrConflict, l)
  else
    let '(renewed, l') := renew_rows id worker claimToken (now + lease) now l in
    (if renewed then Ok tt else Err ErrConflict, l').

Definition CompleteExecution (id worker claimToken : string) (applyErr : option error) (now : Z) (l : list Execution)
    : result unit * list Execution :=
  if claimToken == EmptyString then (Err ErrConflict, l)
  else
    let '(phase, failure) := match applyErr with None => ("succeeded", EmptyString) | Some e => ("failed", Error e) end in
    let '(completed, l') := complete_rows id worker claimToken phase failure now l in
    (if completed then Ok tt else Err ErrConflict, l').

(** ** Histories *)
Inductive ledger_op : Type :=
  | LEnqueue (id workspaceID systemName changeID : string) (actor : ActorRef) (now : Z)
  | LClaim (worker : string) (lease : Z) (claimToken : string) (locked : list string) (now : Z)
  | LRenew (id worker claimToken : string) (lease now : Z)
  | LComplete (id worker claimToken : string) (applyErr : option error) (now : Z).

Definition ledger_step (op : ledger_op) (l : list Execution) : queue_event * list Execution :=
  match op with
  | LEnqueue id workspaceID systemName changeID actor now =>
      let '(r, l') := EnqueueExecution id workspaceID systemName changeID actor now l in
      (if length l' =? length l then Refused else Enqueued id, l')
  | LClaim worker lease claimToken locked now =>
      let '(r, l') := ClaimExecution worker lease claimToken locked now l in
      (match r with Ok (Some e) => Claimed (Execution.ID e) worker claimToken now (now + lease) | _ => Refused end, l')
  | LRenew id worker claimToken lease now =>
      let '(r, l') := RenewExecution id worker claimToken lease now l in
      (if is_ok r then Renewed id worker claimToken now (now + lease) else Refused, l')
  | LComplete id worker claimToken applyErr now =>
      let '(r, l') := CompleteExecution id worker claimToken applyErr now l in
      (if is_ok r then Completed id worker claimToken now else Refused, l')
  end%nat.

(** From the empty table; histories are newest first. *)
Fixpoint ledger_run (ops : list ledger_op) : list queue_event * list Execution :=
  match ops with
  | [] => ([], [])
  | op :: older => let '(h, l) := ledger_run older in let '(e, l') := ledger_step op l in (e :: h, l')
  end.

(** ** Refinement *)
Definition table_ok (l : list Execution) : Prop :=
  NoDup (ids l) /\
  NoDup ((fun e => (Execution.WorkspaceID e, Execution.SystemName e, Execution.ChangeID e)) <$> l).
Abbreviation change_key := (fun e => (Execution.WorkspaceID e, Execution.SystemName e, Execution.ChangeID e)).

Lemma keys_update (p : Execution -> bool) f (l : list Execution) :
  (forall e, change_key (f e) = change_key e) -> change_key <$> update_where p f l = change_key <$> l.
Proof.
  intros Hf. unfold update_where. rewrite <- list_fmap_compose. apply list_fmap_ext. intros i e _. unfold compose.
  by destruct (p e).
Qed.

Lemma ledger_step_refines op l e l' :
  table_ok l -> ledger_step op l = (e, l') -> queue_step (queue_of l) e (queue_of l') /\ table_ok l'.
Proof.
  intros [Hnd Hkeys]. destruct op as [id ws sys ch actor now|worker lease token locked now|id worker token lease now|id worker token err now];
    cbn [ledger_step].
  - unfold EnqueueExecution. destruct (List.find _ l) as [x|] eqn:Hf.
    { rewrite Nat.eqb_refl. intros [= <- <-]. by split; [constructor|]. }
    case_bool_decide as Hid; [rewrite Nat.eqb_refl; intros [= <- <-]; by split; [constructor|]|]. cbv zeta.
    set (x := Execution.mk _ _ _ _ _ _ _ _ _ _ _ _ _ _ _). rewrite length_app, (proj2 (Nat.eqb_neq _ _)) by (cbn; lia).
    intros [= <- <-]. destruct (insert_step x l Hnd Hid eq_refl) as [Hs Hnd']. split; [exact Hs|]. split; [done|].
    rewrite fmap_app. apply NoDup_app. split_and!; [done| |apply NoDup_singleton]. intros k Hk ->%list_elem_of_singleton.
    apply list_elem_of_fmap in Hk as (y & Hy & Hin). cbn in Hy. injection Hy as H1 H2 H3.
    apply list_elem_of_In in Hin. eapply List.find_none in Hf; [|exact Hin]. unfold same_change in Hf.
    by rewrite H1, H2, H3, !bool_decide_true in Hf.
  - unfold ClaimExecution. destruct (_ || _); [intros [= <- <-]; by split; [constructor|]|].
    destruct (claim_rows worker token lease locked now l) as [[x|] l0] eqn:Hc.
    + intros [= <- <-]. destruct (claim_step _ _ _ _ _ _ _ _ Hnd Hc) as [Hs Hids]. split; [exact Hs|].
      unfold claim_rows in Hc. destruct (candidate _ _ _) as [y|]; [|done]. injection Hc as _ <-.
      split; [by rewrite Hids|]. by rewrite keys_update.
    + unfold claim_rows in Hc. destruct (candidate _ _ _); [done|]. injection Hc as <-. intros [= <- <-]. by split; [constructor|].
  - unfold RenewExecution. destruct (_ || _); [intros [= <- <-]; by split; [constructor|]|].
    destruct (renew_rows id worker token (now + lease) now l) as [b l0] eqn:Hc.
    destruct (renew_step _ _ _ _ _ _ _ _ Hnd Hc) as [Hs Hids]. injection Hc as _ <-.
    destruct b; intros [= <- <-]; (split; [exact Hs|]); (split; [by rewrite Hids|by rewrite keys_update]).
  - unfold CompleteExecution. destruct (token == EmptyString); [intros [= <- <-]; by split; [constructor|]|].
    destruct (match err with None => _ | Some _ => _ end) as [phase failure] eqn:Hp.
    destruct (complete_rows id worker token phase failure now l) as [b l0] eqn:Hc.
    assert (phase <> "queued" /\ phase <> "running") as [Hq Hr] by by destruct err; injection Hp as <- <-.
    destruct (complete_step _ _ _ _ _ _ _ _ _ Hnd Hq Hr Hc) as [Hs Hids].
    injection Hc as _ <-.
    destruct b; intros [= <- <-]; (split; [exact Hs|]); (split; [by rewrite Hids|by rewrite keys_update]).
Qed.

Lemma ledger_run_refines ops h l : ledger_run ops = (h, l) -> queue_run h (queue_of l) /\ table_ok l.
Proof.
  revert h l. induction ops as [|op ops IH]; intros h l; cbn [ledger_run].
  - intros [= <- <-]. split; [constructor|]. split; constructor.
  - destruct (ledger_run ops) as [h0 l0]. destruct (IH h0 l0 eq_refl) as [Hrun Hok].
    destruct (ledger_step op l0) as [e l1] eqn:Hs. intros [= <- <-].
    destruct (ledger_step_refines _ _ _ _ Hok Hs) as [Hstep Hok']. split; [|done]. by econstructor.
Qed.
End Ledger.
