(* ===== verification/Deployments.v ===== *)
(** * Initial deployments (internal/controlplane/initial_deployment_store.go)

    The rows of [initial_deployments] and [initial_deployment_executions], the
    workspaces' revisions and the usage reservations, and the transactions over
    them.  A transaction is one atomic step, as its row locks or its isolation
    make it; on an error it changes nothing.  The execution rows have the
    statements of [LeaseQueue]. *)

From S2P Require Import Prelude Tables GoStrings Digest Json Documents ControlDocuments SandboxSpec Calls Changes LeaseQueue.
#[local] Open Scope Z_scope.

(** ** The tables *)
Module deployment_row.
Record deployment_row : Type := mk {
  ID : string; WorkspaceID : string; SystemName : string; Phase : string; Summary : string; Digest : string;
  Document : InitialDeployment.InitialDeployment; CreatedAt : Z; UpdatedAt : Z
}.
End deployment_row.
Abbreviation deployment_row := deployment_row.deployment_row (only parsing).

Module usage_reservation.
Record usage_reservation : Type := mk {
  ID : string; WorkspaceID : string; SubjectKind : string; SubjectID : string; AmountCents : Z; Phase : string
}.
End usage_reservation.
Abbreviation usage_reservation := usage_reservation.usage_reservation (only parsing).

(** workspace_usage_caps. *)
Module usage_cap.
Record usage_cap : Type := mk { LimitCents : Z; ReservedCents : Z; SpentCents : Z }.
End usage_cap.
Abbreviation usage_cap := usage_cap.usage_cap (only parsing).

Record deployment_db : Type := Db {
  revisions : gmap string Z;
  deployments : list deployment_row.deployment_row;
  executions : list InitialDeploymentExecution.InitialDeploymentExecution;
  caps : gmap string usage_cap.usage_cap;
  reservations : list usage_reservation.usage_reservation
}.
Definition with_deployments v db := Db db.(revisions) v db.(executions) db.(caps) db.(reservations).
Definition with_executions v db := Db db.(revisions) db.(deployments) v db.(caps) db.(reservations).
Definition with_usage c r db := Db db.(revisions) db.(deployments) db.(executions) c r.

Abbreviation IDE := InitialDeploymentExecution.InitialDeploymentExecution (only parsing).
Module IE := InitialDeploymentExecution.

#[export] Instance initial_row : LeaseRow IE.InitialDeploymentExecution := {
  lr_id := IE.ID;
  lr_phase := IE.Phase;
  lr_available := IE.AvailableAt;
  lr_created := IE.CreatedAt;
  lr_claimed_by := IE.ClaimedBy;
  lr_token := IE.ClaimToken;
  lr_lease := IE.LeaseExpiresAt;
  lr_claim worker token expires now e :=
    IE.mk (IE.ID e) (IE.WorkspaceID e) (IE.DeploymentID e) (IE.SystemName e) "running" (IE.RequestedBy e) (IE.Attempts e + 1)
      (IE.AvailableAt e) worker token (Some expires) EmptyString (IE.CreatedAt e) (Some (default now (IE.StartedAt e)))
      (IE.CompletedAt e);
  lr_renew expires e :=
    IE.mk (IE.ID e) (IE.WorkspaceID e) (IE.DeploymentID e) (IE.SystemName e) (IE.Phase e) (IE.RequestedBy e) (IE.Attempts e)
      (IE.AvailableAt e) (IE.ClaimedBy e) (IE.ClaimToken e) (Some expires) (IE.Failure e) (IE.CreatedAt e) (IE.StartedAt e)
      (IE.CompletedAt e);
  lr_complete phase failure now e :=
    IE.mk (IE.ID e) (IE.WorkspaceID e) (IE.DeploymentID e) (IE.SystemName e) phase (IE.RequestedBy e) (IE.Attempts e)
      (IE.AvailableAt e) (IE.ClaimedBy e) (IE.ClaimToken e) None failure (IE.CreatedAt e) (IE.StartedAt e) (Some now)
}.
#[export] Instance initial_row_ok : LeaseRowOk IE.InitialDeploymentExecution.
Proof. by split. Qed.

Section Deployments.
Context `{Unicode}.

(** ** The digest of a plan *)
Definition service_resources_json (r : ServiceResources) : json :=
  JObject (field "vcpu" (JInt (ServiceResources.VCPU r)) ++ field "memoryMiB" (JInt (ServiceResources.MemoryMiB r))).
Definition readiness_json (r : Readiness) : json :=
  JObject (field "protocol" (JString (Readiness.Protocol r)) ++ field "port" (JInt (Readiness.Port r))).
Definition system_service_json (s : SystemService) : json :=
  JObject (field "name" (JString (SystemService.Name s)) ++ field "kind" (JString (SystemService.Kind s)) ++
           omit_string "engine" (SystemService.Engine s) ++ field "isolation" (JString (SystemService.Isolation s)) ++
           field "instances" (JInt (SystemService.Instances s)) ++
           omit_list "dependsOn" JString (SystemService.DependsOn s) ++
           field "resources" (service_resources_json (SystemService.Resources s)) ++
           field "readiness" (readiness_json (SystemService.Readiness_ s)) ++
           omit_string "networking" (SystemService.Networking s)).
Definition host_json (h : HostConstraint) : json :=
  JObject (field "class" (JString (HostConstraint.Class_ h)) ++ field "count" (JInt (HostConstraint.Count h)) ++
           field "memoryMiB" (JInt (HostConstraint.MemoryMiB h)) ++
           field "systemReserveMiB" (JInt (HostConstraint.SystemReserve h))).
Definition system_json (s : System) : json :=
  let spec := System.Spec_ s in
  JObject (field "apiVersion" (JString (System.APIVersion s)) ++ field "kind" (JString (System.Kind s)) ++
           field "metadata" (JObject (field "name" (JString (Metadata.Name (System.Metadata_ s))))) ++
           field "spec" (JObject (
             field "intent" (JString (SystemContract.Intent spec)) ++
             field "constraints" (JObject (field "host" (host_json (Constraints.Host (SystemContract.Constraints_ spec))))) ++
             field "services" (JArray (system_service_json <$> SystemContract.Services spec)) ++
             field "m1" (JObject (field "prefix" (JString (M1Spec.Prefix (SystemContract.M1 spec)))))))).
Definition deployment_release_json (r : InitialDeploymentRelease) : json :=
  JObject (field "command" (strings_json (InitialDeploymentRelease.Command r)) ++
           omit_map "environment" (InitialDeploymentRelease.Environment r) ++
           field "healthPath" (JString (InitialDeploymentRelease.HealthPath r)) ++
           field "publicPort" (JInt (InitialDeploymentRelease.PublicPort r))).
Definition deployment_plan_json (p : InitialDeploymentPlan) : json :=
  JObject (field "system" (system_json (InitialDeploymentPlan.System p)) ++
           field "artifactSha256" (JString (InitialDeploymentPlan.ArtifactSHA256 p)) ++
           field "release" (deployment_release_json (InitialDeploymentPlan.Release p)) ++
           field "verification" (verification_json (InitialDeploymentPlan.Verification p)) ++
           field "workspaceRevision" (JInt (InitialDeploymentPlan.WorkspaceRevision p)) ++
           omit_string "replacesDeploymentId" (InitialDeploymentPlan.ReplacesDeploymentID p)).
Definition digestInitialDeployment (p : InitialDeploymentPlan) : string := sha256_hex (render (deployment_plan_json p)).

(** ** Rows *)
Definition find_deployment (id : string) (db : deployment_db) : option deployment_row :=
  List.find (fun r => deployment_row.ID r == id) (deployments db).
Definition find_in_workspace (workspaceID id : string) (db : deployment_db) : option deployment_row :=
  List.find (fun r => (deployment_row.WorkspaceID r == workspaceID) && (deployment_row.ID r == id)) (deployments db).

Definition scanInitialDeploymentWithDigest (row : deployment_row) : result InitialDeployment :=
  let deployment := deployment_row.Document row in
  if InitialDeployment.Digest deployment != deployment_row.Digest row
  then Err (WrapfBefore ErrConflict ": deployment document digest differs from durable digest")
  else Ok deployment.

Definition store_document (deployment : InitialDeployment) (row : deployment_row) : deployment_row :=
  deployment_row.mk (deployment_row.ID row) (deployment_row.WorkspaceID row) (deployment_row.SystemName row)
    (InitialDeployment.Phase deployment) (deployment_row.Summary row) (deployment_row.Digest row) deployment
    (deployment_row.CreatedAt row) (InitialDeployment.UpdatedAt deployment).
Definition updateInitialDeploymentTx (deployment : InitialDeployment) (db : deployment_db) : deployment_db :=
  with_deployments (update_where (fun r => deployment_row.ID r == InitialDeployment.ID deployment) (store_document deployment)
                      (deployments db)) db.

(** ** Creating and reading *)
Definition CreateInitialDeployment (d : InitialDeployment) (db : deployment_db) : result unit * deployment_db :=
  if existsb (fun r => (deployment_row.ID r == InitialDeployment.ID d) ||
                       ((deployment_row.WorkspaceID r == InitialDeployment.WorkspaceID d) &&
                        (deployment_row.SystemName r == InitialDeployment.System d) &&
                        (deployment_row.Phase r != "failed") && (InitialDeployment.Phase d != "failed"))) (deployments db)
  then (Err ErrConflict, db)
  else
    (Ok tt, with_deployments (deployments db ++
       [deployment_row.mk (InitialDeployment.ID d) (InitialDeployment.WorkspaceID d) (InitialDeployment.System d)
          (InitialDeployment.Phase d) (InitialDeployment.Summary d) (InitialDeployment.Digest d) d
          (InitialDeployment.CreatedAt d) (InitialDeployment.UpdatedAt d)]) db).

Definition Store_InitialDeployment (workspaceID id : string) (db : deployment_db) : result InitialDeployment :=
  match find_in_workspace workspaceID id db with
  | None => Err ErrNotFound
  | Some row => scanInitialDeploymentWithDigest row
  end.

(** ** Authorizing *)
Definition authorized_for (digest : string) (actor : ActorRef) (now : Z) (d : InitialDeployment) : InitialDeployment :=
  InitialDeployment.with_UpdatedAt now
    (InitialDeployment.with_Authorization_ (Some (Authorization.mk digest now (Some actor)))
      (InitialDeployment.with_Phase "authorized" d)).

Definition AuthorizeInitialDeployment (workspaceID id digest : string) (actor : ActorRef) (now : Z) (db : deployment_db)
    : result InitialDeployment * deployment_db :=
  match Store_InitialDeployment workspaceID id db with
  | Err e => (Err e, db)
  | Ok d =>
      let recomputed := digestInitialDeployment (InitialDeployment.Plan d) in
      if (InitialDeployment.Phase d != "drafted") || (digest == EmptyString) || (digest != InitialDeployment.Digest d) ||
         (recomputed != InitialDeployment.Digest d)
      then (Err ErrConflict, db)
      else
        match revisions db !! workspaceID with
        | None => (Err no_rows, db)
        | Some revision =>
            if revision =? InitialDeploymentPlan.WorkspaceRevision (InitialDeployment.Plan d) then
              let d := authorized_for digest actor now d in (Ok d, updateInitialDeploymentTx d db)
            else (Err ErrConflict, db)
        end
  end.

(** ** The spend guard *)
Definition initialDeploymentReservationCents : Z := 500.
Definition live_reservation (workspaceID subject : string) (r : usage_reservation) : bool :=
  (usage_reservation.WorkspaceID r == workspaceID) && (usage_reservation.SubjectKind r == "initial-deployment") &&
  (usage_reservation.SubjectID r == subject) &&
  ((usage_reservation.Phase r == "reserved") || (usage_reservation.Phase r == "committed")).
Definition any_reservation (workspaceID subject : string) (r : usage_reservation) : bool :=
  (usage_reservation.WorkspaceID r == workspaceID) && (usage_reservation.SubjectKind r == "initial-deployment") &&
  (usage_reservation.SubjectID r == subject).
Definition with_SubjectID (subject : string) (r : usage_reservation) : usage_reservation :=
  usage_reservation.mk (usage_reservation.ID r) (usage_reservation.WorkspaceID r) (usage_reservation.SubjectKind r) subject
    (usage_reservation.AmountCents r) (usage_reservation.Phase r).

(** The new reservation: under the row lock of the cap. *)
Definition new_reservation (id workspaceID deploymentID : string) (db : deployment_db) : result deployment_db :=
  match caps db !! workspaceID with
  | None => Err no_rows
  | Some cap =>
      let '(usage_cap.mk limit reserved spent) := cap in
      if limit <? reserved + spent + initialDeploymentReservationCents
      then Err (WrapfBefore ErrCapacity ": this workspace cannot allocate more beta compute")
      else if existsb (any_reservation workspaceID deploymentID) (reservations db) then Err unique_violation
      else
        Ok (with_usage (<[workspaceID := usage_cap.mk limit (reserved + initialDeploymentReservationCents) spent]> (caps db))
              (reservations db ++ [usage_reservation.mk id workspaceID "initial-deployment" deploymentID
                                     initialDeploymentReservationCents "reserved"]) db)
  end.

Definition reserveInitialDeploymentUsage (id workspaceID deploymentID replacesDeploymentID : string) (db : deployment_db)
    : result deployment_db :=
  if existsb (live_reservation workspaceID deploymentID) (reservations db) then Ok db
  else if replacesDeploymentID == EmptyString then new_reservation id workspaceID deploymentID db
  else
    let n := affected (live_reservation workspaceID replacesDeploymentID) (reservations db) in
    if (0 <? n) && existsb (any_reservation workspaceID deploymentID) (reservations db) then Err unique_violation
    else if n =? 1 then
      Ok (with_usage (caps db) (update_where (live_reservation workspaceID replacesDeploymentID) (with_SubjectID deploymentID)
                                  (reservations db)) db)
    else if 1 <? n then Err ErrConflict
    else new_reservation id workspaceID deploymentID db.

(** ** Queueing *)
Definition reset_operation (o : InitialDeploymentOperation) : InitialDeploymentOperation :=
  if InitialDeploymentOperation.Phase o == "succeeded" then o
  else InitialDeploymentOperation.mk (InitialDeploymentOperation.ID o) (InitialDeploymentOperation.Kind o)
         (InitialDeploymentOperation.Description o) "pending" None None EmptyString.
Definition queued_deployment (now : Z) (d : InitialDeployment) : InitialDeployment :=
  InitialDeployment.with_UpdatedAt now
    (InitialDeployment.with_CompletedAt None
      (InitialDeployment.with_Failure EmptyString
        (InitialDeployment.with_Phase "queued"
          (InitialDeployment.with_Operations (reset_operation <$> InitialDeployment.Operations d) d)))).

Definition active_execution (deploymentID : string) (e : IDE) : bool :=
  (IE.DeploymentID e == deploymentID) && ((IE.Phase e == "queued") || (IE.Phase e == "running")).

(** The unique index on the Systems of deployments that did not fail. *)
Definition other_active (d : InitialDeployment) (r : deployment_row) : bool :=
  (deployment_row.WorkspaceID r == InitialDeployment.WorkspaceID d) &&
  (deployment_row.SystemName r == InitialDeployment.System d) && (deployment_row.Phase r != "failed") &&
  (deployment_row.ID r != InitialDeployment.ID d).

(** [billing] is the answer of requireBillingPayment; [enqueueInitialDeploymentError]
    turns serialization and uniqueness failures into conflicts. *)
Definition enqueueInitialDeploymentError (e : error) : error := if e == unique_violation then ErrConflict else e.

Definition EnqueueInitialDeployment (billing : result unit) (id reservation workspaceID deploymentID : string)
    (actor : ActorRef) (now : Z) (db : deployment_db) : result IDE * deployment_db :=
  match billing with
  | Err e => (Err e, db)
  | Ok _ =>
      match Store_InitialDeployment workspaceID deploymentID db with
      | Err e => (Err (enqueueInitialDeploymentError e), db)
      | Ok d =>
          let recomputed := digestInitialDeployment (InitialDeployment.Plan d) in
          if negb ((InitialDeployment.Phase d == "authorized") || (InitialDeployment.Phase d == "failed")) ||
             match InitialDeployment.Authorization_ d with
             | None => true
             | Some authorization => Authorization.Digest authorization != InitialDeployment.Digest d
             end || (recomputed != InitialDeployment.Digest d)
          then (Err ErrConflict, db)
          else if existsb (active_execution deploymentID) (executions db) then (Err ErrConflict, db)
          else
            match reserveInitialDeploymentUsage reservation workspaceID deploymentID
                    (InitialDeploymentPlan.ReplacesDeploymentID (InitialDeployment.Plan d)) db with
            | Err e => (Err (enqueueInitialDeploymentError e), db)
            | Ok reserved =>
                if bool_decide (id ∈ ids (executions db)) || existsb (other_active d) (deployments db) then (Err ErrConflict, db)
                else
                  let e := IE.mk id workspaceID deploymentID (InitialDeployment.System d) "queued" actor 0 now EmptyString
                             EmptyString None EmptyString now None None in
                  (Ok e, updateInitialDeploymentTx (queued_deployment now d)
                           (with_executions (executions reserved ++ [e]) reserved))
            end
      end
  end.

(** ** Claiming, renewing, completing *)
Definition run_document (now : Z) (row : deployment_row) : deployment_row :=
  deployment_row.mk (deployment_row.ID row) (deployment_row.WorkspaceID row) (deployment_row.SystemName row) "running"
    (deployment_row.Summary row) (deployment_row.Digest row) (InitialDeployment.with_Phase "running" (deployment_row.Document row))
    (deployment_row.CreatedAt row) now.

Definition ClaimInitialDeploymentExecution (worker : string) (lease : Z) (claimToken : string) (locked : list string) (now : Z)
    (db : deployment_db) : result (option IDE) * deployment_db :=
  let '(e, l) := claim_rows worker claimToken lease locked now (executions db) in
  match e with
  | None => (Ok None, db)
  | Some e =>
      (Ok (Some e),
       with_deployments (update_where (fun r => deployment_row.ID r == IE.DeploymentID e) (run_document now) (deployments db))
         (with_executions l db))
  end.

Definition RenewInitialDeploymentExecution (id worker claimToken : string) (lease now : Z) (db : deployment_db)
    : result unit * deployment_db :=
  let '(renewed, l) := renew_rows id worker claimToken (now + lease) now (executions db) in
  (if renewed then Ok tt else Err ErrConflict, with_executions l db).

Definition completed_document (phase failure : string) (now : Z) (d : InitialDeployment) : InitialDeployment :=
  InitialDeployment.with_CompletedAt (Some now)
    (InitialDeployment.with_UpdatedAt now
      (InitialDeployment.with_Failure failure (InitialDeployment.with_Phase phase d))).

Definition CompleteInitialDeploymentExecution (id worker claimToken : string) (applyErr : option error) (now : Z)
    (db : deployment_db) : result unit * deployment_db :=
  let '(phase, failure) := match applyErr with None => ("succeeded", EmptyString) | Some e => ("failed", Error e) end in
  match List.find (held id worker claimToken now) (executions db) with
  | None => (Err ErrConflict, db)
  | Some e =>
      match find_deployment (IE.DeploymentID e) db with
      | None => (Err no_rows, db)
      | Some row =>
          let '(_, l) := complete_rows id worker claimToken phase failure now (executions db) in
          (Ok tt, updateInitialDeploymentTx (completed_document phase failure now (deployment_row.Document row))
                    (with_executions l db))
      end
  end.

(** ** Operations, under the claim *)
Definition lockActiveInitialExecution (id worker claimToken deploymentID : string) (now : Z) (db : deployment_db) : result unit :=
  reject_if (negb (existsb (fun e => held id worker claimToken now e && (IE.DeploymentID e == deploymentID)) (executions db)))
    ErrConflict.

(** The first operation of that id, with what [f] makes of it. *)
Fixpoint on_operation (id : string) (f : InitialDeploymentOperation -> InitialDeploymentOperation)
    (l : list InitialDeploymentOperation) : list InitialDeploymentOperation :=
  match l with
  | [] => []
  | o :: l' => if InitialDeploymentOperation.ID o == id then f o :: l' else o :: on_operation id f l'
  end.
Definition find_operation (id : string) (d : InitialDeployment) : option InitialDeploymentOperation :=
  List.find (fun o => InitialDeploymentOperation.ID o == id) (InitialDeployment.Operations d).

Definition begun (now : Z) (o : InitialDeploymentOperation) : InitialDeploymentOperation :=
  InitialDeploymentOperation.mk (InitialDeploymentOperation.ID o) (InitialDeploymentOperation.Kind o)
    (InitialDeploymentOperation.Description o) "running" (Some now) None EmptyString.
Definition finished (phase failure : string) (now : Z) (o : InitialDeploymentOperation) : InitialDeploymentOperation :=
  InitialDeploymentOperation.mk (InitialDeploymentOperation.ID o) (InitialDeploymentOperation.Kind o)
    (InitialDeploymentOperation.Description o) phase (InitialDeploymentOperation.StartedAt o) (Some now) failure.
Definition change_operation (id : string) f (now : Z) (d : InitialDeployment) : InitialDeployment :=
  InitialDeployment.with_UpdatedAt now (InitialDeployment.with_Operations (on_operation id f (InitialDeployment.Operations d)) d).

Definition BeginInitialDeploymentOperation (executionID worker claimToken deploymentID operationID : string) (now : Z)
    (db : deployment_db) : result bool * deployment_db :=
  match lockActiveInitialExecution executionID worker claimToken deploymentID now db with
  | Err e => (Err e, db)
  | Ok _ =>
      match find_deployment deploymentID db with
      | None => (Err no_rows, db)
      | Some row =>
          let d := deployment_row.Document row in
          match find_operation operationID d with
          | None => (Err ErrNotFound, db)
          | Some operation =>
              if InitialDeploymentOperation.Phase operation == "succeeded" then (Ok false, db)
              else (Ok true, updateInitialDeploymentTx (change_operation operationID (begun now) now d) db)
          end
      end
  end.

Definition add_operation_evidence (evidence : option ChangeEvidence) (l : list ChangeEvidence) : list ChangeEvidence :=
  match evidence with
  | None => l
  | Some evidence =>
      if existsb (fun existing => (ChangeEvidence.OperationID existing == ChangeEvidence.OperationID evidence) &&
                                  (ChangeEvidence.Statement existing == ChangeEvidence.Statement evidence)) l
      then l else l ++ [evidence]
  end.

Definition FinishInitialDeploymentOperation (executionID worker claimToken deploymentID operationID phase failure : string)
    (evidence : option ChangeEvidence) (now : Z) (db : deployment_db) : result unit * deployment_db :=
  if (phase != "succeeded") && (phase != "failed")
  then (Err (Errorf "operation completion phase must be succeeded or failed"), db)
  else
    match lockActiveInitialExecution executionID worker claimToken deploymentID now db with
    | Err e => (Err e, db)
    | Ok _ =>
        match find_deployment deploymentID db with
        | None => (Err no_rows, db)
        | Some row =>
            let d := deployment_row.Document row in
            match find_operation operationID d with
            | None => (Err ErrNotFound, db)
            | Some _ =>
                let d := change_operation operationID (finished phase failure now) now d in
                let d := InitialDeployment.with_Evidence (add_operation_evidence evidence (InitialDeployment.Evidence d)) d in
                (Ok tt, updateInitialDeploymentTx d db)
            end
        end
    end.

(** ** Reopening a destroyed host *)
Definition HasPriorFailedInitialDeploymentExecution (deploymentID currentExecutionID : string) (db : deployment_db) : bool :=
  existsb (fun e => (IE.DeploymentID e == deploymentID) && (IE.ID e != currentExecutionID) && (IE.Phase e == "failed"))
    (executions db).

(** The first succeeded bootstrap operation. *)
Fixpoint reopen_operation (l : list InitialDeploymentOperation) : option (list InitialDeploymentOperation) :=
  match l with
  | [] => None
  | o :: l' =>
      if (InitialDeploymentOperation.ID o != "02-bootstrap-host") || (InitialDeploymentOperation.Phase o != "succeeded")
      then (fun l'' => o :: l'') <$> reopen_operation l'
      else Some (InitialDeploymentOperation.mk (InitialDeploymentOperation.ID o) (InitialDeploymentOperation.Kind o)
                   (InitialDeploymentOperation.Description o) "pending" None None EmptyString :: l')
  end.

Definition ReopenDestroyedInitialDeploymentHost (executionID worker claimToken deploymentID : string) (now : Z)
    (db : deployment_db) : result unit * deployment_db :=
  match lockActiveInitialExecution executionID worker claimToken deploymentID now db with
  | Err e => (Err e, db)
  | Ok _ =>
      match List.find (fun e => IE.ID e == executionID) (executions db) with
      | None => (Err no_rows, db)
      | Some e =>
          if ActorRef.Kind (IE.RequestedBy e) != "human" then (Err ErrForbidden, db)
          else if negb (HasPriorFailedInitialDeploymentExecution deploymentID executionID db) then (Err ErrConflict, db)
          else
            match find_deployment deploymentID db with
            | None => (Err no_rows, db)
            | Some row =>
                let d := deployment_row.Document row in
                match reopen_operation (InitialDeployment.Operations d) with
                | None => (Ok tt, db)
                | Some operations =>
                    let evidence := List.filter (fun item => ChangeEvidence.OperationID item != "02-bootstrap-host")
                                      (InitialDeployment.Evidence d) in
                    (Ok tt, updateInitialDeploymentTx
                              (InitialDeployment.with_UpdatedAt now
                                (InitialDeployment.with_Evidence evidence (InitialDeployment.with_Operations operations d))) db)
                end
            end
      end
  end.
End Deployments.
