(* ===== verification/DeploymentSteps.v ===== *)
(** * The states initial deployments reach

    [deployment_step] is one transaction, with what it answered in the
    vocabulary of [LeaseQueue]; [deployment_ok] holds of every state reached. *)

From S2P Require Import Prelude Tables GoStrings Digest Documents ControlDocuments Calls LeaseQueue Deployments.
#[local] Open Scope Z_scope.
#[local] Opaque digestInitialDeployment.

Section Steps.
Context `{Unicode}.

(** [OpCreate] inserts what DraftInitialDeployment builds, [OpWorkspace] and
    [OpCap] are what the rest of the control plane does to revisions and caps. *)
Inductive deployment_op : Type :=
  | OpCreate (d : InitialDeployment)
  | OpAuthorize (workspaceID id digest : string) (actor : ActorRef) (now : Z)
  | OpEnqueue (billing : result unit) (id reservation workspaceID deploymentID : string) (actor : ActorRef) (now : Z)
  | OpClaim (worker : string) (lease : Z) (claimToken : string) (locked : list string) (now : Z)
  | OpRenew (id worker claimToken : string) (lease now : Z)
  | OpComplete (id worker claimToken : string) (applyErr : option error) (now : Z)
  | OpBegin (executionID worker claimToken deploymentID operationID : string) (now : Z)
  | OpFinish (executionID worker claimToken deploymentID operationID phase failure : string) (evidence : option ChangeEvidence) (now : Z)
  | OpReopen (executionID worker claimToken deploymentID : string) (now : Z)
  | OpWorkspace (workspaceID : string) (revision : Z)
  | OpCap (workspaceID : string) (cap : usage_cap).

(** What the callers and the table's CHECK constraints ensure. *)
Definition op_ok (op : deployment_op) : Prop :=
  match op with
  | OpCreate d => InitialDeployment.Phase d = "drafted"
  | OpCap _ cap => usage_cap.ReservedCents cap + usage_cap.SpentCents cap <= usage_cap.LimitCents cap
  | _ => True
  end.

Definition deployment_step (op : deployment_op) (db : deployment_db) : queue_event * deployment_db :=
  match op with
  | OpCreate d => (Refused, (CreateInitialDeployment d db).2)
  | OpAuthorize ws id digest actor now => (Refused, (AuthorizeInitialDeployment ws id digest actor now db).2)
  | OpEnqueue billing id reservation ws deploymentID actor now =>
      let '(r, db') := EnqueueInitialDeployment billing id reservation ws deploymentID actor now db in
      (if is_ok r then Enqueued id else Refused, db')
  | OpClaim worker lease claimToken locked now =>
      let '(r, db') := ClaimInitialDeploymentExecution worker lease claimToken locked now db in
      (match r with Ok (Some e) => Claimed (IE.ID e) worker claimToken now (now + lease) | _ => Refused end, db')
  | OpRenew id worker claimToken lease now =>
      let '(r, db') := RenewInitialDeploymentExecution id worker claimToken lease now db in
      (if is_ok r then Renewed id worker claimToken now (now + lease) else Refused, db')
  | OpComplete id worker claimToken applyErr now =>
      let '(r, db') := CompleteInitialDeploymentExecution id worker claimToken applyErr now db in
      (if is_ok r then Completed id worker claimToken now else Refused, db')
  | OpBegin executionID worker claimToken deploymentID operationID now =>
      (Refused, (BeginInitialDeploymentOperation executionID worker claimToken deploymentID operationID now db).2)
  | OpFinish executionID worker claimToken deploymentID operationID phase failure evidence now =>
      (Refused, (FinishInitialDeploymentOperation executionID worker claimToken deploymentID operationID phase failure evidence now db).2)
  | OpReopen executionID worker claimToken deploymentID now =>
      (Refused, (ReopenDestroyedInitialDeploymentHost executionID worker claimToken deploymentID now db).2)
  | OpWorkspace ws revision => (Refused, Db (<[ws := revision]> (revisions db)) (deployments db) (executions db) (caps db) (reservations db))
  | OpCap ws cap => (Refused, with_usage (<[ws := cap]> (caps db)) (reservations db) db)
  end.

Definition empty_db : deployment_db := Db ∅ [] [] ∅ [].
Fixpoint deployment_run (ops : list deployment_op) : list queue_event * deployment_db :=
  match ops with
  | [] => ([], empty_db)
  | op :: older => let '(h, db) := deployment_run older in let '(e, db') := deployment_step op db in (e :: h, db')
  end.

(** ** The invariant *)
Definition plan_authorized (d : InitialDeployment) : Prop :=
  exists a, InitialDeployment.Authorization_ d = Some a /\ Authorization.Digest a = InitialDeployment.Digest d /\
    digestInitialDeployment (InitialDeployment.Plan d) = InitialDeployment.Digest d.

Record row_ok (r : deployment_row) : Prop := {
  rw_id : deployment_row.ID r = InitialDeployment.ID (deployment_row.Document r);
  rw_workspace : deployment_row.WorkspaceID r = InitialDeployment.WorkspaceID (deployment_row.Document r);
  rw_digest : deployment_row.Digest r = InitialDeployment.Digest (deployment_row.Document r);
  rw_phase : deployment_row.Phase r = InitialDeployment.Phase (deployment_row.Document r);
  rw_authorized : deployment_row.Phase r <> "drafted" -> plan_authorized (deployment_row.Document r)
}.

Definition cap_ok (cap : usage_cap) : Prop :=
  usage_cap.ReservedCents cap + usage_cap.SpentCents cap <= usage_cap.LimitCents cap.

Record deployment_ok (db : deployment_db) : Prop := {
  dp_rows : Forall row_ok (deployments db);
  dp_ids : NoDup (deployment_row.ID <$> deployments db);
  dp_executions : NoDup (ids (executions db));
  dp_deployment e : e ∈ executions db -> exists r, r ∈ deployments db /\ deployment_row.ID r = IE.DeploymentID e /\
    deployment_row.WorkspaceID r = IE.WorkspaceID e /\ deployment_row.Phase r <> "drafted";
  dp_active e1 e2 : e1 ∈ executions db -> e2 ∈ executions db -> IE.DeploymentID e1 = IE.DeploymentID e2 ->
    active_execution (IE.DeploymentID e1) e1 = true -> active_execution (IE.DeploymentID e2) e2 = true -> e1 = e2;
  dp_caps : map_Forall (fun _ => cap_ok) (caps db)
}.

(** ** Changes of one row *)
(** A change of documents that keeps ids, workspaces and, once past drafted, the phase. *)
Definition advances (f : deployment_row -> deployment_row) (r : deployment_row) : Prop :=
  row_ok (f r) /\ deployment_row.ID (f r) = deployment_row.ID r /\
  deployment_row.WorkspaceID (f r) = deployment_row.WorkspaceID r /\ deployment_row.Phase (f r) <> "drafted".

Lemma deployments_update p f db :
  deployment_ok db -> (forall r, r ∈ deployments db -> p r = true -> advances f r) ->
  deployment_ok (with_deployments (update_where p f (deployments db)) db).
Proof.
  intros [H1 H2 H3 H4 H5 H6] Hf. split; try done.
  - apply Forall_forall. intros x Hx. apply update_elem in Hx as (y & Hy & ->).
    destruct (p y) eqn:Ey; [by apply Hf|]. by eapply Forall_forall.
  - cbn. assert (deployment_row.ID <$> update_where p f (deployments db) = deployment_row.ID <$> deployments db) as ->; [|done].
    unfold update_where. rewrite <- list_fmap_compose. apply list_fmap_ext. intros i r Hr. unfold compose.
    destruct (p r) eqn:Er; [|done]. apply Hf; [by eapply list_elem_of_lookup_2|done].
  - intros e He. destruct (H4 e He) as (r & Hr & Hid & Hws & Hph). exists (if p r then f r else r).
    split; [by apply elem_update|]. destruct (p r) eqn:Er; [|done]. destruct (Hf r Hr Er) as (_ & -> & -> & Hph'). done.
Qed.

(** A change of executions that keeps who they are and activates none. *)
Lemma executions_update p (f : IDE -> IDE) db :
  deployment_ok db ->
  (forall e, IE.ID (f e) = IE.ID e /\ IE.DeploymentID (f e) = IE.DeploymentID e /\ IE.WorkspaceID (f e) = IE.WorkspaceID e) ->
  (forall e, e ∈ executions db -> p e = true -> active_execution (IE.DeploymentID e) (f e) = true ->
     active_execution (IE.DeploymentID e) e = true) ->
  deployment_ok (with_executions (update_where p f (executions db)) db).
Proof.
  intros [H1 H2 H3 H4 H5 H6] Hf Hact. split; try done.
  - change (NoDup (ids (update_where p f (executions db)))). rewrite ids_update; [done|]. intros e. apply Hf.
  - intros e He. apply update_elem in He as (y & Hy & ->). destruct (p y); [|by apply H4].
    destruct (Hf y) as (_ & -> & ->). by apply H4.
  - intros e1 e2 He1 He2 Hd Ha1 Ha2. apply update_elem in He1 as (x & Hx & ->). apply update_elem in He2 as (y & Hy & ->).
    assert (forall z, z ∈ executions db -> active_execution (IE.DeploymentID (if p z then f z else z)) (if p z then f z else z) = true ->
      IE.DeploymentID (if p z then f z else z) = IE.DeploymentID z /\ active_execution (IE.DeploymentID z) z = true) as Hz.
    { intros z Hz. destruct (p z) eqn:Ez; [|done]. destruct (Hf z) as (_ & -> & _). intros Ha. split; [done|by apply Hact]. }
    destruct (Hz x Hx Ha1) as [Hdx Hax], (Hz y Hy Ha2) as [Hdy Hay]. rewrite Hdx, Hdy in Hd. by rewrite (H5 x y).
Qed.

Lemma find_deployment_in id db row : find_deployment id db = Some row -> row ∈ deployments db /\ deployment_row.ID row = id.
Proof. intros Hf. apply List.find_some in Hf as [Hin Hid]. bool_inv. split; [by apply list_elem_of_In|done]. Qed.

Lemma row_by_id db r1 r2 :
  deployment_ok db -> r1 ∈ deployments db -> r2 ∈ deployments db -> deployment_row.ID r1 = deployment_row.ID r2 -> r1 = r2.
Proof.
  intros Hok Hx Hy He. apply list_elem_of_lookup in Hx as [i Hi]. apply list_elem_of_lookup in Hy as [k Hk].
  assert (i = k) as ->; [|congruence]. eapply NoDup_lookup; [apply (dp_ids _ Hok)|..]; rewrite list_lookup_fmap.
  - by rewrite Hi.
  - by rewrite Hk, He.
Qed.

Lemma read_deployment ws id db d :
  deployment_ok db -> Store_InitialDeployment ws id db = Ok d ->
  exists row, row ∈ deployments db /\ deployment_row.Document row = d /\ deployment_row.ID row = id /\
    deployment_row.WorkspaceID row = ws /\ row_ok row.
Proof.
  intros Hok. unfold Store_InitialDeployment, find_in_workspace. destruct (List.find _ _) as [row|] eqn:Hf; [|done].
  apply List.find_some in Hf as [Hin Hid]. apply list_elem_of_In in Hin. bool_inv.
  unfold scanInitialDeploymentWithDigest. destruct (_ != _); [done|]. intros [= <-]. exists row. split_and!; try done.
  by eapply Forall_forall; [apply (dp_rows _ Hok)|].
Qed.

(** The rewriting of one document. *)
Lemma tx_ok d db row :
  deployment_ok db -> row ∈ deployments db -> InitialDeployment.ID d = deployment_row.ID row ->
  InitialDeployment.WorkspaceID d = deployment_row.WorkspaceID row -> InitialDeployment.Digest d = deployment_row.Digest row ->
  InitialDeployment.Phase d <> "drafted" -> plan_authorized d -> deployment_ok (updateInitialDeploymentTx d db).
Proof.
  intros Hok Hrow Hid Hws Hdig Hph Hauth. unfold updateInitialDeploymentTx. apply deployments_update; [done|].
  intros r Hr Hp. apply bool_decide_eq_true in Hp.
  assert (r = row) as -> by (apply (row_by_id db); [done..|]; by rewrite Hp, Hid). unfold advances, store_document.
  split; [|by split_and!]. split; cbn; [by rewrite Hid|by rewrite Hws|by rewrite Hdig|done|done].
Qed.

(** The same when only its progress changes. *)
Lemma progress_ok d db row :
  deployment_ok db -> row ∈ deployments db -> deployment_row.Phase row <> "drafted" ->
  (let d0 := deployment_row.Document row in
   InitialDeployment.ID d = InitialDeployment.ID d0 /\ InitialDeployment.WorkspaceID d = InitialDeployment.WorkspaceID d0 /\
   InitialDeployment.Digest d = InitialDeployment.Digest d0 /\ InitialDeployment.Plan d = InitialDeployment.Plan d0 /\
   InitialDeployment.Authorization_ d = InitialDeployment.Authorization_ d0) ->
  InitialDeployment.Phase d <> "drafted" -> deployment_ok (updateInitialDeploymentTx d db).
Proof.
  intros Hok Hrow Hph (Hid & Hws & Hdig & Hplan & Hauth) Hph'.
  assert (row_ok row) as [R1 R2 R3 R4 R5] by (eapply Forall_forall; [apply (dp_rows _ Hok)|done]).
  apply (tx_ok d db row); [done|done|by rewrite Hid|by rewrite Hws|by rewrite Hdig|done|].
  destruct (R5 Hph) as (a & Ha & Hd & Hp). exists a. by rewrite Hauth, Hplan, Hdig.
Qed.

(** ** Each transaction *)
Lemma create_ok d db : deployment_ok db -> InitialDeployment.Phase d = "drafted" -> deployment_ok (CreateInitialDeployment d db).2.
Proof.
  intros Hok Hph. unfold CreateInitialDeployment. destruct (existsb _ _) eqn:Hex; [done|]. destruct Hok as [H1 H2 H3 H4 H5 H6].
  cbn [snd]. set (r := deployment_row.mk _ _ _ _ _ _ _ _ _). split; try done.
  - apply Forall_app. split; [done|]. constructor; [|constructor]. subst r. by split.
  - cbn. rewrite fmap_app. apply NoDup_app. split_and!; [done| |apply NoDup_singleton].
    intros i Hi ->%list_elem_of_singleton. apply list_elem_of_fmap in Hi as (r0 & Hi & Hr0).
    eapply existsb_elem in Hex; [|exact Hr0]. cbn in Hi. by rewrite Hi, bool_decide_true in Hex.
  - intros e He. destruct (H4 e He) as (r0 & Hr0 & ?). exists r0. split; [|done]. apply elem_of_app. by left.
Qed.

Lemma authorize_ok ws id digest actor now db : deployment_ok db -> deployment_ok (AuthorizeInitialDeployment ws id digest actor now db).2.
Proof.
  intros Hok. unfold AuthorizeInitialDeployment. destruct (Store_InitialDeployment ws id db) as [d|e] eqn:Hr; [|done].
  cbv zeta. destruct (_ || _) eqn:Hc; [done|]. destruct (revisions db !! ws) as [revision|]; [|done].
  destruct (_ =? _); [|done]. cbn [snd]. bool_inv.
  destruct (read_deployment _ _ _ _ Hok Hr) as (row & Hrow & <- & _ & _ & [R1 R2 R3 R4 R5]).
  apply (tx_ok _ db row); try done. by exists (Authorization.mk digest now (Some actor)).
Qed.

Lemma usage_ok c r db : deployment_ok db -> map_Forall (fun _ => cap_ok) c -> deployment_ok (with_usage c r db).
Proof. intros [H1 H2 H3 H4 H5 H6] Hc. by split. Qed.

Lemma reserve_ok id ws dep replaces db db' :
  deployment_ok db -> reserveInitialDeploymentUsage id ws dep replaces db = Ok db' ->
  deployment_ok db' /\ deployments db' = deployments db /\ executions db' = executions db.
Proof.
  intros Hok. unfold reserveInitialDeploymentUsage. destruct (existsb _ _); [by intros [= <-]|].
  assert (new_reservation id ws dep db = Ok db' ->
    deployment_ok db' /\ deployments db' = deployments db /\ executions db' = executions db) as Hnew.
  { unfold new_reservation. destruct (caps db !! ws) as [[limit reserved spent]|] eqn:Hcap; [|done].
    destruct (limit <? _) eqn:Hl; [done|]. destruct (existsb _ _); [done|]. intros [= <-]. split; [|done]. apply usage_ok; [done|].
    apply map_Forall_insert_2; [|apply (dp_caps _ Hok)]. unfold cap_ok. cbn. apply Z.ltb_ge in Hl. lia. }
  destruct (_ == EmptyString); [done|]. cbv zeta. destruct (_ && _); [done|].
  destruct (_ =? 1); [intros [= <-]; split; [|done]; apply usage_ok; [done|apply (dp_caps _ Hok)]|].
  by destruct (1 <? _).
Qed.

Lemma enqueue_ok billing id reservation ws dep actor now db :
  deployment_ok db -> deployment_ok (EnqueueInitialDeployment billing id reservation ws dep actor now db).2.
Proof.
  intros Hok. unfold EnqueueInitialDeployment. destruct billing as [[]|e]; [|done].
  destruct (Store_InitialDeployment ws dep db) as [d|e] eqn:Hr; [|done]. cbv zeta.
  destruct (_ || _ || _) eqn:Hc; [done|]. destruct (existsb (active_execution dep) _) eqn:Hact; [done|].
  destruct (reserveInitialDeploymentUsage _ _ _ _ _) as [db1|e] eqn:Hres; [|done].
  destruct (reserve_ok _ _ _ _ _ _ Hok Hres) as (Hok1 & Hd1 & He1).
  destruct (bool_decide (id ∈ ids (executions db)) || existsb (other_active d) (deployments db)) eqn:Hid; [done|].
  cbn [snd]. apply orb_false_iff in Hid as [Hid _]. apply bool_decide_eq_false in Hid.
  destruct (read_deployment _ _ _ _ Hok Hr) as (row & Hrow & <- & Hrid & Hrws & [R1 R2 R3 R4 R5]).
  apply orb_false_iff in Hc as [Hc Hdig]. apply orb_false_iff in Hc as [Hph Hauth].
  assert (deployment_row.Phase row <> "drafted") as Hnd.
  { rewrite R4. intros E. by rewrite E in Hph. }
  apply (progress_ok _ _ row); [| |done|by split_and!|done].
  2:{ cbn [deployments with_executions]. by rewrite Hd1. }
  destruct Hok1 as [H1 H2 H3 H4 H5 H6]. rewrite He1 in H3, H4, H5.
  set (e := IE.mk _ _ _ _ _ _ _ _ _ _ _ _ _ _ _). split; cbn [deployments executions caps with_executions]; try done.
  - rewrite He1. unfold ids. rewrite fmap_app. apply NoDup_app. split_and!; [done| |apply NoDup_singleton].
    by intros i Hi ->%list_elem_of_singleton.
  - rewrite He1. intros x [Hx| ->%list_elem_of_singleton]%elem_of_app; [by apply H4|]. exists row. cbn. by rewrite Hd1.
  - rewrite He1. assert (forall x, x ∈ executions db -> IE.DeploymentID x = dep -> active_execution (IE.DeploymentID x) x = true -> False) as Hno.
    { intros x Hx Hxd Hxa. eapply existsb_elem in Hact; [|exact Hx]. rewrite Hxd in Hxa. by rewrite Hxa in Hact. }
    intros x y [Hx| ->%list_elem_of_singleton]%elem_of_app [Hy| ->%list_elem_of_singleton]%elem_of_app Hd Hax Hay;
      [by apply H5|by destruct (Hno x Hx Hd Hax)|by destruct (Hno y Hy (eq_sym Hd) Hay)|done].
Qed.

Lemma claim_ok worker lease token locked now db :
  deployment_ok db -> deployment_ok (ClaimInitialDeploymentExecution worker lease token locked now db).2.
Proof.
  intros Hok. unfold ClaimInitialDeploymentExecution, claim_rows.
  destruct (candidate locked now (executions db)) as [e|] eqn:Hc; [|done]. apply candidate_in in Hc as [He Hc]. cbn [snd].
  set (db1 := with_executions _ db). assert (deployment_ok db1) as Hok1.
  { apply executions_update; [done|done|]. intros x Hx Hp _. apply bool_decide_eq_true in Hp.
    assert (x = e) as -> by by apply (row_unique (executions db)); [apply (dp_executions _ Hok)|..].
    unfold active_execution. rewrite bool_decide_true by done. unfold claimable in Hc. cbn in Hc |- *.
    apply orb_true_iff in Hc as [Hc|Hc]; apply andb_true_iff in Hc as [Hc _]; rewrite Hc; [done|by rewrite orb_true_r]. }
  change (deployments db) with (deployments db1). apply deployments_update; [done|].
  intros r Hr Hp. apply bool_decide_eq_true in Hp. cbn in Hp.
  destruct (dp_deployment _ Hok e He) as (r' & Hr' & Hid & _ & Hph).
  assert (r = r') as -> by (apply (row_by_id db); [done..|congruence]).
  assert (row_ok r') as [R1 R2 R3 R4 R5] by (eapply Forall_forall; [apply (dp_rows _ Hok)|done]).
  split; [|by split_and!]. split; cbn; try done. intros _. by apply R5.
Qed.

Lemma renew_ok id worker token lease now db :
  deployment_ok db -> deployment_ok (RenewInitialDeploymentExecution id worker token lease now db).2.
Proof.
  intros Hok. unfold RenewInitialDeploymentExecution, renew_rows. cbn [snd]. apply executions_update; [done|done|].
  intros e _ Hh _. unfold held in Hh. cbn in Hh. bool_inv. unfold active_execution.
  rewrite bool_decide_true by done. apply orb_true_iff. right. by apply bool_decide_true.
Qed.

Lemma complete_deployment_ok id worker token err now db :
  deployment_ok db -> deployment_ok (CompleteInitialDeploymentExecution id worker token err now db).2.
Proof.
  intros Hok. unfold CompleteInitialDeploymentExecution. destruct (match err with None => _ | Some _ => _ end) as [phase failure] eqn:Hp.
  assert (phase = "succeeded" \/ phase = "failed") as Hphase by (destruct err; injection Hp as <- _; auto).
  destruct (List.find _ _) as [e|] eqn:Hf; [|done]. apply List.find_some in Hf as [He _]. apply list_elem_of_In in He.
  destruct (find_deployment _ db) as [row|] eqn:Hd; [|done]. apply find_deployment_in in Hd as [Hrow Hid]. cbn [snd complete_rows].
  destruct (dp_deployment _ Hok e He) as (r' & Hr' & Hid' & _ & Hph).
  assert (row = r') as -> by (apply (row_by_id db); [done..|congruence]).
  apply (progress_ok _ _ r'); [|done|done|by split_and!|by destruct Hphase; subst].
  apply executions_update; [done|done|]. intros x _ _. unfold active_execution. cbn.
  by destruct Hphase as [->| ->]; rewrite andb_false_r.
Qed.

(** Whoever holds a claim works on a deployment that was authorized. *)
Lemma lock_started id worker token dep now db row :
  deployment_ok db -> lockActiveInitialExecution id worker token dep now db = Ok tt -> find_deployment dep db = Some row ->
  row ∈ deployments db /\ deployment_row.Phase row <> "drafted".
Proof.
  intros Hok Hl [Hrow Hid]%find_deployment_in. split; [done|]. apply reject_if_ok, negb_false_iff, existsb_exists in Hl as (e & He & Hh).
  apply list_elem_of_In in He. bool_inv. destruct (dp_deployment _ Hok e He) as (r' & Hr' & Hid' & _ & Hph).
  assert (row = r') as -> by (apply (row_by_id db); [done..|congruence]). done.
Qed.

Lemma phase_started db row : deployment_ok db -> row ∈ deployments db -> deployment_row.Phase row <> "drafted" ->
  InitialDeployment.Phase (deployment_row.Document row) <> "drafted".
Proof.
  intros Hok Hrow Hph. assert (row_ok row) as Hr by (eapply Forall_forall; [apply (dp_rows _ Hok)|done]). by rewrite <- (rw_phase _ Hr).
Qed.

Lemma begin_ok id worker token dep op now db :
  deployment_ok db -> deployment_ok (BeginInitialDeploymentOperation id worker token dep op now db).2.
Proof.
  intros Hok. unfold BeginInitialDeploymentOperation. destruct (lockActiveInitialExecution _ _ _ _ _ _) as [[]|e] eqn:Hl; [|done].
  destruct (find_deployment dep db) as [row|] eqn:Hd; [|done]. destruct (lock_started _ _ _ _ _ _ _ Hok Hl Hd) as [Hrow Hph].
  cbv zeta. destruct (find_operation op _); [|done]. destruct (_ == "succeeded"); [done|]. cbn [snd].
  apply (progress_ok _ _ row); [done..|by split_and!|by eapply phase_started].
Qed.

Lemma finish_ok id worker token dep op phase failure evidence now db :
  deployment_ok db -> deployment_ok (FinishInitialDeploymentOperation id worker token dep op phase failure evidence now db).2.
Proof.
  intros Hok. unfold FinishInitialDeploymentOperation. destruct (_ && _); [done|].
  destruct (lockActiveInitialExecution _ _ _ _ _ _) as [[]|e] eqn:Hl; [|done].
  destruct (find_deployment dep db) as [row|] eqn:Hd; [|done]. destruct (lock_started _ _ _ _ _ _ _ Hok Hl Hd) as [Hrow Hph].
  cbv zeta. destruct (find_operation op _); [|done]. cbn [snd].
  apply (progress_ok _ _ row); [done..|by split_and!|by eapply phase_started].
Qed.

Lemma reopen_ok id worker token dep now db :
  deployment_ok db -> deployment_ok (ReopenDestroyedInitialDeploymentHost id worker token dep now db).2.
Proof.
  intros Hok. unfold ReopenDestroyedInitialDeploymentHost. destruct (lockActiveInitialExecution _ _ _ _ _ _) as [[]|e] eqn:Hl; [|done].
  destruct (List.find _ _); [|done]. destruct (_ != _); [done|]. destruct (negb _); [done|].
  destruct (find_deployment dep db) as [row|] eqn:Hd; [|done]. destruct (lock_started _ _ _ _ _ _ _ Hok Hl Hd) as [Hrow Hph].
  cbv zeta. destruct (reopen_operation _); [|done]. cbn [snd].
  apply (progress_ok _ _ row); [done..|by split_and!|by eapply phase_started].
Qed.

Lemma deployment_step_ok op db : op_ok op -> deployment_ok db -> deployment_ok (deployment_step op db).2.
Proof.
  intros Hop Hok. destruct op; cbn [deployment_step].
  - by apply create_ok.
  - by apply authorize_ok.
  - pose proof (enqueue_ok billing id reservation workspaceID deploymentID actor now db Hok) as Hk.
    by destruct (EnqueueInitialDeployment _ _ _ _ _ _ _ _).
  - pose proof (claim_ok worker lease claimToken locked now db Hok) as Hk. by destruct (ClaimInitialDeploymentExecution _ _ _ _ _ _).
  - pose proof (renew_ok id worker claimToken lease now db Hok) as Hk. by destruct (RenewInitialDeploymentExecution _ _ _ _ _ _).
  - pose proof (complete_deployment_ok id worker claimToken applyErr now db Hok) as Hk.
    by destruct (CompleteInitialDeploymentExecution _ _ _ _ _ _).
  - by apply begin_ok.
  - by apply finish_ok.
  - by apply reopen_ok.
  - by destruct Hok.
  - destruct Hok as [H1 H2 H3 H4 H5 H6]. split; try done. by apply map_Forall_insert_2.
Qed.

Lemma deployment_run_ok ops : Forall op_ok ops -> deployment_ok (deployment_run ops).2.
Proof.
  induction ops as [|op ops IH]; cbn [deployment_run].
  - intros _. split; cbn [deployment_run snd empty_db deployments executions caps].
    + constructor.
    + constructor.
    + constructor.
    + by intros e He%not_elem_of_nil.
    + by intros e1 e2 He%not_elem_of_nil.
    + apply map_Forall_empty.
  - intros [Hop Hops]%Forall_cons. specialize (IH Hops). destruct (deployment_run ops) as [h db]. cbn [snd] in IH.
    pose proof (deployment_step_ok op db Hop IH) as Hk. by destruct (deployment_step op db).
Qed.

(** ** The executions are a leased queue *)
Definition queue_at (db : deployment_db) : gmap string job := queue_of (executions db).

Lemma quiet_step db db' : executions db' = executions db -> queue_step (queue_at db) Refused (queue_at db').
Proof. unfold queue_at. intros ->. constructor. Qed.

(** Only the queue's own transactions touch the executions. *)
Lemma authorize_executions ws id digest actor now db :
  executions (AuthorizeInitialDeployment ws id digest actor now db).2 = executions db.
Proof.
  unfold AuthorizeInitialDeployment. destruct (Store_InitialDeployment _ _ _); [|done]. cbv zeta. destruct (_ || _); [done|].
  destruct (revisions db !! ws); [|done]. by destruct (_ =? _).
Qed.
Lemma begin_executions id worker token dep op now db :
  executions (BeginInitialDeploymentOperation id worker token dep op now db).2 = executions db.
Proof.
  unfold BeginInitialDeploymentOperation. destruct (lockActiveInitialExecution _ _ _ _ _ _); [|done].
  destruct (find_deployment dep db); [|done]. cbv zeta. destruct (find_operation op _); [|done]. by destruct (_ == "succeeded").
Qed.
Lemma finish_executions id worker token dep op phase failure evidence now db :
  executions (FinishInitialDeploymentOperation id worker token dep op phase failure evidence now db).2 = executions db.
Proof.
  unfold FinishInitialDeploymentOperation. destruct (_ && _); [done|]. destruct (lockActiveInitialExecution _ _ _ _ _ _); [|done].
  destruct (find_deployment dep db); [|done]. cbv zeta. by destruct (find_operation op _).
Qed.
Lemma reopen_executions id worker token dep now db :
  executions (ReopenDestroyedInitialDeploymentHost id worker token dep now db).2 = executions db.
Proof.
  unfold ReopenDestroyedInitialDeploymentHost. destruct (lockActiveInitialExecution _ _ _ _ _ _); [|done].
  destruct (List.find _ _); [|done]. destruct (_ != _); [done|]. destruct (negb _); [done|].
  destruct (find_deployment dep db); [|done]. cbv zeta. by destruct (reopen_operation _).
Qed.

Lemma enqueue_queue billing id reservation ws dep actor now db r db' :
  deployment_ok db -> EnqueueInitialDeployment billing id reservation ws dep actor now db = (r, db') ->
  queue_step (queue_at db) (if is_ok r then Enqueued id else Refused) (queue_at db').
Proof.
  intros Hok. unfold EnqueueInitialDeployment. destruct billing as [[]|e]; [|by intros [= <- <-]; apply quiet_step].
  destruct (Store_InitialDeployment ws dep db) as [d|e]; [|by intros [= <- <-]; apply quiet_step]. cbv zeta.
  destruct (_ || _ || _); [by intros [= <- <-]; apply quiet_step|].
  destruct (existsb (active_execution dep) _); [by intros [= <- <-]; apply quiet_step|].
  destruct (reserveInitialDeploymentUsage _ _ _ _ _) as [db1|e] eqn:Hres; [|by intros [= <- <-]; apply quiet_step].
  destruct (reserve_ok _ _ _ _ _ _ Hok Hres) as (_ & _ & He1).
  destruct (bool_decide _ || _) eqn:Hid; [by intros [= <- <-]; apply quiet_step|]. apply orb_false_iff in Hid as [Hid _].
  apply bool_decide_eq_false in Hid. intros [= <- <-]. unfold queue_at. cbn [executions updateInitialDeploymentTx with_deployments with_executions].
  rewrite He1. set (e := IE.mk _ _ _ _ _ _ _ _ _ _ _ _ _ _ _).
  by destruct (insert_step e (executions db) (dp_executions _ Hok) Hid eq_refl).
Qed.

Lemma claim_queue worker lease token locked now db r db' :
  deployment_ok db -> ClaimInitialDeploymentExecution worker lease token locked now db = (r, db') ->
  queue_step (queue_at db)
    (match r with Ok (Some e) => Claimed (IE.ID e) worker token now (now + lease) | _ => Refused end) (queue_at db').
Proof.
  intros Hok. unfold ClaimInitialDeploymentExecution. destruct (claim_rows _ _ _ _ _ _) as [[e|] l] eqn:Hc.
  - intros [= <- <-]. by destruct (claim_step _ _ _ _ _ _ _ _ (dp_executions _ Hok) Hc).
  - intros [= <- <-]. by apply quiet_step.
Qed.

Lemma renew_queue id worker token lease now db r db' :
  deployment_ok db -> RenewInitialDeploymentExecution id worker token lease now db = (r, db') ->
  queue_step (queue_at db) (if is_ok r then Renewed id worker token now (now + lease) else Refused) (queue_at db').
Proof.
  intros Hok. unfold RenewInitialDeploymentExecution. destruct (renew_rows _ _ _ _ _ _) as [b l] eqn:Hc. intros [= <- <-].
  destruct (renew_step _ _ _ _ _ _ _ _ (dp_executions _ Hok) Hc) as [Hs _]. by destruct b.
Qed.

Lemma complete_queue id worker token err now db r db' :
  deployment_ok db -> CompleteInitialDeploymentExecution id worker token err now db = (r, db') ->
  queue_step (queue_at db) (if is_ok r then Completed id worker token now else Refused) (queue_at db').
Proof.
  intros Hok. unfold CompleteInitialDeploymentExecution. destruct (match err with None => _ | Some _ => _ end) as [phase failure] eqn:Hp.
  assert (phase <> "queued" /\ phase <> "running") as [Hq Hr] by by destruct err; injection Hp as <- <-.
  destruct (List.find _ _) as [e|] eqn:Hf; [|by intros [= <- <-]; apply quiet_step].
  destruct (find_deployment _ db); [|by intros [= <- <-]; apply quiet_step].
  destruct (complete_rows _ _ _ _ _ _ _) as [b l] eqn:Hc. intros [= <- <-].
  destruct (complete_step _ _ _ _ _ _ _ _ _ (dp_executions _ Hok) Hq Hr Hc) as [Hs _].
  apply List.find_some in Hf as [He Hh]. apply list_elem_of_In in He. unfold complete_rows in Hc. injection Hc as Hb _.
  rewrite (affected_one _ (fun x => x) id) with (e := e) in Hb; [by subst b|by intros x [? _]%held_inv|apply (dp_executions _ Hok)|done..].
Qed.

Lemma deployment_step_queue op db e db' :
  deployment_ok db -> deployment_step op db = (e, db') -> queue_step (queue_at db) e (queue_at db').
Proof.
  intros Hok. destruct op; cbn [deployment_step].
  - intros [= <- <-]. apply quiet_step. unfold CreateInitialDeployment. by destruct (existsb _ _).
  - intros [= <- <-]. apply quiet_step, authorize_executions.
  - destruct (EnqueueInitialDeployment _ _ _ _ _ _ _ _) eqn:Hs. intros [= <- <-]. by eapply enqueue_queue.
  - destruct (ClaimInitialDeploymentExecution _ _ _ _ _ _) eqn:Hs. intros [= <- <-]. by eapply claim_queue.
  - destruct (RenewInitialDeploymentExecution _ _ _ _ _ _) eqn:Hs. intros [= <- <-]. by eapply renew_queue.
  - destruct (CompleteInitialDeploymentExecution _ _ _ _ _ _) eqn:Hs. intros [= <- <-]. by eapply complete_queue.
  - intros [= <- <-]. apply quiet_step, begin_executions.
  - intros [= <- <-]. apply quiet_step, finish_executions.
  - intros [= <- <-]. apply quiet_step, reopen_executions.
  - intros [= <- <-]. by apply quiet_step.
  - intros [= <- <-]. by apply quiet_step.
Qed.

Lemma deployment_run_refines ops h db :
  Forall op_ok ops -> deployment_run ops = (h, db) -> queue_run h (queue_at db) /\ deployment_ok db.
Proof.
  intros Hops Hrun. split; [|by pose proof (deployment_run_ok ops Hops) as Hk; rewrite Hrun in Hk].
  revert h db Hrun. induction Hops as [|op ops Hop Hops IH]; intros h db; cbn [deployment_run].
  - intros [= <- <-]. constructor.
  - pose proof (deployment_run_ok ops Hops) as Hok. destruct (deployment_run ops) as [h0 db0]. cbn [snd] in Hok.
    destruct (deployment_step op db0) as [e db1] eqn:Hs. intros [= <- <-].
    econstructor; [by apply IH|by eapply deployment_step_queue].
Qed.
End Steps.
