(* ===== verification/Policies.v ===== *)
(** * Standing policies (internal/controlplane/standing_policy.go)

    Envelopes under which Changes of an agent may be applied without a person,
    and the decisions taken under them: the rows of [standing_policies] and
    [change_policy_decisions] and the transactions over them, each one atomic
    step.  The clock, the ids drawn and what other tables hold are arguments. *)

From S2P Require Import Prelude Tables GoStrings Digest Json Documents ControlDocuments Calls Systems LeaseQueue Deployments.
#[local] Open Scope Z_scope.

Module PD := PolicyDecision.
Module SE := StandingPolicyEnvelope.

(** ** Envelopes *)
Definition string_le (a b : string) : Prop := String.leb a b = true.
#[export] Instance string_le_dec : RelDecision string_le.
Proof. intros a b. unfold string_le. apply _. Defined.

Fixpoint policy_values (seen values : list string) : list string :=
  match values with
  | [] => []
  | value :: rest =>
      let value := TrimSpace value in
      if (value == EmptyString) || bool_decide (value ∈ seen) then policy_values seen rest
      else value :: policy_values (value :: seen) rest
  end.
Definition canonicalPolicyValues (values : list string) : list string := merge_sort string_le (policy_values [] values).

Definition check_values (u : unit) (field : string * list string) : result unit :=
  let '(label, values) := field in
  if (length values =? 0)%nat then Err (Errorf ("policy envelope requires " +:+ label))
  else if (64 <? length values)%nat then Err (Errorf ("policy envelope " +:+ label +:+ " exceeds 64 values"))
  else reject_if (existsb (fun value => (value == "*") || (160 <? slen value)) values)
         (Errorf ("policy envelope " +:+ label +:+ " must use bounded exact values")).

Definition bad_scale (limit : string * ReplicaRange) : bool :=
  let '(service, replicas) := limit in
  (TrimSpace service != service) || (service == EmptyString) || (service == "*") || (ReplicaRange.Min replicas <? 1) ||
  (ReplicaRange.Max replicas <? ReplicaRange.Min replicas).

Definition canonical_values (e : StandingPolicyEnvelope) : StandingPolicyEnvelope :=
  SE.mk (canonicalPolicyValues (SE.AllowedInstallationIDs e)) (canonicalPolicyValues (SE.AffectedServices e))
    (canonicalPolicyValues (SE.OperationKinds e)) (canonicalPolicyValues (SE.Availability e))
    (canonicalPolicyValues (SE.Data e)) (canonicalPolicyValues (SE.AllowedReversibility e))
    (SE.MaxAdditionalMonthlyCostCents e) (SE.MaxOperations e) (SE.ScaleLimits e) (SE.MaxScaleDurationSeconds e)
    (SE.AllowPermanentScale e).

(** The map of labels is checked in one order here; Go's order is arbitrary,
    and which of several bad fields the error names depends on it. *)
Definition envelope_fields (e : StandingPolicyEnvelope) : list (string * list string) :=
  [("allowedInstallationIds", SE.AllowedInstallationIDs e); ("affectedServices", SE.AffectedServices e);
   ("operationKinds", SE.OperationKinds e); ("availability", SE.Availability e); ("data", SE.Data e);
   ("allowedReversibility", SE.AllowedReversibility e)].

Definition canonicalPolicyEnvelope (envelope : StandingPolicyEnvelope) : result StandingPolicyEnvelope :=
  let envelope := canonical_values envelope in
  _ ← fold_result check_values tt (envelope_fields envelope);
  _ ← reject_if (SE.MaxAdditionalMonthlyCostCents envelope <? 0) (Errorf "policy cost ceiling cannot be negative");
  _ ← reject_if ((SE.MaxOperations envelope <? 1) || (64 <? SE.MaxOperations envelope))
        (Errorf "policy maxOperations must be between 1 and 64");
  let scales := size (SE.ScaleLimits envelope) in
  let seconds := SE.MaxScaleDurationSeconds envelope in
  _ ← reject_if (64 <? scales)%nat (Errorf "policy scaleLimits exceeds 64 services");
  _ ← reject_if ((0 <? scales)%nat && negb (SE.AllowPermanentScale envelope) && ((seconds <? 60) || (86400 <? seconds)))
        (Errorf "scale policy must allow permanent scaling or bind a maximum duration between 60 and 86400 seconds");
  _ ← reject_if ((seconds <? 0) || (86400 <? seconds)) (Errorf "policy maxScaleDurationSeconds must be between 0 and 86400");
  _ ← reject_if (existsb bad_scale (map_to_list (SE.ScaleLimits envelope)))
        (Errorf "policy scaleLimits must use exact services and valid inclusive replica ranges");
  Ok envelope.

(** ** Digests *)
Definition range_json (r : ReplicaRange) : json :=
  JObject (field "min" (JInt (ReplicaRange.Min r)) ++ field "max" (JInt (ReplicaRange.Max r))).
Definition scale_le (a b : string * ReplicaRange) : Prop := string_le a.1 b.1.
#[export] Instance scale_le_dec : RelDecision scale_le.
Proof. intros a b. unfold scale_le. apply _. Defined.
Definition scale_limits_json (m : gmap string ReplicaRange.ReplicaRange) : list (string * json) :=
  match merge_sort scale_le (map_to_list m) with
  | [] => []
  | l => field "scaleLimits" (JObject ((fun kv => (kv.1, range_json kv.2)) <$> l))
  end.
Definition envelope_json (e : StandingPolicyEnvelope) : json :=
  JObject (field "allowedInstallationIds" (strings_json (SE.AllowedInstallationIDs e)) ++
           field "affectedServices" (strings_json (SE.AffectedServices e)) ++
           field "operationKinds" (strings_json (SE.OperationKinds e)) ++
           field "availability" (strings_json (SE.Availability e)) ++ field "data" (strings_json (SE.Data e)) ++
           field "allowedReversibility" (strings_json (SE.AllowedReversibility e)) ++
           field "maxAdditionalMonthlyCostCents" (JInt (SE.MaxAdditionalMonthlyCostCents e)) ++
           field "maxOperations" (JInt (SE.MaxOperations e)) ++ scale_limits_json (SE.ScaleLimits e) ++
           omit_int "maxScaleDurationSeconds" (SE.MaxScaleDurationSeconds e) ++
           omit_bool "allowPermanentScale" (SE.AllowPermanentScale e)).
Definition policy_digest (workspaceID system name description : string) (envelope : StandingPolicyEnvelope)
    (workspaceRevision systemRevision expiresAt : Z) : string :=
  sha256_hex (render (JObject (
    field "workspaceId" (JString workspaceID) ++ field "system" (JString system) ++ field "name" (JString name) ++
    field "description" (JString description) ++ field "envelope" (envelope_json envelope) ++
    field "workspaceRevision" (JInt workspaceRevision) ++ field "systemRevision" (JInt systemRevision) ++
    field "expiresAt" (time_json expiresAt)))).

(** ** Rows.  Instants are kept as given; the columns round them to microseconds. *)
Record policy_db : Type := PDb {
  policies : list StandingPolicy.StandingPolicy;
  decisions : list PD.PolicyDecision
}.

(** What a policy is created against: the revisions and the contract read under
    the row locks, and the installations of the workspace that are active. *)
Record policy_context : Type := Context {
  ctx_system : option (Z * Z * System.System);
  ctx_installations : list string
}.

Section Policies.
Context `{Unicode}.

Definition check_scale (contract : System) (u : unit) (limit : string * ReplicaRange) : result unit :=
  let '(service, replicas) := limit in
  _ ← reject_if (negb (bool_decide (service ∈ SystemService.Name <$> SystemContract.Services (System.Spec_ contract))))
        (Errorf ("policy scale service " +:+ Quote service +:+ " is not declared by the System"));
  '(_, maximum) ← ScaleCapacity contract service;
  reject_if (maximum <? ReplicaRange.Max replicas)
    (Errorf ("policy scale service " +:+ service +:+ " maximum " +:+ Itoa (ReplicaRange.Max replicas) +:+
             " exceeds current host capacity " +:+ Itoa maximum)).

Definition same_name (workspaceID system name : string) (p : StandingPolicy) : bool :=
  (StandingPolicy.WorkspaceID p == workspaceID) && (StandingPolicy.System p == system) && (StandingPolicy.Name p == name).

Definition mapPolicyStoreError (e : error) : error := if e == unique_violation then ErrConflict else e.

Definition create_policy (ctx : policy_context) (id workspaceID systemName accountID : string)
    (input : CreateStandingPolicyInput) (now : Z) (db : policy_db) : result StandingPolicy :=
  let name := TrimSpace (CreateStandingPolicyInput.Name input) in
  let description := TrimSpace (CreateStandingPolicyInput.Description input) in
  let expiresAt := CreateStandingPolicyInput.ExpiresAt input in
  _ ← reject_if ((name == EmptyString) || (80 <? slen name) || (500 <? slen description))
        (Errorf "policy requires a name of at most 80 characters and description of at most 500 characters");
  envelope ← canonicalPolicyEnvelope (CreateStandingPolicyInput.Envelope input);
  _ ← reject_if (negb (now <? expiresAt) || (now + 366 * 24 * 60 * Minute <? expiresAt))
        (Errorf "policy expiry must be in the future and no more than 366 days away");
  match ctx_system ctx with
  | None => Err ErrNotFound
  | Some (workspaceRevision, systemRevision, contract) =>
      let services := SystemService.Name <$> SystemContract.Services (System.Spec_ contract) in
      _ ← fold_result (fun _ service => reject_if (negb (bool_decide (service ∈ services)))
             (Errorf ("policy affected service " +:+ Quote service +:+ " is not declared by the System")))
           tt (SE.AffectedServices envelope);
      _ ← fold_result (check_scale contract) tt (map_to_list (SE.ScaleLimits envelope));
      _ ← reject_if (Z.of_nat (length (List.filter (fun i => bool_decide (i ∈ SE.AllowedInstallationIDs envelope)) (ctx_installations ctx)))
                     != Z.of_nat (length (SE.AllowedInstallationIDs envelope)))
            (Errorf "policy may reference only active agent installations in this workspace");
      _ ← reject_if (negb (marshals expiresAt)) (External "json: year outside of range");
      let digest := policy_digest workspaceID systemName name description envelope workspaceRevision systemRevision expiresAt in
      let policy := StandingPolicy.mk id workspaceID systemName name description digest envelope workspaceRevision systemRevision
                      accountID now expiresAt None EmptyString in
      _ ← reject_if (existsb (fun p => (StandingPolicy.ID p == id) || same_name workspaceID systemName name p) (policies db))
            (mapPolicyStoreError unique_violation);
      Ok policy
  end.

Definition CreateStandingPolicy (ctx : policy_context) (id workspaceID systemName accountID : string)
    (input : CreateStandingPolicyInput) (now : Z) (db : policy_db) : result StandingPolicy * policy_db :=
  match create_policy ctx id workspaceID systemName accountID input now db with
  | Err e => (Err e, db)
  | Ok policy => (Ok policy, PDb (policies db ++ [policy]) (decisions db))
  end.

Definition named_policy (workspaceID systemName policyID : string) (p : StandingPolicy) : bool :=
  (StandingPolicy.WorkspaceID p == workspaceID) && (StandingPolicy.System p == systemName) && (StandingPolicy.ID p == policyID).
Definition first_policy (p : StandingPolicy -> bool) (db : policy_db) : result StandingPolicy :=
  match List.find p (policies db) with Some policy => Ok policy | None => Err ErrNotFound end.
Definition Store_StandingPolicy (workspaceID systemName policyID : string) (db : policy_db) : result StandingPolicy :=
  first_policy (named_policy workspaceID systemName policyID) db.

Definition newer (a b : StandingPolicy) : Prop := StandingPolicy.CreatedAt b <= StandingPolicy.CreatedAt a.
#[export] Instance newer_dec : RelDecision newer.
Proof. intros a b. unfold newer. apply _. Defined.
Definition ListStandingPolicies (workspaceID systemName : string) (db : policy_db) : list StandingPolicy :=
  merge_sort newer (List.filter (fun p => (StandingPolicy.WorkspaceID p == workspaceID) && (StandingPolicy.System p == systemName)) (policies db)).

Definition revoked (now : Z) (accountID : string) (p : StandingPolicy) : StandingPolicy :=
  StandingPolicy.with_RevokedByAccount accountID (StandingPolicy.with_RevokedAt (Some now) p).
Definition RevokeStandingPolicy (workspaceID systemName policyID accountID : string) (now : Z) (db : policy_db)
    : result StandingPolicy * policy_db :=
  let p policy := named_policy workspaceID systemName policyID policy && (StandingPolicy.RevokedAt policy == None) in
  if affected p (policies db) =? 1 then
    let db := PDb (update_where p (revoked now accountID) (policies db)) (decisions db) in
    (Store_StandingPolicy workspaceID systemName policyID db, db)
  else (Err ErrNotFound, PDb (update_where p (revoked now accountID) (policies db)) (decisions db)).

(** ** What a policy allows *)
Fixpoint containsPolicyValue (values : list string) (wanted : string) : bool :=
  match values with
  | [] => false
  | value :: rest => if value == wanted then true else containsPolicyValue rest wanted
  end.

Definition scale_refusal (envelope : StandingPolicyEnvelope) (scale : ReplicaScalePlan) : option string :=
  match SE.ScaleLimits envelope !! ReplicaScalePlan.Service scale with
  | None => Some "replica scaling is not authorized for this service"
  | Some limit =>
      let from := ReplicaScalePlan.FromReplicas scale in
      let to := ReplicaScalePlan.ToReplicas scale in
      let lease := ReplicaScalePlan.LeaseSeconds scale in
      if (from <? ReplicaRange.Min limit) || (ReplicaRange.Max limit <? from) || (to <? ReplicaRange.Min limit) ||
         (ReplicaRange.Max limit <? to)
      then Some "replica transition is outside the policy range"
      else if (lease == 0) && negb (SE.AllowPermanentScale envelope) then Some "permanent replica scaling is outside the policy"
      else if (0 <? lease) && ((SE.MaxScaleDurationSeconds envelope == 0) || (SE.MaxScaleDurationSeconds envelope <? lease))
      then Some "temporary replica duration is outside the policy"
      else None
  end.

Fixpoint operation_refusal (envelope : StandingPolicyEnvelope) (operations : list ChangeOperation) : option string :=
  match operations with
  | [] => None
  | operation :: rest =>
      if negb (containsPolicyValue (SE.OperationKinds envelope) (ChangeOperation.Kind operation))
      then Some "an operation kind is outside the policy"
      else if negb (containsPolicyValue (SE.AllowedReversibility envelope) (ChangeOperation.Reversibility operation))
      then Some "an operation reversibility class is outside the policy"
      else operation_refusal envelope rest
  end.

Definition policyAllows (policy : StandingPolicy) (installationID : string) (change : Change) : bool * string :=
  let envelope := StandingPolicy.Envelope policy in
  let impact := ChangePlan.Impact (Change.Plan_ change) in
  let operations := Change.Operations change in
  if negb (containsPolicyValue (SE.AllowedInstallationIDs envelope) installationID)
  then (false, "requesting installation is outside the policy")
  else if (Change.Phase change != "drafted") || (Change.Authorization_ change != None)
  then (false, "Change is not an unauthorised draft")
  else if (length operations =? 0)%nat || (SE.MaxOperations envelope <? Z.of_nat (length operations))
  then (false, "operation count exceeds the policy")
  else if SE.MaxAdditionalMonthlyCostCents envelope <? ChangeImpact.MonthlyCostDeltaCents impact
  then (false, "additional monthly cost exceeds the policy")
  else
    match match ChangePlan.Scale (Change.Plan_ change) with None => None | Some scale => scale_refusal envelope scale end with
    | Some refusal => (false, refusal)
    | None =>
        if negb (containsPolicyValue (SE.Availability envelope) (ChangeImpact.Availability impact))
        then (false, "availability impact is outside the policy")
        else if negb (containsPolicyValue (SE.Data envelope) (ChangeImpact.Data impact))
        then (false, "data impact is outside the policy")
        else if negb (forallb (containsPolicyValue (SE.AffectedServices envelope)) (ChangeImpact.AffectedServices impact))
        then (false, "an affected service is outside the policy")
        else
          match operation_refusal envelope operations with
          | Some refusal => (false, refusal)
          | None => (true, "exact Change is within the standing policy envelope")
          end
    end.

(** ** Decisions *)
Definition decision_of (workspaceID systemName : string) (change : Change) (d : PD.PolicyDecision) : bool :=
  (PD.WorkspaceID d == workspaceID) && (PD.System d == systemName) && (PD.ChangeID d == Change.ID change) &&
  (PD.ChangeDigest d == Change.Digest change).

(** [revoked_at IS NULL AND expires_at>now AND workspace_revision=.. AND system_revision=..]. *)
Definition in_force (workspaceID systemName : string) (workspaceRevision systemRevision now : Z) (p : StandingPolicy) : bool :=
  (StandingPolicy.WorkspaceID p == workspaceID) && (StandingPolicy.System p == systemName) &&
  (StandingPolicy.RevokedAt p == None) && (now <? StandingPolicy.ExpiresAt p) &&
  (StandingPolicy.WorkspaceRevision p =? workspaceRevision) && (StandingPolicy.SystemRevision p =? systemRevision).

Definition older (a b : StandingPolicy) : Prop := StandingPolicy.CreatedAt a <= StandingPolicy.CreatedAt b.
#[export] Instance older_dec : RelDecision older.
Proof. intros a b. unfold older. apply _. Defined.

(** A Change this policy itself authorized is judged as the draft it was. *)
Definition authorized_by_policy (policy : StandingPolicy) (change : Change) : bool :=
  match Change.Authorization_ change with
  | Some a =>
      (Authorization.Digest a == Change.Digest change) &&
      match Authorization.AuthorizedBy a with
      | Some actor => (ActorRef.Kind actor == "policy") && (ActorRef.ID actor == StandingPolicy.ID policy)
      | None => false
      end
  | None => false
  end.
Definition retry_candidate (policy : StandingPolicy) (change : Change) : Change :=
  if (Change.Phase change == "authorized") && authorized_by_policy policy change
  then Change.with_Authorization_ None (Change.with_Phase "drafted" change) else change.

Definition policyDecision (id workspaceID systemName installationID : string) (change : Change)
    (matched : option StandingPolicy) (now : Z) : PD.PolicyDecision :=
  let '(outcome, policyID, digest, reason) :=
    match matched with
    | Some policy => ("automatic", StandingPolicy.ID policy, StandingPolicy.Digest policy, (policyAllows policy installationID change).2)
    | None => ("human-approval-required", EmptyString, EmptyString, "no active standing policy matched the exact Change envelope")
    end in
  PD.mk id workspaceID systemName (Change.ID change) (Change.Digest change) outcome "decided" policyID digest installationID reason
    EmptyString EmptyString now now.

(** [ON CONFLICT .. DO UPDATE]: the row keeps its id, its execution, its failure and its age. *)
Definition redecide (d row : PD.PolicyDecision) : PD.PolicyDecision :=
  PD.mk (PD.ID row) (PD.WorkspaceID row) (PD.System row) (PD.ChangeID row) (PD.ChangeDigest row) (PD.Outcome d) (PD.Phase d)
    (PD.PolicyID d) (PD.PolicyDigest d) (PD.EvaluatedByInstallation d) (PD.Reason d) (PD.ExecutionID row) (PD.Failure row)
    (PD.CreatedAt row) (PD.UpdatedAt d).

(** [refused]: what the database answers to the insertion otherwise, as when
    the Change is not recorded. *)
Definition fresh_decision (refused : option error) (id workspaceID systemName installationID : string)
    (workspaceRevision systemRevision : Z) (change : Change) (now : Z) (db : policy_db)
    : result (PD.PolicyDecision * option StandingPolicy) * policy_db :=
  let rows := merge_sort older (List.filter (in_force workspaceID systemName workspaceRevision systemRevision now) (policies db)) in
  let matched := List.find (fun p => (policyAllows p installationID change).1) rows in
  let d := policyDecision id workspaceID systemName installationID change matched now in
  match refused with
  | Some e => (Err e, db)
  | None =>
      match List.find (decision_of workspaceID systemName change) (decisions db) with
      | Some row =>
          (Ok (redecide d row, matched),
           PDb (policies db) (update_where (decision_of workspaceID systemName change) (redecide d) (decisions db)))
      | None =>
          if existsb (fun d => PD.ID d == id) (decisions db) then (Err unique_violation, db)
          else (Ok (d, matched), PDb (policies db) (decisions db ++ [d]))
      end
  end.

(** The decision a retry may continue, or [None] to decide anew. *)
Definition cached_decision (workspaceID systemName installationID : string) (workspaceRevision systemRevision : Z)
    (change : Change) (now : Z) (db : policy_db) : option (result (PD.PolicyDecision * option StandingPolicy)) :=
  match List.find (decision_of workspaceID systemName change) (decisions db) with
  | None => None
  | Some existing =>
      if PD.Outcome existing != "automatic" then None
      else if PD.ExecutionID existing != EmptyString then
        Some (policy ← first_policy (fun p => StandingPolicy.ID p == PD.PolicyID existing) db; Ok (existing, Some policy))
      else
        match first_policy (fun p => (StandingPolicy.ID p == PD.PolicyID existing) && (StandingPolicy.Digest p == PD.PolicyDigest existing) &&
                                     in_force workspaceID systemName workspaceRevision systemRevision now p) db with
        | Ok policy =>
            if (PD.EvaluatedByInstallation existing == installationID) &&
               (policyAllows policy installationID (retry_candidate policy change)).1
            then Some (Ok (existing, Some policy)) else None
        | Err _ => None
        end
  end.

Definition EvaluateStandingPolicies (refused : option error) (id workspaceID systemName installationID : string)
    (workspaceRevision systemRevision : Z) (change : Change) (retry_now now : Z) (db : policy_db)
    : result (PD.PolicyDecision * option StandingPolicy) * policy_db :=
  match cached_decision workspaceID systemName installationID workspaceRevision systemRevision change retry_now db with
  | Some r => (r, db)
  | None => fresh_decision refused id workspaceID systemName installationID workspaceRevision systemRevision change now db
  end.

Definition advance_decision (phase executionID failure : string) (now : Z) (d : PD.PolicyDecision) : PD.PolicyDecision :=
  PD.mk (PD.ID d) (PD.WorkspaceID d) (PD.System d) (PD.ChangeID d) (PD.ChangeDigest d) (PD.Outcome d) phase (PD.PolicyID d)
    (PD.PolicyDigest d) (PD.EvaluatedByInstallation d) (PD.Reason d) executionID failure (PD.CreatedAt d) now.
Definition updatePolicyDecision (decisionID phase executionID failure : string) (now : Z) (db : policy_db)
    : result PD.PolicyDecision * policy_db :=
  match List.find (fun d => PD.ID d == decisionID) (decisions db) with
  | None => (Err ErrNotFound, db)
  | Some d =>
      (Ok (advance_decision phase executionID failure now d),
       PDb (policies db) (update_where (fun d => PD.ID d == decisionID) (advance_decision phase executionID failure now) (decisions db)))
  end.
End Policies.
