(* ===== verification/PolicySafety.v ===== *)
(** * What standing policies allow, and what the decisions under them say

    [within]: the envelope, stated; [policies_ok]: what holds of the rows in
    every state the transactions of [Policies] reach. *)

From S2P Require Import Prelude Tables GoStrings Digest Json Documents ControlDocuments Calls Systems LeaseQueue Deployments DeploymentSteps Policies.
#[local] Open Scope Z_scope.

Section Safety.
Context `{Unicode}.

(** ** Canonical envelopes *)
Definition values_ok (l : list string) : Prop :=
  l <> [] /\ (length l <= 64)%nat /\ NoDup l /\ Sorted string_le l /\
  Forall (fun v => v <> EmptyString /\ v <> "*" /\ slen v <= 160) l.

Record envelope_ok (e : StandingPolicyEnvelope) : Prop := {
  ev_values : Forall (fun field => values_ok field.2) (envelope_fields e);
  ev_cost : 0 <= SE.MaxAdditionalMonthlyCostCents e;
  ev_operations : 1 <= SE.MaxOperations e <= 64;
  ev_seconds : 0 <= SE.MaxScaleDurationSeconds e <= 86400;
  ev_scales : (size (SE.ScaleLimits e) <= 64)%nat;
  ev_bounded : SE.ScaleLimits e <> ∅ -> SE.AllowPermanentScale e = false -> 60 <= SE.MaxScaleDurationSeconds e;
  ev_limits : map_Forall (fun service r => service <> EmptyString /\ service <> "*" /\ 1 <= ReplicaRange.Min r <= ReplicaRange.Max r)
                (SE.ScaleLimits e)
}.

Lemma policy_values_spec seen values :
  NoDup (policy_values seen values) /\ Forall (fun v => v ∉ seen /\ v <> EmptyString) (policy_values seen values).
Proof.
  revert seen. induction values as [|v values IH]; intros seen; cbn [policy_values]; [split; constructor|].
  cbv zeta. destruct (TrimSpace v == EmptyString) eqn:Ev; [apply IH|]. apply bool_decide_eq_false in Ev. cbn [orb].
  case_bool_decide as Hs; [apply IH|]. destruct (IH (TrimSpace v :: seen)) as [Hnd Hf]. split.
  - constructor; [|done]. intros Hin. eapply Forall_forall in Hf as [Hn _]; [|exact Hin]. apply Hn. left.
  - constructor; [done|]. eapply Forall_impl; [exact Hf|]. intros x [Hx ?]. split; [|done]. intros Hin. apply Hx. by right.
Qed.

#[local] Instance string_le_total : Total string_le.
Proof.
  intros a b. unfold string_le. destruct (String.leb a b) eqn:E; [by left|right].
  unfold String.leb in *. rewrite String.compare_antisym. by destruct (String.compare a b).
Qed.

Lemma canonical_values_spec values :
  NoDup (canonicalPolicyValues values) /\ Sorted string_le (canonicalPolicyValues values) /\
  Forall (fun v => v <> EmptyString) (canonicalPolicyValues values).
Proof.
  unfold canonicalPolicyValues. pose proof (merge_sort_Permutation string_le (policy_values [] values)) as Hp.
  destruct (policy_values_spec [] values) as [Hnd Hf]. split_and!.
  - by rewrite Hp.
  - apply Sorted_merge_sort. apply _.
  - rewrite Hp. eapply Forall_impl; [exact Hf|]. by intros x [_ ?].
Qed.

Lemma check_values_ok label values u :
  check_values u (label, canonicalPolicyValues values) = Ok tt -> values_ok (canonicalPolicyValues values).
Proof.
  destruct (canonical_values_spec values) as (Hnd & Hs & Hne). unfold check_values.
  destruct (_ =? 0)%nat eqn:E0; [done|]. destruct (64 <? _)%nat eqn:E64; [done|].
  intros Hb%reject_if_ok. apply Nat.eqb_neq in E0. apply Nat.ltb_ge in E64. split_and!; try done; [by intros E; rewrite E in E0|].
  apply Forall_forall. intros v Hv. eapply existsb_elem in Hb; [|exact Hv]. bool_inv. split; [by eapply Forall_forall in Hne|].
  by split; [|lia].
Qed.

Lemma fold_unit {A} (f : unit -> A -> result unit) xs :
  fold_result f tt xs = Ok tt -> Forall (fun x => f tt x = Ok tt) xs.
Proof.
  induction xs as [|x xs IH]; cbn [fold_result]; [constructor|]. intros ([] & Hx & Hf)%result_bind_ok. constructor; auto.
Qed.

Lemma canonicalPolicyEnvelope_ok e e' : canonicalPolicyEnvelope e = Ok e' -> envelope_ok e'.
Proof.
  unfold canonicalPolicyEnvelope. cbv zeta. intros Hr. ok_inv. subst e'. destruct x. rename H0 into Hv. bool_inv. split.
  - apply fold_unit in Hv. unfold envelope_fields in *. cbn [canonical_values SE.AllowedInstallationIDs SE.AffectedServices
      SE.OperationKinds SE.Availability SE.Data SE.AllowedReversibility] in *.
    repeat (apply Forall_cons in Hv as [?%check_values_ok Hv]). by repeat (constructor; [done|]).
  - done.
  - done.
  - done.
  - by apply Nat.ltb_ge.
  - intros Hne Hp. rewrite Hp in H4. cbn [negb] in H4. rewrite andb_true_r in H4. apply andb_false_iff in H4 as [H4|H4].
    + apply Nat.ltb_ge in H4. destruct Hne. apply map_size_empty_inv. lia.
    + bool_inv. lia.
  - intros service r Hr. apply elem_of_map_to_list in Hr. eapply existsb_elem in H6; [|exact Hr]. unfold bad_scale in H6.
    bool_inv. split_and!; [done|done|lia..].
Qed.

(** ** What a policy allows *)
Record within (envelope : StandingPolicyEnvelope) (installationID : string) (change : Change) : Prop := {
  in_installation : installationID ∈ SE.AllowedInstallationIDs envelope;
  in_draft : Change.Phase change = "drafted" /\ Change.Authorization_ change = None;
  in_count : 1 <= Z.of_nat (length (Change.Operations change)) <= SE.MaxOperations envelope;
  in_cost : ChangeImpact.MonthlyCostDeltaCents (ChangePlan.Impact (Change.Plan_ change)) <= SE.MaxAdditionalMonthlyCostCents envelope;
  in_scale scale : ChangePlan.Scale (Change.Plan_ change) = Some scale ->
    exists limit, SE.ScaleLimits envelope !! ReplicaScalePlan.Service scale = Some limit /\
      ReplicaRange.Min limit <= ReplicaScalePlan.FromReplicas scale <= ReplicaRange.Max limit /\
      ReplicaRange.Min limit <= ReplicaScalePlan.ToReplicas scale <= ReplicaRange.Max limit /\
      (ReplicaScalePlan.LeaseSeconds scale = 0 -> SE.AllowPermanentScale envelope = true) /\
      (0 < ReplicaScalePlan.LeaseSeconds scale ->
         SE.MaxScaleDurationSeconds envelope <> 0 /\ ReplicaScalePlan.LeaseSeconds scale <= SE.MaxScaleDurationSeconds envelope);
  in_availability : ChangeImpact.Availability (ChangePlan.Impact (Change.Plan_ change)) ∈ SE.Availability envelope;
  in_data : ChangeImpact.Data (ChangePlan.Impact (Change.Plan_ change)) ∈ SE.Data envelope;
  in_services : Forall (fun s => s ∈ SE.AffectedServices envelope) (ChangeImpact.AffectedServices (ChangePlan.Impact (Change.Plan_ change)));
  in_operations : Forall (fun o => ChangeOperation.Kind o ∈ SE.OperationKinds envelope /\
                                   ChangeOperation.Reversibility o ∈ SE.AllowedReversibility envelope) (Change.Operations change)
}.

Lemma contains_elem values wanted : containsPolicyValue values wanted = true <-> wanted ∈ values.
Proof.
  induction values as [|v values IH]; cbn [containsPolicyValue]; [by rewrite elem_of_nil|]. rewrite elem_of_cons, <- IH.
  case_bool_decide as E; [subst; tauto|]. split; [auto|]. by intros [->|?].
Qed.
Lemma contains_not values wanted : negb (containsPolicyValue values wanted) = true <-> wanted ∉ values.
Proof. rewrite negb_true_iff, <- not_true_iff_false. by rewrite contains_elem. Qed.

Lemma operation_refusal_none envelope l :
  operation_refusal envelope l = None <->
  Forall (fun o => ChangeOperation.Kind o ∈ SE.OperationKinds envelope /\
                   ChangeOperation.Reversibility o ∈ SE.AllowedReversibility envelope) l.
Proof.
  induction l as [|o l IH]; cbn [operation_refusal]; [by split; [constructor|]|]. rewrite Forall_cons, <- IH, <- !contains_elem.
  destruct (containsPolicyValue _ (ChangeOperation.Kind o)); cbn [negb]; [|naive_solver].
  destruct (containsPolicyValue _ _); cbn [negb]; naive_solver.
Qed.

Lemma scale_refusal_none envelope scale :
  scale_refusal envelope scale = None <->
  exists limit, SE.ScaleLimits envelope !! ReplicaScalePlan.Service scale = Some limit /\
    ReplicaRange.Min limit <= ReplicaScalePlan.FromReplicas scale <= ReplicaRange.Max limit /\
    ReplicaRange.Min limit <= ReplicaScalePlan.ToReplicas scale <= ReplicaRange.Max limit /\
    (ReplicaScalePlan.LeaseSeconds scale = 0 -> SE.AllowPermanentScale envelope = true) /\
    (0 < ReplicaScalePlan.LeaseSeconds scale ->
       SE.MaxScaleDurationSeconds envelope <> 0 /\ ReplicaScalePlan.LeaseSeconds scale <= SE.MaxScaleDurationSeconds envelope).
Proof.
  unfold scale_refusal. destruct (SE.ScaleLimits envelope !! _) as [limit|]; [|naive_solver]. cbv zeta.
  set (lease := ReplicaScalePlan.LeaseSeconds scale). set (most := SE.MaxScaleDurationSeconds envelope). split.
  - destruct (_ || _ || _ || _) eqn:E1; [done|]. destruct (_ && negb _) eqn:E2; [done|]. destruct (_ && (_ || _)) eqn:E3; [done|].
    intros _. exists limit. bool_inv. split_and!; [done|lia..| |].
    + intros ->. apply andb_false_iff in E2 as [E2|E2]; bool_inv; [done|done].
    + intros Hl. apply andb_false_iff in E3 as [E3|E3]; bool_inv; [lia|]. by split.
  - intros (l & [= <-] & Hf & Ht & Hp & Hd). destruct (_ || _ || _ || _) eqn:E1.
    { rewrite !orb_true_iff, !Z.ltb_lt in E1. lia. }
    destruct (_ && negb _) eqn:E2; [bool_inv; rewrite Hp in *; done|].
    destruct (_ && (_ || _)) eqn:E3; [|done]. apply andb_true_iff in E3 as [E3 E4]. apply Z.ltb_lt in E3.
    destruct (Hd E3) as [Hm Hl]. apply orb_true_iff in E4 as [E4|E4]; bool_inv; [done|lia].
Qed.

Lemma policyAllows_within policy installationID change :
  (policyAllows policy installationID change).1 = true <-> within (StandingPolicy.Envelope policy) installationID change.
Proof.
  unfold policyAllows. cbv zeta. set (e := StandingPolicy.Envelope policy). split.
  - destruct (negb (containsPolicyValue (SE.AllowedInstallationIDs _) _)) eqn:E1; [done|].
    destruct (_ || _) eqn:E2; [done|]. destruct (_ || (_ <? _)) eqn:E3; [done|].
    destruct (SE.MaxAdditionalMonthlyCostCents e <? _) eqn:E4; [done|].
    destruct (match ChangePlan.Scale _ with None => _ | Some _ => _ end) eqn:E5; [done|].
    destruct (negb (containsPolicyValue (SE.Availability _) _)) eqn:E6; [done|].
    destruct (negb (containsPolicyValue (SE.Data _) _)) eqn:E7; [done|]. destruct (negb (forallb _ _)) eqn:E8; [done|].
    destruct (operation_refusal _ _) eqn:E9; [done|]. intros _. apply operation_refusal_none in E9. bool_inv.
    apply Nat.eqb_neq in H0. rewrite forallb_forall in E8. split; try done; try by apply contains_elem.
    + lia.
    + intros scale Hs. rewrite Hs in E5. by apply scale_refusal_none.
    + apply Forall_forall. intros s Hs. apply contains_elem, E8. by apply list_elem_of_In.
  - intros [H1 [H2 H2'] H3 H4 H5 H6 H7 H8 H9]. apply contains_elem in H1, H6, H7. apply operation_refusal_none in H9.
    rewrite H1, H2, H2', !bool_decide_true by done. cbn [negb orb].
    rewrite (proj2 (Nat.eqb_neq _ _)) by lia. rewrite (proj2 (Z.ltb_ge _ _)) by lia. cbn [orb].
    rewrite (proj2 (Z.ltb_ge _ _)) by lia.
    assert (match ChangePlan.Scale (Change.Plan_ change) with None => None | Some scale => scale_refusal e scale end = None) as ->.
    { destruct (ChangePlan.Scale _) as [scale|]; [|done]. by apply scale_refusal_none, H5. }
    rewrite H6, H7. cbn [negb]. rewrite H9. assert (forallb (containsPolicyValue (SE.AffectedServices e))
      (ChangeImpact.AffectedServices (ChangePlan.Impact (Change.Plan_ change))) = true) as ->; [|done].
    apply forallb_forall. intros s Hs. apply contains_elem. apply list_elem_of_In in Hs. by eapply Forall_forall in H8.
Qed.

(** ** The states the transactions reach *)
Inductive policy_op : Type :=
  | PCreate (ctx : policy_context) (id workspaceID systemName accountID : string) (input : CreateStandingPolicyInput) (now : Z)
  | PRevoke (workspaceID systemName policyID accountID : string) (now : Z)
  | PEvaluate (refused : option error) (id workspaceID systemName installationID : string) (workspaceRevision systemRevision : Z)
      (change : Change) (retry_now now : Z)
  | PUpdate (decisionID phase executionID failure : string) (now : Z).

Definition policy_step (op : policy_op) (db : policy_db) : policy_db :=
  match op with
  | PCreate ctx id ws sys account input now => (CreateStandingPolicy ctx id ws sys account input now db).2
  | PRevoke ws sys id account now => (RevokeStandingPolicy ws sys id account now db).2
  | PEvaluate refused id ws sys installation wr sr change retry_now now =>
      (EvaluateStandingPolicies refused id ws sys installation wr sr change retry_now now db).2
  | PUpdate id phase execution failure now => (updatePolicyDecision id phase execution failure now db).2
  end.
(** Newest first. *)
Fixpoint policy_run (ops : list policy_op) : policy_db :=
  match ops with [] => PDb [] [] | op :: earlier => policy_step op (policy_run earlier) end.

Record policy_ok (p : StandingPolicy) : Prop := {
  pk_envelope : envelope_ok (StandingPolicy.Envelope p);
  pk_digest : StandingPolicy.Digest p =
    policy_digest (StandingPolicy.WorkspaceID p) (StandingPolicy.System p) (StandingPolicy.Name p) (StandingPolicy.Description p)
      (StandingPolicy.Envelope p) (StandingPolicy.WorkspaceRevision p) (StandingPolicy.SystemRevision p) (StandingPolicy.ExpiresAt p);
  pk_expiry : StandingPolicy.CreatedAt p < StandingPolicy.ExpiresAt p <= StandingPolicy.CreatedAt p + 366 * 24 * 60 * Minute
}.

(** An automatic decision names a policy of its System, by its digest. *)
Definition decided_under (db : policy_db) (d : PD.PolicyDecision) : Prop :=
  PD.Outcome d = "automatic" ->
  exists p, p ∈ policies db /\ StandingPolicy.ID p = PD.PolicyID d /\ StandingPolicy.Digest p = PD.PolicyDigest d /\
    StandingPolicy.WorkspaceID p = PD.WorkspaceID d /\ StandingPolicy.System p = PD.System d.

Record policies_ok (db : policy_db) : Prop := {
  ps_policies : Forall policy_ok (policies db);
  ps_ids : NoDup (StandingPolicy.ID <$> policies db);
  ps_decisions : Forall (decided_under db) (decisions db)
}.

Lemma create_policy_spec ctx id ws sys account input now db p :
  create_policy ctx id ws sys account input now db = Ok p ->
  policy_ok p /\ StandingPolicy.ID p ∉ StandingPolicy.ID <$> policies db.
Proof.
  unfold create_policy. cbv zeta. intros Hr. ok_inv. destruct (ctx_system ctx) as [[[wr sr] contract]|]; [|done]. ok_inv.
  rename select (canonicalPolicyEnvelope _ = Ok _) into He. apply canonicalPolicyEnvelope_ok in He.
  rename select (existsb _ (policies db) = false) into Hex.
  rename select (negb (_ <? _) || _ = false) into Hexp. bool_inv. subst p. split.
  { split; [done|done|]. cbn [StandingPolicy.CreatedAt StandingPolicy.ExpiresAt]. lia. }
  intros (q & Hid & Hq)%list_elem_of_fmap. eapply existsb_elem in Hex; [|exact Hq]. cbn [StandingPolicy.ID] in Hid.
  by rewrite Hid, bool_decide_true in Hex.
Qed.

(** A step keeps every policy but may revoke it. *)
Definition same_policy (p p' : StandingPolicy) : Prop :=
  p' = p \/ StandingPolicy.RevokedAt p = None /\ exists now account, p' = revoked now account p.

Lemma policies_step op db p : p ∈ policies db -> exists p', p' ∈ policies (policy_step op db) /\ same_policy p p'.
Proof.
  intros Hp. destruct op; cbn [policy_step].
  - unfold CreateStandingPolicy. destruct (create_policy _ _ _ _ _ _ _ _) as [q|e]; [|by exists p; split; [|left]].
    exists p. split; [apply elem_of_app; by left|by left].
  - unfold RevokeStandingPolicy. cbv zeta. set (f := fun policy => _ && _).
    assert (exists p', p' ∈ update_where f (revoked now accountID) (policies db) /\ same_policy p p') as Hr.
    { exists (if f p then revoked now accountID p else p). split; [by apply elem_update|].
      destruct (f p) eqn:Ef; [|by left]. right. subst f. cbv beta in Ef. bool_inv. eauto. }
    by destruct (_ =? 1).
  - exists p. split; [|by left]. unfold EvaluateStandingPolicies, fresh_decision. destruct (cached_decision _ _ _ _ _ _ _ _); [done|].
    destruct refused; [done|]. destruct (List.find _ _); [done|]. by destruct (existsb _ _).
  - exists p. split; [|by left]. unfold updatePolicyDecision. by destruct (List.find _ _).
Qed.

Lemma same_policy_content p p' :
  same_policy p p' ->
  StandingPolicy.ID p' = StandingPolicy.ID p /\ StandingPolicy.Digest p' = StandingPolicy.Digest p /\
  StandingPolicy.WorkspaceID p' = StandingPolicy.WorkspaceID p /\ StandingPolicy.System p' = StandingPolicy.System p /\
  StandingPolicy.Envelope p' = StandingPolicy.Envelope p /\
  (StandingPolicy.RevokedAt p <> None -> StandingPolicy.RevokedAt p' = StandingPolicy.RevokedAt p).
Proof. intros [->|[Hr (now & account & ->)]]; [done|]. by split_and!. Qed.

Lemma decided_step op db d : decided_under db d -> decided_under (policy_step op db) d.
Proof.
  intros Hd Ho. destruct (Hd Ho) as (p & Hp & Hid & Hdig & Hws & Hsys). destruct (policies_step op db p Hp) as (p' & Hp' & Hs).
  destruct (same_policy_content _ _ Hs) as (Hi & Hg & Hw & Hy & _). exists p'. by rewrite Hi, Hg, Hw, Hy.
Qed.

Lemma fresh_policies refused id ws sys installation wr sr change now db :
  policies (fresh_decision refused id ws sys installation wr sr change now db).2 = policies db.
Proof.
  unfold fresh_decision. cbv zeta. destruct refused; [done|]. destruct (List.find (decision_of _ _ _) _); [done|].
  by destruct (existsb _ _).
Qed.

(** The policy a fresh decision matched. *)
Lemma matched_policy ws sys wr sr now installation change db p :
  List.find (fun p => (policyAllows p installation change).1)
    (merge_sort older (List.filter (in_force ws sys wr sr now) (policies db))) = Some p ->
  p ∈ policies db /\ in_force ws sys wr sr now p = true /\ within (StandingPolicy.Envelope p) installation change.
Proof.
  intros [Hin Ha]%List.find_some. apply policyAllows_within in Ha. apply list_elem_of_In in Hin.
  rewrite (merge_sort_Permutation older) in Hin. apply list_elem_of_In, List.filter_In in Hin as [Hin Hf].
  by apply list_elem_of_In in Hin.
Qed.
Lemma unmatched_policy ws sys wr sr now installation change db p :
  List.find (fun p => (policyAllows p installation change).1)
    (merge_sort older (List.filter (in_force ws sys wr sr now) (policies db))) = None ->
  p ∈ policies db -> in_force ws sys wr sr now p = true -> ~ within (StandingPolicy.Envelope p) installation change.
Proof.
  intros Hn Hp Hf Hw%policyAllows_within.
  assert (p ∈ merge_sort older (List.filter (in_force ws sys wr sr now) (policies db))) as Hin.
  { rewrite (merge_sort_Permutation older). apply list_elem_of_In, List.filter_In. split; [by apply list_elem_of_In|done]. }
  eapply List.find_none in Hn; [|by apply list_elem_of_In]. cbv beta in Hn. by rewrite Hw in Hn.
Qed.

Lemma in_force_inv ws sys wr sr now p :
  in_force ws sys wr sr now p = true ->
  StandingPolicy.WorkspaceID p = ws /\ StandingPolicy.System p = sys /\ StandingPolicy.RevokedAt p = None /\
  now < StandingPolicy.ExpiresAt p /\ StandingPolicy.WorkspaceRevision p = wr /\ StandingPolicy.SystemRevision p = sr.
Proof.
  unfold in_force. intros Hf. bool_inv. rename select ((_ =? sr) = true) into Hs. rename select ((_ =? wr) = true) into Hw.
  apply Z.eqb_eq in Hs, Hw. by split_and!.
Qed.

Lemma fresh_decided refused id ws sys installation wr sr change now db :
  Forall (decided_under db) (decisions db) ->
  Forall (decided_under db) (decisions (fresh_decision refused id ws sys installation wr sr change now db).2).
Proof.
  intros Hds. unfold fresh_decision. cbv zeta. set (matched := List.find _ (merge_sort _ _)). set (d := policyDecision _ _ _ _ _ _ _).
  assert (PD.Outcome d = "automatic" -> exists p, p ∈ policies db /\ StandingPolicy.ID p = PD.PolicyID d /\
      StandingPolicy.Digest p = PD.PolicyDigest d /\ StandingPolicy.WorkspaceID p = ws /\ StandingPolicy.System p = sys) as Hd.
  { subst d. unfold policyDecision. destruct matched as [p|] eqn:Hm; [|done]. intros _.
    destruct (matched_policy _ _ _ _ _ _ _ _ _ Hm) as (Hin & (Hw & Hs & _)%in_force_inv & _). by exists p. }
  assert (PD.WorkspaceID d = ws /\ PD.System d = sys) as [Hws Hsys] by (subst d; unfold policyDecision; by destruct matched as [?|]).
  clearbody d. destruct refused; [done|]. destruct (List.find _ (decisions db)) as [row|]; cbn [snd decisions].
  - apply Forall_forall. intros x Hin. apply update_elem in Hin as (y & Hy & ->).
    destruct (decision_of _ _ _ y) eqn:Ey; [|by eapply Forall_forall in Hds]. intros Ho. destruct (Hd Ho) as (p & ? & ? & ? & ? & ?).
    unfold decision_of in Ey. bool_inv. exists p. cbn. split_and!; congruence.
  - destruct (existsb _ _); [done|]. apply Forall_app. split; [done|]. constructor; [|constructor]. intros Ho. rewrite Hws, Hsys. by apply Hd.
Qed.

Lemma policy_step_ok op db : policies_ok db -> policies_ok (policy_step op db).
Proof.
  intros [H1 H2 H3]. assert (Forall (decided_under (policy_step op db)) (decisions db)) as H3'.
  { eapply Forall_impl; [exact H3|]. intros d. apply decided_step. }
  destruct op; cbn [policy_step] in *.
  - unfold CreateStandingPolicy in *. destruct (create_policy _ _ _ _ _ _ _ _) as [p|e] eqn:Hc; [|by split].
    destruct (create_policy_spec _ _ _ _ _ _ _ _ _ Hc) as [Hp Hid]. cbn [snd] in *. split; [|by cbn; rewrite fmap_app; apply NoDup_app;
      split_and!; [|intros x Hx ->%list_elem_of_singleton|apply NoDup_singleton]|done].
    apply Forall_app. split; [done|]. by constructor.
  - unfold RevokeStandingPolicy in *. cbv zeta in *. set (f := fun policy => _ && _) in *.
    assert (policies_ok (PDb (update_where f (revoked now accountID) (policies db)) (decisions db))) as Hr; [|by destruct (_ =? 1)].
    split; [| |by destruct (_ =? 1)].
    + apply Forall_forall. intros x Hx. apply update_elem in Hx as (y & Hy & ->). eapply Forall_forall in H1; [|exact Hy].
      destruct (f y); [|done]. destruct H1 as [E1 E2 E3]. by split.
    + cbn. assert (StandingPolicy.ID <$> update_where f (revoked now accountID) (policies db) = StandingPolicy.ID <$> policies db) as ->; [|done].
      unfold update_where. rewrite <- list_fmap_compose. apply list_fmap_ext. intros i p _. unfold compose. by destruct (f p).
  - unfold EvaluateStandingPolicies in *. destruct (cached_decision _ _ _ _ _ _ _ _); [by split|].
    pose proof (fresh_policies refused id workspaceID systemName installationID workspaceRevision systemRevision change now db) as Hp.
    split; [by rewrite Hp|by rewrite Hp|]. eapply Forall_impl; [by apply fresh_decided|]. intros d. unfold decided_under. by rewrite Hp.
  - unfold updatePolicyDecision in *. destruct (List.find _ _); [|by split]. cbn [snd] in *. split; [done|done|].
    apply Forall_forall. intros x Hin. apply update_elem in Hin as (y & Hy & ->). eapply Forall_forall in H3'; [|exact Hy].
    by destruct (_ == _).
Qed.

Lemma policy_run_ok ops : policies_ok (policy_run ops).
Proof. induction ops as [|op ops IH]; [split; constructor|by apply policy_step_ok]. Qed.

(** ** What an evaluation answers *)
(** The Change as the draft that [policy] would have been asked about. *)
Definition granted (ws sys installation : string) (wr sr : Z) (times : list Z) (change : Change) (p : StandingPolicy) : Prop :=
  exists now, now ∈ times /\ in_force ws sys wr sr now p = true /\
    within (StandingPolicy.Envelope p) installation (retry_candidate p change).

Lemma within_drafted p installation change :
  within (StandingPolicy.Envelope p) installation change -> retry_candidate p change = change.
Proof. intros Hw. unfold retry_candidate. destruct (in_draft _ _ _ Hw) as [-> _]. done. Qed.

Lemma policy_by_id db p q :
  policies_ok db -> p ∈ policies db -> q ∈ policies db -> StandingPolicy.ID p = StandingPolicy.ID q -> p = q.
Proof.
  intros Hok Hx Hy He. apply list_elem_of_lookup in Hx as [i Hi]. apply list_elem_of_lookup in Hy as [k Hk].
  assert (i = k) as ->; [|congruence]. eapply NoDup_lookup; [apply (ps_ids _ Hok)|..]; rewrite list_lookup_fmap.
  - by rewrite Hi.
  - by rewrite Hk, He.
Qed.

Lemma first_policy_in f db p : first_policy f db = Ok p -> p ∈ policies db /\ f p = true.
Proof.
  unfold first_policy. destruct (List.find _ _) eqn:Hf; [|done]. intros [= <-]. apply List.find_some in Hf as [Hin Hp].
  by apply list_elem_of_In in Hin.
Qed.

(** What ties a decision to a policy and to the one Change it is about. *)
Definition decision_for (ws sys : string) (change : Change) (p : StandingPolicy) (d : PD.PolicyDecision) : Prop :=
  PD.Outcome d = "automatic" /\ PD.PolicyID d = StandingPolicy.ID p /\ PD.PolicyDigest d = StandingPolicy.Digest p /\
  decision_of ws sys change d = true.

Lemma cached_sound ws sys installation wr sr change now db d policy :
  policies_ok db -> cached_decision ws sys installation wr sr change now db = Some (Ok (d, policy)) ->
  exists p, policy = Some p /\ p ∈ policies db /\ d ∈ decisions db /\ decision_for ws sys change p d /\
    (PD.ExecutionID d <> EmptyString \/ granted ws sys installation wr sr [now] change p).
Proof.
  intros Hok. unfold cached_decision. destruct (List.find _ (decisions db)) as [e|] eqn:He; [|done].
  apply List.find_some in He as [He Hdo]. apply list_elem_of_In in He.
  destruct (PD.Outcome e != _) eqn:Ho; [done|]. apply negb_false_iff, bool_decide_eq_true in Ho.
  destruct (PD.ExecutionID e != _) eqn:Hx.
  - intros [= Hr]. apply result_bind_ok in Hr as (p & Hp & [= <- <-]). apply first_policy_in in Hp as [Hp Hid]. bool_inv.
    assert (decided_under db e) as Hd by (eapply Forall_forall; [apply (ps_decisions _ Hok)|done]).
    destruct (Hd Ho) as (q & Hq & Hqid & Hqd & _). assert (q = p) as -> by (apply (policy_by_id db); [done..|congruence]).
    exists p. by split_and!; [..|left].
  - destruct (first_policy _ db) as [p|] eqn:Hp; [|done]. apply first_policy_in in Hp as [Hp Hf].
    destruct ((PD.EvaluatedByInstallation e == _) && _) eqn:Ha; [|done]. intros [= <- <-]. bool_inv. exists p. split_and!; try done. right.
    exists now. split_and!; [left|done|by apply policyAllows_within].
Qed.

Lemma fresh_sound refused id ws sys installation wr sr change now db d policy db' :
  fresh_decision refused id ws sys installation wr sr change now db = (Ok (d, policy), db') ->
  match policy with
  | Some p => p ∈ policies db /\ decision_for ws sys change p d /\ granted ws sys installation wr sr [now] change p
  | None => PD.Outcome d = "human-approval-required" /\
      forall p, p ∈ policies db -> in_force ws sys wr sr now p = true -> ~ within (StandingPolicy.Envelope p) installation change
  end.
Proof.
  unfold fresh_decision. cbv zeta. destruct (List.find _ (merge_sort older _)) as [p|] eqn:Hm.
  - destruct (matched_policy _ _ _ _ _ _ _ _ _ Hm) as (Hin & Hf & Hw).
    assert (granted ws sys installation wr sr [now] change p) as Hg.
    { exists now. split_and!; [left|done|]. by rewrite (within_drafted _ _ _ Hw). }
    destruct refused; [done|]. destruct (List.find _ (decisions db)) as [row|] eqn:Hr.
    + apply List.find_some in Hr as [_ Hr]. intros [= <- <- <-]. by split_and!.
    + destruct (existsb _ _); [done|]. intros [= <- <- <-]. split_and!; try done. unfold decision_for. split_and!; try done.
      unfold decision_of. cbn. by rewrite !bool_decide_true.
  - assert (forall p, p ∈ policies db -> in_force ws sys wr sr now p = true -> ~ within (StandingPolicy.Envelope p) installation change) as Hn.
    { intros p. by eapply unmatched_policy. }
    destruct refused; [done|]. destruct (List.find _ (decisions db)); [by intros [= <- <- <-]|].
    destruct (existsb _ _); [done|]. by intros [= <- <- <-].
Qed.
End Safety.
