(* ===== verification/RateLimit.v ===== *)
(** * The request limiter (internal/controlplane/rate_limit.go)

    Fixed windows per bucket and client address, in a table of bounded size.
    [requestIP] is not modelled: the address it finds is an argument.  The mutex
    makes [allow] one atomic step. *)

From S2P Require Import Prelude GoStrings Documents Calls.
#[local] Open Scope Z_scope.

Module requestLimit.
Record requestLimit : Type := mk { bucket : string; max : Z; window : Z }.
End requestLimit.
Abbreviation requestLimit := requestLimit.requestLimit (only parsing).
Module requestWindow.
Record requestWindow : Type := mk { started : Z; expires : Z; count : Z }.
End requestWindow.
Abbreviation requestWindow := requestWindow.requestWindow (only parsing).
Module RL := requestLimit.
Module RW := requestWindow.

(** An absent window is the zero one of Go, whose [started] is the zero instant;
    a stored window never is.  [lastGC] is zero until the first collection. *)
Record requestLimiter : Type := Limiter { windows : gmap string requestWindow.requestWindow; lastGC : option Z }.
Definition newRequestLimiter : requestLimiter := Limiter ∅ None.
Definition maxRequestWindows : Z := 10000.

(** ** What is limited *)
Definition limitForRequest (method path : string) : option requestLimit :=
  if (method == "GET") && HasPrefix path "/v1/auth/oauth/" then Some (RL.mk "oauth" 40 (10 * Minute))
  else if method != "POST" then None
  else if path == "/v1/acquisition" then Some (RL.mk "acquisition" 30 Minute)
  else if HasPrefix path "/v1/auth/" && (path != "/v1/auth/email-webhook") then Some (RL.mk "auth" 60 (10 * Minute))
  else if (path == "/v1/device/authorizations") || HasPrefix path "/v1/agent-pairings" then Some (RL.mk "device" 30 (10 * Minute))
  else if path == "/v1/agent/workers" then Some (RL.mk "workers" 120 Minute)
  else if path == "/v1/agent/token/refresh" then Some (RL.mk "refresh" 60 Minute)
  else if path == "/mcp" then Some (RL.mk "mcp" 600 Minute)
  else if HasSuffix path "/artifacts" then Some (RL.mk "artifact" 30 (60 * Minute))
  else None.

(** ** Admission *)
Definition collect (now : Z) (l : requestLimiter) : requestLimiter :=
  if match lastGC l with None => true | Some at_ => Minute <=? now - at_ end
  then Limiter (filter (fun kw => now < RW.expires kw.2) (windows l)) (Some now) else l.

Definition allow (key : string) (limit : requestLimit) (now : Z) (l : requestLimiter) : bool * Z * requestLimiter :=
  let l := collect now l in
  let start := Limiter (<[key := RW.mk now (now + RL.window limit) 1]> (windows l)) (lastGC l) in
  match windows l !! key with
  | None =>
      if maxRequestWindows <=? Z.of_nat (size (windows l)) then (false, Minute, l) else (true, 0, start)
  | Some current =>
      if RL.window limit <=? now - RW.started current then (true, 0, start)
      else if RL.max limit <=? RW.count current then (false, RL.window limit - (now - RW.started current), l)
      else (true, 0, Limiter (<[key := RW.mk (RW.started current) (RW.expires current) (RW.count current + 1)]> (windows l)) (lastGC l))
  end.

Definition request_key (limit : requestLimit) (ip : string) : string := RL.bucket limit +:+ "|" +:+ ip.

(** The answer is the Retry-After header of a refusal. *)
Definition allowRequest (method path ip : string) (now : Z) (l : requestLimiter) : option Z * requestLimiter :=
  match limitForRequest method path with
  | None => (None, l)
  | Some limit =>
      let '(allowed, retryAfter, l) := allow (request_key limit ip) limit now l in
      (if allowed then None else Some (Z.max 1 (Z.quot retryAfter Second)), l)
  end.

(** ** Histories, newest first *)
Record request : Type := Request { rq_method : string; rq_path : string; rq_ip : string; rq_time : Z }.

(** The limited requests that were admitted, by key and time. *)
Fixpoint limiter_run (reqs : list request) : list (string * Z) * requestLimiter :=
  match reqs with
  | [] => ([], newRequestLimiter)
  | r :: earlier =>
      let '(log, l) := limiter_run earlier in
      let '(refused, l') := allowRequest (rq_method r) (rq_path r) (rq_ip r) (rq_time r) l in
      (match limitForRequest (rq_method r) (rq_path r), refused with
       | Some limit, None => (request_key limit (rq_ip r), rq_time r) :: log
       | _, _ => log
       end, l')
  end.

Definition in_interval (key : string) (lo hi : Z) (e : string * Z) : bool := (e.1 == key) && (lo <=? e.2) && (e.2 <? hi).
Definition admitted (key : string) (lo hi : Z) (log : list (string * Z)) : Z := Z.of_nat (length (List.filter (in_interval key lo hi) log)).

(** A clock that does not go back. *)
Definition in_order (reqs : list request) : Prop := StronglySorted (fun newer older => rq_time older <= rq_time newer) reqs.

(** ** Counting *)
Lemma admitted_cons key lo hi k x log :
  admitted key lo hi ((k, x) :: log) = (if (k == key) && (lo <=? x) && (x <? hi) then 1 else 0) + admitted key lo hi log.
Proof. unfold admitted. cbn [List.filter]. unfold in_interval at 1. cbn. destruct (_ && _ && _); cbn [length]; lia. Qed.

Lemma admitted_nonneg key lo hi log : 0 <= admitted key lo hi log.
Proof. unfold admitted. lia. Qed.

Ltac count_tac :=
  repeat match goal with
  | |- context [?a <=? ?b] => destruct (Z.leb_spec a b)
  | |- context [?a <? ?b] => destruct (Z.ltb_spec a b)
  | |- context [bool_decide ?P] => destruct (bool_decide_reflect P)
  end; cbn [andb]; try lia.

Lemma admitted_mono key lo hi lo' hi' log : lo' <= lo -> hi <= hi' -> admitted key lo hi log <= admitted key lo' hi' log.
Proof.
  intros Hl Hh. induction log as [|[k x] log IH]; [done|]. rewrite !admitted_cons. count_tac.
Qed.

Lemma admitted_split key lo m hi log : lo <= m <= hi -> admitted key lo hi log = admitted key lo m log + admitted key m hi log.
Proof.
  intros Hm. induction log as [|[k x] log IH]; [done|]. rewrite !admitted_cons, IH. count_tac.
Qed.

Definition before (key : string) (bound : Z) (log : list (string * Z)) : Prop := forall x, (key, x) ∈ log -> x < bound.
Lemma admitted_cut key lo hi hi' log : before key hi log -> admitted key lo hi' log <= admitted key lo hi log.
Proof.
  intros Hb. induction log as [|[k x] log IH]; [done|]. rewrite !admitted_cons.
  assert (before key hi log) as Hb' by (intros y Hy; apply Hb; by right). specialize (IH Hb').
  case_bool_decide as Hk; [|cbn [andb]; lia]. subst k. assert (x < hi) by (apply Hb; left). count_tac.
Qed.
Lemma admitted_none key lo hi log : before key lo log -> admitted key lo hi log = 0.
Proof.
  intros Hb. pose proof (admitted_cut key lo lo hi log Hb) as Hc. pose proof (admitted_nonneg key lo hi log).
  enough (admitted key lo lo log = 0) by lia. clear. induction log as [|[k x] log IH]; [done|]. rewrite admitted_cons, IH. count_tac.
Qed.

(** ** One key *)
Section Key.
Context (key : string) (limit : requestLimit).
Context (Hmax : 1 <= RL.max limit) (Hwindow : 0 < RL.window limit).
Abbreviation W := (RL.window limit).
Abbreviation most := (RL.max limit).

(** [s] is the start of the last window; [entry] what the table holds. *)
Record key_ok (log : list (string * Z)) (entry : option requestWindow.requestWindow) (clock s : Z) : Prop := {
  kt_before : before key (s + W) log;
  kt_clock : before key (clock + 1) log;
  kt_any t : admitted key t (t + W) log <= 2 * most;
  kt_current : admitted key s (s + W) log <= most;
  kt_previous : admitted key (s - W) s log <= most;
  kt_entry : match entry with
             | Some w => RW.started w = s /\ RW.expires w = s + W /\ RW.count w = admitted key s (s + W) log /\ s <= clock
             | None => s + W <= clock
             end
}.

(** A window opens once the last one is over. *)
Lemma key_open log entry clock s now :
  key_ok log entry clock s -> s + W <= now ->
  key_ok ((key, now) :: log) (Some (RW.mk now (now + W) 1)) now now.
Proof.
  intros [Hb _ Ha Hc Hp _] Hnow. assert (before key now log) as Hbn by (intros x Hx; specialize (Hb x Hx); lia).
  assert (admitted key now (now + W) log = 0) as H0 by by apply admitted_none. split.
  - intros x [[= ->]|Hx]%elem_of_cons; [lia|]. specialize (Hbn x Hx). lia.
  - intros x [[= ->]|Hx]%elem_of_cons; [lia|]. specialize (Hbn x Hx). lia.
  - intros t. rewrite admitted_cons. specialize (Ha t). count_tac.
    pose proof (admitted_cut key t (s + W) (t + W) log Hb). pose proof (admitted_mono key t (s + W) s (s + W) log ltac:(lia) ltac:(lia)). lia.
  - rewrite admitted_cons, H0. count_tac.
  - rewrite admitted_cons. pose proof (admitted_cut key (now - W) (s + W) now log Hb).
    pose proof (admitted_mono key (now - W) (s + W) s (s + W) log ltac:(lia) ltac:(lia)). count_tac.
  - cbn. rewrite admitted_cons, H0. split_and!; [done|done| |lia]. count_tac. done.
Qed.

(** One more in the window that is open. *)
Lemma key_count log w clock s now :
  key_ok log (Some w) clock s -> clock <= now -> now < s + W -> RW.count w < most ->
  key_ok ((key, now) :: log) (Some (RW.mk (RW.started w) (RW.expires w) (RW.count w + 1))) now s.
Proof.
  intros [Hb Hcb Ha Hc Hp (Hs & He & Hn & Hcl)] Hclock Hnow Hlt.
  assert (admitted key s (s + W) ((key, now) :: log) = RW.count w + 1) as Hnew by (rewrite admitted_cons, Hn; count_tac; done).
  assert (before key (s + W) ((key, now) :: log)) as Hb'.
  { intros x [[= ->]|Hx]%elem_of_cons; [lia|by apply Hb]. }
  split; [done| | |lia| |].
  - intros x [[= ->]|Hx]%elem_of_cons; [lia|]. specialize (Hcb x Hx). lia.
  - intros t. destruct (Z.le_gt_cases s t) as [Hst|Hst].
    { pose proof (admitted_cut key t (s + W) (t + W) _ Hb'). pose proof (admitted_mono key t (s + W) s (s + W) ((key, now) :: log) ltac:(lia) ltac:(lia)).
      lia. }
    destruct (Z.le_gt_cases (t + W) now) as [Htn|Htn]; [rewrite admitted_cons; specialize (Ha t); count_tac|].
    rewrite (admitted_split key t s (t + W)) by lia. rewrite (admitted_cons key t s).
    pose proof (admitted_mono key t s (s - W) s log ltac:(lia) ltac:(lia)).
    pose proof (admitted_mono key s (t + W) s (s + W) ((key, now) :: log) ltac:(lia) ltac:(lia)). count_tac.
  - rewrite admitted_cons. count_tac.
  - cbn. split_and!; [done|done|lia|lia].
Qed.

Lemma key_later log entry clock s now : key_ok log entry clock s -> clock <= now -> key_ok log entry now s.
Proof.
  intros [Hb Hcb Ha Hc Hp He] Hn. split; try done; [intros x Hx; specialize (Hcb x Hx); lia|]. destruct entry; [|lia]. destruct He as (? & ? & ? & ?). split_and!; [done..|lia].
Qed.

Lemma key_other log entry clock s k x : k <> key -> key_ok log entry clock s -> key_ok ((k, x) :: log) entry clock s.
Proof.
  intros Hk [Hb Hcb Ha Hc Hp He].
  assert (forall lo hi, admitted key lo hi ((k, x) :: log) = admitted key lo hi log) as Hsame.
  { intros lo hi. rewrite admitted_cons, bool_decide_false by done. cbn [andb]. lia. }
  split; [| |intros t; by rewrite Hsame|by rewrite Hsame|by rewrite Hsame|by rewrite Hsame];
    (intros y [[= <- <-]|Hy]%elem_of_cons; [done|by first [apply Hb|apply Hcb]]).
Qed.

(** A collection forgets the window only when it is over. *)
Lemma key_collect log l clock s now :
  key_ok log (windows l !! key) clock s -> clock <= now -> key_ok log (windows (collect now l) !! key) now s.
Proof.
  intros Hk Hn. apply (key_later _ _ _ _ now) in Hk; [|done]. unfold collect.
  destruct (match lastGC l with None => true | Some _ => _ end); [|done]. cbn [windows].
  rewrite map_lookup_filter. destruct (windows l !! key) as [w|] eqn:Hw; [|done]. cbn.
  case_guard as Hg; cbn; [done|]. destruct Hk as [Hb Hcb Ha Hc Hp (Hs & He & Hcn & Hcl)]. split; try done. lia.
Qed.

Lemma allow_key log l clock s now allowed retry l' :
  key_ok log (windows l !! key) clock s -> clock <= now -> allow key limit now l = (allowed, retry, l') ->
  exists s', key_ok (if allowed then (key, now) :: log else log) (windows l' !! key) now s'.
Proof.
  intros Hk Hn. apply (key_collect _ _ _ _ now) in Hk; [|done]. unfold allow. cbv zeta. set (l1 := collect now l) in *.
  destruct (windows l1 !! key) as [w|] eqn:Hw.
  - destruct (W <=? now - RW.started w) eqn:Ho.
    { intros [= <- <- <-]. exists now. cbn [windows]. rewrite lookup_insert_eq. destruct (kt_entry _ _ _ _ Hk) as (Hs & _).
      eapply key_open; [exact Hk|]. apply Z.leb_le in Ho. lia. }
    apply Z.leb_gt in Ho. destruct (most <=? RW.count w) eqn:Hm.
    { intros [= <- <- <-]. exists s. by rewrite Hw. }
    intros [= <- <- <-]. exists s. cbn [windows]. rewrite lookup_insert_eq. destruct (kt_entry _ _ _ _ Hk) as (Hs & _).
    apply Z.leb_gt in Hm. eapply key_count; [exact Hk|lia|lia|done].
  - destruct (maxRequestWindows <=? _); intros [= <- <- <-].
    { exists s. by rewrite Hw. }
    exists now. cbn [windows]. rewrite lookup_insert_eq. eapply key_open; [exact Hk|]. apply (kt_entry _ _ _ _ Hk).
Qed.

Lemma allow_other log l clock s now k lim allowed retry l' :
  k <> key -> key_ok log (windows l !! key) clock s -> clock <= now -> allow k lim now l = (allowed, retry, l') ->
  key_ok (if allowed then (k, now) :: log else log) (windows l' !! key) now s.
Proof.
  intros Hne Hk Hn. apply (key_collect _ _ _ _ now) in Hk; [|done]. unfold allow. cbv zeta. set (l1 := collect now l) in *.
  assert (forall w gc, key_ok ((k, now) :: log) (windows (Limiter (<[k := w]> (windows l1)) gc) !! key) now s) as Hins.
  { intros w gc. cbn [windows]. rewrite lookup_insert_ne by done. by apply key_other. }
  destruct (windows l1 !! k) as [w|].
  - destruct (_ <=? now - _); [by intros [= <- <- <-]|]. by destruct (RL.max lim <=? _); intros [= <- <- <-].
  - by destruct (maxRequestWindows <=? _); intros [= <- <- <-].
Qed.
End Key.

(** ** The table *)
Lemma size_filter_le (m : gmap string requestWindow.requestWindow) (P : string * requestWindow.requestWindow -> Prop)
    `{forall x, Decision (P x)} : (size (filter P m) <= size m)%nat.
Proof. apply map_subseteq_size, map_filter_subseteq. Qed.

Lemma allow_size key limit now l allowed retry l' :
  allow key limit now l = (allowed, retry, l') -> Z.of_nat (size (windows l)) <= maxRequestWindows ->
  Z.of_nat (size (windows l')) <= maxRequestWindows.
Proof.
  intros Ha Hl. assert (Z.of_nat (size (windows (collect now l))) <= maxRequestWindows) as Hc.
  { unfold collect. destruct (match lastGC l with None => true | Some _ => _ end); [|done]. cbn [windows].
    pose proof (size_filter_le (windows l) (fun kw => now < RW.expires kw.2)). lia. }
  unfold allow in Ha. cbv zeta in Ha. destruct (windows (collect now l) !! key) as [w|] eqn:Hw.
  - destruct (_ <=? now - _); [|destruct (_ <=? RW.count w)]; injection Ha as _ _ <-; cbn [windows]; [|done|];
      by rewrite map_size_insert_Some by (rewrite Hw; eauto).
  - destruct (maxRequestWindows <=? _) eqn:Hm; injection Ha as _ _ <-; [done|]. cbn [windows].
    rewrite map_size_insert_None by done. apply Z.leb_gt in Hm. lia.
Qed.

(** ** Every request *)
Definition limits : list requestLimit.requestLimit :=
  [RL.mk "oauth" 40 (10 * Minute); RL.mk "acquisition" 30 Minute; RL.mk "auth" 60 (10 * Minute); RL.mk "device" 30 (10 * Minute);
   RL.mk "workers" 120 Minute; RL.mk "refresh" 60 Minute; RL.mk "mcp" 600 Minute; RL.mk "artifact" 30 (60 * Minute)].
Lemma limit_listed method path limit : limitForRequest method path = Some limit -> limit ∈ limits.
Proof.
  unfold limitForRequest, limits. intros Hl.
  repeat (match type of Hl with (if ?b then _ else _) = _ => destruct b end; [first [discriminate Hl|injection Hl as <-; set_solver]|]).
  done.
Qed.
Lemma limit_positive limit : limit ∈ limits -> 1 <= RL.max limit /\ 0 < RL.window limit.
Proof.
  intros Hl. assert (Forall (fun limit => 1 <= RL.max limit /\ 0 < RL.window limit) limits) as Hf by (repeat constructor; cbn; lia).
  by eapply Forall_forall in Hf.
Qed.
(** A key tells its limit. *)
Lemma request_key_limit a b ip ip' : a ∈ limits -> b ∈ limits -> request_key a ip = request_key b ip' -> a = b.
Proof.
  unfold limits, request_key. intros Ha Hb. repeat setoid_rewrite elem_of_cons in Ha. repeat setoid_rewrite elem_of_cons in Hb.
  repeat destruct Ha as [->|Ha]; try (by apply not_elem_of_nil in Ha);
    (repeat destruct Hb as [->|Hb]; try (by apply not_elem_of_nil in Hb); cbn; intros E; first [done|discriminate E]).
Qed.

Lemma limiter_run_key limit ip reqs log l :
  limit ∈ limits -> in_order reqs -> limiter_run reqs = (log, l) ->
  forall clock, Forall (fun r => rq_time r <= clock) reqs ->
  exists s, key_ok (request_key limit ip) limit log (windows l !! request_key limit ip) clock s.
Proof.
  intros Hin. destruct (limit_positive _ Hin) as [Hmax Hwin]. set (key := request_key limit ip). revert log l.
  induction reqs as [|r reqs IH]; intros log l Ho; cbn [limiter_run].
  - intros [= <- <-] clock _. exists (clock - RL.window limit). split; try (intros; unfold admitted; cbn; lia); [by intros x Hx%not_elem_of_nil..|].
    cbn. rewrite lookup_empty. lia.
  - destruct (limiter_run reqs) as [log0 l0]. apply StronglySorted_inv in Ho as [Ho Hle].
    destruct (IH log0 l0 Ho eq_refl (rq_time r) Hle) as [s Hk]. unfold allowRequest.
    destruct (limitForRequest _ _) as [lim|] eqn:Hlim.
    2:{ intros [= <- <-] clock [Hr _]%Forall_cons. exists s. by eapply key_later. }
    apply limit_listed in Hlim. destruct (allow _ lim _ l0) as [[allowed retry] l1] eqn:Ha. intros Heq clock [Hr _]%Forall_cons.
    assert (exists s', key_ok key limit (if allowed then (request_key lim (rq_ip r), rq_time r) :: log0 else log0)
                         (windows l1 !! key) (rq_time r) s') as [s' Hs].
    { destruct (decide (request_key lim (rq_ip r) = key)) as [E|E].
      - assert (lim = limit) as -> by by eapply request_key_limit. rewrite E in *. by eapply allow_key.
      - exists s. by eapply allow_other. }
    exists s'. destruct allowed; injection Heq as <- <-; by eapply key_later.
Qed.

Lemma limiter_run_size reqs log l : limiter_run reqs = (log, l) -> Z.of_nat (size (windows l)) <= maxRequestWindows.
Proof.
  revert log l. induction reqs as [|r reqs IH]; intros log l; cbn [limiter_run].
  - intros [= <- <-]. cbn [windows newRequestLimiter]. rewrite map_size_empty. unfold maxRequestWindows. lia.
  - destruct (limiter_run reqs) as [log0 l0]. specialize (IH log0 l0 eq_refl). unfold allowRequest.
    destruct (limitForRequest _ _) as [lim|]; [|by intros [= <- <-]].
    destruct (allow _ lim _ l0) as [[allowed retry] l1] eqn:Ha. intros [= _ <-]. by eapply allow_size.
Qed.

(** A refusal has a cause: the window is used up, or the table is full. *)
Lemma allow_refused key limit now l retry l' :
  allow key limit now l = (false, retry, l') ->
  (exists w, windows l' !! key = Some w /\ RL.max limit <= RW.count w /\ now - RW.started w < RL.window limit) \/
  windows l' !! key = None /\ maxRequestWindows <= Z.of_nat (size (windows l')).
Proof.
  unfold allow. cbv zeta. set (l1 := collect now l). destruct (windows l1 !! key) as [w|] eqn:Hw.
  - destruct (_ <=? now - _) eqn:Ho; [done|]. destruct (_ <=? RW.count w) eqn:Hm; [|done]. intros [= _ <-]. left. exists w.
    apply Z.leb_gt in Ho. apply Z.leb_le in Hm. by split_and!.
  - destruct (maxRequestWindows <=? _) eqn:Hm; [|done]. intros [= _ <-]. right. by apply Z.leb_le in Hm.
Qed.

Lemma allow_refused_state key limit now l retry l' : allow key limit now l = (false, retry, l') -> l' = collect now l.
Proof.
  unfold allow. cbv zeta. destruct (windows (collect now l) !! key); [|by destruct (maxRequestWindows <=? _); intros [= _ <-]].
  destruct (_ <=? now - _); [done|]. by destruct (_ <=? RW.count _); intros [= _ <-].
Qed.

Lemma refused_spent key limit log l s now retry l' :
  key_ok key limit log (windows l !! key) now s -> allow key limit now l = (false, retry, l') ->
  RL.max limit <= admitted key (now - RL.window limit + 1) (now + 1) log \/ maxRequestWindows <= Z.of_nat (size (windows l')).
Proof.
  intros Hk Ha. destruct (allow_refused _ _ _ _ _ _ Ha) as [(w & Hw & Hm & Ht)|[_ Hf]]; [left|by right].
  apply (key_collect _ _ _ _ _ _ now) in Hk; [|done]. rewrite <- (allow_refused_state _ _ _ _ _ _ Ha), Hw in Hk.
  destruct Hk as [Hb Hcb _ _ _ (Hs & _ & Hn & Hcl)]. rewrite Hs in Ht. rewrite Hn in Hm.
  pose proof (admitted_cut key s (now + 1) (s + RL.window limit) log Hcb).
  pose proof (admitted_mono key s (now + 1) (now - RL.window limit + 1) (now + 1) log ltac:(lia) ltac:(lia)). lia.
Qed.
