(* ===== verification/Rows.v ===== *)
(** * The rows of the tables of nodes, agents, billing and servers

    One record per table of internal/controlplane/migrations, with the columns
    the modelled transactions read or write: nodes and agents (004, 001, 007,
    013), billing (014, 019, 026), standalone servers (028); the documents of
    agents, of pricing/pricing.go and of a standalone server; and what the
    payment service answers.  A token is stored as its SHA-256 hash, the bytes
    as integers. *)

From S2P Require Import Prelude Documents ControlDocuments.

(** the table node_enrollments *)
Module enrollment_row.

Record enrollment_row : Type := mk {
  ID : string;
  NodeID : string;
  TokenHash : list Z;
  CreatedAt : Z;
  ExpiresAt : Z;
  ConsumedAt : option Z
}.

#[global] Instance enrollment_row_eq_dec : EqDecision enrollment_row.
Proof. solve_decision. Defined.

Definition with_ConsumedAt (v : option Z) (x : enrollment_row) : enrollment_row :=
  mk x.(ID) x.(NodeID) x.(TokenHash) x.(CreatedAt) x.(ExpiresAt) v.

End enrollment_row.
Abbreviation enrollment_row := enrollment_row.enrollment_row (only parsing).

(** the table node_credentials *)
Module node_credential_row.

Record node_credential_row : Type := mk {
  ID : string;
  NodeID : string;
  TokenHash : list Z;
  CreatedAt : Z;
  ExpiresAt : Z;
  RevokedAt : option Z
}.

#[global] Instance node_credential_row_eq_dec : EqDecision node_credential_row.
Proof. solve_decision. Defined.

Definition with_RevokedAt (v : option Z) (x : node_credential_row) : node_credential_row :=
  mk x.(ID) x.(NodeID) x.(TokenHash) x.(CreatedAt) x.(ExpiresAt) v.

End node_credential_row.
Abbreviation node_credential_row := node_credential_row.node_credential_row (only parsing).

(** the table agent_credentials *)
Module credential_row.

Record credential_row : Type := mk {
  ID : string;
  InstallationID : string;
  RefreshHash : list Z;
  FamilyID : string;
  ParentID : string;
  CreatedAt : Z;
  ExpiresAt : Z;
  RotatedAt : option Z;
  RevokedAt : option Z
}.

#[global] Instance credential_row_eq_dec : EqDecision credential_row.
Proof. solve_decision. Defined.

Definition with_RotatedAt (v : option Z) (x : credential_row) : credential_row :=
  mk x.(ID) x.(InstallationID) x.(RefreshHash) x.(FamilyID) x.(ParentID) x.(CreatedAt) x.(ExpiresAt) v x.(RevokedAt).
Definition with_RevokedAt (v : option Z) (x : credential_row) : credential_row :=
  mk x.(ID) x.(InstallationID) x.(RefreshHash) x.(FamilyID) x.(ParentID) x.(CreatedAt) x.(ExpiresAt) x.(RotatedAt) v.

End credential_row.
Abbreviation credential_row := credential_row.credential_row (only parsing).

(** the table agent_sessions; no parent session is the empty string *)
Module session_row.

Record session_row : Type := mk {
  Session : AgentSession.AgentSession;
  AccessHash : list Z;
  CredentialID : option string
}.

#[global] Instance session_row_eq_dec : EqDecision session_row.
Proof. solve_decision. Defined.

Definition with_Session (v : AgentSession.AgentSession) (x : session_row) : session_row :=
  mk v x.(AccessHash) x.(CredentialID).

End session_row.
Abbreviation session_row := session_row.session_row (only parsing).

(** the table change_approval_capabilities; no account and no execution are the empty string *)
Module capability_row.

Record capability_row : Type := mk {
  ID : string;
  TokenHash : list Z;
  WorkspaceID : string;
  SystemName : string;
  ChangeID : string;
  Digest : string;
  RequestedByInstallation : string;
  RequestedSessionID : string;
  Action : string;
  CreatedAt : Z;
  ExpiresAt : Z;
  ConsumedAt : option Z;
  ConsumedBy : string;
  ExecutionID : string;
  RevokedAt : option Z
}.

#[global] Instance capability_row_eq_dec : EqDecision capability_row.
Proof. solve_decision. Defined.

Definition with_ConsumedAt (v : option Z) (x : capability_row) : capability_row :=
  mk x.(ID) x.(TokenHash) x.(WorkspaceID) x.(SystemName) x.(ChangeID) x.(Digest) x.(RequestedByInstallation) x.(RequestedSessionID) x.(Action) x.(CreatedAt) x.(ExpiresAt) v x.(ConsumedBy) x.(ExecutionID) x.(RevokedAt).
Definition with_ConsumedBy (v : string) (x : capability_row) : capability_row :=
  mk x.(ID) x.(TokenHash) x.(WorkspaceID) x.(SystemName) x.(ChangeID) x.(Digest) x.(RequestedByInstallation) x.(RequestedSessionID) x.(Action) x.(CreatedAt) x.(ExpiresAt) x.(ConsumedAt) v x.(ExecutionID) x.(RevokedAt).
Definition with_RevokedAt (v : option Z) (x : capability_row) : capability_row :=
  mk x.(ID) x.(TokenHash) x.(WorkspaceID) x.(SystemName) x.(ChangeID) x.(Digest) x.(RequestedByInstallation) x.(RequestedSessionID) x.(Action) x.(CreatedAt) x.(ExpiresAt) x.(ConsumedAt) x.(ConsumedBy) x.(ExecutionID) v.
Definition with_ExecutionID (v : string) (x : capability_row) : capability_row :=
  mk x.(ID) x.(TokenHash) x.(WorkspaceID) x.(SystemName) x.(ChangeID) x.(Digest) x.(RequestedByInstallation) x.(RequestedSessionID) x.(Action) x.(CreatedAt) x.(ExpiresAt) x.(ConsumedAt) x.(ConsumedBy) v x.(RevokedAt).

End capability_row.
Abbreviation capability_row := capability_row.capability_row (only parsing).

(** the table device_authorizations; no workspace and no account is the empty string *)
Module device_row.

Record device_row : Type := mk {
  ID : string;
  DeviceHash : list Z;
  UserCode : string;
  Name : string;
  Harness : string;
  Authority_ : Authority.Authority;
  WorkspaceID : string;
  AuthorizedBy : string;
  InstallationID : option string;
  CreatedAt : Z;
  ExpiresAt : Z;
  AuthorizedAt : option Z;
  ExchangedAt : option Z;
  DeniedAt : option Z
}.

#[global] Instance device_row_eq_dec : EqDecision device_row.
Proof. solve_decision. Defined.

Definition with_AuthorizedBy (v : string) (x : device_row) : device_row :=
  mk x.(ID) x.(DeviceHash) x.(UserCode) x.(Name) x.(Harness) x.(Authority_) x.(WorkspaceID) v x.(InstallationID) x.(CreatedAt) x.(ExpiresAt) x.(AuthorizedAt) x.(ExchangedAt) x.(DeniedAt).
Definition with_ExchangedAt (v : option Z) (x : device_row) : device_row :=
  mk x.(ID) x.(DeviceHash) x.(UserCode) x.(Name) x.(Harness) x.(Authority_) x.(WorkspaceID) x.(AuthorizedBy) x.(InstallationID) x.(CreatedAt) x.(ExpiresAt) x.(AuthorizedAt) v x.(DeniedAt).
Definition with_DeniedAt (v : option Z) (x : device_row) : device_row :=
  mk x.(ID) x.(DeviceHash) x.(UserCode) x.(Name) x.(Harness) x.(Authority_) x.(WorkspaceID) x.(AuthorizedBy) x.(InstallationID) x.(CreatedAt) x.(ExpiresAt) x.(AuthorizedAt) x.(ExchangedAt) v.

End device_row.
Abbreviation device_row := device_row.device_row (only parsing).

(** the table agent_pairings; a device is claimed for it at most once *)
Module pairing_row.

Record pairing_row : Type := mk {
  ID : string;
  WorkspaceID : string;
  CreatedBy : string;
  TokenHash : list Z;
  DeviceID : option string;
  CreatedAt : Z;
  ExpiresAt : Z;
  CancelledAt : option Z
}.

#[global] Instance pairing_row_eq_dec : EqDecision pairing_row.
Proof. solve_decision. Defined.

Definition with_DeviceID (v : option string) (x : pairing_row) : pairing_row :=
  mk x.(ID) x.(WorkspaceID) x.(CreatedBy) x.(TokenHash) v x.(CreatedAt) x.(ExpiresAt) x.(CancelledAt).
Definition with_CancelledAt (v : option Z) (x : pairing_row) : pairing_row :=
  mk x.(ID) x.(WorkspaceID) x.(CreatedBy) x.(TokenHash) x.(DeviceID) x.(CreatedAt) x.(ExpiresAt) v.

End pairing_row.
Abbreviation pairing_row := pairing_row.pairing_row (only parsing).

(** the table change_records; the document as it is read back *)
Module change_row.

Record change_row : Type := mk {
  Phase : string;
  Digest : string;
  Document : result Change.Change
}.

#[global] Instance change_row_eq_dec : EqDecision change_row.
Proof. solve_decision. Defined.

End change_row.
Abbreviation change_row := change_row.change_row (only parsing).

(** types.go TokenPair *)
Module TokenPair.

Record TokenPair : Type := mk {
  AccessToken : string;
  TokenType : string;
  ExpiresIn : Z;
  RefreshToken : string;
  Installation_ : Installation.Installation;
  Session : AgentSession.AgentSession
}.

#[global] Instance TokenPair_eq_dec : EqDecision TokenPair.
Proof. solve_decision. Defined.

End TokenPair.
Abbreviation TokenPair := TokenPair.TokenPair (only parsing).

(** types.go DeviceAuthorization *)
Module DeviceAuthorization.

Record DeviceAuthorization : Type := mk {
  DeviceCode : string;
  UserCode : string;
  VerificationURI : string;
  ExpiresAt : Z;
  IntervalSeconds : Z
}.

#[global] Instance DeviceAuthorization_eq_dec : EqDecision DeviceAuthorization.
Proof. solve_decision. Defined.

End DeviceAuthorization.
Abbreviation DeviceAuthorization := DeviceAuthorization.DeviceAuthorization (only parsing).

(** types.go ChangeApprovalCapability *)
Module ChangeApprovalCapability.

Record ChangeApprovalCapability : Type := mk {
  ID : string;
  WorkspaceID : string;
  System : string;
  ChangeID : string;
  Digest : string;
  Action : string;
  RequestedBy : Installation.Installation;
  CreatedAt : Z;
  ExpiresAt : Z;
  ConsumedAt : option Z;
  ConsumedBy : string;
  ExecutionID : string;
  ReviewURL : string
}.

#[global] Instance ChangeApprovalCapability_eq_dec : EqDecision ChangeApprovalCapability.
Proof. solve_decision. Defined.

Definition with_ConsumedAt (v : option Z) (x : ChangeApprovalCapability) : ChangeApprovalCapability :=
  mk x.(ID) x.(WorkspaceID) x.(System) x.(ChangeID) x.(Digest) x.(Action) x.(RequestedBy) x.(CreatedAt) x.(ExpiresAt) v x.(ConsumedBy) x.(ExecutionID) x.(ReviewURL).
Definition with_ConsumedBy (v : string) (x : ChangeApprovalCapability) : ChangeApprovalCapability :=
  mk x.(ID) x.(WorkspaceID) x.(System) x.(ChangeID) x.(Digest) x.(Action) x.(RequestedBy) x.(CreatedAt) x.(ExpiresAt) x.(ConsumedAt) v x.(ExecutionID) x.(ReviewURL).

End ChangeApprovalCapability.
Abbreviation ChangeApprovalCapability := ChangeApprovalCapability.ChangeApprovalCapability (only parsing).

(** types.go ChangeApprovalReview *)
Module ChangeApprovalReview.

Record ChangeApprovalReview : Type := mk {
  Capability : ChangeApprovalCapability.ChangeApprovalCapability;
  Change_ : Change.Change;
  CanApprove : bool
}.

#[global] Instance ChangeApprovalReview_eq_dec : EqDecision ChangeApprovalReview.
Proof. solve_decision. Defined.

End ChangeApprovalReview.
Abbreviation ChangeApprovalReview := ChangeApprovalReview.ChangeApprovalReview (only parsing).

(** agent_workers.go WorkerInput *)
Module WorkerInput.

Record WorkerInput : Type := mk {
  Name : string;
  ClientInstance : string;
  Draft : bool
}.

#[global] Instance WorkerInput_eq_dec : EqDecision WorkerInput.
Proof. solve_decision. Defined.

End WorkerInput.
Abbreviation WorkerInput := WorkerInput.WorkerInput (only parsing).

(** agent_workers.go WorkerToken *)
Module WorkerToken.

Record WorkerToken : Type := mk {
  AccessToken : string;
  TokenType : string;
  ExpiresAt : Z;
  Session : AgentSession.AgentSession
}.

#[global] Instance WorkerToken_eq_dec : EqDecision WorkerToken.
Proof. solve_decision. Defined.

End WorkerToken.
Abbreviation WorkerToken := WorkerToken.WorkerToken (only parsing).

(** agent_pairing.go AgentPairing *)
Module AgentPairing.

Record AgentPairing : Type := mk {
  ID : string;
  WorkspaceID : string;
  Status : string;
  Token : string;
  Name : string;
  Harness : string;
  InstallationID : string;
  ExpiresAt : Z
}.

#[global] Instance AgentPairing_eq_dec : EqDecision AgentPairing.
Proof. solve_decision. Defined.

End AgentPairing.
Abbreviation AgentPairing := AgentPairing.AgentPairing (only parsing).

(** pricing.go Plan *)
Module PricingPlan.

Record PricingPlan : Type := mk {
  ID : string;
  Name : string;
  MonthlyCents : Z;
  IncludedUsageCents : Z
}.

#[global] Instance PricingPlan_eq_dec : EqDecision PricingPlan.
Proof. solve_decision. Defined.

End PricingPlan.
Abbreviation PricingPlan := PricingPlan.PricingPlan (only parsing).

(** pricing.go Catalog *)
Module Catalog.

Record Catalog : Type := mk {
  Version : string;
  Currency : string;
  Plans : list PricingPlan.PricingPlan
}.

#[global] Instance Catalog_eq_dec : EqDecision Catalog.
Proof. solve_decision. Defined.

End Catalog.
Abbreviation Catalog := Catalog.Catalog (only parsing).

(** pricing.go Bill *)
Module Bill.

Record Bill : Type := mk {
  PlanID : string;
  Currency : string;
  SubscriptionCents : Z;
  UsageCents : Z;
  CreditAppliedCents : Z;
  CreditRemainingCents : Z;
  AdditionalUsageCents : Z;
  TotalCents : Z
}.

#[global] Instance Bill_eq_dec : EqDecision Bill.
Proof. solve_decision. Defined.

End Bill.
Abbreviation Bill := Bill.Bill (only parsing).

(** billing_stripe.go BillingConfig *)
Module BillingConfig.

Record BillingConfig : Type := mk {
  PortalConfigurationID : string;
  Enabled : bool;
  SecretKey : string;
  WebhookSecret : string;
  IngestToken : string;
  PaygPriceID : string;
  ProPriceID : string;
  ProUsagePriceID : string;
  MeterID : string;
  MeterEventName : string
}.

#[global] Instance BillingConfig_eq_dec : EqDecision BillingConfig.
Proof. solve_decision. Defined.

End BillingConfig.
Abbreviation BillingConfig := BillingConfig.BillingConfig (only parsing).

(** billing_stripe.go stripeSubscription, an item *)
Module subscription_item.

Record subscription_item : Type := mk {
  Quantity : Z;
  PriceID : string;
  PeriodStart : Z;
  PeriodEnd : Z
}.

#[global] Instance subscription_item_eq_dec : EqDecision subscription_item.
Proof. solve_decision. Defined.

End subscription_item.
Abbreviation subscription_item := subscription_item.subscription_item (only parsing).

(** billing_stripe.go stripeSubscription; the status of its latest invoice, if it is an invoice *)
Module stripeSubscription.

Record stripeSubscription : Type := mk {
  ID : string;
  Customer : string;
  Status : string;
  CancelAtPeriodEnd : bool;
  PeriodStart : Z;
  PeriodEnd : Z;
  LatestInvoice : option string;
  Items : list subscription_item.subscription_item
}.

#[global] Instance stripeSubscription_eq_dec : EqDecision stripeSubscription.
Proof. solve_decision. Defined.

End stripeSubscription.
Abbreviation stripeSubscription := stripeSubscription.stripeSubscription (only parsing).

(** billing_stripe.go ValidatePrices, a tier of a price *)
Module price_tier.

Record price_tier : Type := mk {
  UpTo : option Z;
  UnitAmount : option Z;
  FlatAmount : option Z
}.

#[global] Instance price_tier_eq_dec : EqDecision price_tier.
Proof. solve_decision. Defined.

End price_tier.
Abbreviation price_tier := price_tier.price_tier (only parsing).

(** billing_stripe.go ValidatePrices, a price; whether it transforms quantities *)
Module stripe_price.

Record stripe_price : Type := mk {
  Active : bool;
  Currency : string;
  BillingScheme : string;
  TiersMode : string;
  UnitAmount : option Z;
  Transform : bool;
  Interval : string;
  IntervalCount : Z;
  UsageType : string;
  Meter : string;
  Tiers : list price_tier.price_tier
}.

#[global] Instance stripe_price_eq_dec : EqDecision stripe_price.
Proof. solve_decision. Defined.

End stripe_price.
Abbreviation stripe_price := stripe_price.stripe_price (only parsing).

(** billing_stripe.go ValidatePrices, the meter *)
Module stripe_meter.

Record stripe_meter : Type := mk {
  EventName : string;
  Status : string;
  Formula : string;
  CustomerKey : string;
  CustomerType : string;
  ValueKey : string;
  Window : string
}.

#[global] Instance stripe_meter_eq_dec : EqDecision stripe_meter.
Proof. solve_decision. Defined.

End stripe_meter.
Abbreviation stripe_meter := stripe_meter.stripe_meter (only parsing).

(** billing_payment.go stripeCardMethod *)
Module stripeCardMethod.

Record stripeCardMethod : Type := mk {
  ID : string;
  Type_ : string;
  Customer : string;
  Brand : string;
  Last4 : string;
  ExpMonth : Z;
  ExpYear : Z
}.

#[global] Instance stripeCardMethod_eq_dec : EqDecision stripeCardMethod.
Proof. solve_decision. Defined.

End stripeCardMethod.
Abbreviation stripeCardMethod := stripeCardMethod.stripeCardMethod (only parsing).

(** billing_payment.go BillingPaymentMethod *)
Module BillingPaymentMethod.

Record BillingPaymentMethod : Type := mk {
  Brand : string;
  Last4 : string
}.

#[global] Instance BillingPaymentMethod_eq_dec : EqDecision BillingPaymentMethod.
Proof. solve_decision. Defined.

End BillingPaymentMethod.
Abbreviation BillingPaymentMethod := BillingPaymentMethod.BillingPaymentMethod (only parsing).

(** billing.go BillingUsageEvent *)
Module BillingUsageEvent.

Record BillingUsageEvent : Type := mk {
  ID : string;
  WorkspaceID : string;
  AmountCents : Z;
  Resource : string;
  RateVersion : string;
  OccurredAt : Z
}.

#[global] Instance BillingUsageEvent_eq_dec : EqDecision BillingUsageEvent.
Proof. solve_decision. Defined.

End BillingUsageEvent.
Abbreviation BillingUsageEvent := BillingUsageEvent.BillingUsageEvent (only parsing).

(** the table workspace_billing, by workspace *)
Module billing_row.

Record billing_row : Type := mk {
  CustomerID : option string;
  SubscriptionID : option string;
  PlanID : string;
  Status : string;
  PeriodStart : option Z;
  PeriodEnd : option Z;
  CancelAtPeriodEnd : bool;
  CheckoutID : string;
  CheckoutURL : string;
  CheckoutPlan : string;
  CheckoutExpiresAt : option Z;
  CheckoutAttempt : Z
}.

#[global] Instance billing_row_eq_dec : EqDecision billing_row.
Proof. solve_decision. Defined.

Definition with_CustomerID (v : option string) (x : billing_row) : billing_row :=
  mk v x.(SubscriptionID) x.(PlanID) x.(Status) x.(PeriodStart) x.(PeriodEnd) x.(CancelAtPeriodEnd) x.(CheckoutID) x.(CheckoutURL) x.(CheckoutPlan) x.(CheckoutExpiresAt) x.(CheckoutAttempt).
Definition with_CheckoutAttempt (v : Z) (x : billing_row) : billing_row :=
  mk x.(CustomerID) x.(SubscriptionID) x.(PlanID) x.(Status) x.(PeriodStart) x.(PeriodEnd) x.(CancelAtPeriodEnd) x.(CheckoutID) x.(CheckoutURL) x.(CheckoutPlan) x.(CheckoutExpiresAt) v.

End billing_row.
Abbreviation billing_row := billing_row.billing_row (only parsing).

(** the table billing_usage_events *)
Module usage_row.

Record usage_row : Type := mk {
  ID : string;
  WorkspaceID : string;
  CustomerID : string;
  SubscriptionID : string;
  AmountCents : Z;
  Resource : string;
  RateVersion : string;
  OccurredAt : Z;
  CreatedAt : Z;
  FirstAttemptAt : option Z;
  SentAt : option Z;
  NeedsReconciliation : bool
}.

#[global] Instance usage_row_eq_dec : EqDecision usage_row.
Proof. solve_decision. Defined.

Definition with_FirstAttemptAt (v : option Z) (x : usage_row) : usage_row :=
  mk x.(ID) x.(WorkspaceID) x.(CustomerID) x.(SubscriptionID) x.(AmountCents) x.(Resource) x.(RateVersion) x.(OccurredAt) x.(CreatedAt) v x.(SentAt) x.(NeedsReconciliation).
Definition with_SentAt (v : option Z) (x : usage_row) : usage_row :=
  mk x.(ID) x.(WorkspaceID) x.(CustomerID) x.(SubscriptionID) x.(AmountCents) x.(Resource) x.(RateVersion) x.(OccurredAt) x.(CreatedAt) x.(FirstAttemptAt) v x.(NeedsReconciliation).
Definition with_NeedsReconciliation (v : bool) (x : usage_row) : usage_row :=
  mk x.(ID) x.(WorkspaceID) x.(CustomerID) x.(SubscriptionID) x.(AmountCents) x.(Resource) x.(RateVersion) x.(OccurredAt) x.(CreatedAt) x.(FirstAttemptAt) x.(SentAt) v.

End usage_row.
Abbreviation usage_row := usage_row.usage_row (only parsing).

(** the table billing_resource_samples, by workspace and resource *)
Module sample_row.

Record sample_row : Type := mk {
  SubscriptionID : string;
  PeriodStart : Z;
  ObservedAt : Z;
  Units : Z;
  Remainder : Z
}.

#[global] Instance sample_row_eq_dec : EqDecision sample_row.
Proof. solve_decision. Defined.

Definition with_Remainder (v : Z) (x : sample_row) : sample_row :=
  mk x.(SubscriptionID) x.(PeriodStart) x.(ObservedAt) x.(Units) v.

End sample_row.
Abbreviation sample_row := sample_row.sample_row (only parsing).

(** the table billing_collection_status, by workspace *)
Module collection_row.

Record collection_row : Type := mk {
  AttemptedAt : Z;
  SucceededAt : option Z;
  Issue : string
}.

#[global] Instance collection_row_eq_dec : EqDecision collection_row.
Proof. solve_decision. Defined.

End collection_row.
Abbreviation collection_row := collection_row.collection_row (only parsing).

(** the table billing_paid_invoices, by invoice *)
Module invoice_row.

Record invoice_row : Type := mk {
  WorkspaceID : string;
  AmountPaid : Z;
  Currency : string;
  PaidAt : Z
}.

#[global] Instance invoice_row_eq_dec : EqDecision invoice_row.
Proof. solve_decision. Defined.

End invoice_row.
Abbreviation invoice_row := invoice_row.invoice_row (only parsing).

(** billing.go billingWebhook, the object of an event *)
Module invoice_object.

Record invoice_object : Type := mk {
  Customer : string;
  ID : string;
  Status : string;
  AmountPaid : Z;
  Currency : string;
  PaidAt : Z
}.

#[global] Instance invoice_object_eq_dec : EqDecision invoice_object.
Proof. solve_decision. Defined.

End invoice_object.
Abbreviation invoice_object := invoice_object.invoice_object (only parsing).

(** billing.go billingWebhook, an event *)
Module webhook_event.

Record webhook_event : Type := mk {
  ID : string;
  Type_ : string;
  Object : invoice_object.invoice_object
}.

#[global] Instance webhook_event_eq_dec : EqDecision webhook_event.
Proof. solve_decision. Defined.

End webhook_event.
Abbreviation webhook_event := webhook_event.webhook_event (only parsing).

(** vps.go VPS; the flag delete_requested is a column of the row *)
Module VPS.

Record VPS : Type := mk {
  MonthlyCents : Z;
  ProvisioningFailed : bool;
  ID : string;
  WorkspaceID : string;
  Request : VPSRequest.VPSRequest;
  Plan_ : VPSPlan.VPSPlan;
  Digest : string;
  Phase : string;
  CreatedAt : Z;
  ApprovedAt : option Z;
  ApprovedBy : string;
  ExpiresAt : option Z;
  Address : string;
  HostFingerprint : string;
  Failure : string
}.

#[global] Instance VPS_eq_dec : EqDecision VPS.
Proof. solve_decision. Defined.

Definition with_ProvisioningFailed (v : bool) (x : VPS) : VPS :=
  mk x.(MonthlyCents) v x.(ID) x.(WorkspaceID) x.(Request) x.(Plan_) x.(Digest) x.(Phase) x.(CreatedAt) x.(ApprovedAt) x.(ApprovedBy) x.(ExpiresAt) x.(Address) x.(HostFingerprint) x.(Failure).
Definition with_Phase (v : string) (x : VPS) : VPS :=
  mk x.(MonthlyCents) x.(ProvisioningFailed) x.(ID) x.(WorkspaceID) x.(Request) x.(Plan_) x.(Digest) v x.(CreatedAt) x.(ApprovedAt) x.(ApprovedBy) x.(ExpiresAt) x.(Address) x.(HostFingerprint) x.(Failure).
Definition with_Failure (v : string) (x : VPS) : VPS :=
  mk x.(MonthlyCents) x.(ProvisioningFailed) x.(ID) x.(WorkspaceID) x.(Request) x.(Plan_) x.(Digest) x.(Phase) x.(CreatedAt) x.(ApprovedAt) x.(ApprovedBy) x.(ExpiresAt) x.(Address) x.(HostFingerprint) v.
Definition with_Address (v : string) (x : VPS) : VPS :=
  mk x.(MonthlyCents) x.(ProvisioningFailed) x.(ID) x.(WorkspaceID) x.(Request) x.(Plan_) x.(Digest) x.(Phase) x.(CreatedAt) x.(ApprovedAt) x.(ApprovedBy) x.(ExpiresAt) v x.(HostFingerprint) x.(Failure).
Definition with_HostFingerprint (v : string) (x : VPS) : VPS :=
  mk x.(MonthlyCents) x.(ProvisioningFailed) x.(ID) x.(WorkspaceID) x.(Request) x.(Plan_) x.(Digest) x.(Phase) x.(CreatedAt) x.(ApprovedAt) x.(ApprovedBy) x.(ExpiresAt) x.(Address) v x.(Failure).
Definition with_Digest (v : string) (x : VPS) : VPS :=
  mk x.(MonthlyCents) x.(ProvisioningFailed) x.(ID) x.(WorkspaceID) x.(Request) x.(Plan_) v x.(Phase) x.(CreatedAt) x.(ApprovedAt) x.(ApprovedBy) x.(ExpiresAt) x.(Address) x.(HostFingerprint) x.(Failure).

End VPS.
Abbreviation VPS := VPS.VPS (only parsing).

(** the table workspace_vps, by server; its column phase is that of the document *)
Module server_row.

Record server_row : Type := mk {
  WorkspaceID : string;
  Document : VPS.VPS;
  DeleteRequested : bool;
  NextAttemptAt : Z
}.

#[global] Instance server_row_eq_dec : EqDecision server_row.
Proof. solve_decision. Defined.

Definition with_Document (v : VPS.VPS) (x : server_row) : server_row :=
  mk x.(WorkspaceID) v x.(DeleteRequested) x.(NextAttemptAt).
Definition with_DeleteRequested (v : bool) (x : server_row) : server_row :=
  mk x.(WorkspaceID) x.(Document) v x.(NextAttemptAt).
Definition with_NextAttemptAt (v : Z) (x : server_row) : server_row :=
  mk x.(WorkspaceID) x.(Document) x.(DeleteRequested) v.

End server_row.
Abbreviation server_row := server_row.server_row (only parsing).
