(* ===== verification/Metering.v ===== *)
(** * The usage ledger (internal/controlplane/billing.go, billing_collector.go)

    The tables of billing and the transactions over them: what a workspace
    used, sampled or reported by the trusted producer, and what of it was sent
    to the payment service.  A transaction is one atomic step, as the row lock
    it takes makes it; on an error it changes nothing. *)

From S2P Require Import Prelude GoStrings Digest Documents Calls Rows Tables.
#[local] Open Scope Z_scope.

Record billing_db : Type := Db {
  billings : gmap string billing_row;                 (* by workspace *)
  usage : list usage_row;
  samples : gmap (string * string) sample_row;        (* by workspace and resource *)
  collections : gmap string collection_row;           (* by workspace *)
  invoices : gmap string invoice_row;                 (* by invoice *)
  webhooks : gset string
}.
Definition with_billings v db := Db v db.(usage) db.(samples) db.(collections) db.(invoices) db.(webhooks).
Definition with_usage v db := Db db.(billings) v db.(samples) db.(collections) db.(invoices) db.(webhooks).
Definition with_samples v db := Db db.(billings) db.(usage) v db.(collections) db.(invoices) db.(webhooks).
Definition with_collections v db := Db db.(billings) db.(usage) db.(samples) v db.(invoices) db.(webhooks).
Definition with_invoices v db := Db db.(billings) db.(usage) db.(samples) db.(collections) v db.(webhooks).
Definition with_webhooks v db := Db db.(billings) db.(usage) db.(samples) db.(collections) db.(invoices) v.

Definition text (o : option string) : string := default EmptyString o.

(** ** Usage reported by the producer *)
Definition Hour : Z := 60 * Minute.
Definition Day : Z := 24 * Hour.

(** [t1] and [t2] are the two readings of the clock. *)
Definition valid_usage (e : BillingUsageEvent) (t1 t2 : Z) : bool :=
  negb ((slen (BillingUsageEvent.ID e) <? 8) || (100 <? slen (BillingUsageEvent.ID e)) ||
        (BillingUsageEvent.AmountCents e <=? 0) || (100000000 <? BillingUsageEvent.AmountCents e) ||
        (TrimSpace (BillingUsageEvent.Resource e) == EmptyString) || (200 <? slen (BillingUsageEvent.Resource e)) ||
        (TrimSpace (BillingUsageEvent.RateVersion e) == EmptyString) || (100 <? slen (BillingUsageEvent.RateVersion e)) ||
        (BillingUsageEvent.OccurredAt e =? zero_time) || (t1 + Minute <? BillingUsageEvent.OccurredAt e) ||
        (BillingUsageEvent.OccurredAt e <? t2 - 34 * Day)).

(** The same event again. *)
Definition same_usage (u : usage_row) (e : BillingUsageEvent) : bool :=
  (usage_row.WorkspaceID u == BillingUsageEvent.WorkspaceID e) && (usage_row.AmountCents u =? BillingUsageEvent.AmountCents e) &&
  (usage_row.Resource u == BillingUsageEvent.Resource e) && (usage_row.RateVersion u == BillingUsageEvent.RateVersion e) &&
  (usage_row.OccurredAt u =? micros (BillingUsageEvent.OccurredAt e)).

(** The customer, the subscription and the period that usage at [t] is charged to. *)
Definition charged_period (b : billing_row) (t : Z) : option (string * string * Z) :=
  match billing_row.PeriodStart b, billing_row.PeriodEnd b with
  | Some start, Some stop =>
      if (billing_row.Status b != "active") || (text (billing_row.CustomerID b) == EmptyString) ||
         (text (billing_row.SubscriptionID b) == EmptyString) || (t <? start) || negb (t <? stop)
      then None else Some (text (billing_row.CustomerID b), text (billing_row.SubscriptionID b), start)
  | _, _ => None
  end.

Definition find_usage (id : string) (db : billing_db) : option usage_row := List.find (fun u => usage_row.ID u == id) (usage db).

Definition RecordBillingUsage (e : BillingUsageEvent) (t1 t2 created : Z) (db : billing_db) : result unit * billing_db :=
  if negb (valid_usage e t1 t2) then (Err (Errorf "invalid usage event"), db) else
  match billings db !! BillingUsageEvent.WorkspaceID e with
  | None => (Err no_rows, db)
  | Some b =>
      match find_usage (BillingUsageEvent.ID e) db with
      | Some existing => (if same_usage existing e then Ok tt else Err ErrConflict, db)
      | None =>
          match charged_period b (BillingUsageEvent.OccurredAt e) with
          | None => (Err (WrapfBefore ErrConflict ": usage must belong to an active paid billing period"), db)
          | Some (customer, subscription, _) =>
              (Ok tt,
               with_usage (usage db ++ [usage_row.mk (BillingUsageEvent.ID e) (BillingUsageEvent.WorkspaceID e) customer subscription
                 (BillingUsageEvent.AmountCents e) (BillingUsageEvent.Resource e) (BillingUsageEvent.RateVersion e)
                 (micros (BillingUsageEvent.OccurredAt e)) created None None false]) db)
          end
      end
  end.

(** ** Usage sampled by the collector *)
Definition resourceRateVersion : string := "resources-2026-09-18-v1".

(** Cents per unit, over this many seconds: a bundle for 720 hours; 1.4 cents
    per decimal GB for 720 hours, in bytes. *)
Definition rate (kind : string) : Z * Z := if kind == "storage" then (14, 25920000000000000) else (300, 720 * 3600).

Definition in_bigint (x : Z) : bool := (min_int <=? x) && (x <=? max_int).

Section Snapshot.
(** [numeric_floor a b]: what the database makes of floor(a / b), its quotients
    of numerics having a bounded scale. *)
Context (numeric_floor : Z -> Z -> Z).
Context (workspace customer subscription : string) (start at_ created : Z).

Definition usage_id (resource : string) (previous : Z) : string :=
  "resource_" +:+ sha256_hex (workspace +:+ "/" +:+ resource +:+ "/" +:+ subscription +:+ "/" +:+
                              Itoa (previous / Second) +:+ "/" +:+ Itoa (at_ / Second)).

(** The two readings [s] and [r] of a resource, charged at the smaller. *)
Definition charge_resource (r : BillingResource) (s : sample_row) (db : billing_db) : result billing_db :=
  let '(numerator, denominator) := rate (BillingResource.Kind r) in
  let previous := sample_row.ObservedAt s in
  let seconds := div64 (at_ - previous) Second in
  let remainder := sample_row.Remainder s + Z.min (sample_row.Units s) (BillingResource.Units r) * seconds * numerator in
  let cents := numeric_floor remainder denominator in
  let key := (workspace, BillingResource.ID r) in
  let id := usage_id (BillingResource.ID r) previous in
  if remainder <? 0 then Err check_violation
  else if negb (in_bigint cents) then Err out_of_range
  else if 0 <? cents then
    if (100000000 <? cents) || (remainder - cents * denominator <? 0) then Err check_violation
    else if existsb (fun u => usage_row.ID u == id) (usage db) then Err unique_violation
    else
      Ok (with_samples (<[key := sample_row.with_Remainder (remainder - cents * denominator) s]> (samples db))
           (with_usage (usage db ++ [usage_row.mk id workspace customer subscription cents (BillingResource.ID r)
                                       resourceRateVersion (micros (at_ - Second)) created None None false]) db))
  else Ok (with_samples (<[key := sample_row.with_Remainder remainder s]> (samples db)) db).

Definition same_period (s : sample_row) : bool :=
  (sample_row.SubscriptionID s == subscription) && (sample_row.PeriodStart s =? start).
Definition chargeable (s : sample_row) : bool :=
  same_period s && (at_ - sample_row.ObservedAt s <=? 5 * Minute) && negb (sample_row.ObservedAt s <? start).

Definition store_sample (r : BillingResource) (keep : bool) (db : billing_db) : result billing_db :=
  if BillingResource.Units r <? 0 then Err check_violation else
  let key := (workspace, BillingResource.ID r) in
  let remainder := match samples db !! key with Some s => if keep then sample_row.Remainder s else 0 | None => 0 end in
  Ok (with_samples (<[key := sample_row.mk subscription start (micros at_) (BillingResource.Units r) remainder]> (samples db)) db).

Definition snapshot_resource (db : result billing_db) (r : BillingResource) : result billing_db :=
  db ← db;
  match samples db !! (workspace, BillingResource.ID r) with
  | None => store_sample r false db
  | Some s =>
      if negb (sample_row.ObservedAt s <? at_) then Ok db else
      db ← (if chargeable s then charge_resource r s db else Ok db);
      store_sample r (same_period s) db
  end.
End Snapshot.

(** The samples of the workspace that the snapshot does not name are dropped. *)
Definition named_sample (workspace : string) (ids : list string) (kv : (string * string) * sample_row) : Prop :=
  kv.1.1 = workspace -> kv.1.2 ∈ ids.
#[export] Instance named_sample_dec workspace ids kv : Decision (named_sample workspace ids kv).
Proof. unfold named_sample. apply _. Defined.

Definition recordResourceSnapshot numeric_floor (workspace : string) (resources : list BillingResource) (at_ created : Z)
    (db : billing_db) : result unit * billing_db :=
  tx (b ← one_row no_rows (billings db !! workspace);
      '(customer, subscription, start) ← one_row (Errorf "billing period is not active") (charged_period b at_);
      db ← fold_left (snapshot_resource numeric_floor workspace customer subscription start at_ created) resources (Ok db);
      let db := with_samples (filter (named_sample workspace (BillingResource.ID <$> resources)) (samples db)) db in
      Ok (tt, with_collections (<[workspace := collection_row.mk (micros at_) (Some (micros at_)) EmptyString]> (collections db)) db)) db.

(** The statements of CollectUsage beside it. *)
Definition drop_samples (workspace : string) (db : billing_db) : billing_db :=
  with_samples (filter (fun kv => kv.1.1 <> workspace) (samples db)) db.
Definition note_issue (workspace issue : string) (now : Z) (db : billing_db) : billing_db :=
  with_collections
    (<[workspace := collection_row.mk now (collections db !! workspace ≫= collection_row.SucceededAt) issue]> (collections db)) db.

(** ** Sending usage *)
Definition unsent (u : usage_row) : bool := match usage_row.SentAt u with None => true | Some _ => false end.

(** Whether its first attempt is more than 23 hours old. *)
Definition uncertain (now : Z) (u : usage_row) : bool :=
  unsent u && match usage_row.FirstAttemptAt u with Some t => t <? now - 23 * Hour | None => false end.
Definition mark_uncertain (now : Z) (db : billing_db) : billing_db :=
  with_usage (update_where (uncertain now) (usage_row.with_NeedsReconciliation true) (usage db)) db.

(** The first of the oldest rows. *)
Fixpoint oldest_usage (l : list usage_row) : option usage_row :=
  match l with
  | [] => None
  | u :: l' =>
      match oldest_usage l' with
      | Some u' => if usage_row.CreatedAt u' <? usage_row.CreatedAt u then Some u' else Some u
      | None => Some u
      end
  end.
Definition sendable (locked : list string) (u : usage_row) : bool :=
  unsent u && negb (usage_row.NeedsReconciliation u) && negb (bool_decide (usage_row.ID u ∈ locked)).
Definition first_attempted (now : Z) (u : usage_row) : usage_row := usage_row.with_FirstAttemptAt (coalesce now (usage_row.FirstAttemptAt u)) u.

(** [locked]: the rows other transactions hold (SKIP LOCKED). *)
Definition pick_usage (locked : list string) (now : Z) (db : billing_db) : option usage_row * billing_db :=
  match oldest_usage (List.filter (sendable locked) (usage db)) with
  | None => (None, db)
  | Some u =>
      (Some u, with_usage (update_where (fun x => usage_row.ID x == usage_row.ID u) (first_attempted now) (usage db)) db)
  end.

Definition mark_sent (id : string) (now : Z) (db : billing_db) : billing_db :=
  with_usage (update_where (fun u => (usage_row.ID u == id) && unsent u) (usage_row.with_SentAt (Some now)) (usage db)) db.

(** ** What the webhook writes *)
(** A positive settled invoice, once. *)
Definition insert_invoice (id : string) (i : invoice_row) (db : billing_db) : billing_db :=
  match invoices db !! id with Some _ => db | None => with_invoices (<[id := i]> (invoices db)) db end.

(** No other workspace has this customer or this subscription. *)
Definition unique_billing (workspace : string) (b : billing_row) (db : billing_db) : bool :=
  forallb (fun '(w, b') => (w == workspace) ||
             negb ((bool_decide (is_Some (billing_row.CustomerID b)) && (billing_row.CustomerID b' == billing_row.CustomerID b)) ||
                   (bool_decide (is_Some (billing_row.SubscriptionID b)) && (billing_row.SubscriptionID b' == billing_row.SubscriptionID b))))
    (map_to_list (billings db)).
Definition update_billing (workspace : string) (f : billing_row -> billing_row) (db : billing_db) : result billing_db :=
  match billings db !! workspace with
  | None => Ok db
  | Some b =>
      if unique_billing workspace (f b) db then Ok (with_billings (<[workspace := f b]> (billings db)) db) else Err unique_violation
  end.

Definition canceled_billing (b : billing_row) : billing_row :=
  billing_row.mk (billing_row.CustomerID b) (billing_row.SubscriptionID b) (billing_row.PlanID b) "canceled" (billing_row.PeriodStart b)
    (billing_row.PeriodEnd b) false (billing_row.CheckoutID b) EmptyString (billing_row.CheckoutPlan b) None (billing_row.CheckoutAttempt b).
Definition subscribed_billing (subscription plan status : string) (start stop : Z) (cancel : bool) (b : billing_row) : billing_row :=
  billing_row.mk (billing_row.CustomerID b) (Some subscription) plan status (Some start) (Some stop) cancel
    (billing_row.CheckoutID b) EmptyString (billing_row.CheckoutPlan b) None (billing_row.CheckoutAttempt b).

(** The samples of a workspace whose billing is not active are dropped. *)
Definition clear_inactive_samples (workspace : string) (db : billing_db) : billing_db :=
  match billings db !! workspace with
  | Some b => if billing_row.Status b != "active" then drop_samples workspace db else db
  | None => db
  end.

(** The identifier of an event, and whether it is new. *)
Definition insert_webhook (id : string) (db : billing_db) : bool * billing_db :=
  (negb (bool_decide (id ∈ webhooks db)), with_webhooks ({[id]} ∪ webhooks db) db).

(** ** What the checkout writes *)
Definition new_billing : billing_row :=
  billing_row.mk None None "payg" "not_started" None None false EmptyString EmptyString EmptyString None 0.
Definition insert_billing (workspace : string) (db : billing_db) : billing_db :=
  match billings db !! workspace with Some _ => db | None => with_billings (<[workspace := new_billing]> (billings db)) db end.
Definition linked_billing (customer : string) (b : billing_row) : billing_row := billing_row.with_CustomerID (Some customer) b.
Definition saved_checkout (customer id url plan : string) (expires attempt : Z) (b : billing_row) : billing_row :=
  billing_row.mk (Some customer) (billing_row.SubscriptionID b) (billing_row.PlanID b) (billing_row.Status b) (billing_row.PeriodStart b)
    (billing_row.PeriodEnd b) (billing_row.CancelAtPeriodEnd b) id url plan (Some expires) attempt.
Definition counted_attempt (b : billing_row) : billing_row :=
  billing_row.with_CheckoutAttempt (billing_row.CheckoutAttempt b + 1) b.
