(* ===== verification/Enrollment.v ===== *)
(** * Nodes of the control plane (internal/controlplane/node_gateway_store.go)

    The tables of nodes, their one-time enrollments and their bearer
    credentials.  The ids and tokens drawn and the clock are arguments. *)

From S2P Require Import Prelude Tables GoStrings Digest Documents ControlDocuments Rows Calls.
#[local] Open Scope Z_scope.

Module NI := NodeInstallation.
Module ER := enrollment_row.
Module CR := node_credential_row.

Record node_db : Type := NodeDb {
  nodes : list NI.NodeInstallation;
  enrollments : list ER.enrollment_row;
  credentials : list CR.node_credential_row
}.

Definition secretHash (value : string) : list Z := Sha256.sum (string_bytes value).

Definition nodeEnrollmentLifetime : Z := 20 * Minute.
Definition nodeCredentialLifetime : Z := 90 * 24 * 60 * Minute.

(** [ON CONFLICT (workspace_id,system_name) WHERE revoked_at IS NULL]. *)
Definition active_scope (workspaceID systemName : string) (n : NI.NodeInstallation) : bool :=
  (NI.WorkspaceID n == workspaceID) && (NI.System n == systemName) && (NI.RevokedAt n == None).

(** The node of a System, and the table with it. *)
Definition ensure_node (nodeID workspaceID systemName m1Prefix : string) (now : Z) (l : list NI.NodeInstallation)
    : result (NI.NodeInstallation * list NI.NodeInstallation) :=
  match List.find (active_scope workspaceID systemName) l with
  | Some node => Ok (node, l)
  | None =>
      if existsb (fun n => NI.ID n == nodeID) l then Err unique_violation
      else let node := NI.mk nodeID workspaceID systemName m1Prefix now None None in Ok (node, l ++ [node])
  end.

Definition pending_enrollment (nodeID : string) (e : ER.enrollment_row) : bool :=
  (ER.NodeID e == nodeID) && (ER.ConsumedAt e == None).
Definition rotated (hash : list Z) (now : Z) (e : ER.enrollment_row) : ER.enrollment_row :=
  ER.mk (ER.ID e) (ER.NodeID e) hash now (now + nodeEnrollmentLifetime) (ER.ConsumedAt e).

(** The pending enrollment of a node gets a new token, or is created. *)
Definition ensure_enrollment (enrollmentID nodeID : string) (hash : list Z) (now : Z) (l : list ER.enrollment_row)
    : result (string * list ER.enrollment_row) :=
  match List.find (pending_enrollment nodeID) l with
  | Some e =>
      if existsb (fun x => (ER.ID x != ER.ID e) && (ER.TokenHash x == hash)) l then Err unique_violation
      else Ok (ER.ID e, update_where (fun x => (ER.ID x == ER.ID e) && pending_enrollment nodeID x) (rotated hash now) l)
  | None =>
      if existsb (fun x => (ER.ID x == enrollmentID) || (ER.TokenHash x == hash)) l then Err unique_violation
      else Ok (enrollmentID, l ++ [ER.mk enrollmentID nodeID hash now (now + nodeEnrollmentLifetime) None])
  end.

Definition Store_CreateNodeEnrollment (nodeID enrollmentID token workspaceID systemName m1Prefix : string) (now : Z) (db : node_db)
    : result NodeEnrollment * node_db :=
  if (workspaceID == EmptyString) || (systemName == EmptyString) || (m1Prefix == EmptyString)
  then (Err (Errorf "workspace, system, and prefix are required"), db)
  else
    match ensure_node nodeID workspaceID systemName m1Prefix now (nodes db) with
    | Err e => (Err e, db)
    | Ok (node, l) =>
        if NI.M1Prefix node != m1Prefix
        then (Err (WrapfBefore ErrConflict ": active node scope no longer matches the System prefix"), db)
        else
          match ensure_enrollment enrollmentID (NI.ID node) (secretHash token) now (enrollments db) with
          | Err e => (Err e, db)
          | Ok (id, l') => (Ok (NodeEnrollment.mk id token (now + nodeEnrollmentLifetime) node), NodeDb l l' (credentials db))
          end
    end.

Definition exchangeable (enrollmentID : string) (hash : list Z) (now : Z) (e : ER.enrollment_row) : bool :=
  (ER.ID e == enrollmentID) && (ER.TokenHash e == hash) && (now <? ER.ExpiresAt e).
Definition node_by_id (id : string) (db : node_db) : option NI.NodeInstallation := List.find (fun n => NI.ID n == id) (nodes db).

Definition revoke_credentials (nodeID : string) (now : Z) (l : list CR.node_credential_row) : list CR.node_credential_row :=
  update_where (fun c => (CR.NodeID c == nodeID) && (CR.RevokedAt c == None)) (CR.with_RevokedAt (Some now)) l.

(** An exchange replaces: the node's earlier credentials are revoked in the same transaction. *)
Definition ExchangeNodeEnrollment (credentialID nodeToken enrollmentID token : string) (now : Z) (db : node_db)
    : result NodeCredential * node_db :=
  if (enrollmentID == EmptyString) || (token == EmptyString) then (Err ErrUnauthorized, db)
  else
    match List.find (exchangeable enrollmentID (secretHash token) now) (enrollments db) with
    | None => (Err ErrUnauthorized, db)
    | Some e =>
        match node_by_id (ER.NodeID e) db with
        | None => (Err ErrUnauthorized, db)
        | Some node =>
            if (ER.ConsumedAt e != None) || (NI.RevokedAt node != None) then (Err ErrUnauthorized, db)
            else
              let expires := now + nodeCredentialLifetime in
              let enrollments' := update_where (fun x => (ER.ID x == enrollmentID) && (ER.ConsumedAt x == None))
                                    (ER.with_ConsumedAt (Some now)) (enrollments db) in
              let hash := secretHash nodeToken in
              if existsb (fun c => (CR.ID c == credentialID) || (CR.TokenHash c == hash)) (credentials db)
              then (Err unique_violation, db)
              else
                (Ok (NodeCredential.mk nodeToken expires node),
                 NodeDb (nodes db) enrollments'
                   (revoke_credentials (NI.ID node) now (credentials db) ++
                    [CR.mk credentialID (NI.ID node) hash now expires None]))
        end
    end.

Definition live_credential (hash : list Z) (now : Z) (c : CR.node_credential_row) : bool :=
  (CR.TokenHash c == hash) && (CR.RevokedAt c == None) && (now <? CR.ExpiresAt c).

(** The note of when a node was last seen is a statement of its own, whose failure is ignored. *)
Definition seen_before (t : Z) (n : NI.NodeInstallation) : bool :=
  match NI.LastSeenAt n with None => true | Some at_ => at_ <? t end.
Definition ResolveNode (token : string) (now : Z) (db : node_db) : result NI.NodeInstallation * node_db :=
  if token == EmptyString then (Err ErrUnauthorized, db)
  else
    match List.find (live_credential (secretHash token) now) (credentials db) with
    | None => (Err ErrUnauthorized, db)
    | Some c =>
        match node_by_id (CR.NodeID c) db with
        | None => (Err ErrUnauthorized, db)
        | Some node =>
            if NI.RevokedAt node != None then (Err ErrUnauthorized, db)
            else
              (Ok (NI.with_LastSeenAt (Some now) node),
               NodeDb (update_where (fun n => (NI.ID n == NI.ID node) && seen_before (now - Minute) n) (NI.with_LastSeenAt (Some now)) (nodes db))
                 (enrollments db) (credentials db))
        end
    end.

Definition RevokeNodeInstallation (workspaceID nodeID : string) (now : Z) (db : node_db) : result unit * node_db :=
  let p n := (NI.ID n == nodeID) && (NI.WorkspaceID n == workspaceID) && (NI.RevokedAt n == None) in
  if affected p (nodes db) =? 1 then
    (Ok tt, NodeDb (update_where p (NI.with_RevokedAt (Some now)) (nodes db)) (enrollments db) (revoke_credentials nodeID now (credentials db)))
  else (Err ErrNotFound, db).

(** ** Histories *)
Inductive node_op : Type :=
  | NEnroll (nodeID enrollmentID token workspaceID systemName m1Prefix : string) (now : Z)
  | NExchange (credentialID nodeToken enrollmentID token : string) (now : Z)
  | NResolve (token : string) (now : Z)
  | NRevoke (workspaceID nodeID : string) (now : Z).

Definition node_step (op : node_op) (db : node_db) : node_db :=
  match op with
  | NEnroll nodeID enrollmentID token ws sys prefix now => (Store_CreateNodeEnrollment nodeID enrollmentID token ws sys prefix now db).2
  | NExchange credentialID nodeToken enrollmentID token now => (ExchangeNodeEnrollment credentialID nodeToken enrollmentID token now db).2
  | NResolve token now => (ResolveNode token now db).2
  | NRevoke ws nodeID now => (RevokeNodeInstallation ws nodeID now db).2
  end.
(** Oldest first, from any tables. *)
Definition node_run (ops : list node_op) (db : node_db) : node_db := fold_left (fun db op => node_step op db) ops db.
Definition no_nodes : node_db := NodeDb [] [] [].

(** ** The invariant *)
Record nodes_ok (db : node_db) : Prop := {
  nk_ids : NoDup (NI.ID <$> nodes db);
  nk_scope n1 n2 : n1 ∈ nodes db -> n2 ∈ nodes db -> NI.RevokedAt n1 = None -> NI.RevokedAt n2 = None ->
    NI.WorkspaceID n1 = NI.WorkspaceID n2 -> NI.System n1 = NI.System n2 -> n1 = n2;
  nk_enrollment_ids : NoDup (ER.ID <$> enrollments db);
  nk_enrollment_hashes : NoDup (ER.TokenHash <$> enrollments db);
  nk_pending e1 e2 : e1 ∈ enrollments db -> e2 ∈ enrollments db -> ER.ConsumedAt e1 = None -> ER.ConsumedAt e2 = None ->
    ER.NodeID e1 = ER.NodeID e2 -> e1 = e2;
  nk_credential_ids : NoDup (CR.ID <$> credentials db);
  nk_hashes : NoDup (CR.TokenHash <$> credentials db);
  nk_live c1 c2 : c1 ∈ credentials db -> c2 ∈ credentials db -> CR.RevokedAt c1 = None -> CR.RevokedAt c2 = None ->
    CR.NodeID c1 = CR.NodeID c2 -> c1 = c2;
  nk_revoked n c : n ∈ nodes db -> c ∈ credentials db -> CR.NodeID c = NI.ID n -> is_Some (NI.RevokedAt n) -> is_Some (CR.RevokedAt c)
}.

(** What later transactions leave of a row. *)
Definition same_node (n n' : NI.NodeInstallation) : Prop :=
  NI.ID n' = NI.ID n /\ NI.WorkspaceID n' = NI.WorkspaceID n /\ NI.System n' = NI.System n /\ NI.M1Prefix n' = NI.M1Prefix n /\
  (is_Some (NI.RevokedAt n) -> is_Some (NI.RevokedAt n')).
Definition same_enrollment (e e' : ER.enrollment_row) : Prop :=
  ER.ID e' = ER.ID e /\ ER.NodeID e' = ER.NodeID e /\ (is_Some (ER.ConsumedAt e) -> is_Some (ER.ConsumedAt e')).
Definition same_credential (c c' : CR.node_credential_row) : Prop :=
  CR.ID c' = CR.ID c /\ CR.NodeID c' = CR.NodeID c /\ CR.TokenHash c' = CR.TokenHash c /\ CR.ExpiresAt c' = CR.ExpiresAt c /\
  (is_Some (CR.RevokedAt c) -> is_Some (CR.RevokedAt c')).

Definition nodes_later (db db' : node_db) : Prop :=
  kept same_node (nodes db) (nodes db') /\ kept same_enrollment (enrollments db) (enrollments db') /\
  kept same_credential (credentials db) (credentials db').
