(* ===== verification/EnrollmentSafety.v ===== *)
(** * The invariant of nodes and their credentials *)

From S2P Require Import Prelude Tables GoStrings Digest Documents ControlDocuments Rows Calls Enrollment.
#[local] Open Scope Z_scope.

#[export] Instance same_node_refl : Reflexive same_node.
Proof. by intros n. Qed.
#[export] Instance same_node_trans : Transitive same_node.
Proof. intros a b c (?&?&?&?&?) (?&?&?&?&?). unfold same_node. split_and!; try congruence. auto. Qed.
#[export] Instance same_enrollment_refl : Reflexive same_enrollment.
Proof. by intros n. Qed.
#[export] Instance same_enrollment_trans : Transitive same_enrollment.
Proof. intros a b c (?&?&?) (?&?&?). unfold same_enrollment. split_and!; try congruence. auto. Qed.
#[export] Instance same_credential_refl : Reflexive same_credential.
Proof. by intros n. Qed.
#[export] Instance same_credential_trans : Transitive same_credential.
Proof. intros a b c (?&?&?&?&?) (?&?&?&?&?). unfold same_credential. split_and!; try congruence. auto. Qed.

#[export] Instance nodes_later_refl : Reflexive nodes_later.
Proof. by intros db. Qed.
#[export] Instance nodes_later_trans : Transitive nodes_later.
Proof. intros a b c (?&?&?) (?&?&?). split_and!; etrans; eassumption. Qed.

(** A transaction keeps the invariant and the rows. *)
Definition good (db db' : node_db) : Prop := nodes_ok db' /\ nodes_later db db'.
Lemma good_refl db : nodes_ok db -> good db db.
Proof. by split. Qed.

(** ** Enrolling *)
Lemma ensure_node_ok nodeID ws sys prefix now db node l :
  nodes_ok db -> ensure_node nodeID ws sys prefix now (nodes db) = Ok (node, l) ->
  good db (NodeDb l (enrollments db) (credentials db)) /\ node ∈ l.
Proof.
  intros Hok. unfold ensure_node. destruct (List.find _ _) as [n|] eqn:Hf.
  { intros [= <- <-]. apply find_elem in Hf as [Hn _]. split; [destruct db; by apply good_refl|done]. }
  destruct (existsb _ _) eqn:Hex; [done|]. cbv zeta. set (x := NI.mk _ _ _ _ _ _ _). intros [= <- <-]. split; [|set_solver].
  destruct Hok as [K1 K2 K3 K4 K5 K6 K7 K8 K9]. split.
  - split; try done; cbn [nodes enrollments credentials].
    + apply keys_insert; [done|]. intros y Hy He. by pose proof (existsb_elem _ _ _ Hex Hy) as H%bool_decide_eq_false.
    + assert (forall n, n ∈ nodes db -> NI.RevokedAt n = None -> NI.WorkspaceID n = ws -> NI.System n = sys -> False) as Hno.
      { intros n Hn Hr Hw Hs. pose proof (find_not _ _ _ Hf Hn) as H. unfold active_scope in H.
        by rewrite Hr, Hw, Hs, !bool_decide_true in H. }
      intros n1 n2 [H1| ->%list_elem_of_singleton]%elem_of_app [H2| ->%list_elem_of_singleton]%elem_of_app Hr1 Hr2 Hw Hs; auto;
        exfalso; eapply Hno; eauto.
    + intros n c [Hn| ->%list_elem_of_singleton]%elem_of_app Hc Hid Hr; [by eapply K9|]. by apply is_Some_None in Hr.
  - split_and!; [by apply kept_insert; apply _|done..].
Qed.

Lemma ensure_enrollment_ok enrollmentID nodeID hash now db id l :
  nodes_ok db -> ensure_enrollment enrollmentID nodeID hash now (enrollments db) = Ok (id, l) ->
  good db (NodeDb (nodes db) l (credentials db)).
Proof.
  intros Hok. unfold ensure_enrollment. destruct (List.find _ _) as [e|] eqn:Hf.
  - destruct (existsb _ _) eqn:Hex; [done|]. intros [= <- <-]. apply find_elem in Hf as [He Hp].
    destruct Hok as [K1 K2 K3 K4 K5 K6 K7 K8 K9]. set (p := fun x => _ && _).
    assert (forall x, x ∈ enrollments db -> p x = true -> x = e) as Hone.
    { intros x Hx Hpx. unfold p in Hpx. bool_inv. by apply (key_unique ER.ID (enrollments db)). }
    split.
    + split; try done; cbn [nodes enrollments credentials].
      * by rewrite keys_update_where.
      * apply (keys_change _ _ _ _ hash); [done|intros x y Hx Hy Hpx Hpy; by rewrite (Hone x), (Hone y)|done|].
        intros y Hy Hpy Hh. pose proof (existsb_elem _ _ _ Hex Hy) as H. cbn beta in H. rewrite Hh, (bool_decide_true (hash = hash)) in H by done.
        rewrite andb_true_r in H. apply negb_false_iff, bool_decide_eq_true in H. apply (key_unique ER.ID (enrollments db)) in H as ->; [|done..].
        unfold p in Hpy. by rewrite bool_decide_true, Hp in Hpy.
      * intros x y [x' [Hx ->]]%update_elem [y' [Hy ->]]%update_elem. cbn beta. intros Hc1 Hc2 Hid.
        assert (x' = y') as ->; [|done]. destruct (p x'), (p y'); by apply K5.
    + split_and!; [done| |done]. apply kept_update; [apply _|]. by intros x _ _.
  - destruct (existsb _ _) eqn:Hex; [done|]. intros [= <- <-]. destruct Hok as [K1 K2 K3 K4 K5 K6 K7 K8 K9]. split.
    + split; try done; cbn [nodes enrollments credentials].
      * apply keys_insert; [done|]. intros y Hy Hh. pose proof (existsb_elem _ _ _ Hex Hy) as H. cbn in H, Hh. by rewrite Hh, bool_decide_true in H.
      * apply keys_insert; [done|]. intros y Hy Hh. pose proof (existsb_elem _ _ _ Hex Hy) as H. cbn in H, Hh.
        by rewrite Hh, (bool_decide_true (hash = hash)), orb_true_r in H.
      * assert (forall y, y ∈ enrollments db -> ER.ConsumedAt y = None -> ER.NodeID y <> nodeID) as Hno.
        { intros y Hy Hc Hn. pose proof (find_not _ _ _ Hf Hy) as H. unfold pending_enrollment in H. by rewrite Hn, Hc, !bool_decide_true in H. }
        intros x y [Hx| ->%list_elem_of_singleton]%elem_of_app [Hy| ->%list_elem_of_singleton]%elem_of_app Hc1 Hc2 Hid; auto; exfalso.
        -- by apply (Hno x).
        -- by apply (Hno y).
    + split_and!; [done| |done]. by apply kept_insert; apply _.
Qed.

Lemma enroll_ok nodeID enrollmentID token ws sys prefix now db :
  nodes_ok db -> good db (Store_CreateNodeEnrollment nodeID enrollmentID token ws sys prefix now db).2.
Proof.
  intros Hok. unfold Store_CreateNodeEnrollment. destruct (_ || _); [by apply good_refl|].
  destruct (ensure_node _ _ _ _ _ _) as [[node l]|e] eqn:Hn; [|by apply good_refl].
  destruct (_ != _); [by apply good_refl|]. destruct (ensure_enrollment _ _ _ _ _) as [[id l']|e] eqn:He; [|by apply good_refl].
  destruct (ensure_node_ok _ _ _ _ _ _ _ _ Hok Hn) as [[Hok1 Hl1] _].
  destruct (ensure_enrollment_ok _ _ _ _ (NodeDb l (enrollments db) (credentials db)) _ _ Hok1 He) as [Hok2 Hl2].
  split; [exact Hok2|]. etrans; [exact Hl1|exact Hl2].
Qed.

(** ** Exchanging, resolving, revoking *)
Section Revoked.
Context (nodeID : string) (now : Z).
#[local] Abbreviation revoke := (revoke_credentials nodeID now).

Lemma revoke_keys l : CR.ID <$> revoke l = CR.ID <$> l /\ CR.TokenHash <$> revoke l = CR.TokenHash <$> l.
Proof. unfold revoke_credentials. by rewrite !keys_update_where. Qed.

Lemma revoke_elem l c : c ∈ revoke l ->
  exists c0, c0 ∈ l /\ same_credential c0 c /\ (CR.RevokedAt c = None -> c = c0 /\ CR.NodeID c <> nodeID).
Proof.
  intros (c0 & Hc0 & ->)%update_elem. exists c0. split; [done|]. destruct (_ && _) eqn:Hp.
  - split; [|done]. unfold same_credential. by split_and!.
  - split; [done|]. intros Hr. split; [done|]. intros Hn. by rewrite Hn, Hr, !bool_decide_true in Hp.
Qed.

Lemma revoke_kept l : kept same_credential l (revoke l).
Proof. apply kept_update; [apply _|]. intros x _ _. unfold same_credential. by split_and!. Qed.

Lemma revoke_live l : (forall c1 c2, c1 ∈ l -> c2 ∈ l -> CR.RevokedAt c1 = None -> CR.RevokedAt c2 = None -> CR.NodeID c1 = CR.NodeID c2 -> c1 = c2) ->
  forall c1 c2, c1 ∈ revoke l -> c2 ∈ revoke l -> CR.RevokedAt c1 = None -> CR.RevokedAt c2 = None -> CR.NodeID c1 = CR.NodeID c2 -> c1 = c2.
Proof.
  intros Hl c1 c2 (x & Hx & _ & Hx')%revoke_elem (y & Hy & _ & Hy')%revoke_elem Hr1 Hr2 Hid.
  destruct (Hx' Hr1) as [-> _], (Hy' Hr2) as [-> _]. by apply Hl.
Qed.
End Revoked.

Lemma node_by_id_elem id db n : node_by_id id db = Some n -> n ∈ nodes db /\ NI.ID n = id.
Proof. intros [Hn H%bool_decide_eq_true]%find_elem. done. Qed.

Lemma exchange_ok credentialID nodeToken enrollmentID token now db :
  nodes_ok db -> good db (ExchangeNodeEnrollment credentialID nodeToken enrollmentID token now db).2.
Proof.
  intros Hok. unfold ExchangeNodeEnrollment. destruct ((enrollmentID == "")%string || _); [by apply good_refl|].
  destruct (List.find _ _) as [e|] eqn:He; [|by apply good_refl].
  destruct (node_by_id _ _) as [node|] eqn:Hn; [|by apply good_refl].
  destruct ((ER.ConsumedAt e != None) || _) eqn:Hc; [by apply good_refl|]. cbv zeta.
  destruct (existsb _ _) eqn:Hex; [by apply good_refl|]. apply node_by_id_elem in Hn as [Hn _].
  apply orb_false_iff in Hc as [_ Hrev%negb_false_iff%bool_decide_eq_true]. cbn [snd].
  destruct Hok as [K1 K2 K3 K4 K5 K6 K7 K8 K9]. set (p := fun x => _ && _). set (new := CR.mk _ _ _ _ _ _).
  assert (forall c, c ∈ credentials db -> CR.ID c <> credentialID /\ CR.TokenHash c <> secretHash nodeToken) as Hfresh.
  { intros c Hcin. pose proof (existsb_elem _ _ _ Hex Hcin) as [H1%bool_decide_eq_false H2%bool_decide_eq_false]%orb_false_iff. done. }
  split; [split|]; cbn [nodes enrollments credentials]; try done.
  - by rewrite keys_update_where.
  - by rewrite keys_update_where.
  - intros x y [x' [Hx ->]]%update_elem [y' [Hy ->]]%update_elem. cbn beta.
    destruct (p x'), (p y'); cbn; try done. by apply K5.
  - apply keys_insert; [by rewrite (proj1 (revoke_keys _ _ _))|]. intros c (c0 & Hc0 & Hs & _)%revoke_elem.
    destruct Hs as (-> & _). by apply Hfresh.
  - apply keys_insert; [by rewrite (proj2 (revoke_keys _ _ _))|]. intros c (c0 & Hc0 & Hs & _)%revoke_elem.
    destruct Hs as (_ & _ & -> & _). by apply Hfresh.
  - intros c1 c2 [H1| ->%list_elem_of_singleton]%elem_of_app [H2| ->%list_elem_of_singleton]%elem_of_app Hr1 Hr2 Hid.
    + by eapply revoke_live.
    + apply revoke_elem in H1 as (? & _ & _ & H1). by destruct (H1 Hr1) as [_ []].
    + apply revoke_elem in H2 as (? & _ & _ & H2). by destruct (H2 Hr2) as [_ []].
    + done.
  - intros n c Hn' [(c0 & Hc0 & (_ & Hid & _ & _ & Hk) & _)%revoke_elem| ->%list_elem_of_singleton]%elem_of_app Hid' Hr.
    + apply Hk, (K9 n); [done|done|congruence|done].
    + rewrite (key_unique NI.ID (nodes db) n node) in Hr by done. rewrite Hrev in Hr. by apply is_Some_None in Hr.
  - split_and!; [done| |].
    + apply kept_update; [apply _|]. intros x _ _. unfold same_enrollment. by split_and!.
    + etrans; [apply revoke_kept|apply kept_insert, _].
Qed.

Lemma resolve_ok token now db : nodes_ok db -> good db (ResolveNode token now db).2.
Proof.
  intros Hok. unfold ResolveNode. destruct (token == ""%string); [by apply good_refl|].
  destruct (List.find _ _) as [c|]; [|by apply good_refl]. destruct (node_by_id _ _) as [node|] eqn:Hn; [|by apply good_refl].
  destruct (NI.RevokedAt node != None); [by apply good_refl|]. cbn [snd]. apply node_by_id_elem in Hn as [Hn _].
  destruct Hok as [K1 K2 K3 K4 K5 K6 K7 K8 K9]. set (p := fun x => _ && _).
  split; [split|]; cbn [nodes enrollments credentials]; try done.
  - by rewrite keys_update_where.
  - intros x y [x' [Hx ->]]%update_elem [y' [Hy ->]]%update_elem. cbn beta. intros Hr1 Hr2 Hw Hs.
    assert (x' = y') as ->; [|done]. destruct (p x'), (p y'); by apply K2.
  - intros x c' [x' [Hx ->]]%update_elem Hc Hid Hr. apply (K9 x'); by destruct (p x').
  - split_and!; [|done..]. apply kept_update; [apply _|]. intros x _ _. unfold same_node. by split_and!.
Qed.

Lemma revoke_ok workspaceID nodeID now db : nodes_ok db -> good db (RevokeNodeInstallation workspaceID nodeID now db).2.
Proof.
  intros Hok. unfold RevokeNodeInstallation. cbv zeta. set (p := fun n => _ && _ && _).
  destruct (affected p _ =? 1); [|by apply good_refl]. cbn [snd].
  destruct Hok as [K1 K2 K3 K4 K5 K6 K7 K8 K9].
  split; [split|]; cbn [nodes enrollments credentials]; try done.
  - by rewrite keys_update_where.
  - intros x y [x' [Hx ->]]%update_elem [y' [Hy ->]]%update_elem. cbn beta. destruct (p x'), (p y'); cbn; try done. by apply K2.
  - by rewrite (proj1 (revoke_keys _ _ _)).
  - by rewrite (proj2 (revoke_keys _ _ _)).
  - by eapply revoke_live.
  - intros n c [x [Hx ->]]%update_elem (c0 & Hc0 & (_ & Hid & _ & _ & Hk) & Hlive)%revoke_elem Hn Hr.
    destruct (CR.RevokedAt c) as [t|] eqn:Hrc; [by eauto|]. destruct (Hlive eq_refl) as [-> Hne].
    rewrite <- Hrc. destruct (p x) eqn:Hp.
    + exfalso. apply Hne. apply andb_true_iff in Hp as [[Hp%bool_decide_eq_true _]%andb_true_iff _]. by rewrite <- Hp.
    + by apply (K9 x).
  - split_and!; [|done|apply revoke_kept]. apply kept_update; [apply _|]. intros x _ _. unfold same_node. by split_and!.
Qed.

Lemma node_step_ok op db : nodes_ok db -> good db (node_step op db).
Proof. destruct op; cbn [node_step]; [apply enroll_ok|apply exchange_ok|apply resolve_ok|apply revoke_ok]. Qed.

Lemma node_run_ok ops db : nodes_ok db -> good db (node_run ops db).
Proof.
  revert db. induction ops as [|op ops IH]; intros db Hok; cbn [node_run fold_left]; [by apply good_refl|].
  destruct (node_step_ok op db Hok) as [Hok' Hl]. destruct (IH _ Hok') as [Hok'' Hl']. split; [done|by etrans].
Qed.

Lemma no_nodes_ok : nodes_ok no_nodes.
Proof. split; cbn; try apply NoDup_nil_2; intros; set_solver. Qed.

(** ** What the tokens give *)
Lemma resolved token now db n : (ResolveNode token now db).1 = Ok n ->
  exists c node, c ∈ credentials db /\ CR.TokenHash c = secretHash token /\ CR.RevokedAt c = None /\ now < CR.ExpiresAt c /\
    node ∈ nodes db /\ NI.ID node = CR.NodeID c /\ NI.RevokedAt node = None /\ n = NI.with_LastSeenAt (Some now) node.
Proof.
  unfold ResolveNode. destruct (token == ""%string); [done|]. destruct (List.find _ _) as [c|] eqn:Hc; [|done].
  destruct (node_by_id _ _) as [node|] eqn:Hn; [|done]. destruct (NI.RevokedAt node != None) eqn:Hr; [done|]. intros [= <-].
  apply find_elem in Hc as [Hc [[Hh%bool_decide_eq_true Hl%bool_decide_eq_true]%andb_true_iff He%Z.ltb_lt]%andb_true_iff].
  apply node_by_id_elem in Hn as [Hn Hid]. apply negb_false_iff, bool_decide_eq_true in Hr. by exists c, node.
Qed.

Lemma resolve_error token now db e : (ResolveNode token now db).1 = Err e -> e = ErrUnauthorized.
Proof.
  unfold ResolveNode. destruct (token == ""%string); [by intros [= <-]|]. destruct (List.find _ _) as [c|]; [|by intros [= <-]].
  destruct (node_by_id _ _) as [node|]; [|by intros [= <-]]. destruct (_ != _); [by intros [= <-]|done].
Qed.

(** A revoked credential, an exchanged enrollment and a revoked node stay what they are. *)
Definition dead_token (db : node_db) (token : string) : Prop :=
  exists c, c ∈ credentials db /\ CR.TokenHash c = secretHash token /\ is_Some (CR.RevokedAt c).
Definition used_up (db : node_db) (enrollmentID : string) : Prop :=
  exists e, e ∈ enrollments db /\ ER.ID e = enrollmentID /\ is_Some (ER.ConsumedAt e).
Definition dead_node (db : node_db) (nodeID : string) : Prop :=
  exists n, n ∈ nodes db /\ NI.ID n = nodeID /\ is_Some (NI.RevokedAt n).

Lemma dead_token_later db db' token : nodes_later db db' -> dead_token db token -> dead_token db' token.
Proof.
  intros (_ & _ & Hl) (c & Hc & Hh & Hr). destruct (Hl c Hc) as (c' & Hc' & _ & _ & Hh' & _ & Hr').
  exists c'. split_and!; [done|congruence|auto].
Qed.
Lemma used_up_later db db' id : nodes_later db db' -> used_up db id -> used_up db' id.
Proof.
  intros (_ & Hl & _) (e & He & Hid & Hc). destruct (Hl e He) as (e' & He' & Hid' & _ & Hc').
  exists e'. split_and!; [done|congruence|auto].
Qed.
Lemma dead_node_later db db' id : nodes_later db db' -> dead_node db id -> dead_node db' id.
Proof.
  intros (Hl & _ & _) (n & Hn & Hid & Hr). destruct (Hl n Hn) as (n' & Hn' & Hid' & _ & _ & _ & Hr').
  exists n'. split_and!; [done|congruence|auto].
Qed.

Lemma dead_token_unresolved db token now : nodes_ok db -> dead_token db token -> (ResolveNode token now db).1 = Err ErrUnauthorized.
Proof.
  intros Hok (c & Hc & Hh & Hr). destruct (ResolveNode token now db).1 as [n|e] eqn:He; [|by rewrite (resolve_error _ _ _ _ He)].
  exfalso. apply resolved in He as (c' & _ & Hc' & Hh' & Hr' & _). rewrite (key_unique CR.TokenHash (credentials db) c c') in Hr.
  - rewrite Hr' in Hr. by apply is_Some_None in Hr.
  - apply Hok.
  - done.
  - done.
  - congruence.
Qed.

Lemma used_up_unauthorized db enrollmentID token credentialID nodeToken now :
  nodes_ok db -> used_up db enrollmentID -> (ExchangeNodeEnrollment credentialID nodeToken enrollmentID token now db).1 = Err ErrUnauthorized.
Proof.
  intros Hok (e & He & Hid & Hc). unfold ExchangeNodeEnrollment. destruct ((enrollmentID == "")%string || _); [done|].
  destruct (List.find _ _) as [e'|] eqn:Hf; [|done]. apply find_elem in Hf as [He' [[Hid'%bool_decide_eq_true _]%andb_true_iff _]%andb_true_iff].
  rewrite (key_unique ER.ID (enrollments db) e' e) by (first [apply Hok|done|congruence]). destruct (node_by_id _ _) as [n|]; [|done].
  destruct (ER.ConsumedAt e) eqn:Hce; [done|by apply is_Some_None in Hc].
Qed.

Lemma dead_node_unresolved db nodeID token now n : nodes_ok db -> dead_node db nodeID -> (ResolveNode token now db).1 = Ok n -> NI.ID n <> nodeID.
Proof.
  intros Hok (x & Hx & Hid & Hr) (c & node & _ & _ & _ & _ & Hn & _ & Hl & ->)%resolved Hid'. cbn in Hid'.
  rewrite (key_unique NI.ID (nodes db) x node) in Hr by (first [apply Hok|done|congruence]). rewrite Hl in Hr. by apply is_Some_None in Hr.
Qed.

(** A successful exchange, and what it leaves. *)
Lemma exchanged credentialID nodeToken enrollmentID token now db cred db' :
  nodes_ok db -> ExchangeNodeEnrollment credentialID nodeToken enrollmentID token now db = (Ok cred, db') ->
  used_up db' enrollmentID /\
  (forall t c, c ∈ credentials db -> CR.NodeID c = NI.ID (NodeCredential.Node cred) -> CR.TokenHash c = secretHash t -> dead_token db' t).
Proof.
  intros Hok. unfold ExchangeNodeEnrollment. destruct ((enrollmentID == "")%string || _); [done|].
  destruct (List.find _ _) as [e|] eqn:Hf; [|done]. apply find_elem in Hf as [He [[Hid%bool_decide_eq_true _]%andb_true_iff _]%andb_true_iff].
  destruct (node_by_id _ _) as [node|] eqn:Hn; [|done]. destruct ((ER.ConsumedAt e != None) || _) eqn:Hc; [done|]. cbv zeta.
  apply orb_false_iff in Hc as [Hc%negb_false_iff _].
  destruct (existsb _ _) eqn:Hex; [done|]. intros [= <- <-]. cbn [NodeCredential.Node]. split.
  - eexists. split; [by apply (elem_update _ _ _ e)|]. cbn beta. by rewrite Hid, Hc, bool_decide_true.
  - intros t c Hcin Hcn Hh. set (p := fun x => (CR.NodeID x == NI.ID node) && (CR.RevokedAt x == None)).
    exists (if p c then CR.with_RevokedAt (Some now) c else c). split_and!.
    + apply elem_of_app. left. by apply elem_update.
    + by destruct (p c).
    + unfold p. rewrite Hcn, bool_decide_true by done. cbn [andb]. by destruct (CR.RevokedAt c) eqn:E; cbn; rewrite ?E.
Qed.

Lemma node_revoked workspaceID nodeID now db db' : RevokeNodeInstallation workspaceID nodeID now db = (Ok tt, db') -> dead_node db' nodeID.
Proof.
  unfold RevokeNodeInstallation. cbv zeta. set (p := fun n => _ && _ && _). destruct (affected p _ =? 1) eqn:Ha; [|done].
  intros [= <-]. destruct (affected_exists p (nodes db)) as (n & Hn & Hp); [lia|].
  eexists. split; [by apply (elem_update p _ _ n)|]. rewrite Hp. split; [|done]. cbn.
  by apply andb_true_iff in Hp as [[Hp%bool_decide_eq_true _]%andb_true_iff _].
Qed.
