(* ===== verification/Agents.v ===== *)
(** * Agents of the control plane (internal/controlplane/store.go, agent_permissions.go, agent_workers.go,
    agent_pairing.go, approval_capability_store.go)

    The installations of agents, their sessions and refresh credentials, and the
    devices authorized to become one; and the pairings: an owner's invitation, the
    device an agent claims for it, and the owner's approval; and the links an agent
    asks for so that a person approves one Change.  A transaction is one atomic step.  The
    clock is the sequence of the times it tells, read in turn, and the random
    source the sequence of the texts it gives. *)

From S2P Require Import Prelude Tables GoStrings Digest Documents ControlDocuments Rows Calls Enrollment.
#[local] Open Scope Z_scope.

Module IN := Installation.
Module AS := AgentSession.
Module SR := session_row.
Module CD := credential_row.
Module DV := device_row.
Module CP := capability_row.
Module PR := pairing_row.

(** ** The tables *)
Record agent_db : Type := AgentDb {
  memberships : gmap (string * string) string;
  agent_authority : gmap string Authority.Authority;
  change_records : gmap (string * string * string) change_row.change_row;
  installations : list IN.Installation;
  sessions : list SR.session_row;
  refresh_credentials : list CD.credential_row;
  devices : list DV.device_row;
  pairings : list pairing_row.pairing_row;
  capabilities : list CP.capability_row;
  (* the installation of a workspace's hosted agent, by workspace and account *)
  operator_grants : gmap (string * string) string
}.
Definition with_agent_authority v db :=
  AgentDb db.(memberships) v db.(change_records) db.(installations) db.(sessions) db.(refresh_credentials) db.(devices) db.(pairings) db.(capabilities) db.(operator_grants).
Definition with_installations v db :=
  AgentDb db.(memberships) db.(agent_authority) db.(change_records) v db.(sessions) db.(refresh_credentials) db.(devices) db.(pairings) db.(capabilities) db.(operator_grants).
Definition with_sessions v db :=
  AgentDb db.(memberships) db.(agent_authority) db.(change_records) db.(installations) v db.(refresh_credentials) db.(devices) db.(pairings) db.(capabilities) db.(operator_grants).
Definition with_credentials v db :=
  AgentDb db.(memberships) db.(agent_authority) db.(change_records) db.(installations) db.(sessions) v db.(devices) db.(pairings) db.(capabilities) db.(operator_grants).
Definition with_devices v db :=
  AgentDb db.(memberships) db.(agent_authority) db.(change_records) db.(installations) db.(sessions) db.(refresh_credentials) v db.(pairings) db.(capabilities) db.(operator_grants).
Definition with_pairings v db :=
  AgentDb db.(memberships) db.(agent_authority) db.(change_records) db.(installations) db.(sessions) db.(refresh_credentials) db.(devices) v db.(capabilities) db.(operator_grants).
Definition with_capabilities v db :=
  AgentDb db.(memberships) db.(agent_authority) db.(change_records) db.(installations) db.(sessions) db.(refresh_credentials) db.(devices) db.(pairings) v db.(operator_grants).

Definition with_operator_grants v db :=
  AgentDb db.(memberships) db.(agent_authority) db.(change_records) db.(installations) db.(sessions) db.(refresh_credentials) db.(devices) db.(pairings)
    db.(capabilities) v.

Definition ErrDevicePending : error := Errorf "device authorization pending".
Definition ErrDeviceDenied : error := Errorf "device authorization denied".
Definition ErrDeviceExpired : error := Errorf "device authorization expired".

Definition clock : Type := nat -> Z.
Definition after (n : nat) (c : clock) : clock := fun k => c (n + k)%nat.
Definition random : Type := nat -> string.
Definition newSecret (prefix drawn : string) : string := prefix +:+ drawn.
Definition Store_newID (prefix drawn : string) : string := prefix +:+ drawn.

(** ** What the queries ask *)
Definition unexpired (now : Z) (expires : option Z) : bool := match expires with None => true | Some t => now <? t end.
Definition live_installation (now : Z) (i : IN.Installation) : bool := (IN.RevokedAt i == None) && unexpired now (IN.ExpiresAt i).
Definition live_session (now : Z) (s : AS.AgentSession) : bool := (AS.EndedAt s == None) && (now <? AS.ExpiresAt s).
Definition session_by_id (id : string) (l : list SR.session_row) : option SR.session_row := List.find (fun r => AS.ID (SR.Session r) == id) l.
(** A worker's parent must live too. *)
Definition live_parent (now : Z) (s : AS.AgentSession) (l : list SR.session_row) : bool :=
  (AS.ParentSessionID s == EmptyString) ||
  existsb (fun r => (AS.ID (SR.Session r) == AS.ParentSessionID s) && live_session now (SR.Session r)) l.

Definition Membership (accountID workspaceID : string) (db : agent_db) : result string :=
  one_row ErrForbidden (memberships db !! (accountID, workspaceID)).
Definition installationByID (id : string) (db : agent_db) : result IN.Installation :=
  one_row ErrNotFound (List.find (fun i => IN.ID i == id) (installations db)).
Definition owner (accountID workspaceID : string) (db : agent_db) : bool := memberships db !! (accountID, workspaceID) == Some "owner"%string.

(** [unicode.IsControl], on the UTF-8 of a string: no byte of a longer encoding
    is 0xC2, so 0xC2 always starts a character. *)
Fixpoint has_control (s : string) : bool :=
  match s with
  | EmptyString => false
  | String c rest =>
      (byte_of c <? 32) || (byte_of c =? 127) ||
      match rest with
      | String c' _ => (byte_of c =? 194) && (128 <=? byte_of c') && (byte_of c' <=? 159)
      | EmptyString => false
      end || has_control rest
  end.
Definition validAgentLabel (value : string) (maximum : Z) : bool :=
  (value != EmptyString) && (slen value <=? maximum) && negb (has_control value).
Definition validatedClientInstance (value : string) : result string :=
  let value := TrimSpace value in
  if validAgentLabel value 200 then Ok value
  else Err (Errorf "clientInstance must identify this conversation or process and be at most 200 characters").

(** ** Tokens *)
Definition no_later (t : Z) (limit : option Z) : Z := match limit with Some l => if l <? t then l else t | None => t end.

Definition issueAgentTokens (r : random) (c : clock) (installation : IN.Installation) (clientInstance familyID : string)
    (parentID : string) (db : agent_db) : result (TokenPair * agent_db) :=
  _ ← reject_if (negb (live_installation (c 0%nat) installation)) ErrUnauthorized;
  let credentialID := Store_newID "acr_" (r 0%nat) in
  let familyID := if familyID == EmptyString then credentialID else familyID in
  let refresh := newSecret "cr_" (r 1%nat) in
  let sessionID := Store_newID "ass_" (r 2%nat) in
  let access := newSecret "ca_" (r 3%nat) in
  let now := c 1%nat in
  let refreshExpiry := no_later (now + 90 * 24 * 60 * Minute) (IN.ExpiresAt installation) in
  let sessionExpiry := no_later (now + 15 * Minute) (IN.ExpiresAt installation) in
  _ ← reject_if (existsb (fun x => (CD.ID x == credentialID) || (CD.RefreshHash x == secretHash refresh)) (refresh_credentials db))
        unique_violation;
  _ ← reject_if (existsb (fun x => (AS.ID (SR.Session x) == sessionID) || (SR.AccessHash x == secretHash access)) (sessions db))
        unique_violation;
  let session := AS.mk EmptyString EmptyString false sessionID (IN.ID installation) clientInstance now now sessionExpiry None in
  let credential := CD.mk credentialID (IN.ID installation) (secretHash refresh) familyID parentID now refreshExpiry None None in
  Ok (TokenPair.mk access "Bearer" (Z.quot (sessionExpiry - now) Second) refresh installation session,
      with_sessions (sessions db ++ [SR.mk session (secretHash access) (Some credentialID)])
        (with_credentials (refresh_credentials db ++ [credential]) db)).

Definition end_session (now : Z) (x : SR.session_row) : SR.session_row :=
  SR.with_Session (AS.with_EndedAt (coalesce now (AS.EndedAt (SR.Session x))) (SR.Session x)) x.
Definition revoke_credential (now : Z) (x : CD.credential_row) : CD.credential_row := CD.with_RevokedAt (coalesce now (CD.RevokedAt x)) x.

(** A credential presented again: its whole family is ended, and that is committed. *)
Definition in_family (familyID : string) (l : list CD.credential_row) (x : SR.session_row) : bool :=
  existsb (fun c => (SR.CredentialID x == Some (CD.ID c)) && (CD.FamilyID c == familyID)) l.
Definition end_family (familyID : string) (now : Z) (db : agent_db) : agent_db :=
  with_sessions (update_where (in_family familyID (refresh_credentials db)) (end_session now) (sessions db))
    (with_credentials (update_where (fun x => CD.FamilyID x == familyID) (revoke_credential now) (refresh_credentials db)) db).

Definition rotate_credential (credentialID : string) (now : Z) (db : agent_db) : agent_db :=
  with_sessions (update_where (fun x => SR.CredentialID x == Some credentialID) (end_session now) (sessions db))
    (with_credentials (update_where (fun x => CD.ID x == credentialID)
       (fun x => CD.with_RevokedAt (Some now) (CD.with_RotatedAt (Some now) x)) (refresh_credentials db)) db).

Definition refreshAgentOnce (r : random) (c : clock) (refreshToken clientInstance : string) (db : agent_db) : result TokenPair * agent_db :=
  match List.find (fun x => CD.RefreshHash x == secretHash refreshToken) (refresh_credentials db) with
  | None => (Err ErrUnauthorized, db)
  | Some credential =>
      let now := c 0%nat in
      if CD.RotatedAt credential != None then (Err ErrUnauthorized, end_family (CD.FamilyID credential) now db)
      else
        tx (_ ← reject_if ((CD.RevokedAt credential != None) || negb (now <? CD.ExpiresAt credential)) ErrUnauthorized;
            installation ← one_row ErrUnauthorized (List.find (fun i => IN.ID i == CD.InstallationID credential) (installations db));
            _ ← reject_if (IN.RevokedAt installation != None) ErrUnauthorized;
            issueAgentTokens r (after 1 c) installation clientInstance (CD.FamilyID credential) (CD.ID credential)
              (rotate_credential (CD.ID credential) now db)) db
  end.

(** An attempt that fails to serialize changes nothing; [contended n] of the
    four attempts do. *)
Definition RefreshAgent (contended : nat) (r : random) (c : clock) (refreshToken clientInstance : string) (db : agent_db)
    : result TokenPair * agent_db :=
  match validatedClientInstance clientInstance with
  | Err e => (Err e, db)
  | Ok clientInstance =>
      if (contended <? 4)%nat then refreshAgentOnce r c refreshToken clientInstance db
      else (Err (Errorf "refresh credential transaction remained contended"), db)
  end.

(** ** Devices *)
Section Devices.
Context `{Unicode}.

Definition BeginDeviceAuthorization (r : random) (now : Z) (name harness : string) (authority : Authority) (publicURL : string) (db : agent_db)
    : result DeviceAuthorization * agent_db :=
  let name := TrimSpace name in
  let harness := TrimSpace harness in
  tx (_ ← reject_if (negb (validAgentLabel name 120) || negb (validAgentLabel harness 60)) (Errorf "agent name and harness are required");
      let authority := if Authority.ApplyMode authority == EmptyString
                       then Authority.mk (Authority.Inspect authority) (Authority.Draft authority) "human-approval-required" else authority in
      _ ← reject_if (Authority.ApplyMode authority != "human-approval-required")
            (Errorf "only human-approval-required apply authority is supported");
      let id := Store_newID "dev_" (r 0%nat) in
      let deviceCode := newSecret "cdc_" (r 1%nat) in
      let userCode := r 2%nat in
      _ ← reject_if (existsb (fun d => (DV.ID d == id) || (DV.DeviceHash d == secretHash deviceCode) || (DV.UserCode d == userCode)) (devices db))
            unique_violation;
      let d := DV.mk id (secretHash deviceCode) userCode name harness authority EmptyString EmptyString None now (now + 10 * Minute) None None None in
      Ok (DeviceAuthorization.mk deviceCode userCode (TrimRight publicURL "/" +:+ "/onboarding/authorize?code=" +:+ userCode) (now + 10 * Minute) 2,
          with_devices (devices db ++ [d]) db)) db.

Definition code_is (code : string) (d : DV.device_row) : bool := DV.UserCode d == ToUpper (TrimSpace code).
Definition DeviceByUserCode (code : string) (db : agent_db) : result DV.device_row := one_row ErrNotFound (List.find (code_is code) (devices db)).

Definition paired (d : DV.device_row) (db : agent_db) : bool :=
  existsb (fun p => PR.DeviceID p == Some (DV.ID d)) (pairings db).
Definition authorize_device (workspaceID accountID installationID : string) (now : Z) (d : DV.device_row) : DV.device_row :=
  DV.mk (DV.ID d) (DV.DeviceHash d) (DV.UserCode d) (DV.Name d) (DV.Harness d) (DV.Authority_ d) workspaceID accountID (Some installationID)
    (DV.CreatedAt d) (DV.ExpiresAt d) (Some now) (DV.ExchangedAt d) (DV.DeniedAt d).
(** The statements an approval ends with. *)
Definition install_agent (installation : IN.Installation) (accountID deviceID : string) (now : Z) (db : agent_db) : result (IN.Installation * agent_db) :=
  _ ← reject_if (existsb (fun i => IN.ID i == IN.ID installation) (installations db)) unique_violation;
  Ok (installation,
      with_devices (update_where (fun d => DV.ID d == deviceID)
          (authorize_device (IN.WorkspaceID installation) accountID (IN.ID installation) now) (devices db))
        (with_installations (installations db ++ [installation]) db)).

Definition ApproveDevice (r : random) (c : clock) (code accountID workspaceID : string) (db : agent_db) : result IN.Installation * agent_db :=
  tx (role ← Membership accountID workspaceID db;
      _ ← reject_if (role != "owner") ErrForbidden;
      d ← one_row ErrNotFound (List.find (code_is code) (devices db));
      _ ← reject_if (paired d db) ErrForbidden;
      _ ← reject_if (DV.ExpiresAt d <? c 0%nat) ErrDeviceExpired;
      _ ← reject_if (DV.DeniedAt d != None) ErrDeviceDenied;
      _ ← reject_if (DV.AuthorizedAt d != None) ErrConflict;
      let now := c 1%nat in
      install_agent (IN.mk false 0 None (Store_newID "agt_" (r 0%nat)) workspaceID (DV.Name d) (DV.Harness d) (DV.Authority_ d) accountID now None None)
        accountID (DV.ID d) now db) db.

Definition DenyDevice (now : Z) (code accountID : string) (db : agent_db) : result unit * agent_db :=
  let p d := code_is code d && (DV.AuthorizedAt d == None) && (DV.DeniedAt d == None) && (now <? DV.ExpiresAt d) && negb (paired d db) in
  if affected p (devices db) =? 1
  then (Ok tt, with_devices (update_where p (fun d => DV.with_DeniedAt (Some now) (DV.with_AuthorizedBy accountID d)) (devices db)) db)
  else (Err ErrConflict, db).

Definition ExchangeDevice (r : random) (c : clock) (deviceCode clientInstance : string) (db : agent_db) : result TokenPair * agent_db :=
  tx (clientInstance ← validatedClientInstance clientInstance;
      d ← one_row ErrUnauthorized (List.find (fun d => DV.DeviceHash d == secretHash deviceCode) (devices db));
      _ ← reject_if (DV.ExpiresAt d <? c 0%nat) ErrDeviceExpired;
      _ ← reject_if (DV.DeniedAt d != None) ErrDeviceDenied;
      _ ← reject_if (DV.AuthorizedAt d == None) ErrDevicePending;
      installationID ← one_row ErrDevicePending (DV.InstallationID d);
      _ ← reject_if (DV.ExchangedAt d != None) ErrConflict;
      installation ← installationByID installationID db;
      '(tokens, db) ← issueAgentTokens r (after 1 c) installation clientInstance EmptyString EmptyString db;
      Ok (tokens, with_devices (update_where (fun x => DV.ID x == DV.ID d) (DV.with_ExchangedAt (Some (c 3%nat))) (devices db)) db)) db.
End Devices.

(** ** Acting as an agent *)
(** A worker may draft only what its installation may and it was made for, and is never automatic. *)
Definition worker_authority (a : Authority) (workerDraft : bool) : Authority :=
  let draft := Authority.Draft a && workerDraft in
  Authority.mk (Authority.Inspect a) draft
    (if negb draft then "never"%string
     else if Authority.ApplyMode a == "automatic" then "human-approval-required"%string else Authority.ApplyMode a).

(** The notes of when an agent was last seen are statements of their own, whose failure is ignored. *)
Definition note_seen (now : Z) (sessionID installationID : string) (db : agent_db) : agent_db :=
  with_installations (update_where (fun i => IN.ID i == installationID) (IN.with_LastSeenAt (Some now)) (installations db))
    (with_sessions (update_where (fun r => AS.ID (SR.Session r) == sessionID)
       (fun r => SR.with_Session (AS.with_LastSeenAt now (SR.Session r)) r) (sessions db)) db).

Definition resolvable (hash : list Z) (now : Z) (db : agent_db) (r : SR.session_row) : bool :=
  (SR.AccessHash r == hash) && live_session now (SR.Session r) && live_parent now (SR.Session r) (sessions db) &&
  existsb (fun i => (IN.ID i == AS.InstallationID (SR.Session r)) && live_installation now i) (installations db).

Definition ResolveAgent (c : clock) (accessToken : string) (db : agent_db) : result Principal * agent_db :=
  tx (row ← one_row ErrUnauthorized (List.find (resolvable (secretHash accessToken) (c 0%nat) db) (sessions db));
      let session := SR.Session row in
      installation ← one_row ErrUnauthorized (List.find (fun i => IN.ID i == AS.InstallationID session) (installations db));
      let installation := if AS.ParentSessionID session != EmptyString
        then IN.with_Authority_ (worker_authority (IN.Authority_ installation) (AS.WorkerDraft session)) installation else installation in
      let now := c 1%nat in
      let principal session installation :=
        Principal.mk (ActorRef.mk "agent" (IN.ID installation) (AS.ID session) (IN.Name installation)) None (Some installation) (Some session)
          (IN.WorkspaceID installation) EmptyString in
      if (IN.LastSeenAt installation == None) || (AS.LastSeenAt session <? now - 30 * Second)
      then Ok (principal (AS.with_LastSeenAt now session) (IN.with_LastSeenAt (Some now) installation),
               note_seen now (AS.ID session) (IN.ID installation) db)
      else Ok (principal session installation, db)) db.

(** A worker cannot inherit the orchestrator's right to authorize deployments. *)
Definition agentCanApply (p : Principal) : bool :=
  match Principal.Installation_ p, Principal.Session p with
  | Some i, Some s =>
      (AS.ParentSessionID s == EmptyString) && Authority.Inspect (IN.Authority_ i) && Authority.Draft (IN.Authority_ i) &&
      (Authority.ApplyMode (IN.Authority_ i) == "automatic")
  | _, _ => false
  end.

(** ** Lists *)
Definition installed_le (a b : IN.Installation) : Prop := IN.CreatedAt a <= IN.CreatedAt b.
#[export] Instance installed_le_dec : RelDecision installed_le.
Proof. intros a b. unfold installed_le. apply _. Defined.
Definition active_session (now : Z) (db : agent_db) (i : IN.Installation) (r : SR.session_row) : bool :=
  (AS.InstallationID (SR.Session r) == IN.ID i) && live_session now (SR.Session r) && live_installation now i &&
  live_parent now (SR.Session r) (sessions db).
Definition ListInstallations (workspaceID : string) (now : Z) (db : agent_db) : list IN.Installation :=
  (fun i => IN.with_ActiveSessions (affected (active_session now db i) (sessions db)) i) <$>
  merge_sort installed_le (List.filter (fun i => IN.WorkspaceID i == workspaceID) (installations db)).

Definition session_le (a b : AS.AgentSession) : Prop := AS.CreatedAt a <= AS.CreatedAt b.
#[export] Instance session_le_dec : RelDecision session_le.
Proof. intros a b. unfold session_le. apply _. Defined.
Definition working (installationID : string) (now : Z) (db : agent_db) (s : AS.AgentSession) : bool :=
  (AS.InstallationID s == installationID) && live_session now s && (AS.ParentSessionID s != EmptyString) && live_parent now s (sessions db).
Definition AgentWorkers (installationID : string) (now : Z) (db : agent_db) : list AS.AgentSession :=
  take 100 (merge_sort session_le (List.filter (working installationID now db) (SR.Session <$> sessions db))).

(** ** Revoking *)
Definition pending_capability (installationID : string) (x : CP.capability_row) : bool :=
  (CP.RequestedByInstallation x == installationID) && (CP.ConsumedAt x == None) && (CP.RevokedAt x == None).
Definition revoke_capabilities (p : CP.capability_row -> bool) (now : Z) (db : agent_db) : agent_db :=
  with_capabilities (update_where p (CP.with_RevokedAt (Some now)) (capabilities db)) db.

Definition RevokeInstallation (now : Z) (workspaceID id : string) (db : agent_db) : result unit * agent_db :=
  let p i := (IN.ID i == id) && (IN.WorkspaceID i == workspaceID) && (IN.RevokedAt i == None) in
  if affected p (installations db) =? 1 then
    (Ok tt,
     with_installations (update_where p (IN.with_RevokedAt (Some now)) (installations db))
       (with_credentials (update_where (fun x => (CD.InstallationID x == id) && (CD.RevokedAt x == None)) (CD.with_RevokedAt (Some now)) (refresh_credentials db))
          (with_sessions (update_where (fun r => (AS.InstallationID (SR.Session r) == id) && (AS.EndedAt (SR.Session r) == None))
                            (fun r => SR.with_Session (AS.with_EndedAt (Some now) (SR.Session r)) r) (sessions db))
             (revoke_capabilities (pending_capability id) now db))))
  else (Err ErrNotFound, db).

Definition revokeInstallationTx (c : clock) (id : string) (db : agent_db) : agent_db :=
  with_sessions (update_where (fun r => AS.InstallationID (SR.Session r) == id) (end_session (c 3%nat)) (sessions db))
    (with_credentials (update_where (fun x => CD.InstallationID x == id) (revoke_credential (c 2%nat)) (refresh_credentials db))
       (revoke_capabilities (pending_capability id) (c 1%nat)
          (with_installations (update_where (fun i => IN.ID i == id)
             (fun i => IN.with_RevokedAt (coalesce (c 0%nat) (IN.RevokedAt i)) i) (installations db)) db))).

Definition DisconnectAgent (c : clock) (p : Principal) (db : agent_db) : result unit * agent_db :=
  match Principal.Installation_ p, Principal.Session p with
  | Some i, Some s =>
      if (IN.ExpiresAt i != None) && (AS.ParentSessionID s == EmptyString) then (Ok tt, revokeInstallationTx c (IN.ID i) db)
      else (Ok tt, with_sessions (update_where (fun r => (AS.ID (SR.Session r) == AS.ID s) || (AS.ParentSessionID (SR.Session r) == AS.ID s))
                                    (end_session (c 0%nat)) (sessions db)) db)
  | _, _ => (Err ErrForbidden, db)
  end.

(** What the deletion of an account does to the agents it installed; their
    creator is unset with it. *)
Definition created_by (accountID : string) (db : agent_db) (installationID : string) : bool :=
  existsb (fun i => (IN.ID i == installationID) && (IN.CreatedBy i == accountID)) (installations db).
Definition without_creator (i : IN.Installation) : IN.Installation :=
  IN.mk (IN.UseWorkspaceAuthority i) (IN.ActiveSessions i) (IN.ExpiresAt i) (IN.ID i) (IN.WorkspaceID i) (IN.Name i) (IN.Harness i) (IN.Authority_ i)
    EmptyString (IN.CreatedAt i) (IN.LastSeenAt i) (IN.RevokedAt i).
Definition revokeAccountAgents (now : Z) (accountID : string) (db : agent_db) : agent_db :=
  with_installations (update_where (fun i => IN.CreatedBy i == accountID)
      (fun i => without_creator (IN.with_RevokedAt (coalesce now (IN.RevokedAt i)) i)) (installations db))
    (with_credentials (update_where (fun x => created_by accountID db (CD.InstallationID x)) (revoke_credential now) (refresh_credentials db))
       (with_sessions (update_where (fun r => created_by accountID db (AS.InstallationID (SR.Session r))) (end_session now) (sessions db))
          (revoke_capabilities (fun x => created_by accountID db (CP.RequestedByInstallation x) && (CP.ConsumedAt x == None) &&
             (CP.RevokedAt x == None)) now db))).

(** ** The hosted agent *)
(** A person's hosted agent in a workspace, installed at its first run; the run
    acts in a session nobody holds a token of. *)
Definition hosted_installation (r : random) (now : Z) (accountID workspaceID role : string) (db : agent_db) : result (string * agent_db) :=
  match operator_grants db !! (workspaceID, accountID) with
  | Some id => Ok (id, db)
  | None =>
      let id := Store_newID "agt_" (r 0%nat) in
      _ ← reject_if (existsb (fun i => IN.ID i == id) (installations db)) unique_violation;
      let i := IN.mk false 0 None id workspaceID "Canter" "canter-hosted" (Authority.mk true (role != "viewer") "human-approval-required")
                 accountID now None None in
      Ok (id, with_operator_grants (<[(workspaceID, accountID) := id]> (operator_grants db)) (with_installations (installations db ++ [i]) db))
  end.
Definition operatorPrincipal (r : random) (c : clock) (accountID workspaceID runID : string) (db : agent_db) : result Principal * agent_db :=
  tx (role ← Membership accountID workspaceID db;
      _ ← one_row no_rows (agent_authority db !! workspaceID);
      '(id, db) ← hosted_installation r (c 0%nat) accountID workspaceID role db;
      installation ← installationByID id db;
      _ ← reject_if (IN.RevokedAt installation != None) (WrapfBefore ErrForbidden ": the Canter agent's access has been revoked");
      let authority := IN.Authority_ installation in
      _ ← reject_if (negb (Authority.Inspect authority)) ErrForbidden;
      let installation := IN.with_Authority_ (Authority.mk (Authority.Inspect authority) (Authority.Draft authority && (role != "viewer"))
                            (Authority.ApplyMode authority)) installation in
      let sessionID := Store_newID "ass_" (r 1%nat) in
      let hash := secretHash (Store_newID "unused_" (r 2%nat)) in
      let session seen := AS.mk EmptyString EmptyString false sessionID id runID (c 1%nat) seen (c 2%nat + 15 * Minute) None in
      _ ← reject_if (existsb (fun x => (AS.ID (SR.Session x) == sessionID) || (SR.AccessHash x == hash)) (sessions db)) unique_violation;
      Ok (Principal.mk (ActorRef.mk "agent" id sessionID EmptyString) None (Some installation) (Some (session zero_time)) workspaceID EmptyString,
          with_sessions (sessions db ++ [SR.mk (session (c 1%nat)) hash None]) db)) db.
(** At the end of the run. *)
Definition endOperatorSession (now : Z) (sessionID : string) (db : agent_db) : agent_db :=
  with_sessions (update_where (fun r => AS.ID (SR.Session r) == sessionID)
    (fun r => SR.with_Session (AS.with_EndedAt (Some now) (SR.Session r)) r) (sessions db)) db.

(** ** What an agent may do *)
Definition validateAgentAuthority (authority : Authority) : result unit :=
  if negb (Authority.Inspect authority) then Err (Errorf "workspace read access is required")
  else if negb (Authority.Draft authority) && (Authority.ApplyMode authority != "never")
  then Err (Errorf "read-only access cannot apply changes")
  else if bool_decide (Authority.ApplyMode authority ∈ ["never"; "human-approval-required"; "automatic"]%string) then Ok tt
  else Err (Errorf "unsupported apply mode").

Definition adjustable (now : Z) (i : IN.Installation) : bool := (IN.Harness i != "canter-hosted") && live_installation now i.
(** Old approval links do not outlive a change of the grant they come from. *)
Definition UpdateAgentAuthority (c : clock) (accountID workspaceID id : string) (authority : Authority) (useDefault : bool) (db : agent_db)
    : result IN.Installation * agent_db :=
  tx (_ ← (if useDefault then Ok tt else validateAgentAuthority authority);
      _ ← reject_if (negb (owner accountID workspaceID db)) ErrForbidden;
      defaults ← one_row no_rows (agent_authority db !! workspaceID);
      let authority := if useDefault then defaults else authority in
      let p i := (IN.ID i == id) && (IN.WorkspaceID i == workspaceID) && adjustable (c 0%nat) i in
      _ ← reject_if (affected p (installations db) =? 0) ErrNotFound;
      let db := revoke_capabilities (pending_capability id) (c 1%nat)
                  (with_installations (update_where p (fun i => IN.with_UseWorkspaceAuthority useDefault (IN.with_Authority_ authority i)) (installations db)) db) in
      installation ← installationByID id db;
      Ok (installation, db)) db.

Definition UpdateWorkspaceAgentAuthority (c : clock) (accountID workspaceID : string) (authority : Authority) (db : agent_db)
    : result unit * agent_db :=
  tx (_ ← validateAgentAuthority authority;
      _ ← reject_if (negb (owner accountID workspaceID db)) ErrForbidden;
      let inherits i := (IN.WorkspaceID i == workspaceID) && IN.UseWorkspaceAuthority i && (IN.Harness i != "canter-hosted") in
      let db := with_agent_authority (alter (fun _ => authority) workspaceID (agent_authority db)) db in
      let db := with_installations (update_where (fun i => inherits i && live_installation (c 0%nat) i) (IN.with_Authority_ authority) (installations db)) db in
      Ok (tt, revoke_capabilities (fun x => existsb (fun i => (IN.ID i == CP.RequestedByInstallation x) && inherits i) (installations db) &&
                (CP.ConsumedAt x == None) && (CP.RevokedAt x == None)) (c 1%nat) db)) db.

(** ** Workers *)
Definition CreateAgentWorker (r : random) (c : clock) (p : Principal) (input : WorkerInput) (db : agent_db) : result WorkerToken * agent_db :=
  tx (match Principal.Installation_ p, Principal.Session p with
      | Some i, Some s =>
          _ ← reject_if ((AS.ParentSessionID s != EmptyString) || negb (Authority.Inspect (IN.Authority_ i)) ||
                         (WorkerInput.Draft input && negb (Authority.Draft (IN.Authority_ i)))) ErrForbidden;
          _ ← reject_if (negb (validAgentLabel (WorkerInput.Name input) 120)) (Errorf "worker name is required");
          instance ← validatedClientInstance (WorkerInput.ClientInstance input);
          row ← one_row ErrUnauthorized (session_by_id (AS.ID s) (sessions db));
          installation ← one_row ErrUnauthorized (List.find (fun i => IN.ID i == AS.InstallationID (SR.Session row)) (installations db));
          _ ← reject_if (negb (live_session (c 0%nat) (SR.Session row) && live_installation (c 0%nat) installation)) ErrUnauthorized;
          let authority := IN.Authority_ installation in
          _ ← reject_if (negb (Authority.Inspect authority) || (WorkerInput.Draft input && negb (Authority.Draft authority))) ErrForbidden;
          let id := Store_newID "ass_" (r 0%nat) in
          let token := newSecret "ca_" (r 1%nat) in
          let expiry := no_later (AS.ExpiresAt (SR.Session row)) (Some (c 1%nat + 60 * Minute)) in
          let session created seen := AS.mk (AS.ID s) (WorkerInput.Name input) (WorkerInput.Draft input) id (IN.ID i) instance created seen expiry None in
          _ ← reject_if (existsb (fun x => (AS.ID (SR.Session x) == id) || (SR.AccessHash x == secretHash token)) (sessions db)) unique_violation;
          Ok (WorkerToken.mk token "Bearer" expiry (session (c 2%nat) (c 3%nat)),
              with_sessions (sessions db ++ [SR.mk (session (c 4%nat) (c 4%nat)) (secretHash token) None]) db)
      | _, _ => Err ErrForbidden
      end) db.

(** ** Pairings: they carry no authority themselves *)
Definition CreateAgentPairing (r : random) (now : Z) (accountID workspaceID : string) (db : agent_db) : result AgentPairing * agent_db :=
  tx (_ ← reject_if (negb (owner accountID workspaceID db)) ErrForbidden;
      let id := Store_newID "pair_" (r 0%nat) in
      let token := newSecret "cp_" (r 1%nat) in
      _ ← reject_if (existsb (fun p => (PR.ID p == id) || (PR.TokenHash p == secretHash token)) (pairings db)) unique_violation;
      Ok (AgentPairing.mk id workspaceID "waiting" token EmptyString EmptyString EmptyString (now + 10 * Minute),
          with_pairings (pairings db ++ [PR.mk id workspaceID accountID (secretHash token) None now (now + 10 * Minute) None]) db)) db.

(** The [CASE] of the query: the pairing, the device it has, the installation that device became. *)
Definition pairing_status (now : Z) (p : PR.pairing_row) (d : option DV.device_row) (i : option IN.Installation) : string :=
  if PR.CancelledAt p != None then "cancelled"
  else if match i with Some i => (IN.RevokedAt i != None) || negb (unexpired now (IN.ExpiresAt i)) | None => false end then "disconnected"
  else if match d with Some d => DV.ExchangedAt d != None | None => false end then "connected"
  else if PR.ExpiresAt p <=? now then "expired"
  else if match d with Some d => DV.AuthorizedAt d != None | None => false end then "approved"
  else if PR.DeviceID p != None then "ready" else "waiting".

Definition device_of (p : PR.pairing_row) (db : agent_db) : option DV.device_row :=
  List.find (fun d => PR.DeviceID p == Some (DV.ID d)) (devices db).
Definition installation_of (d : option DV.device_row) (db : agent_db) : option IN.Installation :=
  d ← d; List.find (fun i => DV.InstallationID d == Some (IN.ID i)) (installations db).
Definition Store_AgentPairing (id accountID : string) (now : Z) (db : agent_db) : result AgentPairing :=
  p ← one_row ErrNotFound (List.find (fun p => (PR.ID p == id) && (PR.CreatedBy p == accountID) && owner accountID (PR.WorkspaceID p) db) (pairings db));
  let d := device_of p db in
  Ok (AgentPairing.mk (PR.ID p) (PR.WorkspaceID p) (pairing_status now p d (installation_of d db)) EmptyString
        (from_option DV.Name EmptyString d) (from_option DV.Harness EmptyString d)
        (default EmptyString (d ← d; DV.InstallationID d)) (PR.ExpiresAt p)).

Definition pairing_device (id : string) (hash : list Z) (code name harness : string) (now expires : Z) : DV.device_row :=
  DV.mk id hash code name harness (Authority.mk true true "human-approval-required") EmptyString EmptyString None now expires None None None.

Definition ClaimAgentPairing (r : random) (c : clock) (token name harness publicURL : string) (db : agent_db)
    : result DeviceAuthorization * agent_db :=
  let name := TrimSpace name in
  let harness := TrimSpace harness in
  tx (_ ← reject_if (negb (validAgentLabel name 120) || negb (validAgentLabel harness 60)) (Errorf "agent name and harness are required");
      _ ← reject_if ((128 <? slen token) || negb (HasPrefix token "cp_")) ErrUnauthorized;
      p ← one_row ErrUnauthorized (List.find (fun p => PR.TokenHash p == secretHash token) (pairings db));
      _ ← reject_if (PR.CancelledAt p != None) ErrDeviceDenied;
      _ ← reject_if (PR.ExpiresAt p <=? c 0%nat) ErrDeviceExpired;
      _ ← reject_if (PR.DeviceID p != None) ErrConflict;
      let deviceID := Store_newID "dev_" (r 0%nat) in
      let secret := newSecret "cdc_" (r 1%nat) in
      let code := r 2%nat in
      _ ← reject_if (existsb (fun d => (DV.ID d == deviceID) || (DV.DeviceHash d == secretHash secret) || (DV.UserCode d == code)) (devices db))
            unique_violation;
      Ok (DeviceAuthorization.mk secret code (TrimRight publicURL "/" +:+ "/app") (PR.ExpiresAt p) 2,
          with_pairings (update_where (fun x => PR.ID x == PR.ID p) (PR.with_DeviceID (Some deviceID)) (pairings db))
            (with_devices (devices db ++ [pairing_device deviceID (secretHash secret) code name harness (c 1%nat) (PR.ExpiresAt p)]) db))) db.

Definition ApproveAgentPairing (r : random) (c : clock) (id accountID : string) (remember : bool) (requested : option Authority)
    (db : agent_db) : result IN.Installation * agent_db :=
  tx (_ ← validateAgentAuthority (default (Authority.mk true true "human-approval-required") requested);
      p ← one_row ErrNotFound (List.find (fun p => (PR.ID p == id) && (PR.CreatedBy p == accountID)) (pairings db));
      _ ← reject_if (negb (owner accountID (PR.WorkspaceID p) db)) ErrForbidden;
      defaults ← one_row no_rows (agent_authority db !! PR.WorkspaceID p);
      let authority := default defaults requested in
      _ ← reject_if (PR.CancelledAt p != None) ErrDeviceDenied;
      _ ← reject_if (PR.ExpiresAt p <=? c 0%nat) ErrDeviceExpired;
      deviceID ← one_row ErrDevicePending (PR.DeviceID p);
      d ← one_row no_rows (List.find (fun d => DV.ID d == deviceID) (devices db));
      _ ← reject_if ((DV.AuthorizedAt d != None) || (DV.DeniedAt d != None)) ErrConflict;
      let now := c 1%nat in
      let connectionExpiry := if remember then None else Some (now + 8 * 60 * Minute) in
      install_agent (IN.mk (bool_decide (requested = None)) 0 connectionExpiry (Store_newID "agt_" (r 0%nat)) (PR.WorkspaceID p) (DV.Name d) (DV.Harness d)
                 authority accountID now None None) accountID deviceID now db) db.

Definition CancelAgentPairing (c : clock) (id accountID : string) (db : agent_db) : result unit * agent_db :=
  let p x := (PR.ID x == id) && (PR.CreatedBy x == accountID) in
  tx (x ← one_row ErrNotFound (List.find p (pairings db));
      let db := with_pairings (update_where p (fun x => PR.with_CancelledAt (coalesce (c 0%nat) (PR.CancelledAt x)) x) (pairings db)) db in
      match PR.DeviceID x with
      | None => Ok (tt, db)
      | Some deviceID =>
          d ← one_row no_rows (List.find (fun d => DV.ID d == deviceID) (devices db));
          let db := with_devices (update_where (fun x => DV.ID x == deviceID)
                      (fun x => DV.with_DeniedAt (coalesce (c 1%nat) (DV.DeniedAt x)) x) (devices db)) db in
          Ok (tt, match DV.InstallationID d with
                  | None => db
                  | Some installationID => revokeInstallationTx (after 2 c) installationID db
                  end)
      end) db.

(** ** Links to approve one Change

    An agent asks for a short-lived link; a person who may act in the workspace
    spends it, once, for exactly the Change it was made for. *)
Definition changeApprovalCapabilityLifetime : Z := 10 * Minute.

(** The session is rechecked with its installation and its parent. *)
Definition requesting (now : Z) (sessionID installationID workspaceID : string) (db : agent_db) (r : SR.session_row) (i : IN.Installation) : bool :=
  let s := SR.Session r in
  (AS.ID s == sessionID) && (AS.InstallationID s == installationID) && live_session now s && live_parent now s (sessions db) &&
  (IN.ID i == AS.InstallationID s) && (IN.WorkspaceID i == workspaceID) && live_installation now i.
Definition requesting_installation (now : Z) (sessionID installationID workspaceID : string) (db : agent_db) : option IN.Installation :=
  List.find (fun i => existsb (fun r => requesting now sessionID installationID workspaceID db r i) (sessions db)) (installations db).

Definition same_route (workspaceID systemName changeID installationID : string) (x : CP.capability_row) : bool :=
  (CP.WorkspaceID x == workspaceID) && (CP.SystemName x == systemName) && (CP.ChangeID x == changeID) && pending_capability installationID x.

Definition CreateChangeApprovalCapability (r : random) (now : Z) (workspaceID systemName changeID digest : string) (p : Principal) (publicURL : string)
    (db : agent_db) : result ChangeApprovalCapability * agent_db :=
  tx (match Principal.Installation_ p, Principal.Session p with
      | Some i, Some s =>
          _ ← reject_if ((Principal.WorkspaceID p != workspaceID) || (IN.WorkspaceID i != workspaceID) || (IN.RevokedAt i != None)) ErrForbidden;
          let may_draft (a : Authority) := Authority.Draft a && (Authority.ApplyMode a == "human-approval-required") in
          _ ← reject_if (negb (may_draft (IN.Authority_ i))) ErrForbidden;
          _ ← reject_if (TrimSpace publicURL == EmptyString) (Errorf "public URL is required");
          let id := Store_newID "apr_" (r 0%nat) in
          let token := newSecret "cap_" (r 1%nat) in
          let expires := now + changeApprovalCapabilityLifetime in
          current ← one_row ErrForbidden (requesting_installation now (AS.ID s) (IN.ID i) workspaceID db);
          _ ← reject_if (negb (may_draft (IN.Authority_ current))) ErrForbidden;
          record ← one_row ErrNotFound (change_records db !! (workspaceID, systemName, changeID));
          _ ← reject_if ((change_row.Phase record != "drafted") || (change_row.Digest record != digest) || (slen digest != 64))
                (WrapfBefore ErrConflict ": approval capability must bind the current drafted Change digest");
          let db := revoke_capabilities (same_route workspaceID systemName changeID (IN.ID i)) now db in
          _ ← reject_if (existsb (fun x => (CP.ID x == id) || (CP.TokenHash x == secretHash token)) (capabilities db)) unique_violation;
          Ok (ChangeApprovalCapability.mk id workspaceID systemName changeID digest "authorize-and-apply" i now expires None EmptyString EmptyString
                (TrimRight publicURL "/" +:+ "/approve/change/" +:+ token),
              with_capabilities (capabilities db ++
                [CP.mk id (secretHash token) workspaceID systemName changeID digest (IN.ID i) (AS.ID s) "authorize-and-apply" now expires None
                   EmptyString EmptyString None]) db)
      | _, _ => Err ErrForbidden
      end) db.

(** The installation as the query selects it, without the columns it leaves out. *)
Definition selected_installation (i : IN.Installation) : IN.Installation :=
  IN.mk false 0 None (IN.ID i) (IN.WorkspaceID i) (IN.Name i) (IN.Harness i) (IN.Authority_ i) (IN.CreatedBy i) (IN.CreatedAt i) (IN.LastSeenAt i) (IN.RevokedAt i).

Definition readChangeApprovalCapability (c : clock) (token accountID : string) (db : agent_db)
    : result (ChangeApprovalCapability * Change * string) :=
  x ← one_row ErrNotFound (List.find (fun x => CP.TokenHash x == secretHash token) (capabilities db));
  i ← one_row ErrNotFound (List.find (fun i => (IN.ID i == CP.RequestedByInstallation x) && live_installation (c 0%nat) i) (installations db));
  record ← one_row ErrNotFound (change_records db !! (CP.WorkspaceID x, CP.SystemName x, CP.ChangeID x));
  role ← one_row ErrNotFound (memberships db !! (accountID, CP.WorkspaceID x));
  let capability := ChangeApprovalCapability.mk (CP.ID x) (CP.WorkspaceID x) (CP.SystemName x) (CP.ChangeID x) (CP.Digest x) (CP.Action x)
    (selected_installation i) (CP.CreatedAt x) (CP.ExpiresAt x) (CP.ConsumedAt x) (CP.ConsumedBy x) (CP.ExecutionID x) EmptyString in
  _ ← reject_if ((CP.RevokedAt x != None) || (CP.ConsumedAt x != None) || negb (c 1%nat <? CP.ExpiresAt x)) ErrNotFound;
  _ ← reject_if ((change_row.Phase record != "drafted") || (change_row.Digest record != CP.Digest x))
        (WrapfBefore ErrConflict ": Change no longer matches this approval capability");
  change ← change_row.Document record;
  _ ← reject_if ((Change.ID change != CP.ChangeID x) || (Change.System change != CP.SystemName x) || (Change.Digest change != CP.Digest x))
        (WrapfBefore ErrConflict ": approval capability record is inconsistent");
  Ok (capability, change, role).

Definition ReviewChangeApprovalCapability (c : clock) (token accountID : string) (db : agent_db) : result ChangeApprovalReview :=
  '(capability, change, role) ← readChangeApprovalCapability c token accountID db;
  Ok (ChangeApprovalReview.mk capability change (role != "viewer")).

Definition consume (now : Z) (accountID : string) (x : CP.capability_row) : CP.capability_row :=
  CP.with_ConsumedBy accountID (CP.with_ConsumedAt (Some now) x).

(** The link is spent before the engine is called, and for good. *)
Definition ConsumeChangeApprovalCapability (c : clock) (token accountID : string) (db : agent_db) : result ChangeApprovalReview * agent_db :=
  tx (_ ← one_row ErrNotFound (List.find (fun x => (CP.TokenHash x == secretHash token) &&
             existsb (fun i => (IN.ID i == CP.RequestedByInstallation x) && live_installation (c 0%nat) i) (installations db)) (capabilities db));
      '(capability, change, role) ← readChangeApprovalCapability (after 1 c) token accountID db;
      _ ← reject_if (role == "viewer") ErrForbidden;
      let now := c 3%nat in
      let p x := (CP.ID x == ChangeApprovalCapability.ID capability) && (CP.ConsumedAt x == None) && (CP.RevokedAt x == None) in
      _ ← reject_if (affected p (capabilities db) != 1) ErrNotFound;
      Ok (ChangeApprovalReview.mk
            (ChangeApprovalCapability.with_ConsumedBy accountID (ChangeApprovalCapability.with_ConsumedAt (Some now) capability)) change true,
          with_capabilities (update_where p (consume now accountID) (capabilities db)) db)) db.

Definition RecordChangeApprovalExecution (capabilityID executionID : string) (db : agent_db) : result unit * agent_db :=
  let p x := (CP.ID x == capabilityID) && (CP.ConsumedAt x != None) && (CP.ExecutionID x == EmptyString) in
  if affected p (capabilities db) =? 1 then (Ok tt, with_capabilities (update_where p (CP.with_ExecutionID executionID) (capabilities db)) db)
  else (Err ErrConflict, db).
