(* ===== verification/AgentHistory.v ===== *)
(** * Histories of agents: the transactions in any order

    [agent_step]: one transaction of [Agents], or a change of what
    other parts write (memberships, new workspaces, the records
    of Changes); and the invariant of the tables.  The one thing no step does is
    the deletion of a whole private workspace with all its rows. *)

From S2P Require Import Prelude Tables GoStrings Digest Documents ControlDocuments Rows Calls Enrollment Agents.
#[local] Open Scope Z_scope.

(** A grant that lets an agent apply on its own lets it read and draft. *)
Definition authority_ok (a : Authority) : Prop :=
  Authority.ApplyMode a = "automatic" -> Authority.Inspect a = true /\ Authority.Draft a = true.

Inductive agent_op : Type :=
  (* written elsewhere *)
  | AMember (accountID workspaceID : string) (role : option string)
  | AWorkspace (workspaceID : string) (defaults : Authority)
  | ARecordChange (workspaceID systemName changeID : string) (record : change_row)
  (* store.go *)
  | ABeginDevice (r : random) (now : Z) (name harness : string) (authority : Authority) (publicURL : string)
  | AApproveDevice (r : random) (c : clock) (code accountID workspaceID : string)
  | ADenyDevice (now : Z) (code accountID : string)
  | AExchangeDevice (r : random) (c : clock) (deviceCode clientInstance : string)
  | ARefresh (contended : nat) (r : random) (c : clock) (refreshToken clientInstance : string)
  | AResolve (c : clock) (accessToken : string)
  | ARevoke (now : Z) (workspaceID id : string)
  (* agent_permissions.go, agent_workers.go *)
  | AUpdateAuthority (c : clock) (accountID workspaceID id : string) (authority : Authority) (useDefault : bool)
  | AUpdateDefaults (c : clock) (accountID workspaceID : string) (authority : Authority)
  | AWorker (r : random) (c : clock) (p : Principal) (input : WorkerInput)
  | ADisconnect (c : clock) (p : Principal)
  (* agent_pairing.go *)
  | ACreatePairing (r : random) (now : Z) (accountID workspaceID : string)
  | AClaimPairing (r : random) (c : clock) (token name harness publicURL : string)
  | AApprovePairing (r : random) (c : clock) (id accountID : string) (remember : bool) (requested : option Authority)
  | ACancelPairing (c : clock) (id accountID : string)
  (* approval_capability_store.go *)
  | ACreateCapability (r : random) (now : Z) (workspaceID systemName changeID digest : string) (p : Principal) (publicURL : string)
  | AConsumeCapability (c : clock) (token accountID : string)
  | ARecordExecution (capabilityID executionID : string)
  (* operator_store.go, operator_runtime.go, account_deletion_store.go *)
  | AOperator (r : random) (c : clock) (accountID workspaceID runID : string)
  | AEndOperator (now : Z) (sessionID : string)
  | ADeleteAccount (now : Z) (accountID : string).

Section History.
Context `{Unicode}.

Definition with_written members defaults records db :=
  AgentDb members defaults records db.(installations) db.(sessions) db.(refresh_credentials) db.(devices) db.(pairings) db.(capabilities)
    db.(operator_grants).

Definition agent_step (op : agent_op) (db : agent_db) : agent_db :=
  match op with
  | AMember a w role => with_written (partial_alter (fun _ => role) (a, w) (memberships db)) (agent_authority db) (change_records db) db
  | AWorkspace w defaults => with_written (memberships db) (<[w := defaults]> (agent_authority db)) (change_records db) db
  | ARecordChange w s id record => with_written (memberships db) (agent_authority db) (<[(w, s, id) := record]> (change_records db)) db
  | ABeginDevice r now name harness authority url => (BeginDeviceAuthorization r now name harness authority url db).2
  | AApproveDevice r c code a w => (ApproveDevice r c code a w db).2
  | ADenyDevice now code a => (DenyDevice now code a db).2
  | AExchangeDevice r c code instance => (ExchangeDevice r c code instance db).2
  | ARefresh n r c token instance => (RefreshAgent n r c token instance db).2
  | AResolve c token => (ResolveAgent c token db).2
  | ARevoke now w id => (RevokeInstallation now w id db).2
  | AUpdateAuthority c a w id authority useDefault => (UpdateAgentAuthority c a w id authority useDefault db).2
  | AUpdateDefaults c a w authority => (UpdateWorkspaceAgentAuthority c a w authority db).2
  | AWorker r c p input => (CreateAgentWorker r c p input db).2
  | ADisconnect c p => (DisconnectAgent c p db).2
  | ACreatePairing r now a w => (CreateAgentPairing r now a w db).2
  | AClaimPairing r c token name harness url => (ClaimAgentPairing r c token name harness url db).2
  | AApprovePairing r c id a remember requested => (ApproveAgentPairing r c id a remember requested db).2
  | ACancelPairing c id a => (CancelAgentPairing c id a db).2
  | ACreateCapability r now w s id digest p url => (CreateChangeApprovalCapability r now w s id digest p url db).2
  | AConsumeCapability c token a => (ConsumeChangeApprovalCapability c token a db).2
  | ARecordExecution id execution => (RecordChangeApprovalExecution id execution db).2
  | AOperator r c a w run => (operatorPrincipal r c a w run db).2
  | AEndOperator now id => endOperatorSession now id db
  | ADeleteAccount now a => revokeAccountAgents now a db
  end.

(** What other parts write of workspaces is a grant a workspace may have. *)
Definition agent_op_ok (op : agent_op) : Prop := match op with AWorkspace _ defaults => authority_ok defaults | _ => True end.

(** Oldest first, from any tables. *)
Definition agent_run (ops : list agent_op) (db : agent_db) : agent_db := fold_left (fun db op => agent_step op db) ops db.
End History.

Definition no_agents : agent_db := AgentDb ∅ ∅ ∅ [] [] [] [] [] [] ∅.

(** ** The invariant *)
(** Two unique columns, and what holds of each row. *)
Definition keyed {E K} (k1 : E -> string) (k2 : E -> K) (P : E -> Prop) (l : list E) : Prop :=
  NoDup (k1 <$> l) /\ NoDup (k2 <$> l) /\ Forall P l.
Definition families_ok (l : list CD.credential_row) : Prop := forall c, c ∈ l -> exists c', c' ∈ l /\ CD.ID c' = CD.FamilyID c.

Record agents_ok (db : agent_db) : Prop := {
  ak_defaults : map_Forall (fun _ => authority_ok) (agent_authority db);
  ak_installations : keyed IN.ID IN.ID (fun i => authority_ok (IN.Authority_ i)) (installations db);
  ak_sessions : keyed (fun r => AS.ID (SR.Session r)) SR.AccessHash (fun _ => True) (sessions db);
  ak_credentials : keyed CD.ID CD.RefreshHash (fun x => CD.ID x <> EmptyString) (refresh_credentials db);
  ak_families : families_ok (refresh_credentials db);
  ak_devices : keyed DV.ID DV.DeviceHash (fun d => authority_ok (DV.Authority_ d)) (devices db);
  ak_capabilities : keyed CP.ID CP.TokenHash (fun _ => True) (capabilities db)
}.

(** ** What later transactions leave of a row *)
Definition stays {E V} (column : E -> option V) (x x' : E) : Prop := is_Some (column x) -> is_Some (column x').
Definition same_installation (i i' : IN.Installation) : Prop :=
  IN.ID i' = IN.ID i /\ IN.WorkspaceID i' = IN.WorkspaceID i /\ IN.ExpiresAt i' = IN.ExpiresAt i /\ stays IN.RevokedAt i i'.
Definition same_session (r r' : SR.session_row) : Prop :=
  AS.ID (SR.Session r') = AS.ID (SR.Session r) /\ SR.AccessHash r' = SR.AccessHash r /\ SR.CredentialID r' = SR.CredentialID r /\
  AS.InstallationID (SR.Session r') = AS.InstallationID (SR.Session r) /\ AS.ParentSessionID (SR.Session r') = AS.ParentSessionID (SR.Session r) /\
  stays (fun r => AS.EndedAt (SR.Session r)) r r'.
Definition same_refresh (c c' : CD.credential_row) : Prop :=
  CD.ID c' = CD.ID c /\ CD.RefreshHash c' = CD.RefreshHash c /\ CD.FamilyID c' = CD.FamilyID c /\ CD.InstallationID c' = CD.InstallationID c /\
  stays CD.RotatedAt c c' /\ stays CD.RevokedAt c c'.
Definition same_device (d d' : DV.device_row) : Prop :=
  DV.ID d' = DV.ID d /\ DV.DeviceHash d' = DV.DeviceHash d /\ DV.Authority_ d' = DV.Authority_ d /\ stays DV.ExchangedAt d d' /\ stays DV.DeniedAt d d'.
Definition same_capability (x x' : CP.capability_row) : Prop :=
  CP.ID x' = CP.ID x /\ CP.TokenHash x' = CP.TokenHash x /\ CP.WorkspaceID x' = CP.WorkspaceID x /\ CP.SystemName x' = CP.SystemName x /\
  CP.ChangeID x' = CP.ChangeID x /\ CP.Digest x' = CP.Digest x /\ CP.RequestedByInstallation x' = CP.RequestedByInstallation x /\
  stays CP.ConsumedAt x x' /\ stays CP.RevokedAt x x'.

Record agents_later (db db' : agent_db) : Prop := {
  al_installations : kept same_installation (installations db) (installations db');
  al_sessions : kept same_session (sessions db) (sessions db');
  al_credentials : kept same_refresh (refresh_credentials db) (refresh_credentials db');
  al_devices : kept same_device (devices db) (devices db');
  al_capabilities : kept same_capability (capabilities db) (capabilities db')
}.

(** A family none of whose credentials and sessions is live any more. *)
Record family_ended (db : agent_db) (f : string) : Prop := {
  fe_exists : exists c, c ∈ refresh_credentials db /\ CD.ID c = f;
  fe_credentials c : c ∈ refresh_credentials db -> CD.FamilyID c = f -> is_Some (CD.RevokedAt c);
  fe_sessions r c : r ∈ sessions db -> c ∈ refresh_credentials db -> SR.CredentialID r = Some (CD.ID c) -> CD.FamilyID c = f ->
    is_Some (AS.EndedAt (SR.Session r))
}.
