(* ===== verification/AgentSafety.v ===== *)
(** * The invariant of agents

    Every transaction keeps the invariant of [AgentHistory] and the rows, and an
    ended family of credentials stays ended: first for each kind of statement,
    then for each transaction. *)

From S2P Require Import Prelude Tables GoStrings Digest Documents ControlDocuments Rows Calls Enrollment Agents AgentHistory.
#[local] Open Scope Z_scope.

Section Keyed.
Context {E K : Type} (k1 : E -> string) (k2 : E -> K) (P : E -> Prop).

Lemma keyed_update p f l :
  (forall x, k1 (f x) = k1 x /\ k2 (f x) = k2 x) -> (forall x, P x -> P (f x)) -> keyed k1 k2 P l -> keyed k1 k2 P (update_where p f l).
Proof.
  intros Hk HP (H1 & H2 & H3). unfold keyed. rewrite !keys_update_where by (intros; apply Hk). split_and!; [done..|].
  apply Forall_forall. intros x (y & Hy & ->)%update_elem. eapply Forall_forall in H3; [|exact Hy]. destruct (p y); auto.
Qed.
Lemma keyed_insert x l :
  (forall y, y ∈ l -> k1 y <> k1 x /\ k2 y <> k2 x) -> P x -> keyed k1 k2 P l -> keyed k1 k2 P (l ++ [x]).
Proof.
  intros Hf HP (H1 & H2 & H3). split_and!.
  - apply keys_insert; [done|]. intros y Hy. by apply Hf.
  - apply keys_insert; [done|]. intros y Hy. by apply Hf.
  - apply Forall_app. by split; [|constructor].
Qed.
Lemma keyed_first l x y : keyed k1 k2 P l -> x ∈ l -> y ∈ l -> k1 x = k1 y -> x = y.
Proof. intros (H1 & _). by apply key_unique. Qed.
Lemma keyed_second l x y : keyed k1 k2 P l -> x ∈ l -> y ∈ l -> k2 x = k2 y -> x = y.
Proof. intros (_ & H2 & _). by apply key_unique. Qed.
End Keyed.

(** ** Rows *)
Ltac same_row := intros; repeat split; try done; unfold stays; cbn; by eauto.
#[export] Instance same_installation_pre : PreOrder same_installation.
Proof. split; [same_row|]. intros a b c (?&?&?&?) (?&?&?&?). unfold same_installation, stays in *. split_and!; try congruence. auto. Qed.
#[export] Instance same_session_pre : PreOrder same_session.
Proof. split; [same_row|]. intros a b c (?&?&?&?&?&?) (?&?&?&?&?&?). unfold same_session, stays in *. split_and!; try congruence. auto. Qed.
#[export] Instance same_refresh_pre : PreOrder same_refresh.
Proof. split; [same_row|]. intros a b c (?&?&?&?&?&?) (?&?&?&?&?&?). unfold same_refresh, stays in *. split_and!; try congruence; auto. Qed.
#[export] Instance same_device_pre : PreOrder same_device.
Proof. split; [same_row|]. intros a b c (?&?&?&?&?) (?&?&?&?&?). unfold same_device, stays in *. split_and!; try congruence; auto. Qed.
#[export] Instance same_capability_pre : PreOrder same_capability.
Proof. split; [same_row|]. intros a b c (?&?&?&?&?&?&?&?&?) (?&?&?&?&?&?&?&?&?). unfold same_capability, stays in *. split_and!; try congruence; auto. Qed.

#[export] Instance agents_later_pre : PreOrder agents_later.
Proof.
  split; [intros db; split; reflexivity|]. intros a b c [H1 H2 H3 H4 H5] [K1 K2 K3 K4 K5].
  split; etrans; eassumption.
Qed.

(** ** Statements *)
Record agood (db db' : agent_db) : Prop := {
  ag_ok : agents_ok db -> agents_ok db';
  ag_later : agents_ok db -> agents_later db db';
  ag_ended f : agents_ok db -> family_ended db f -> family_ended db' f
}.
#[export] Instance agood_pre : PreOrder agood.
Proof.
  split; [by intros db; split|]. intros a b c [H1 H2 H3] [K1 K2 K3]. split; [auto| |auto].
  intros Hok. etrans; [by apply H2|by apply K2, H1].
Qed.

(** A statement leaves the tables it does not name alone. *)
Lemma agood_step db0 db db' : agood db0 db -> agood db db' -> agood db0 db'.
Proof. by etrans. Qed.

Section Statements.
Context (db0 db : agent_db) (Hdb : agood db0 db).

Lemma agood_written members defaults records :
  (map_Forall (fun _ => authority_ok) (agent_authority db) -> map_Forall (fun _ => authority_ok) defaults) ->
  agood db0 (with_written members defaults records db).
Proof.
  intros Hd. eapply agood_step; [exact Hdb|]. split; [|done|].
  - intros [K1 K2 K3 K4 K5 K6 K7]. split; auto.
  - intros f _ [F1 F2 F3]. by split.
Qed.

Lemma agood_installations p f l :
  l = update_where p f (installations db) -> (forall x, same_installation x (f x)) ->
  (forall x, authority_ok (IN.Authority_ x) -> authority_ok (IN.Authority_ (f x))) -> agood db0 (with_installations l db).
Proof.
  intros -> Hs Ha. eapply agood_step; [exact Hdb|]. split.
  - intros [K1 K2 K3 K4 K5 K6 K7]. split; cbn; try done. apply keyed_update; [|done..]. intros x. by destruct (Hs x).
  - intros _. split; cbn; try done. apply kept_update; [apply _|]. auto.
  - intros g _ [F1 F2 F3]. by split.
Qed.

Lemma agood_sessions p f l :
  l = update_where p f (sessions db) -> (forall x, same_session x (f x)) -> agood db0 (with_sessions l db).
Proof.
  intros -> Hs. eapply agood_step; [exact Hdb|]. split.
  - intros [K1 K2 K3 K4 K5 K6 K7]. split; cbn; try done. apply keyed_update; [|done..]. intros x. by destruct (Hs x) as (? & ? & _).
  - intros _. split; cbn; try done. apply kept_update; [apply _|]. auto.
  - intros g _ [F1 F2 F3]. split; [done..|]. cbn. intros r c (x & Hx & ->)%update_elem Hc.
    destruct (Hs x) as (_ & _ & Hcred & _ & _ & Hend). destruct (p x); [rewrite Hcred; intros; apply Hend|]; by eapply F3.
Qed.

Lemma agood_credentials p f l :
  l = update_where p f (refresh_credentials db) -> (forall x, same_refresh x (f x)) -> agood db0 (with_credentials l db).
Proof.
  intros -> Hs. eapply agood_step; [exact Hdb|].
  assert (forall x, same_refresh x (if p x then f x else x)) as Hs' by (intros x; by destruct (p x)). split.
  - intros [K1 K2 K3 K4 K5 K6 K7]. split; cbn; try done.
    + apply keyed_update; [|intros x; by destruct (Hs x) as (-> & _)|done]. intros x. by destruct (Hs x) as (? & ? & _).
    + intros c (x & Hx & ->)%update_elem. destruct (K5 x Hx) as (y & Hy & He). exists (if p y then f y else y).
      split; [by apply elem_update|]. destruct (Hs' x) as (_ & _ & -> & _), (Hs' y) as (-> & _). done.
  - intros _. split; cbn; try done. apply kept_update; [apply _|]. auto.
  - intros g _ [(c0 & Hc0 & He) F2 F3]. split; cbn.
    + exists (if p c0 then f c0 else c0). split; [by apply elem_update|]. by destruct (Hs' c0) as (-> & _).
    + intros c (x & Hx & ->)%update_elem. destruct (Hs' x) as (_ & _ & -> & _ & _ & Hr). intros Hf. by apply Hr, F2.
    + intros r c Hr (x & Hx & ->)%update_elem. destruct (Hs' x) as (-> & _ & -> & _). intros. by eapply F3.
Qed.

Lemma agood_devices p f l :
  l = update_where p f (devices db) -> (forall x, same_device x (f x)) -> agood db0 (with_devices l db).
Proof.
  intros -> Hs. eapply agood_step; [exact Hdb|]. split.
  - intros [K1 K2 K3 K4 K5 K6 K7]. split; cbn; try done. apply keyed_update; [|intros x; by destruct (Hs x) as (_ & _ & -> & _)|done].
    intros x. by destruct (Hs x) as (? & ? & _).
  - intros _. split; cbn; try done. apply kept_update; [apply _|]. auto.
  - intros g _ [F1 F2 F3]. by split.
Qed.

Lemma agood_capabilities p f l :
  l = update_where p f (capabilities db) -> (forall x, same_capability x (f x)) -> agood db0 (with_capabilities l db).
Proof.
  intros -> Hs. eapply agood_step; [exact Hdb|]. split.
  - intros [K1 K2 K3 K4 K5 K6 K7]. split; cbn; try done. apply keyed_update; [|done..]. intros x. by destruct (Hs x) as (? & ? & _).
  - intros _. split; cbn; try done. apply kept_update; [apply _|]. auto.
  - intros g _ [F1 F2 F3]. by split.
Qed.

Lemma agood_pairings l : agood db0 (with_pairings l db).
Proof.
  eapply agood_step; [exact Hdb|]. split; [|done|].
  - intros [K1 K2 K3 K4 K5 K6 K7]. by split.
  - intros g _ [F1 F2 F3]. by split.
Qed.

(** *** New rows *)
Lemma fresh_keys {E K} `{EqDecision K} (k1 : E -> string) (k2 : E -> K) v1 v2 l :
  existsb (fun y => (k1 y == v1) || (k2 y == v2)) l = false -> forall y, y ∈ l -> k1 y <> v1 /\ k2 y <> v2.
Proof. intros Hex y Hy. pose proof (existsb_elem _ _ _ Hex Hy) as H. cbn beta in H. by apply orb_false_iff in H as [?%bool_decide_eq_false ?%bool_decide_eq_false]. Qed.

Lemma agood_insert_installation x :
  existsb (fun i => IN.ID i == IN.ID x) (installations db) = false ->
  (agents_ok db0 -> authority_ok (IN.Authority_ x)) -> agood db0 (with_installations (installations db ++ [x]) db).
Proof.
  intros Hex Ha. destruct Hdb as [H1 H2 H3]. split.
  - intros Hok. destruct (H1 Hok) as [K1 K2 K3 K4 K5 K6 K7]. split; cbn; try done. apply keyed_insert; [|auto|done].
    intros y Hy. pose proof (existsb_elem _ _ _ Hex Hy) as H%bool_decide_eq_false. done.
  - intros Hok. etrans; [by apply H2|]. split; cbn; try done. apply kept_insert; apply _.
  - intros g Hok Hg. destruct (H3 g Hok Hg) as [F1 F2 F3]. by split.
Qed.

(** A worker's session has no credential of its own. *)
Lemma agood_insert_worker x :
  existsb (fun r => (AS.ID (SR.Session r) == AS.ID (SR.Session x)) || (SR.AccessHash r == SR.AccessHash x)) (sessions db) = false ->
  SR.CredentialID x = None -> agood db0 (with_sessions (sessions db ++ [x]) db).
Proof.
  intros Hex Hn. eapply agood_step; [exact Hdb|]. split.
  - intros [K1 K2 K3 K4 K5 K6 K7]. split; cbn; try done. apply keyed_insert; [by eapply fresh_keys|done..].
  - intros _. split; cbn; try done. apply kept_insert; apply _.
  - intros g _ [F1 F2 F3]. split; [done..|]. cbn. intros r c [Hr| ->%list_elem_of_singleton]%elem_of_app; [by apply F3|congruence].
Qed.

Lemma agood_insert_device x :
  existsb (fun d => (DV.ID d == DV.ID x) || (DV.DeviceHash d == DV.DeviceHash x) || (DV.UserCode d == DV.UserCode x)) (devices db) = false ->
  authority_ok (DV.Authority_ x) -> agood db0 (with_devices (devices db ++ [x]) db).
Proof.
  intros Hex Ha. eapply agood_step; [exact Hdb|]. split.
  - intros [K1 K2 K3 K4 K5 K6 K7]. split; cbn; try done. apply keyed_insert; [|done..].
    intros y Hy. pose proof (existsb_elem _ _ _ Hex Hy) as [[?%bool_decide_eq_false ?%bool_decide_eq_false]%orb_false_iff _]%orb_false_iff. done.
  - intros _. split; cbn; try done. apply kept_insert; apply _.
  - intros g _ [F1 F2 F3]. by split.
Qed.

Lemma agood_insert_capability x :
  existsb (fun y => (CP.ID y == CP.ID x) || (CP.TokenHash y == CP.TokenHash x)) (capabilities db) = false ->
  agood db0 (with_capabilities (capabilities db ++ [x]) db).
Proof.
  intros Hex. eapply agood_step; [exact Hdb|]. split.
  - intros [K1 K2 K3 K4 K5 K6 K7]. split; cbn; try done. apply keyed_insert; [by eapply fresh_keys|done..].
  - intros _. split; cbn; try done. apply kept_insert; apply _.
  - intros g _ [F1 F2 F3]. by split.
Qed.
End Statements.

(** ** Transactions *)
Lemma one_row_ok {E} e (o : option E) x : one_row e o = Ok x <-> o = Some x.
Proof. destruct o; cbn; split; congruence. Qed.
Ltac rows_inv := repeat (ok_inv; cbv zeta in *; repeat match goal with H : one_row _ _ = Ok _ |- _ => apply one_row_ok in H end).

Lemma agood_tx {A} (r : result (A * agent_db)) db : (forall a db', r = Ok (a, db') -> agood db db') -> agood db (tx r db).2.
Proof. apply tx_spec. reflexivity. Qed.

(** *** Tokens *)
Lemma issue_spec r c installation clientInstance familyID parentID db tokens db' :
  issueAgentTokens r c installation clientInstance familyID parentID db = Ok (tokens, db') ->
  agents_ok db -> (familyID = EmptyString \/ exists c0, c0 ∈ refresh_credentials db /\ CD.ID c0 = familyID) ->
  agents_ok db' /\ agents_later db db' /\ (forall f, family_ended db f -> familyID <> f \/ familyID = EmptyString -> family_ended db' f).
Proof.
  unfold issueAgentTokens. cbv zeta. set (id := Store_newID "acr_" _). set (fam := if familyID == EmptyString then id else familyID). set (credential := CD.mk _ _ _ _ _ _ _ _ _).
  set (session := SR.mk _ _ _). intros Hissue [K1 K2 K3 K4 K5 K6 K7] Hfam. rows_inv. subst.
  match goal with Hc : existsb _ (refresh_credentials _) = false, Hs : existsb _ (sessions _) = false |- _ => rename Hc into Hcred; rename Hs into Hses end.
  pose proof (fresh_keys CD.ID CD.RefreshHash _ _ _ Hcred) as Hc. pose proof (fresh_keys (fun r => AS.ID (SR.Session r)) SR.AccessHash _ _ _ Hses) as Hs.
  split_and!.
  - split; cbn; try done; [by apply keyed_insert..|]. intros y [Hy| ->%list_elem_of_singleton]%elem_of_app.
    + destruct (K5 y Hy) as (z & Hz & Hid). exists z. split; [apply elem_of_app; by left|done].
    + cbn. unfold fam. destruct (familyID == EmptyString) eqn:Ee; bool_inv; [exists credential; split; [apply elem_of_app; right; by left|done]|].
      destruct Hfam as [|(c0 & Hc0 & He)]; [done|]. exists c0. split; [apply elem_of_app; by left|done].
  - split; cbn; try done; apply kept_insert; apply _.
  - intros f [(cf & Hcf & Hid) F2 F3] Hne. assert (fam <> f) as Hf.
    { unfold fam. destruct (familyID == _) eqn:Ee; bool_inv; [|naive_solver]. rewrite <- Hid. by destruct (Hc cf Hcf). }
    assert (forall y, y ∈ refresh_credentials db ++ [credential] -> CD.FamilyID y = f -> y ∈ refresh_credentials db) as Hold.
    { intros y [Hy| ->%list_elem_of_singleton]%elem_of_app Hyf; [done|by destruct Hf]. }
    split; cbn.
    + exists cf. split; [apply elem_of_app; by left|done].
    + intros y Hy Hyf. eapply F2; [by apply Hold|done].
    + intros s y [Hsin| ->%list_elem_of_singleton]%elem_of_app Hy Hcid Hyf; [by apply (F3 s y); [|apply Hold|..]|].
      exfalso. injection Hcid as Hcid. by destruct (Hc y (Hold _ Hy Hyf)).
Qed.

Lemma rotate_good id now db : agood db (rotate_credential id now db).
Proof.
  unfold rotate_credential. eapply agood_sessions; [|reflexivity|same_row]. eapply agood_credentials; [done|reflexivity|same_row].
Qed.

Lemma end_family_good f now db : agood db (end_family f now db).
Proof.
  unfold end_family. eapply agood_sessions; [|reflexivity|same_row]. eapply agood_credentials; [done|reflexivity|same_row].
Qed.

Lemma end_family_ends f now db c :
  agents_ok db -> c ∈ refresh_credentials db -> CD.FamilyID c = f -> family_ended (end_family f now db) f.
Proof.
  intros Hok Hc Hf. destruct (ak_families _ Hok c Hc) as (c' & Hc' & Hid). unfold end_family. split; cbn.
  - eexists. split; [by apply (elem_update _ _ _ c')|]. cbn beta. destruct (CD.FamilyID c' == f); cbn; congruence.
  - intros y (x & Hx & ->)%update_elem. destruct (CD.FamilyID x == f) eqn:E; bool_inv; [cbn; by eauto|done].
  - intros s y (s0 & Hs0 & ->)%update_elem (y0 & Hy0 & ->)%update_elem.
    destruct (in_family f (refresh_credentials db) s0) eqn:E; [cbn; by eauto|]. intros Hid' Hfam. exfalso.
    apply (existsb_elem _ _ _ E) in Hy0. destruct (CD.FamilyID y0 == f) eqn:E'; cbn in Hid', Hfam; [|by bool_inv].
    rewrite Hid', bool_decide_true in Hy0 by done. done.
Qed.

Lemma refresh_once_good r c token instance db : agood db (refreshAgentOnce r c token instance db).2.
Proof.
  unfold refreshAgentOnce. destruct (List.find _ _) as [cred|] eqn:Hf; [|reflexivity]. apply find_elem in Hf as [Hin _]. cbv zeta.
  destruct (CD.RotatedAt cred != None); [apply end_family_good|]. apply tx_spec; [reflexivity|]. intros tokens db' Hbody.
  rows_inv. match goal with H : (_ || _) = false |- _ => rename H into Hrev end. apply orb_false_iff in Hrev as [Hrev _]. bool_inv.
  match goal with H : issueAgentTokens _ _ _ _ _ _ _ = Ok _ |- _ => rename H into Hissue end.
  pose proof (rotate_good (CD.ID cred) (c 0%nat) db) as [R1 R2 R3].
  assert (agents_ok db -> agents_ok db' /\ agents_later (rotate_credential (CD.ID cred) (c 0%nat) db) db' /\
    (forall f, family_ended (rotate_credential (CD.ID cred) (c 0%nat) db) f -> CD.FamilyID cred <> f \/ CD.FamilyID cred = EmptyString -> family_ended db' f)) as Hi.
  { intros Hok. eapply issue_spec; [exact Hissue|by apply R1|]. right. destruct (ak_families _ Hok cred Hin) as (c0 & Hc0 & He).
    destruct (al_credentials _ _ (R2 Hok) c0 Hc0) as (c1 & Hc1 & Hid & _). exists c1. split; [done|congruence]. }
  split.
  - intros Hok. by apply Hi.
  - intros Hok. etrans; [by apply R2|by apply Hi].
  - intros f Hok Hend. apply (proj2 (proj2 (Hi Hok))); [by apply R3|left]. intros He.
    destruct (fe_credentials _ _ Hend cred Hin He) as [t Ht]. congruence.
Qed.

Lemma refresh_good n r c token instance db : agood db (RefreshAgent n r c token instance db).2.
Proof.
  unfold RefreshAgent. destruct (validatedClientInstance instance); [|reflexivity]. destruct (n <? 4)%nat; [apply refresh_once_good|reflexivity].
Qed.

(** *** Grants and revocations *)

(** One statement of a transaction after the other, the last one first. *)
Ltac statement :=
  match goal with
  | |- agood _ (with_sessions _ _) => eapply agood_sessions; [|reflexivity|same_row]
  | |- agood _ (with_credentials _ _) => eapply agood_credentials; [|reflexivity|same_row]
  | |- agood _ (with_devices _ _) => eapply agood_devices; [|reflexivity|same_row]
  | |- agood _ (with_capabilities _ _) => eapply agood_capabilities; [|reflexivity|same_row]
  | |- agood _ (with_pairings _ _) => apply agood_pairings
  | |- agood _ (revoke_capabilities _ _ _) => unfold revoke_capabilities
  | |- agood _ (with_installations _ _) => eapply agood_installations; [|reflexivity|same_row|try done]
  | |- agood ?db ?db => reflexivity
  end.

Lemma revoke_good now w id db : agood db (RevokeInstallation now w id db).2.
Proof. unfold RevokeInstallation. cbv zeta. destruct (affected _ _ =? 1); [|reflexivity]. cbn [snd]. repeat statement. Qed.

Lemma revoke_tx_good c id db0 db : agood db0 db -> agood db0 (revokeInstallationTx c id db).
Proof. intros Hg. unfold revokeInstallationTx. repeat statement. exact Hg. Qed.

Lemma note_seen_good now s i db : agood db (note_seen now s i db).
Proof. unfold note_seen. repeat statement. Qed.

Lemma resolve_good c token db : agood db (ResolveAgent c token db).2.
Proof.
  unfold ResolveAgent. apply agood_tx. intros p db' Hp. rows_inv. destruct (_ || _); rows_inv; subst; [apply note_seen_good|reflexivity].
Qed.

Lemma validated_ok a u : validateAgentAuthority a = Ok u -> authority_ok a.
Proof.
  unfold validateAgentAuthority, authority_ok. intros Hv He. rewrite He in Hv. destruct (Authority.Inspect a); [|done].
  by destruct (Authority.Draft a).
Qed.

(** The invariant may be assumed of the tables before. *)
Lemma agood_assuming db db' : (agents_ok db -> agood db db') -> agood db db'.
Proof. intros Hg. split; [intros Hok; by apply Hg|intros Hok; by apply Hg|intros f Hok; by apply Hg]. Qed.

Lemma update_authority_good c a w id authority useDefault db : agood db (UpdateAgentAuthority c a w id authority useDefault db).2.
Proof.
  unfold UpdateAgentAuthority. apply agood_tx. intros i db' Hi. apply agood_assuming. intros Hok. rows_inv. subst. repeat statement.
  intros ? _. cbn. destruct useDefault; [|by eapply validated_ok]. match goal with H : _ !! _ = Some _ |- _ => exact (ak_defaults _ Hok _ _ H) end.
Qed.

Lemma update_defaults_good c a w authority db : agood db (UpdateWorkspaceAgentAuthority c a w authority db).2.
Proof.
  unfold UpdateWorkspaceAgentAuthority. apply agood_tx. intros u db' Hu. rows_inv. subst.
  match goal with H : validateAgentAuthority _ = _ |- _ => apply validated_ok in H as Ha end. repeat statement.
  apply (agood_written db db); [reflexivity|]. intros Hd k v. rewrite lookup_alter_Some. intros [(-> & v0 & Hv & ->)|[Hk Hv]]; [done|by eapply Hd].
Qed.

Lemma worker_good r c p input db : agood db (CreateAgentWorker r c p input db).2.
Proof.
  unfold CreateAgentWorker. apply agood_tx. intros t db' Ht. destruct (Principal.Installation_ p); [|done]. destruct (Principal.Session p); [|done].
  rows_inv. subst. by apply agood_insert_worker.
Qed.

Lemma disconnect_good c p db : agood db (DisconnectAgent c p db).2.
Proof.
  unfold DisconnectAgent. destruct (Principal.Installation_ p); [|reflexivity]. destruct (Principal.Session p); [|reflexivity].
  destruct ((IN.ExpiresAt i != None) && _); cbn [snd]; [by apply revoke_tx_good|]. repeat statement.
Qed.

(** *** The hosted agent *)
Lemma agood_grants db0 db l : agood db0 db -> agood db0 (with_operator_grants l db).
Proof.
  intros Hdb. eapply agood_step; [exact Hdb|]. split; [|done|].
  - intros [K1 K2 K3 K4 K5 K6 K7]. by split.
  - intros g _ [F1 F2 F3]. by split.
Qed.

Lemma hosted_good r now a w role db id db' : hosted_installation r now a w role db = Ok (id, db') -> agood db db'.
Proof.
  unfold hosted_installation. destruct (operator_grants db !! _); intros Hh; rows_inv; subst; [reflexivity|].
  apply agood_grants. by apply agood_insert_installation.
Qed.

Lemma operator_good r c a w run db : agood db (operatorPrincipal r c a w run db).2.
Proof.
  unfold operatorPrincipal. apply agood_tx. intros p db' Hp. rows_inv.
  match goal with Hh : hosted_installation _ _ _ _ _ _ = Ok ?y |- _ => destruct y as [id db1]; apply hosted_good in Hh end.
  rows_inv. subst. by apply agood_insert_worker.
Qed.

Lemma end_operator_good now id db : agood db (endOperatorSession now id db).
Proof. unfold endOperatorSession. repeat statement. Qed.

Lemma revoke_account_good now a db : agood db (revokeAccountAgents now a db).
Proof. unfold revokeAccountAgents. repeat statement. Qed.

(** *** Links to approve *)
Lemma create_capability_good r now w s id digest p url db : agood db (CreateChangeApprovalCapability r now w s id digest p url db).2.
Proof.
  unfold CreateChangeApprovalCapability. apply agood_tx. intros x db' Hx. destruct (Principal.Installation_ p); [|done].
  destruct (Principal.Session p); [|done]. rows_inv. subst. apply agood_insert_capability; [repeat statement|done].
Qed.

Lemma consume_good c token a db : agood db (ConsumeChangeApprovalCapability c token a db).2.
Proof.
  unfold ConsumeChangeApprovalCapability. apply agood_tx. intros x db' Hx. rows_inv. destruct x1 as [[capability change] role].
  rows_inv. subst. repeat statement.
Qed.

Lemma record_execution_good id execution db : agood db (RecordChangeApprovalExecution id execution db).2.
Proof. unfold RecordChangeApprovalExecution. cbv zeta. destruct (affected _ _ =? 1); [|reflexivity]. cbn [snd]. repeat statement. Qed.

(** *** Devices and pairings *)
Section Unicode.
Context `{Unicode}.

Lemma begin_device_good r now name harness a url db : agood db (BeginDeviceAuthorization r now name harness a url db).2.
Proof.
  unfold BeginDeviceAuthorization. cbv zeta. apply agood_tx. intros d db' Hd. rows_inv. bool_inv. subst.
  apply agood_insert_device; [reflexivity|done|]. cbn. intros He. congruence.
Qed.

Lemma install_good i a d now db0 db x db' :
  install_agent i a d now db = Ok (x, db') -> agood db0 db -> (agents_ok db0 -> authority_ok (IN.Authority_ i)) -> agood db0 db'.
Proof.
  unfold install_agent. intros Hi Hg Ha. rows_inv. subst. statement. by apply agood_insert_installation.
Qed.

Lemma device_authority db d : agents_ok db -> d ∈ devices db -> authority_ok (DV.Authority_ d).
Proof. intros Hok Hd. destruct (ak_devices _ Hok) as (_ & _ & Hall). by eapply Forall_forall in Hall. Qed.

Lemma approve_device_good r c code a w db : agood db (ApproveDevice r c code a w db).2.
Proof.
  unfold ApproveDevice. apply agood_tx. intros i db' Hi. rows_inv.
  match goal with Hf : List.find (code_is _) _ = Some _ |- _ => apply find_elem in Hf as [Hin _] end.
  eapply install_good; [eassumption|reflexivity|]. intros Hok. by apply (device_authority db).
Qed.

Lemma deny_device_good now code a db : agood db (DenyDevice now code a db).2.
Proof. unfold DenyDevice. cbv zeta. destruct (affected _ _ =? 1); [|reflexivity]. cbn [snd]. repeat statement. Qed.

Lemma exchange_device_good r c code instance db : agood db (ExchangeDevice r c code instance db).2.
Proof.
  unfold ExchangeDevice. apply agood_tx. intros tokens db' Ht. rows_inv.
  match goal with Hi : issueAgentTokens _ _ _ _ _ _ _ = Ok ?y, Hk : (let '(_, _) := ?y in _) = _ |- _ => destruct y as [tokens' db1]; rename Hi into Hissue end.
  rows_inv. subst. statement. split; intros.
  - by eapply issue_spec; [exact Hissue|..|left].
  - by eapply issue_spec; [exact Hissue|..|left].
  - eapply issue_spec; [exact Hissue|done|by left|done|by right].
Qed.

Lemma claim_good r c token name harness url db : agood db (ClaimAgentPairing r c token name harness url db).2.
Proof.
  unfold ClaimAgentPairing. cbv zeta. apply agood_tx. intros d db' Hd. rows_inv. subst. statement.
  by apply agood_insert_device.
Qed.

Lemma create_pairing_good r now a w db : agood db (CreateAgentPairing r now a w db).2.
Proof. unfold CreateAgentPairing. apply agood_tx. intros p db' Hp. rows_inv. subst. statement. reflexivity. Qed.

Lemma approve_pairing_good r c id a remember requested db : agood db (ApproveAgentPairing r c id a remember requested db).2.
Proof.
  unfold ApproveAgentPairing. apply agood_tx. intros i db' Hi. rows_inv. eapply install_good; [eassumption|reflexivity|]. cbn. intros Hok.
  destruct requested as [authority|]; cbn in *; [by eapply validated_ok|].
  match goal with Hd : agent_authority _ !! _ = Some _ |- _ => exact (ak_defaults _ Hok _ _ Hd) end.
Qed.

Lemma cancel_good c id a db : agood db (CancelAgentPairing c id a db).2.
Proof.
  unfold CancelAgentPairing. cbv zeta. apply agood_tx. intros u db' Hc. rows_inv. destruct (pairing_row.DeviceID _); rows_inv; subst.
  - destruct (DV.InstallationID _); [apply revoke_tx_good|]; repeat statement.
  - repeat statement.
Qed.

(** ** Histories *)
Lemma agent_step_good op db : agent_op_ok op -> agood db (agent_step op db).
Proof.
  destruct op; cbn [agent_step agent_op_ok]; intros Hop.
  - by apply agood_written.
  - apply agood_written; [reflexivity|]. intros Hd. by apply map_Forall_insert_2.
  - by apply agood_written.
  - apply begin_device_good.
  - apply approve_device_good.
  - apply deny_device_good.
  - apply exchange_device_good.
  - apply refresh_good.
  - apply resolve_good.
  - apply revoke_good.
  - apply update_authority_good.
  - apply update_defaults_good.
  - apply worker_good.
  - apply disconnect_good.
  - apply create_pairing_good.
  - apply claim_good.
  - apply approve_pairing_good.
  - apply cancel_good.
  - apply create_capability_good.
  - apply consume_good.
  - apply record_execution_good.
  - apply operator_good.
  - apply end_operator_good.
  - apply revoke_account_good.
Qed.

Lemma agent_run_good ops db : Forall agent_op_ok ops -> agood db (agent_run ops db).
Proof.
  intros Hops. revert db. induction Hops as [|op ops Hop _ IH]; intros db; cbn [agent_run fold_left]; [reflexivity|].
  eapply agood_step; [by apply agent_step_good|apply IH].
Qed.
End Unicode.

Lemma no_agents_ok : agents_ok no_agents.
Proof. split; cbn; try (split_and!; [apply NoDup_nil_2..|constructor]); [apply map_Forall_empty|]. intros c Hc. set_solver. Qed.
