(* ===== verification/AgentTokens.v ===== *)
(** * What the tokens of agents give

    A token that acts, refreshes, exchanges or approves, taken apart; and what
    ends one for good. *)

From S2P Require Import Prelude Tables GoStrings Digest Documents ControlDocuments Rows Calls Enrollment Agents AgentHistory AgentSafety.
#[local] Open Scope Z_scope.

(** ** Installations and sessions *)
Definition revoked_agent (db : agent_db) (id : string) : Prop := exists i, i ∈ installations db /\ IN.ID i = id /\ is_Some (IN.RevokedAt i).

Lemma installation_unique db i j : agents_ok db -> i ∈ installations db -> j ∈ installations db -> IN.ID i = IN.ID j -> i = j.
Proof. intros Hok. apply (keyed_first _ _ _ _ _ _ (ak_installations _ Hok)). Qed.

Lemma live_installation_spec now i : live_installation now i = true <-> IN.RevokedAt i = None /\ unexpired now (IN.ExpiresAt i) = true.
Proof. unfold live_installation. by rewrite andb_true_iff, bool_decide_eq_true. Qed.
Lemma live_session_spec now s : live_session now s = true <-> AS.EndedAt s = None /\ now < AS.ExpiresAt s.
Proof. unfold live_session. by rewrite andb_true_iff, bool_decide_eq_true, Z.ltb_lt. Qed.

Lemma revoked_not_live db id i now : agents_ok db -> revoked_agent db id -> i ∈ installations db -> live_installation now i = true -> IN.ID i <> id.
Proof.
  intros Hok (j & Hj & Hid & Hr) Hi [Hn _]%live_installation_spec He. rewrite (installation_unique db j i) in Hr by (first [done|congruence]).
  rewrite Hn in Hr. by apply is_Some_None in Hr.
Qed.

Lemma revoked_agent_later db db' id : agents_later db db' -> revoked_agent db id -> revoked_agent db' id.
Proof.
  intros Hl (i & Hi & Hid & Hr). destruct (al_installations _ _ Hl i Hi) as (i' & Hi' & Hid' & _ & _ & Hr').
  exists i'. split_and!; [done|congruence|by apply Hr'].
Qed.

(** The session a token resolves to and its installation, all live. *)
Record lives (token : string) (now : Z) (db : agent_db) (row : SR.session_row) (i : IN.Installation) : Prop := {
  lv_row : row ∈ sessions db;
  lv_hash : SR.AccessHash row = secretHash token;
  lv_session : live_session now (SR.Session row) = true;
  lv_parent : live_parent now (SR.Session row) (sessions db) = true;
  lv_installation : i ∈ installations db;
  lv_id : IN.ID i = AS.InstallationID (SR.Session row);
  lv_live : live_installation now i = true
}.

(** Whom the principal acts as: the installation, with its grant or, for a
    worker, with what a worker has of it. *)
Definition is_worker (row : SR.session_row) : bool := AS.ParentSessionID (SR.Session row) != EmptyString.
Definition grant (row : SR.session_row) (i : IN.Installation) : Authority.Authority :=
  if is_worker row then worker_authority (IN.Authority_ i) (AS.WorkerDraft (SR.Session row)) else IN.Authority_ i.
Record acts_as (p : Principal) (row : SR.session_row) (i : IN.Installation) : Prop := {
  aa_installation : exists i', Principal.Installation_ p = Some i' /\ IN.ID i' = IN.ID i /\ IN.WorkspaceID i' = IN.WorkspaceID i /\
    IN.Authority_ i' = grant row i;
  aa_session : exists s, Principal.Session p = Some s /\ AS.ID s = AS.ID (SR.Session row) /\
    AS.ParentSessionID s = AS.ParentSessionID (SR.Session row);
  aa_workspace : Principal.WorkspaceID p = IN.WorkspaceID i
}.

Lemma resolved_agent c token db p : agents_ok db -> (ResolveAgent c token db).1 = Ok p ->
  exists row i, lives token (c 0%nat) db row i /\ acts_as p row i.
Proof.
  intros Hok Hr. unfold ResolveAgent in Hr. set (body := mbind _ _) in Hr. destruct body as [[p' db']|e] eqn:Hbody; [|done].
  injection Hr as ->. unfold body in Hbody. rows_inv.
  match goal with Hf : List.find (resolvable _ _ _) _ = Some ?x |- _ => rename x into row; apply find_elem in Hf as [Hrow Hres] end.
  match goal with Hf : List.find _ (installations db) = Some ?x |- _ => rename x into i; apply find_elem in Hf as [Hi Hid] end.
  unfold resolvable in Hres. bool_inv.
  match goal with Hx : existsb _ (installations db) = true |- _ => apply existsb_exists in Hx as (j & Hj%list_elem_of_In & Hlive) end. bool_inv.
  assert (j = i) as -> by (apply (installation_unique db); [done..|congruence]).
  exists row, i. split; [by split|].
  match goal with Hk : (if _ then _ else _) = Ok _ |- _ => rename Hk into Hp end.
  assert (IN.Authority_ (if AS.ParentSessionID (SR.Session row) != EmptyString
            then IN.with_Authority_ (worker_authority (IN.Authority_ i) (AS.WorkerDraft (SR.Session row))) i else i) = grant row i) as Hg
    by (unfold grant, is_worker; by destruct (_ != _)).
  destruct (_ || _) in Hp; injection Hp as <- _; split; cbn [Principal.Installation_ Principal.Session Principal.WorkspaceID];
    try (eexists; split; [reflexivity|]); rewrite ?Hg; by destruct (_ != _).
Qed.

Lemma resolve_agent_error c token db e : (ResolveAgent c token db).1 = Err e -> e = ErrUnauthorized.
Proof.
  unfold ResolveAgent. destruct (List.find _ (sessions db)) as [row|]; [|by intros [= <-]]. cbn [one_row mbind result_bind].
  destruct (List.find _ (installations db)) as [i|]; [|by intros [= <-]]. cbn [one_row mbind result_bind]. cbv zeta. by destruct (_ || _).
Qed.

(** ** Refresh credentials *)
Definition credential_of (db : agent_db) (token : string) (x : CD.credential_row) : Prop :=
  x ∈ refresh_credentials db /\ CD.RefreshHash x = secretHash token.
Definition of_family (db : agent_db) (token f : string) : Prop := exists x, credential_of db token x /\ CD.FamilyID x = f.
(** The session of an access token was issued with a credential of the family, or is a worker of such a session. *)
Definition session_of_family (db : agent_db) (f : string) (row : SR.session_row) : Prop :=
  row ∈ sessions db /\ exists x, x ∈ refresh_credentials db /\ SR.CredentialID row = Some (CD.ID x) /\ CD.FamilyID x = f.
Definition access_of_family (db : agent_db) (token f : string) : Prop :=
  exists row root, row ∈ sessions db /\ SR.AccessHash row = secretHash token /\ session_of_family db f root /\
    (row = root \/ (AS.ParentSessionID (SR.Session row) = AS.ID (SR.Session root) /\ AS.ParentSessionID (SR.Session row) <> EmptyString)).

Lemma credential_unique db token x y : agents_ok db -> credential_of db token x -> credential_of db token y -> x = y.
Proof. intros Hok [Hx Hhx] [Hy Hhy]. apply (keyed_second _ _ _ _ _ _ (ak_credentials _ Hok)); [done..|congruence]. Qed.

Lemma of_family_later db db' token f : agents_later db db' -> of_family db token f -> of_family db' token f.
Proof.
  intros Hl (x & [Hx Hh] & Hf). destruct (al_credentials _ _ Hl x Hx) as (x' & Hx' & _ & Hh' & Hf' & _). exists x'.
  split; [split; [done|congruence]|congruence].
Qed.

Lemma session_of_family_later db db' f row : agents_later db db' -> session_of_family db f row ->
  exists row', same_session row row' /\ session_of_family db' f row'.
Proof.
  intros Hl (Hr & x & Hx & Hc & Hf). destruct (al_sessions _ _ Hl row Hr) as (row' & Hr' & Hs).
  destruct (al_credentials _ _ Hl x Hx) as (x' & Hx' & Hid & _ & Hf' & _). exists row'. split; [done|]. split; [done|].
  exists x'. destruct Hs as (_ & _ & Hc' & _). split_and!; [done|congruence|congruence].
Qed.

Lemma access_of_family_later db db' token f : agents_later db db' -> access_of_family db token f -> access_of_family db' token f.
Proof.
  intros Hl (row & root & Hr & Hh & Hroot & Hrel). destruct (session_of_family_later _ _ _ _ Hl Hroot) as (root' & Hs & Hroot').
  destruct Hrel as [->|[Hp Hne]].
  - exists root', root'. destruct Hs as (_ & Hh' & _). split_and!; [apply Hroot'|congruence|done|by left].
  - destruct (al_sessions _ _ Hl row Hr) as (row' & Hr' & (_ & Hh' & _ & _ & Hp' & _)). exists row', root'. destruct Hs as (Hid & _).
    split_and!; [done|congruence|done|right]. split; congruence.
Qed.

(** What is left of a family that was ended: nothing refreshes and nothing acts. *)
Lemma ended_family_refresh db f n r c token instance tokens :
  agents_ok db -> family_ended db f -> of_family db token f -> (RefreshAgent n r c token instance db).1 <> Ok tokens.
Proof.
  intros Hok Hend (x & Hx & Hf). unfold RefreshAgent. destruct (validatedClientInstance instance); [|done]. destruct (n <? 4)%nat; [|done].
  unfold refreshAgentOnce. destruct (List.find _ _) as [y|] eqn:Hy; [|done]. apply find_elem in Hy as [Hy Hh]. bool_inv.
  assert (y = x) as -> by (by apply (credential_unique db token)). cbv zeta.
  destruct (fe_credentials _ _ Hend x (proj1 Hx) Hf) as [t ->]. by destruct (_ != _).
Qed.

Lemma ended_family_access db f c token : agents_ok db -> family_ended db f -> access_of_family db token f ->
  (ResolveAgent c token db).1 = Err ErrUnauthorized.
Proof.
  intros Hok Hend (row & root & Hr & Hh & (Hroot & x & Hx & Hc & Hf) & Hrel).
  destruct (ResolveAgent c token db).1 as [p|e] eqn:He; [|by rewrite (resolve_agent_error _ _ _ _ He)]. exfalso.
  destruct (resolved_agent _ _ _ _ Hok He) as (row' & i & [Hr' Hh' Hs Hp _ _ _] & _).
  assert (row' = row) as -> by (apply (keyed_second _ _ _ _ _ _ (ak_sessions _ Hok)); [done..|congruence]).
  destruct (fe_sessions _ _ Hend root x Hroot Hx Hc Hf) as [t Ht]. apply live_session_spec in Hs as [Hs _]. destruct Hrel as [->|[Hpar Hne]]; [congruence|].
  unfold live_parent in Hp. rewrite bool_decide_false in Hp by done. apply existsb_exists in Hp as (y & Hy%list_elem_of_In & Hlive). bool_inv.
  assert (y = root) as -> by (apply (keyed_first _ _ _ _ _ _ (ak_sessions _ Hok)); [done..|congruence]).
  match goal with Hl : live_session _ _ = true |- _ => apply live_session_spec in Hl as [Hl _] end. congruence.
Qed.

(** A refresh that succeeds. *)
Lemma issued r c installation instance f parent db tokens db' :
  issueAgentTokens r c installation instance f parent db = Ok (tokens, db') ->
  live_installation (c 0%nat) installation = true /\ TokenPair.Installation_ tokens = installation /\
  (f <> EmptyString -> of_family db' (TokenPair.RefreshToken tokens) f /\ access_of_family db' (TokenPair.AccessToken tokens) f).
Proof.
  unfold issueAgentTokens. cbv zeta. set (credential := CD.mk _ _ _ _ _ _ _ _ _). set (session := SR.mk _ _ _).
  intros Hi. rows_inv. bool_inv. subst. split_and!; [done..|]. intros Hf.
  assert (CD.FamilyID credential = f) as Hfam by (cbn; by rewrite bool_decide_false). split.
  - exists credential. split; [|done]. split; [|done]. cbn. apply elem_of_app. right. by left.
  - exists session, session. split_and!; [cbn; apply elem_of_app; right; by left|done| |by left].
    split; [cbn; apply elem_of_app; right; by left|]. exists credential. split_and!; [cbn; apply elem_of_app; right; by left|done|done].
Qed.

Definition spent (db : agent_db) (token : string) : Prop := exists x, credential_of db token x /\ is_Some (CD.RotatedAt x).

Lemma spent_later db db' token : agents_later db db' -> spent db token -> spent db' token.
Proof.
  intros Hl (x & [Hx Hh] & Hr). destruct (al_credentials _ _ Hl x Hx) as (x' & Hx' & _ & Hh' & _ & _ & Hr' & _).
  exists x'. split; [split; [done|congruence]|by apply Hr'].
Qed.

Lemma family_nonempty db x : agents_ok db -> x ∈ refresh_credentials db -> CD.FamilyID x <> EmptyString.
Proof.
  intros Hok Hx. destruct (ak_families _ Hok x Hx) as (y & Hy & <-). destruct (ak_credentials _ Hok) as (_ & _ & Hall).
  by eapply Forall_forall in Hall.
Qed.

Lemma refreshed n r c token instance db tokens db' :
  agents_ok db -> RefreshAgent n r c token instance db = (Ok tokens, db') ->
  spent db' token /\ (exists f, of_family db' token f /\ of_family db' (TokenPair.RefreshToken tokens) f /\
    access_of_family db' (TokenPair.AccessToken tokens) f) /\
  (exists i now, i ∈ installations db /\ live_installation now i = true /\ TokenPair.Installation_ tokens = i).
Proof.
  intros Hok. unfold RefreshAgent. destruct (validatedClientInstance instance) as [inst|]; [|done]. destruct (n <? 4)%nat; [|done].
  unfold refreshAgentOnce. destruct (List.find _ _) as [x|] eqn:Hx; [|done]. apply find_elem in Hx as [Hx Hh]. bool_inv. cbv zeta.
  destruct (CD.RotatedAt x != None); [done|]. intros Htx%tx_committed. rows_inv.
  match goal with Hi : issueAgentTokens _ _ _ _ _ _ _ = Ok _ |- _ => rename Hi into Hissue end.
  match goal with Hi : List.find _ (installations db) = Some ?y |- _ => rename y into i; apply find_elem in Hi as [Hi _] end.
  destruct (rotate_good (CD.ID x) (c 0%nat) db) as [Ok1 Later1 _].
  destruct (issue_spec _ _ _ _ _ _ _ _ _ Hissue (Ok1 Hok)) as (_ & Hl & _).
  { right. destruct (ak_families _ Hok x Hx) as (y & Hy & He). destruct (al_credentials _ _ (Later1 Hok) y Hy) as (y' & Hy' & Hid & _).
    exists y'. split; [done|congruence]. }
  destruct (issued _ _ _ _ _ _ _ _ _ Hissue) as (Hlive & <- & Hnew). destruct (Hnew (family_nonempty _ _ Hok Hx)) as [Hnr Hna].
  assert (spent (rotate_credential (CD.ID x) (c 0%nat) db) token) as Hs.
  { eexists. split; [split; [by apply (elem_update _ _ _ x)|]|]; cbn beta; rewrite bool_decide_true by done; [done|by eauto]. }
  split; [by eapply spent_later|]. split; [|by eauto]. exists (CD.FamilyID x). split; [|done].
  eapply of_family_later; [etrans; [by apply Later1|exact Hl]|]. by exists x.
Qed.

(** A refresh token presented again is refused, and ends its family if the
    transaction runs at all. *)
Lemma replayed n r c token instance db res db' :
  agents_ok db -> spent db token -> RefreshAgent n r c token instance db = (res, db') ->
  is_ok res = false /\
  (is_ok (validatedClientInstance instance) = true -> (n < 4)%nat ->
   res = Err ErrUnauthorized /\ forall f, of_family db token f -> family_ended db' f).
Proof.
  intros Hok (x & Hx & Hr). unfold RefreshAgent. destruct (validatedClientInstance instance) as [inst|]; [|by intros [= <- _]].
  destruct (n <? 4)%nat eqn:Hn; [|intros [= <- _]; apply Nat.ltb_ge in Hn; split; [done|lia]].
  unfold refreshAgentOnce. destruct (List.find _ _) as [y|] eqn:Hy.
  - apply find_elem in Hy as [Hy Hh]. bool_inv. assert (y = x) as -> by (by apply (credential_unique db token)). cbv zeta.
    destruct Hr as [t Hr]. rewrite Hr. intros [= <- <-]. split; [done|]. intros _ _. split; [done|].
    intros f (z & Hz & <-). rewrite (credential_unique db token z x) by done. by apply (end_family_ends _ _ _ x).
  - exfalso. pose proof (find_not _ _ _ Hy (proj1 Hx)) as Hne. cbn beta in Hne. bool_inv. by destruct Hx.
Qed.

(** ** Device codes *)
Definition exchanged_device (db : agent_db) (code : string) : Prop :=
  exists d, d ∈ devices db /\ DV.DeviceHash d = secretHash code /\ is_Some (DV.ExchangedAt d).

Lemma exchanged_device_later db db' code : agents_later db db' -> exchanged_device db code -> exchanged_device db' code.
Proof.
  intros Hl (d & Hd & Hh & He). destruct (al_devices _ _ Hl d Hd) as (d' & Hd' & _ & Hh' & _ & He' & _).
  exists d'. split_and!; [done|congruence|by apply He'].
Qed.

Lemma device_exchanged r c code instance db tokens db' :
  ExchangeDevice r c code instance db = (Ok tokens, db') ->
  exchanged_device db' code /\ exists i now, i ∈ installations db /\ live_installation now i = true /\ TokenPair.Installation_ tokens = i.
Proof.
  unfold ExchangeDevice. intros Htx%tx_committed. rows_inv.
  match goal with Hi : issueAgentTokens _ _ _ _ _ _ _ = Ok ?y, Hk : (let '(_, _) := ?y in _) = _ |- _ => destruct y as [tokens' db1]; rename Hi into Hissue end.
  rows_inv. subst.
  match goal with Hf : List.find _ (devices db) = Some ?y |- _ => rename y into d; apply find_elem in Hf as [Hd Hh] end. bool_inv.
  match goal with Hi : installationByID _ _ = Ok ?y |- _ => rename y into i; apply one_row_ok, find_elem in Hi as [Hi _] end.
  destruct (issued _ _ _ _ _ _ _ _ _ Hissue) as (Hlive & <- & _). split; [|by eauto].
  assert (devices db1 = devices db) as ->.
  { unfold issueAgentTokens in Hissue. cbv zeta in Hissue. rows_inv. by subst. }
  eexists. split; [by apply (elem_update _ _ _ d)|]. cbn beta. by rewrite bool_decide_true.
Qed.

Lemma exchanged_refused r c code instance db tokens :
  agents_ok db -> exchanged_device db code -> (ExchangeDevice r c code instance db).1 <> Ok tokens.
Proof.
  intros Hok (d & Hd & Hh & [t Ht]) He. unfold ExchangeDevice in He. set (body := mbind _ _) in He. destruct body as [[p' db']|e] eqn:Hbody; [|done].
  unfold body in Hbody. rows_inv.
  match goal with Hf : List.find _ (devices db) = Some ?y |- _ => apply find_elem in Hf as [Hd' Hh'] end. bool_inv.
  match goal with Hd' : ?y ∈ devices db |- _ => assert (y = d) as -> by (apply (keyed_second _ _ _ _ _ _ (ak_devices _ Hok)); [done..|congruence]) end.
  congruence.
Qed.

(** ** Links to approve *)
Definition spent_link (db : agent_db) (token : string) : Prop :=
  exists x, x ∈ capabilities db /\ CP.TokenHash x = secretHash token /\ (is_Some (CP.ConsumedAt x) \/ is_Some (CP.RevokedAt x)).

Lemma spent_link_later db db' token : agents_later db db' -> spent_link db token -> spent_link db' token.
Proof.
  intros Hl (x & Hx & Hh & Hs). destruct (al_capabilities _ _ Hl x Hx) as (x' & Hx' & _ & Hh' & _ & _ & _ & _ & _ & Hc & Hr).
  exists x'. split_and!; [done|congruence|]. destruct Hs as [Hs|Hs]; [left; by apply Hc|right; by apply Hr].
Qed.

Lemma link_unique db token x y : agents_ok db -> x ∈ capabilities db -> y ∈ capabilities db ->
  CP.TokenHash x = secretHash token -> CP.TokenHash y = secretHash token -> x = y.
Proof. intros Hok Hx Hy Hhx Hhy. apply (keyed_second _ _ _ _ _ _ (ak_capabilities _ Hok)); [done..|congruence]. Qed.

(** What a link that opens says: whom it was asked by, and the Change as recorded now. *)
Record opens (now : clock) (token accountID : string) (db : agent_db) (x : CP.capability_row) (i : IN.Installation)
    (record : change_row) (role : string) : Prop := {
  op_row : x ∈ capabilities db;
  op_hash : CP.TokenHash x = secretHash token;
  op_fresh : CP.RevokedAt x = None /\ CP.ConsumedAt x = None /\ now 1%nat < CP.ExpiresAt x;
  op_installation : i ∈ installations db /\ IN.ID i = CP.RequestedByInstallation x /\ live_installation (now 0%nat) i = true;
  op_record : change_records db !! (CP.WorkspaceID x, CP.SystemName x, CP.ChangeID x) = Some record;
  op_drafted : change_row.Phase record = "drafted" /\ change_row.Digest record = CP.Digest x;
  op_role : memberships db !! (accountID, CP.WorkspaceID x) = Some role
}.

Lemma link_read c token accountID db capability change role :
  readChangeApprovalCapability c token accountID db = Ok (capability, change, role) ->
  exists x i record, opens c token accountID db x i record role /\
    change_row.Document record = Ok change /\ Change.ID change = CP.ChangeID x /\ Change.System change = CP.SystemName x /\
    Change.Digest change = CP.Digest x /\
    capability = ChangeApprovalCapability.mk (CP.ID x) (CP.WorkspaceID x) (CP.SystemName x) (CP.ChangeID x) (CP.Digest x) (CP.Action x)
      (selected_installation i) (CP.CreatedAt x) (CP.ExpiresAt x) None (CP.ConsumedBy x) (CP.ExecutionID x) EmptyString.
Proof.
  unfold readChangeApprovalCapability. intros Hr. rows_inv.
  match goal with Hf : List.find _ (capabilities db) = Some ?y |- _ => rename y into x; apply find_elem in Hf as [Hx Hh] end.
  match goal with Hf : List.find _ (installations db) = Some ?y |- _ => rename y into i; apply find_elem in Hf as [Hi Hlive] end.
  match goal with Hf : change_records db !! _ = Some ?y |- _ => rename y into record end. bool_inv. subst.
  exists x, i, record. split; [by split|]. split_and!; try done.
  match goal with Hc : CP.ConsumedAt x = None |- _ => by rewrite Hc end.
Qed.

Lemma link_consumed c token accountID db review db' :
  agents_ok db -> ConsumeChangeApprovalCapability c token accountID db = (Ok review, db') ->
  exists x i record role, opens (after 1 c) token accountID db x i record role /\ role <> "viewer"%string /\
    change_row.Document record = Ok (ChangeApprovalReview.Change_ review) /\
    Change.ID (ChangeApprovalReview.Change_ review) = CP.ChangeID x /\ Change.System (ChangeApprovalReview.Change_ review) = CP.SystemName x /\
    Change.Digest (ChangeApprovalReview.Change_ review) = CP.Digest x /\
    ChangeApprovalCapability.ID (ChangeApprovalReview.Capability review) = CP.ID x /\
    ChangeApprovalCapability.ConsumedBy (ChangeApprovalReview.Capability review) = accountID /\
    spent_link db' token.
Proof.
  intros Hok. unfold ConsumeChangeApprovalCapability. intros Htx%tx_committed. rows_inv.
  match goal with Hr : readChangeApprovalCapability _ _ _ _ = Ok ?y |- _ => destruct y as [[capability change] role]; apply link_read in Hr as (lnk & i & record & Ho & Hdoc & H1 & H2 & H3 & ->) end.
  rows_inv. bool_inv. subst. exists lnk, i, record, role. cbn [ChangeApprovalReview.Change_ ChangeApprovalReview.Capability]. split_and!; try done.
  eexists. split; [apply (elem_update _ _ _ lnk), Ho|]. cbn beta. cbn [ChangeApprovalCapability.ID]. destruct (op_fresh _ _ _ _ _ _ _ _ Ho) as (Hr & Hc & _).
  rewrite Hr, Hc, !bool_decide_true by done. cbn. split; [apply Ho|left; by eauto].
Qed.

Lemma spent_refused c token accountID db review :
  agents_ok db -> spent_link db token -> (ConsumeChangeApprovalCapability c token accountID db).1 <> Ok review.
Proof.
  intros Hok (x & Hx & Hh & Hs) Hc. destruct (ConsumeChangeApprovalCapability c token accountID db) as [res db'] eqn:He. cbn in Hc. subst.
  apply link_consumed in He as (y & i & record & role & Ho & _); [|done]. rewrite (link_unique db token x y) in Hs by (first [done|apply Ho]).
  destruct (op_fresh _ _ _ _ _ _ _ _ Ho) as (Hr & Hcons & _). rewrite Hr, Hcons in Hs. by destruct Hs as [?%is_Some_None|?%is_Some_None].
Qed.

(** ** What revokes an installation *)
Inductive revokes (db : agent_db) (id : string) : agent_db -> Prop :=
  | by_owner now workspaceID db' : RevokeInstallation now workspaceID id db = (Ok tt, db') -> revokes db id db'
  (* a temporary agent that disconnects *)
  | by_itself c token p i s c' db' : (ResolveAgent c token db).1 = Ok p -> Principal.Installation_ p = Some i -> IN.ID i = id ->
      IN.ExpiresAt i <> None -> Principal.Session p = Some s -> AS.ParentSessionID s = EmptyString ->
      DisconnectAgent c' p db = (Ok tt, db') -> revokes db id db'
  (* the invitation it came by, cancelled *)
  | by_cancelling c pairing accountID x d db' : List.find (fun x => (PR.ID x == pairing) && (PR.CreatedBy x == accountID)) (pairings db) = Some x ->
      d ∈ devices db -> PR.DeviceID x = Some (DV.ID d) -> DV.InstallationID d = Some id -> (exists i, i ∈ installations db /\ IN.ID i = id) ->
      CancelAgentPairing c pairing accountID db = (Ok tt, db') -> revokes db id db'
  (* the account that installed it, deleted *)
  | by_deletion now accountID i : i ∈ installations db -> IN.ID i = id -> IN.CreatedBy i = accountID ->
      revokes db id (revokeAccountAgents now accountID db).

Lemma revoked_tx c id db : (exists i, i ∈ installations db /\ IN.ID i = id) -> revoked_agent (revokeInstallationTx c id db) id.
Proof.
  intros (i & Hi & Hid). eexists. split; [by apply (elem_update _ _ _ i)|]. cbn beta. rewrite bool_decide_true by done. cbn. by eauto.
Qed.

Lemma revokes_revoked db id db' : agents_ok db -> revokes db id db' -> revoked_agent db' id.
Proof.
  intros Hok Hr.
  destruct Hr as [now ws db' Hr|c token p i s c' db' Hres Hi Hid Hexp Hs Hpar Hd|c pid account x d db' Hf Hd Hdev Hinst Hex Hc|now account i Hi Hid Hby].
  - unfold RevokeInstallation in Hr. cbv zeta in Hr. set (p := fun i => _ && _ && _) in Hr. destruct (affected p _ =? 1) eqn:Ha; [|done].
    injection Hr as <-. destruct (affected_exists p (installations db)) as (i & Hi & Hp); [lia|].
    eexists. split; [by apply (elem_update p _ _ i)|]. rewrite Hp. cbn. unfold p in Hp. bool_inv. split; [done|by eauto].
  - unfold DisconnectAgent in Hd. rewrite Hi, Hs, (bool_decide_false (IN.ExpiresAt i = None)), (bool_decide_true (AS.ParentSessionID s = _)) in Hd by done.
    injection Hd as <-. rewrite Hid. apply revoked_tx. destruct (resolved_agent _ _ _ _ Hok Hres) as (row & j & Hl & [(i' & Hi' & Hid' & _) _ _]).
    exists j. split; [apply Hl|congruence].
  - unfold CancelAgentPairing in Hc. cbv zeta in Hc. apply tx_committed in Hc. rewrite Hf in Hc. cbn [one_row mbind result_bind] in Hc. rewrite Hdev in Hc.
    rows_inv. match goal with Hx : List.find _ (devices _) = Some ?y |- _ => rename y into d'; apply find_elem in Hx as [Hd' Hid'] end. bool_inv.
    assert (d' = d) as -> by (by apply (keyed_first _ _ _ _ _ _ (ak_devices _ Hok))). rewrite Hinst in *. subst. by apply revoked_tx.
  - eexists. split; [by apply (elem_update _ _ _ i)|]. cbn beta. rewrite bool_decide_true by done. cbn. split; [done|]. by eauto.
Qed.

Lemma revokes_good db id db' : revokes db id db' -> agood db db'.
Proof.
  intros [now ws db1 Hr|? ? p ? ? c' db1 ? ? ? ? ? ? Hd|c pid account ? ? db1 ? ? ? ? ? Hc|now account ? _ _ _].
  - pose proof (revoke_good now ws id db) as Hg. by rewrite Hr in Hg.
  - pose proof (disconnect_good c' p db) as Hg. by rewrite Hd in Hg.
  - pose proof (cancel_good c pid account db) as Hg. by rewrite Hc in Hg.
  - apply revoke_account_good.
Qed.

(** ** A link from its creation on *)
#[local] Opaque secretHash.
Definition link_for (db : agent_db) (token ws sys id digest installationID : string) : Prop :=
  exists x, x ∈ capabilities db /\ CP.TokenHash x = secretHash token /\
    (CP.WorkspaceID x, CP.SystemName x, CP.ChangeID x, CP.Digest x) = (ws, sys, id, digest) /\ CP.RequestedByInstallation x = installationID.

Lemma link_for_later db db' token ws sys id digest i : agents_later db db' -> link_for db token ws sys id digest i -> link_for db' token ws sys id digest i.
Proof.
  intros Hl (x & Hx & Hh & Heq & Hi). destruct (al_capabilities _ _ Hl x Hx) as (x' & Hx' & _ & Hh' & H1 & H2 & H3 & H4 & H5 & _).
  exists x'. split_and!; [done|congruence|congruence|congruence].
Qed.

Lemma link_created r now ws sys id digest p url db capability db' :
  CreateChangeApprovalCapability r now ws sys id digest p url db = (Ok capability, db') ->
  exists i record, Principal.Installation_ p = Some i /\ link_for db' (newSecret "cap_" (r 1%nat)) ws sys id digest (IN.ID i) /\
    (exists row j, row ∈ sessions db /\ live_session now (SR.Session row) = true /\ live_parent now (SR.Session row) (sessions db) = true /\
       AS.ID <$> Principal.Session p = Some (AS.ID (SR.Session row)) /\
       j ∈ installations db /\ IN.ID j = IN.ID i /\ IN.WorkspaceID j = ws /\ live_installation now j = true /\
       Authority.Draft (IN.Authority_ j) = true /\ Authority.ApplyMode (IN.Authority_ j) = "human-approval-required") /\
    change_records db !! (ws, sys, id) = Some record /\ change_row.Phase record = "drafted" /\ change_row.Digest record = digest.
Proof.
  unfold CreateChangeApprovalCapability. intros Htx%tx_committed. destruct (Principal.Installation_ p) as [i|]; [|done].
  destruct (Principal.Session p) as [s|]; [|done]. rows_inv. subst.
  match goal with Hf : requesting_installation _ _ _ _ _ = Some ?y |- _ => rename y into j; apply find_elem in Hf as [Hj Hreq] end.
  match goal with Hf : change_records db !! _ = Some ?y |- _ => rename y into record end.
  apply existsb_exists in Hreq as (row & Hrow%list_elem_of_In & Hreq). unfold requesting in Hreq. cbv zeta in Hreq. bool_inv.
  exists i, record. split_and!; try done.
  - eexists. split; [apply elem_of_app; right; apply list_elem_of_singleton; reflexivity|]. by split_and!.
  - exists row, j. split_and!; try done; cbn; congruence.
Qed.

Lemma grant_changed_spends c account ws id authority useDefault db i db' token w s ch d :
  UpdateAgentAuthority c account ws id authority useDefault db = (Ok i, db') -> link_for db token w s ch d id -> spent_link db' token.
Proof.
  unfold UpdateAgentAuthority. intros Htx%tx_committed (x & Hx & Hh & _ & Hi). rows_inv. subst.
  eexists. split; [by apply (elem_update _ _ _ x)|]. cbn beta. destruct (pending_capability (CP.RequestedByInstallation x) x) eqn:Hp.
  - split; [done|right; cbn; by eauto].
  - split; [done|]. unfold pending_capability in Hp. rewrite bool_decide_true in Hp by done. cbn [andb] in Hp.
    destruct (CP.ConsumedAt x); [left; by eauto|]. destruct (CP.RevokedAt x); [right; by eauto|done].
Qed.

(** An installation that takes the grant of its workspace. *)
Definition inherits (workspaceID : string) (i : IN.Installation) : Prop :=
  IN.WorkspaceID i = workspaceID /\ IN.UseWorkspaceAuthority i = true /\ IN.Harness i <> "canter-hosted".
Lemma defaults_changed_spends c account ws authority db db' token w s ch d i :
  UpdateWorkspaceAgentAuthority c account ws authority db = (Ok tt, db') -> i ∈ installations db -> inherits ws i ->
  link_for db token w s ch d (IN.ID i) -> spent_link db' token.
Proof.
  unfold UpdateWorkspaceAgentAuthority. intros Htx%tx_committed Hi (Hw & Huse & Hharness) (x & Hx & Hh & _ & Hby). rows_inv. subst.
  set (p := fun x => _ && _ && _). eexists. split; [by apply (elem_update p _ _ x)|]. cbn beta.
  assert (p x = (CP.ConsumedAt x == None) && (CP.RevokedAt x == None)) as ->.
  { unfold p. rewrite <- andb_assoc. match goal with |- ?e && _ = _ => enough (e = true) as ->; [done|] end. apply existsb_exists.
    eexists. split; [apply list_elem_of_In; by apply (elem_update _ _ _ i)|]. cbn beta.
    destruct (_ && live_installation _ _); cbn; by rewrite Hby, Huse, (bool_decide_false (IN.Harness i = _)), !bool_decide_true by done. }
  destruct (CP.ConsumedAt x) eqn:Ec; [split; [done|left]; cbn; rewrite Ec; by eauto|].
  destruct (CP.RevokedAt x) eqn:Er; [split; [done|right]; cbn; rewrite Er; by eauto|]. split; [done|right; cbn; by eauto].
Qed.
