(* ===== verification/AgentCalls.v ===== *)
(** * What the node agent calls (cmd/canter-node, internal/runtime/driver)

    The agent of a node talks to the gateway ([nodeControl]), starts and stops
    processes, uses the file system and runs commands; its routing table is
    shared with the proxy.  [agent] is its monad: a program that also threads
    the agent's own state, the Go value [*node]. *)

From S2P Require Import Prelude Effects GoStrings Documents Calls.

(** main.go [process]: the pid is of [cmd.Process], set once started. *)
Module process.
Record process : Type := mk { pid : Z; version : string; identity : string; port : Z }.
#[global] Instance process_eq_dec : EqDecision process.
Proof. solve_decision. Defined.
End process.
Abbreviation process := process.process (only parsing).

(** postgres.go [postgresCredentials]. *)
Module postgresCredentials.
Record postgresCredentials : Type := mk { User : string; Password : string; Database : string }.
#[global] Instance postgresCredentials_eq_dec : EqDecision postgresCredentials.
Proof. solve_decision. Defined.
End postgresCredentials.
Abbreviation postgresCredentials := postgresCredentials.postgresCredentials (only parsing).

(** Which case of a [select] of the agent was taken. *)
Inductive agent_wake : Type := AExited (e : string) | ADeadline | AContext (e : error) | ATick.

Inductive agent_call : Type :=
  (* nodeControl *)
  | GSnapshot
  | GArtifact (digest : string)
  | GPutObserved (o : ObservedRelease)
  | GAckControl (id : string)
  | GPutRuntimeActionResult (id : string) (r : RuntimeActionResult)
  (* processes: [Exited] is a non-blocking receive from [done] *)
  | Environ
  | OpenLog (path : string)
  | StartProcess (command : string) (args : list string) (dir : string) (env : list string)
  | Exited (p : process)
  | Signal (p : process) (signal : string)
  | AwaitExit (p : process) (seconds : Z)
  | HealthSelect (p : process)
  | HealthGet (url : string)
  (* the routing table, under its mutex *)
  | SetTargets (targets : list string)
  | Inflight (target : string)
  | DrainSelect
  (* [<-deadline.Done()] with its error, or the pause *)
  | ReadySelect
  (* the clock and the file system *)
  | AgentNow
  | FReadFile (path : string)
  | MkdirAll (path : string) (mode : Z)
  | MkdirTemp (root pattern : string)
  | FWriteFile (path data : string) (mode : Z)
  | RemoveAll (path : string)
  | Rename (old new : string)
  | CreateExclusive (path : string) (mode : Z)
  | CopyN (path : string) (size : Z)
  | CloseFile (path : string)
  (* credentials: [OpenNoFollow] answers [false] when there is no such file *)
  | OpenNoFollow (path : string)
  | OpenDir (path : string)
  | Stat (path : string)
  | ReadCredentials (path : string) (limit : Z)
  | RandBytes (n : Z)
  | CreateTemp (dir pattern : string)
  | Chmod (path : string) (mode : Z)
  | WriteCredentials (path : string) (c : postgresCredentials)
  | SyncFile (path : string)
  | Link (old new : string)
  | RemoveFile (path : string)
  (* commands, with extra environment and standard input *)
  | LookPath (name : string)
  | RunCommand (name : string) (args : list string) (env : list string) (input : string).

Definition agent_answer (c : agent_call) : Type :=
  match c with
  | GSnapshot => result NodeSnapshot
  | GArtifact _ => result string
  | GPutObserved _ | GAckControl _ | GPutRuntimeActionResult _ _ => result unit
  | Environ => list string
  | OpenLog _ => result unit
  | StartProcess _ _ _ _ => result Z
  | Exited _ => option string
  | Signal _ _ | AwaitExit _ _ => unit
  | HealthSelect _ | DrainSelect => agent_wake
  | HealthGet _ => option Z
  | SetTargets _ => unit
  | Inflight _ => Z
  | AgentNow => Z
  | FReadFile _ | MkdirTemp _ _ | CreateTemp _ _ => result string
  | MkdirAll _ _ | FWriteFile _ _ _ | Rename _ _ | CreateExclusive _ _ | CopyN _ _ | CloseFile _
  | Chmod _ _ | WriteCredentials _ _ | SyncFile _ | OpenDir _ => result unit
  | ReadySelect => option error
  | RemoveAll _ | RemoveFile _ => unit
  | OpenNoFollow _ | Link _ _ => result bool
  | Stat _ => result (bool * Z)
  | ReadCredentials _ _ => result (Z * result postgresCredentials)
  | RandBytes _ => result (list Z)
  | LookPath _ => bool
  | RunCommand _ _ _ _ => result string
  end.

Abbreviation aprog := (prog agent_answer).
Abbreviation atrace := (list (event agent_answer)).

Definition ask (c : agent_call) : aprog (agent_answer c) := call c.
Definition agent_now : aprog Z := call AgentNow.

(** main.go [node], without the routing table and what never changes after
    [main]: the drivers and the log mutex. *)
Module node.
Record node : Type := mk {
  system : string;
  publicPort : Z;
  active : list process.process;
  failedIdentity : string;
  restarts : Z;
  lastControl : string;
  hostname : string;
  lastObservedFingerprint : string;
  lastObservedAt : Z;
  serviceBindings : gmap string string;
  services : list ObservedService.ObservedService;
  runtimePlan : RuntimePlan.RuntimePlan;
  nextServiceCheck : Z;
  restartRequested : bool;
  releaseRoot : string
}.
Definition with_active v n := mk n.(system) n.(publicPort) v n.(failedIdentity) n.(restarts) n.(lastControl) n.(hostname)
  n.(lastObservedFingerprint) n.(lastObservedAt) n.(serviceBindings) n.(services) n.(runtimePlan) n.(nextServiceCheck)
  n.(restartRequested) n.(releaseRoot).
Definition with_failedIdentity v n := mk n.(system) n.(publicPort) n.(active) v n.(restarts) n.(lastControl) n.(hostname)
  n.(lastObservedFingerprint) n.(lastObservedAt) n.(serviceBindings) n.(services) n.(runtimePlan) n.(nextServiceCheck)
  n.(restartRequested) n.(releaseRoot).
Definition with_restarts v n := mk n.(system) n.(publicPort) n.(active) n.(failedIdentity) v n.(lastControl) n.(hostname)
  n.(lastObservedFingerprint) n.(lastObservedAt) n.(serviceBindings) n.(services) n.(runtimePlan) n.(nextServiceCheck)
  n.(restartRequested) n.(releaseRoot).
Definition with_lastControl v n := mk n.(system) n.(publicPort) n.(active) n.(failedIdentity) n.(restarts) v n.(hostname)
  n.(lastObservedFingerprint) n.(lastObservedAt) n.(serviceBindings) n.(services) n.(runtimePlan) n.(nextServiceCheck)
  n.(restartRequested) n.(releaseRoot).
Definition with_lastObserved fingerprint at_ n := mk n.(system) n.(publicPort) n.(active) n.(failedIdentity) n.(restarts)
  n.(lastControl) n.(hostname) fingerprint at_ n.(serviceBindings) n.(services) n.(runtimePlan) n.(nextServiceCheck)
  n.(restartRequested) n.(releaseRoot).
Definition with_serviceBindings v n := mk n.(system) n.(publicPort) n.(active) n.(failedIdentity) n.(restarts)
  n.(lastControl) n.(hostname) n.(lastObservedFingerprint) n.(lastObservedAt) v n.(services) n.(runtimePlan)
  n.(nextServiceCheck) n.(restartRequested) n.(releaseRoot).
Definition with_services v n := mk n.(system) n.(publicPort) n.(active) n.(failedIdentity) n.(restarts) n.(lastControl)
  n.(hostname) n.(lastObservedFingerprint) n.(lastObservedAt) n.(serviceBindings) v n.(runtimePlan) n.(nextServiceCheck)
  n.(restartRequested) n.(releaseRoot).
Definition with_runtimePlan v n := mk n.(system) n.(publicPort) n.(active) n.(failedIdentity) n.(restarts) n.(lastControl)
  n.(hostname) n.(lastObservedFingerprint) n.(lastObservedAt) n.(serviceBindings) n.(services) v n.(nextServiceCheck)
  n.(restartRequested) n.(releaseRoot).
Definition with_nextServiceCheck v n := mk n.(system) n.(publicPort) n.(active) n.(failedIdentity) n.(restarts)
  n.(lastControl) n.(hostname) n.(lastObservedFingerprint) n.(lastObservedAt) n.(serviceBindings) n.(services)
  n.(runtimePlan) v n.(restartRequested) n.(releaseRoot).
Definition with_restartRequested v n := mk n.(system) n.(publicPort) n.(active) n.(failedIdentity) n.(restarts)
  n.(lastControl) n.(hostname) n.(lastObservedFingerprint) n.(lastObservedAt) n.(serviceBindings) n.(services)
  n.(runtimePlan) n.(nextServiceCheck) v n.(releaseRoot).
End node.
Abbreviation node := node.node (only parsing).

(** ** The agent's monad *)
Definition agent (A : Type) : Type := node -> aprog (A * node).
#[export] Instance agent_ret : MRet agent := fun A a n => Ret (a, n).
#[export] Instance agent_bind : MBind agent := fun A B f m n => '(a, n') ← (m n : aprog _); f a n'.
Definition run_ask {A} (p : aprog A) : agent A := fun n => a ← p; Ret (a, n).
Definition get : agent node := fun n => Ret (n, n).
Definition modify (f : node -> node) : agent unit := fun n => Ret (tt, f n).

(** [x, err := m; if err != nil { return err }; k(x)]. *)
Definition agent_ok {A B} (m : agent (result A)) (k : A -> agent (result B)) : agent (result B) :=
  r ← m; match r with Ok a => k a | Err e => mret (Err e) end.

(** The rules of [wp] for the agent's own constructors. *)
Section Rules.
Context (rely : atrace -> forall c, agent_answer c -> Prop) (guar : atrace -> agent_call -> Prop).

Lemma wp_agent_bind {A B} (m : agent A) (f : A -> agent B) Q n h :
  wp rely guar (m n) (fun h' r => wp rely guar (f r.1 r.2) Q h') h -> wp rely guar ((m ≫= f) n) Q h.
Proof. intros Hm. apply wp_bind. eapply wp_mono; [exact Hm|]. by intros h' [a n']. Qed.

Lemma wp_run_ask {A} (p : aprog A) Q n h : wp rely guar p (fun h' a => Q h' (a, n)) h -> wp rely guar (run_ask p n) Q h.
Proof. intros Hp. apply wp_bind. eapply wp_mono; [exact Hp|]. done. Qed.

Lemma wp_agent_ok {A B} (m : agent (result A)) (k : A -> agent (result B)) Q n h :
  wp rely guar (m n) (fun h' r => match r.1 with Ok a => wp rely guar (k a r.2) Q h' | Err e => Q h' (Err e, r.2) end) h ->
  wp rely guar (agent_ok m k n) Q h.
Proof. intros Hm. apply wp_agent_bind. eapply wp_mono; [exact Hm|]. by intros h' [[a|e] n']. Qed.
End Rules.
