(* ===== verification/NodeArtifacts.v ===== *)
(** * Artifacts on a node (cmd/canter-node/main.go)

    [extractTarGz] unpacks an artifact under a fresh directory; [materialize]
    keeps one directory per digest.  Decompression and the tar reader are the
    parameter [open_archive]: the headers the reader yields, how the stream
    ends, and what is left of it. *)

From S2P Require Import Prelude Effects GoStrings Digest Documents SandboxSpec Calls Systems Creation Releases AgentCalls.

(** ** Package path *)
(** [acc] is the path so far, last element first. *)
Definition clean_step (rooted : bool) (acc : list string) (segment : string) : list string :=
  if (segment == EmptyString) || (segment == ".") then acc
  else if segment == ".." then
    match acc with
    | [] => if rooted then [] else [".."]
    | last :: acc' => if last == ".." then ".." :: acc else acc'
    end
  else segment :: acc.
Definition Clean (p : string) : string :=
  if p == EmptyString then "."
  else
    let rooted := HasPrefix p "/" in
    let out := rev (fold_left (clean_step rooted) (Split p "/") []) in
    if rooted then "/" +:+ Join out "/" else if out == [] then "." else Join out "/".

(** Up to the last slash. *)
Fixpoint dir_part (p : string) : string :=
  match p with
  | EmptyString => EmptyString
  | String c p' => if contains_byte p "/" then String c (dir_part p') else EmptyString
  end.
Definition Dir (p : string) : string := Clean (dir_part p).
Definition path_Join (a b : string) : string :=
  if (a == EmptyString) && (b == EmptyString) then EmptyString
  else if a == EmptyString then Clean b else Clean (a +:+ "/" +:+ b).

(** [Dir(p)], [Dir(Dir(p))], ... until "." or "/". *)
Fixpoint ancestors (fuel : nat) (p : string) : list string :=
  match fuel with
  | O => []
  | S f => let d := Dir p in if (d == ".") || (d == "/") then [] else d :: ancestors f d
  end.

(** ** Package archive/tar *)
Definition TypeReg : Z := 48.
Definition TypeDir : Z := 53.
Module tar_header.
Record tar_header : Type := mk {
  Name : string; Typeflag : Z; Size : Z; Mode : Z; Uname : string; Gname : string; Linkname : string;
  PAXRecords : gmap string string; Xattrs : gmap string string
}.
End tar_header.
Abbreviation tar_header := tar_header.tar_header (only parsing).

(** What the gzip and tar readers yield: the headers, then the error that ends
    them ([None] is io.EOF), the result of draining the stream after it, whether
    the limit on expanded bytes was reached, and the compressed bytes left. *)
Record archive : Type := Archive {
  a_headers : list tar_header.tar_header;
  a_end : option error;
  a_drain : result unit;
  a_exhausted : bool;
  a_rest : Z
}.

Section NodeArtifacts.
Context `{Unicode} (open_archive : string -> result archive).

Definition maxNodeArtifactBytes : Z := 512 * 2 ^ 20.
Definition maxNodeArtifactEntries : Z := 4096.
Definition maxNodeArtifactPathBytes : Z := 512.
Definition maxNodeArtifactMetadataBytes : Z := 16 * 2 ^ 10.

(** ** Names *)
Definition canonical_name (header : tar_header) : string :=
  if tar_header.Typeflag header =? TypeDir then TrimSuffix (tar_header.Name header) "/" else tar_header.Name header.

Definition check_name (header : tar_header) : result string :=
  let name := tar_header.Name header in
  let unsafe := Errorf ("unsafe artifact path " +:+ Quote name) in
  reject_if ((slen name =? 0) || (maxNodeArtifactPathBytes <? slen name) || Contains name "\") unsafe;;
  let clean := Clean name in
  reject_if ((clean != canonical_name header) || (clean == ".") || (clean == "..") || HasPrefix name "/" ||
             HasPrefix clean "../") unsafe;;
  Ok clean.

(** Neither the entry nor anything above or below it is already there. *)
Definition check_collisions (seen : gmap string Z) (header : tar_header) (clean : string) : result unit :=
  reject_if (bool_decide (is_Some (seen !! clean))) (Errorf ("artifact contains duplicate path " +:+ Quote clean));;
  match List.find (fun ancestor => default 0 (seen !! ancestor) =? TypeReg) (ancestors (String.length clean) clean) with
  | Some ancestor =>
      Err (Errorf ("artifact path " +:+ Quote clean +:+ " descends from regular file " +:+ Quote ancestor))
  | None => Ok tt
  end;;
  if tar_header.Typeflag header =? TypeReg then
    match List.find (fun existing => HasPrefix existing (clean +:+ "/")) (fst <$> map_to_list seen) with
    | Some existing =>
        Err (Errorf ("artifact regular file " +:+ Quote clean +:+ " conflicts with child path " +:+ Quote existing))
    | None => Ok tt
    end
  else Ok tt.

Definition records_bytes (m : gmap string string) : Z :=
  foldr (fun kv n => slen kv.1 + slen kv.2 + n) 0 (map_to_list m).
Definition check_metadata (header : tar_header) (clean : string) : result unit :=
  let pax := tar_header.PAXRecords header in
  let xattrs := tar_header.Xattrs header in
  reject_if ((32 <? Z.of_nat (size pax)) || (32 <? Z.of_nat (size xattrs)))
    (Errorf ("artifact header " +:+ Quote clean +:+ " contains excessive metadata"));;
  let metadataBytes := slen (tar_header.Uname header) + slen (tar_header.Gname header) +
                       slen (tar_header.Linkname header) + records_bytes pax + records_bytes xattrs in
  let mode := tar_header.Mode header in
  reject_if ((maxNodeArtifactMetadataBytes <? metadataBytes) || (mode <? 0) || negb (Z.ldiff mode 511 =? 0) ||
             (tar_header.Size header <? 0))
    (Errorf ("artifact header " +:+ Quote clean +:+ " exceeds safe metadata limits")).

(** ** One entry *)
(** The directory or file itself; answers the new total of file bytes. *)
Definition extract_entry (destination : string) (header : tar_header) (clean : string) (expandedPayload : Z)
    : aprog (result Z) :=
  let path := path_Join destination clean in
  let size := tar_header.Size header in
  if tar_header.Typeflag header =? TypeDir then
    if negb (size =? 0) then Ret (Err (Errorf ("artifact directory " +:+ Quote clean +:+ " declares data")))
    else _ ←! ask (MkdirAll path 488); Ret (Ok expandedPayload)
  else if tar_header.Typeflag header =? TypeReg then
    let expandedPayload := add64 expandedPayload size in
    if maxNodeArtifactBytes <? expandedPayload
    then Ret (Err (Errorf ("artifact expands beyond " +:+ Itoa maxNodeArtifactBytes +:+ " bytes")))
    else
      _ ←! ask (MkdirAll (Dir path) 488);
      _ ←! ask (CreateExclusive path (Z.land (tar_header.Mode header) 488));
      copied ← ask (CopyN path size);
      closed ← ask (CloseFile path);
      match (copied : result unit), (closed : result unit) with
      | Err e, _ => Ret (Err e)
      | Ok _, Err e => Ret (Err e)
      | Ok _, Ok _ => Ret (Ok expandedPayload)
      end
  else Ret (Err (Errorf ("unsupported artifact entry " +:+ Quote (tar_header.Name header)))).

Definition check_entry (entries : Z) (seen : gmap string Z) (header : tar_header) : result string :=
  reject_if (maxNodeArtifactEntries <? entries)
    (Errorf ("artifact contains more than " +:+ Itoa maxNodeArtifactEntries +:+ " entries"));;
  clean ← check_name header;
  check_collisions seen header clean;;
  check_metadata header clean;;
  Ok clean.

Fixpoint extract_entries (destination : string) (headers : list tar_header) (seen : gmap string Z)
    (entries expandedPayload : Z) : aprog (result unit) :=
  match headers with
  | [] => Ret (Ok tt)
  | header :: rest =>
      let entries := entries + 1 in
      clean ←! lift (check_entry entries seen header);
      expandedPayload ←! extract_entry destination header clean expandedPayload;
      extract_entries destination rest (<[clean := tar_header.Typeflag header]> seen) entries expandedPayload
  end.

(** After io.EOF: the gzip member is drained, nothing is left. *)
Definition finish_archive (a : archive) : result unit :=
  match a_end a with
  | Some e => Err e
  | None =>
      match a_drain a with
      | Err e => Err (Wrapf "finish tar.gz artifact: " e)
      | Ok _ =>
          reject_if (a_exhausted a)
            (Errorf ("artifact expanded stream exceeds " +:+ Itoa maxNodeArtifactBytes +:+ " bytes"));;
          reject_if (negb (a_rest a =? 0)) (Errorf "artifact contains trailing compressed data")
      end
  end.

Definition extractTarGz (artifact destination : string) : aprog (result unit) :=
  archive ←! lift (open_archive artifact);
  _ ←! extract_entries destination (a_headers archive) ∅ 0 0;
  lift (finish_archive archive).

(** ** The cache of unpacked releases *)
Definition releaseCacheDir (root : string) (manifest : ReleaseManifest) : string :=
  path_Join root (ReleaseManifest.Version manifest +:+ "-" +:+ ReleaseManifest.ArtifactSHA manifest).

Definition valid_digest (manifest : ReleaseManifest) : result unit :=
  let sha := ReleaseManifest.ArtifactSHA manifest in
  reject_if (negb (slen sha =? 64) || (sha != ToLower sha)) (Errorf "desired release has an invalid artifact digest");;
  reject_if (match hex_decode sha with
             | None => true
             | Some digest => (length digest != 32%nat) || (ReleaseManifest.Version manifest != take_bytes 12 sha)
             end) (Errorf "desired release version does not match its artifact digest").

(** [_ = os.RemoveAll(temp); return err]. *)
Definition discard {A} (temp : string) (e : error) : aprog (result A) := _ ← ask (RemoveAll temp); Ret (Err e).

Definition materialize (releaseRoot : string) (manifest : ReleaseManifest) : aprog (result string) :=
  _ ←! lift (valid_digest manifest);
  let sha := ReleaseManifest.ArtifactSHA manifest in
  let root := if releaseRoot == EmptyString then "/var/lib/canter-node/releases" else releaseRoot in
  let dir := releaseCacheDir root manifest in
  cached ← ask (FReadFile (path_Join dir ".artifact-sha256"));
  if (match (cached : result string) with Ok b => TrimSpace b == sha | Err _ => false end) then Ret (Ok dir)
  else
    artifact ←! ask (GArtifact sha);
    let actual := sha256_hex artifact in
    if actual != sha then Ret (Err (Errorf ("artifact digest mismatch: got " +:+ actual)))
    else
      _ ←! ask (MkdirAll root 488);
      temp ←! ask (MkdirTemp root ".incoming-");
      extracted ← extractTarGz artifact temp;
      match extracted with
      | Err e => discard temp e
      | Ok _ =>
          marked ← ask (FWriteFile (path_Join temp ".artifact-sha256") (sha +:+ bytes [10]) 416);
          match (marked : result unit) with
          | Err e => discard temp e
          | Ok _ =>
              _ ← ask (RemoveAll dir);
              renamed ← ask (Rename temp dir);
              match (renamed : result unit) with
              | Err e => discard temp e
              | Ok _ => Ret (Ok dir)
              end
          end
      end.
End NodeArtifacts.
