(* ===== verification/Paths.v ===== *)
(** * Safe relative paths

    A path is safe when none of its elements is empty, "." or "..".  [Clean]
    leaves safe paths alone, a name [check_name] accepts is safe, joining a
    safe path to a directory stays below it, and [ancestors] lists exactly the
    proper prefixes. *)

From S2P Require Import Prelude GoStrings Documents NodeArtifacts.

Definition normal (seg : string) : Prop :=
  seg <> EmptyString /\ seg <> "." /\ seg <> ".." /\ contains_byte seg "/" = false.
Definition safe_path (p : string) : Prop := Forall normal (Split p "/").
Abbreviation unsplit l := (Join l "/").

Lemma safe_segments l : l <> [] -> Forall normal l -> Split (unsplit l) "/" = l /\ safe_path (unsplit l).
Proof.
  intros Hne Hl. assert (Split (unsplit l) "/" = l) as E.
  { apply Split_Join; [done|]. eapply Forall_impl; [exact Hl|]. by intros x (_ & _ & _ & Hx). }
  split; [done|]. unfold safe_path. by rewrite E.
Qed.

Lemma unsplit_Split p : unsplit (Split p "/") = p.
Proof. apply (Join_Split p "/"). Qed.

Lemma unsplit_cons x l : l <> [] -> unsplit (x :: l) = x +:+ String "/" (unsplit l).
Proof. by destruct l. Qed.

Lemma unsplit_app l1 l2 : l1 <> [] -> l2 <> [] -> unsplit (l1 ++ l2) = unsplit l1 +:+ String "/" (unsplit l2).
Proof.
  intros H1 H2. induction l1 as [|x l1 IH]; [done|]. destruct l1 as [|y l1].
  - simpl app. by rewrite unsplit_cons.
  - change ((x :: y :: l1) ++ l2) with (x :: ((y :: l1) ++ l2)). rewrite !unsplit_cons by (done || by destruct l2).
    rewrite IH by done. by rewrite <- append_assoc.
Qed.

(** ** Clean *)
Lemma clean_normal rooted l acc : Forall normal l -> fold_left (clean_step rooted) l acc = rev l ++ acc.
Proof.
  intros Hl. revert acc. induction Hl as [|x l Hx Hl IH]; intros acc; [done|]. cbn [fold_left rev].
  rewrite IH, <- app_assoc. f_equal. destruct Hx as (H1 & H2 & H3 & _). unfold clean_step.
  by rewrite !bool_decide_false by done.
Qed.

(** What [Clean] computes: leading ".." then normal elements. *)
Definition dotted (acc : list string) : Prop := exists k l, acc = l ++ replicate k ".." /\ Forall normal l.

Lemma clean_step_dotted acc seg : contains_byte seg "/" = false -> dotted acc -> dotted (clean_step false acc seg).
Proof.
  intros Hseg (k & l & -> & Hl). unfold clean_step.
  destruct (decide (seg = EmptyString)) as [->|H1]; [by exists k, l|].
  destruct (decide (seg = ".")) as [->|H2]; [by exists k, l|].
  rewrite !(bool_decide_false (seg = EmptyString)), !(bool_decide_false (seg = ".")) by done. cbn [orb].
  destruct (decide (seg = "..")) as [->|H3].
  - rewrite bool_decide_true by done. destruct l as [|x l].
    + destruct k as [|k]; [by exists 1%nat, []|]. cbn. by exists (S (S k)), [].
    + apply Forall_cons in Hl as [Hx Hl]. destruct Hx as (_ & _ & Hx & _). cbn.
      rewrite bool_decide_false by done. by exists k, l.
  - rewrite bool_decide_false by done. exists k, (seg :: l). split; [done|]. constructor; [done|done].
Qed.

Lemma clean_fold_dotted segs acc :
  Forall (fun w => contains_byte w "/" = false) segs -> dotted acc -> dotted (fold_left (clean_step false) segs acc).
Proof. intros Hs. revert acc. induction Hs; intros acc Hacc; [done|]. cbn [fold_left]. auto using clean_step_dotted. Qed.

Lemma HasPrefix_slash p : HasPrefix p "/" = true <-> exists q, p = String "/" q.
Proof. apply HasPrefix_spec. Qed.

Lemma rooted_slash q : HasPrefix (String "/" q) "/" = true.
Proof. apply HasPrefix_slash. by exists q. Qed.

(** What [Clean] makes of a relative path, unless it is "." or leads above. *)
Lemma Clean_safe p :
  HasPrefix p "/" = false -> Clean p <> "." -> Clean p <> ".." -> HasPrefix (Clean p) "../" = false -> safe_path (Clean p).
Proof.
  unfold Clean. destruct (p == EmptyString); [done|]. cbv zeta. intros Habs. rewrite Habs.
  destruct (_ == []) eqn:Enil; [done|]. bool_inv. intros Hdot Hdd Hup.
  assert (dotted (fold_left (clean_step false) (Split p "/") [])) as (k & l & E & Hl).
  { apply clean_fold_dotted; [apply Split_no_sep|]. by exists 0%nat, []. }
  rewrite E in *. rewrite rev_app_distr in *. assert (Forall normal (rev l)) as Hrl by by apply Forall_rev.
  assert (rev (replicate k "..") = replicate k "..") as Hrep.
  { clear. induction k as [|k IH]; [done|]. cbn [replicate rev]. rewrite IH. symmetry. apply replicate_cons_app. }
  rewrite Hrep in *. destruct k as [|k]; [by apply safe_segments|]. exfalso. cbn [replicate app] in *.
  destruct (replicate k ".." ++ rev l) as [|y t] eqn:Et; [done|]. rewrite unsplit_cons in Hup by done.
  assert (HasPrefix (".." +:+ String "/" (unsplit (y :: t))) "../" = true) by (apply HasPrefix_spec; by eexists). congruence.
Qed.

Lemma safe_relative p : safe_path p -> HasPrefix p "/" = false /\ p <> EmptyString.
Proof.
  unfold safe_path. intros Hp. destruct p as [|c p]; [by apply Forall_cons in Hp as [[? _] _]|]. split; [|done].
  destruct (HasPrefix _ "/") eqn:E; [|done]. apply HasPrefix_slash in E as [q [= -> ->]].
  cbn [Split] in Hp. rewrite bool_decide_true in Hp by done. by apply Forall_cons in Hp as [[? _] _].
Qed.

Lemma Clean_id p : safe_path p -> Clean p = p.
Proof.
  intros Hp. destruct (safe_relative p Hp) as [Ha Hne]. unfold Clean. rewrite bool_decide_false by done. cbv zeta.
  rewrite Ha, clean_normal, app_nil_r, rev_involutive by exact Hp. rewrite bool_decide_false by apply Split_nonempty.
  apply unsplit_Split.
Qed.

(** ** Below a directory *)
Definition clean_dir (d : string) : Prop := Clean d = d /\ HasPrefix d "/" = true /\ d <> "/".

Lemma path_Join_below d p : clean_dir d -> safe_path p -> path_Join d p = d +:+ String "/" p.
Proof.
  intros (Hd & Habs & Hroot) Hp. apply HasPrefix_slash in Habs as [q ->]. unfold path_Join.
  rewrite !(bool_decide_false (String "/" q = _)) by done. cbn [andb].
  change (String "/" q +:+ "/" +:+ p) with (String "/" (q +:+ String "/" p)).
  unfold Clean in *. rewrite bool_decide_false in Hd |- * by done. cbv zeta in *.
  rewrite rooted_slash in Hd |- *.
  change (String "/" (q +:+ String "/" p)) with (String "/" q +:+ String "/" p).
  rewrite Split_app, fold_left_app, clean_normal, rev_app_distr, rev_involutive by exact Hp.
  set (out := rev (fold_left _ (Split (String "/" q) "/") [])) in *.
  assert (out <> []) as Hout. { intros E. rewrite E in Hd. by injection Hd as <-. }
  rewrite unsplit_app, unsplit_Split by (done || apply Split_nonempty).
  rewrite append_assoc, Hd. done.
Qed.

(** ** Ancestors *)
Lemma dir_part_no_slash x : contains_byte x "/" = false -> dir_part x = EmptyString.
Proof. destruct x as [|c x]; [done|]. cbn [dir_part]. by intros ->. Qed.

Lemma dir_part_app p x : contains_byte x "/" = false -> dir_part (p +:+ String "/" x) = p +:+ "/".
Proof.
  intros Hx. induction p as [|c p IH]; cbn [String.append dir_part].
  - by rewrite dir_part_no_slash.
  - rewrite IH. cbn [contains_byte]. rewrite contains_byte_app. cbn [contains_byte].
    by rewrite (bool_decide_true ("/"%char = "/"%char)), !orb_true_r.
Qed.

(** What [Clean] makes of a directory part. *)
Lemma Clean_dir_part l : l <> [] -> Forall normal l -> Clean (unsplit l +:+ "/") = unsplit l.
Proof.
  intros Hne Hl. destruct (safe_segments l Hne Hl) as [Hs Hp]. destruct (safe_relative _ Hp) as [Ha Hn].
  unfold Clean. rewrite bool_decide_false by (intros E; apply Hn; by destruct (unsplit l)). cbv zeta.
  assert (HasPrefix (unsplit l +:+ "/") "/" = false) as ->.
  { apply not_true_is_false. intros [q E]%HasPrefix_slash.
    destruct (unsplit l) as [|c u] eqn:Eu; [done|]. injection E as -> _.
    by rewrite rooted_slash in Ha. }
  change (unsplit l +:+ "/") with (unsplit l +:+ String "/" EmptyString). rewrite Split_app, Hs, fold_left_app, (clean_normal _ l) by done.
  cbn [Split fold_left]. change (clean_step false ?acc EmptyString) with acc.
  rewrite app_nil_r, rev_involutive. by rewrite bool_decide_false.
Qed.

Lemma Dir_snoc l x : l <> [] -> Forall normal l -> contains_byte x "/" = false -> Dir (unsplit (l ++ [x])) = unsplit l.
Proof.
  intros Hne Hl Hx. unfold Dir. rewrite unsplit_app by done. cbn [Join String.concat]. rewrite dir_part_app by done.
  by apply Clean_dir_part.
Qed.

Lemma unsplit_not_dot l : l <> [] -> Forall normal l -> unsplit l <> "." /\ unsplit l <> "/".
Proof.
  intros Hne Hl. destruct (safe_segments l Hne Hl) as [Hs Hp]. split.
  - intros E. rewrite E in Hs. rewrite <- Hs in Hl. by apply Forall_cons in Hl as [(_ & ? & _) _].
  - intros E. destruct (safe_relative _ Hp) as [Ha _]. by rewrite E in Ha.
Qed.

(** Every proper prefix of a safe path is one of its ancestors. *)
Lemma ancestors_prefix fuel l l' :
  l <> [] -> l' <> [] -> Forall normal (l ++ l') -> (length l' <= fuel)%nat ->
  unsplit l ∈ ancestors fuel (unsplit (l ++ l')).
Proof.
  intros Hne Hne' Hl. revert fuel. induction l' as [|x l' IH] using rev_ind; [done|]. intros fuel Hf.
  rewrite length_app in Hf. simpl in Hf. destruct fuel as [|fuel]; [lia|]. cbn [ancestors]. cbv zeta.
  rewrite app_assoc in *. apply Forall_app in Hl as [Hl Hx].
  assert (l ++ l' <> []) as Hll by by destruct l.
  rewrite Dir_snoc by (done || by apply Forall_cons in Hx as [(_ & _ & _ & ?) _]).
  destruct (unsplit_not_dot _ Hll Hl) as [H1 H2]. rewrite !bool_decide_false by done. cbn [orb].
  destruct l' as [|y l'']; [rewrite app_nil_r; left|]. right. apply IH; [done|done|lia].
Qed.

Lemma length_Split p c : (length (Split p c) <= S (String.length p))%nat.
Proof.
  induction p as [|a p IH]; cbn [Split String.length]; [simpl; lia|]. case_bool_decide; simpl; [lia|].
  destruct (Split p c); simpl in *; lia.
Qed.

Lemma below_ancestor q r :
  safe_path (q +:+ String "/" r) -> q ∈ ancestors (String.length (q +:+ String "/" r)) (q +:+ String "/" r).
Proof.
  unfold safe_path. rewrite Split_app. intros Hs.
  pose proof (Split_nonempty q "/") as Hq. pose proof (Split_nonempty r "/") as Hr.
  replace (q +:+ String "/" r) with (unsplit (Split q "/" ++ Split r "/")) at 2
    by (rewrite unsplit_app by done; by rewrite !unsplit_Split).
  rewrite <- (unsplit_Split q) at 1. apply ancestors_prefix; [done..|].
  rewrite length_append. cbn [String.length]. pose proof (length_Split r "/"). lia.
Qed.

(** ** Directories of files below a directory *)
Lemma Clean_trailing d : clean_dir d -> Clean (d +:+ "/") = d.
Proof.
  intros (Hd & Habs & Hroot). apply HasPrefix_slash in Habs as [q ->].
  unfold Clean in *. rewrite bool_decide_false in Hd |- * by done. cbv zeta in *.
  change (String "/" q +:+ "/") with (String "/" (q +:+ "/")). rewrite rooted_slash in Hd |- *.
  change (String "/" (q +:+ "/")) with (String "/" q +:+ String "/" EmptyString).
  rewrite Split_app, fold_left_app. cbn [Split fold_left]. by change (clean_step true ?acc EmptyString) with acc.
Qed.

Lemma below_clean d p : clean_dir d -> safe_path p -> clean_dir (d +:+ String "/" p).
Proof.
  intros Hd Hp. destruct (safe_relative p Hp) as [_ Hne]. pose proof (path_Join_below d p Hd Hp) as E.
  destruct Hd as (Hc & Habs & Hroot). apply HasPrefix_slash in Habs as [q ->]. split_and!.
  - rewrite <- E at 2. unfold path_Join. by rewrite !(bool_decide_false (String "/" q = _)) by done.
  - apply rooted_slash.
  - intros [= E']. destruct q; done.
Qed.

Lemma Dir_below d p :
  clean_dir d -> safe_path p ->
  Dir (d +:+ String "/" p) = d \/ exists q, Dir (d +:+ String "/" p) = d +:+ String "/" q /\ safe_path q.
Proof.
  intros Hd Hp. rewrite <- (unsplit_Split p). unfold safe_path in Hp.
  pose proof (Split_nonempty p "/") as Hn. destruct (Split p "/") as [|x l _] using rev_ind; [done|].
  apply Forall_app in Hp as [Hl Hx]. apply Forall_cons in Hx as [(_ & _ & _ & Hx) _]. unfold Dir.
  destruct (decide (l = [])) as [->|Hne].
  - left. cbn [app Join String.concat]. rewrite dir_part_app by done. by apply Clean_trailing.
  - right. exists (unsplit l). destruct (safe_segments l Hne Hl) as [_ Hs]. split; [|done].
    rewrite unsplit_app by done. cbn [Join String.concat].
    replace (d +:+ String "/" (unsplit l +:+ String "/" x)) with ((d +:+ String "/" (unsplit l)) +:+ String "/" x)
      by (by rewrite <- append_assoc).
    rewrite dir_part_app by done. by apply Clean_trailing, below_clean.
Qed.
