(* ===== verification/Postgres.v ===== *)
(** * Runtime drivers (internal/runtime/driver)

    A registry finds the driver of a service by kind and engine.  The Postgres
    driver keeps one credentials file per service, creates the role and the
    database, and applies a migration at most once, in one transaction with the
    record that it was applied. *)

From S2P Require Import Prelude Effects GoStrings Digest Documents SandboxSpec Calls Systems Creation Releases.
From S2P Require Import AgentCalls NodeArtifacts.

Module driver_Result.
Record Result : Type := mk { URL : string; Endpoint : string }.
End driver_Result.

(** A driver that also accepts actions, or only [Ensure]. *)
Module Driver.
Record Driver : Type := mk {
  Ensure : RuntimeService.RuntimeService -> aprog (result driver_Result.Result);
  Execute : option (RuntimeService.RuntimeService -> RuntimeAction.RuntimeAction -> aprog (result RuntimeActionResult.RuntimeActionResult))
}.
End Driver.

Section Drivers.
Context `{Unicode}.

(** ** registry.go *)
Definition Registry : Type := gmap string Driver.Driver.
Definition NewRegistry : Registry := ∅.
Definition driver_key (kind engine : string) : string := ToLower (kind +:+ "." +:+ engine).
Definition Register (r : Registry) (kind engine : string) (implementation : Driver.Driver) : Registry :=
  <[driver_key kind engine := implementation]> r.

Definition Registry_Execute (r : Registry) (plan : RuntimePlan) (action : RuntimeAction) : aprog (result RuntimeActionResult) :=
  match List.find (fun service => RuntimeService.Name service == RuntimeAction.Service action) (RuntimePlan.Services plan) with
  | None => Ret (Err (Errorf ("runtime action references unknown service " +:+ Quote (RuntimeAction.Service action))))
  | Some service =>
      let key := driver_key (RuntimeService.Kind service) (RuntimeService.Engine service) in
      match r !! key with
      | None => Ret (Err (Errorf ("no runtime driver registered for " +:+ key)))
      | Some implementation =>
          match Driver.Execute implementation with
          | None => Ret (Err (Errorf ("runtime driver " +:+ key +:+ " does not accept actions")))
          | Some execute => execute service action
          end
      end
  end.

Definition observed_service (service : RuntimeService) (binding phase endpoint : string) : ObservedService :=
  ObservedService.mk (RuntimeService.Name service) binding (RuntimeService.Kind service) (RuntimeService.Engine service)
    phase endpoint.

(** The bindings, if no service failed, and what was observed until then. *)
Fixpoint ensure_services (r : Registry) (services : list RuntimeService) (bindings : gmap string string)
    (observed : list ObservedService) : aprog (result (gmap string string) * list ObservedService) :=
  match services with
  | [] => Ret (Ok bindings, observed)
  | service :: rest =>
      let key := driver_key (RuntimeService.Kind service) (RuntimeService.Engine service) in
      match r !! key with
      | None => Ret (Err (Errorf ("no runtime driver registered for " +:+ key)), observed)
      | Some implementation =>
          ensured ← Driver.Ensure implementation service;
          match ensured with
          | Err e =>
              Ret (Err (Wrapf ("reconcile service " +:+ RuntimeService.Name service +:+ ": ") e),
                   observed ++ [observed_service service EmptyString "failed" EmptyString])
          | Ok res =>
              match ServiceBindingName (RuntimeService.Name service) with
              | Err e => Ret (Err e, observed)
              | Ok binding =>
                  ensure_services r rest (<[binding := driver_Result.URL res]> bindings)
                    (observed ++ [observed_service service binding "ready" (driver_Result.Endpoint res)])
              end
          end
      end
  end.
Definition Registry_Ensure (r : Registry) (plan : RuntimePlan) : aprog (result (gmap string string) * list ObservedService) :=
  ensure_services r (RuntimePlan.Services plan) ∅ [].

(** ** postgres.go: names and credentials *)
Definition postgresIdentifier (s : string) : bool :=
  class_match is_lower (fun c => is_lower c || is_digit c || (c == "_"%char)) 62 s.
Definition migrationIdentifier (s : string) : bool :=
  class_match is_lower (fun c => is_lower c || is_digit c || (c == "-"%char)) 47 s.

Definition service_identifier (service : string) : string := "canter_" +:+ ReplaceAll service "-"%char "_".

Definition validatePostgresCredentials (service : string) (c : postgresCredentials) : result unit :=
  let identifier := service_identifier service in
  let user := postgresCredentials.User c in
  let database := postgresCredentials.Database c in
  reject_if ((user != identifier) || (database != identifier) || negb (postgresIdentifier user) ||
             negb (postgresIdentifier database))
    (Errorf "credentials file contains an invalid database identifier");;
  reject_if ((slen (postgresCredentials.Password c) != 48) ||
             negb (bool_decide (is_Some (hex_decode (postgresCredentials.Password c)))))
    (Errorf "credentials file contains an invalid password").

Definition service_directory (root service : string) : string :=
  path_Join (if root == EmptyString then "/var/lib/canter-node/services" else root) service.

(** The file is there: a private regular file of at most 4096 bytes. *)
Definition read_credentials (service path : string) : aprog (result postgresCredentials) :=
  info ← ask (Stat path);
  match (info : result (bool * Z)) with
  | Err e => _ ← ask (CloseFile path); Ret (Err e)
  | Ok (regular, perm) =>
      if negb regular then _ ← ask (CloseFile path); Ret (Err (Errorf "credentials file is not a regular file"))
      else if negb (Z.land perm 63 =? 0)
      then _ ← ask (CloseFile path); Ret (Err (Errorf "credentials file permissions are too broad"))
      else
        read ← ask (ReadCredentials path 4097);
        closed ← ask (CloseFile path);
        match (read : result (Z * result postgresCredentials)), (closed : result unit) with
        | Err e, _ => Ret (Err e)
        | Ok _, Err e => Ret (Err e)
        | Ok (size, decoded), Ok _ =>
            if 4096 <? size then Ret (Err (Errorf "credentials file is too large"))
            else
              c ←! lift decoded;
              _ ←! lift (validatePostgresCredentials service c);
              Ret (Ok c)
        end
  end.

(** A fresh secret, written aside; [closing] is [temporary.Close(); return err]. *)
Definition closing {A} (path : string) (e : error) : aprog (result A) := _ ← ask (CloseFile path); Ret (Err e).
Definition write_temporary (temporaryPath : string) (c : postgresCredentials) : aprog (result unit) :=
  chmod ← ask (Chmod temporaryPath 384);
  match (chmod : result unit) with
  | Err e => closing temporaryPath e
  | Ok _ =>
      written ← ask (WriteCredentials temporaryPath c);
      match (written : result unit) with
      | Err e => closing temporaryPath e
      | Ok _ =>
          synced ← ask (SyncFile temporaryPath);
          match (synced : result unit) with
          | Err e => closing temporaryPath e
          | Ok _ => (ask (CloseFile temporaryPath) : aprog (result unit))
          end
      end
  end.

Definition sync_directory (directory : string) : aprog (result unit) :=
  opened ← ask (OpenDir directory);
  match (opened : result unit) with
  | Err e => Ret (Err e)
  | Ok _ =>
      synced ← ask (SyncFile directory);
      closed ← ask (CloseFile directory);
      match (synced : result unit), (closed : result unit) with
      | Err e, _ => Ret (Err e)
      | Ok _, Err e => Ret (Err e)
      | Ok _, Ok _ => Ret (Ok tt)
      end
  end.

(** Published by a link that does not replace: the first secret wins, and
    [winner] reads it.  The temporary file is removed on every return. *)
Definition create_credentials (directory path service : string) (winner : aprog (result postgresCredentials))
    : aprog (result postgresCredentials) :=
  let identifier := service_identifier service in
  secret ←! ask (RandBytes 24);
  let c := postgresCredentials.mk identifier (hex_encode secret) identifier in
  _ ←! ask (MkdirAll directory 448);
  temporaryPath ←! ask (CreateTemp directory ".credentials-*.tmp");
  published ← (_ ←! write_temporary temporaryPath c;
               linked ← ask (Link temporaryPath path);
               match (linked : result bool) with
               | Err e => Ret (Err e)
               | Ok false => winner
               | Ok true => _ ←! sync_directory directory; Ret (Ok c)
               end);
  _ ← ask (RemoveFile temporaryPath);
  Ret published.

Fixpoint credentials (fuel : nat) (root service : string) : aprog (result postgresCredentials) :=
  match fuel with
  | O => Ret (Err OutOfFuel)
  | S fuel' =>
      if negb (migrationIdentifier service) then Ret (Err (Errorf ("invalid service name " +:+ Quote service)))
      else
        let directory := service_directory root service in
        let path := path_Join directory "credentials.json" in
        opened ←! ask (OpenNoFollow path);
        if (opened : bool) then read_credentials service path
        else create_credentials directory path service (credentials fuel' root service)
  end.

(** ** postgres.go: commands *)
Definition run (name : string) (args : list string) : aprog (result string) :=
  bind_ok (ask (RunCommand name args [] EmptyString)) (fun out => Ret (Ok out)).
Definition as_postgres (args : list string) : list string := ["-u"; "postgres"; "--"] ++ args.

Definition install : aprog (result unit) :=
  found ← ask (LookPath "psql");
  if (found : bool) then Ret (Ok tt)
  else
    _ ←! run "apt-get" ["update"; "-qq"];
    _ ←! ask (RunCommand "apt-get" ["install"; "-y"; "-qq"; "postgresql"] ["DEBIAN_FRONTEND=noninteractive"] EmptyString);
    Ret (Ok tt).

Definition double_quoted (s : string) : string := String quote_char (s +:+ String quote_char EmptyString).

(** [pg_isready] until the deadline of 20 seconds. *)
Fixpoint ready_loop (fuel : nat) (database : string) : aprog (result unit) :=
  match fuel with
  | O => Ret (Err OutOfFuel)
  | S fuel' =>
      ready ← run "pg_isready" ["-q"; "-h"; "127.0.0.1"; "-p"; "5432"; "-d"; database];
      match ready with
      | Ok _ => Ret (Ok tt)
      | Err _ =>
          done ← ask ReadySelect;
          match (done : option error) with
          | Some e => Ret (Err (Wrapf "postgres did not become ready: " e))
          | None => ready_loop fuel' database
          end
      end
  end.

Definition connection_url (c : postgresCredentials) : string :=
  "postgres://" +:+ postgresCredentials.User c +:+ ":" +:+ postgresCredentials.Password c +:+ "@127.0.0.1:5432/" +:+
  postgresCredentials.Database c +:+ "?sslmode=disable".

Definition ensure_role (c : postgresCredentials) : aprog (result unit) :=
  let user := postgresCredentials.User c in
  exists_ ←! run "runuser" (as_postgres ["psql"; "-tAc"; "SELECT 1 FROM pg_roles WHERE rolname='" +:+ user +:+ "'"]);
  if TrimSpace exists_ == "1" then Ret (Ok tt)
  else
    let statement := "CREATE ROLE " +:+ double_quoted user +:+ " LOGIN PASSWORD '" +:+ postgresCredentials.Password c +:+ "'" in
    _ ←! run "runuser" (as_postgres ["psql"; "-v"; "ON_ERROR_STOP=1"; "-c"; statement]);
    Ret (Ok tt).

Definition ensure_database (c : postgresCredentials) : aprog (result unit) :=
  let database := postgresCredentials.Database c in
  exists_ ←! run "runuser" (as_postgres ["psql"; "-tAc"; "SELECT 1 FROM pg_database WHERE datname='" +:+ database +:+ "'"]);
  if TrimSpace exists_ == "1" then Ret (Ok tt)
  else
    _ ←! run "runuser" (as_postgres ["createdb"; "--owner"; postgresCredentials.User c; database]);
    Ret (Ok tt).

Definition Postgres_Ensure (fuel : nat) (root : string) (service : RuntimeService) : aprog (result driver_Result.Result) :=
  if negb (migrationIdentifier (RuntimeService.Name service))
  then Ret (Err (Errorf ("invalid service name " +:+ Quote (RuntimeService.Name service))))
  else if RuntimeService.Instances service != 1
  then Ret (Err (Errorf "postgres driver currently supports one instance"))
  else
    _ ←! install;
    c ←! credentials fuel root (RuntimeService.Name service);
    _ ←! run "systemctl" ["enable"; "--now"; "postgresql"];
    _ ←! ensure_role c;
    _ ←! ensure_database c;
    _ ←! ready_loop fuel (postgresCredentials.Database c);
    Ret (Ok (driver_Result.mk (connection_url c) "127.0.0.1:5432")).

(** ** postgres.go: migrations *)
Definition parameter (action : RuntimeAction) (name : string) : string :=
  default EmptyString (RuntimeAction.Parameters action !! name).

Definition check_migration (action : RuntimeAction) : result unit :=
  let migrationID := parameter action "migrationId" in
  let digest := parameter action "digest" in
  let sql := parameter action "sql" in
  reject_if (RuntimeAction.Kind action != "database.expand-migration")
    (Errorf ("postgres driver does not support action " +:+ Quote (RuntimeAction.Kind action)));;
  reject_if ((migrationID == EmptyString) || (digest == EmptyString) || (sql == EmptyString))
    (Errorf "migration action is incomplete");;
  reject_if (negb (migrationIdentifier migrationID) || (slen digest != 64) || (digest != ToLower digest))
    (Errorf "migration action has an invalid id or digest");;
  match hex_decode digest with
  | None => Err (Errorf "migration action has an invalid digest")
  | Some decoded =>
      reject_if (decoded != Sha256.sum (string_bytes sql)) (Errorf "migration SQL does not match its digest")
  end.

Definition psql (c : postgresCredentials) (flags : list string) (input : string) : aprog (result string) :=
  (ask (RunCommand "psql" flags ["PGPASSWORD=" +:+ postgresCredentials.Password c] input) : aprog (result string)).
Definition query_args (c : postgresCredentials) (statement : string) : list string :=
  ["-h"; "127.0.0.1"; "-U"; postgresCredentials.User c; "-d"; postgresCredentials.Database c; "-tAc"; statement].
Definition transaction_args (c : postgresCredentials) : list string :=
  ["-v"; "ON_ERROR_STOP=1"; "-h"; "127.0.0.1"; "-U"; postgresCredentials.User c; "-d"; postgresCredentials.Database c].

Definition create_table : string :=
  "CREATE TABLE IF NOT EXISTS canter_schema_migrations (id TEXT PRIMARY KEY, digest TEXT NOT NULL, applied_at TIMESTAMPTZ NOT NULL DEFAULT now())".
Definition select_digest (migrationID : string) : string :=
  "SELECT digest FROM canter_schema_migrations WHERE id='" +:+ migrationID +:+ "'".
Definition line (s : string) : string := s +:+ bytes [10].
Definition migration_transaction (migrationID digest sql : string) : string :=
  line "BEGIN;" +:+ line "SELECT pg_advisory_xact_lock(1128353364);" +:+ sql +:+ bytes [10] +:+
  line ("INSERT INTO canter_schema_migrations(id,digest) VALUES('" +:+ migrationID +:+ "','" +:+ digest +:+ "');") +:+
  line "COMMIT;".

Definition action_result (service : RuntimeService) (action : RuntimeAction) (message : string) (duplicate : bool) (t : Z)
    : RuntimeActionResult :=
  RuntimeActionResult.mk "v1" (RuntimeAction.ID action) (RuntimeAction.System action) (RuntimeService.Name service)
    (RuntimeAction.Kind action) "completed" message duplicate t.

Definition Postgres_Execute (fuel : nat) (root : string) (service : RuntimeService) (action : RuntimeAction)
    : aprog (result RuntimeActionResult) :=
  let migrationID := parameter action "migrationId" in
  let digest := parameter action "digest" in
  let sql := parameter action "sql" in
  _ ←! lift (check_migration action);
  c ←! credentials fuel root (RuntimeService.Name service);
  _ ← ask Environ;
  _ ←! psql c (query_args c create_table) EmptyString;
  existing ←! psql c (query_args c (select_digest migrationID)) EmptyString;
  let existing := TrimSpace existing in
  if existing != EmptyString then
    if existing != digest
    then Ret (Err (Errorf ("migration " +:+ migrationID +:+ " was already applied with a different digest")))
    else t ← agent_now; Ret (Ok (action_result service action "migration was already applied" true t))
  else
    _ ←! psql c (transaction_args c) (migration_transaction migrationID digest sql);
    t ← agent_now;
    Ret (Ok (action_result service action "expand-only migration committed" false t)).

(** What [main] registers. *)
Definition Postgres (fuel : nat) (root : string) : Driver.Driver :=
  Driver.mk (Postgres_Ensure fuel root) (Some (Postgres_Execute fuel root)).
Definition main_registry (fuel : nat) : Registry :=
  Register (Register NewRegistry "database" "postgres" (Postgres fuel EmptyString)) "database" "postgresql"
    (Postgres fuel EmptyString).
End Drivers.
