(* ===== verification/NodeAgent.v ===== *)
(** * The node agent (cmd/canter-node/main.go)

    One turn of [reconcile] takes a snapshot from the gateway, reaps dead
    replicas, applies controls, reconciles services and actions, and brings the
    fleet of replicas to the desired release: new replicas are started and
    healthy before traffic moves to them, and old ones stop after it has. *)

From S2P Require Import Prelude Effects GoStrings Digest Documents Json Calls SandboxSpec Systems Creation Releases.
From S2P Require Import Nodes AgentCalls NodeArtifacts.

(** ** Processes and their targets *)
Definition processTarget (p : process) : string := "http://127.0.0.1:" +:+ Itoa (process.port p).
Definition processTargets (l : list process) : list string := processTarget <$> l.

(** The private ports, from 18080. *)
Definition private_ports : list Z := seqZ 18080 47456.
Definition free_port (used : list Z) : Z :=
  match List.find (fun port => negb (bool_decide (port ∈ used))) private_ports with Some port => port | None => 0 end.
Definition nextProcessPort (active extra : list process) : Z :=
  free_port ((process.port <$> active) ++ (process.port <$> extra)).

(** ** The environment of a replica *)
Definition add_entry (values : gmap string string) (entry : string) : gmap string string :=
  match Cut entry "=" with
  | Some (key, value) => if key == EmptyString then values else <[key := value]> values
  | None => values
  end.
Definition environment_values (base : list string) (desired serviceBindings : gmap string string) (port : Z)
    (version : string) : gmap string string :=
  <["CANTER_RELEASE_VERSION" := version]> (<["PORT" := Itoa port]>
    (serviceBindings ∪ (desired ∪ fold_left add_entry base ∅))).
Definition releaseProcessEnvironment (base : list string) (desired serviceBindings : gmap string string) (port : Z)
    (version : string) : list string :=
  (fun kv => kv.1 +:+ "=" +:+ kv.2) <$>
    merge_sort key_le (map_to_list (environment_values base desired serviceBindings port version)).

(** What calls for new processes. *)
Definition identity_json (manifest : ReleaseManifest) (serviceBindings : gmap string string) : json :=
  JObject (field "artifactSha256" (JString (ReleaseManifest.ArtifactSHA manifest)) ++
           field "command" (nil_or JString (ReleaseManifest.Command manifest)) ++
           omit_map "environment" (ReleaseManifest.Environment manifest) ++
           omit_map "serviceBindings" serviceBindings ++
           field "healthPath" (JString (ReleaseManifest.HealthPath manifest))).
Definition releaseApplyIdentity (manifest : ReleaseManifest) (serviceBindings : gmap string string) : string :=
  sha256_hex (render (identity_json manifest serviceBindings)).

Section NodeAgent.
Context `{Unicode} (open_archive : string -> result archive).
Context (fuel : nat).

(** ** Starting and stopping a replica *)
(** The whole process group, politely and then not. *)
Definition stop (p : process) : aprog unit :=
  _ ← ask (Signal p "SIGTERM");
  _ ← ask (AwaitExit p 5);
  _ ← ask (Signal p "SIGKILL");
  _ ← ask (AwaitExit p 1);
  Ret tt.

Fixpoint stop_all (l : list process) : aprog unit :=
  match l with [] => Ret tt | p :: l' => _ ← stop p; stop_all l' end.

Definition healthy_status (status : option Z) : bool :=
  match status with Some code => (200 <=? code) && (code <? 300) | None => false end.

Fixpoint health_loop (fuel : nat) (url : string) (p : process) : aprog (result unit) :=
  match fuel with
  | O => Ret (Err OutOfFuel)
  | S fuel' =>
      wake ← ask (HealthSelect p);
      match (wake : agent_wake) with
      | AExited e => Ret (Err (Errorf ("candidate exited before health: " +:+ e)))
      | ADeadline => Ret (Err (Errorf "candidate did not become healthy within 30s"))
      | AContext e => Ret (Err e)
      | ATick =>
          status ← ask (HealthGet url);
          if healthy_status status then Ret (Ok tt) else health_loop fuel' url p
      end
  end.
Definition waitHealthy (port : Z) (path : string) (p : process) : aprog (result unit) :=
  health_loop fuel ("http://127.0.0.1:" +:+ Itoa port +:+ path) p.

Definition command_in (dir command : string) : string :=
  if HasPrefix command "./" then path_Join dir (TrimPrefix command "./") else command.

Definition startRelease (releaseRoot : string) (serviceBindings : gmap string string) (desired : ReleaseManifest)
    (port : Z) : aprog (result process) :=
  dir ←! materialize open_archive releaseRoot desired;
  if port <? 1 then Ret (Err (Errorf "no private application port is available"))
  else
    match ReleaseManifest.Command desired with
    | [] => Ret (Err (Panic "index out of range"))
    | command :: args =>
        env ← ask Environ;
        _ ←! ask (OpenLog (path_Join dir "application.log"));
        pid ←! ask (StartProcess (command_in dir command) args dir
                      (releaseProcessEnvironment env (ReleaseManifest.Environment desired) serviceBindings port
                         (ReleaseManifest.Version desired)));
        let p := process.mk pid (ReleaseManifest.Version desired) (releaseApplyIdentity desired serviceBindings) port in
        healthy ← waitHealthy port (ReleaseManifest.HealthPath desired) p;
        match healthy with
        | Err e => _ ← stop p; Ret (Err e)
        | Ok _ => Ret (Ok p)
        end
    end.

Definition launchReplica (desired : ReleaseManifest) (port : Z) : agent (result process) :=
  n ← get; run_ask (startRelease (node.releaseRoot n) (node.serviceBindings n) desired port).

(** ** The fleet *)
Definition setTargets (l : list process) : agent unit := run_ask (ask (SetTargets (processTargets l))).

Fixpoint drain_loop (fuel : nat) (target : string) : aprog unit :=
  match fuel with
  | O => Ret tt
  | S fuel' =>
      active ← ask (Inflight target);
      if (active : Z) =? 0 then Ret tt
      else
        wake ← ask DrainSelect;
        match (wake : agent_wake) with ATick => drain_loop fuel' target | _ => Ret tt end
  end.
Definition waitForDrain (target : string) : aprog unit := drain_loop fuel target.

Fixpoint retire (l : list process) : aprog unit :=
  match l with
  | [] => Ret tt
  | previous :: l' => _ ← waitForDrain (processTarget previous); _ ← stop previous; retire l'
  end.

(** The loops that start replicas: all of them, or none stays. *)
Fixpoint launch_replicas (k : nat) (desired : ReleaseManifest) (started : list process)
    : agent (list process * option error) :=
  match k with
  | O => mret (started, None)
  | S k' =>
      n ← get;
      candidate ← launchReplica desired (nextProcessPort (node.active n) started);
      match candidate with
      | Err e => _ ← run_ask (stop_all started); mret (started, Some e)
      | Ok p => launch_replicas k' desired (started ++ [p])
      end
  end.

Definition check_desired (desired : ReleaseManifest) : result unit :=
  reject_if (match ReleaseManifest.Command desired with [] => true | c :: _ => TrimSpace c == EmptyString end)
    (Errorf "desired release has no executable command");;
  reject_if (negb (HasPrefix (ReleaseManifest.HealthPath desired) "/") || (2048 <? slen (ReleaseManifest.HealthPath desired)))
    (Errorf "desired release has an invalid health path").

Definition identity_matches (identity : string) (active : list process) : bool :=
  match active with [] => false | _ => forallb (fun p => process.identity p == identity) active end.

(** Every replica replaced: a new release or a restart. *)
Definition replace_fleet (desired : ReleaseManifest) : agent (result unit) :=
  n ← get;
  let old := node.active n in
  '(candidates, failed) ← launch_replicas (Z.to_nat (ReleaseManifest.Replicas desired)) desired [];
  match failed with
  | Some e => _ ← modify (node.with_restartRequested false); mret (Err e)
  | None =>
      _ ← modify (node.with_active candidates);
      _ ← setTargets candidates;
      _ ← run_ask (retire old);
      _ ← modify (fun n => if node.restartRequested n then node.with_restarts (add64 (node.restarts n) 1) n else n);
      _ ← modify (fun n => node.with_failedIdentity EmptyString (node.with_restartRequested false n));
      mret (Ok tt)
  end.

Definition grow_fleet (desired : ReleaseManifest) : agent (result unit) :=
  n ← get;
  let missing := ReleaseManifest.Replicas desired - Z.of_nat (length (node.active n)) in
  if missing <=? 0 then mret (Ok tt)
  else
    '(added, failed) ← launch_replicas (Z.to_nat missing) desired [];
    match failed with
    | Some e => mret (Err e)
    | None =>
        _ ← modify (node.with_active (node.active n ++ added));
        _ ← setTargets (node.active n ++ added);
        mret (Ok tt)
    end.

Definition shrink_fleet (desired : ReleaseManifest) : agent (result unit) :=
  n ← get;
  let wanted := ReleaseManifest.Replicas desired in
  if Z.of_nat (length (node.active n)) <=? wanted then mret (Ok tt)
  else
    let kept := take (Z.to_nat wanted) (node.active n) in
    let removed := drop (Z.to_nat wanted) (node.active n) in
    _ ← modify (node.with_active kept);
    _ ← setTargets kept;
    _ ← run_ask (retire removed);
    mret (Ok tt).

Definition reconcileReleaseFleet (desired : ReleaseManifest) : agent (result unit) :=
  agent_ok (mret (check_desired desired)) (fun _ =>
  n ← get;
  let identity := releaseApplyIdentity desired (node.serviceBindings n) in
  if node.restartRequested n || negb (identity_matches identity (node.active n))
  then replace_fleet desired
  else agent_ok (grow_fleet desired) (fun _ => shrink_fleet desired)).

(** ** Replicas that exited *)
Fixpoint reap (l : list process) : agent (list process * Z) :=
  match l with
  | [] => mret ([], 0)
  | current :: l' =>
      exited ← run_ask (ask (Exited current));
      match (exited : option string) with
      | Some _ =>
          _ ← run_ask (stop current);
          _ ← modify (fun n => node.with_restarts (add64 (node.restarts n) 1) n);
          '(survivors, count) ← reap l';
          mret (survivors, count + 1)
      | None => '(survivors, count) ← reap l'; mret (current :: survivors, count)
      end
  end.

Definition reapExited : agent Z :=
  n ← get;
  '(survivors, exited) ← reap (node.active n);
  if exited =? 0 then mret 0
  else _ ← modify (node.with_active survivors); _ ← setTargets survivors; mret exited.
End NodeAgent.

(** ** What a replica reads from its environment

    [getenv] is how os/exec and the program started read a list of
    [NAME=value] entries: the last entry of a name counts.  A name has no
    equals sign ([env_names]); the Change validation refuses the others. *)

Definition entry_for (key entry : string) : option string :=
  match Cut entry "=" with Some (k, v) => if k == key then Some v else None | None => None end.
Definition getenv_step (key : string) (found : option string) (entry : string) : option string :=
  match entry_for key entry with Some v => Some v | None => found end.
Definition getenv (env : list string) (key : string) : option string := fold_left (getenv_step key) env None.

Definition env_names (m : gmap string string) : Prop := map_Forall (fun key _ => contains_byte key "=" = false) m.

(** ** Entries *)
Lemma prefix_byte c a s : String.prefix (String c EmptyString) (String a s) = (a == c).
Proof.
  cbn [String.prefix]. destruct (ascii_dec c a) as [->|Hne]; [by rewrite bool_decide_true; [destruct s|]|].
  by rewrite bool_decide_false by congruence.
Qed.

Lemma Cut_byte c a s :
  Cut (String a s) (String c EmptyString) =
  if a == c then Some (EmptyString, s)
  else match Cut s (String c EmptyString) with Some (before, after) => Some (String a before, after) | None => None end.
Proof. cbn [Cut]. by rewrite prefix_byte. Qed.

Lemma Cut_entry key value : contains_byte key "=" = false -> Cut (key +:+ "=" +:+ value) "=" = Some (key, value).
Proof.
  induction key as [|a key IH]; intros Hk.
  - change (EmptyString +:+ "=" +:+ value) with (String "=" value). by rewrite Cut_byte, bool_decide_true.
  - cbn [contains_byte] in Hk. apply orb_false_iff in Hk as [Ha Hk].
    change (String a key +:+ "=" +:+ value) with (String a (key +:+ "=" +:+ value)). by rewrite Cut_byte, Ha, IH.
Qed.

Lemma Cut_name entry key value : Cut entry "=" = Some (key, value) -> contains_byte key "=" = false.
Proof.
  revert key value. induction entry as [|a entry IH]; intros key value; [done|]. rewrite Cut_byte.
  destruct (a == _) eqn:Ea; [by intros [= <- _]|]. destruct (Cut entry "=") as [[k v]|]; [|done].
  intros [= <- _]. cbn [contains_byte]. by rewrite Ea, (IH k v).
Qed.

Lemma entry_of key value name :
  contains_byte key "=" = false -> entry_for name (key +:+ "=" +:+ value) = if key == name then Some value else None.
Proof. intros Hk. unfold entry_for. by rewrite Cut_entry. Qed.

(** ** A list made from a map *)
Lemma getenv_from (l : list (string * string)) key value found :
  NoDup (fst <$> l) -> Forall (fun kv => contains_byte kv.1 "=" = false) l ->
  fold_left (getenv_step key) ((fun kv => kv.1 +:+ "=" +:+ kv.2) <$> l) found = Some value <->
    (key, value) ∈ l \/ key ∉ fst <$> l /\ found = Some value.
Proof.
  revert found. induction l as [|[k v] l IH]; intros found Hd Hn; [set_solver|].
  apply NoDup_cons in Hd as [Hk Hd]. apply Forall_cons in Hn as [Hkn Hn]. cbn [fst] in Hk, Hkn.
  rewrite fmap_cons. cbn [fold_left]. rewrite IH by done. unfold getenv_step. cbn [fst snd]. rewrite entry_of by done.
  rewrite fmap_cons. cbn [fst]. rewrite !elem_of_cons. case_bool_decide as E; [subst k|naive_solver].
  assert (forall w, (key, w) ∉ l) by (intros w Hin; by apply Hk, (list_elem_of_fmap_2 fst _ _ Hin)). naive_solver.
Qed.

Lemma getenv_map (m : gmap string string) key :
  env_names m -> getenv ((fun kv => kv.1 +:+ "=" +:+ kv.2) <$> merge_sort key_le (map_to_list m)) key = m !! key.
Proof.
  intros Hn. apply option_eq. intros value. unfold getenv.
  pose proof (merge_sort_Permutation key_le (map_to_list m)) as Hperm. rewrite getenv_from.
  - rewrite Hperm, elem_of_map_to_list. naive_solver.
  - rewrite Hperm. apply NoDup_fst_map_to_list.
  - rewrite Hperm. apply Forall_forall. intros [k v] Hkv%elem_of_map_to_list. by apply (Hn k v).
Qed.

(** The map made from a list. *)
Lemma values_lookup base key :
  key <> EmptyString -> fold_left add_entry base ∅ !! key = getenv base key.
Proof.
  intros Hne. unfold getenv. rewrite <- (lookup_empty (M := gmap string) key). generalize (∅ : gmap string string) as m.
  induction base as [|e base IH]; intros m; [done|]. cbn [fold_left]. rewrite IH. f_equal.
  unfold add_entry, getenv_step, entry_for. destruct (Cut e "=") as [[k v]|]; [|done].
  case_bool_decide as E1; [subst k|]; [by rewrite bool_decide_false by done|].
  case_bool_decide as E2; [subst k; by rewrite lookup_insert_eq|by rewrite lookup_insert_ne].
Qed.

Lemma base_names base : env_names (fold_left add_entry base ∅).
Proof.
  assert (env_names ∅) as H0 by apply map_Forall_empty. revert H0. generalize (∅ : gmap string string) as m.
  induction base as [|e base IH]; intros m Hm; [done|]. cbn [fold_left]. apply IH. unfold add_entry.
  destruct (Cut e "=") as [[k v]|] eqn:Ec; [|done]. case_bool_decide; [done|].
  apply map_Forall_insert_2; [by eapply Cut_name|done].
Qed.

Lemma environment_names base desired bindings port version :
  env_names desired -> env_names bindings -> env_names (environment_values base desired bindings port version).
Proof.
  intros Hd Hb. unfold environment_values. repeat (apply map_Forall_insert_2; [done|]).
  apply map_Forall_union_2; [done|]. apply map_Forall_union_2; [done|]. apply base_names.
Qed.
