(* ===== verification/NodeReconcile.v ===== *)
(** * One turn of the node agent (cmd/canter-node/main.go)

    Controls, services, runtime actions, the observed state, and [reconcile],
    which puts them together with the fleet of [NodeAgent]. *)

From S2P Require Import Prelude Effects GoStrings Digest Documents Json Calls SandboxSpec Systems Creation Releases.
From S2P Require Import Nodes AgentCalls NodeArtifacts Postgres NodeAgent.

(** ** The verb [%v] on what the fingerprint prints *)
Definition time_String (t : Z) : string :=
  let seconds := t / 10 ^ 9 in
  let '(y, m, d) := civil (seconds / 86400) in
  let s := seconds mod 86400 in
  digits 4 y +:+ "-" +:+ digits 2 m +:+ "-" +:+ digits 2 d +:+ " " +:+
  digits 2 (s / 3600) +:+ ":" +:+ digits 2 (s / 60 mod 60) +:+ ":" +:+ digits 2 (s mod 60) +:+
  fraction (t mod 10 ^ 9) +:+ " +0000 UTC".
Definition print_list (l : list string) : string := "[" +:+ Join l " " +:+ "]".
Definition print_lease (l : option ObservedCapacityLease) : string :=
  match l with
  | None => "<nil>"
  | Some l => "&{" +:+ time_String (ObservedCapacityLease.ExpiresAt l) +:+ " " +:+
              Itoa (ObservedCapacityLease.RestoreReplicas l) +:+ " " +:+ ObservedCapacityLease.Phase l +:+ "}"
  end.
Definition print_service (s : ObservedService) : string :=
  "{" +:+ Join [ObservedService.Name s; ObservedService.Binding s; ObservedService.Kind s; ObservedService.Engine s;
                ObservedService.Phase s; ObservedService.Endpoint s] " " +:+ "}".
Definition fingerprint_of (o : ObservedRelease) : string :=
  Join [ObservedRelease.Phase o; ObservedRelease.DesiredVersion o; ObservedRelease.RunningVersion o;
        Itoa (ObservedRelease.PID o); Itoa (ObservedRelease.Restarts o); Itoa (ObservedRelease.InternalPort o);
        Itoa (ObservedRelease.DesiredReplicas o); Itoa (ObservedRelease.ReadyReplicas o);
        print_list (Itoa <$> ObservedRelease.ReplicaPIDs o); print_lease (ObservedRelease.CapacityLease_ o);
        FormatBool (ObservedRelease.Healthy o); ObservedRelease.Message o;
        print_list (print_service <$> ObservedRelease.Services o)] "|".

(** ** The observed state *)
(** [ObservedRelease{Phase: phase, Restarts: restarts, ReadyReplicas: ready, Message: message}]. *)
Definition brief (phase : string) (restarts ready : Z) (message : string) : ObservedRelease :=
  ObservedRelease.mk EmptyString EmptyString phase EmptyString EmptyString 0 restarts 0 0 0 ready [] None false message []
    EmptyString zero_time.

Definition running_version (active : list process) : string :=
  match active with
  | [] => EmptyString
  | first :: _ =>
      fold_left (fun running current => if process.version current != running then "mixed" else running) active
        (process.version first)
  end.
Definition lease_phase (desired : ReleaseManifest) (active : list process) (lease : CapacityLease) (t : Z) : string :=
  if t <? CapacityLease.ExpiresAt lease then "active"
  else if (ReleaseManifest.Replicas desired =? CapacityLease.RestoreReplicas lease) &&
          (Z.of_nat (length active) =? CapacityLease.RestoreReplicas lease)
  then "expired-restored" else "expiry-pending-restore".

Definition observed (desired : ReleaseManifest) (phase : string) (healthy : bool) (message : string)
    : agent ObservedRelease :=
  n ← get;
  let active := node.active n in
  lease ← match ReleaseManifest.CapacityLease_ desired with
          | None => mret None
          | Some lease =>
              t ← run_ask agent_now;
              mret (Some (ObservedCapacityLease.mk (CapacityLease.ExpiresAt lease) (CapacityLease.RestoreReplicas lease)
                            (lease_phase desired active lease t)))
          end;
  mret (ObservedRelease.mk EmptyString EmptyString phase (ReleaseManifest.Version desired) (running_version active)
          (match active with first :: _ => process.pid first | [] => 0 end) (node.restarts n) (node.publicPort n)
          (match active with first :: _ => process.port first | [] => 0 end) (ReleaseManifest.Replicas desired)
          (Z.of_nat (length active)) (process.pid <$> active) lease healthy message (node.services n) EmptyString zero_time).

(** The defaults, and what the node signs. *)
Definition with_defaults (n : node) (o : ObservedRelease) : ObservedRelease :=
  ObservedRelease.mk (ObservedRelease.SchemaVersion o) (ObservedRelease.System o) (ObservedRelease.Phase o)
    (ObservedRelease.DesiredVersion o) (ObservedRelease.RunningVersion o) (ObservedRelease.PID o)
    (ObservedRelease.Restarts o)
    (if ObservedRelease.PublicPort o =? 0 then node.publicPort n else ObservedRelease.PublicPort o)
    (ObservedRelease.InternalPort o) (ObservedRelease.DesiredReplicas o) (ObservedRelease.ReadyReplicas o)
    (ObservedRelease.ReplicaPIDs o) (ObservedRelease.CapacityLease_ o) (ObservedRelease.Healthy o)
    (ObservedRelease.Message o)
    (match ObservedRelease.Services o with [] => node.services n | services => services end)
    (ObservedRelease.Node o) (ObservedRelease.UpdatedAt o).
Definition signed (n : node) (t : Z) (o : ObservedRelease) : ObservedRelease :=
  ObservedRelease.mk "v1" (node.system n) (ObservedRelease.Phase o)
    (ObservedRelease.DesiredVersion o) (ObservedRelease.RunningVersion o) (ObservedRelease.PID o)
    (ObservedRelease.Restarts o) (ObservedRelease.PublicPort o) (ObservedRelease.InternalPort o)
    (ObservedRelease.DesiredReplicas o) (ObservedRelease.ReadyReplicas o) (ObservedRelease.ReplicaPIDs o)
    (ObservedRelease.CapacityLease_ o) (ObservedRelease.Healthy o) (ObservedRelease.Message o)
    (ObservedRelease.Services o) (node.hostname n) t.

Definition publish_observed (fingerprint : string) (o : ObservedRelease) : agent (result unit) :=
  n ← get;
  t ← run_ask agent_now;
  agent_ok (run_ask (ask (GPutObserved (signed n t o)))) (fun _ =>
  _ ← modify (node.with_lastObserved fingerprint t);
  mret (Ok tt)).

Definition writeObserved (o : ObservedRelease) : agent (result unit) :=
  n ← get;
  let o := with_defaults n o in
  let fingerprint := fingerprint_of o in
  if fingerprint == node.lastObservedFingerprint n then
    t ← run_ask agent_now;
    if sat64 (t - node.lastObservedAt n) <? 30 * Second then mret (Ok tt) else publish_observed fingerprint o
  else publish_observed fingerprint o.

Section NodeReconcile.
Context `{Unicode} (open_archive : string -> result archive) (drivers : Registry).
Context (fuel : nat).

(** ** Controls, services, actions *)
Definition applyControl (control : option RuntimeControl) : agent (result unit) :=
  match control with
  | None => mret (Ok tt)
  | Some control =>
      n ← get;
      if (RuntimeControl.ID control == EmptyString) || (RuntimeControl.ID control == node.lastControl n) then mret (Ok tt)
      else
        _ ← modify (node.with_lastControl (RuntimeControl.ID control));
        if RuntimeControl.Action control != "restart"
        then mret (Err (Errorf ("unsupported runtime control " +:+ Quote (RuntimeControl.Action control))))
        else
          _ ← modify (node.with_restartRequested true);
          run_ask (ask (GAckControl (RuntimeControl.ID control)))
  end.

Definition reconcileServices (plan : option RuntimePlan) : agent (result unit) :=
  n ← get;
  t ← run_ask agent_now;
  if t <? node.nextServiceCheck n then mret (Ok tt)
  else
    match plan with
    | None => t ← run_ask agent_now; _ ← modify (node.with_nextServiceCheck (t + 10 * Second)); mret (Ok tt)
    | Some plan =>
        agent_ok (mret (RuntimePlan_Validate plan (node.system n))) (fun _ =>
        '(bindings, services) ← run_ask (Registry_Ensure drivers plan);
        _ ← modify (node.with_services services);
        match bindings with
        | Err e => t ← run_ask agent_now; _ ← modify (node.with_nextServiceCheck (t + Second)); mret (Err e)
        | Ok bindings =>
            _ ← modify (node.with_serviceBindings bindings);
            _ ← modify (node.with_runtimePlan plan);
            t ← run_ask agent_now;
            _ ← modify (node.with_nextServiceCheck (t + 10 * Second));
            mret (Ok tt)
        end)
    end.

Definition invalid_action (system : string) (action : RuntimeAction) : bool :=
  (RuntimeAction.SchemaVersion action != "v1") || (RuntimeAction.System action != system) ||
  (RuntimeAction.ID action == EmptyString) || (RuntimeAction.Service action == EmptyString) ||
  (RuntimeAction.Kind action == EmptyString).

Definition reconcileRuntimeAction (envelope : option NodeRuntimeAction) : agent (result unit) :=
  match envelope with
  | None => mret (Ok tt)
  | Some envelope =>
      let action := NodeRuntimeAction.Action envelope in
      let lease := NodeRuntimeAction.Lease envelope in
      n ← get;
      if invalid_action (node.system n) action then mret (Err (Errorf "invalid runtime action"))
      else if ChangeLease.FencingToken lease != RuntimeAction.FencingToken action then mret (Ok tt)
      else
        t ← run_ask agent_now;
        if negb (t <? ChangeLease.ExpiresAt lease) ||
           negb (HasPrefix (RuntimeAction.ID action) (ChangeLease.ChangeID lease +:+ "-"))
        then mret (Ok tt)
        else
          executed ← run_ask (Registry_Execute drivers (node.runtimePlan n) action);
          res ← match executed with
                | Ok res => mret res
                | Err e =>
                    t ← run_ask agent_now;
                    mret (RuntimeActionResult.mk "v1" (RuntimeAction.ID action) (node.system n)
                            (RuntimeAction.Service action) (RuntimeAction.Kind action) "failed" (Error e) false t)
                end;
          agent_ok (run_ask (ask (GPutRuntimeActionResult (RuntimeAction.ID action) res))) (fun _ =>
          mret (match executed with Ok _ => Ok tt | Err e => Err e end))
  end.

(** ** The desired release of this turn *)
Definition desired_of (d : NodeDesiredRelease) : ReleaseManifest :=
  ReleaseManifest.mk (NodeDesiredRelease.SchemaVersion d) (NodeDesiredRelease.System d) (NodeDesiredRelease.Version d)
    EmptyString (NodeDesiredRelease.ArtifactSHA d) (NodeDesiredRelease.Command d) (NodeDesiredRelease.Environment d)
    (NodeDesiredRelease.HealthPath d) (NodeDesiredRelease.PublicPort d) (NodeDesiredRelease.Replicas d)
    (NodeDesiredRelease.CapacityLease_ d) (NodeDesiredRelease.RequestedAt d).

(** At least one replica, and the restored number once the lease expired. *)
Definition effective_desired (system : string) (d : NodeDesiredRelease) : aprog (result ReleaseManifest) :=
  let desired := desired_of d in
  if (ReleaseManifest.System desired != system) || (ReleaseManifest.SchemaVersion desired != "v1")
  then Ret (Err (Errorf "desired release does not belong to node system"))
  else
    let desired := if ReleaseManifest.Replicas desired <? 1 then ReleaseManifest.with_Replicas 1 desired else desired in
    match ReleaseManifest.CapacityLease_ desired with
    | None => Ret (Ok desired)
    | Some lease =>
        if (CapacityLease.ExpiresAt lease =? zero_time) || (CapacityLease.RestoreReplicas lease <? 1)
        then Ret (Err (Errorf "desired release contains an invalid capacity lease"))
        else
          t ← agent_now;
          Ret (Ok (if t <? CapacityLease.ExpiresAt lease then desired
                   else ReleaseManifest.with_Replicas (CapacityLease.RestoreReplicas lease) desired))
    end.

Definition reconcile_release (desired : ReleaseManifest) : agent (result unit) :=
  n ← get;
  if (node.failedIdentity n == releaseApplyIdentity desired (node.serviceBindings n)) && negb (node.restartRequested n)
  then mret (Ok tt)
  else
    r ← reconcileReleaseFleet open_archive fuel desired;
    n ← get;
    match r with
    | Err e =>
        _ ← (if length (node.active n) == 0%nat
             then modify (node.with_failedIdentity (releaseApplyIdentity desired (node.serviceBindings n)))
             else mret tt);
        o ← observed desired "release-failed" (negb (length (node.active n) == 0%nat)) (Error e);
        writeObserved o
    | Ok _ =>
        o ← observed desired "running" (Z.of_nat (length (node.active n)) =? ReleaseManifest.Replicas desired) EmptyString;
        writeObserved o
    end.

(** ** reconcile *)
Definition reconcile : agent (result unit) :=
  agent_ok (run_ask (ask GSnapshot)) (fun snapshot =>
  n ← get;
  if (NodeSnapshot.SchemaVersion snapshot != "v1") || (NodeSnapshot.System snapshot != node.system n)
  then mret (Err (Errorf "gateway snapshot does not belong to node system"))
  else
    exited ← reapExited;
    _ ← (if 0 <? exited then
           _ ← modify (node.with_failedIdentity EmptyString);
           n ← get;
           writeObserved (brief "recovering" (node.restarts n) (Z.of_nat (length (node.active n)))
                            "one or more application replicas exited")
         else mret (Ok tt));
    agent_ok (applyControl (NodeSnapshot.Control snapshot)) (fun _ =>
    served ← reconcileServices (NodeSnapshot.RuntimePlan_ snapshot);
    match served with
    | Err e =>
        n ← get;
        _ ← writeObserved (brief "provisioning-services" (node.restarts n) 0 (Error e));
        mret (Err e)
    | Ok _ =>
        _ ← reconcileRuntimeAction (NodeSnapshot.RuntimeAction_ snapshot);
        n ← get;
        match NodeSnapshot.Desired_ snapshot with
        | None => writeObserved (brief "waiting" (node.restarts n) 0 "no desired release")
        | Some d =>
            agent_ok (run_ask (effective_desired (node.system n) d)) reconcile_release
        end
    end)).

(** A turn every second until the context ends; errors are only logged. *)
Fixpoint run_node (turns : nat) : agent (option error) :=
  match turns with
  | O => mret None
  | S turns' =>
      _ ← reconcile;
      done ← run_ask (ask ReadySelect);
      match (done : option error) with
      | Some e => mret (Some e)
      | None => run_node turns'
      end
  end.
End NodeReconcile.

(** ** What the node agent may stop

    [fleet_guard]: only processes traffic is not routed to are signalled, where
    the routing table is the last one set.  The rules here carry the guard
    through the fleet operations together with what they establish. *)

(** The targets routed after [h], if they were [before] at its beginning. *)
Definition set_targets (e : event agent_answer) : option (list string) :=
  match ev_call e with SetTargets ts => Some ts | _ => None end.
Fixpoint routed (before : list string) (h : atrace) : list string :=
  match h with [] => before | e :: h' => match set_targets e with Some ts => ts | None => routed before h' end end.

(** The processes started and not killed since, by their pids. *)
Definition started_pid (e : event agent_answer) : option Z :=
  match e with
  | Event c r =>
      match c as c return agent_answer c -> option Z with
      | StartProcess _ _ _ _ => fun r => match r with Ok pid => Some pid | Err _ => None end
      | _ => fun _ => None
      end r
  end.
Definition killed_pid (e : event agent_answer) : option Z :=
  match ev_call e with Signal p signal => if signal == "SIGKILL" then Some (process.pid p) else None | _ => None end.
Fixpoint left_running (h : atrace) : list Z :=
  match h with
  | [] => []
  | e :: h' =>
      match started_pid e, killed_pid e with
      | Some pid, _ => pid :: left_running h'
      | None, Some pid => List.filter (fun pid' => negb (pid' =? pid)) (left_running h')
      | None, None => left_running h'
      end
  end.
Definition killed_since (h h' : atrace) (p : process) : Prop :=
  exists l, h' = l ++ h /\ Event (R := agent_answer) (Signal p "SIGKILL") tt ∈ l.
Definition pids (l : list process) : list Z := process.pid <$> l.

Section Fleet.
Context `{Unicode} (open_archive : string -> result archive) (fuel : nat).
Context (before : list string).

Definition fleet_guard (h : atrace) (c : agent_call) : Prop :=
  match c with Signal p _ => processTarget p ∉ routed before h | _ => True end.
Abbreviation wpF p Q h := (wp (fun _ _ _ => True) fleet_guard p Q h).

(** Calls that neither start or signal processes nor route. *)
Definition inert (h : atrace) (c : agent_call) : Prop :=
  match c with Signal _ _ | SetTargets _ | StartProcess _ _ _ _ => False | _ => True end.

(** Nothing is routed anew, and no process is left running that was not, but [extra]. *)
Definition quietly (extra : list Z) (h h' : atrace) : Prop :=
  routed before h' = routed before h /\ (exists l, h' = l ++ h) /\
  forall pid, pid ∈ left_running h' -> pid ∈ extra \/ pid ∈ left_running h.
Abbreviation quiet := (quietly []).
Lemma quietly_trans a b h1 h2 h3 : quietly a h1 h2 -> quietly b h2 h3 -> quietly (a ++ b) h1 h3.
Proof.
  intros (E1 & [l1 ->] & P1) (E2 & [l2 ->] & P2). split; [congruence|]. split; [exists (l2 ++ l1); by rewrite app_assoc|].
  intros pid Hp. rewrite elem_of_app. destruct (P2 pid Hp); [auto|]. destruct (P1 pid); auto.
Qed.
Lemma quiet_refl h : quiet h h.
Proof. split; [done|]. split; [by exists []|by right]. Qed.
Lemma quiet_trans a h1 h2 h3 : quietly a h1 h2 -> quiet h2 h3 -> quietly a h1 h3.
Proof. rewrite <- (app_nil_r a) at 2. apply quietly_trans. Qed.
Lemma quiet_event c r h : set_targets (Event c r) = None -> started_pid (Event c r) = None -> quiet h (Event c r :: h).
Proof.
  intros Hc Hs. split; [cbn [routed]; by rewrite Hc|]. split; [by exists [Event c r]|]. cbn [left_running]. rewrite Hs. intros pid Hp. right.
  destruct (killed_pid _); [|done]. apply list_elem_of_In, filter_In in Hp as [Hp _]. by apply list_elem_of_In.
Qed.
Lemma start_event command args dir env pid h :
  quietly [pid] h (Event (R := agent_answer) (StartProcess command args dir env) (Ok pid) :: h).
Proof. split; [done|]. split; [by eexists [_]|]. cbn. set_solver. Qed.

(** The processes [l] were killed. *)
Definition stopped (l : list process) (h h' : atrace) : Prop :=
  quiet h h' /\ (forall pid, pid ∈ left_running h' -> pid ∉ pids l) /\ Forall (killed_since h h') l.
Lemma stopped_after l h h1 h2 : quiet h h1 -> stopped l h1 h2 -> stopped l h h2.
Proof.
  intros Hq1 (Hq2 & Hn & Hk). split; [by eapply quiet_trans|]. split; [done|]. destruct Hq1 as (_ & [l1 ->] & _).
  eapply Forall_impl; [exact Hk|]. intros p (l2 & -> & Hp). exists (l2 ++ l1). rewrite app_assoc, elem_of_app. auto.
Qed.
Lemma stopped_cons p l h h1 h2 : stopped [p] h h1 -> stopped l h1 h2 -> stopped (p :: l) h h2.
Proof.
  intros (Hq1 & Hn1 & Hk1) Hs2. pose proof (stopped_after _ _ _ _ Hq1 Hs2) as (Hq & Hn & Hk). split; [done|]. destruct Hs2 as (Hq2 & _ & _). split.
  - intros pid Hp. destruct (proj2 (proj2 Hq2) pid Hp) as [Hp'|Hp']; [set_solver|]. specialize (Hn pid Hp). specialize (Hn1 pid Hp'). set_solver.
  - constructor; [|done]. apply Forall_inv in Hk1 as (l1 & -> & Hp). destruct Hq2 as (_ & [l2 ->] & _). exists (l2 ++ l1).
    rewrite app_assoc, elem_of_app. auto.
Qed.
Lemma stopped_quiet l h0 h h' : quietly (pids l) h0 h -> stopped l h h' -> quiet h0 h'.
Proof.
  intros Hq0 (Hq & Hn & _). destruct (quietly_trans _ _ _ _ _ Hq0 Hq) as (H1 & H2 & H3). split; [done|]. split; [done|].
  intros pid Hp. right. destruct (H3 pid Hp) as [He|He]; [|done]. rewrite app_nil_r in He. by destruct (Hn pid Hp).
Qed.

Lemma wp_inert {A} (p : aprog A) Q h :
  wp (fun _ _ _ => True) inert p Q h -> wpF p (fun h' a => quiet h h' /\ Q h' a) h.
Proof.
  revert h. induction p as [a|c k IH]; intros h; cbn [wp]; [intros HQ; split; [apply quiet_refl|done]|].
  intros [Hc Hk]. split; [by destruct c|]. intros r Hr. eapply wp_mono; [apply IH, Hk, Hr|].
  intros h' a [Hq HQ]. split; [|done]. eapply quiet_trans; [|done]. apply quiet_event; by destruct c.
Qed.

Lemma safe_inert_quiet {A} (p : aprog A) h : safe inert p -> wpF p (fun h' _ => quiet h h') h.
Proof. intros Hp. eapply wp_mono; [apply wp_inert, safe_wp, Hp|]. by intros h' a [Hq _]. Qed.

Lemma inert_ask c : (forall h, inert h c) -> safe inert (ask c).
Proof. apply safe_call. Qed.
Hint Extern 1 (safe inert (ask _)) => (by apply inert_ask) : safe.
Hint Extern 1 (safe inert (call _)) => (by apply safe_call) : safe.

(** ** Stopping *)
Lemma wp_stop p Q h :
  processTarget p ∉ routed before h -> (forall h', stopped [p] h h' -> Q h' tt) -> wpF (stop p) Q h.
Proof.
  intros Hp HQ. unfold stop, ask.
  do 4 (apply wp_bind; wp_ask; try exact Hp). apply wp_ret, HQ.
  match goal with |- stopped _ _ (?e4 :: ?e3 :: ?e2 :: ?e1 :: _) => set (l := [e4; e3; e2; e1]); change (stopped [p] h (l ++ h)) end.
  assert (left_running (l ++ h) = List.filter (fun pid' => negb (pid' =? process.pid p)) (left_running h)) as Hl by done.
  split; [split; [done|]; split; [by exists l|]|split].
  - rewrite Hl. intros pid Hpid. right. apply list_elem_of_In, filter_In in Hpid as [Hpid _]. by apply list_elem_of_In.
  - rewrite Hl. intros pid Hpid Hin. apply list_elem_of_In, filter_In in Hpid as [_ Hpid]. apply list_elem_of_singleton in Hin. lia.
  - constructor; [|constructor]. exists l. split; [done|]. right. destruct a1. left.
Qed.

Lemma stopped_nil h : stopped [] h h.
Proof. split; [apply quiet_refl|]. split; [set_solver|constructor]. Qed.
Lemma wp_stop_all l Q h :
  Forall (fun p => processTarget p ∉ routed before h) l -> (forall h', stopped l h h' -> Q h' tt) -> wpF (stop_all l) Q h.
Proof.
  revert h Q. induction l as [|p l IH]; intros h Q Hl HQ; [apply HQ, stopped_nil|].
  apply Forall_cons in Hl as [Hp Hl]. apply wp_bind, wp_stop; [done|]. intros h1 Hs. apply IH.
  - eapply Forall_impl; [exact Hl|]. intros q. by rewrite (proj1 (proj1 Hs)).
  - intros h2 Hs2. apply HQ. by eapply stopped_cons.
Qed.

Lemma inert_drain n target : safe inert (drain_loop n target).
Proof. induction n as [|n IH]; cbn [drain_loop]; safe_tac. Qed.

Lemma wp_retire l Q h :
  Forall (fun p => processTarget p ∉ routed before h) l -> (forall h', stopped l h h' -> Q h' tt) -> wpF (retire fuel l) Q h.
Proof.
  revert h Q. induction l as [|p l IH]; intros h Q Hl HQ; [apply HQ, stopped_nil|].
  apply Forall_cons in Hl as [Hp Hl]. cbn [retire]. apply wp_bind. unfold waitForDrain.
  eapply wp_mono; [apply safe_inert_quiet, inert_drain|]. intros h1 [] Hq1.
  apply wp_bind, wp_stop; [by rewrite (proj1 Hq1)|]. intros h2 Hs2. apply (stopped_after _ _ _ _ Hq1) in Hs2. apply IH.
  - eapply Forall_impl; [exact Hl|]. intros q. by rewrite (proj1 (proj1 Hs2)).
  - intros h3 Hs3. apply HQ. by eapply stopped_cons.
Qed.

(** ** Starting *)
Lemma inert_extract_entry destination header clean payload : safe inert (extract_entry destination header clean payload).
Proof. unfold extract_entry. safe_tac. Qed.
Lemma inert_extract destination headers seen entries payload :
  safe inert (extract_entries destination headers seen entries payload).
Proof.
  revert seen entries payload. induction headers as [|header rest IH]; intros seen entries payload; [apply safe_ret|].
  cbn [extract_entries]. cbv zeta. apply safe_bind_ok; [apply safe_ret|intros clean].
  apply safe_bind_ok; [apply inert_extract_entry|intros p]. apply IH.
Qed.
Lemma inert_materialize root desired : safe inert (materialize open_archive root desired).
Proof.
  assert (forall A temp e, safe inert (discard (A := A) temp e)) as Hd by (intros A temp e; unfold discard; safe_tac).
  unfold materialize, extractTarGz. safe_tac; apply inert_extract || apply Hd.
Qed.

(** The process answered a health check with a success. *)
Definition was_healthy (h : atrace) (path : string) (p : process) : Prop :=
  exists code, 200 <= code < 300 /\
    Event (R := agent_answer) (HealthGet ("http://127.0.0.1:" +:+ Itoa (process.port p) +:+ path)) (Some code) ∈ h.

Lemma was_healthy_mono l h path p : was_healthy h path p -> was_healthy (l ++ h) path p.
Proof. intros (code & Hc & He). exists code. rewrite elem_of_app. auto. Qed.

Lemma wp_waitHealthy port path p Q h :
  process.port p = port -> (forall h' e, quiet h h' -> Q h' (Err e)) ->
  (forall h', quiet h h' -> was_healthy h' path p -> Q h' (Ok tt)) -> wpF (waitHealthy fuel port path p) Q h.
Proof.
  intros <- Herr Hok. unfold waitHealthy. generalize fuel as n. intros n.
  assert (forall h', quiet h h' -> wpF (health_loop n ("http://127.0.0.1:" +:+ Itoa (process.port p) +:+ path) p) Q h') as HL;
    [|by apply HL, quiet_refl].
  induction n as [|n IH]; intros h' Hq; cbn [health_loop]; [by apply Herr|]. apply wp_bind. unfold ask. wp_ask.
  assert (quiet h (Event (R := agent_answer) (HealthSelect p) a :: h')) as Hq1 by (eapply quiet_trans; [exact Hq|by apply quiet_event]).
  destruct a as [e| |e|]; try by apply Herr. apply wp_bind. wp_ask.
  match goal with |- wp _ _ _ _ (?e :: ?h1) => assert (quiet h (e :: h1)) as Hq2 by (eapply quiet_trans; [exact Hq1|by apply quiet_event]) end.
  destruct (healthy_status a) eqn:Ea; [|by apply IH]. apply Hok; [done|]. destruct a as [code|]; [|done]. exists code.
  unfold healthy_status in Ea. bool_inv. split; [done|left].
Qed.

(** What a replica is started as. *)
Definition launched (desired : ReleaseManifest) (bindings : gmap string string) (port : Z) (h : atrace) (p : process) : Prop :=
  process.port p = port /\ process.version p = ReleaseManifest.Version desired /\
  process.identity p = releaseApplyIdentity desired bindings /\ was_healthy h (ReleaseManifest.HealthPath desired) p.

Lemma processTarget_inj p q : processTarget p = processTarget q -> process.port p = process.port q.
Proof. unfold processTarget. intros E. by apply append_inj_l, Itoa_inj in E. Qed.

Lemma wp_startRelease root bindings desired port Q h :
  (1 <= port -> "http://127.0.0.1:" +:+ Itoa port ∉ routed before h) ->
  (forall h' e, quiet h h' -> Q h' (Err e)) ->
  (forall h' p, quietly [process.pid p] h h' -> 1 <= port -> launched desired bindings port h' p -> Q h' (Ok p)) ->
  wpF (startRelease open_archive fuel root bindings desired port) Q h.
Proof.
  intros Hport Herr Hok. unfold startRelease. apply wp_bind_ok.
  eapply wp_mono; [apply safe_inert_quiet, inert_materialize|]. intros h1 [dir|e] Hq1; [|by apply Herr].
  destruct (port <? 1) eqn:Ep; [by apply Herr|]. bool_inv.
  destruct (ReleaseManifest.Command desired) as [|command args]; [by apply Herr|].
  apply wp_bind. unfold ask. wp_ask. apply wp_bind_ok. wp_ask.
  match goal with |- match _ with Ok _ => wp _ _ _ _ (?e2 :: ?e1 :: _) | Err _ => _ end =>
    assert (quiet h (e2 :: e1 :: h1)) as Hq2
      by (eapply quiet_trans; [eapply quiet_trans; [exact Hq1|by apply (quiet_event (ev_call e1) (ev_answer e1))]
                              |by apply (quiet_event (ev_call e2) (ev_answer e2))]) end.
  destruct a0 as [u|e]; [|by apply Herr]. apply wp_bind_ok. wp_ask.
  match goal with |- match ?a with Ok _ => _ | Err _ => _ end => destruct a as [pid|e] end.
  2:{ apply Herr. eapply quiet_trans; [exact Hq2|by apply quiet_event]. }
  cbv zeta. apply wp_bind.
  match goal with |- wp _ _ _ _ (?e3 :: ?h2) => assert (quietly [pid] h (e3 :: h2)) as Hq3 by (apply (quietly_trans [] [pid] h h2); [done|apply start_event]) end.
  apply wp_waitHealthy; [done| |].
  - intros h' e Hq. assert (quietly [pid] h h') as Hqh by by eapply quiet_trans.
    apply wp_bind, wp_stop; [rewrite (proj1 Hqh); by apply Hport|].
    intros h'' Hs. apply wp_ret, Herr. refine (stopped_quiet _ _ _ _ _ Hs). exact Hqh.
  - intros h' Hq Hh. apply wp_ret, Hok; [by eapply quiet_trans|done|]. by split_and!.
Qed.
End Fleet.

Abbreviation quiet before := (quietly before []).
