(* ===== verification/NodeFleet.v ===== *)
(** * What a fleet reconciliation establishes

    [fleet_done]: the replicas wanted, of the wanted identity, on distinct
    ports, every new one seen healthy, and all of them routed, the others
    killed.  A failure leaves the fleet and its routing as they were, and none of
    the processes it started. *)

From S2P Require Import Prelude Effects GoStrings Digest Documents SandboxSpec Calls Systems Creation Releases.
From S2P Require Import Nodes AgentCalls NodeArtifacts NodeAgent NodeReconcile.

Lemma free_port_fresh used : 1 <= free_port used -> free_port used ∉ used.
Proof.
  unfold free_port. destruct (List.find _ _) as [port|] eqn:E; [|lia].
  apply List.find_some in E as [_ E]. intros _. by bool_inv.
Qed.

Definition ports (l : list process) : list Z := process.port <$> l.

Lemma not_routed p l : process.port p ∉ ports l -> processTarget p ∉ processTargets l.
Proof.
  intros Hp Hr. apply list_elem_of_fmap in Hr as (q & E & Hq). apply Hp. apply list_elem_of_fmap.
  exists q. split; [by apply processTarget_inj|done].
Qed.

Section Fleet.
Context `{Unicode} (open_archive : string -> result archive) (fuel : nat) (desired : ReleaseManifest).
Abbreviation fleet_guard n := (fleet_guard (processTargets (node.active n))).

(** Traffic goes to the active replicas, which have their own ports. *)
Record fleet_ok (before : list string) (h : atrace) (n : node) : Prop := {
  fo_routed : routed before h = processTargets (node.active n);
  fo_ports : NoDup (ports (node.active n))
}.

(** A replica of this release, seen healthy. *)
Definition replica_of (bindings : gmap string string) (h : atrace) (p : process) : Prop :=
  process.version p = ReleaseManifest.Version desired /\ process.identity p = releaseApplyIdentity desired bindings /\
  was_healthy h (ReleaseManifest.HealthPath desired) p.

Lemma replica_mono bindings before extra h h' p : quietly before extra h h' -> replica_of bindings h p -> replica_of bindings h' p.
Proof. intros (_ & [l ->] & _) (H1 & H2 & H3). split_and!; [done..|by apply was_healthy_mono]. Qed.

Section Launch.
Context (before : list string).
Abbreviation wpF p Q h := (wp (fun _ _ _ => True) (NodeReconcile.fleet_guard before) p Q h).

Lemma wp_launch_replicas k n started Q h0 h :
  routed before h0 = processTargets (node.active n) -> NoDup (ports (node.active n ++ started)) ->
  Forall (replica_of (node.serviceBindings n) h) started -> quietly before (pids started) h0 h ->
  (forall h' e l, quiet before h0 h' -> Q h' ((l, Some e), n)) ->
  (forall h' l, quietly before (pids l) h0 h' -> length l = (length started + k)%nat -> NoDup (ports (node.active n ++ l)) ->
     Forall (replica_of (node.serviceBindings n) h') l -> Q h' ((l, None), n)) ->
  wpF (launch_replicas open_archive fuel k desired started n) Q h.
Proof.
  intros Hrouted. revert started h. induction k as [|k IH]; intros started h Hports Hstarted Hq0 Herr Hok;
    cbn [launch_replicas].
  { apply Hok; [done|lia|done..]. }
  apply wp_agent_bind. apply wp_ret. cbn [fst snd]. apply wp_agent_bind.
  unfold launchReplica. apply wp_agent_bind, wp_ret. cbn [fst snd]. apply wp_run_ask.
  set (port := nextProcessPort (node.active n) started).
  assert (1 <= port -> port ∉ ports (node.active n ++ started)) as Hfresh.
  { intros Hp. unfold ports. rewrite fmap_app. by apply free_port_fresh. }
  apply wp_startRelease.
  - intros Hp Hr. rewrite (proj1 Hq0), Hrouted in Hr. specialize (Hfresh Hp).
    apply (not_routed (process.mk 0 EmptyString EmptyString port) (node.active n)) in Hr; [done|].
    unfold ports in *. rewrite fmap_app in Hfresh. set_solver.
  - intros h' e Hq. cbn [fst snd]. apply wp_agent_bind, wp_run_ask, wp_stop_all.
    + rewrite (proj1 Hq), (proj1 Hq0), Hrouted. apply Forall_forall. intros p Hp. apply not_routed. unfold ports in *.
      rewrite fmap_app in Hports. apply NoDup_app in Hports as (_ & Hd & _). intros Ha. eapply Hd; [exact Ha|].
      by apply list_elem_of_fmap_2.
    + intros h'' Hs. apply wp_ret. apply Herr. eapply stopped_quiet; [|exact Hs]. by eapply quiet_trans.
  - intros h' p Hq Hp (Hport & Hv & Hi & Hh). cbn [fst snd]. apply IH.
    + rewrite app_assoc. unfold ports in *. rewrite fmap_app. apply NoDup_app. split_and!; [done| |apply NoDup_singleton].
      intros x Hx Hx'. apply list_elem_of_singleton in Hx' as ->. apply Hfresh; [done|]. by rewrite <- Hport.
    + apply Forall_app. split; [|by repeat constructor].
      eapply Forall_impl; [exact Hstarted|]. intros q. by eapply replica_mono.
    + unfold pids. rewrite fmap_app. by eapply quietly_trans.
    + done.
    + intros h'' l Hq' Hl. apply Hok; [done|]. rewrite Hl, length_app. simpl. lia.
Qed.

(** ** The three ways *)
(** Failed: nothing changed but the restart request. *)
Definition unchanged (n n' : node) : Prop := n' = n \/ n' = node.with_restartRequested false n.

Definition fleet_done (h : atrace) (n n' : node) : Prop :=
  fleet_ok before h n' /\ node.serviceBindings n' = node.serviceBindings n /\
  Z.of_nat (length (node.active n')) = ReleaseManifest.Replicas desired /\
  Forall (fun p => process.identity p = releaseApplyIdentity desired (node.serviceBindings n)) (node.active n') /\
  Forall (fun p => p ∈ node.active n \/ replica_of (node.serviceBindings n) h p) (node.active n').

(** No process runs but those that did and the fleet, whose former replicas were
    killed if they are not in it any more. *)
Definition fleet_running (h0 h : atrace) (n n' : node) : Prop :=
  (forall pid, pid ∈ left_running h -> pid ∈ pids (node.active n') \/ pid ∈ left_running h0) /\
  Forall (fun p => p ∈ node.active n' \/ killed_since h0 h p) (node.active n).

Definition fleet_result (h0 h : atrace) (n : node) (r : result unit) (n' : node) : Prop :=
  match r with
  | Ok _ => fleet_done h n n' /\ fleet_running h0 h n n'
  | Err _ => unchanged n n' /\ quiet before h0 h
  end.

Lemma wp_setTargets l n Q h : Q (Event (SetTargets (processTargets l)) tt :: h) (tt, n) -> wpF (setTargets l n) Q h.
Proof. intros HQ. unfold setTargets. apply wp_run_ask. unfold ask. wp_ask. by destruct a. Qed.

Lemma wp_modify f n Q h : Q h (tt, f n) -> wpF (modify f n) Q h.
Proof. done. Qed.

(** Killing [old] after routing to [new]. *)
Lemma running_after l new old h0 h h' :
  quietly before (pids l) h0 h -> stopped before old (Event (SetTargets new) tt :: h) h' ->
  (forall pid, pid ∈ left_running h' -> pid ∈ pids l \/ pid ∈ left_running h0) /\ Forall (killed_since h0 h') old.
Proof.
  intros (_ & [l0 ->] & Hrun) ((_ & _ & Hq) & _ & Hk). split.
  - intros pid Hp. destruct (Hq pid Hp) as [Hp'|Hp']; [set_solver|]. by apply Hrun.
  - eapply Forall_impl; [exact Hk|]. intros p (l1 & -> & Hp). eexists (l1 ++ _ :: l0). rewrite <- app_assoc. split; [done|]. set_solver.
Qed.

Lemma wp_replace n h :
  fleet_ok before h n -> 1 <= ReleaseManifest.Replicas desired ->
  wpF (replace_fleet open_archive fuel desired n) (fun h' r => fleet_result h h' n r.1 r.2) h.
Proof.
  intros [Hr Hp] Hn. unfold replace_fleet. apply wp_agent_bind, wp_ret. cbn [fst snd]. cbv zeta. apply wp_agent_bind.
  apply (wp_launch_replicas _ _ _ _ h); [done|by rewrite app_nil_r|constructor|apply quiet_refl| |].
  - intros h' e l Hq. cbn [fst snd]. apply wp_agent_bind, wp_modify, wp_ret. by split; [right|].
  - intros h' l Hq Hlen Hports Hl. cbn [fst snd]. apply wp_agent_bind, wp_modify. cbn [fst snd].
    apply wp_agent_bind, wp_setTargets. cbn [fst snd]. apply wp_agent_bind, wp_run_ask.
    unfold ports in Hports. rewrite fmap_app in Hports. apply NoDup_app in Hports as (_ & Hdisj & Hnd).
    apply (wp_retire fuel before).
    { cbn [routed set_targets ev_call]. apply Forall_forall. intros p Hin. apply not_routed. intros Hl'.
      eapply Hdisj; [|exact Hl']. by apply list_elem_of_fmap_2. }
    intros h'' Hs. cbn [fst snd]. pose proof Hs as [Hq' _]. destruct (running_after l _ _ _ _ _ Hq Hs) as [Hrun Hkill].
    assert (forall n', node.active n' = l -> node.serviceBindings n' = node.serviceBindings n -> fleet_done h'' n n' /\ fleet_running h h'' n n') as Hdone.
    { intros n' Ha Hb. split; [split; [split|]; rewrite Ha; [by rewrite (proj1 Hq')|done|]; split_and!; [done| |..]|].
      - rewrite Hlen. simpl. lia.
      - eapply Forall_impl; [exact Hl|]. by intros p (_ & Hi & _).
      - eapply Forall_impl; [exact Hl|]. intros p Hp'. right. eapply replica_mono; [exact Hq'|].
        destruct Hp' as (H1 & H2 & H3). split_and!; [done..|]. by apply (was_healthy_mono [_]).
      - split; [by rewrite Ha|]. eapply Forall_impl; [exact Hkill|]. by right. }
    apply wp_agent_bind, wp_modify. cbn [fst snd]. apply wp_agent_bind, wp_modify, wp_ret. cbn [fst snd].
    apply Hdone; by destruct (node.restartRequested _).
Qed.

(** Between growing and shrinking: enough replicas. *)
Definition grown (h0 h : atrace) (n n' : node) : Prop :=
  fleet_ok before h n' /\ node.serviceBindings n' = node.serviceBindings n /\
  ReleaseManifest.Replicas desired <= Z.of_nat (length (node.active n')) /\
  Forall (fun p => process.identity p = releaseApplyIdentity desired (node.serviceBindings n)) (node.active n') /\
  Forall (fun p => p ∈ node.active n \/ replica_of (node.serviceBindings n) h p) (node.active n') /\
  exists added, node.active n' = node.active n ++ added /\ (exists l, h = l ++ h0) /\
    (forall pid, pid ∈ left_running h -> pid ∈ pids added \/ pid ∈ left_running h0) /\
    (added <> [] -> Z.of_nat (length (node.active n')) = ReleaseManifest.Replicas desired).

Lemma wp_grow n h :
  fleet_ok before h n ->
  Forall (fun p => process.identity p = releaseApplyIdentity desired (node.serviceBindings n)) (node.active n) ->
  wpF (grow_fleet open_archive fuel desired n)
    (fun h' r => match r.1 with Ok _ => grown h h' n r.2 | Err _ => r.2 = n /\ quiet before h h' end) h.
Proof.
  intros [Hr Hp] Hid. unfold grow_fleet. apply wp_agent_bind, wp_ret. cbn [fst snd]. cbv zeta.
  set (missing := _ - _). destruct (missing <=? 0) eqn:Em; bool_inv.
  { apply wp_ret. cbn [fst snd]. split_and!; [done|done|lia|done|apply Forall_forall; by left|].
    exists []. rewrite app_nil_r. split_and!; [done|by exists []|by right|done]. }
  apply wp_agent_bind. apply (wp_launch_replicas _ _ _ _ h); [done|by rewrite app_nil_r|constructor|apply quiet_refl| |].
  - intros h' e l Hq. done.
  - intros h' l Hq Hlen Hports Hl. cbn [fst snd]. apply wp_agent_bind, wp_modify. cbn [fst snd].
    apply wp_agent_bind, wp_setTargets. cbn [fst snd]. apply wp_ret. cbn [fst snd].
    assert (Z.of_nat (length (node.active n ++ l)) = ReleaseManifest.Replicas desired) as Hn by (rewrite length_app, Hlen; simpl; lia).
    split_and!; cbn [node.active node.with_active]; [by split|done|lia| | |].
    + apply Forall_app. split; [done|]. eapply Forall_impl; [exact Hl|]. by intros p (_ & Hi & _).
    + apply Forall_app. split; [apply Forall_forall; by left|].
      eapply Forall_impl; [exact Hl|]. intros p (H1 & H2 & H3). right. split_and!; [done..|]. by apply (was_healthy_mono [_]).
    + exists l. destruct Hq as (_ & [l0 ->] & Hrun). split_and!; [done|by eexists (_ :: _)|done|done].
Qed.

Lemma wp_shrink h0 n0 n h :
  grown h0 h n0 n -> 1 <= ReleaseManifest.Replicas desired ->
  wpF (shrink_fleet fuel desired n)
    (fun h' r => r.1 = Ok tt /\ fleet_done h' n0 r.2 /\ fleet_running h0 h' n0 r.2) h.
Proof.
  intros ([Hr Hp] & Hb & Hlen & Hid & Hnew & added & Hadd & Hext & Hrun & Hsize) Hn.
  unfold shrink_fleet. apply wp_agent_bind, wp_ret. cbn [fst snd]. cbv zeta.
  destruct (_ <=? _) eqn:El; bool_inv.
  { apply wp_ret. cbn [fst snd]. split; [done|]. split; [split_and!; try done; lia|]. split.
    - intros pid Hpid. destruct (Hrun pid Hpid) as [Ha|Ha]; [left|by right]. rewrite Hadd. unfold pids in *. rewrite fmap_app. set_solver.
    - apply Forall_forall. intros p Ha. left. rewrite Hadd. set_solver. }
  assert (added = []) as -> by (destruct added; [done|specialize (Hsize ltac:(done)); lia]). rewrite app_nil_r in Hadd.
  set (k := Z.to_nat (ReleaseManifest.Replicas desired)) in *.
  apply wp_agent_bind, wp_modify. cbn [fst snd]. apply wp_agent_bind, wp_setTargets. cbn [fst snd].
  pose proof (take_drop k (node.active n)) as Htd. unfold ports in Hp. rewrite <- Htd, fmap_app in Hp.
  apply NoDup_app in Hp as (Hnd & Hdisj & _). apply wp_agent_bind, wp_run_ask, (wp_retire fuel before).
  { cbn [routed set_targets ev_call]. apply Forall_forall. intros p Hin. apply not_routed. intros Hl'.
    eapply Hdisj; [exact Hl'|]. by apply list_elem_of_fmap_2. }
  intros h' Hs. cbn [fst snd]. apply wp_ret. cbn [fst snd]. pose proof Hs as (Hq & _ & Hk). split; [done|]. split; [|split].
  - split_and!; cbn [node.active node.with_active node.serviceBindings].
    + split; cbn [node.active node.with_active]; [by rewrite (proj1 Hq)|done].
    + done.
    + rewrite length_take. lia.
    + by apply Forall_take.
    + apply Forall_take. eapply Forall_impl; [exact Hnew|]. intros p [Ha|Hp']; [by left|right].
      eapply replica_mono; [exact Hq|]. destruct Hp' as (H1 & H2 & H3). split_and!; [done..|].
      by apply (was_healthy_mono [_]).
  - intros pid Hpid. right. destruct (proj2 (proj2 Hq) pid Hpid) as [Hp'|Hp']; [set_solver|]. destruct (Hrun pid Hp'); [set_solver|done].
  - cbn [node.active node.with_active]. rewrite <- Hadd, <- Htd at 1. apply Forall_app. split; [apply Forall_forall; by left|].
    eapply Forall_impl; [exact Hk|]. intros p (l1 & -> & Hp'). destruct Hext as [l0 ->]. right. eexists (l1 ++ _ :: l0).
    rewrite <- app_assoc. split; [done|]. set_solver.
Qed.

Lemma identity_matches_all identity l :
  identity_matches identity l = true -> Forall (fun p => process.identity p = identity) l.
Proof.
  unfold identity_matches. destruct l as [|p l]; [done|]. rewrite forallb_forall. intros Hl. apply Forall_forall.
  intros q Hq. specialize (Hl q (proj1 (list_elem_of_In _ _) Hq)). by bool_inv.
Qed.

Lemma wp_fleet n h :
  fleet_ok before h n -> 1 <= ReleaseManifest.Replicas desired ->
  wpF (reconcileReleaseFleet open_archive fuel desired n) (fun h' r => fleet_result h h' n r.1 r.2) h.
Proof.
  intros Hok Hn. unfold reconcileReleaseFleet. apply wp_agent_ok, wp_ret. cbn [fst snd].
  destruct (check_desired desired) as [u|e]; [|split; [by left|apply quiet_refl]].
  apply wp_agent_bind, wp_ret. cbn [fst snd]. cbv zeta.
  destruct (_ || _) eqn:Ei; [by apply wp_replace|]. bool_inv. apply wp_agent_ok.
  eapply wp_mono; [apply wp_grow; [done|by apply identity_matches_all]|].
  intros h' [[v|e] n'] Hg; cbn [fst snd] in Hg |- *.
  - eapply wp_mono; [by apply wp_shrink|]. intros h'' [r n''] [-> Hd]. exact Hd.
  - destruct Hg as [-> Hq]. by split; [left|].
Qed.
End Launch.
End Fleet.
