(* ===== verification/Routing.v ===== *)
(** * The node's proxy (cmd/canter-node/main.go)

    Requests are spread over the targets in turn; [inflight] counts the
    requests a target is serving, which is what draining waits for.  The table
    is shared by the requests and the reconciliation, under a mutex: its
    operations are atomic, and [route_step] interleaves them. *)

From stdpp Require Import relations.
From S2P Require Import Prelude GoStrings Documents.
#[local] Open Scope Z_scope.

Definition u64 (x : Z) : Z := x mod 2 ^ 64.

Record routing : Type := Routing {
  rt_targets : list string;
  rt_nextTarget : Z;
  rt_inflight : gmap string Z
}.

Definition count_of (r : routing) (target : string) : Z := default 0 (rt_inflight r !! target).

(** No target: 503.  The function returned is [release_target]. *)
Definition acquireTarget (r : routing) : option string * routing :=
  match rt_targets r with
  | [] => (None, r)
  | first :: _ =>
      let target := default first (rt_targets r !! Z.to_nat (rt_nextTarget r mod Z.of_nat (length (rt_targets r)))) in
      (Some target, Routing (rt_targets r) (u64 (rt_nextTarget r + 1))
                      (<[target := add64 (count_of r target) 1]> (rt_inflight r)))
  end.
Definition release_target (target : string) (r : routing) : routing :=
  Routing (rt_targets r) (rt_nextTarget r) (<[target := sub64 (count_of r target) 1]> (rt_inflight r)).
Definition set_routing_targets (targets : list string) (r : routing) : routing :=
  Routing targets (if length targets == 0%nat then 0 else rt_nextTarget r mod Z.of_nat (length targets)) (rt_inflight r).

(** The table and the targets of the requests being served. *)
Inductive route_step : routing * list string -> routing * list string -> Prop :=
  | step_acquire r out target r' : acquireTarget r = (Some target, r') -> route_step (r, out) (r', target :: out)
  | step_unavailable r out r' : acquireTarget r = (None, r') -> route_step (r, out) (r', out)
  | step_release r out1 target out2 : route_step (r, out1 ++ target :: out2) (release_target target r, out1 ++ out2)
  | step_set r out targets : route_step (r, out) (set_routing_targets targets r, out).

(** ** Counting *)
Definition serving (target : string) (out : list string) : Z :=
  Z.of_nat (length (List.filter (fun t => t == target) out)).

Lemma i64_shift x y : i64 (i64 x + y) = i64 (x + y).
Proof.
  unfold i64. f_equal. replace ((x + 2 ^ 63) mod 2 ^ 64 - 2 ^ 63 + y + 2 ^ 63) with ((x + 2 ^ 63) mod 2 ^ 64 + y) by lia.
  rewrite Zplus_mod_idemp_l. f_equal. lia.
Qed.

Lemma serving_cons target t out : serving target (t :: out) = serving target out + if t == target then 1 else 0.
Proof. unfold serving. cbn [List.filter]. destruct (t == target); cbn [length]; lia. Qed.

Lemma serving_middle target t out1 out2 :
  serving target (out1 ++ t :: out2) = serving target (out1 ++ out2) + if t == target then 1 else 0.
Proof.
  unfold serving. rewrite !List.filter_app, !length_app. cbn [List.filter]. destruct (t == target); cbn [length]; lia.
Qed.

Lemma serving_bounds target out : 0 <= serving target out <= Z.of_nat (length out).
Proof. unfold serving. pose proof (List.filter_length_le (fun t => t == target) out). lia. Qed.

Lemma serving_zero target out : serving target out = 0 <-> target ∉ out.
Proof.
  induction out as [|t out IH]; [split; [intros _; apply not_elem_of_nil|done]|].
  rewrite serving_cons, not_elem_of_cons, <- IH. pose proof (serving_bounds target out).
  destruct (decide (t = target)) as [->|E]; [rewrite bool_decide_true by done|rewrite bool_decide_false by done];
    split; [lia|by intros [? _]|split; [congruence|lia]|intros [_ ?]; lia].
Qed.

Record routing_ok (st : routing * list string) : Prop := {
  ro_inflight target : count_of st.1 target = i64 (serving target st.2);
  ro_next : 0 <= rt_nextTarget st.1 < 2 ^ 64;
  ro_size : Z.of_nat (length (rt_targets st.1)) <= 2 ^ 63
}.

Lemma count_insert r ts n target v t :
  count_of (Routing ts n (<[target := v]> (rt_inflight r))) t = if target == t then v else count_of r t.
Proof.
  unfold count_of. cbn [rt_inflight]. destruct (decide (target = t)) as [->|E].
  - by rewrite lookup_insert_eq, bool_decide_true.
  - by rewrite lookup_insert_ne, bool_decide_false.
Qed.

Lemma acquired r target r' :
  acquireTarget r = (Some target, r') ->
  rt_targets r' = rt_targets r /\ rt_nextTarget r' = u64 (rt_nextTarget r + 1) /\
  rt_targets r !! Z.to_nat (rt_nextTarget r mod Z.of_nat (length (rt_targets r))) = Some target /\
  forall t, count_of r' t = if target == t then add64 (count_of r target) 1 else count_of r t.
Proof.
  unfold acquireTarget. destruct (rt_targets r) as [|first rest] eqn:E; [done|]. rewrite <- E. cbv zeta.
  assert (is_Some (rt_targets r !! Z.to_nat (rt_nextTarget r mod Z.of_nat (length (rt_targets r))))) as [t Ht].
  { apply lookup_lt_is_Some. assert (0 < Z.of_nat (length (rt_targets r))) as Hl by (rewrite E; simpl; lia).
    pose proof (Z.mod_pos_bound (rt_nextTarget r) _ Hl). lia. }
  rewrite Ht. cbn [default from_option]. intros [= <- <-]. split_and!; [done..|]. apply count_insert.
Qed.

Lemma routing_ok_step st st' :
  (forall r out targets, st = (r, out) -> st' = (set_routing_targets targets r, out) -> Z.of_nat (length targets) <= 2 ^ 63) ->
  routing_ok st -> route_step st st' -> routing_ok st'.
Proof.
  intros Hsize [Hi Hn Hl] Hstep. destruct Hstep as [r out target r' Ha|r out r' Ha|r out1 target out2|r out targets];
    cbn [fst snd] in *.
  - apply acquired in Ha as (Ht & Hn' & _ & Hc). split; cbn [fst snd].
    + intros t. rewrite Hc, serving_cons. destruct (decide (target = t)) as [->|E].
      * rewrite !bool_decide_true by done. unfold add64. by rewrite Hi, i64_shift.
      * rewrite !bool_decide_false by done. by rewrite Hi, Z.add_0_r.
    + rewrite Hn'. apply Z.mod_pos_bound. lia.
    + by rewrite Ht.
  - unfold acquireTarget in Ha. destruct (rt_targets r) eqn:E; [|done]. injection Ha as <-. split; cbn [fst snd]; [done..|].
    by rewrite E.
  - split; cbn [fst snd rt_nextTarget release_target rt_targets]; [|done..]. intros t. unfold release_target.
    rewrite count_insert, Hi. pose proof (Hi t) as Ht. rewrite serving_middle in Ht |- *.
    destruct (decide (target = t)) as [->|E].
    + rewrite bool_decide_true in Ht |- * by done. unfold sub64. rewrite <- Z.add_opp_r, i64_shift. f_equal. lia.
    + rewrite bool_decide_false in Ht |- * by done. by rewrite Ht, Z.add_0_r.
  - split; cbn [fst snd rt_nextTarget set_routing_targets rt_targets]; [done| |by eapply Hsize].
    case_bool_decide as E; [lia|]. specialize (Hsize r out targets eq_refl eq_refl).
    pose proof (Z.mod_pos_bound (rt_nextTarget r) (Z.of_nat (length targets)) ltac:(lia)). lia.
Qed.

(** ** In turn *)
(** The targets of [k] requests in a row. *)
Fixpoint acquire_many (k : nat) (r : routing) : list string :=
  match k with
  | O => []
  | S k' => match acquireTarget r with (Some target, r') => target :: acquire_many k' r' | (None, _) => [] end
  end.

Lemma acquire_many_rotation k r first rest :
  rt_targets r = first :: rest -> 0 <= rt_nextTarget r -> rt_nextTarget r + Z.of_nat k <= 2 ^ 64 ->
  forall i, (i < k)%nat ->
    acquire_many k r !! i =
    rt_targets r !! Z.to_nat ((rt_nextTarget r + Z.of_nat i) mod Z.of_nat (length (rt_targets r))).
Proof.
  revert r. induction k as [|k IH]; intros r E H0 Hk i Hi; [lia|]. cbn [acquire_many].
  destruct (acquireTarget r) as [[target|] r'] eqn:Ea; [|unfold acquireTarget in Ea; by rewrite E in Ea].
  apply acquired in Ea as (Ht & Hn & Hl & _).
  assert (rt_nextTarget r' = if decide (k = 0)%nat then rt_nextTarget r' else rt_nextTarget r + 1) as Hn'.
  { destruct (decide _); [done|]. rewrite Hn. unfold u64. apply Z.mod_small. lia. }
  destruct i as [|i]; cbn [lookup list_lookup].
  - by rewrite <- Hl, Z.add_0_r.
  - rewrite decide_False in Hn' by lia. change (acquire_many k r' !! i = rt_targets r !! Z.to_nat ((rt_nextTarget r + Z.of_nat (S i)) mod Z.of_nat (length (rt_targets r)))).
    rewrite IH; [|by rewrite Ht|lia..]. rewrite Ht, Hn'. do 3 f_equal. lia.
Qed.

Lemma length_acquire_many k r first rest :
  rt_targets r = first :: rest -> length (acquire_many k r) = k.
Proof.
  revert r. induction k as [|k IH]; intros r E; [done|]. cbn [acquire_many].
  destruct (acquireTarget r) as [[target|] r'] eqn:Ea; [|unfold acquireTarget in Ea; by rewrite E in Ea].
  apply acquired in Ea as (Ht & _). cbn [length]. rewrite IH; [done|]. by rewrite Ht.
Qed.

Lemma rotation (ts l : list string) s :
  ts <> [] -> length l = length ts -> 0 <= s ->
  (forall i, (i < length ts)%nat -> l !! i = ts !! Z.to_nat ((s + Z.of_nat i) mod Z.of_nat (length ts))) ->
  l ≡ₚ ts.
Proof.
  intros Hne Hlen Hs Hl. set (n := Z.of_nat (length ts)) in *. assert (0 < n) as Hn by (destruct ts; [done|subst n; simpl; lia]).
  set (k := Z.to_nat (s mod n)). pose proof (Z.mod_pos_bound s n Hn) as Hb.
  assert (l = drop k ts ++ take k ts) as ->.
  { apply list_eq. intros i. destruct (decide (i < length ts)%nat) as [Hi|Hi].
    - rewrite Hl by done. rewrite <- (Z.add_mod_idemp_l s) by lia.
      destruct (decide (i < length ts - k)%nat) as [Hd|Hd].
      + rewrite lookup_app_l by (rewrite length_drop; lia). rewrite lookup_drop. f_equal.
        rewrite Z.mod_small by lia. lia.
      + rewrite lookup_app_r by (rewrite length_drop; lia). rewrite length_drop, lookup_take by lia.
        rewrite decide_True by lia. f_equal. rewrite <- (Z_mod_plus_full _ (-1)), Z.mod_small by lia. lia.
    - rewrite !lookup_ge_None_2; [done| |lia]. rewrite length_app, length_drop, length_take. lia. }
  rewrite Permutation_app_comm. by rewrite take_drop.
Qed.
