(* ===== verification/ExtractSafety.v ===== *)
(** * Unpacking stays inside its directory

    [extract_guard]: every file created is below the destination, new, not
    below another file and not above one, and the bytes of the files written so
    far stay within the budget. *)

From S2P Require Import Prelude Effects GoStrings Digest Documents SandboxSpec Calls Systems Creation Releases.
From S2P Require Import AgentCalls NodeArtifacts Paths.

Section Extract.
Context `{Unicode} (dest : string) (Hdest : clean_dir dest).

Abbreviation below c := (dest +:+ String "/" c).

(** The files of a history, and the bytes copied into them. *)
Definition created (e : event agent_answer) : list string :=
  match ev_call e with CreateExclusive path _ => [path] | _ => [] end.
Definition files (h : atrace) : list string := h ≫= created.
Definition copied (e : event agent_answer) : Z :=
  match e with Event (CopyN _ size) (Ok _) => size | _ => 0 end.
Fixpoint bytes_copied (h : atrace) : Z := match h with [] => 0 | e :: h' => copied e + bytes_copied h' end.

(** What io.LimitReader guarantees: more than the limit is never copied. *)
Definition limited (h : atrace) (c : agent_call) : agent_answer c -> Prop :=
  match c return agent_answer c -> Prop with
  | CopyN _ size => fun r => r = Ok tt -> size <= maxNodeArtifactBytes + 1
  | _ => fun _ => True
  end.

Definition extract_guard (h : atrace) (c : agent_call) : Prop :=
  bytes_copied h <= maxNodeArtifactBytes /\
  match c with
  | CreateExclusive path mode =>
      (exists name, path = below name /\ safe_path name) /\ path ∉ files h /\ Z.land mode 488 = mode /\
      Forall (fun other => HasPrefix path (other +:+ "/") = false /\ HasPrefix other (path +:+ "/") = false) (files h)
  | MkdirAll path _ => path = dest \/ exists name, path = below name /\ safe_path name
  | CopyN path size => path ∈ files h /\ 0 <= size
  | CloseFile path => path ∈ files h
  | _ => False
  end.

(** The table of names agrees with what was created. *)
Record table_ok (seen : gmap string Z) (h : atrace) : Prop := {
  tb_files path : path ∈ files h -> exists name, path = below name /\ safe_path name /\ seen !! name = Some TypeReg;
  tb_safe name flag : seen !! name = Some flag -> safe_path name
}.

Lemma check_name_safe header clean : check_name header = Ok clean -> safe_path clean.
Proof.
  unfold check_name. cbv zeta. intros ([] & _ & Hc)%result_bind_ok. apply result_bind_ok in Hc as ([] & Hr & [= <-]).
  apply reject_if_ok in Hr. rewrite !orb_false_iff in Hr. destruct Hr as ((((_ & H1) & H2) & H3) & H4). bool_inv.
  by apply Clean_safe.
Qed.

Lemma below_inj a b : below a = below b -> a = b.
Proof. intros E. apply append_inj_l in E. by injection E. Qed.

Lemma below_prefix a b : HasPrefix (below a) (below b +:+ "/") = true -> HasPrefix a (b +:+ "/") = true.
Proof.
  intros [r E]%HasPrefix_spec. apply HasPrefix_spec. exists r.
  assert (below b +:+ "/" +:+ r = dest +:+ String "/" (b +:+ "/" +:+ r)) as Hr by by rewrite <- append_assoc.
  rewrite <- append_assoc in E. rewrite Hr in E. apply below_inj in E. by rewrite <- append_assoc.
Qed.

Lemma find_none_forall {A} (f : A -> bool) l : List.find f l = None -> forall x, x ∈ l -> f x = false.
Proof. intros Hf x Hx. eapply List.find_none; [done|by apply list_elem_of_In]. Qed.

(** A name that collides with nothing. *)
Lemma check_collisions_ok seen header clean :
  check_collisions seen header clean = Ok tt -> safe_path clean ->
  seen !! clean = None /\
  (forall a, seen !! a = Some TypeReg -> HasPrefix clean (a +:+ "/") = false) /\
  (tar_header.Typeflag header = TypeReg -> forall a flag, seen !! a = Some flag -> HasPrefix a (clean +:+ "/") = false).
Proof.
  unfold check_collisions. intros ([] & Hd & Hc)%result_bind_ok Hs. apply reject_if_ok, bool_decide_eq_false in Hd.
  apply result_bind_ok in Hc as ([] & Ha & Hr). split_and!.
  - by destruct (seen !! clean); [destruct Hd|].
  - destruct (List.find _ _) as [x|] eqn:Ef in Ha; [done|]. intros a Hra. apply not_true_is_false. intros Hp.
    apply HasPrefix_spec in Hp as [r E].
    assert (a ∈ ancestors (String.length clean) clean) as Hin.
    { rewrite <- append_assoc in E. change (a +:+ ("/" +:+ r)) with (a +:+ String "/" r) in E. subst clean.
      by apply below_ancestor. }
    apply (find_none_forall _ _ Ef) in Hin. by rewrite Hra in Hin.
  - intros Htype a flag Hfa. rewrite Htype, Z.eqb_refl in Hr.
    destruct (List.find _ _) as [x|] eqn:Ef in Hr; [done|]. apply (find_none_forall _ _ Ef).
    apply list_elem_of_fmap. exists (a, flag). split; [done|]. by apply elem_of_map_to_list.
Qed.

(** ** One entry *)
Abbreviation wpE p Q h := (wp limited extract_guard p Q h).

Lemma table_insert seen h clean flag :
  table_ok seen h -> seen !! clean = None -> safe_path clean -> table_ok (<[clean := flag]> seen) h.
Proof.
  intros [Hf Hs] Hnew Hc. split.
  - intros path Hp. destruct (Hf path Hp) as (name & -> & Hn & Hl). exists name. split_and!; [done..|].
    rewrite lookup_insert_ne; [done|]. congruence.
  - intros name f. rewrite lookup_insert_Some. intros [[<- _]|[_ Hl]]; [done|by eapply Hs].
Qed.

Lemma table_file seen h c r clean :
  table_ok seen h -> created (Event c r) = [below clean] -> seen !! clean = Some TypeReg -> safe_path clean ->
  table_ok seen (Event c r :: h).
Proof.
  intros [Hf Hs] Hc Hl Hsafe. split; [|done]. intros path. unfold files. rewrite bind_cons, Hc, elem_of_app.
  intros [->%list_elem_of_singleton|Hp]; [by exists clean|by apply Hf].
Qed.

Record payload_ok (payload : Z) (h : atrace) : Prop := {
  py_copied : bytes_copied h <= payload;
  py_range : 0 <= payload <= maxNodeArtifactBytes
}.

Lemma payload_event payload h c r : copied (Event c r) = 0 -> payload_ok payload h -> payload_ok payload (Event c r :: h).
Proof. intros Hc [H1 H2]. split; [|done]. cbn [bytes_copied]. lia. Qed.

Lemma new_file seen h clean :
  table_ok seen h -> safe_path clean -> seen !! clean = None ->
  (forall a, seen !! a = Some TypeReg -> HasPrefix clean (a +:+ "/") = false) ->
  (forall a flag, seen !! a = Some flag -> HasPrefix a (clean +:+ "/") = false) ->
  below clean ∉ files h /\
  Forall (fun other => HasPrefix (below clean) (other +:+ "/") = false /\
                       HasPrefix other (below clean +:+ "/") = false) (files h).
Proof.
  intros Ht Hsafe Hnew Hup Hdown. split.
  - intros Hin. apply (tb_files _ _ Ht) in Hin as (name & E & _ & Hl). apply below_inj in E as <-. congruence.
  - apply Forall_forall. intros other Hin. apply (tb_files _ _ Ht) in Hin as (name & -> & _ & Hl).
    split; apply not_true_is_false; intros Hp%below_prefix; [by rewrite (Hup name) in Hp|by rewrite (Hdown name _ Hl) in Hp].
Qed.

Lemma wp_extract_entry seen header clean payload Q h :
  table_ok seen h -> payload_ok payload h -> safe_path clean -> check_collisions seen header clean = Ok tt ->
  0 <= tar_header.Size header ->
  (forall h' e, Q h' (Err e)) ->
  (forall h' payload', table_ok (<[clean := tar_header.Typeflag header]> seen) h' -> payload_ok payload' h' ->
     Q h' (Ok payload')) ->
  wpE (extract_entry dest header clean payload) Q h.
Proof.
  intros Ht Hp Hsafe Hcol Hsize Herr Hok. destruct (check_collisions_ok _ _ _ Hcol Hsafe) as (Hnew & Hup & Hdown).
  unfold extract_entry. cbv zeta. rewrite path_Join_below by done.
  assert (bytes_copied h <= maxNodeArtifactBytes) as Hb by (destruct Hp as [? [? ?]]; lia).
  pose proof (table_insert seen h clean (tar_header.Typeflag header) Ht Hnew Hsafe) as Hti.
  destruct (_ =? TypeDir) eqn:Edir.
  { destruct (negb _); [by apply Herr|]. apply wp_bind_ok. unfold ask. wp_ask_as r Hr.
    - split; [done|]. right. by exists clean.
    - destruct r as [u|e]; [|by apply Herr]. apply wp_ret, Hok; [|by apply payload_event].
      destruct Hti as [Hf Hs]. by split. }
  destruct (_ =? TypeReg) eqn:Ereg; [|by apply Herr]. apply Z.eqb_eq in Ereg. rewrite Ereg in *.
  destruct (_ <? _) eqn:Emax; [by apply Herr|]. bool_inv.
  destruct (new_file seen h clean Ht Hsafe Hnew Hup (Hdown eq_refl)) as [Hfresh Hapart].
  apply wp_bind_ok. unfold ask. wp_ask_as r Hr.
  { split; [done|]. destruct (Dir_below dest clean Hdest Hsafe) as [->|(q & -> & Hq)]; [by left|right; by exists q]. }
  destruct r as [u|e]; [|by apply Herr]. apply wp_bind_ok. wp_ask_as r Hr1.
  { split; [done|]. split_and!; [by exists clean|done| |done]. rewrite <- Z.land_assoc. by rewrite Z.land_diag. }
  destruct r as [u1|e]; [|by apply Herr].
  match goal with |- wp _ _ _ _ ?h2 => set (h2' := h2) in *; assert (table_ok (<[clean:=TypeReg]> seen) h2') as Ht2 end.
  { apply (table_file _ _ _ _ clean); [|done|by rewrite lookup_insert_eq|done]. destruct Hti as [Hf Hs]. by split. }
  assert (payload_ok payload h2') as Hp2 by (unfold h2'; do 2 (apply payload_event; [done|]); done).
  assert (below clean ∈ files h2') as Hin by (unfold h2', files; rewrite bind_cons; by left).
  clearbody h2'. apply wp_bind. wp_ask_as r Hc; [split; [destruct Hp2 as [? [? ?]]; lia|done]|].
  assert (forall u, r = Ok u -> add64 payload (tar_header.Size header) = payload + tar_header.Size header) as Hadd.
  { intros [] ->. specialize (Hc eq_refl). destruct Hp2 as [_ Hrange]. unfold add64. apply i64_id.
    unfold int_range, min_int, max_int, maxNodeArtifactBytes in *. lia. }
  assert (forall u, r = Ok u -> payload_ok (add64 payload (tar_header.Size header)) (Event (CopyN (below clean) (tar_header.Size header)) r :: h2')) as Hp3.
  { intros u3 ->. rewrite (Hadd u3 eq_refl) in *. destruct Hp2 as [Hcp Hrange]. split; [cbn [bytes_copied copied]; lia|lia]. }
  apply wp_bind. wp_ask_as r2 Hr2.
  { split; [|by unfold files; rewrite bind_cons; cbn [created ev_call app]].
    destruct r as [u'|e]; [|cbn [bytes_copied copied]; destruct Hp2 as [? [? ?]]; lia].
    destruct (Hp3 u' eq_refl) as [? [? ?]]. lia. }
  destruct r as [u'|e], r2 as [u2|e2]; try by apply Herr. apply wp_ret, Hok.
  - destruct Ht2 as [Hf Hs]. by split.
  - apply payload_event; [done|]. by apply (Hp3 u').
Qed.

Lemma check_metadata_size header clean : check_metadata header clean = Ok tt -> 0 <= tar_header.Size header.
Proof.
  unfold check_metadata. cbv zeta. intros ([] & _ & Hc)%result_bind_ok. apply reject_if_ok in Hc. bool_inv. done.
Qed.

Lemma wp_extract_entries headers seen entries payload h :
  table_ok seen h -> payload_ok payload h ->
  wpE (extract_entries dest headers seen entries payload) (fun h' r => bytes_copied h' <= maxNodeArtifactBytes \/ is_ok r = false) h.
Proof.
  revert seen entries payload h. induction headers as [|header rest IH]; intros seen entries payload h Ht Hp.
  { apply wp_ret. left. destruct Hp as [? [? ?]]. lia. }
  cbn [extract_entries]. cbv zeta.
  destruct (check_entry (entries + 1) seen header) as [clean|e] eqn:Ec; [|by right]. rewrite bind_ok_lift.
  unfold check_entry in Ec. apply result_bind_ok in Ec as ([] & _ & Ec). apply result_bind_ok in Ec as (c & Hname & Ec).
  apply result_bind_ok in Ec as ([] & Hcol & Ec). apply result_bind_ok in Ec as ([] & Hmeta & [= ->]).
  apply wp_bind_ok. eapply wp_extract_entry; [done|done|by eapply check_name_safe|done|by eapply check_metadata_size|by right|].
  intros h' payload' Ht' Hp'. by apply IH.
Qed.
End Extract.
