(* ===== verification/NodeTurns.v ===== *)
(** * What holds over the turns of the node agent

    [turn_guard]: a process is signalled only when traffic is not routed to it,
    or when it was seen to have exited.  [calm] programs of the agent neither
    signal, nor route, nor change the fleet. *)

From S2P Require Import Prelude Effects GoStrings Digest Documents Json SandboxSpec Calls Systems Creation Releases.
From S2P Require Import Nodes AgentCalls NodeArtifacts Postgres NodeAgent NodeReconcile NodeFleet.

Definition turn_guard (h : atrace) (c : agent_call) : Prop :=
  match c with
  | Signal p _ => processTarget p ∉ routed [] h \/ exists e, Event (R := agent_answer) (Exited p) (Some e) ∈ h
  | _ => True
  end.

Abbreviation wpT p Q h := (wp (fun _ _ _ => True) turn_guard p Q h).
Abbreviation quietT := (quiet []).

Lemma fleet_turn h c : fleet_guard [] h c -> turn_guard h c.
Proof. destruct c; try done. by left. Qed.

Lemma wp_inert_turn {A} (p : aprog A) h : safe inert p -> wpT p (fun h' _ => quietT h h') h.
Proof. intros Hp. eapply wp_guard; [exact fleet_turn|by apply safe_inert_quiet]. Qed.

(** ** Calm programs *)
Definition calm {A} (m : agent A) : Prop :=
  forall n h, wpT (m n) (fun h' r => quietT h h' /\ node.active r.2 = node.active n) h.

Lemma calm_ret {A} (a : A) : calm (mret a).
Proof. intros n h. split; [apply quiet_refl|done]. Qed.
Lemma calm_get : calm get.
Proof. intros n h. split; [apply quiet_refl|done]. Qed.
Lemma calm_modify f : (forall n, node.active (f n) = node.active n) -> calm (modify f).
Proof. intros Hf n h. split; [apply quiet_refl|apply Hf]. Qed.
Lemma calm_run {A} (p : aprog A) : safe inert p -> calm (run_ask p).
Proof. intros Hp n h. apply wp_run_ask. eapply wp_mono; [by apply wp_inert_turn|]. done. Qed.
Lemma calm_bind {A B} (m : agent A) (f : A -> agent B) : calm m -> (forall a, calm (f a)) -> calm (m ≫= f).
Proof.
  intros Hm Hf n h. apply wp_agent_bind. eapply wp_mono; [apply Hm|]. intros h' [a n'] [Hq Ha]. cbn [fst snd] in *.
  eapply wp_mono; [apply Hf|]. intros h'' r [Hq' Ha']. split; [by eapply quiet_trans|congruence].
Qed.
Lemma calm_ok {A B} (m : agent (result A)) (k : A -> agent (result B)) : calm m -> (forall a, calm (k a)) -> calm (agent_ok m k).
Proof. intros Hm Hk. apply calm_bind; [done|]. intros [a|e]; [apply Hk|apply calm_ret]. Qed.

Create HintDb calm.
#[export] Hint Resolve calm_ret calm_get : calm.
#[export] Hint Extern 1 (calm (modify _)) => (by apply calm_modify) : calm.
Ltac calm_step :=
  match goal with
  | |- forall _, _ => intro
  | |- calm (agent_ok _ _) => apply calm_ok
  | |- calm (_ ≫= _) => apply calm_bind
  | |- calm (run_ask _) => apply calm_run
  | |- calm (match ?x with _ => _ end) => destruct x
  | |- calm _ => solve [eauto with calm]
  | |- safe inert (ask _) => by apply (safe_call (R := agent_answer))
  | |- safe inert agent_now => by apply (safe_call (R := agent_answer))
  end.
Ltac calm_tac := repeat (cbv beta zeta; calm_step).

Section Turns.
Context `{Unicode} (open_archive : string -> result archive) (fuel : nat).

(** ** The drivers of [main] *)
Ltac inert_tac := unfold ask, agent_now; safe_tac; done || by apply (safe_call (R := agent_answer)).

Lemma inert_credentials n root service : safe inert (credentials n root service).
Proof.
  induction n as [|n IH]; [apply safe_ret|]. cbn [credentials].
  unfold read_credentials, create_credentials, write_temporary, sync_directory, closing. inert_tac.
Qed.
Lemma inert_ready n database : safe inert (ready_loop n database).
Proof. induction n as [|n IH]; cbn [ready_loop]; [apply safe_ret|]. unfold run. inert_tac. Qed.
Hint Resolve inert_credentials inert_ready : safe.

Lemma inert_Postgres_Ensure root service : safe inert (Postgres_Ensure fuel root service).
Proof. unfold Postgres_Ensure, install, ensure_role, ensure_database, run. inert_tac. Qed.
Lemma inert_Postgres_Execute root service action : safe inert (Postgres_Execute fuel root service action).
Proof. unfold Postgres_Execute, psql. inert_tac. Qed.

Definition inert_driver (d : Driver.Driver) : Prop :=
  (forall service, safe inert (Driver.Ensure d service)) /\
  forall execute, Driver.Execute d = Some execute -> forall service action, safe inert (execute service action).
Lemma inert_Postgres root : inert_driver (Postgres fuel root).
Proof. split; [apply inert_Postgres_Ensure|]. intros execute [= <-] service action. apply inert_Postgres_Execute. Qed.

Context (drivers : Registry) (Hdrivers : map_Forall (fun _ d => inert_driver d) drivers).

Lemma inert_Registry_Execute plan action : safe inert (Registry_Execute drivers plan action).
Proof.
  unfold Registry_Execute. destruct (List.find _ _) as [service|]; [|apply safe_ret]. cbv zeta.
  destruct (drivers !! _) as [d|] eqn:Ed; [|apply safe_ret]. destruct (Driver.Execute d) as [execute|] eqn:Ex; [|apply safe_ret].
  by apply (proj2 (Hdrivers _ _ Ed)).
Qed.

Lemma inert_ensure_services services bindings observed : safe inert (ensure_services drivers services bindings observed).
Proof.
  revert bindings observed. induction services as [|service rest IH]; intros bindings observed; [apply safe_ret|].
  cbn [ensure_services]. cbv zeta. destruct (drivers !! _) as [d|] eqn:Ed; [|apply safe_ret].
  apply safe_bind; [apply (proj1 (Hdrivers _ _ Ed))|]. intros [res|e]; [|apply safe_ret].
  destruct (ServiceBindingName _); [apply IH|apply safe_ret].
Qed.

(** ** The parts of a turn *)
Lemma calm_publish fingerprint o : calm (publish_observed fingerprint o).
Proof. unfold publish_observed. calm_tac. Qed.
Hint Resolve calm_publish : calm.
Lemma calm_writeObserved o : calm (writeObserved o).
Proof. unfold writeObserved. calm_tac. Qed.
Lemma calm_observed desired phase healthy message : calm (observed desired phase healthy message).
Proof. unfold observed. calm_tac. Qed.
Lemma calm_applyControl control : calm (applyControl control).
Proof. unfold applyControl. calm_tac. Qed.
Lemma calm_reconcileServices plan : calm (reconcileServices drivers plan).
Proof. pose proof inert_ensure_services. unfold reconcileServices, Registry_Ensure. calm_tac. auto. Qed.
Lemma calm_reconcileRuntimeAction envelope : calm (reconcileRuntimeAction drivers envelope).
Proof. pose proof inert_Registry_Execute. unfold reconcileRuntimeAction. calm_tac. auto. Qed.
Hint Resolve calm_writeObserved calm_observed calm_applyControl calm_reconcileServices calm_reconcileRuntimeAction : calm.

(** ** The invariant of a turn *)
Definition settled (h : atrace) (n : node) : Prop := fleet_ok [] h n.
Definition keeps {A} (m : agent A) : Prop := forall n h, settled h n -> wpT (m n) (fun h' r => settled h' r.2) h.

Lemma settled_quiet h h' n n' : quietT h h' -> node.active n' = node.active n -> settled h n -> settled h' n'.
Proof. intros [Hq _] Ha [H1 H2]. split; rewrite Ha; [by rewrite Hq|done]. Qed.

Lemma keeps_calm {A} (m : agent A) : calm m -> keeps m.
Proof.
  intros Hm n h Hn. eapply wp_mono; [apply Hm|]. intros h' r [Hq Ha]. by eapply settled_quiet.
Qed.
Lemma keeps_bind {A B} (m : agent A) (f : A -> agent B) : keeps m -> (forall a, keeps (f a)) -> keeps (m ≫= f).
Proof.
  intros Hm Hf n h Hn. apply wp_agent_bind. eapply wp_mono; [by apply Hm|]. intros h' [a n'] Hn'. by apply Hf.
Qed.
Lemma keeps_ok {A B} (m : agent (result A)) (k : A -> agent (result B)) : keeps m -> (forall a, keeps (k a)) -> keeps (agent_ok m k).
Proof. intros Hm Hk. apply keeps_bind; [done|]. intros [a|e]; [apply Hk|apply keeps_calm, calm_ret]. Qed.
Lemma keeps_get {B} (f : node -> agent B) : (forall n h, settled h n -> wpT (f n n) (fun h' r => settled h' r.2) h) -> keeps (get ≫= f).
Proof. intros Hf n h Hn. by apply Hf. Qed.

(** ** Replicas that exited *)
Lemma wp_stop_exited p Q h :
  (exists e, Event (R := agent_answer) (Exited p) (Some e) ∈ h) -> (forall h', quietT h h' -> Q h' tt) -> wpT (stop p) Q h.
Proof.
  intros [e He] HQ. unfold stop, ask. apply wp_bind. wp_ask; [right; by exists e|]. apply wp_bind. wp_ask.
  apply wp_bind. wp_ask; [right; exists e; set_solver|]. apply wp_bind. wp_ask.
  apply wp_ret, HQ. do 4 (eapply quiet_trans; [|by apply quiet_event]). apply quiet_refl.
Qed.

Definition reaped (l : list process) (n : node) (h : atrace) (h' : atrace) (r : (list process * Z) * node) : Prop :=
  quietT h h' /\ node.active r.2 = node.active n /\ sublist r.1.1 l /\
  r.1.2 = Z.of_nat (length l) - Z.of_nat (length r.1.1).

Lemma wp_reap l n h : wpT (reap l n) (reaped l n h) h.
Proof.
  revert n h. induction l as [|p l IH]; intros n h; cbn [reap]; [split; [apply quiet_refl|done]|].
  apply wp_agent_bind, wp_run_ask. unfold ask. wp_ask. cbn [fst snd].
  assert (quietT h (Event (R := agent_answer) (Exited p) a :: h)) as Hq0 by by apply quiet_event. destruct a as [e|].
  - apply wp_agent_bind, wp_run_ask, wp_stop_exited; [exists e; left|]. intros h1 Hq1. cbn [fst snd].
    apply wp_agent_bind, wp_ret. cbn [fst snd]. apply wp_agent_bind. eapply wp_mono; [apply IH|].
    intros h2 [[survivors count] n'] (Hq & Ha & Hs & Hc). cbn [fst snd] in *. apply wp_ret. split_and!; cbn [fst snd].
    + eapply quiet_trans; [exact Hq0|]. by eapply quiet_trans.
    + done.
    + by apply sublist_cons.
    + rewrite Hc. cbn [length]. lia.
  - apply wp_agent_bind. eapply wp_mono; [apply IH|]. intros h2 [[survivors count] n'] (Hq & Ha & Hs & Hc).
    cbn [fst snd] in *. apply wp_ret. split_and!; cbn [fst snd]; [by eapply quiet_trans|done|by apply sublist_skip|].
    rewrite Hc. cbn [length]. lia.
Qed.

Lemma keeps_reapExited : keeps reapExited.
Proof.
  unfold reapExited. apply keeps_get. intros n h Hn. apply wp_agent_bind. eapply wp_mono; [apply wp_reap|].
  intros h1 [[survivors count] n1] (Hq & Ha & Hs & Hc). cbn [fst snd] in *. destruct (count =? 0).
  - apply wp_ret. by eapply settled_quiet.
  - apply wp_agent_bind, wp_ret. cbn [fst snd]. unfold setTargets. apply wp_agent_bind, wp_run_ask. unfold ask. wp_ask.
    apply wp_ret. cbn [fst snd]. destruct Hn as [_ Hp]. split; [done|]. cbn [node.active node.with_active].
    eapply sublist_NoDup; [exact Hp|]. by apply fmap_sublist.
Qed.

(** ** The release *)
Lemma keeps_fleet desired : 1 <= ReleaseManifest.Replicas desired -> keeps (reconcileReleaseFleet open_archive fuel desired).
Proof.
  intros Hr n h Hn. eapply wp_mono; [eapply wp_guard; [exact fleet_turn|by apply (wp_fleet open_archive fuel desired [])]|].
  intros h' [[u|e] n']; cbn [fst snd]; [by intros [[Hd _] _]|].
  intros [Hu Hq]. eapply settled_quiet; [exact Hq| |exact Hn]. by destruct Hu as [->| ->].
Qed.

Lemma keeps_reconcile_release desired :
  1 <= ReleaseManifest.Replicas desired -> keeps (reconcile_release open_archive fuel desired).
Proof.
  intros Hr. unfold reconcile_release. apply keeps_bind; [apply keeps_calm, calm_get|]. intros n.
  destruct (_ && _); [apply keeps_calm, calm_ret|]. apply keeps_bind; [by apply keeps_fleet|]. intros r.
  apply keeps_bind; [apply keeps_calm, calm_get|]. intros n'. apply keeps_calm. calm_tac.
Qed.

Lemma effective_replicas system d h :
  wpT (effective_desired system d) (fun h' r => quietT h h' /\ forall m, r = Ok m -> 1 <= ReleaseManifest.Replicas m) h.
Proof.
  unfold effective_desired. cbv zeta. destruct (_ || _); [by split; [apply quiet_refl|]|].
  set (m := if ReleaseManifest.Replicas (desired_of d) <? 1 then _ else _).
  assert (1 <= ReleaseManifest.Replicas m) as Hm.
  { subst m. destruct (_ <? 1) eqn:E; [cbn; lia|]. by apply Z.ltb_ge in E. }
  clearbody m. destruct (ReleaseManifest.CapacityLease_ m) as [lease|]; [|split; [apply quiet_refl|by intros ? [= <-]]].
  destruct (_ || _) eqn:El; [by split; [apply quiet_refl|]|]. apply orb_false_iff in El as [_ El]. apply Z.ltb_ge in El.
  apply wp_bind. unfold agent_now. wp_ask. apply wp_ret. split; [by apply quiet_event|]. intros m' [= <-].
  by destruct (_ <? _).
Qed.

Lemma keeps_desired d : keeps (n ← get; agent_ok (run_ask (effective_desired (node.system n) d)) (reconcile_release open_archive fuel)).
Proof.
  apply keeps_get. intros n h Hn. apply wp_agent_ok, wp_run_ask. eapply wp_mono; [apply effective_replicas|].
  intros h' [m|e] [Hq Hm]; cbn [fst snd]; [|by eapply settled_quiet].
  apply keeps_reconcile_release; [by apply Hm|]. by eapply settled_quiet.
Qed.

(** ** The turn *)
Lemma keeps_reconcile : keeps (reconcile open_archive drivers fuel).
Proof.
  unfold reconcile. apply keeps_ok; [apply keeps_calm; calm_tac|]. intros snapshot.
  apply keeps_bind; [apply keeps_calm, calm_get|]. intros n. destruct (_ || _); [apply keeps_calm, calm_ret|].
  apply keeps_bind; [apply keeps_reapExited|]. intros exited.
  apply keeps_bind; [apply keeps_calm; calm_tac|]. intros _. apply keeps_ok; [apply keeps_calm; calm_tac|]. intros _.
  apply keeps_bind; [apply keeps_calm; calm_tac|]. intros [u|e]; [|apply keeps_calm; calm_tac].
  apply keeps_bind; [apply keeps_calm; calm_tac|]. intros _.
  destruct (NodeSnapshot.Desired_ snapshot) as [d|]; [apply keeps_desired|].
  apply keeps_calm. calm_tac.
Qed.

Lemma keeps_run_node turns : keeps (run_node open_archive drivers fuel turns).
Proof.
  induction turns as [|turns IH]; [apply keeps_calm, calm_ret|]. cbn [run_node]. apply keeps_bind; [apply keeps_reconcile|].
  intros _. apply keeps_bind; [apply keeps_calm; calm_tac|]. intros [e|]; [apply keeps_calm, calm_ret|done].
Qed.
End Turns.
