(* ===== verification/Readers.v ===== *)
(** * Operations that only read

    Status, waits and checks make no call that changes anything outside; under
    any guard that lets reads pass they are safe.  Drafting a Change writes no
    more than [draft_guard] says. *)

From S2P Require Import Prelude Effects GoStrings Digest Documents Json SandboxSpec Calls Systems Creation Exposure Releases.
From S2P Require Import Changes ChangeRun Nodes.

Section Readers.
Context `{Unicode}.

Lemma reading_refresh l : safe reading (refresh_resources l).
Proof. induction l as [|r l IH]; cbn [refresh_resources]; safe_tac. Qed.
Hint Resolve reading_refresh : safe.

Lemma reading_Status spec : safe reading (Client_Status spec).
Proof. unfold Client_Status. safe_tac. Qed.

Lemma reading_SystemHostStatus s : safe reading (SystemHostStatus s).
Proof. apply reading_Status. Qed.

Lemma reading_ReleaseStatus s : safe reading (ReleaseStatus s).
Proof. apply reading_Get. Qed.
Hint Resolve reading_SystemHostStatus reading_ReleaseStatus : safe.

Section Waits.
Context (fuel : nat).

Lemma reading_waitRuntimeAction s id : safe reading (waitRuntimeAction fuel s id).
Proof. unfold waitRuntimeAction. safe_tac. Qed.
Lemma reading_waitReleaseVersion s version t : safe reading (waitReleaseVersion fuel s version t).
Proof. unfold waitReleaseVersion. safe_tac. Qed.
Lemma reading_waitReleaseReplicas s version n t : safe reading (waitReleaseReplicas fuel s version n t).
Proof. unfold waitReleaseReplicas. safe_tac. Qed.
End Waits.

Lemma reading_assert_state s plan : safe reading (assert_state s plan).
Proof. unfold assert_state. safe_tac. Qed.

Lemma reading_ReadLeaseGuard : safe reading ReadLeaseGuard.
Proof. by apply reading_call. Qed.
Hint Resolve reading_ReadLeaseGuard : safe.

Lemma reading_Assert : safe reading Assert.
Proof. unfold Assert. safe_tac. Qed.
Lemma reading_Token : safe reading Token.
Proof. unfold Token. safe_tac. Qed.

Lemma reading_verify_http s plan : safe reading (verify_http s plan).
Proof. unfold verify_http. safe_tac; by apply reading_call. Qed.

Lemma reading_InspectChange s id : safe reading (InspectChange s id).
Proof. unfold InspectChange. safe_tac. Qed.

(** A change that passes inspection is the one stored under its key. *)
Lemma wp_InspectChange rely (guar : trace -> sdk_call -> Prop) s id Q h :
  guar h (M1Get KChange (changeKey s id)) ->
  (forall h' e, Q h' (Err e)) ->
  (forall c, System_Validate s = Ok tt -> Change.ID c = id ->
     Q (Event (R := answer) (M1Get KChange (changeKey s id)) (Ok c) :: h) (Ok c)) ->
  wp rely guar (InspectChange s id) Q h.
Proof.
  intros Hg Herr Hok. unfold InspectChange. apply wp_bind_ok. apply wp_ret.
  destruct (System_Validate s) as [[]|e] eqn:Ev; [|apply Herr]. destruct (negb (safeName id)); [apply Herr|].
  apply wp_bind_ok. unfold Get. wp_ask. destruct a as [c|e]; [|apply Herr]. cbv zeta. apply wp_ret.
  destruct (_ || _); [apply Herr|]. destruct (Change.ID c != id) eqn:Eid; [apply Herr|].
  destruct (_ || _); [apply Herr|]. bool_inv. by apply Hok.
Qed.
End Readers.

#[export] Hint Resolve reading_Status reading_SystemHostStatus reading_ReleaseStatus reading_waitRuntimeAction
  reading_waitReleaseVersion reading_waitReleaseReplicas reading_assert_state reading_Assert reading_Token
  reading_ReadLeaseGuard reading_verify_http reading_InspectChange : safe.

(** ** Drafting

    The artifact, release records and the change itself; never the desired
    release, the provider or the runtime. *)
Section DraftSafety.
Context `{Unicode}.

(** A draft stages an artifact, records releases and the change itself. *)
Definition draft_guard (s : System) (h : trace) (call : sdk_call) : Prop :=
  match call with
  | M1PutJSON KManifest key _ | M1PutJSONIfAbsent KManifest key _ =>
      HasPrefix key (system_base s +:+ "/releases/") = true
  | M1PutJSON KChange key v => key = changeKey s (Change.ID v)
  | M1Put key _ _ => HasPrefix key (system_base s +:+ "/artifacts/") = true
  | call => reading h call
  end.

(** What is drafted: pending operations under the digest of the plan. *)
Definition drafted (s : System) (r : result Change) : Prop :=
  match r with
  | Ok c => Change.Phase c = "drafted" /\ Change.System c = name_of s /\ Change.Authorization_ c = None /\
      digestChange (Change.Plan_ c) (Change.Operations c) = Ok (Change.Digest c) /\
      Forall (fun o => ChangeOperation.Phase o = "pending") (Change.Operations c)
  | Err _ => True
  end.

Lemma draft_asked s call : (forall h, draft_guard s h call) -> safe (R := answer) (draft_guard s) (Effects.call call).
Proof. apply safe_call. Qed.
Lemma draft_reading s {A} (p : sdk A) : safe reading p -> safe (draft_guard s) p.
Proof. apply safe_mono. intros h [] Hr; by try destruct k. Qed.

Lemma key_under s part rest : HasPrefix (system_base s +:+ part +:+ rest) (system_base s +:+ part) = true.
Proof. apply HasPrefix_spec. exists rest. by rewrite append_assoc. Qed.

Lemma draft_persist s m : safe (draft_guard s) (persistReleaseManifest s m).
Proof.
  unfold persistReleaseManifest. cbv zeta. apply safe_bind_ok.
  { unfold PutJSONIfAbsent. apply draft_asked. intros h. apply key_under. }
  intros [etag []]; [apply safe_ret|]. apply safe_bind_ok; [apply draft_reading; auto with safe|].
  intros [existing|]; [|apply safe_ret]. destruct (_ != _); [apply safe_ret|]. apply draft_asked. intros h. apply key_under.
Qed.

Lemma draft_stage s input : safe (draft_guard s) (StageRelease s input).
Proof.
  unfold StageRelease. do 2 (apply safe_bind_ok; [apply safe_ret|intros ?]).
  apply safe_bind_ok; [apply draft_reading; unfold readReleaseArtifact; safe_tac; by apply reading_call|].
  intros artifact. cbv zeta. unfold bind_wrap. apply safe_bind.
  { unfold Put. apply draft_asked. intros h. apply (key_under s "/artifacts/"). }
  intros [u'|e]; [|apply safe_ret]. apply safe_bind; [apply draft_reading; auto with safe|]. intros t.
  apply safe_bind; [apply draft_persist|]. intros [u2|e]; apply safe_ret.
Qed.

Definition drafted_as (s : System) (plan : ChangePlan) (r : result Change) : Prop :=
  drafted s r /\ forall c, r = Ok c -> Change.Plan_ c = plan.

Lemma post_draft actor s summary plan ops :
  Forall (fun o => ChangeOperation.Phase o = "pending") ops ->
  safe_post (draft_guard s) (drafted_as s plan) (draft actor s summary plan ops).
Proof.
  intros Hops. unfold draft. destruct (digestChange plan ops) as [digest|e] eqn:Ed; [|by apply safe_post_ret].
  rewrite bind_ok_lift. apply safe_post_any; [apply draft_reading; auto with safe|]. intros t.
  apply safe_post_any; [apply draft_reading; auto with safe|]. intros id. cbv zeta.
  unfold saveChange. intros h. apply wp_bind, wp_bind. unfold now. wp_ask. apply wp_bind. unfold PutJSON. wp_ask.
  destruct a0; [|done]. split; [done|]. by intros c [= <-].
Qed.

Lemma post_draft_release s input observed desired : safe (draft_guard s) (draft_release s input observed desired).
Proof.
  unfold draft_release. apply safe_bind_ok; [apply draft_stage|]. intros release. cbv zeta.
  apply safe_bind; [apply draft_reading; safe_tac|]. intros release'. unfold bind_wrap. apply safe_bind.
  { unfold PutJSON. apply draft_asked. intros h. apply key_under. }
  intros [u|e]; apply safe_ret.
Qed.

Lemma post_bind_wrap s {A B} (P : result B -> Prop) (p : sdk (result A)) wrap k :
  safe (draft_guard s) p -> (forall e, P (Err e)) -> (forall a, safe_post (draft_guard s) P (k a)) ->
  safe_post (draft_guard s) P (bind_wrap p wrap k).
Proof. intros Hp HP Hk. apply safe_post_any; [done|]. intros [a|e]; [apply Hk|by apply safe_post_ret]. Qed.

Lemma post_bind_ok s {A B} (P : result B -> Prop) (p : sdk (result A)) k :
  safe (draft_guard s) p -> (forall e, P (Err e)) -> (forall a, safe_post (draft_guard s) P (k a)) ->
  safe_post (draft_guard s) P (bind_ok p k).
Proof. intros Hp HP Hk. apply safe_post_any; [done|]. intros [a|e]; [apply Hk|by apply safe_post_ret]. Qed.

Lemma post_migration s input plan :
  safe_post (draft_guard s)
    (fun r => forall plan' ops, r = Ok (plan', ops) -> Forall (fun o => ChangeOperation.Phase o = "pending") ops)
    (draft_migration input plan).
Proof.
  unfold draft_migration. destruct (_ == _); [by apply safe_post_ret; intros ? ? [= <- <-]|].
  apply post_bind_ok; [apply draft_reading; by apply reading_call|done|intros sql].
  destruct (_ || _); [by apply safe_post_ret|]. apply post_bind_ok; [apply safe_ret|done|intros u].
  apply safe_post_ret. intros ? ? [= <- <-]. by repeat constructor.
Qed.

End DraftSafety.
