(* ===== verification/Uploads.v ===== *)
(** * Uploaded artifacts (internal/controlplane/initial_deployment.go)

    What the control plane accepts as an application: the same reader, gzip and
    tar, as on the node ([open_archive] of [NodeArtifacts]); [read_member] is
    what discarding the body of a member answers.  The node unpacks whatever
    is accepted here. *)

From S2P Require Import Prelude Effects GoStrings Documents ControlDocuments SandboxSpec Calls AgentCalls NodeArtifacts.
#[local] Open Scope Z_scope.

Section Uploads.
Context `{Unicode} (open_archive : string -> result archive) (read_member : string -> tar_header -> result unit).

Definition maxArtifactBytes : Z := 64 * 2 ^ 20.
Definition maxExpandedArtifactBytes : Z := 512 * 2 ^ 20.
Definition maxArtifactEntries : Z := 4096.
Definition maxArtifactPathBytes : Z := 512.
Definition maxArtifactMetadataBytes : Z := 16 * 2 ^ 10.

Definition upload_name (header : tar_header) : result string :=
  let name := tar_header.Name header in
  reject_if ((slen name =? 0) || (maxArtifactPathBytes <? slen name) || Contains name "\")
    (Errorf ("artifact contains invalid path " +:+ Quote name));;
  let clean := Clean name in
  let canonicalName := if tar_header.Typeflag header =? TypeDir then TrimSuffix name "/" else name in
  reject_if ((clean != canonicalName) || (clean == ".") || (clean == "..") || HasPrefix name "/" || HasPrefix clean "../")
    (Errorf ("artifact contains unsafe path " +:+ Quote name));;
  Ok clean.

Definition upload_collisions (seen : gmap string Z) (header : tar_header) (clean : string) : result unit :=
  reject_if (bool_decide (is_Some (seen !! clean))) (Errorf ("artifact contains duplicate path " +:+ Quote clean));;
  match List.find (fun ancestor => default 0 (seen !! ancestor) =? TypeReg) (ancestors (String.length clean) clean) with
  | Some ancestor =>
      Err (Errorf ("artifact path " +:+ Quote clean +:+ " descends from regular file " +:+ Quote ancestor))
  | None => Ok tt
  end;;
  if tar_header.Typeflag header =? TypeReg then
    match List.find (fun existing => HasPrefix existing (clean +:+ "/")) (fst <$> map_to_list seen) with
    | Some existing =>
        Err (Errorf ("artifact regular file " +:+ Quote clean +:+ " conflicts with child path " +:+ Quote existing))
    | None => Ok tt
    end
  else Ok tt.

Definition upload_metadata (header : tar_header) (clean : string) : result unit :=
  let pax := tar_header.PAXRecords header in
  let xattrs := tar_header.Xattrs header in
  reject_if ((32 <? Z.of_nat (size pax)) || (32 <? Z.of_nat (size xattrs)))
    (Errorf ("artifact header " +:+ Quote clean +:+ " contains excessive metadata"));;
  let metadataBytes := slen (tar_header.Uname header) + slen (tar_header.Gname header) +
                       slen (tar_header.Linkname header) + records_bytes pax + records_bytes xattrs in
  let mode := tar_header.Mode header in
  reject_if ((maxArtifactMetadataBytes <? metadataBytes) || (mode <? 0) || negb (Z.ldiff mode 511 =? 0) ||
             (tar_header.Size header <? 0))
    (Errorf ("artifact header " +:+ Quote clean +:+ " exceeds safe metadata limits")).

(** One entry: the files listed so far and the running total. *)
Definition upload_entry (data : string) (header : tar_header) (clean : string) (entries : list DeploymentArtifactEntry)
    (expandedPayload : Z) : result (list DeploymentArtifactEntry.DeploymentArtifactEntry * Z) :=
  let size := tar_header.Size header in
  if tar_header.Typeflag header =? TypeDir then
    reject_if (negb (size =? 0)) (Errorf ("artifact directory " +:+ Quote clean +:+ " declares data"));;
    Ok (entries, expandedPayload)
  else if tar_header.Typeflag header =? TypeReg then
    let entries := entries ++ [DeploymentArtifactEntry.mk clean (Z.land (tar_header.Mode header) 511) size] in
    let expandedPayload := add64 expandedPayload size in
    reject_if (maxExpandedArtifactBytes <? expandedPayload)
      (Errorf ("artifact expands beyond " +:+ Itoa maxExpandedArtifactBytes +:+ " bytes"));;
    match read_member data header with
    | Err e => Err (Wrapf ("read artifact member " +:+ Quote (tar_header.Name header) +:+ ": ") e)
    | Ok _ => Ok (entries, expandedPayload)
    end
  else Err (Errorf ("artifact contains unsupported entry " +:+ Quote (tar_header.Name header))).

Fixpoint upload_entries (data : string) (headers : list tar_header.tar_header) (seen : gmap string Z) (totalEntries : Z)
    (entries : list DeploymentArtifactEntry.DeploymentArtifactEntry) (expandedPayload : Z)
    : result (list DeploymentArtifactEntry.DeploymentArtifactEntry) :=
  match headers with
  | [] => Ok entries
  | header :: rest =>
      reject_if (maxArtifactEntries <=? totalEntries)
        (Errorf ("artifact contains more than " +:+ Itoa maxArtifactEntries +:+ " entries"));;
      clean ← upload_name header;
      upload_collisions seen header clean;;
      upload_metadata header clean;;
      '(entries, expandedPayload) ← upload_entry data header clean entries expandedPayload;
      upload_entries data rest (<[clean := tar_header.Typeflag header]> seen) (totalEntries + 1) entries expandedPayload
  end.

Definition validateApplicationArtifact (data : string) : result (list DeploymentArtifactEntry.DeploymentArtifactEntry) :=
  reject_if ((slen data =? 0) || (maxArtifactBytes <? slen data))
    (Errorf ("artifact must be between 1 byte and " +:+ Itoa maxArtifactBytes +:+ " bytes"));;
  match open_archive data with
  | Err e => Err (Wrapf "artifact must be a tar.gz bundle: " e)
  | Ok archive =>
      entries ← upload_entries data (a_headers archive) ∅ 0 [] 0;
      match a_end archive with Some e => Err (Wrapf "read tar.gz artifact: " e) | None => Ok tt end;;
      match a_drain archive with Err e => Err (Wrapf "finish tar.gz artifact: " e) | Ok _ => Ok tt end;;
      reject_if (a_exhausted archive)
        (Errorf ("artifact expanded stream exceeds " +:+ Itoa maxExpandedArtifactBytes +:+ " bytes"));;
      reject_if (negb (a_rest archive =? 0)) (Errorf "artifact contains trailing compressed data");;
      reject_if (length entries =? 0)%nat (Errorf "artifact contains no files");;
      Ok entries
  end.

(** ** The node accepts what was accepted here *)
Definition created_file (e : event agent_answer) : list (string * Z) :=
  match ev_call e with CreateExclusive path mode => [(path, mode)] | _ => [] end.
(** Oldest first. *)
Definition created (h : atrace) : list (string * Z) := concat (created_file <$> rev h).

(** A call to the file system that failed. *)
Definition fs_failed (h : atrace) (e : error) : Prop :=
  exists c, match c as c return (agent_answer c -> Prop) -> Prop with
            | MkdirAll _ _ | CreateExclusive _ _ | CopyN _ _ | CloseFile _ => fun P => P (Err e)
            | _ => fun _ => False
            end (fun r => Event (R := agent_answer) c r ∈ h).

Definition node_file (destination : string) (e : DeploymentArtifactEntry) : string * Z :=
  (path_Join destination (DeploymentArtifactEntry.Path e), Z.land (DeploymentArtifactEntry.Mode e) 488).

Lemma created_app l h : created (l ++ h) = created h ++ created l.
Proof. unfold created. by rewrite rev_app_distr, fmap_app, concat_app. Qed.
Lemma fs_failed_mono l h e : fs_failed h e -> fs_failed (l ++ h) e.
Proof. intros [c Hc]. exists c. destruct c; try done; (apply elem_of_app; by right). Qed.

Lemma upload_checks seen header clean n :
  n < maxArtifactEntries -> upload_name header = Ok clean -> upload_collisions seen header clean = Ok tt ->
  upload_metadata header clean = Ok tt -> check_entry (n + 1) seen header = Ok clean.
Proof.
  intros Hn Hname Hcol Hmeta. unfold check_entry. rewrite (proj2 (reject_if_ok _ _)).
  2:{ apply Z.ltb_ge. unfold maxArtifactEntries, maxNodeArtifactEntries in *. lia. }
  cbn [mbind result_bind]. assert (check_name header = Ok clean) as ->.
  { unfold upload_name in Hname. unfold check_name, canonical_name. ok_inv. subst clean.
    change maxNodeArtifactPathBytes with maxArtifactPathBytes. by rewrite !(proj2 (reject_if_ok _ _)). }
  cbn [mbind result_bind]. change (check_collisions seen header clean) with (upload_collisions seen header clean). rewrite Hcol.
  cbn [mbind result_bind]. change (check_metadata header clean) with (upload_metadata header clean). by rewrite Hmeta.
Qed.

Definition entry_result (destination : string) (h : atrace) (created_here : list (string * Z)) (total : Z) (h' : atrace) (r : result Z) : Prop :=
  exists l, h' = l ++ h /\
    match r with
    | Ok total' => total' = total /\ created l = created_here
    | Err e => fs_failed h' e
    end.

Lemma failed_here h c (e : error) :
  (match c as c return (agent_answer c -> Prop) -> Prop with
   | MkdirAll _ _ | CreateExclusive _ _ | CopyN _ _ | CloseFile _ => fun P => P (Err e)
   | _ => fun _ => False
   end (fun r => Event (R := agent_answer) c r ∈ h)) -> fs_failed h e.
Proof. intros Hc. by exists c. Qed.

Lemma wp_unpack_entry destination data header clean entries total entries' total' h :
  upload_entry data header clean entries total = Ok (entries', total') ->
  exists listed, entries' = entries ++ listed /\
    wp (fun _ _ _ => True) (fun _ _ => True) (extract_entry destination header clean total)
      (entry_result destination h (node_file destination <$> listed) total') h.
Proof.
  unfold upload_entry, extract_entry. cbv zeta. set (path := path_Join destination clean).
  destruct (tar_header.Typeflag header =? TypeDir).
  - intros Hu. ok_inv. subst entries' total'. bool_inv. exists []. split; [by rewrite app_nil_r|].
    rename select ((tar_header.Size header =? 0) = true) into Hs. rewrite Hs. cbn [negb]. apply wp_bind_ok. unfold ask. wp_ask.
    destruct a as [[]|e]; [by eexists [_]|]. eexists [_]. split; [done|]. apply (failed_here _ (MkdirAll path 488)). left.
  - destruct (tar_header.Typeflag header =? TypeReg); [|done]. intros Hu. ok_inv.
    destruct (read_member data header) as [[]|]; [|done]. injection Hu as <- <-. bool_inv.
    exists [DeploymentArtifactEntry.mk clean (Z.land (tar_header.Mode header) 511) (tar_header.Size header)]. split; [done|].
    change maxArtifactBytes with maxNodeArtifactBytes in *. change maxExpandedArtifactBytes with maxNodeArtifactBytes in *.
    rewrite (proj2 (Z.ltb_ge _ _)) by done. unfold ask. apply wp_bind_ok. wp_ask. destruct a as [[]|e].
    2:{ eexists [_]. split; [done|]. apply (failed_here _ (MkdirAll (Dir path) 488)). left. }
    apply wp_bind_ok. wp_ask. destruct a as [[]|e].
    2:{ eexists [_; _]. split; [done|]. apply (failed_here _ (CreateExclusive path (Z.land (tar_header.Mode header) 488))). left. }
    apply wp_bind. wp_ask. apply wp_bind. wp_ask.
    destruct a as [[]|e]; [destruct a0 as [[]|e]|]; cbn [wp]; eexists [_; _; _; _]; (split; [done|]).
    + split; [done|]. unfold created, created_file. cbn. unfold node_file. cbn [DeploymentArtifactEntry.Path DeploymentArtifactEntry.Mode].
      by rewrite <- Z.land_assoc.
    + apply (failed_here _ (CloseFile path)). left.
    + apply (failed_here _ (CopyN path (tar_header.Size header))). right. left.
Qed.

Lemma wp_unpack_entries destination data headers seen n entries total final h :
  upload_entries data headers seen n entries total = Ok final ->
  exists listed, final = entries ++ listed /\
    wp (fun _ _ _ => True) (fun _ _ => True) (extract_entries destination headers seen n total)
      (fun h' r => exists l, h' = l ++ h /\
         match r with Ok _ => created l = node_file destination <$> listed | Err e => fs_failed h' e end) h.
Proof.
  revert seen n entries total h. induction headers as [|header headers IH]; intros seen n entries total h; cbn [upload_entries extract_entries].
  - intros [= <-]. exists []. split; [by rewrite app_nil_r|]. by exists [].
  - intros Hu. apply result_bind_ok in Hu as ([] & Hn & Hu). apply reject_if_ok, Z.leb_gt in Hn.
    apply result_bind_ok in Hu as (clean & Hname & Hu). apply result_bind_ok in Hu as ([] & Hcol & Hu).
    apply result_bind_ok in Hu as ([] & Hmeta & Hu). apply result_bind_ok in Hu as ([entries1 total1] & He & Hu).
    destruct (wp_unpack_entry destination data header clean entries total entries1 total1 h He) as (listed1 & -> & Hwp).
    assert (forall h1, exists listed, final = (entries ++ listed1) ++ listed /\
      wp (fun _ _ _ => True) (fun _ _ => True)
        (extract_entries destination headers (<[clean := tar_header.Typeflag header]> seen) (n + 1) total1)
        (fun h' r => exists l, h' = l ++ h1 /\
           match r with Ok _ => created l = node_file destination <$> listed | Err e => fs_failed h' e end) h1) as Hrest
      by (intros h1; by eapply IH).
    destruct (Hrest h) as (listed & Hfinal & _). exists (listed1 ++ listed). split; [by rewrite Hfinal, app_assoc|].
    cbv zeta. rewrite (upload_checks _ _ _ _ Hn Hname Hcol Hmeta), bind_ok_lift. apply wp_bind_ok.
    eapply wp_mono; [exact Hwp|]. intros h1 [t|e] (l1 & -> & Hr); [destruct Hr as [-> Hc1]|by exists l1].
    destruct (Hrest (l1 ++ h)) as (listed' & Hfinal' & Hwp'). assert (listed' = listed) as -> by (rewrite Hfinal in Hfinal'; by apply app_inv_head in Hfinal').
    eapply wp_mono; [exact Hwp'|]. intros h2 r (l2 & -> & Hr). exists (l2 ++ l1). split; [by rewrite app_assoc|].
    destruct r as [u|e]; [|done]. by rewrite created_app, Hr, Hc1, fmap_app.
Qed.

Lemma wp_extract_validated data destination entries h :
  validateApplicationArtifact data = Ok entries ->
  wp (fun _ _ _ => True) (fun _ _ => True) (extractTarGz open_archive data destination)
    (fun h' r => exists l, h' = l ++ h /\
       match r with Ok _ => created l = node_file destination <$> entries | Err e => fs_failed h' e end) h.
Proof.
  unfold validateApplicationArtifact, extractTarGz. intros Hv. apply result_bind_ok in Hv as ([] & _ & Hv).
  destruct (open_archive data) as [archive|e]; [|done]. rewrite bind_ok_lift.
  apply result_bind_ok in Hv as (listed & Hu & Hv). destruct (a_end archive) eqn:Ee; [done|]. cbn [mbind result_bind] in Hv.
  destruct (a_drain archive) as [[]|e] eqn:Ed; [|done]. cbn [mbind result_bind] in Hv. ok_inv. subst listed.
  destruct (wp_unpack_entries destination data _ _ _ _ _ _ h Hu) as (l0 & -> & Hwp). cbn [app]. apply wp_bind_ok.
  eapply wp_mono; [exact Hwp|]. intros h' [u|e] Hr; [|done]. apply wp_ret. destruct Hr as (l & -> & Hc). exists l. split; [done|].
  unfold finish_archive. rewrite Ee, Ed. by rewrite !(proj2 (reject_if_ok _ _)).
Qed.
End Uploads.
