(* ===== verification/Views.v ===== *)
(** * What the control plane shows (internal/controlplane/public_views.go, service.go)

    The read model of a System, and the views of Changes, deployments, policy
    results and Systems that leave the control plane: failures are replaced by
    public ones, command arguments, environment values, SQL and storage keys are
    redacted.  [NormalizePublicFailure] is of internal/computeclass. *)

From S2P Require Import Prelude Effects GoStrings Json Documents ControlDocuments SandboxSpec Calls Systems Creation Releases Changes Endpoints.
#[local] Open Scope Z_scope.

(** ** strconv.Unquote *)
Definition valid_rune (r : Z) : bool := ((0 <=? r) && (r <? 55296)) || ((57343 <? r) && (r <=? 1114111)).
Definition utf8_encode (r : Z) : string :=
  if r <? 128 then bytes [r]
  else if r <? 2048 then bytes [192 + r / 64; 128 + r mod 64]
  else if r <? 65536 then bytes [224 + r / 4096; 128 + r / 64 mod 64; 128 + r mod 64]
  else bytes [240 + r / 262144; 128 + r / 4096 mod 64; 128 + r / 64 mod 64; 128 + r mod 64].

Fixpoint read_hex (n : nat) (v : Z) (s : string) : option (Z * string) :=
  match n with
  | O => Some (v, s)
  | S n' =>
      match s with
      | EmptyString => None
      | String c s' => d ← hex_value c; read_hex n' (v * 16 + d) s'
      end
  end.
Definition octal_digit (c : ascii) : option Z :=
  let v := byte_of c - 48 in if (0 <=? v) && (v <? 8) then Some v else None.

(** After a backslash. *)
Definition unescape (quote c : ascii) (s : string) : option (string * string) :=
  let plain (n : Z) := Some (bytes [n], s) in
  let rune n := '(v, s') ← read_hex n 0 s; if valid_rune v then Some (utf8_encode v, s') else None in
  let b := byte_of c in
  if b =? 97 then plain 7 else if b =? 98 then plain 8 else if b =? 102 then plain 12 else if b =? 110 then plain 10
  else if b =? 114 then plain 13 else if b =? 116 then plain 9 else if b =? 118 then plain 11 else if b =? 92 then plain 92
  else if b =? 120 then '(v, s') ← read_hex 2 0 s; Some (bytes [v], s')
  else if b =? 117 then rune 4%nat else if b =? 85 then rune 8%nat
  else if (b =? 39) || (b =? 34) then (if c == quote then plain b else None)
  else
    v ← octal_digit c;
    match s with
    | String d (String e s') =>
        x ← octal_digit d; y ← octal_digit e;
        let v := v * 64 + x * 8 + y in if 255 <? v then None else Some (bytes [v], s')
    | _ => None
    end.

(** One character of the body: its bytes and the rest. *)
Definition unquote_char (quote : ascii) (s : string) : option (string * string) :=
  match s with
  | EmptyString => None
  | String c s' =>
      let b := byte_of c in
      if (c == quote) || (b =? 10) then None
      else if 128 <=? b then
        match decode_rune s with
        | Some (r, n) => Some (utf8_encode r, drop_bytes n s)
        | None => Some (utf8_encode 65533, s')
        end
      else if b =? 92 then match s' with String c' s'' => unescape quote c' s'' | EmptyString => None end
      else Some (String c EmptyString, s')
  end.

(** The body up to the closing quote, which must end the string. *)
Fixpoint unquote_body (fuel : nat) (quote : ascii) (s out : string) : option string :=
  match fuel with
  | O => None
  | S fuel' =>
      if s == String quote EmptyString then Some out
      else '(c, s') ← unquote_char quote s; unquote_body fuel' quote s' (out +:+ c)
  end.

Definition backquote : ascii := chr 96.
Definition single_quote : ascii := chr 39.
Definition Unquote (s : string) : option string :=
  match s with
  | EmptyString => None
  | String q body =>
      if q == backquote then
        match Cut body (String backquote EmptyString) with
        | Some (raw, EmptyString) => Some (ReplaceAll raw (chr 13) EmptyString)
        | _ => None
        end
      else if q == quote_char then unquote_body (S (String.length body)) q body EmptyString
      else if q == single_quote then
        if body == String q EmptyString then Some EmptyString
        else '(c, rest) ← unquote_char q body; if rest == String q EmptyString then Some c else None
      else None
  end.

Section Views.
Context `{Unicode}.

(** ** Public failures *)
Definition UnsupportedCode : string := "unsupported_compute_class".
Definition NormalizePublicFailure (message : string) : option string :=
  if HasPrefix message (UnsupportedCode +:+ ": ") then Some message
  else
    let legacyPrefix := "unsupported compute class " in
    if negb (HasPrefix message legacyPrefix) then None
    else class ← Unquote (TrimPrefix message legacyPrefix); Some (Error (UnsupportedClassError class)).
Definition IsSafePublicFailure (message : string) : bool :=
  match NormalizePublicFailure message with Some _ => true | None => false end.

Definition public_failure (otherwise failure : string) : string := default otherwise (NormalizePublicFailure failure).
Definition publicOperationFailure (failure : string) : string :=
  public_failure "operation failed; operator inspection required" failure.
(** [if failure != "" { failure = public(failure) }]. *)
Definition shown (public : string -> string) (failure : string) : string := if failure == EmptyString then failure else public failure.

(** ** Redaction.  An empty map or list becomes nil. *)
Definition redactedValue : string := "[redacted]".
Definition redactedEnvironment (environment : gmap string string) : gmap string string := (fun _ => redactedValue) <$> environment.
Definition publicCommand (command : list string) : list string :=
  match command with
  | [] => []
  | name :: args => name :: ((fun _ => "[redacted-argument]") <$> args)
  end.

Definition public_release (r : ReleaseManifest) : ReleaseManifest :=
  ReleaseManifest.mk (ReleaseManifest.SchemaVersion r) (ReleaseManifest.System r) (ReleaseManifest.Version r) EmptyString
    (ReleaseManifest.ArtifactSHA r) (publicCommand (ReleaseManifest.Command r)) (redactedEnvironment (ReleaseManifest.Environment r))
    (ReleaseManifest.HealthPath r) (ReleaseManifest.PublicPort r) (ReleaseManifest.Replicas r) (ReleaseManifest.CapacityLease_ r)
    (ReleaseManifest.RequestedAt r).
Definition public_migration (m : Migration) : Migration :=
  Migration.mk (Migration.ID m) (Migration.Service m) (Migration.Class_ m) EmptyString (Migration.Digest m) (Migration.Reversibility m).
Definition public_plan (p : ChangePlan) : ChangePlan :=
  ChangePlan.mk (ChangePlan.BaseRevision p) (ChangePlan.BaseVersion p) (public_release (ChangePlan.Release p)) (ChangePlan.Scale p)
    (public_migration <$> ChangePlan.Migration_ p) (ChangePlan.Verification p) (ChangePlan.Impact p).
Definition public_operation (o : ChangeOperation) : ChangeOperation :=
  ChangeOperation.with_Failure (shown publicOperationFailure (ChangeOperation.Failure o)) o.

Definition publicChange (c : Change) : Change :=
  Change.mk (Change.SchemaVersion c) (Change.ID c) (Change.System c) (Change.Summary c) (Change.Phase c) (Change.Digest c)
    (Change.DraftedBy c) (public_plan (Change.Plan_ c)) (Change.Authorization_ c) (public_operation <$> Change.Operations c)
    (Change.Evidence c)
    (match Change.Residuals c with [] => [] | _ => ["residual state requires operator inspection"] end)
    (shown (public_failure "Change failed; operator inspection required") (Change.Failure c)) (Change.CreatedAt c) (Change.UpdatedAt c)
    (Change.CompletedAt c).

Definition publicExecution (e : Execution) : Execution :=
  Execution.mk (Execution.ID e) (Execution.WorkspaceID e) (Execution.SystemName e) (Execution.ChangeID e) (Execution.Phase e)
    (Execution.RequestedBy e) (Execution.Attempts e) (Execution.AvailableAt e) (Execution.ClaimedBy e) (Execution.ClaimToken e)
    (Execution.LeaseExpiresAt e) (shown publicOperationFailure (Execution.Failure e)) (Execution.CreatedAt e) (Execution.StartedAt e)
    (Execution.CompletedAt e).
Definition publicInitialDeploymentExecution (e : InitialDeploymentExecution) : InitialDeploymentExecution :=
  let '(InitialDeploymentExecution.mk id ws dep sys phase by_ attempts available claimed token lease failure created started completed) := e in
  InitialDeploymentExecution.mk id ws dep sys phase by_ attempts available claimed token lease (shown publicOperationFailure failure)
    created started completed.
Definition publicPolicyApplyResult (r : PolicyApplyResult) : PolicyApplyResult :=
  let '(PolicyDecision.mk id ws sys change digest outcome phase policy policyDigest by_ reason execution failure created updated) :=
    PolicyApplyResult.Decision r in
  PolicyApplyResult.mk
    (PolicyDecision.mk id ws sys change digest outcome phase policy policyDigest by_ reason execution
       (shown (fun _ => "policy application failed; operator inspection required") failure) created updated)
    (PolicyApplyResult.Policy r) (publicChange (PolicyApplyResult.Change_ r)) (publicExecution <$> PolicyApplyResult.Execution_ r).

Definition public_deployment_release (r : InitialDeploymentRelease) : InitialDeploymentRelease :=
  InitialDeploymentRelease.mk (publicCommand (InitialDeploymentRelease.Command r)) (redactedEnvironment (InitialDeploymentRelease.Environment r))
    (InitialDeploymentRelease.HealthPath r) (InitialDeploymentRelease.PublicPort r).
Definition public_deployment_operation (o : InitialDeploymentOperation) : InitialDeploymentOperation :=
  InitialDeploymentOperation.mk (InitialDeploymentOperation.ID o) (InitialDeploymentOperation.Kind o)
    (InitialDeploymentOperation.Description o) (InitialDeploymentOperation.Phase o) (InitialDeploymentOperation.StartedAt o)
    (InitialDeploymentOperation.CompletedAt o) (shown publicOperationFailure (InitialDeploymentOperation.Failure o)).
Definition publicInitialDeployment (d : InitialDeployment) : InitialDeployment :=
  let p := InitialDeployment.Plan d in
  InitialDeployment.mk (InitialDeployment.SchemaVersion d) (InitialDeployment.ID d) (InitialDeployment.WorkspaceID d)
    (InitialDeployment.System d) (InitialDeployment.Summary d) (InitialDeployment.Phase d) (InitialDeployment.Digest d)
    (InitialDeployment.DraftedBy d) (InitialDeployment.Authorization_ d)
    (InitialDeploymentPlan.mk (InitialDeploymentPlan.System p) (InitialDeploymentPlan.ArtifactSHA256 p)
       (public_deployment_release (InitialDeploymentPlan.Release p)) (InitialDeploymentPlan.Verification p)
       (InitialDeploymentPlan.WorkspaceRevision p) (InitialDeploymentPlan.ReplacesDeploymentID p))
    (public_deployment_operation <$> InitialDeployment.Operations d) (InitialDeployment.Evidence d)
    (shown (public_failure "initial deployment failed; operator inspection required") (InitialDeployment.Failure d))
    (InitialDeployment.CreatedAt d) (InitialDeployment.UpdatedAt d) (InitialDeployment.CompletedAt d).
End Views.

(** ** The view of a System (sdk/system_view.go, types.go) *)
Module SystemView.
Record SystemView : Type := mk {
  SchemaVersion : string;
  Contract : System.System;
  Graph : ExecutionGraph.ExecutionGraph;
  Bindings : list ServiceBinding.ServiceBinding;
  Host : option State.State;
  Release : option ReleaseView.ReleaseView;
  Issues : list string
}.
End SystemView.
Abbreviation SystemView := SystemView.SystemView (only parsing).

Module ComputeResourceObservation.
Record ComputeResourceObservation : Type := mk { Name : string; Status : string }.
End ComputeResourceObservation.
Module ExposureObservation.
Record ExposureObservation : Type := mk { Phase : string; Protocol : string; Port : Z; Managed : bool; MutationUnresolved : bool }.
End ExposureObservation.
Module HostObservation.
Record HostObservation : Type := mk {
  Phase : string;
  Class_ : string;
  Count : Z;
  Resources : list ComputeResourceObservation.ComputeResourceObservation;
  Exposure : option ExposureObservation.ExposureObservation;
  RequiresOperator : bool
}.
End HostObservation.
Module ApplicationCapacityObservation.
Record ApplicationCapacityObservation : Type := mk {
  Service : string;
  Mode : string;
  DeclaredBaseline : Z;
  MaximumReplicas : Z;
  DesiredReplicas : Z;
  ReadyReplicas : Z
}.
End ApplicationCapacityObservation.
Module PublicSystemView.
Record PublicSystemView : Type := mk {
  SchemaVersion : string;
  Contract : System.System;
  Graph : ExecutionGraph.ExecutionGraph;
  Bindings : list ServiceBinding.ServiceBinding;
  Host : option HostObservation.HostObservation;
  Release : option ReleaseView.ReleaseView;
  ApplicationCapacity : option ApplicationCapacityObservation.ApplicationCapacityObservation;
  Issues : list string
}.
End PublicSystemView.

Section SystemViews.
Context `{Unicode}.

Definition zero_endpoint : PublicEndpointObservation :=
  PublicEndpointObservation.mk EmptyString EmptyString EmptyString EmptyString EmptyString 0 EmptyString 0.

Definition host_view (spec : Spec) (recorded : State) : sdk (State * list string) :=
  status ← Client_Status spec;
  let '(host, statusErr) := (status : option State * option error) in
  match statusErr with
  | Some e => Ret (recorded, ["host observation: " +:+ Error e])
  | None => Ret (default recorded host, [])
  end.
Definition release_view (s : System) (observed : ObservedRelease) : sdk (ReleaseView * list string) :=
  inspected ← InspectRelease s;
  match inspected with
  | Ok release => Ret (release, [])
  | Err e => Ret (ReleaseView.mk observed zero_endpoint, ["public endpoint observation: " +:+ Error e])
  end.

Definition Client_InspectSystem (s : System) : sdk (result SystemView) :=
  '(graph, bindings) ←! lift (CompileSystemView s);
  let spec := SystemHostSpec s "true" in
  bind_wrap (GetOptional KState (stateKey spec)) (Wrapf "read host state: ") (fun recorded =>
  host ← match recorded with
         | None => Ret (None, [])
         | Some recorded => r ← host_view spec recorded; Ret (Some r.1, r.2)
         end;
  bind_wrap (GetOptional KObserved (observedKey s)) (Wrapf "read release state: ") (fun observed =>
  release ← match observed with
            | None => Ret (None, [])
            | Some observed => r ← release_view s observed; Ret (Some r.1, r.2)
            end;
  Ret (Ok (SystemView.mk "v1" s graph bindings host.1 release.1 (host.2 ++ release.2))))).

Definition public_host (contract : System) (host : State) : HostObservation.HostObservation :=
  let constraint := Constraints.Host (SystemContract.Constraints_ (System.Spec_ contract)) in
  let count := Z.of_nat (length (State.Resources host)) in
  HostObservation.mk (State.Phase host)
    (if State.Class_ host == EmptyString then HostConstraint.Class_ constraint else State.Class_ host)
    (if (count =? 0) && (State.Phase host != "destroyed") then HostConstraint.Count constraint else count)
    (imap (fun index r => ComputeResourceObservation.mk ("compute-" +:+ Itoa (Z.of_nat index + 1)) (Resource.Status r)) (State.Resources host))
    ((fun intent => ExposureObservation.mk (ExposureIntent.Phase intent) (ExposureIntent.Protocol intent) (ExposureIntent.Port intent)
                      true (ExposureIntent.MutationUnresolved intent)) <$> State.ExposureIntent_ host)
    ((State.Phase host == "escalated") || (State.Failure host != EmptyString)).

(** The first service whose capacity can be scaled. *)
Fixpoint application_capacity (contract : System) (release : option ReleaseView) (services : list SystemService)
    : option ApplicationCapacityObservation.ApplicationCapacityObservation :=
  match services with
  | [] => None
  | service :: rest =>
      match ScaleCapacity contract (SystemService.Name service) with
      | Err _ => application_capacity contract release rest
      | Ok (_, maximum) =>
          let instances := SystemService.Instances service in
          let '(desired, ready) :=
            match release with
            | None => (instances, 0)
            | Some view =>
                let observed := ReleaseView.Release view in
                (if ObservedRelease.DesiredReplicas observed <? 1 then instances else ObservedRelease.DesiredReplicas observed,
                 if (ObservedRelease.ReadyReplicas observed <? 1) && (0 <? ObservedRelease.PID observed) then 1
                 else ObservedRelease.ReadyReplicas observed)
            end in
          Some (ApplicationCapacityObservation.mk (SystemService.Name service) "existing-host" instances maximum desired ready)
      end
  end.

Definition publicSystemView (internal : SystemView) : PublicSystemView.PublicSystemView :=
  let contract := SystemView.Contract internal in
  PublicSystemView.mk (SystemView.SchemaVersion internal) contract (SystemView.Graph internal) (SystemView.Bindings internal)
    (public_host contract <$> SystemView.Host internal) (SystemView.Release internal)
    (application_capacity contract (SystemView.Release internal) (SystemContract.Services (System.Spec_ contract)))
    ((fun _ => "System observation requires operator inspection") <$> SystemView.Issues internal).
End SystemViews.
