(* ===== verification/ControlCalls.v ===== *)
(** * What the control plane's service and dispatchers call

    [Store] is the database, one transaction per call; [Engine] and
    [InitialDeploymentEngine] (internal/controlplane/service.go,
    initial_deployment.go) are the interfaces the SDK client implements.  What
    their implementations do is in [Ledger], [Deployments], [Policies] and in the
    files of the SDK; here they answer. *)

From S2P Require Import Prelude Effects GoStrings Documents ControlDocuments SandboxSpec Calls Systems ChangeRun Endpoints Views.

Inductive control_call : Type :=
  (* Store *)
  | GetSystem (workspaceID name : string)
  | PutSystem (workspaceID : string) (system : System)
  | GetWorkspace (workspaceID : string)
  | RecordChange (workspaceID : string) (change : Change)
  | GetRecordedChange (workspaceID system changeID : string)
  | GetExecutionForChange (workspaceID system changeID : string)
  | GetExecution (id : string)
  | EvaluatePolicies (workspaceID system installationID : string) (workspaceRevision systemRevision : Z) (change : Change)
  | UpdateDecision (decisionID phase executionID failure : string)
  | Enqueue (workspaceID system changeID : string) (actor : ActorRef)
  | RequireBillingPayment (workspaceID : string)
  | Claim (worker : string) (lease : Z)
  | Renew (id worker claimToken : string) (lease : Z)
  | Complete (id worker claimToken : string) (applyErr : option error)
  | Audit (workspaceID : string) (actor : ActorRef) (action subject : string)
  (* Store, initial deployments *)
  | GetInitialDeployment (workspaceID id : string)
  | ListInitialDeployments (workspaceID : string)
  | PutInitialDeployment (deployment : InitialDeployment)
  | AuthorizeDeployment (workspaceID id digest : string) (actor : ActorRef)
  | GetDeploymentArtifact (workspaceID sha256 : string)
  | BeginOperation (executionID worker claimToken deploymentID operationID : string)
  | FinishOperation (executionID worker claimToken deploymentID operationID phase failure : string) (evidence : option ChangeEvidence)
  | ReopenHost (executionID worker claimToken deploymentID : string)
  | HasPriorFailed (deploymentID executionID : string)
  | ClaimInitial (worker : string) (lease : Z)
  | RenewInitial (id worker claimToken : string) (lease : Z)
  | CompleteInitial (id worker claimToken : string) (applyErr : option error)
  | PrepareNodeBootstrap (workspaceID system : string)
  (* the statements of an upload, in its transaction *)
  | BeginUpload
  | LockAccount (id : string)
  | LockWorkspace (id : string)
  | SessionMayWrite (sessionID accountID workspaceID : string)
  | LockDigest (key : string)
  | RecordArtifact (workspaceID : string) (staged : StagedArtifact) (entries : list DeploymentArtifactEntry) (actor : ActorRef)
  | CommitUpload
  (* Engine *)
  | EInspectSystem (system : System)
  | EDraftChangeRequest (actor : ActorRef) (base : ChangeBaseRevision) (system : System) (request : ChangeRequest)
  | EInspectChange (system : System) (changeID : string)
  | EAuthorizeChange (actor : ActorRef) (system : System) (changeID digest : string)
  | EApplyChange (actor : ActorRef) (system : System) (changeID : string)
  (* InitialDeploymentEngine *)
  | EStageArtifact (data filename contentType : string)
  | EVerifyStagedArtifact (artifact : StagedArtifact)
  | EBootstrapSystemHost (system : System) (nodeBinary : string) (gateway : NodeBootstrapConfig)
  | ESystemHostStatus (system : System)
  | EExposeSystemHost (system : System)
  | ESupportsRecovery
  | ERecoverSystemHostExposure (system : System)
  | EPublishStagedRelease (system : System) (input : StagedReleaseInput)
  | EWaitPublicEndpoint (system : System)
  | EVerifyPublicEndpoint (system : System) (version : string) (verification : ChangeVerification)
  (* the machine *)
  | ControlNewID (prefix : string)
  | ControlNow
  | ControlSelect
  | Cancel.

Definition control_answer (c : control_call) : Type :=
  match c with
  | GetSystem _ _ | PutSystem _ _ => result SystemRecord
  | GetWorkspace _ => result Workspace
  | RecordChange _ _ => result unit
  | GetRecordedChange _ _ _ => result Change
  | GetExecutionForChange _ _ _ | GetExecution _ | Enqueue _ _ _ _ => result Execution
  | EvaluatePolicies _ _ _ _ _ _ => result (PolicyDecision * option StandingPolicy)
  | UpdateDecision _ _ _ _ => result PolicyDecision
  | RequireBillingPayment _ => result unit
  | Claim _ _ => result (option Execution)
  | Renew _ _ _ _ | Complete _ _ _ _ => result unit
  | Audit _ _ _ _ => unit
  | GetInitialDeployment _ _ | AuthorizeDeployment _ _ _ _ => result InitialDeployment
  | ListInitialDeployments _ => result (list InitialDeploymentIndex)
  | PutInitialDeployment _ => result unit
  | GetDeploymentArtifact _ _ => result (DeploymentArtifact * StagedArtifact)
  | BeginOperation _ _ _ _ _ | HasPriorFailed _ _ => result bool
  | FinishOperation _ _ _ _ _ _ _ _ | ReopenHost _ _ _ _ => result unit
  | ClaimInitial _ _ => result (option InitialDeploymentExecution)
  | RenewInitial _ _ _ _ | CompleteInitial _ _ _ _ => result unit
  | PrepareNodeBootstrap _ _ => result NodeBootstrapConfig
  | BeginUpload | LockAccount _ | LockWorkspace _ | LockDigest _ | CommitUpload => result unit
  | SessionMayWrite _ _ _ => result bool
  | RecordArtifact _ _ _ _ => result DeploymentArtifact
  | EStageArtifact _ _ _ => result StagedArtifact
  | EInspectSystem _ => result SystemView
  | EDraftChangeRequest _ _ _ _ | EInspectChange _ _ | EAuthorizeChange _ _ _ _ => result Change
  | EApplyChange _ _ _ => Change * option error
  | EVerifyStagedArtifact _ => result unit
  | EBootstrapSystemHost _ _ _ => result ApplyResult
  | ESystemHostStatus _ => State * option error
  | EExposeSystemHost _ | ERecoverSystemHostExposure _ => result State
  | ESupportsRecovery => bool
  | EPublishStagedRelease _ _ => result ReleaseManifest
  | EWaitPublicEndpoint _ => ReleaseView * option error
  | EVerifyPublicEndpoint _ _ _ => result PublicEndpointObservation
  | ControlNewID _ => string
  | ControlNow => Z
  | ControlSelect => wake
  | Cancel => unit
  end.

Abbreviation cprog := (prog control_answer).
Abbreviation ctrace := (list (event control_answer)).
Definition control (c : control_call) : cprog (control_answer c) := call c.

(** [errors.Is(err, target)]. *)
Fixpoint errors_Is (target e : error) : bool :=
  (e == target) || match e with
                   | Wrapf _ e' | WrapfBefore e' _ | AmbiguousManagedResourceError _ _ e' => errors_Is target e'
                   | _ => false
                   end.

(** What is only looked at or noted: no mutation of a runtime, no decision. *)
Definition observing (c : control_call) : Prop :=
  match c with
  | PutSystem _ _ | Enqueue _ _ _ _ | UpdateDecision _ _ _ _ | Complete _ _ _ _ | PutInitialDeployment _ | AuthorizeDeployment _ _ _ _
  | BeginOperation _ _ _ _ _ | FinishOperation _ _ _ _ _ _ _ _ | ReopenHost _ _ _ _ | CompleteInitial _ _ _ _
  | EAuthorizeChange _ _ _ _ | EApplyChange _ _ _ | EBootstrapSystemHost _ _ _ | EExposeSystemHost _
  | ERecoverSystemHostExposure _ | EPublishStagedRelease _ _ | EStageArtifact _ _ _ | RecordArtifact _ _ _ _ | CommitUpload => False
  | _ => True
  end.
