(* ===== verification/Service.v ===== *)
(** * The control plane's service and its Change dispatcher (internal/controlplane/service.go)

    Drafting, inspecting and authorizing a Change, applying one under a standing
    policy, and the worker that carries out queued executions.  [engine] tells
    whether an engine is configured.  A worker's heartbeat is a program of its
    own that runs beside the execution; cancelling is a call. *)

From S2P Require Import Prelude Effects GoStrings Documents ControlDocuments SandboxSpec Calls Systems Namespace ChangeRun Views ControlCalls.
#[local] Open Scope Z_scope.

(** public_views.go, types.go *)
Module ChangeInspection.
Record ChangeInspection : Type := mk { Change_ : Change.Change; Execution_ : option Execution.Execution }.
End ChangeInspection.
Abbreviation ChangeInspection := ChangeInspection.ChangeInspection (only parsing).

Section Service.
Context `{Unicode} (engine : bool).

Definition no_engine : error := Errorf "execution engine is unavailable".

Definition publicChangeInspection (i : ChangeInspection) : ChangeInspection :=
  ChangeInspection.mk (publicChange (ChangeInspection.Change_ i)) (publicExecution <$> ChangeInspection.Execution_ i).

(** ** Systems *)
Definition Service_PutSystem (workspaceID : string) (system : System) : cprog (result SystemRecord) :=
  canonical ←! lift (canonicalizeSystemForWorkspace workspaceID system);
  control (PutSystem workspaceID canonical).

Definition InspectSystem (workspaceID name : string) : cprog (result PublicSystemView.PublicSystemView) :=
  record ←! control (GetSystem workspaceID name);
  let contract := SystemRecord.Contract record in
  internal ←! (if engine then control (EInspectSystem contract)
               else lift ('(graph, bindings) ← CompileSystemView contract;
                          Ok (SystemView.mk "v1" contract graph bindings None None [])));
  Ret (Ok (publicSystemView internal)).

(** ** Changes *)
Definition Service_DraftChange (workspaceID systemName : string) (request : ChangeRequest) (actor : ActorRef) : cprog (result Change) :=
  if negb engine then Ret (Err no_engine)
  else
    record ←! control (GetSystem workspaceID systemName);
    workspace ←! control (GetWorkspace workspaceID);
    change ←! control (EDraftChangeRequest actor
                         (ChangeBaseRevision.mk workspaceID (Workspace.Revision workspace) (SystemRecord.Revision record))
                         (SystemRecord.Contract record) request);
    recorded ← control (RecordChange workspaceID change);
    match recorded with
    | Err e => Ret (Err (Wrapf "change drafted in engine but control-plane mirror failed: " e))
    | Ok _ => _ ← control (Audit workspaceID actor "change.drafted" (Change.ID change)); Ret (Ok change)
    end.

Definition Service_InspectChange (workspaceID systemName changeID : string) : cprog (result Change) :=
  record ←! control (GetSystem workspaceID systemName);
  if negb engine then control (GetRecordedChange workspaceID systemName changeID)
  else
    change ←! control (EInspectChange (SystemRecord.Contract record) changeID);
    _ ← control (RecordChange workspaceID change);
    Ret (Ok change).

Definition InspectChangeWithExecution (workspaceID systemName changeID : string) : cprog (result ChangeInspection) :=
  change ←! Service_InspectChange workspaceID systemName changeID;
  execution ← control (GetExecutionForChange workspaceID systemName changeID);
  match execution with
  | Ok execution => Ret (Ok (publicChangeInspection (ChangeInspection.mk change (Some execution))))
  | Err e =>
      if errors_Is ErrNotFound e then Ret (Ok (publicChangeInspection (ChangeInspection.mk change None)))
      else Ret (Err e)
  end.

(** [base.SystemRevision != 0 && (base.SystemRevision != record.Revision || ...)]. *)
Definition stale (change : Change) (record : SystemRecord) (workspace : Workspace) : bool :=
  let base := ChangePlan.BaseRevision (Change.Plan_ change) in
  (ChangeBaseRevision.SystemRevision base != 0) &&
  ((ChangeBaseRevision.SystemRevision base != SystemRecord.Revision record) ||
   (ChangeBaseRevision.WorkspaceRevision base != Workspace.Revision workspace)).
Definition stale_error : error := WrapfBefore ErrConflict ": change base revision is stale".

Definition Service_AuthorizeChange (workspaceID systemName changeID digest : string) (actor : ActorRef) : cprog (result Change) :=
  if negb engine then Ret (Err no_engine)
  else
    record ←! control (GetSystem workspaceID systemName);
    current ←! control (EInspectChange (SystemRecord.Contract record) changeID);
    workspace ←! control (GetWorkspace workspaceID);
    if stale current record workspace then Ret (Err stale_error)
    else
      change ←! control (EAuthorizeChange actor (SystemRecord.Contract record) changeID digest);
      _ ←! control (RecordChange workspaceID change);
      _ ← control (Audit workspaceID actor "change.authorized" (Change.ID change));
      Ret (Ok change).

(** ** Applying under a policy *)
Definition forbidden_principal (p : Principal) : bool :=
  match Principal.Installation_ p, Principal.Session p with
  | Some installation, Some _ =>
      let authority := Installation.Authority_ installation in
      negb (Authority.Draft authority) || (Authority.ApplyMode authority == "never")
  | _, _ => true
  end.

Definition policy_actor (policy : StandingPolicy) (decision : PolicyDecision) : ActorRef :=
  ActorRef.mk "policy" (StandingPolicy.ID policy) (PolicyDecision.ID decision) (StandingPolicy.Name policy).

(** The Change was authorized for its digest by this very policy. *)
Definition policy_authorized (policy : StandingPolicy) (digest : string) (change : Change) : bool :=
  match Change.Authorization_ change with
  | Some authorization =>
      (Authorization.Digest authorization == digest) &&
      match Authorization.AuthorizedBy authorization with
      | Some actor => (ActorRef.Kind actor == "policy") && (ActorRef.ID actor == StandingPolicy.ID policy)
      | None => false
      end
  | None => false
  end.

Definition zero_decision : PolicyDecision :=
  PolicyDecision.mk EmptyString EmptyString EmptyString EmptyString EmptyString EmptyString EmptyString EmptyString EmptyString
    EmptyString EmptyString EmptyString EmptyString zero_time zero_time.

(** What a call returns beside its error: [None] is the zero result. *)
Definition policy_outcome : Type := option PolicyApplyResult.PolicyApplyResult * option error.

(** The failure of a step is recorded on the decision and returned with it. *)
Definition failed_decision (decision : PolicyDecision) (policy : StandingPolicy) (change : Change) (e : error) : cprog policy_outcome :=
  updated ← control (UpdateDecision (PolicyDecision.ID decision) "failed" EmptyString (Error e));
  let decision := match (updated : result PolicyDecision) with Ok d => d | Err _ => zero_decision end in
  Ret (Some (PolicyApplyResult.mk decision (Some policy) change None), Some e).

Definition outcome_ok {A} (p : cprog (result A)) (k : A -> cprog policy_outcome) : cprog policy_outcome :=
  r ← p; match r with Ok a => k a | Err e => Ret (None, Some e) end.

(** From the matched policy on: authorize, enqueue, record both.  [inspected]
    is the Change the decision was about, and stays in a failed result. *)
Definition queue_under_policy (workspaceID systemName changeID digest : string) (principal : Principal)
    (decision : PolicyDecision) (policy : StandingPolicy) (inspected change : Change) : cprog policy_outcome :=
  let actor := policy_actor policy decision in
  outcome_ok (control (UpdateDecision (PolicyDecision.ID decision) "authorized" EmptyString EmptyString)) (fun decision =>
  enqueued ← control (Enqueue workspaceID systemName changeID actor);
  match enqueued with
  | Err e => failed_decision decision policy inspected e
  | Ok execution =>
      outcome_ok (control (UpdateDecision (PolicyDecision.ID decision) "queued" (Execution.ID execution) EmptyString)) (fun decision =>
      _ ← control (Audit workspaceID actor "change.policy-authorized-and-queued" (Change.ID change));
      Ret (Some (PolicyApplyResult.mk decision (Some policy) change (Some execution)), None))
  end).

Definition ApplyChangeUnderPolicy (workspaceID systemName changeID digest : string) (principal : Principal) : cprog policy_outcome :=
  if negb engine then Ret (None, Some no_engine)
  else if forbidden_principal principal then Ret (None, Some ErrForbidden)
  else
    let installationID := match Principal.Installation_ principal with Some i => Installation.ID i | None => EmptyString end in
    outcome_ok (control (GetSystem workspaceID systemName)) (fun record =>
    outcome_ok (control (GetWorkspace workspaceID)) (fun workspace =>
    outcome_ok (control (EInspectChange (SystemRecord.Contract record) changeID)) (fun change =>
    if (digest == EmptyString) || (digest != Change.Digest change)
    then Ret (None, Some (WrapfBefore ErrConflict ": exact Change digest does not match"))
    else
      outcome_ok (control (EvaluatePolicies workspaceID systemName installationID (Workspace.Revision workspace)
                             (SystemRecord.Revision record) change)) (fun evaluated =>
      let '(decision, matched) := evaluated in
      match matched with
      | Some policy =>
          if PolicyDecision.Outcome decision != "automatic" then
            _ ← control (Audit workspaceID (Principal.Actor principal) "change.policy-evaluated" (Change.ID change));
            Ret (Some (PolicyApplyResult.mk decision matched change None), None)
          else if PolicyDecision.ExecutionID decision != EmptyString then
            outcome_ok (control (GetExecution (PolicyDecision.ExecutionID decision))) (fun execution =>
            Ret (Some (PolicyApplyResult.mk decision matched change (Some execution)), None))
          else if Change.Phase change == "drafted" then
            authorized ← Service_AuthorizeChange workspaceID systemName changeID digest (policy_actor policy decision);
            match authorized with
            | Err e => failed_decision decision policy change e
            | Ok authorized => queue_under_policy workspaceID systemName changeID digest principal decision policy change authorized
            end
          else if negb (policy_authorized policy digest change)
          then Ret (None, Some (WrapfBefore ErrConflict ": Change was not authorized by the matched policy"))
          else queue_under_policy workspaceID systemName changeID digest principal decision policy change change
      | None =>
          _ ← control (Audit workspaceID (Principal.Actor principal) "change.policy-evaluated" (Change.ID change));
          Ret (Some (PolicyApplyResult.mk decision None change None), None)
      end)))).

(** ** The dispatcher *)
(** The goroutine that renews the lease until the context is done; it cancels
    the execution when the lease is lost.  [fuel] bounds its ticks. *)
Fixpoint renew_lease (fuel : nat) (renew : cprog (result unit)) : cprog unit :=
  match fuel with
  | O => Ret tt
  | S fuel' =>
      w ← control ControlSelect;
      match (w : wake) with
      | WDone _ => Ret tt
      | _ =>
          renewed ← renew;
          match renewed with
          | Ok _ => renew_lease fuel' renew
          | Err _ => control Cancel
          end
      end
  end.
Definition execution_heartbeat (fuel : nat) (worker : string) (lease : Z) (execution : Execution) : cprog unit :=
  renew_lease fuel (control (Renew (Execution.ID execution) worker (Execution.ClaimToken execution) lease)).

(** Whether the execution may apply the Change, and the Change as inspected. *)
Definition check_execution (execution : Execution) (record : SystemRecord) : cprog (option Change * option error) :=
  workspace ← control (GetWorkspace (Execution.WorkspaceID execution));
  match workspace with
  | Err e => Ret (None, Some e)
  | Ok workspace =>
      inspected ← control (EInspectChange (SystemRecord.Contract record) (Execution.ChangeID execution));
      match inspected with
      | Err e => Ret (None, Some e)
      | Ok change =>
          if stale change record workspace then Ret (Some change, Some stale_error)
          else if 0 <? ChangeImpact.MonthlyCostDeltaCents (ChangePlan.Impact (Change.Plan_ change)) then
            paid ← control (RequireBillingPayment (Execution.WorkspaceID execution));
            Ret (Some change, match paid with Ok _ => None | Err e => Some e end)
          else Ret (Some change, None)
      end
  end.

Definition record_change (workspaceID : string) (change : option Change) : cprog unit :=
  match change with
  | Some change =>
      if Change.ID change != EmptyString then _ ← control (RecordChange workspaceID change); Ret tt else Ret tt
  | None => Ret tt
  end.

Definition carry_out (worker : string) (execution : Execution) : cprog (option error) :=
  record ← control (GetSystem (Execution.WorkspaceID execution) (Execution.SystemName execution));
  match record with
  | Err e => Ret (Some e)
  | Ok record =>
      '(change, err) ← check_execution execution record;
      match err with
      | Some e => _ ← record_change (Execution.WorkspaceID execution) change; Ret (Some e)
      | None =>
          '(change, err) ← control (EApplyChange (ActorRef.mk "canter" worker EmptyString EmptyString) (SystemRecord.Contract record)
                                      (Execution.ChangeID execution));
          _ ← record_change (Execution.WorkspaceID execution) (Some change); Ret err
      end
  end.

Definition Dispatcher_runOne (worker : string) (execution : Execution) : cprog unit :=
  err ← carry_out worker execution;
  _ ← control Cancel;
  _ ← control (Complete (Execution.ID execution) worker (Execution.ClaimToken execution) err);
  Ret tt.

(** [fuel] bounds the turns of the loop, which otherwise ends with its context. *)
Fixpoint dispatch (fuel : nat) (worker : string) (lease : Z) : cprog (option error) :=
  match fuel with
  | O => Ret (Some OutOfFuel)
  | S fuel' =>
      claimed ← control (Claim worker lease);
      match claimed with
      | Err e => Ret (Some e)
      | Ok (Some execution) => _ ← Dispatcher_runOne worker execution; dispatch fuel' worker lease
      | Ok None =>
          w ← control ControlSelect;
          match (w : wake) with WDone e => Ret (Some e) | _ => dispatch fuel' worker lease end
      end
  end.
Definition Dispatcher_Run (fuel : nat) (worker : string) (lease : Z) : cprog (option error) :=
  if negb engine then Ret (Some no_engine)
  else dispatch fuel (if worker == EmptyString then "control-plane" else worker) (if lease <=? 0 then 30 * Second else lease).
End Service.
