(* ===== verification/ServiceSafety.v ===== *)
(** * What the service and its Change dispatcher may do

    [policy_guard]: applying under a policy mutates nothing but under a decision
    that was taken for this very Change.  [dispatch_guard]: an execution applies
    a Change only after it was found fresh and, if it costs, paid for. *)

From S2P Require Import Prelude Effects GoStrings Documents ControlDocuments SandboxSpec Calls Systems Namespace ChangeRun Views ControlCalls Service.
#[local] Open Scope Z_scope.

Definition told (h : ctrace) (c : control_call) (r : control_answer c) : Prop := Event (R := control_answer) c r ∈ h.

Lemma told_here h c r : told (Event c r :: h) c r.
Proof. unfold told. left. Qed.
Lemma told_later h c r e : told h c r -> told (e :: h) c r.
Proof. unfold told. by right. Qed.
Create HintDb told discriminated.
#[export] Hint Resolve told_here told_later : told.

Section Safety.
Context `{Unicode}.

(** ** Under a policy *)
Section Policy.
Context (ws sys id digest : string) (principal : Principal).

(** An automatic decision about the Change under [digest], for an installation
    that may draft, at the revisions last read. *)
Definition decided (h : ctrace) (d : PolicyDecision) (p : StandingPolicy) : Prop :=
  digest <> EmptyString /\ forbidden_principal principal = false /\
  exists record workspace change installation,
    told h (GetSystem ws sys) (Ok record) /\ told h (GetWorkspace ws) (Ok workspace) /\
    told h (EInspectChange (SystemRecord.Contract record) id) (Ok change) /\ Change.Digest change = digest /\
    Principal.Installation_ principal = Some installation /\
    told h (EvaluatePolicies ws sys (Installation.ID installation) (Workspace.Revision workspace) (SystemRecord.Revision record) change)
      (Ok (d, Some p)) /\
    PolicyDecision.Outcome d = "automatic" /\ PolicyDecision.ExecutionID d = EmptyString.

(** The Change was just authorized for this policy, or had been by it. *)
Definition authorized_under (h : ctrace) (d : PolicyDecision) (p : StandingPolicy) : Prop :=
  (exists contract change, told h (EAuthorizeChange (policy_actor p d) contract id digest) (Ok change)) \/
  (exists contract change, told h (EInspectChange contract id) (Ok change) /\ Change.Phase change <> "drafted" /\
     policy_authorized p digest change = true).

Definition policy_guard (h : ctrace) (c : control_call) : Prop :=
  match c with
  | EAuthorizeChange actor contract id' digest' =>
      id' = id /\ digest' = digest /\
      (exists d p, decided h d p /\ actor = policy_actor p d) /\
      exists record workspace change,
        contract = SystemRecord.Contract record /\ told h (GetSystem ws sys) (Ok record) /\ told h (GetWorkspace ws) (Ok workspace) /\
        told h (EInspectChange contract id) (Ok change) /\ stale change record workspace = false
  | Enqueue ws' sys' id' actor =>
      ws' = ws /\ sys' = sys /\ id' = id /\ exists d p, decided h d p /\ authorized_under h d p /\ actor = policy_actor p d
  | UpdateDecision _ _ _ _ => exists d p, decided h d p
  | c => observing c
  end.

Abbreviation wpP p Q h := (wp (fun _ _ _ => True) policy_guard p Q h).

Lemma decided_later h d p e : decided h d p -> decided (e :: h) d p.
Proof.
  intros (Hd & Hf & record & workspace & change & installation & H1 & H2 & H3 & H4 & H5 & H6 & H7 & H8). split_and!; [done..|].
  exists record, workspace, change, installation. split_and!; auto with told.
Qed.
Lemma authorized_later h d p e : authorized_under h d p -> authorized_under (e :: h) d p.
Proof.
  intros [(contract & change & Ht)|(contract & change & Ht & Hph & Ha)]; [left; eauto with told|right].
  exists contract, change. auto with told.
Qed.
Hint Resolve decided_later authorized_later : told.

Lemma wp_outcome_ok {A} (p : cprog (result A)) k Q h :
  wpP p (fun h' r => match r with Ok a => wpP (k a) Q h' | Err e => Q h' (None, Some e) end) h -> wpP (outcome_ok p k) Q h.
Proof. intros Hp. unfold outcome_ok. apply wp_bind. eapply wp_mono; [exact Hp|]. by intros h' [a|e]. Qed.

Lemma wp_failed d p decision policy change e h :
  decided h d p -> wpP (failed_decision decision policy change e) (fun _ _ => True) h.
Proof. intros Hd. unfold failed_decision, control. apply wp_bind. wp_ask; [by exists d, p|done]. Qed.

Lemma wp_queue d p change change' h :
  decided h d p -> authorized_under h d p ->
  wpP (queue_under_policy ws sys id digest principal d p change change') (fun _ _ => True) h.
Proof.
  intros Hd Ha. unfold queue_under_policy, control. cbv zeta. apply wp_outcome_ok. wp_ask; [by exists d, p|].
  destruct a as [d'|e]; [|done]. apply wp_bind. wp_ask.
  { split_and!; [done..|]. exists d, p. auto with told. }
  destruct a as [execution|e]; [|apply (wp_failed d p); auto with told].
  apply wp_outcome_ok. wp_ask; [exists d, p; auto with told|]. destruct a as [d''|e]; [|done]. apply wp_bind. by wp_ask.
Qed.

Lemma wp_authorize d p h Q :
  decided h d p ->
  (forall h' r, decided h' d p -> (forall change, r = Ok change -> authorized_under h' d p) -> Q h' r) ->
  wpP (Service_AuthorizeChange true ws sys id digest (policy_actor p d)) Q h.
Proof.
  intros Hd HQ. unfold Service_AuthorizeChange, control. cbn [negb]. apply wp_bind_ok. wp_ask.
  destruct a as [record|e]; [|apply HQ; [auto with told|done]]. apply wp_bind_ok. wp_ask.
  destruct a as [current|e]; [|apply HQ; [auto with told|done]]. apply wp_bind_ok. wp_ask.
  destruct a as [workspace|e]; [|apply HQ; [auto with told|done]]. destruct (stale _ _ _) eqn:Hs; [apply HQ; [auto with told|done]|].
  apply wp_bind_ok. wp_ask.
  { split_and!; [done..|exists d, p; auto with told|]. exists record, workspace, current. split_and!; auto 6 with told. }
  destruct a as [change|e]; [|apply HQ; [auto 6 with told|done]].
  assert (forall h', told h' (EAuthorizeChange (policy_actor p d) (SystemRecord.Contract record) id digest) (Ok change) ->
    authorized_under h' d p) as Ha by (intros h' Ht; left; eauto).
  apply wp_bind_ok. wp_ask. destruct a as [[]|e]; [|apply HQ; [auto 8 with told|done]]. apply wp_bind. wp_ask.
  apply HQ; [auto 8 with told|]. intros _ _. apply Ha. auto with told.
Qed.

Lemma wp_apply_under_policy h :
  wpP (ApplyChangeUnderPolicy true ws sys id digest principal) (fun _ _ => True) h.
Proof.
  unfold ApplyChangeUnderPolicy, control. cbn [negb]. destruct (forbidden_principal principal) eqn:Hf; [done|]. cbv zeta.
  destruct (Principal.Installation_ principal) as [installation|] eqn:Hi; [|by unfold forbidden_principal in Hf; rewrite Hi in Hf].
  apply wp_outcome_ok. wp_ask. destruct a as [record|e]; [|done]. apply wp_outcome_ok. wp_ask. destruct a as [workspace|e]; [|done].
  apply wp_outcome_ok. wp_ask. destruct a as [change|e]; [|done]. destruct (_ || _) eqn:Hdig; [done|]. bool_inv.
  apply wp_outcome_ok. wp_ask. destruct a as [[d [p|]]|e]; [| |done].
  2:{ apply wp_bind. by wp_ask. }
  destruct (PolicyDecision.Outcome d != _) eqn:Ho; [apply wp_bind; by wp_ask|].
  destruct (PolicyDecision.ExecutionID d != _) eqn:Hx; [apply wp_outcome_ok; wp_ask; by destruct a|]. bool_inv.
  match goal with |- wp _ _ _ _ ?h0 => assert (decided h0 d p) as Hd end.
  { split_and!; [done..|]. exists record, workspace, change, installation. split_and!; auto 6 with told. }
  destruct (Change.Phase change == "drafted") eqn:Hph.
  - apply wp_bind, (wp_authorize d p); [done|]. intros h' [authorized|e] Hd' Ha; [|by apply (wp_failed d p)].
    apply wp_queue; [done|by eapply Ha].
  - destruct (policy_authorized p digest change) eqn:Hpa; [|done]. apply wp_queue; [done|]. right.
    exists (SystemRecord.Contract record), change. bool_inv. split_and!; auto 6 with told.
Qed.
End Policy.

(** ** The dispatcher *)
Section Dispatch.
Context (worker : string) (execution : Execution).
Abbreviation ws := (Execution.WorkspaceID execution).

(** What is applied was inspected, is not stale, and is paid for. *)
Definition cleared (h : ctrace) (contract : System) : Prop :=
  exists record workspace change,
    contract = SystemRecord.Contract record /\ told h (GetSystem ws (Execution.SystemName execution)) (Ok record) /\
    told h (GetWorkspace ws) (Ok workspace) /\ told h (EInspectChange contract (Execution.ChangeID execution)) (Ok change) /\
    stale change record workspace = false /\
    (0 < ChangeImpact.MonthlyCostDeltaCents (ChangePlan.Impact (Change.Plan_ change)) -> told h (RequireBillingPayment ws) (Ok tt)).

Definition dispatch_guard (h : ctrace) (c : control_call) : Prop :=
  match c with
  | EApplyChange actor contract id =>
      actor = ActorRef.mk "canter" worker EmptyString EmptyString /\ id = Execution.ChangeID execution /\ cleared h contract /\
      Forall (fun e => match ev_call e with EApplyChange _ _ _ => False | _ => True end) h
  | Complete id w token err =>
      id = Execution.ID execution /\ w = worker /\ token = Execution.ClaimToken execution /\
      (err = None -> exists actor contract change,
         told h (EApplyChange actor contract (Execution.ChangeID execution)) (change, None)) /\
      Forall (fun e => match ev_call e with Complete _ _ _ _ => False | _ => True end) h
  | c => observing c
  end.

Abbreviation wpD p Q h := (wp (fun _ _ _ => True) dispatch_guard p Q h).
(** Nothing was applied, nothing completed. *)
Definition idle (h : ctrace) : Prop :=
  Forall (fun e => match ev_call e with EApplyChange _ _ _ | Complete _ _ _ _ => False | _ => True end) h.
Definition open_ (h : ctrace) : Prop := Forall (fun e => match ev_call e with Complete _ _ _ _ => False | _ => True end) h.

Lemma idle_open h : idle h -> open_ h.
Proof. intros Hi. eapply Forall_impl; [exact Hi|]. by intros [[] ?]. Qed.

Lemma wp_check record h Q :
  idle h -> told h (GetSystem ws (Execution.SystemName execution)) (Ok record) ->
  (forall h' change err, idle h' -> (err = None -> cleared h' (SystemRecord.Contract record)) -> Q h' (change, err)) ->
  wpD (check_execution execution record) Q h.
Proof.
  intros Hi Hr HQ. unfold check_execution, control. apply wp_bind. wp_ask.
  destruct a as [workspace|e]; [|apply HQ; [by constructor|done]]. apply wp_bind. wp_ask.
  destruct a as [change|e]; [|apply HQ; [by repeat constructor|done]]. destruct (stale _ _ _) eqn:Hs; [apply HQ; [by repeat constructor|done]|].
  destruct (0 <? _) eqn:Hc.
  - apply wp_bind. wp_ask. destruct a as [[]|e]; (apply HQ; [by repeat constructor|]); [|done]. intros _.
    exists record, workspace, change. split_and!; auto 6 with told.
  - apply HQ; [by repeat constructor|]. intros _. exists record, workspace, change. apply Z.ltb_ge in Hc.
    split_and!; auto 6 with told. lia.
Qed.

Lemma wp_record_change change h Q :
  open_ h -> (forall h', (exists l, h' = l ++ h) -> open_ h' -> Q h' tt) -> wpD (record_change ws change) Q h.
Proof.
  intros Ho HQ. unfold record_change, control. destruct change as [change|]; [|apply wp_ret, HQ; [by exists []|done]].
  destruct (_ != _); [|apply wp_ret, HQ; [by exists []|done]]. apply wp_bind. wp_ask. apply wp_ret, HQ; [by eexists [_]|by constructor].
Qed.

Lemma wp_carry_out h Q :
  idle h ->
  (forall h' err, open_ h' -> (err = None -> exists actor contract change,
     told h' (EApplyChange actor contract (Execution.ChangeID execution)) (change, None)) -> Q h' err) ->
  wpD (carry_out worker execution) Q h.
Proof.
  intros Hi HQ. unfold carry_out, control. apply wp_bind. wp_ask. destruct a as [record|e]; [|apply HQ; [by apply idle_open; constructor|done]].
  apply wp_bind, wp_check; [by constructor|auto with told|]. intros h' change err Hi' Hc. destruct err as [e|].
  - apply wp_bind, wp_record_change; [by apply idle_open|]. intros h'' _ Ho. by apply HQ.
  - apply wp_bind. wp_ask.
    { split_and!; [done..|by apply Hc|]. eapply Forall_impl; [exact Hi'|]. by intros [[] ?]. }
    destruct a as [change' err]. apply wp_bind, wp_record_change; [by constructor; [|apply idle_open]|].
    intros h'' [l ->] Ho. apply HQ; [done|]. intros ->. eexists _, _, change'. apply elem_of_app. right. left.
Qed.

Lemma wp_runOne h : idle h -> wpD (Dispatcher_runOne worker execution) (fun h' _ => exists err r rest,
  h' = Event (R := control_answer) (Complete (Execution.ID execution) worker (Execution.ClaimToken execution) err) r :: rest) h.
Proof.
  intros Hi. unfold Dispatcher_runOne, control. apply wp_bind, wp_carry_out; [done|]. intros h' err Ho He. apply wp_bind. wp_ask.
  apply wp_bind. wp_ask; [split_and!; [done..| |by constructor]|].
  - intros Hn. destruct (He Hn) as (actor & contract & change & Ht). exists actor, contract, change. auto with told.
  - apply wp_ret. by eexists err, _, _.
Qed.
End Dispatch.
End Safety.
