(* ===== verification/Dispatch.v ===== *)
(** * Initial deployments as the control plane carries them out (internal/controlplane/initial_deployment.go)

    Uploading an artifact, drafting a deployment, and the dispatcher that runs
    the five operations of an authorized one under its claim.  [error_code] is
    the code of an object-store error, an interface of a package the program
    only calls; [node_binary] and [worker] are fields of the dispatcher. *)

From S2P Require Import Prelude Effects GoStrings Digest Json Documents ControlDocuments SandboxSpec Calls Systems Creation Releases.
From S2P Require Import Endpoints AgentCalls NodeArtifacts Deployments Uploads Views ControlCalls Service.
#[local] Open Scope Z_scope.

Module DP := InitialDeploymentPlan.

Section Dispatch.
Context `{Unicode} (open_archive : string -> result archive) (read_member : string -> tar_header -> result unit).
Context (error_code : error -> option string).

(** ** Uploading *)
Definition human_session (workspaceID : string) (actor : ActorRef) : cprog (result unit) :=
  if (ActorRef.Kind actor == "human") && (ActorRef.SessionID actor != EmptyString) then
    current ← control (SessionMayWrite (ActorRef.SessionID actor) (ActorRef.ID actor) workspaceID);
    Ret (match (current : result bool) with Ok true => Ok tt | _ => Err ErrUnauthorized end)
  else Ret (Ok tt).

Definition UploadDeploymentArtifact (workspaceID data filename contentType : string) (actor : ActorRef) : cprog (result DeploymentArtifact) :=
  entries ←! lift (validateApplicationArtifact open_archive read_member data);
  _ ←! control BeginUpload;
  _ ←! (if ActorRef.Kind actor == "human" then control (LockAccount (ActorRef.ID actor)) else Ret (Ok tt));
  exists_ ← control (LockWorkspace workspaceID);
  match (exists_ : result unit) with
  | Err _ => Ret (Err ErrNotFound)
  | Ok _ =>
      _ ←! human_session workspaceID actor;
      key ←! lift (ControlPlaneArtifactKey (sha256_hex data));
      _ ←! control (LockDigest key);
      staged ←! control (EStageArtifact data filename contentType);
      if StagedArtifact.Key staged != key then Ret (Err (Errorf "artifact staging returned an unexpected digest key"))
      else
        recorded ← (record ←! control (RecordArtifact workspaceID staged entries actor);
                    _ ←! control CommitUpload;
                    Ret (Ok record));
        match recorded with
        | Err e => Ret (Err (Wrapf "artifact staged but durable ownership record failed: " e))
        | Ok record => _ ← control (Audit workspaceID actor "artifact.uploaded" (DeploymentArtifact.SHA256 record)); Ret (Ok record)
        end
  end.

(** ** Whether a failed deployment may be replaced *)
Definition operationSucceeded (d : InitialDeployment) (operationID : string) : bool :=
  match List.find (fun o => InitialDeploymentOperation.ID o == operationID) (InitialDeployment.Operations d) with
  | Some o => InitialDeploymentOperation.Phase o == "succeeded"
  | None => false
  end.

(** [None]: something happened beyond the failed bootstrap. *)
Fixpoint bootstrap_failed (operations : list InitialDeploymentOperation.InitialDeploymentOperation) (failed : bool) (laterPending : Z)
    : option (bool * Z) :=
  match operations with
  | [] => Some (failed, laterPending)
  | o :: rest =>
      let id := InitialDeploymentOperation.ID o in
      if id == "02-bootstrap-host" then
        if (InitialDeploymentOperation.Phase o != "failed") || negb (IsSafePublicFailure (InitialDeploymentOperation.Failure o))
        then None else bootstrap_failed rest true laterPending
      else if (id == "03-publish-release") || (id == "04-wait-healthy") || (id == "05-verify-public") then
        if InitialDeploymentOperation.Phase o != "pending" then None else bootstrap_failed rest failed (laterPending + 1)
      else bootstrap_failed rest failed laterPending
  end.
Definition failedBeforeRuntimeMutationForUnsupportedClass (d : InitialDeployment) : bool :=
  if (InitialDeployment.Phase d != "failed") || negb (operationSucceeded d "01-register-system") then false
  else if is_ok (computeclass_Validate (HostConstraint.Class_ (Constraints.Host (SystemContract.Constraints_ (System.Spec_ (DP.System (InitialDeployment.Plan d)))))))
  then false
  else match bootstrap_failed (InitialDeployment.Operations d) false 0 with
       | Some (failed, laterPending) => failed && (laterPending =? 3)
       | None => false
       end.

(** [json.Marshal] of two contracts compared as bytes. *)
Definition same_contract (a b : System) : bool := render (system_json a) == render (system_json b).

Fixpoint replacement_source (workspaceID systemName excludeDeploymentID : string) (existing : System)
    (indexes : list InitialDeploymentIndex.InitialDeploymentIndex) (source : string) : cprog (result string) :=
  match indexes with
  | [] => Ret (Ok source)
  | index :: rest =>
      if (InitialDeploymentIndex.System index != systemName) || (InitialDeploymentIndex.ID index == excludeDeploymentID)
      then replacement_source workspaceID systemName excludeDeploymentID existing rest source
      else if InitialDeploymentIndex.Phase index != "failed" then Ret (Ok EmptyString)
      else
        d ←! control (GetInitialDeployment workspaceID (InitialDeploymentIndex.ID index));
        if negb (failedBeforeRuntimeMutationForUnsupportedClass d) then Ret (Ok EmptyString)
        else if negb (same_contract existing (DP.System (InitialDeployment.Plan d))) then Ret (Ok EmptyString)
        else replacement_source workspaceID systemName excludeDeploymentID existing rest
               (if source == EmptyString then InitialDeployment.ID d else source)
  end.
Definition failedUnsupportedClassReplacementSource (workspaceID systemName excludeDeploymentID : string) (existing : System) : cprog (result string) :=
  indexes ←! control (ListInitialDeployments workspaceID);
  replacement_source workspaceID systemName excludeDeploymentID existing indexes EmptyString.

(** ** Drafting *)
Definition environment_byte (c : ascii) : bool := is_upper c || is_digit c || (c == "_"%char).
Definition deploymentEnvironmentName (name : string) : bool := class_match is_upper environment_byte 127 name.

Definition deployment_verification (v : ChangeVerification) : ChangeVerification :=
  let v := if ChangeVerification.Method v == EmptyString then ChangeVerification.with_Method "GET" v else v in
  if ChangeVerification.ExpectedStatus v =? 0 then ChangeVerification.with_ExpectedStatus 200 v else v.

Definition check_draft (input : DraftInitialDeploymentInput) : result DraftInitialDeploymentInput :=
  let release := DraftInitialDeploymentInput.Release input in
  _ ← reject_if (TrimSpace (DraftInitialDeploymentInput.Summary input) == EmptyString) (Errorf "initial deployment summary is required");
  _ ← reject_if ((length (InitialDeploymentRelease.Command release) =? 0)%nat || (InitialDeploymentRelease.PublicPort release <? 1) ||
                 (65535 <? InitialDeploymentRelease.PublicPort release) || negb (HasPrefix (InitialDeploymentRelease.HealthPath release) "/"))
        (Errorf "release requires a command, absolute health path, and valid public port");
  _ ← fold_result (fun _ kv => reject_if (negb (deploymentEnvironmentName kv.1) || HasPrefix kv.1 "CANTER_")
                                 (Errorf ("environment name " +:+ Quote kv.1 +:+ " is reserved or invalid")))
        tt (map_to_list (InitialDeploymentRelease.Environment release));
  let v := deployment_verification (DraftInitialDeploymentInput.Verification input) in
  _ ← reject_if ((ChangeVerification.Method v != "GET") || negb (HasPrefix (ChangeVerification.Path v) "/") ||
                 (ChangeVerification.ExpectedStatus v <? 100) || (599 <? ChangeVerification.ExpectedStatus v))
        (Errorf "verification requires GET, an absolute path, and a valid expected status");
  Ok (DraftInitialDeploymentInput.mk (DraftInitialDeploymentInput.Summary input) (DraftInitialDeploymentInput.System input)
        (DraftInitialDeploymentInput.ArtifactSHA256 input) release v).

(** What a registered System of that name means for the draft: the deployment it replaces. *)
Definition check_existing (engine : bool) (workspaceID : string) (contract : System) : cprog (result string) :=
  let name := Metadata.Name (System.Metadata_ contract) in
  read ← control (GetSystem workspaceID name);
  match (read : result SystemRecord) with
  | Err e => Ret (if errors_Is ErrNotFound e then Ok EmptyString else Err e)
  | Ok existing =>
      let existingMatches := same_contract (SystemRecord.Contract existing) contract in
      source ←! failedUnsupportedClassReplacementSource workspaceID name EmptyString (SystemRecord.Contract existing);
      if negb existingMatches then
        Ret (if source == EmptyString then Err (WrapfBefore ErrConflict ": a different System contract already uses this name") else Ok source)
      else
        view ←! InspectSystem engine workspaceID name;
        match PublicSystemView.Host view, PublicSystemView.Release view with
        | None, None =>
            deployments ←! control (ListInitialDeployments workspaceID);
            Ret (if existsb (fun d => InitialDeploymentIndex.System d == name) deployments
                 then Err (WrapfBefore ErrConflict ": System already has an initial deployment proposal") else Ok EmptyString)
        | _, _ => Ret (Err (WrapfBefore ErrConflict ": System already has observed runtime state; draft a Change instead"))
        end
  end.

(** [Command[0]] is not empty: [check_draft] ran. *)
Definition check_command (command : list string) (artifact : DeploymentArtifact) : result unit :=
  let program := default EmptyString (head command) in
  let commandPath := TrimPrefix program "./" in
  _ ← reject_if (negb (HasPrefix program "./"))
        (Errorf "release command must start with ./ and name an executable file inside the artifact");
  _ ← reject_if ((Clean commandPath != commandPath) || (commandPath == "."))
        (Errorf "release command must start with ./ and name an executable file inside the artifact");
  reject_if (negb (existsb (fun entry => (DeploymentArtifactEntry.Path entry == commandPath) &&
                                         negb (Z.land (DeploymentArtifactEntry.Mode entry) 64 =? 0)) (DeploymentArtifact.Entries artifact)))
    (Errorf ("release command " +:+ Quote program +:+ " is not an executable file in artifact " +:+ DeploymentArtifact.SHA256 artifact)).

Definition pending (id kind description : string) : InitialDeploymentOperation :=
  InitialDeploymentOperation.mk id kind description "pending" None None EmptyString.
Definition initial_operations : list InitialDeploymentOperation.InitialDeploymentOperation :=
  [pending "01-register-system" "system.register" "register the exact approved System contract";
   pending "02-bootstrap-host" "system-host.bootstrap" "provision compute and install the Canter node runtime";
   pending "03-publish-release" "release.publish-staged" "publish the approved content-addressed artifact";
   pending "04-wait-healthy" "release.wait-public" "wait for the release and managed public endpoint";
   pending "05-verify-public" "http.verify" "run the exact approved public verification"].

Definition DraftInitialDeployment (engine : bool) (workspaceID : string) (input : DraftInitialDeploymentInput) (actor : ActorRef)
    : cprog (result InitialDeployment) :=
  canonical ←! lift (canonicalizeSystemForWorkspace workspaceID (DraftInitialDeploymentInput.System input));
  input ←! lift (check_draft input);
  replaces ←! check_existing engine workspaceID canonical;
  '(artifact, _) ←! control (GetDeploymentArtifact workspaceID (DraftInitialDeploymentInput.ArtifactSHA256 input));
  let release := DraftInitialDeploymentInput.Release input in
  _ ←! lift (check_command (InitialDeploymentRelease.Command release) artifact);
  workspace ←! control (GetWorkspace workspaceID);
  let plan := DP.mk canonical (DraftInitialDeploymentInput.ArtifactSHA256 input) release (DraftInitialDeploymentInput.Verification input)
                (Workspace.Revision workspace) replaces in
  id ← control (ControlNewID "dep_");
  t ← control ControlNow;
  let deployment :=
    InitialDeployment.mk "v1" id workspaceID (Metadata.Name (System.Metadata_ canonical))
      (TrimSpace (DraftInitialDeploymentInput.Summary input)) "drafted" (digestInitialDeployment plan) actor None plan
      initial_operations [] EmptyString t t None in
  _ ←! control (PutInitialDeployment deployment);
  _ ← control (Audit workspaceID actor "initial-deployment.drafted" id);
  Ret (Ok deployment).

Definition Service_AuthorizeInitialDeployment (workspaceID deploymentID digest : string) (actor : ActorRef) : cprog (result InitialDeployment) :=
  deployment ←! control (AuthorizeDeployment workspaceID deploymentID digest actor);
  _ ← control (Audit workspaceID actor "initial-deployment.authorized" deploymentID);
  Ret (Ok deployment).

(** ** The dispatcher *)
Section Dispatcher.
Context (worker node_binary : string) (wait_fuel : nat).
Context (execution : InitialDeploymentExecution).
Abbreviation IDx := (InitialDeploymentExecution.ID execution).
Abbreviation wsx := (InitialDeploymentExecution.WorkspaceID execution).
Abbreviation depx := (InitialDeploymentExecution.DeploymentID execution).
Abbreviation tokenx := (InitialDeploymentExecution.ClaimToken execution).

(** One operation: [None] if it had succeeded before. *)
Definition deployment_operation {A} (operationID : string) (run : cprog (result (string * A))) : cprog (result (option A)) :=
  shouldRun ←! control (BeginOperation IDx worker tokenx depx operationID);
  if negb shouldRun then Ret (Ok None)
  else
    ran ← run;
    match ran with
    | Err e =>
        finished ← control (FinishOperation IDx worker tokenx depx operationID "failed" (Error e) None);
        Ret (Err (match (finished : result unit) with
                  | Err finishErr => Wrapf (Error e +:+ "; persist failed operation: ") finishErr
                  | Ok _ => e
                  end))
    | Ok (statement, a) =>
        t ← control ControlNow;
        _ ←! control (FinishOperation IDx worker tokenx depx operationID "succeeded" EmptyString
                        (Some (ChangeEvidence.mk operationID "control-plane.observation" statement t)));
        Ret (Ok (Some a))
    end.

Definition initialDeploymentWorkspaceRevisionValid (d : InitialDeployment) (currentRevision : Z) (existingSystemMatches : bool) : bool :=
  (currentRevision =? DP.WorkspaceRevision (InitialDeployment.Plan d)) ||
  (existingSystemMatches && operationSucceeded d "01-register-system").

(** Whether the registered contract is the approved one, and if not whether it may be replaced. *)
Definition check_registered (d : InitialDeployment) : cprog (result (bool * bool)) :=
  let system := DP.System (InitialDeployment.Plan d) in
  let name := Metadata.Name (System.Metadata_ system) in
  read ← control (GetSystem wsx name);
  match (read : result SystemRecord) with
  | Err e => Ret (if errors_Is ErrNotFound e then Ok (false, false) else Err e)
  | Ok existing =>
      if same_contract (SystemRecord.Contract existing) system then Ret (Ok (true, false))
      else
        source ←! failedUnsupportedClassReplacementSource wsx name (InitialDeployment.ID d) (SystemRecord.Contract existing);
        Ret (if (source != EmptyString) && (source == DP.ReplacesDeploymentID (InitialDeployment.Plan d)) then Ok (false, true)
             else Err (WrapfBefore ErrConflict ": a different System contract now uses this name"))
  end.

Definition register_system (system : System) (replacementAllowed : bool) : cprog (result (string * unit)) :=
  read ← control (GetSystem wsx (Metadata.Name (System.Metadata_ system)));
  match (read : result SystemRecord) with
  | Ok existing =>
      if same_contract (SystemRecord.Contract existing) system then Ret (Ok ("approved System contract already registered", tt))
      else if negb replacementAllowed
      then Ret (Err (WrapfBefore ErrConflict ": a different System contract now uses this name"))
      else
        _ ←! control (PutSystem wsx system);
        Ret (Ok ("failed pre-runtime System contract replaced by the corrected approved contract", tt))
  | Err e =>
      if errors_Is ErrNotFound e then _ ←! control (PutSystem wsx system); Ret (Ok ("approved System contract registered", tt))
      else Ret (Err e)
  end.

Definition public_ports (services : list SystemService) : list Z :=
  Readiness.Port ∘ SystemService.Readiness_ <$>
    List.filter (fun s => (SystemService.Networking s == "public") && (Readiness.Protocol (SystemService.Readiness_ s) == "http") &&
                          (0 <? Readiness.Port (SystemService.Readiness_ s))) services.
Definition systemHostEndpointReady (system : System) (state : State) : bool :=
  let resources := State.Resources state in
  let count := HostConstraint.Count (Constraints.Host (SystemContract.Constraints_ (System.Spec_ system))) in
  match State.ExposureIntent_ state, resources with
  | Some intent, [resource] =>
      (ExposureIntent.OperationID intent != EmptyString) && (ExposureIntent.Name intent != EmptyString) &&
      (ExposureIntent.Ownership intent != EmptyString) && (ExposureIntent.Phase intent == "ready") &&
      (ExposureIntent.Protocol intent == "tcp") && (count =? 1) && (ExposureIntent.ServerID intent == Resource.ID resource) &&
      match public_ports (SystemContract.Services (System.Spec_ system)) with
      | [publicPort] =>
          (ExposureIntent.Port intent =? publicPort) &&
          (Z.of_nat (length (List.filter (fun p =>
             (NetworkPolicy.ID p != EmptyString) && (NetworkPolicy.PortID p != EmptyString) && (NetworkPolicy.RuleID p != EmptyString) &&
             (NetworkPolicy.Protocol p == "tcp") && (NetworkPolicy.Port p =? publicPort)) (State.NetworkPolicies state))) =? 1)
      | _ => false
      end
  | _, _ => false
  end.

Definition host_count (system : System) (state : State) : bool :=
  Z.of_nat (length (State.Resources state)) =? HostConstraint.Count (Constraints.Host (SystemContract.Constraints_ (System.Spec_ system))).
Definition escalated_exposure (state : State) : bool :=
  match State.ExposureIntent_ state with
  | Some intent => (ExposureIntent.Phase intent == "escalated") && ExposureIntent.MutationUnresolved intent
  | None => false
  end.

Definition expose_host (system : System) (state : State) : cprog (result (string * unit)) :=
  if systemHostEndpointReady system state then Ret (Ok ("existing Canter System host and public endpoint are ready", tt))
  else
    exposed ← control (EExposeSystemHost system);
    match (exposed : result State) with
    | Err e => Ret (Err (Wrapf "reconcile existing System host exposure: " e))
    | Ok reconciled =>
        Ret (if systemHostEndpointReady system reconciled then Ok ("existing Canter System host public endpoint reconciled", tt)
             else Err (Errorf "existing System host exposure did not reach durable ready state"))
    end.

Definition recover_host (system : System) : cprog (result (string * unit)) :=
  prior ← control (HasPriorFailed depx IDx);
  match (prior : result bool) with
  | Err e => Ret (Err (Wrapf "inspect prior deployment execution: " e))
  | Ok false => Ret (Err (Errorf "existing Canter System host exposure is escalated and requires an explicit human retry"))
  | Ok true =>
      supported ← control ESupportsRecovery;
      if negb supported then Ret (Err (Errorf "initial deployment engine cannot recover an escalated public endpoint"))
      else
        recovered ← control (ERecoverSystemHostExposure system);
        match (recovered : result State) with
        | Err e => Ret (Err (Wrapf "recover existing System host exposure after human retry: " e))
        | Ok reconciled =>
            Ret (if systemHostEndpointReady system reconciled
                 then Ok ("existing Canter System host public endpoint recovered after explicit human retry", tt)
                 else Err (Errorf "recovered System host exposure did not reach durable ready state"))
        end
  end.

Definition bootstrap_host (system : System) : cprog (result (string * unit)) :=
  if node_binary == EmptyString then Ret (Err (Errorf "control plane has no Canter node binary configured"))
  else
    '(state, statusErr) ← control (ESystemHostStatus system);
    let observed := match statusErr with None => true | Some _ => false end in
    if observed && (State.Phase state == "ready") && host_count system state then expose_host system state
    else if observed && (State.Phase state == "escalated") && host_count system state && escalated_exposure state then recover_host system
    else if observed && (State.Phase state != "destroyed") && (0 <? length (State.Resources state))%nat
    then Ret (Err (Errorf ("existing Canter System host is in non-ready phase " +:+ Quote (State.Phase state) +:+
                           " and requires operator recovery")))
    else
      gateway ←! control (PrepareNodeBootstrap wsx (Metadata.Name (System.Metadata_ system)));
      result ←! control (EBootstrapSystemHost system node_binary gateway);
      Ret (Ok ("Canter System host bootstrapped as operation " +:+ ApplyResult.OperationID result, tt)).

Definition publish_release (d : InitialDeployment) (staged : StagedArtifact) : cprog (result (string * ReleaseManifest)) :=
  let plan := InitialDeployment.Plan d in
  let release := DP.Release plan in
  _ ←! control (EVerifyStagedArtifact staged);
  manifest ←! control (EPublishStagedRelease (DP.System plan)
                (StagedReleaseInput.mk staged (InitialDeploymentRelease.Command release) (InitialDeploymentRelease.Environment release)
                   (InitialDeploymentRelease.HealthPath release) (InitialDeploymentRelease.PublicPort release)));
  Ret (Ok ("desired release set to approved artifact " +:+ StagedArtifact.SHA256 staged, manifest)).

Definition isMissingObservedRelease (e : error) : bool :=
  match error_code e with Some code => (code == "NoSuchKey") || (code == "NotFound") | None => false end.

(** [wait_fuel] bounds the polls; the deadline of the context ends them. *)
Fixpoint waitPublicEndpoint (fuel : nat) (system : System) : cprog (result ReleaseView) :=
  match fuel with
  | O => Ret (Err OutOfFuel)
  | S fuel' =>
      '(view, err) ← control (EWaitPublicEndpoint system);
      match err with
      | None => Ret (Ok view)
      | Some e =>
          if negb (isMissingObservedRelease e) then Ret (Err e)
          else
            w ← control ControlSelect;
            match (w : wake) with
            | WDone e => Ret (Err (Wrapf "observed release was not published before the wait deadline: " e))
            | _ => waitPublicEndpoint fuel' system
            end
      end
  end.

Definition wait_healthy (system : System) : cprog (result (string * unit)) :=
  view ←! waitPublicEndpoint wait_fuel system;
  Ret (Ok ("release healthy and public at " +:+ PublicEndpointObservation.URL (ReleaseView.PublicEndpoint view), tt)).

Definition verify_public (d : InitialDeployment) (version : string) : cprog (result (string * unit)) :=
  observation ←! control (EVerifyPublicEndpoint (DP.System (InitialDeployment.Plan d)) version (DP.Verification (InitialDeployment.Plan d)));
  Ret (Ok ("HTTP " +:+ Itoa (PublicEndpointObservation.StatusCode observation) +:+ " verified at " +:+
           PublicEndpointObservation.URL observation, tt)).

(** What must hold before anything is done. *)
Definition check_authorized (d : InitialDeployment) : result unit :=
  _ ← reject_if (match InitialDeployment.Authorization_ d with
                 | None => true
                 | Some a => Authorization.Digest a != InitialDeployment.Digest d
                 end) (WrapfBefore ErrConflict ": deployment is not authorized for its exact digest");
  reject_if (digestInitialDeployment (InitialDeployment.Plan d) != InitialDeployment.Digest d)
    (WrapfBefore ErrConflict ": deployment plan no longer matches its immutable digest").

Definition reopen_host (system : System) : cprog (result unit) :=
  '(state, statusErr) ← control (ESystemHostStatus system);
  if match statusErr with None => State.Phase state == "destroyed" | Some _ => false end then
    reopened ← control (ReopenHost IDx worker tokenx depx);
    Ret (match (reopened : result unit) with
         | Err e => Err (Wrapf "reopen destroyed System host after human retry: " e)
         | Ok _ => Ok tt
         end)
  else Ret (Ok tt).

(** [Ok None]: slicing the digest panicked, and nothing recovers: the process is gone. *)
Definition execute : cprog (result (option unit)) :=
  _ ←! control (RequireBillingPayment wsx);
  deployment ←! control (GetInitialDeployment wsx depx);
  _ ←! lift (check_authorized deployment);
  let plan := InitialDeployment.Plan deployment in
  let system := DP.System plan in
  '(_, staged) ←! control (GetDeploymentArtifact wsx (DP.ArtifactSHA256 plan));
  workspace ←! control (GetWorkspace wsx);
  '(existingMatches, replacementAllowed) ←! check_registered deployment;
  _ ←! lift (reject_if (negb (initialDeploymentWorkspaceRevisionValid deployment (Workspace.Revision workspace) existingMatches))
               (WrapfBefore ErrConflict ": workspace changed after the initial deployment was drafted"));
  _ ←! deployment_operation "01-register-system" (register_system system replacementAllowed);
  _ ←! reopen_host system;
  _ ←! deployment_operation "02-bootstrap-host" (bootstrap_host system);
  if slen (StagedArtifact.SHA256 staged) <? 12 then Ret (Ok None)
  else
    published ←! deployment_operation "03-publish-release" (publish_release deployment staged);
    let version := match published with
                   | Some manifest => ReleaseManifest.Version manifest
                   | None => take_bytes 12 (StagedArtifact.SHA256 staged)
                   end in
    _ ←! deployment_operation "04-wait-healthy" (wait_healthy system);
    _ ←! deployment_operation "05-verify-public" (verify_public deployment version);
    Ret (Ok (Some tt)).

Definition InitialDispatcher_runOne : cprog (result unit) :=
  executed ← execute;
  match (executed : result (option unit)) with
  | Ok None => Ret (Err (Panic "slice bounds out of range"))
  | Ok (Some _) => _ ← control Cancel; control (CompleteInitial IDx worker tokenx None)
  | Err e => _ ← control Cancel; control (CompleteInitial IDx worker tokenx (Some e))
  end.
Definition initial_heartbeat (fuel : nat) (lease : Z) : cprog unit :=
  renew_lease fuel (control (RenewInitial IDx worker tokenx lease)).
End Dispatcher.

Fixpoint dispatch_initial (fuel wait_fuel : nat) (worker node_binary : string) (lease : Z) : cprog (option error) :=
  match fuel with
  | O => Ret (Some OutOfFuel)
  | S fuel' =>
      claimed ← control (ClaimInitial worker lease);
      match (claimed : result (option InitialDeploymentExecution.InitialDeploymentExecution)) with
      | Err e => Ret (Some e)
      | Ok (Some execution) =>
          completed ← InitialDispatcher_runOne worker node_binary wait_fuel execution;
          match (completed : result unit) with
          | Err e => Ret (Some (Wrapf ("complete initial deployment execution " +:+ InitialDeploymentExecution.ID execution +:+ ": ") e))
          | Ok _ => dispatch_initial fuel' wait_fuel worker node_binary lease
          end
      | Ok None =>
          w ← control ControlSelect;
          match (w : wake) with WDone e => Ret (Some e) | _ => dispatch_initial fuel' wait_fuel worker node_binary lease end
      end
  end.
Definition InitialDispatcher_Run (fuel wait_fuel : nat) (worker node_binary : string) (lease : Z) : cprog (option error) :=
  dispatch_initial fuel wait_fuel (if worker == EmptyString then "control-plane/initial-deployment" else worker) node_binary
    (if lease <=? 0 then 30 * Second else lease).
End Dispatch.
