(* ===== verification/DispatchSafety.v ===== *)
(** * What the dispatcher of initial deployments may do

    [initial_guard]: it mutates only within the operation it has begun under its
    claim and not yet finished, and only for the plan that was authorized; the one
    exception is reopening the deployment of a destroyed host, between the first
    operation and the second. *)

From S2P Require Import Prelude Effects GoStrings Digest Json Documents ControlDocuments SandboxSpec Calls Systems Creation Releases.
From S2P Require Import Endpoints AgentCalls NodeArtifacts Deployments Uploads Views ControlCalls Service ServiceSafety Dispatch.
#[local] Open Scope Z_scope.
#[local] Opaque digestInitialDeployment.

Section Safety.
Context `{Unicode} (error_code : error -> option string) (worker node_binary : string) (wait_fuel : nat).
Context (execution : InitialDeploymentExecution).
Abbreviation IDx := (InitialDeploymentExecution.ID execution).
Abbreviation wsx := (InitialDeploymentExecution.WorkspaceID execution).
Abbreviation depx := (InitialDeploymentExecution.DeploymentID execution).
Abbreviation tokenx := (InitialDeploymentExecution.ClaimToken execution).

(** ** The operation under way *)
Fixpoint under_way (h : ctrace) : option string :=
  match h with
  | [] => None
  | Event c r :: h' =>
      match c as c return control_answer c -> option string with
      | BeginOperation _ _ _ _ op => fun r => match r with Ok true => Some op | _ => None end
      | FinishOperation _ _ _ _ _ _ _ _ => fun _ => None
      | _ => fun _ => under_way h'
      end r
  end.

(** The operation it last asked to begin. *)
Fixpoint last_begun (h : ctrace) : option string :=
  match h with
  | [] => None
  | Event (BeginOperation _ _ _ _ op) _ :: _ => Some op
  | _ :: h' => last_begun h'
  end.
Definition at_work (h : ctrace) (op : string) : Prop := under_way h = Some op /\ last_begun h = Some op.

(** The deployment was read and found authorized for its digest, and so its System. *)
Definition authorized (h : ctrace) (d : InitialDeployment) : Prop :=
  told h (GetInitialDeployment wsx depx) (Ok d) /\ check_authorized d = Ok tt.
Definition approved (h : ctrace) (system : System) : Prop :=
  exists d, authorized h d /\ system = DP.System (InitialDeployment.Plan d).
(** The release of a plan, with its artifact as it was staged. *)
Definition planned_release (plan : InitialDeploymentPlan) (staged : StagedArtifact) : StagedReleaseInput :=
  let release := DP.Release plan in
  StagedReleaseInput.mk staged (InitialDeploymentRelease.Command release) (InitialDeploymentRelease.Environment release)
    (InitialDeploymentRelease.HealthPath release) (InitialDeploymentRelease.PublicPort release).
(** The status of a host that was read last. *)
Fixpoint last_status (h : ctrace) : option (System * (State * option error)) :=
  match h with
  | [] => None
  | Event c r :: h' =>
      match c as c return control_answer c -> option (System * (State * option error)) with
      | ESystemHostStatus system => fun answer => Some (system, answer)
      | _ => fun _ => last_status h'
      end r
  end.
Definition status_read (h : ctrace) (system : System) (P : State -> option error -> Prop) : Prop :=
  exists state err, last_status h = Some (system, (state, err)) /\ P state err.

(** An operation settles: it had succeeded before, or its success was recorded. *)
Definition settled_op (h : ctrace) (op : string) : Prop :=
  told h (BeginOperation IDx worker tokenx depx op) (Ok false) \/
  exists evidence, told h (FinishOperation IDx worker tokenx depx op "succeeded" EmptyString (Some evidence)) (Ok tt).

Definition operation_ids : list string := InitialDeploymentOperation.ID <$> initial_operations.
Fixpoint earlier (op : string) (ids : list string) : list string :=
  match ids with
  | [] => []
  | id :: ids' => if id == op then [] else id :: earlier op ids'
  end.

Definition initial_guard (h : ctrace) (c : control_call) : Prop :=
  match c with
  | PutSystem ws system => ws = wsx /\ at_work h "01-register-system" /\ approved h system
  | EBootstrapSystemHost system _ _ =>
      at_work h "02-bootstrap-host" /\ approved h system /\
      status_read h system (fun state err => err <> None \/ State.Phase state = "destroyed" \/ State.Resources state = [])
  | EExposeSystemHost system =>
      at_work h "02-bootstrap-host" /\ approved h system /\
      status_read h system (fun state err => err = None /\ State.Phase state = "ready")
  | ERecoverSystemHostExposure system =>
      at_work h "02-bootstrap-host" /\ approved h system /\ told h (HasPriorFailed depx IDx) (Ok true) /\
      status_read h system (fun state err => err = None /\ State.Phase state = "escalated")
  | EPublishStagedRelease system input =>
      at_work h "03-publish-release" /\ exists d artifact staged,
        authorized h d /\ system = DP.System (InitialDeployment.Plan d) /\
        told h (GetDeploymentArtifact wsx (DP.ArtifactSHA256 (InitialDeployment.Plan d))) (Ok (artifact, staged)) /\
        told h (EVerifyStagedArtifact staged) (Ok tt) /\ input = planned_release (InitialDeployment.Plan d) staged
  | BeginOperation id w token dep op => id = IDx /\ w = worker /\ token = tokenx /\ dep = depx /\ under_way h = None /\
      op ∈ operation_ids /\ Forall (settled_op h) (earlier op operation_ids)
  | FinishOperation id w token dep op phase failure evidence =>
      id = IDx /\ w = worker /\ token = tokenx /\ dep = depx /\ at_work h op /\ phase ∈ ["succeeded"; "failed"] /\
      (phase = "failed" -> evidence = None)
  | ReopenHost id w token dep =>
      id = IDx /\ w = worker /\ token = tokenx /\ dep = depx /\
      under_way h = None /\ last_begun h = Some "01-register-system" /\ settled_op h "01-register-system" /\
      exists system, approved h system /\ status_read h system (fun state err => err = None /\ State.Phase state = "destroyed")
  | CompleteInitial id w token err =>
      id = IDx /\ w = worker /\ token = tokenx /\ under_way h = None /\ (err = None -> Forall (settled_op h) operation_ids)
  | c => observing c
  end.

Abbreviation wpI p Q h := (wp (fun _ _ _ => True) initial_guard p Q h).
Definition after (h h' : ctrace) : Prop := exists l, h' = l ++ h.

Lemma after_refl h : after h h.
Proof. by exists []. Qed.
Lemma after_cons e h h' : after h h' -> after h (e :: h').
Proof. intros [l ->]. by exists (e :: l). Qed.
Lemma after_uncons e h h' : after (e :: h) h' -> after h h'.
Proof. intros [l ->]. exists (l ++ [e]). by rewrite <- app_assoc. Qed.
Lemma after_trans h1 h2 h3 : after h1 h2 -> after h2 h3 -> after h1 h3.
Proof. intros [l ->] [l' ->]. exists (l' ++ l). by rewrite app_assoc. Qed.
Lemma told_after h h' c r : after h h' -> told h c r -> told h' c r.
Proof. intros [l ->] Ht. apply elem_of_app. by right. Qed.
Lemma approved_after h h' system : after h h' -> approved h system -> approved h' system.
Proof. intros Ha (d & [Ht ?] & ?). exists d. by split; [split; [eapply told_after|]|]. Qed.
Hint Resolve after_refl after_cons : told.

Lemma settled_after h h' op : after h h' -> settled_op h op -> settled_op h' op.
Proof. intros Ha [Ht|[evidence Ht]]; [left|right; exists evidence]; by eapply told_after. Qed.

(** Between its beginning and its end an operation keeps the history going. *)
Definition running (h : ctrace) (op : string) (h' : ctrace) : Prop := after h h' /\ at_work h' op.

Lemma wp_operation {A} op (run : cprog (result (string * A))) Q h :
  under_way h = None -> op ∈ operation_ids -> Forall (settled_op h) (earlier op operation_ids) ->
  (forall h', running h op h' -> wpI run (fun h'' _ => running h' op h'') h') ->
  (forall h' r, after h h' -> under_way h' = None -> last_begun h' = Some op -> (is_ok r = true -> settled_op h' op) -> Q h' r) ->
  wpI (deployment_operation worker execution op run) Q h.
Proof.
  intros Hn Hin He Hrun HQ. unfold deployment_operation, control. apply wp_bind_ok. wp_ask.
  destruct a as [[]|e]; cbn [negb].
  - apply wp_bind. eapply wp_mono; [apply Hrun; split; [auto with told|done]|]. intros h1 [[statement a]|e] [Ha%after_uncons [Hu Hl]]; cbv beta iota.
    + apply wp_bind. wp_ask. apply wp_bind_ok. wp_ask.
      { split_and!; try done. left. }
      destruct a1 as [[]|e]; (apply HQ; [auto with told|done|done|]); [|done].
      intros _. right. eexists. left.
    + apply wp_bind. wp_ask; [by split_and!; try done; right; left|]. apply wp_ret.
      apply HQ; [auto with told|done|done|done].
  - apply wp_ret, HQ; [auto with told|done|done|]. intros _. left. left.
  - apply HQ; [auto with told|done|done|done].
Qed.

(** ** The runs of the operations *)
Ltac run_tac := (split; [auto 10 with told|done]).

Lemma wp_register system allowed h :
  at_work h "01-register-system" -> approved h system ->
  wpI (register_system execution system allowed) (fun h' _ => running h "01-register-system" h') h.
Proof.
  intros Hu Ha. unfold register_system, control. apply wp_bind. wp_ask. destruct a as [existing|e].
  - destruct (same_contract _ _); [run_tac|]. destruct (negb allowed); [run_tac|]. apply wp_bind_ok. wp_ask.
    { split_and!; [done..|]. eapply approved_after; [|exact Ha]. auto with told. }
    destruct a; run_tac.
  - destruct (errors_Is _ _); [|run_tac]. apply wp_bind_ok. wp_ask.
    { split_and!; [done..|]. eapply approved_after; [|exact Ha]. auto with told. }
    destruct a; run_tac.
Qed.

Lemma wp_bootstrap system h :
  at_work h "02-bootstrap-host" -> approved h system ->
  wpI (bootstrap_host node_binary execution system) (fun h' _ => running h "02-bootstrap-host" h') h.
Proof.
  intros Hu Ha. unfold bootstrap_host, control. destruct (_ == EmptyString); [run_tac|]. apply wp_bind. wp_ask.
  destruct a as [state err]. cbv beta iota zeta. set (observed := match err with None => true | Some _ => false end).
  match goal with |- wp _ _ _ _ ?h0 => assert (after h h0) as Hafter by auto with told;
    assert (last_status h0 = Some (system, (state, err))) as Hstatus by done end.
  destruct (observed && _ && host_count system state) eqn:E1.
  - bool_inv. unfold expose_host, control. destruct (systemHostEndpointReady _ _); [run_tac|]. apply wp_bind. wp_ask.
    { split_and!; [done|by eapply approved_after|]. exists state, err. split; [done|]. by destruct err. }
    destruct a; run_tac.
  - destruct (observed && _ && _ && _) eqn:E2.
    + bool_inv. unfold recover_host, control. apply wp_bind. wp_ask. destruct a as [[]|e]; [|run_tac..]. apply wp_bind. wp_ask.
      destruct (negb _); [run_tac|]. apply wp_bind. wp_ask.
      { split_and!; [done|eapply approved_after; [|exact Ha]; auto with told|auto with told|]. exists state, err.
        split; [done|]. by destruct err. }
      destruct a0; run_tac.
    + destruct (observed && (State.Phase state != "destroyed") && _) eqn:E3; [run_tac|]. apply wp_bind_ok. wp_ask. destruct a as [gateway|e]; [|run_tac].
      apply wp_bind_ok. wp_ask.
      { split_and!; [done|eapply approved_after; [|exact Ha]; auto with told|]. exists state, err. split; [done|].
        destruct err as [e|]; [by left|right]. subst observed. cbn [andb] in E3. apply andb_false_iff in E3 as [E3|E3].
        - left. by apply negb_false_iff, bool_decide_eq_true in E3.
        - right. apply Nat.ltb_ge in E3. destruct (State.Resources state); [done|]. cbn in E3. lia. }
      destruct a; run_tac.
Qed.

Lemma wp_publish d artifact staged h :
  at_work h "03-publish-release" -> authorized h d ->
  told h (GetDeploymentArtifact wsx (DP.ArtifactSHA256 (InitialDeployment.Plan d))) (Ok (artifact, staged)) ->
  wpI (publish_release d staged) (fun h' _ => running h "03-publish-release" h') h.
Proof.
  intros Hu [Hd Hc] Hs. unfold publish_release, control. cbv zeta. apply wp_bind_ok. wp_ask. destruct a as [[]|e]; [|run_tac].
  apply wp_bind_ok. wp_ask.
  { split; [done|]. exists d, artifact, staged. split_and!; auto with told. split; auto with told. }
  destruct a; run_tac.
Qed.

Lemma wp_wait fuel system h Q :
  (forall h' r, after h h' -> (forall op, at_work h op -> at_work h' op) -> Q h' r) ->
  wpI (waitPublicEndpoint error_code fuel system) Q h.
Proof.
  revert h. induction fuel as [|fuel IH]; intros h HQ; cbn [waitPublicEndpoint]; [by apply HQ; [auto with told|]|].
  unfold control. apply wp_bind. wp_ask. destruct a as [view [e|]]; [|by apply HQ; [auto with told|]].
  destruct (negb _); [by apply HQ; [auto with told|]|]. apply wp_bind. wp_ask.
  destruct a as [e'| |]; [by apply HQ; [auto with told|]| |];
    (apply IH; intros h' r Ha Hu; apply HQ; [by apply after_uncons, after_uncons in Ha|done]).
Qed.

Lemma wp_wait_healthy system op h : at_work h op -> wpI (wait_healthy error_code wait_fuel system) (fun h' _ => running h op h') h.
Proof.
  intros Hu. unfold wait_healthy. apply wp_bind_ok, wp_wait. intros h' [view|e] Ha Hu'; (split; auto).
Qed.

Lemma wp_verify d version op h :
  at_work h op -> wpI (verify_public d version) (fun h' _ => running h op h') h.
Proof. intros Hu. unfold verify_public, control. apply wp_bind_ok. wp_ask. destruct a; run_tac. Qed.

(** ** Reading, and the execution *)
Lemma wp_replacement name exclude existing indexes source h Q :
  under_way h = None -> (forall h' r, after h h' -> under_way h' = None -> Q h' r) ->
  wpI (replacement_source wsx name exclude existing indexes source) Q h.
Proof.
  intros Hu. revert source h Hu. induction indexes as [|index rest IH]; intros source h Hu HQ; cbn [replacement_source];
    [apply wp_ret; auto with told|].
  destruct (_ || _); [by apply IH|]. destruct (_ != _); [apply wp_ret; auto with told|]. unfold control. apply wp_bind_ok. wp_ask.
  destruct a as [d|e]; [|apply HQ; auto with told]. destruct (negb _); [apply HQ; auto with told|].
  destruct (negb _); [apply HQ; auto with told|]. apply IH; [done|]. intros h' r Ha%after_uncons. by apply HQ.
Qed.

Lemma wp_registered d h Q :
  under_way h = None -> (forall h' r, after h h' -> under_way h' = None -> Q h' r) -> wpI (check_registered execution d) Q h.
Proof.
  intros Hu HQ. unfold check_registered, control. apply wp_bind. wp_ask.
  destruct a as [existing|e]; [|destruct (errors_Is _ _); apply HQ; auto with told].
  destruct (same_contract _ _); [apply HQ; auto with told|]. unfold failedUnsupportedClassReplacementSource, control.
  apply wp_bind_ok, wp_bind_ok. wp_ask. destruct a as [indexes|e]; [|apply HQ; auto with told].
  apply wp_replacement; [done|]. intros h' [source|e] Ha%after_uncons%after_uncons Hu'; [|by apply HQ].
  destruct (_ && _); by apply HQ.
Qed.

Lemma wp_reopen system h Q :
  under_way h = None -> last_begun h = Some "01-register-system" -> settled_op h "01-register-system" -> approved h system ->
  (forall h' r, after h h' -> under_way h' = None -> Q h' r) -> wpI (reopen_host worker execution system) Q h.
Proof.
  intros Hu Hl Hs Ha HQ. unfold reopen_host, control. apply wp_bind. wp_ask. destruct a as [state [e|]]; [apply HQ; auto with told|].
  destruct (_ == "destroyed") eqn:Hd; [|apply HQ; auto with told]. apply wp_bind. wp_ask.
  { split_and!; [done..|eapply settled_after; [|exact Hs]; auto with told|].
    exists system. split; [eapply approved_after; [|exact Ha]; auto with told|].
    exists state, None. split; [done|]. by apply bool_decide_eq_true in Hd. }
  apply wp_ret, HQ; auto with told.
Qed.

(** The operations in their order; whatever stops one ends the execution with nothing under way. *)
Definition short_digest (h : ctrace) : Prop :=
  exists key artifact staged, told h (GetDeploymentArtifact wsx key) (Ok (artifact, staged)) /\ slen (StagedArtifact.SHA256 staged) < 12.
Definition all_ended (h : ctrace) (r : result (option unit)) : Prop :=
  under_way h = None /\
  match r with Ok (Some _) => Forall (settled_op h) operation_ids | Ok None => short_digest h | Err _ => True end.

Lemma wp_next {A} op (run : cprog (result (string * A))) (k : option A -> cprog (result (option unit))) h :
  under_way h = None -> op ∈ operation_ids -> Forall (settled_op h) (earlier op operation_ids) ->
  (forall h', running h op h' -> wpI run (fun h'' _ => running h' op h'') h') ->
  (forall h' a, after h h' -> under_way h' = None -> last_begun h' = Some op -> Forall (settled_op h') (earlier op operation_ids ++ [op]) -> wpI (k a) all_ended h') ->
  wpI (bind_ok (deployment_operation worker execution op run) k) all_ended h.
Proof.
  intros Hu Hin He Hrun Hk. apply wp_bind_ok, wp_operation; [done..|]. intros h' [a|e] Ha Hu' Hl Hs; [|by split].
  apply Hk; [done..|]. apply Forall_app. split; [|constructor; [by apply Hs|constructor]].
  eapply Forall_impl; [exact He|]. intros op'. by apply settled_after.
Qed.

Lemma wp_execute h : under_way h = None -> wpI (execute error_code worker node_binary wait_fuel execution) all_ended h.
Proof.
  intros Hu. unfold execute, control. apply wp_bind_ok. wp_ask. destruct a as [[]|e]; [|by split].
  apply wp_bind_ok. wp_ask. destruct a as [d|e]; [|by split]. apply wp_bind_ok. cbn [lift wp].
  destruct (check_authorized d) as [[]|e] eqn:Hc; [|by split]. cbv zeta. apply wp_bind_ok. wp_ask.
  destruct a as [[artifact staged]|e]; [|by split]. apply wp_bind_ok. wp_ask. destruct a as [workspace|e]; [|by split].
  apply wp_bind_ok.
  match goal with |- wp _ _ _ _ ?h0 => assert (approved h0 (DP.System (InitialDeployment.Plan d))) as Happ;
    [exists d; split; [split; [auto 8 with told|done]|done]|];
    assert (authorized h0 d) as Hread by (split; [auto 8 with told|done]);
    assert (told h0 (GetDeploymentArtifact wsx (DP.ArtifactSHA256 (InitialDeployment.Plan d))) (Ok (artifact, staged))) as Hart
      by auto 8 with told; assert (under_way h0 = None) as Hu0 by exact Hu; revert Happ Hread Hart Hu0; generalize h0 end.
  clear h Hu. intros h Happ Hread Hart Hu. apply wp_registered; [done|].
  intros h1 [[matches allowed]|e] Ha1 Hu1; [|by split]. apply wp_bind_ok. cbn [lift wp]. destruct (reject_if _ _) as [[]|e]; [|by split].
  apply wp_next; [done|by left|by constructor|..].
  { intros h2 [Ha2 Hu2]. apply wp_register; [done|]. eapply approved_after; [|exact Happ]. by eapply after_trans. }
  intros h2 _ Ha2 Hu2 Hl2 Hs2. apply wp_bind_ok, wp_reopen; [done|done|by apply Forall_inv in Hs2|eapply approved_after; [|exact Happ]; by eapply after_trans|].
  intros h3 [[]|e] Ha3 Hu3; [|by split]. assert (after h h3) as Ha by eauto using after_trans.
  apply wp_next; [done|right; by left|eapply Forall_impl; [exact Hs2|]; intros op; by apply settled_after|..].
  { intros h4 [Ha4 Hu4]. apply wp_bootstrap; [done|]. eapply approved_after; [|exact Happ]. by eapply after_trans. }
  intros h4 _ Ha4 Hu4 Hl4 Hs4. destruct (_ <? 12) eqn:Hshort.
  { split; [done|]. exists (DP.ArtifactSHA256 (InitialDeployment.Plan d)), artifact, staged. split; [|by apply Z.ltb_lt].
    eapply told_after; [|exact Hart]. by eapply after_trans. }
  assert (after h h4) as Ha' by eauto using after_trans.
  apply wp_next; [done|do 2 right; by left|done|..].
  { intros h5 [Ha5 Hu5]. assert (after h h5) as Ha'' by eauto using after_trans.
    apply (wp_publish d artifact); [done|destruct Hread; by split; [eapply told_after|]|by eapply told_after]. }
  intros h5 published Ha5 Hu5 Hl5 Hs5. apply wp_next; [done|do 3 right; by left|done|..].
  { intros h6 [Ha6 Hu6]. by apply wp_wait_healthy. }
  intros h6 _ Ha6 Hu6 Hl6 Hs6. apply wp_next; [done|do 4 right; by left|done|..].
  { intros h7 [Ha7 Hu7]. by apply wp_verify. }
  intros h7 _ Ha7 Hu7 Hl7 Hs7. by split.
Qed.

Definition completed (h : ctrace) : Prop := exists err r rest,
  h = Event (R := control_answer) (CompleteInitial IDx worker tokenx err) r :: rest.
Lemma wp_initial_runOne h : under_way h = None ->
  wpI (InitialDispatcher_runOne error_code worker node_binary wait_fuel execution) (fun h' _ => completed h' \/ short_digest h') h.
Proof.
  intros Hu. unfold InitialDispatcher_runOne, control. eapply wp_bind_mono; [by apply wp_execute|]. intros h' [[[]|]|e] [Hu' Hs].
  - apply wp_bind. wp_ask. wp_ask; [|left; by eexists _, _, _]. split_and!; [done..|]. intros _.
    eapply Forall_impl; [exact Hs|]. intros op. apply settled_after. auto with told.
  - by right.
  - apply wp_bind. wp_ask. wp_ask. left. by eexists _, _, _.
Qed.
End Safety.
