(* ===== verification/ChangeSafety.v ===== *)
(** * Every mutation of an applied Change is authorized and fenced

    [change_guard] says which calls an applied Change may make: it never talks
    to the provider, writes its own document without changing what was
    authorized, and sets the desired release only to what its plan allows and
    only right after asserting the execution lease. *)

From S2P Require Import Prelude Effects GoStrings Documents Json SandboxSpec Calls Systems Creation Releases Changes.
From S2P Require Import ChangeRun Readers.

Section ChangeSafety.
Context `{Unicode}.

(** ** What was authorized *)
Definition contract (c : Change) :=
  (Change.ID c, Change.System c, Change.Digest c, Change.Plan_ c, Change.Authorization_ c,
   authorizedOperation <$> Change.Operations c).

(** The last things that happened: the guard was read without error, the lease
    under its key still had the same fencing token, and it had not expired. *)
Definition lease_asserted (h : trace) : Prop :=
  exists g cur etag t rest,
    h = Event (R := answer) Now t ::
        Event (R := answer) (M1GetJSONVersion KLease (changeLeaseGuard.key g)) (Ok (Some (cur, etag))) ::
        Event (R := answer) ReadGuard g :: rest /\
    changeLeaseGuard.err g = None /\
    ChangeLease.FencingToken cur = ChangeLease.FencingToken (changeLeaseGuard.lease g) /\
    t < ChangeLease.ExpiresAt cur.

(** At most one read after the assertion. *)
Definition just_asserted (h : trace) : Prop :=
  lease_asserted h \/
  exists k key r h', h = Event (R := answer) (M1Get k key) r :: h' /\ lease_asserted h'.

(** The releases a plan may make desired: the approved one, the one that
    restores the scale, or the stored base release. *)
Definition desired_allowed (s : System) (plan : ChangePlan) (h : trace) (v : ReleaseManifest) : Prop :=
  v = ChangePlan.Release plan \/
  (exists scale, ChangePlan.Scale plan = Some scale /\ v = restored_release plan scale) \/
  Event (R := answer) (M1Get KManifest (releaseKey s (ChangePlan.BaseVersion plan))) (Ok v) ∈ h.

(** The runtime action carries exactly the approved migration. *)
Definition action_allowed (s : System) (c : Change) (v : RuntimeAction) : Prop :=
  exists m, ChangePlan.Migration_ (Change.Plan_ c) = Some m /\
    RuntimeAction.Parameters v =
      <["migrationId" := Migration.ID m]> (<["digest" := Migration.Digest m]> (<["sql" := Migration.SQL m]> ∅)) /\
    RuntimeAction.Service v = Migration.Service m /\ RuntimeAction.LeaseKey v = changeLeaseKey s /\
    HasPrefix (RuntimeAction.ID v) (Change.ID c +:+ "-") = true.

Definition change_guard (s : System) (c : Change) (h : trace) (call : sdk_call) : Prop :=
  match call with
  | M1PutJSON KManifest key v => key = desiredKey s /\ just_asserted h /\ desired_allowed s (Change.Plan_ c) h v
  | M1PutJSON KChange key v => key = changeKey s (Change.ID c) /\ contract v = contract c
  | M1PutJSON KAction key v => key = runtimeActionRequestKey s /\ action_allowed s c v
  | M1PutJSONIfAbsent k _ _ | M1PutJSONIfMatch k _ _ _ => k = KLease
  | WriteGuard _ => True
  | call => reading h call
  end.

Context (s : System) (c : Change).
Notation G := (change_guard s c).
Notation wpG p Q h := (wp (fun _ _ _ => True) G p Q h).
Notation same x := (contract x = contract c).

Lemma safe_reading {A} (p : sdk A) : safe reading p -> safe G p.
Proof. apply safe_mono. intros h [] Hr; by try destruct k. Qed.

Lemma same_plan x : same x -> Change.Plan_ x = Change.Plan_ c.
Proof. unfold contract. by intros [=]. Qed.
Lemma same_ID x : same x -> Change.ID x = Change.ID c.
Proof. unfold contract. by intros [=]. Qed.

(** ** The lease *)
Lemma safe_asked call : (forall h, G h call) -> safe (R := answer) G (Effects.call call).
Proof. apply safe_call. Qed.

Definition acquired (r : result changeLeaseGuard) : Prop :=
  match r with Ok g => changeLeaseGuard.key g = changeLeaseKey s | Err _ => True end.

Lemma post_acquire n id : safe_post G acquired (acquire_lease n s id).
Proof.
  induction n as [|n IH]; cbn [acquire_lease]; [by apply safe_post_ret|]. cbv zeta.
  apply safe_post_any; [apply safe_reading; auto with safe|intros [read|e]; [|by apply safe_post_ret]].
  do 3 (apply safe_post_any; [apply safe_reading; auto with safe|intros ?]).
  assert (forall lease (w : result (string * bool)), safe_post G acquired
    (match w with
     | Ok (etag, true) =>
         let guard := changeLeaseGuard.mk (changeLeaseKey s) lease etag None in _ ← WriteLeaseGuard guard; Ret (Ok guard)
     | Ok (_, false) => acquire_lease n s id
     | Err e => Ret (Err e)
     end)) as Hnext.
  { intros lease [[etag []]|e]; [|done|by apply safe_post_ret]. cbv zeta.
    apply safe_post_any; [by apply safe_asked|intros u; by apply safe_post_ret]. }
  destruct read as [[prior etag]|].
  - destruct (_ <=? _); [|by apply safe_post_ret]. apply safe_post_any; [by apply safe_asked|apply Hnext].
  - apply safe_post_any; [by apply safe_asked|apply Hnext].
Qed.

Lemma safe_Close : safe G Close.
Proof.
  unfold Close. do 2 (apply safe_bind; [apply safe_reading; auto with safe|intros ?]).
  apply safe_bind; [by apply safe_asked|intros w]. by apply safe_asked.
Qed.

Lemma wp_Assert {A} (k : result unit -> sdk A) Q h :
  (forall h', lease_asserted h' -> wpG (k (Ok tt)) Q h') -> (forall h' e, wpG (k (Err e)) Q h') ->
  wpG (Assert ≫= k) Q h.
Proof.
  intros Hok Herr. apply wp_bind. unfold Assert. apply wp_bind. unfold ReadLeaseGuard. wp_ask.
  rename a into g. destruct (changeLeaseGuard.err g) as [e|] eqn:Eg; [apply Herr|].
  apply wp_bind_ok. unfold GetJSONVersion. wp_ask. destruct a as [[[cur etag]|]|e]; [|apply Herr..].
  destruct (_ != _) eqn:Et; [apply Herr|]. bool_inv. apply wp_bind. unfold now. wp_ask. simpl.
  destruct (ChangeLease.ExpiresAt cur <=? a) eqn:El; [apply Herr|]. apply Hok. bool_inv.
  exists g, cur, etag, a, h. by split_and!.
Qed.
(** A desired release written right after the assertion. *)
Lemma wp_set_desired {A} v (k : result unit -> sdk A) h :
  just_asserted h -> desired_allowed s (Change.Plan_ c) h v -> (forall r, safe G (k r)) ->
  wpG (PutJSON KManifest (desiredKey s) v ≫= k) (fun _ _ => True) h.
Proof. intros Ha Hd Hk. simpl. split; [done|]. intros r _. apply safe_wp, Hk. Qed.

Lemma safe_bind_reading {A B} (p : sdk A) (f : A -> sdk B) :
  safe reading p -> (forall a, safe G (f a)) -> safe G (p ≫= f).
Proof. intros Hp. apply safe_bind. by apply safe_reading. Qed.

(** ** One operation *)
Lemma safe_run_release x : same x -> safe G (run_release s (Change.Plan_ x)).
Proof.
  intros Hx h. unfold run_release, bind_ok at 1. apply wp_Assert; [|done]. intros h' Ha.
  unfold bind_ok. apply wp_set_desired; [by left|left; by rewrite (same_plan x)|]. intros [u|e]; apply safe_ret.
Qed.

Lemma safe_run_scale x : same x -> safe G (run_scale s (Change.Plan_ x)).
Proof.
  intros Hx. unfold run_scale. cbv zeta. destruct (ChangePlan.Scale _) as [scale|]; [|apply safe_ret].
  destruct (_ != _); [apply safe_ret|]. apply safe_bind_reading; [safe_tac|]. intros []; [apply safe_ret|].
  intros h. unfold bind_ok at 1. apply wp_Assert; [|done]. intros h' Ha.
  unfold bind_ok. apply wp_set_desired; [by left|left; by rewrite (same_plan x)|]. intros [u|e]; apply safe_ret.
Qed.

Lemma safe_run_migration fuel x o g :
  same x -> changeLeaseGuard.key g = changeLeaseKey s -> safe G (run_migration fuel s x o g).
Proof.
  intros Hx Hg. unfold run_migration. rewrite (same_plan x) by done.
  destruct (ChangePlan.Migration_ _) as [m|] eqn:Em; [|apply safe_ret].
  do 2 (apply safe_bind_reading; [auto with safe|intros ?]). cbv zeta.
  apply safe_bind_ok.
  - apply safe_asked. intros h. split; [done|]. exists m. split_and!; try done.
    rewrite <- (same_ID x) by done. cbn [RuntimeAction.ID]. apply HasPrefix_spec.
    eexists. by rewrite <- append_assoc.
  - intros u. apply safe_bind_ok; [apply safe_reading; auto with safe|]. intros r. apply safe_ret.
Qed.

Lemma safe_execute fuel x o g :
  same x -> changeLeaseGuard.key g = changeLeaseKey s -> safe G (executeChangeOperation fuel s x o g).
Proof.
  intros Hx Hg. unfold executeChangeOperation. cbv zeta.
  destruct (_ == "state.assert"); [apply safe_reading; auto with safe|].
  destruct (_ == "database.expand-migration"); [by apply safe_run_migration|].
  destruct (_ == "release.set-desired"); [by apply safe_run_release|].
  destruct (_ == "release.scale"); [by apply safe_run_scale|].
  apply safe_reading. safe_tac.
Qed.

(** ** Saving keeps the contract *)
Definition kept {B} (r : Change * B) : Prop := same r.1.

Lemma post_save x : same x -> safe_post G kept (saveChange s x).
Proof.
  intros Hx. unfold saveChange. apply safe_post_any; [apply safe_reading; auto with safe|]. intros t. cbv zeta.
  apply safe_post_any; [|intros r; by apply safe_post_ret].
  apply safe_asked. intros h. split; [by rewrite <- (same_ID x)|exact Hx].
Qed.

Lemma post_end_change phase x : same x -> safe_post G kept (end_change s phase x).
Proof.
  intros Hx. unfold end_change. apply safe_post_any; [apply safe_reading; auto with safe|]. intros t.
  eapply safe_post_bind; [by apply post_save|]. intros [y r] Hy. by apply safe_post_ret.
Qed.

Lemma post_escalateChange x e : same x -> safe_post G kept (escalateChange s x e).
Proof.
  intros Hx. unfold escalateChange. eapply safe_post_bind; [by apply post_save|].
  intros [y r] Hy. by apply safe_post_ret.
Qed.

(** ** Compensation *)
Lemma post_or_escalate {A} x (p : sdk (result A)) k :
  same x -> safe G p -> (forall a, safe_post G kept (k a)) -> safe_post G kept (or_escalate s x p k).
Proof. intros Hx Hp Hk. apply safe_post_any; [done|]. intros [a|e]; [done|by apply post_escalateChange]. Qed.

Lemma wp_desired_or_escalate x v k h :
  same x -> just_asserted h -> desired_allowed s (Change.Plan_ c) h v -> (forall u, safe_post G kept (k u)) ->
  wpG (or_escalate s x (PutJSON KManifest (desiredKey s) v) k) (fun _ => kept) h.
Proof.
  intros Hx Ha Hd Hk. unfold or_escalate. simpl. split; [done|]. intros [u|e] _; [apply Hk|by apply post_escalateChange].
Qed.

Lemma post_evidence op kind st x : same x -> safe_post G kept (t ← now; Ret (add_evidence op kind st t x, None : option error)).
Proof. intros Hx. apply safe_post_any; [apply safe_reading; auto with safe|]. intros t. by apply safe_post_ret. Qed.

Lemma post_restore_scale fuel x : same x -> safe_post G kept (restore_scale fuel s x).
Proof.
  intros Hx. unfold restore_scale. destruct (ChangePlan.Scale _) as [scale|] eqn:Es; [|by apply safe_post_ret].
  destruct (operationReached _ _); [|by apply safe_post_ret].
  intros h. apply wp_Assert; [|intros h' e; by apply post_escalateChange]. intros h' Ha. cbv zeta.
  apply wp_desired_or_escalate; [done|by left| |].
  - right; left. exists scale. by rewrite <- (same_plan x).
  - intros u. apply post_or_escalate; [done|apply safe_reading; auto with safe|]. intros r. by apply post_evidence.
Qed.

Lemma post_restore_release fuel x : same x -> safe_post G kept (restore_release fuel s x).
Proof.
  intros Hx. unfold restore_release. destruct (operationReached _ _); [|by apply safe_post_ret].
  intros h. apply wp_Assert; [|intros h' e; by apply post_escalateChange]. intros h' Ha.
  unfold or_escalate at 1. apply wp_bind. unfold Get. wp_ask.
  destruct a as [base|e]; [|by apply post_escalateChange].
  apply wp_desired_or_escalate; [done| | |].
  - right. do 4 eexists. split; [reflexivity|done].
  - right; right. rewrite <- (same_plan x) by done. apply list_elem_of_here.
  - intros u. apply post_or_escalate; [done|apply safe_reading; auto with safe|]. intros r. by apply post_evidence.
Qed.

Lemma same_note x : same x -> same (note_residual x).
Proof. intros Hx. unfold note_residual. destruct (ChangePlan.Migration_ _); [|done]. by destruct (operationCompleted _ _). Qed.

Lemma post_compensate fuel x : same x -> safe_post G kept (compensateChange fuel s x).
Proof.
  intros Hx. unfold compensateChange. destruct (untouched _); [by apply post_end_change|].
  eapply safe_post_bind; [by apply post_save|]. intros [y r] Hy. cbv zeta.
  eapply safe_post_bind; [apply post_restore_scale, same_note, Hy|]. intros [z [e|]] Hz; [by apply safe_post_ret|].
  eapply safe_post_bind; [by apply post_restore_release|]. intros [w [e|]] Hw; [by apply safe_post_ret|].
  by apply post_end_change.
Qed.

(** ** The loop over the operations *)
Lemma same_operation x i f :
  same x -> (forall o, authorizedOperation (f o) = authorizedOperation o) -> same (set_operation i f x).
Proof.
  intros Hx Hf. rewrite <- Hx. unfold contract, set_operation. simpl. f_equal.
  apply list_eq. intros j. rewrite !list_lookup_fmap, list_lookup_alter.
  case_decide as E; [subst|done]. destruct (Change.Operations x !! j); simpl; [|done]. by rewrite Hf.
Qed.

Lemma post_abandon fuel i o e x : same x -> safe_post G kept (abandon fuel s i o e x).
Proof.
  intros Hx. unfold abandon. eapply safe_post_bind; [apply post_save; by apply (same_operation x)|].
  intros [y r] Hy. eapply safe_post_bind; [by apply post_compensate|]. intros [z r'] Hz. by apply safe_post_ret.
Qed.

Lemma post_commit x : same x -> safe_post G kept (commit s x).
Proof.
  intros Hx. unfold commit. apply safe_post_any; [apply safe_reading; auto with safe|]. intros t.
  eapply safe_post_bind; [by apply post_save|]. intros [y r] Hy. by apply safe_post_ret.
Qed.

Lemma post_apply_operations fuel g l x :
  changeLeaseGuard.key g = changeLeaseKey s -> same x -> safe_post G kept (apply_operations fuel s g l x).
Proof.
  intros Hg. revert x. induction l as [|i l IH]; intros x Hx; cbn [apply_operations]; [by apply post_commit|].
  unfold apply_operation. destruct (Change.Operations x !! i) as [o|]; [|by apply safe_post_ret].
  destruct (_ == "completed"); [by apply IH|].
  apply safe_post_any; [apply safe_reading; auto with safe|]. intros [u|e]; [|by apply safe_post_ret].
  apply safe_post_any; [apply safe_reading; auto with safe|]. intros t.
  eapply safe_post_bind; [apply post_save; by apply (same_operation (Change.with_Phase _ x))|].
  intros [y [u'|e]] Hy; [|by apply safe_post_ret].
  apply safe_post_any; [by apply safe_execute|]. intros [statement|e]; [|by apply post_abandon].
  apply safe_post_any; [apply safe_reading; auto with safe|]. intros t'.
  eapply safe_post_bind; [apply post_save; unfold complete_operation; by apply (same_operation y)|].
  intros [z [u''|e]] Hz; [by apply IH|by apply safe_post_ret].
Qed.

(** What follows the checks of [ApplyChange]. *)
Lemma safe_apply_under_lease fuel id :
  safe G (acquired ← acquireChangeLease s id;
          match acquired with
          | Err e => Ret (Some c, Some e)
          | Ok lease =>
              '(change, err) ← (if Change.Phase c == "compensating" then compensateChange fuel s c
                                else apply_operations fuel s lease (seq 0 (length (Change.Operations c))) c);
              _ ← Close;
              Ret (Some change, err)
          end).
Proof.
  intros h. eapply wp_bind_mono; [apply post_acquire|]. intros h' [g|e] Hg; [|done]. apply safe_wp.
  eapply safe_bind; [|intros [y err]; apply safe_bind; [apply safe_Close|intros u; apply safe_ret]].
  destruct (_ == "compensating"); eapply safe_post_safe; [by apply post_compensate|by apply post_apply_operations].
Qed.

End ChangeSafety.
