(* ===== verification/ChangeOutcome.v ===== *)
(** * How a Change ends, and what its compensation restores

    The lemmas behind the theorems on the outcome of [ApplyChange] and of
    [compensateChange]: what a successful end says of the operations, and which
    release is desired when a change has been reverted. *)

From S2P Require Import Prelude Effects GoStrings Documents SandboxSpec Calls Systems Creation Releases Changes.
From S2P Require Import ChangeRun Readers.

Section ChangeOutcome.
Context `{Unicode}.

(** ** How a change ends *)
Definition completed (o : ChangeOperation) : Prop := ChangeOperation.Phase o = "completed".
Notation wpA p Q h := (wp (fun _ _ _ => True) (fun _ _ => True) p Q h).

Definition done_well (r : ChangeRun.applied) : Prop :=
  r.2 = None -> Change.Phase r.1 = "committed" /\ Forall completed (Change.Operations r.1).

(** Nothing is asked of the calls. *)
Definition post {A} (P : A -> Prop) (p : sdk A) : Prop := safe_post (fun _ _ => True) P p.
Lemma post_any {A} (p : sdk A) : post (fun _ => True) p.
Proof. intros h. induction p as [a|c k IH] in h |- *; simpl; auto. Qed.
Lemma post_bind {A B} (P : A -> Prop) (Q : B -> Prop) (p : sdk A) f :
  post P p -> (forall a, P a -> post Q (f a)) -> post Q (p ≫= f).
Proof. apply safe_post_bind. Qed.
Lemma post_after {A B} (Q : B -> Prop) (p : sdk A) f : (forall a, post Q (f a)) -> post Q (p ≫= f).
Proof. intros Hf. eapply post_bind; [apply post_any|auto]. Qed.
Lemma post_ret {A} (P : A -> Prop) a : P a -> post P (Ret a).
Proof. apply safe_post_ret. Qed.

Lemma post_saved {B} (Q : B -> Prop) s x f :
  (forall t r, post Q (f (Change.with_UpdatedAt t x, r))) -> post Q (saveChange s x ≫= f).
Proof.
  intros Hf. eapply (post_bind (fun r => exists t, r.1 = Change.with_UpdatedAt t x)).
  - unfold saveChange. apply post_after. intros t. apply post_after. intros r. apply post_ret. by exists t.
  - intros [y r] [t E]. simpl in E. subst y. apply Hf.
Qed.

(** Before operation [n] is applied, the operations before it are completed. *)
Definition completed_before (n : nat) (x : Change) : Prop :=
  forall i o, (i < n)%nat -> Change.Operations x !! i = Some o -> completed o.

Lemma completed_set n f x :
  completed_before n x -> (forall o, completed (f o)) -> completed_before (S n) (set_operation n f x).
Proof.
  intros Hx Hf i o Hi. simpl. rewrite list_lookup_alter. case_decide as E.
  - intros Ho. apply fmap_Some in Ho as (o' & _ & ->). apply Hf.
  - apply Hx. lia.
Qed.

Lemma completed_start n o t x :
  completed_before n x -> completed_before n (start_operation n o t x).
Proof.
  intros Hx i o' Hi. unfold start_operation. simpl. rewrite list_lookup_alter_ne by lia. by apply Hx.
Qed.

Lemma set_operation_length n f x : length (Change.Operations (set_operation n f x)) = length (Change.Operations x).
Proof. apply length_alter. Qed.

Lemma apply_operations_done fuel s g n m x :
  length (Change.Operations x) = (n + m)%nat -> completed_before n x ->
  post done_well (apply_operations fuel s g (seq n m) x).
Proof.
  revert n x. induction m as [|m IH]; intros n x Hlen Hx; cbn [seq apply_operations].
  - unfold commit. apply post_after. intros t. apply post_saved. intros t' r. apply post_ret. intros _. split; [done|]. simpl. apply Forall_lookup. intros i o Hi.
    eapply Hx; [|exact Hi]. apply lookup_lt_Some in Hi. lia.
  - unfold apply_operation. destruct (Change.Operations x !! n) as [o|] eqn:Eo; [|by apply post_ret].
    destruct (_ == "completed") eqn:Ec.
    { apply IH; [lia|]. intros i o' Hi Ho'. destruct (decide (i = n)) as [->|Hne]; [|eapply Hx; [|exact Ho']; lia].
      bool_inv. by simplify_eq. }
    apply post_after. intros [u|e]; [|by apply post_ret]. apply post_after. intros t.
    apply post_saved. intros t' [u'|e]; [|by apply post_ret].
    apply post_after. intros [statement|e].
    + apply post_after. intros t2. apply post_saved. intros t3 [u2|e]; [|by apply post_ret]. apply IH.
      * cbn [Change.Operations Change.with_UpdatedAt complete_operation add_evidence Change.with_Evidence].
        unfold start_operation. rewrite !set_operation_length. simpl. rewrite length_alter. lia.
      * unfold complete_operation, add_evidence.
        refine (completed_set n _ (Change.with_UpdatedAt t' (start_operation n o t x)) _ _); [|done].
        by apply completed_start.
    + unfold abandon. apply post_after. intros [z r]. apply post_after. intros [w [ce|]]; by apply post_ret.
Qed.

(** ** What compensation restores *)
(** The desired release a call writes. *)
Definition desired_call (s : System) (call : sdk_call) : option ReleaseManifest :=
  match call with
  | M1PutJSON k key v =>
      match k as k return doc k -> option ReleaseManifest with
      | KManifest => fun v => if key == desiredKey s then Some v else None
      | _ => fun _ => None
      end v
  | _ => None
  end.
Definition quiet (s : System) (call : sdk_call) : Prop := desired_call s call = None.

(** A call that leaves production alone: it reads, or writes a change or its lease. *)
Definition aside (call : sdk_call) : Prop :=
  match call with
  | M1PutJSON KChange _ _ | M1PutJSONIfAbsent KLease _ _ | M1PutJSONIfMatch KLease _ _ _ | WriteGuard _ => True
  | call => reading [] call
  end.
Definition all_calls (P : sdk_call -> Prop) (l : trace) : Prop := Forall (fun e => P (ev_call e)) l.

Lemma aside_quiet s call : aside call -> quiet s call.
Proof. destruct call; try done. by destruct k. Qed.
Lemma reading_aside h call : reading h call -> aside call.
Proof. by destruct call. Qed.
Lemma all_calls_mono (P Q : sdk_call -> Prop) l : (forall c, P c -> Q c) -> all_calls P l -> all_calls Q l.
Proof. intros HPQ Hl. eapply Forall_impl; [exact Hl|]. auto. Qed.

Abbreviation safe_aside p := (safe (fun _ c => aside c) p) (only parsing).
Lemma safe_aside_reading {A} (p : sdk A) : safe reading p -> safe_aside p.
Proof. apply safe_mono. apply reading_aside. Qed.
Lemma aside_call c : aside c -> safe (R := answer) (fun _ c => aside c) (Effects.call c).
Proof. intros Hc. by apply safe_call. Qed.

Lemma aside_save s x : safe_aside (saveChange s x).
Proof.
  unfold saveChange. apply safe_bind; [apply safe_aside_reading, reading_now|]. intros t.
  apply safe_bind; [by apply aside_call|intros r; apply safe_ret].
Qed.
Lemma aside_acquire s id : safe_aside (acquireChangeLease s id).
Proof.
  unfold acquireChangeLease. generalize 5%nat. intros n. induction n as [|n IH]; cbn [acquire_lease]; [apply safe_ret|]. cbv zeta.
  apply safe_bind; [apply safe_aside_reading; auto with safe|intros [read|e]; [|apply safe_ret]].
  do 3 (apply safe_bind; [apply safe_aside_reading; auto with safe|intros ?]).
  assert (forall lease (w : result (string * bool)), safe_aside
    (match w with
     | Ok (etag, true) =>
         let guard := changeLeaseGuard.mk (changeLeaseKey s) lease etag None in _ ← WriteLeaseGuard guard; Ret (Ok guard)
     | Ok (_, false) => acquire_lease n s id
     | Err e => Ret (Err e)
     end)) as Hnext.
  { intros lease [[etag []]|e]; [|done|apply safe_ret]. cbv zeta. apply safe_bind; [by apply aside_call|intros u; apply safe_ret]. }
  destruct read as [[prior etag]|].
  - destruct (_ <=? _); [|apply safe_ret]. apply safe_bind; [by apply aside_call|apply Hnext].
  - apply safe_bind; [by apply aside_call|apply Hnext].
Qed.
Lemma aside_Close : safe_aside Close.
Proof.
  unfold Close. do 2 (apply safe_bind; [apply safe_aside_reading; auto with safe|intros ?]).
  apply safe_bind; [by apply aside_call|intros w]. by apply aside_call.
Qed.

Lemma wp_aside {A} (p : sdk A) h :
  safe_aside p -> wpA p (fun h' _ => exists l, h' = l ++ h /\ all_calls aside l) h.
Proof. intros Hp. eapply wp_guard; [|by apply (wp_only _ aside)]. done. Qed.

(** [v] is the last desired release written, and since then the node was seen
    as [ok] asks for. *)
Definition settled (s : System) (v : ReleaseManifest) (ok : ObservedRelease -> bool) (h : trace) : Prop :=
  exists since before o, h = since ++ Event (M1PutJSON KManifest (desiredKey s) v) (Ok tt) :: before /\
    all_calls (quiet s) since /\ Event (R := answer) (M1Get KObserved (observedKey s)) (Ok o) ∈ since /\ ok o = true.
Lemma settled_later s v ok h l : all_calls (quiet s) l -> settled s v ok h -> settled s v ok (l ++ h).
Proof.
  intros Hl (since & before & o & -> & Hq & Hin & Hok). exists (l ++ since), before, o. rewrite <- app_assoc.
  split_and!; [done| |apply elem_of_app; by right|done]. by apply Forall_app.
Qed.

Definition restored_base (s : System) (version : string) (h : trace) : Prop :=
  exists base, Event (R := answer) (M1Get KManifest (releaseKey s version)) (Ok base) ∈ h /\
    settled s base (healthy_version (ReleaseManifest.Version base)) h.
Definition restored_scale (s : System) (plan : ChangePlan) (h : trace) : Prop :=
  exists scale, ChangePlan.Scale plan = Some scale /\
    settled s (restored_release plan scale)
      (replicas_ready (ReleaseManifest.Version (ChangePlan.Release plan)) (ReplicaScalePlan.FromReplicas scale)) h.

Lemma restored_base_later s version h l : all_calls (quiet s) l -> restored_base s version h -> restored_base s version (l ++ h).
Proof. intros Hl (base & Hin & Hs). exists base. split; [apply elem_of_app; by right|by apply settled_later]. Qed.
Lemma restored_scale_later s plan h l : all_calls (quiet s) l -> restored_scale s plan h -> restored_scale s plan (l ++ h).
Proof. intros Hl (sc & Hs & Hd). exists sc. split; [done|by apply settled_later]. Qed.

(** A successful wait has seen, since it began, what it waited for, and only read. *)
Definition saw (s : System) (ok : ObservedRelease -> bool) (h h' : trace) (r : result ObservedRelease) : Prop :=
  match r with
  | Ok o => exists l, h' = l ++ h /\ Event (R := answer) (M1Get KObserved (observedKey s)) (Ok o) ∈ l /\ ok o = true
  | Err _ => True
  end.

Lemma wp_poll_status fuel s ok check wait h :
  (forall o r, check o = Some (Ok r) -> r = o /\ ok o = true) ->
  post (fun w => forall r, w = Some (Ok r) -> False) wait ->
  wpA (r ← poll fuel (found ← ReleaseStatus s;
                      Ret (match found with Err e => Some (Err e) | Ok o => check o end)) wait;
       Ret (from_poll r)) (saw s ok h) h.
Proof.
  intros Hcheck Hwait. apply wp_bind. apply (poll_inv _ _ _ _ (fun h1 => exists l, h1 = l ++ h)
    (fun h' r => saw s ok h h' (from_poll r))); [by exists []| | |done].
  - intros h' [l ->]. unfold ReleaseStatus, Get. apply wp_bind. wp_ask. destruct a as [o|e]; [|done].
    apply wp_ret. destruct (check o) as [[r|e]|] eqn:Ec; [|done|by exists (Event (R := answer) (M1Get KObserved (observedKey s)) (Ok o) :: l)].
    apply Hcheck in Ec as [-> Hok]. eexists (_ :: l). split; [done|]. split; [apply list_elem_of_here|done].
  - intros h' [l ->]. eapply wp_mono; [apply wp_history, Hwait|]. intros h2 [[r|e]|] [Hr [l2 ->]]; [|done|].
    + by destruct (Hr r).
    + exists (l2 ++ l). by rewrite app_assoc.
Qed.

Lemma wp_waitReleaseVersion fuel s version t h :
  wpA (waitReleaseVersion fuel s version t) (saw s (healthy_version version) h) h.
Proof.
  apply wp_poll_status.
  - intros o r. destruct (healthy_version version o) eqn:Eh; [by intros [= <-]|]. by destruct (failed_version _ _).
  - apply post_after. intros w. apply post_ret. by destruct w.
Qed.

Lemma wp_waitReleaseReplicas fuel s version n t h :
  wpA (waitReleaseReplicas fuel s version n t) (saw s (replicas_ready version n) h) h.
Proof.
  apply wp_poll_status.
  - intros o r. destruct (replicas_ready version n o) eqn:Eh; [by intros [= <-]|].
    destruct (failed_version _ _); [done|]. by destruct (lease_expired o).
  - apply post_after. intros w. apply post_ret. by destruct w.
Qed.

(** Both facts about a program that only reads. *)
Lemma wp_with_aside {A} (p : sdk A) Q h :
  safe reading p -> wpA p Q h -> wpA p (fun h' a => Q h' a /\ exists l, h' = l ++ h /\ all_calls aside l) h.
Proof.
  intros Hr HQ. eapply wp_guard; [|apply wp_conj; [exact HQ|apply wp_aside, safe_aside_reading, Hr]]. done.
Qed.

(** A step of compensation that fails says so. *)
Definition if_ok (P : Change -> trace -> Prop) (h : trace) (r : ChangeRun.applied) : Prop := r.2 = None -> P r.1 h.

Lemma wp_or_escalate {A} s x (p : sdk (result A)) k P h :
  wpA p (fun h' r => match r with Ok a => wpA (k a) (if_ok P) h' | Err _ => True end) h ->
  wpA (or_escalate s x p k) (if_ok P) h.
Proof.
  intros Hp. apply wp_bind. eapply wp_mono; [exact Hp|]. intros h' [a|e]; [done|]. intros _.
  unfold escalateChange. apply wp_bind. eapply wp_mono; [apply post_any|]. by intros h2 [y r] _.
Qed.

Lemma wp_set_then_wait s v (wait : sdk (result ObservedRelease)) ok x k P h :
  safe reading wait -> (forall h, wpA wait (saw s ok h) h) ->
  (forall l o, settled s v ok (l ++ h) -> wpA (k o) (if_ok P) (l ++ h)) ->
  wpA (or_escalate s x (PutJSON KManifest (desiredKey s) v) (fun _ => or_escalate s x wait k)) (if_ok P) h.
Proof.
  intros Hr Hw Hk. apply wp_or_escalate. unfold PutJSON. wp_ask. destruct a as [[]|e]; [|done].
  apply wp_or_escalate. eapply wp_mono; [apply wp_with_aside; [done|apply Hw]|].
  intros h' [o|e] [Hs [l [-> Hl]]]; [|done]. destruct Hs as (l' & Heq & Hin & Hok). apply app_inv_tail in Heq as <-.
  change (l ++ ?e :: h) with (l ++ [e] ++ h) in *. rewrite app_assoc. apply Hk. rewrite <- app_assoc.
  exists l, h, o. split; [done|]. split; [|done]. eapply all_calls_mono; [|exact Hl]. apply aside_quiet.
Qed.

Lemma wp_restore_scale fuel s x h :
  wpA (restore_scale fuel s x) (if_ok (fun y h' =>
    Change.Plan_ y = Change.Plan_ x /\ Change.Operations y = Change.Operations x /\
    (operationReached (Change.Operations x) "release.scale" = true -> ChangePlan.Scale (Change.Plan_ x) <> None ->
     restored_scale s (Change.Plan_ x) h'))) h.
Proof.
  unfold restore_scale. destruct (ChangePlan.Scale _) as [scale|] eqn:Es; [|by intros _; split_and!].
  destruct (operationReached _ _); [|by intros _; split_and!].
  apply wp_or_escalate. eapply wp_mono; [apply post_any|]. intros h1 [u|e] _; [|done]. cbv zeta.
  eapply wp_set_then_wait; [apply reading_waitReleaseReplicas|intros h2; apply wp_waitReleaseReplicas|].
  intros l o Hs. apply wp_bind. unfold now. wp_ask. intros _. split_and!; [done..|]. intros _ _.
  apply (restored_scale_later s _ _ [_]); [by repeat constructor|]. by exists scale.
Qed.

Lemma wp_restore_release fuel s x h :
  operationReached (Change.Operations x) "release.set-desired" = true ->
  wpA (restore_release fuel s x) (if_ok (fun _ => restored_base s (ChangePlan.BaseVersion (Change.Plan_ x)))) h.
Proof.
  intros Hreach. unfold restore_release. rewrite Hreach.
  apply wp_or_escalate. eapply wp_mono; [apply post_any|]. intros h1 [u|e] _; [|done].
  apply wp_or_escalate. unfold Get. wp_ask. destruct a as [base|e]; [|done].
  eapply wp_set_then_wait; [apply reading_waitReleaseVersion|intros h2; apply wp_waitReleaseVersion|].
  intros l o Hs. apply wp_bind. unfold now. wp_ask. intros _.
  apply (restored_base_later s _ _ [_]); [by repeat constructor|]. exists base. split; [|done].
  apply elem_of_app. right. apply list_elem_of_here.
Qed.

(** What the operations record of production: no release was ever on its way to
    being made desired, and no migration has completed. *)
Definition nothing_reached (ops : list ChangeOperation) : Prop :=
  forall o, o ∈ ops ->
    (ChangeOperation.Kind o ∈ ["release.set-desired"; "release.scale"] ->
     ChangeOperation.Phase o ∉ ["running"; "completed"; "failed"]) /\
    (ChangeOperation.Kind o = "database.expand-migration" -> ChangeOperation.Phase o <> "completed").
Lemma untouched_reached ops : untouched ops = true -> nothing_reached ops.
Proof.
  unfold untouched, operationReached, operationCompleted. rewrite !andb_true_iff, !negb_true_iff. intros [[H1 H2] H3] o Ho.
  pose proof (existsb_elem _ _ _ H1 Ho) as E1. pose proof (existsb_elem _ _ _ H2 Ho) as E2. pose proof (existsb_elem _ _ _ H3 Ho) as E3.
  cbn beta in *. split.
  - intros Hk Hp. repeat (apply elem_of_cons in Hk as [Hk|Hk]; [rewrite Hk in *|]); [| |by apply not_elem_of_nil in Hk];
      repeat (apply elem_of_cons in Hp as [Hp|Hp]; [by rewrite Hp in *|]); by apply not_elem_of_nil in Hp.
  - intros Hk Hp. by rewrite Hk, Hp in E1.
Qed.

(** How a compensation of [x] that began after [h] ended. *)
Definition compensated (s : System) (x : Change) (h h' : trace) (y : Change) : Prop :=
  let ops := Change.Operations x in
  Change.Phase y = "rejected" /\ nothing_reached ops /\ (exists since, h' = since ++ h /\ all_calls aside since) \/
  Change.Phase y = "reverted" /\
    (operationReached ops "release.set-desired" = true -> restored_base s (ChangePlan.BaseVersion (Change.Plan_ x)) h') /\
    (operationReached ops "release.set-desired" = false -> operationReached ops "release.scale" = true ->
     ChangePlan.Scale (Change.Plan_ x) <> None -> restored_scale s (Change.Plan_ x) h').

Lemma compensated_later s x h h' y l : all_calls aside l -> compensated s x h h' y -> compensated s x h (l ++ h') y.
Proof.
  intros Hl. assert (all_calls (quiet s) l) as Hq by (eapply all_calls_mono; [apply aside_quiet|done]).
  intros [(Hp & Hn & since & -> & Hs)|(Hp & H1 & H2)]; [left|right; split_and!; [done| |]].
  - split_and!; [done..|]. exists (l ++ since). rewrite app_assoc. split; [done|]. by apply Forall_app.
  - intros E. by apply restored_base_later, H1.
  - intros E1 E2 E3. by apply restored_scale_later, H2.
Qed.
Lemma compensated_earlier s x h h0 h' y : all_calls aside h0 -> compensated s x (h0 ++ h) h' y -> compensated s x h h' y.
Proof.
  intros Hl [(Hp & Hn & since & -> & Hs)|?]; [left|by right]. split_and!; [done..|]. exists (since ++ h0).
  rewrite app_assoc. split; [done|]. by apply Forall_app.
Qed.

Lemma wp_end_change s phase x P h :
  (forall l y, all_calls aside l -> Change.Phase y = phase -> P y (l ++ h)) ->
  wpA (end_change s phase x) (if_ok P) h.
Proof.
  intros HP. unfold end_change, saveChange, now, PutJSON. apply wp_bind. wp_ask. do 2 apply wp_bind. wp_ask.
  apply wp_bind. wp_ask. intros _. apply (HP [_; _; _]); [by repeat constructor|done].
Qed.

(** Saving and noting residuals touch neither the plan nor the operations. *)
Definition same_work (y x : Change) : Prop :=
  Change.Plan_ y = Change.Plan_ x /\ Change.Operations y = Change.Operations x.

Lemma same_work_note y x : same_work y x -> same_work (note_residual y) x.
Proof.
  unfold note_residual, same_work. destruct (ChangePlan.Migration_ _); [|done]. by destruct (operationCompleted _ _).
Qed.

Lemma wp_compensateChange fuel s x h :
  wpA (compensateChange fuel s x) (if_ok (fun y h' => compensated s x h h' y)) h.
Proof.
  unfold compensateChange. destruct (untouched _) eqn:Eu.
  { apply wp_end_change. intros l y Hl Hy. left. split_and!; [done|by apply untouched_reached|by exists l]. }
  eapply wp_bind_mono with (P := fun _ r => same_work r.1 x).
  { enough (post (fun r => same_work r.1 x) (saveChange s (Change.with_Phase "compensating" x))) as Hs by apply Hs.
    unfold saveChange. apply post_after. intros t. apply post_after. intros r. by apply post_ret. }
  intros h1 [y r] Hy. cbv zeta. apply same_work_note in Hy. cbn [fst] in Hy. set (z := note_residual y) in *. clearbody z.
  eapply wp_bind_mono; [apply wp_restore_scale|]. intros h2 [w [e|]] Hw; [done|].
  destruct (Hw eq_refl) as (Hplan & Hops & Hscale). cbn [fst] in *. destruct Hy as [Ep Eo].
  clear Hw. rewrite Eo in Hops, Hscale. rewrite Ep in Hplan, Hscale.
  assert (forall l, all_calls aside l -> all_calls (quiet s) l) as Hquiet by (intros l; apply all_calls_mono, aside_quiet).
  destruct (operationReached (Change.Operations x) "release.set-desired") eqn:Er.
  - eapply wp_bind_mono; [apply wp_restore_release; by rewrite Hops|]. intros h3 [v [e|]] Hv; [done|].
    specialize (Hv eq_refl). rewrite Hplan in Hv. apply wp_end_change. intros l y' Hl Hy'. right.
    split_and!; [done| |by rewrite Er]. intros _. by apply restored_base_later; [apply Hquiet|].
  - unfold restore_release at 1. rewrite Hops, Er. apply wp_end_change. intros l y' Hl Hy'. right.
    split_and!; [done|by rewrite Er|]. intros _ Hreach Hne. apply restored_scale_later; auto.
Qed.

(** ** Waits end *)
Definition is_tick (c : sdk_call) : answer c -> bool :=
  match c as c return answer c -> bool with
  | Select => fun w => match w with WTick => true | _ => false end
  | _ => fun _ => false
  end.
Fixpoint ticks (h : trace) : nat :=
  match h with
  | [] => 0
  | Event c r :: h' => if is_tick c r then S (ticks h') else ticks h'
  end.

(** The environment of a wait: its timer or its context ends it within [n]
    ticks, and nobody answers the error that marks the bound of the model. *)
Definition ends_within (n : nat) (h : trace) (c : sdk_call) : answer c -> Prop :=
  match c as c return answer c -> Prop with
  | Select => fun w => match w with WTick => (ticks h < n)%nat | WDone e => e <> OutOfFuel | WTimer => True end
  | M1Get _ _ => fun r => r <> Err OutOfFuel
  | M1GetOptional _ _ => fun r => r <> Err OutOfFuel
  | _ => fun _ => True
  end.

Definition bounded {A} (o : option (result A)) : Prop := o <> Some (Err OutOfFuel).

(** [asks] is one call and a decision on its answer. *)
Lemma poll_ends {A} n fuel c (decide : answer c -> option (result A)) (decide' : wake -> option (result A)) :
  c <> Select -> (n < fuel)%nat ->
  (forall h r, ends_within n h c r -> bounded (decide r)) ->
  (forall h w, ends_within n h Select w -> bounded (decide' w) /\ (decide' w = None -> w = WTick)) ->
  wp (ends_within n) (fun _ _ => True)
    (r ← poll fuel (x ← call c; Ret (decide x)) (w ← select; Ret (decide' w)); Ret (from_poll r))
    (fun _ r => r <> Err OutOfFuel) [].
Proof.
  intros Hc Hfuel Hd Hw. apply wp_bind. eapply wp_mono.
  { eapply wp_guard; [|apply (wp_conj (ends_within n) (fun _ _ => True) (fun _ _ => True) _
      (fun _ r => is_Some r) (fun _ r => bounded r))]; [done| |].
    - apply (poll_fuel _ _ _ ticks n); [| |simpl; lia].
      + intros h. apply wp_bind. wp_ask_as a Ha. apply wp_ret. cbn. destruct (is_tick c a); lia.
      + intros h. apply wp_bind. unfold select. wp_ask_as w Hw0. apply wp_ret. intros Hn.
        destruct (Hw _ _ Hw0) as [_ Ht]. rewrite (Ht Hn) in Hw0 |- *. cbn in Hw0 |- *. lia.
    - apply (poll_inv _ _ _ _ (fun _ => True)); [done| | |done].
      + intros h _. apply wp_bind. wp_ask_as a Ha. apply wp_ret. pose proof (Hd _ _ Ha). by destruct (decide a).
      + intros h _. apply wp_bind. unfold select. wp_ask_as w Hw0. apply wp_ret. destruct (Hw _ _ Hw0) as [Hb _].
        by destruct (decide' w). }
  intros h' r [[x ->] Hb]. apply wp_ret. intros E. simpl in E. by subst.
Qed.

End ChangeOutcome.
