(* ===== verification/ReleaseSafety.v ===== *)
(** * What publishing a release may write

    [release_guard]: a manifest is recorded under the version of its own digest,
    never over the manifest of another digest, and becomes desired only once it
    is recorded and its content was hashed. *)

From S2P Require Import Prelude Effects GoStrings Digest Documents SandboxSpec Calls Systems Creation Releases.

Section ReleaseSafety.
Context `{Unicode}.
Context (s : System).

Abbreviation manifest_key m := (releaseKey s (ReleaseManifest.Version m)).

(** The stored manifest of the version has the same digest. *)
Definition same_digest (h : trace) (m : ReleaseManifest) : Prop :=
  exists stored, Event (R := answer) (M1GetOptional KManifest (manifest_key m)) (Ok (Some stored)) ∈ h /\
    ReleaseManifest.ArtifactSHA stored = ReleaseManifest.ArtifactSHA m.

(** The record of the manifest was created, or rewritten over one of its digest. *)
Definition recorded (h : trace) (m : ReleaseManifest) : Prop :=
  (exists etag, Event (R := answer) (M1PutJSONIfAbsent KManifest (manifest_key m) m) (Ok (etag, true)) ∈ h) \/
  (Event (R := answer) (M1PutJSON KManifest (manifest_key m) m) (Ok tt) ∈ h /\ same_digest h m).

(** Its artifact was read, from the staged object or from the local file that
    was uploaded, and has the digest. *)
Definition hashed (h : trace) (m : ReleaseManifest) : Prop :=
  exists data, sha256_hex data = ReleaseManifest.ArtifactSHA m /\
    ((exists limit, Event (R := answer) (M1GetBytesLimited (ReleaseManifest.ArtifactKey m) limit) (Ok data) ∈ h) \/
     Event (R := answer) (M1GetBytes (ReleaseManifest.ArtifactKey m)) (Ok data) ∈ h \/
     Event (R := answer) (M1Put (ReleaseManifest.ArtifactKey m) data "application/gzip") (Ok tt) ∈ h).

Definition release_guard (h : trace) (call : sdk_call) : Prop :=
  match call with
  | M1Put key data _ => exists ext, key = system_base s +:+ "/artifacts/" +:+ sha256_hex data +:+ ext
  | M1PutJSONIfAbsent KManifest key m => key = manifest_key m /\ ReleaseManifest.Version m = version_of (ReleaseManifest.ArtifactSHA m)
  | M1PutJSON KManifest key m =>
      ReleaseManifest.Version m = version_of (ReleaseManifest.ArtifactSHA m) /\
      (key = manifest_key m /\ same_digest h m \/ key = desiredKey s /\ recorded h m /\ hashed h m)
  | call => reading h call
  end.

Abbreviation wpR p Q h := (wp (fun _ _ _ => True) release_guard p Q h).

Lemma release_reading {A} (p : sdk A) : safe reading p -> safe release_guard p.
Proof. apply safe_mono. intros h [] Hr; by try destruct k. Qed.

(** More of what happened does not hurt. *)
Lemma same_digest_mono l h m : same_digest h m -> same_digest (l ++ h) m.
Proof. intros (x & Hx & E). exists x. rewrite elem_of_app. auto. Qed.
Lemma recorded_mono l h m : recorded h m -> recorded (l ++ h) m.
Proof.
  intros [[e He]|[He Hs]]; [left; exists e; rewrite elem_of_app; auto|right].
  split; [rewrite elem_of_app; auto|by apply same_digest_mono].
Qed.
Lemma hashed_mono l h m : hashed h m -> hashed (l ++ h) m.
Proof.
  intros (d & E & [[n Hd]|[Hd|Hd]]); exists d; (split; [done|]);
    [left; exists n|right; left|right; right]; rewrite elem_of_app; auto.
Qed.

Lemma wp_persist m Q h :
  ReleaseManifest.Version m = version_of (ReleaseManifest.ArtifactSHA m) ->
  (forall l e, Q (l ++ h) (Err e)) -> (forall l, recorded (l ++ h) m -> Q (l ++ h) (Ok tt)) ->
  wpR (persistReleaseManifest s m) Q h.
Proof.
  intros Hv Herr Hok. unfold persistReleaseManifest. cbv zeta. apply wp_bind_ok. unfold PutJSONIfAbsent. wp_ask.
  destruct a as [[etag written]|e]; [|apply (Herr [_])]. destruct written.
  { apply (Hok [_]). left. exists etag. left. }
  apply wp_bind_ok. unfold GetOptional. wp_ask. destruct a as [[stored|]|e]; [|apply (Herr [_; _])..].
  destruct (_ != _) eqn:Ed; [apply (Herr [_; _])|]. bool_inv.
  assert (forall l h0, same_digest (l ++ Event (R := answer) (M1GetOptional KManifest (manifest_key m)) (Ok (Some stored)) :: h0) m)
    as Hs. { intros l h0. exists stored. split; [rewrite elem_of_app; right; left|done]. }
  unfold PutJSON. wp_ask.
  { split; [done|]. left. split; [done|]. apply (Hs []). }
  destruct a as [[]|e]; [|apply (Herr [_; _; _])]. apply (Hok [_; _; _]). right. split; [left|]. apply (Hs [_]).
Qed.

Lemma wp_publish_desired m Q h :
  ReleaseManifest.Version m = version_of (ReleaseManifest.ArtifactSHA m) -> recorded h m -> hashed h m ->
  (forall l r, Q (l ++ h) r) -> wpR (set_desired s m) Q h.
Proof.
  intros Hv Hr Hh HQ. unfold set_desired. apply wp_bind_wrap. unfold PutJSON. wp_ask.
  - split; [done|]. by right.
  - destruct a as [[]|e]; apply (HQ [_]).
Qed.

(** ** Reading and checking the content *)
Lemma wp_readArtifact guar key limit Q h :
  (forall h c, reading h c -> guar h c) -> (forall l e, Q (l ++ h) (Err e)) ->
  (forall l data,
     ((exists n, Event (R := answer) (M1GetBytesLimited key n) (Ok data) ∈ l ++ h) \/
      Event (R := answer) (M1GetBytes key) (Ok data) ∈ l ++ h) -> Q (l ++ h) (Ok data)) ->
  wp (fun _ _ _ => True) guar (readArtifactBytes key limit) Q h.
Proof.
  intros Hg Herr Hok. unfold readArtifactBytes. apply wp_bind. wp_ask; [by apply Hg|]. destruct a.
  - wp_ask; [by apply Hg|]. destruct a as [data|e]; [|apply (Herr [_; _])].
    apply (Hok [_; _]). left. exists limit. left.
  - apply wp_bind_ok. unfold GetBytes. wp_ask; [by apply Hg|]. destruct a as [data|e]; [|apply (Herr [_; _])].
    destruct (_ <? _); [apply (Herr [_; _])|]. apply (Hok [_; _]). right. left.
Qed.

Lemma wp_VerifyStaged guar artifact Q h :
  (forall h c, reading h c -> guar h c) -> (forall l e, Q (l ++ h) (Err e)) ->
  (forall l data, sha256_hex data = StagedArtifact.SHA256 artifact ->
     ((exists n, Event (R := answer) (M1GetBytesLimited (StagedArtifact.Key artifact) n) (Ok data) ∈ l ++ h) \/
      Event (R := answer) (M1GetBytes (StagedArtifact.Key artifact)) (Ok data) ∈ l ++ h) -> Q (l ++ h) (Ok tt)) ->
  wp (fun _ _ _ => True) guar (VerifyStagedArtifact artifact) Q h.
Proof.
  intros Hg Herr Hok. unfold VerifyStagedArtifact. cbv zeta. destruct (_ || _); [apply (Herr [])|].
  destruct (ControlPlaneArtifactKey _) as [key|e]; [|apply (Herr [])]. rewrite bind_ok_lift.
  destruct (_ != _); [apply (Herr [])|]. apply wp_bind_wrap, wp_readArtifact; [done|by intros l e; apply Herr|].
  intros l data Hdata. destruct (_ != _); [apply Herr|]. destruct (_ != _) eqn:Ed; [apply Herr|]. bool_inv.
  by apply (Hok l data).
Qed.

Lemma hashed_staged h artifact data command env health port t :
  sha256_hex data = StagedArtifact.SHA256 artifact ->
  ((exists n, Event (R := answer) (M1GetBytesLimited (StagedArtifact.Key artifact) n) (Ok data) ∈ h) \/
   Event (R := answer) (M1GetBytes (StagedArtifact.Key artifact)) (Ok data) ∈ h) ->
  hashed h (new_manifest s (StagedArtifact.Key artifact) (StagedArtifact.SHA256 artifact) command env health port t).
Proof. intros Hd He. exists data. split; [done|]. destruct He as [He|He]; [by left|right; by left]. Qed.

(** ** Uploading a local file *)
Lemma wp_StageRelease input Q h :
  (forall h' e, Q h' (Err e)) -> (forall h' m, ReleaseManifest.Version m = version_of (ReleaseManifest.ArtifactSHA m) ->
    recorded h' m -> hashed h' m -> Q h' (Ok m)) ->
  wpR (StageRelease s input) Q h.
Proof.
  intros Herr Hok. unfold StageRelease. apply wp_bind_ok. apply wp_ret. destruct (System_Validate s); [|apply Herr].
  apply wp_bind_ok. apply wp_ret. destruct (valid_release _ _ _); [|apply Herr].
  apply wp_bind_ok. unfold readReleaseArtifact. apply wp_bind_ok. wp_ask. destruct a1 as [data|e]; [|apply Herr].
  destruct (_ || _); [apply Herr|]. apply wp_ret. cbv zeta. apply wp_bind_wrap. unfold Put. wp_ask.
  { eexists. reflexivity. }
  destruct a1 as [[]|e]; [|apply Herr]. apply wp_bind. unfold now. wp_ask. cbv zeta. apply wp_bind_wrap, wp_persist; [done|..].
  - intros l e. apply Herr.
  - intros l Hr. apply wp_ret, Hok; [done..|]. apply hashed_mono. exists data. split; [done|]. right; right.
    apply elem_of_cons; right. left.
Qed.
End ReleaseSafety.
