(* ===== verification/Machine.v ===== *)
(** * The state machine of a sandbox document

    [sandbox_step] lists the changes a sandbox document may undergo, whoever
    makes them.  [write_guard] says that a call which may change the document
    of a key is one of them: a compare-and-swap whose new value is a step from
    the version the caller read under the same etag; and that a server is only
    created right after the compare-and-swap that acquired its attempt.  The theorems of
    [Writers] prove that guard of every operation of the SDK. *)

From S2P Require Import Prelude Effects GoStrings Documents SandboxSpec Calls Lifecycle Creation Destruction Exposure Vps.

Section Machine.
Context `{Unicode}.

(** ** One resource of a creation intent *)
Definition phase_of : ComputeResourceIntent -> string := ComputeResourceIntent.Phase.

Inductive resource_step : ComputeResourceIntent -> ComputeResourceIntent -> Prop :=
  | rs_acquire grace r id t :
      phase_of r = "pending" -> resource_step r (attempted grace r id t)
  | rs_attach r id :
      phase_of r = "creating" -> ComputeResourceIntent.AttemptID r <> EmptyString ->
      resource_step r (ComputeResourceIntent.with_Phase "attached" (ComputeResourceIntent.with_ResourceID id r))
  | rs_activate r :
      phase_of r = "attached" -> resource_step r (ComputeResourceIntent.with_Phase "active" r)
  | rs_exhaust r :
      phase_of r = "attached" \/ phase_of r = "active" ->
      resource_step r
        (ComputeResourceIntent.mk (ComputeResourceIntent.Replica r) (ComputeResourceIntent.Name r)
           (ComputeResourceIntent.ProofKey r) (add64 (ComputeResourceIntent.NetworkIndex r) 1)
           EmptyString "pending" EmptyString None None)
  | rs_prove r :
      phase_of r = "active" -> resource_step r (ComputeResourceIntent.with_Phase "ready" r).

(** ** The whole document *)
Definition with_exposure (ei : ExposureIntent) (s : State) : State := State.with_ExposureIntent_ (Some ei) s.

Inductive creation_end (ci : CreationIntent) : string -> Prop :=
  | end_ready : Forall (fun r => phase_of r = "ready") (CreationIntent.Resources ci) -> creation_end ci "ready"
  | end_failed : creation_end ci "failed"
  | end_escalated : creation_end ci "escalated".

Inductive destroy_change : State -> State -> Prop :=
  | dc_escalate cause s : destroy_change s (destroy_escalated cause s)
  | dc_resource index name s s' : resource_destroyed index name s = Ok s' -> destroy_change s s'
  | dc_policy id s : destroy_change s (policy_removed id s)
  | dc_exposure s s' : exposure_destroyed s = Ok s' -> destroy_change s s'
  | dc_done t s : destroy_change s (all_destroyed t s).

Inductive sandbox_step : option State -> State -> Prop :=
  (* Apply *)
  | step_claim cur spec opID t shape imageID networkIDs :
      match cur with Some s => State.Phase s = "destroyed" | None => True end ->
      sandbox_step cur (intent_state spec opID t shape imageID networkIDs)
  (* a VPS destroyed before it was created *)
  | step_tombstone spec : sandbox_step None (vps_tombstone spec)
  | step_resource s ci index r r' resources attempts :
      State.CreationIntent_ s = Some ci -> State.Phase s = "creating" -> CreationIntent.Phase ci = "creating" ->
      CreationIntent.Resources ci !! Z.to_nat index = Some r -> resource_step r r' ->
      sandbox_step (Some s)
        (State.with_Resources resources (set_resource index r' ci (State.with_Attempts attempts s)))
  | step_end s ci phase failure :
      State.CreationIntent_ s = Some ci -> State.Phase s = "creating" -> CreationIntent.Phase ci = "creating" ->
      creation_end ci phase -> sandbox_step (Some s) (State.with_Failure failure (set_phases phase ci s))
  | step_note s failure :
      State.Phase s = "creating" \/ State.Phase s = "ready" ->
      sandbox_step (Some s) (State.with_Failure failure s)
  (* cleanup of one server *)
  | step_cleanup s ci index r id :
      State.CreationIntent_ s = Some ci -> State.Phase s = "escalated" ->
      CreationIntent.Resources ci !! Z.to_nat index = Some r -> phase_of r <> "destroyed" ->
      sandbox_step (Some s)
        (set_resource index (ComputeResourceIntent.with_Phase "cleaning" (ComputeResourceIntent.with_ResourceID id r))
           ci (State.with_Phase "cleanup" s))
  | step_cleaned s ci index r phase resources failure :
      State.CreationIntent_ s = Some ci -> State.Phase s = "cleanup" ->
      CreationIntent.Resources ci !! Z.to_nat index = Some r -> phase_of r = "cleaning" ->
      sandbox_step (Some s)
        (State.with_Failure failure (State.with_Resources resources
           (set_resource index (ComputeResourceIntent.with_Phase phase r) ci (State.with_Phase "escalated" s))))
  (* Destroy *)
  | step_destroying s :
      State.Phase s <> "destroying" -> State.Phase s <> "destroyed" ->
      sandbox_step (Some s) (destroying_state s)
  | step_destroy s s' :
      State.Phase s = "destroying" -> destroy_change s s' -> sandbox_step (Some s) s'
  (* exposure *)
  | step_expose s ei :
      State.Phase s = "ready" -> State.ExposureIntent_ s = None -> ExposureIntent.Phase ei = "creating" ->
      sandbox_step (Some s) (State.with_Failure EmptyString (with_exposure ei s))
  | step_exposed s ei policies phase :
      State.ExposureIntent_ s = Some ei ->
      State.Phase s = "ready" \/
        State.Phase s = "escalated" /\ ExposureIntent.Phase ei = "escalated" /\ ExposureIntent.MutationUnresolved ei = true ->
      phase = State.Phase s \/ phase = "ready" ->
      sandbox_step (Some s)
        (State.with_Phase phase (State.with_NetworkPolicies policies
           (State.with_Failure EmptyString (with_exposure (ready_intent ei) s))))
  | step_expose_escalated s ei failure :
      State.ExposureIntent_ s = Some ei -> State.Phase s = "ready" -> ExposureIntent.Phase ei = "creating" ->
      sandbox_step (Some s) (State.with_Failure failure (State.with_Phase "escalated"
        (with_exposure (ExposureIntent.with_Phase "escalated" ei) s)))
  | step_expose_cleanup s ei :
      State.ExposureIntent_ s = Some ei -> State.Phase s = "escalated" ->
      ExposureIntent.MutationUnresolved ei = true -> ExposureIntent.Phase ei <> "destroyed" ->
      sandbox_step (Some s) (State.with_Phase "cleanup" (with_exposure (ExposureIntent.with_Phase "cleaning" ei) s))
  | step_expose_cleaned s ei ei' policies failure :
      State.ExposureIntent_ s = Some ei -> State.Phase s = "cleanup" -> ExposureIntent.Phase ei = "cleaning" ->
      ei' = exposure_closed ei \/
        ei' = ExposureIntent.with_MutationUnresolved true (ExposureIntent.with_Phase "escalated" ei) ->
      sandbox_step (Some s)
        (State.with_Failure failure (State.with_NetworkPolicies policies (with_exposure ei' (State.with_Phase "escalated" s)))).

(** ** The guard on writes *)
Definition was_read (key : string) (h : trace) (s : State) (etag : string) : Prop :=
  Event (R := answer) (M1GetJSONVersion KState key) (Ok (Some (s, etag))) ∈ h.

(** The last thing that happened is the compare-and-swap that turned a pending
    resource into a creating one, from a version read before. *)
Definition attempt_written (key : string) (index : Z) (next : State) (h : trace) : Prop :=
  exists grace s ci r id t etag etag',
    hd_error h = Some (Event (R := answer) (M1PutJSONIfMatch KState key etag next) (Ok (etag', true))) /\
    State.CreationIntent_ s = Some ci /\ CreationIntent.Resources ci !! Z.to_nat index = Some r /\
    phase_of r = "pending" /\ was_read key h s etag /\
    next = set_resource index (attempted grace r id t) ci s.

Definition create_guard (key : string) (h : trace) (request : ManagedServerRequest) : Prop :=
  exists index next ci r,
    attempt_written key index next h /\ resource_at next index = Some (ci, r) /\
    ManagedServerRequest.Name request = ComputeResourceIntent.Name r /\
    ManagedServerRequest.OperationID request = CreationIntent.OperationID ci /\
    ManagedServerRequest.FlavorID request = CreationIntent.ShapeID ci /\
    ManagedServerRequest.ImageID request = CreationIntent.ImageID ci /\
    go_index (CreationIntent.NetworkIDs ci) (ComputeResourceIntent.NetworkIndex r) =
      Some (ManagedServerRequest.NetworkID request).

Definition write_guard (key : string) (h : trace) (c : sdk_call) : Prop :=
  match c with
  | M1PutJSONIfMatch KState k etag next =>
      k = key -> exists s, was_read key h s etag /\ sandbox_step (Some s) next
  | M1PutJSONIfAbsent KState k next => k = key -> sandbox_step None next
  | M1PutJSON _ k _ | M1Put k _ _ | M1Delete k => k <> key
  | M1PutJSONIfMatch _ k _ _ | M1PutJSONIfAbsent _ k _ => k <> key
  | CreateManaged request => create_guard key h request
  | _ => True
  end.

End Machine.
