(* ===== verification/Writers.v ===== *)
(** * Every writer of a sandbox document follows the state machine

    For [Apply], [Destroy] and the exposure operations, and for every
    environment: a call that may change the document of the sandbox is a step
    of [sandbox_step] from the version read under the etag it presents. *)

From S2P Require Import Prelude Effects GoStrings Documents SandboxSpec Calls Systems Lifecycle Creation Destruction.
From S2P Require Import Exposure Vps Machine.

Section Writers.
Context `{Unicode}.
Context (key : string).

Notation G := (write_guard key).
Notation wpG p Q h := (wp (fun _ _ _ => True) G p Q h).

(** ** Calls that cannot touch the document *)
Lemma safe_free c :
  (forall h, write_guard key h c) -> safe (R := answer) G (call c).
Proof. apply safe_call. Qed.

Lemma safe_newID : safe G newID.
Proof. unfold newID. safe_tac; apply safe_free; done. Qed.
Lemma safe_now : safe G now.
Proof. by apply safe_free. Qed.
Lemma safe_select : safe G select.
Proof. by apply safe_free. Qed.
Lemma safe_GetJSONVersion k key' : safe G (GetJSONVersion k key').
Proof. by apply safe_free. Qed.
Lemma safe_Get k key' : safe G (Get k key').
Proof. by apply safe_free. Qed.
Lemma safe_GetOptional k key' : safe G (GetOptional k key').
Proof. by apply safe_free. Qed.
Lemma safe_FindServers a b c : safe G (FindServers a b c).
Proof. by apply safe_free. Qed.
Lemma safe_InspectServer id : safe G (InspectServer id).
Proof. by apply safe_free. Qed.
Lemma safe_Delete id : safe G (Delete id).
Proof. by apply safe_free. Qed.
Lemma safe_find_exposure r : safe G (find_exposure r).
Proof. by apply safe_free. Qed.
Lemma safe_ensure_exposure r : safe G (ensure_exposure r).
Proof. by apply safe_free. Qed.
Lemma safe_PutJSON k key' v : key' <> key -> safe G (PutJSON k key' v).
Proof. intros Hk. apply safe_free. by intros h. Qed.
Hint Extern 1 (safe _ (GetJSONVersion _ _)) => apply safe_GetJSONVersion : safe.
Hint Extern 1 (safe _ (Get _ _)) => apply safe_Get : safe.
Hint Extern 1 (safe _ (GetOptional _ _)) => apply safe_GetOptional : safe.
Hint Resolve safe_newID safe_now safe_select safe_FindServers
  safe_InspectServer safe_Delete safe_find_exposure safe_ensure_exposure : safe.

(** ** A read, then a compare-and-swap of a step from what was read *)
Lemma post_read_cas {A} (P : A -> Prop) (f : result (option (State * string)) -> sdk A) :
  (forall h r, match r with
               | Ok (Some (s, etag)) => was_read key h s etag
               | _ => True
               end -> wpG (f r) (fun _ => P) h) ->
  safe_post G P (GetJSONVersion KState key ≫= f).
Proof.
  intros Hf h. simpl. split; [done|]. intros r _. apply Hf.
  destruct r as [[[s etag]|]|e]; try done. by left.
Qed.

Lemma post_cas {A} (P : A -> Prop) h s etag next (f : result (string * bool) -> sdk A) :
  was_read key h s etag -> sandbox_step (Some s) next ->
  (forall h' r, wpG (f r) (fun _ => P) h') ->
  wpG (PutJSONIfMatch KState key etag next ≫= f) (fun _ => P) h.
Proof. intros Hr Hs Hf. simpl. split; [|auto]. intros _. eauto. Qed.

Lemma safe_read_cas {A} (f : result (option (State * string)) -> sdk A) :
  (forall h r, match r with
               | Ok (Some (s, etag)) => was_read key h s etag
               | _ => True
               end -> wpG (f r) (fun _ _ => True) h) ->
  safe G (GetJSONVersion KState key ≫= f).
Proof. apply post_read_cas. Qed.

Lemma wp_cas {A} h s etag next (f : result (string * bool) -> sdk A) :
  was_read key h s etag -> sandbox_step (Some s) next ->
  (forall h' r, wpG (f r) (fun _ _ => True) h') ->
  wpG (PutJSONIfMatch KState key etag next ≫= f) (fun _ _ => True) h.
Proof. apply post_cas. Qed.

(** ** The mutation loops *)
Definition transition_ok (operationID : string) (index : Z) (attemptID : string) (mutate : transition) : Prop :=
  forall current etag ci resource etag' next,
    creation_target operationID index attemptID (Some (current, etag)) = Ok (current, ci, resource, etag') ->
    mutate current ci resource = Ok (Some next) ->
    sandbox_step (Some current) next /\ op_of next = Some operationID.

Lemma creation_target_ok operationID index attemptID read current ci resource etag :
  creation_target operationID index attemptID read = Ok (current, ci, resource, etag) ->
  read = Some (current, etag) /\ State.CreationIntent_ current = Some ci /\
  CreationIntent.OperationID ci = operationID /\
  State.Phase current <> "destroying" /\ State.Phase current <> "destroyed" /\
  match resource with
  | Some r => 0 <= index /\ CreationIntent.Resources ci !! Z.to_nat index = Some r /\
              (attemptID <> EmptyString -> ComputeResourceIntent.AttemptID r = attemptID)
  | None => index < 0
  end.
Proof.
  unfold creation_target. intros Ht. destruct read as [[s e]|]; [|done].
  destruct (State.CreationIntent_ s) as [ci'|] eqn:Eci; [|done].
  apply result_bind_ok in Ht as ([] & Hf & Ht). apply reject_if_ok in Hf. bool_inv.
  destruct (index <? 0) eqn:Ei.
  - injection Ht as <- <- <- <-. bool_inv. by split_and!.
  - destruct (CreationIntent.Resources ci' !! _) as [r|] eqn:Er; [|done].
    apply result_bind_ok in Ht as ([] & Ha & Ht). apply reject_if_ok in Ha.
    injection Ht as <- <- <- <-. bool_inv. split_and!; try done. intros Hne.
    apply andb_false_iff in Ha as [Ha|Ha]; by bool_inv.
Qed.

(** What a result says of the operation: it still is the one of the document. *)
Definition same_op (operationID : string) (r : result State) : Prop :=
  match r with Ok s => op_of s = Some operationID | Err _ => True end.
Definition keeps_op {A} (operationID : string) (r : State * A) : Prop := op_of r.1 = Some operationID.

Lemma post_mutateCreationState operationID index attemptID mutate :
  transition_ok operationID index attemptID mutate ->
  safe_post G (same_op operationID) (mutateCreationState key operationID index attemptID mutate).
Proof.
  intros Hok. unfold mutateCreationState. induction retry_limit as [|n IH]; cbn [mutate_creation]; [by apply safe_post_ret|].
  unfold bind_ok at 1. apply post_read_cas. intros h [read|e] Hr; [|done].
  rewrite bind_ok_lift.
  destruct (creation_target operationID index attemptID read) as [[[[s ci] res] etag]|e] eqn:Et; [|done].
  pose proof Et as Et'. apply creation_target_ok in Et as (-> & Hci & Hop & _).
  rewrite bind_ok_lift. destruct (mutate s ci res) as [[next|]|e] eqn:Em; [| |done].
  - destruct (Hok _ _ _ _ _ _ Et' Em) as [Hstep Hop'].
    apply (post_cas _ _ s); [done..|]. intros h' [[v []]|e]; [done|apply IH|done].
  - simpl. unfold op_of. rewrite Hci. simpl. by rewrite Hop.
Qed.

Lemma safe_mutateCreationState operationID index attemptID mutate :
  transition_ok operationID index attemptID mutate ->
  safe G (mutateCreationState key operationID index attemptID mutate).
Proof. intros. eapply safe_post_safe. by apply post_mutateCreationState. Qed.

(** Premises of a resource transition that returned [Some next]. *)
Ltac target_inv :=
  match goal with
  | Ht : creation_target _ _ _ _ = Ok _ |- _ =>
      apply creation_target_ok in Ht as (Hread & Hci & Hop & Hnd1 & Hnd2 & Hres); subst
  end.

Lemma both_phases_true s ci phase :
  both_phases s ci phase = true <-> State.Phase s = phase /\ CreationIntent.Phase ci = phase.
Proof. unfold both_phases. by rewrite andb_true_iff, !bool_decide_eq_true. Qed.

Lemma in_phases_true phase l : in_phases phase l = true <-> phase ∈ l.
Proof.
  unfold in_phases. rewrite existsb_exists. setoid_rewrite bool_decide_eq_true.
  setoid_rewrite <- list_elem_of_In. naive_solver.
Qed.

(** From the checks of a transition to the premises of its step. *)
Ltac transition_inv :=
  intros s etag ci res etag' next Ht Hm; target_inv;
  match goal with Hm : _ _ ?res = Ok (Some _) |- _ =>
    try (destruct res as [r|]; [|discriminate Hm]);
    cbv beta iota zeta delta [with_resource attach activate exhaust prove finish_creation record_failure escalate] in Hm
  end;
  match goal with
  | Hres : _ /\ _ /\ _ |- _ => destruct Hres as (Hi & Hr & Ha)
  | _ => idtac
  end; ok_inv; bool_inv;
  repeat match goal with
  | H : both_phases _ _ _ = true |- _ => apply both_phases_true in H as [? ?]
  | H : in_phases _ _ = true |- _ => apply in_phases_true in H
  end.

Lemma attach_ok op index attempt server : transition_ok op index attempt (attach op index attempt server).
Proof.
  transition_inv. destruct (in_phases _ _); ok_inv; [done|]. bool_inv. subst.
  split; [|done]. apply (step_resource s ci index r _ _ (State.Attempts s)); try done. apply rs_attach; [done|]. by rewrite Ha.
Qed.

Lemma activate_ok op index attempt server : transition_ok op index attempt (activate op index attempt server).
Proof.
  transition_inv. destruct (in_phases _ _); ok_inv; [done|]. bool_inv. subst.
  split; [|done]. apply (step_resource s ci index r _ _ (State.Attempts s)); try done. by apply rs_activate.
Qed.

Lemma exhaust_ok op index attempt id : transition_ok op index attempt (exhaust index attempt id).
Proof.
  transition_inv. subst. split; [|done]. eapply (step_resource s ci index r); try done. apply rs_exhaust.
  match goal with Hin : _ ∈ _ |- _ => apply elem_of_cons in Hin as [?|Hin]; [by left|] end.
  match goal with Hin : _ ∈ _ |- _ => apply list_elem_of_singleton in Hin end. by right.
Qed.

Lemma prove_ok op index attempt : transition_ok op index attempt (prove op index attempt).
Proof.
  transition_inv. destruct (_ == _); ok_inv; [done|]. bool_inv. subst.
  split; [|done]. apply (step_resource s ci index r _ (State.Resources s) (State.Attempts s)); try done. by apply rs_prove.
Qed.

Lemma finish_creation_ok op : transition_ok op (-1) EmptyString (finish_creation op).
Proof.
  transition_inv. destruct (both_phases s ci "ready"); ok_inv; [done|]. bool_inv. subst.
  match goal with H : both_phases _ _ _ = true |- _ => apply both_phases_true in H as [? ?] end.
  split; [|done]. apply step_end; try done. constructor.
  match goal with Hf : fold_result _ tt _ = Ok _ |- _ => apply fold_result_reject in Hf;
    eapply Forall_impl; [exact Hf|] end.
  intros r Hr. simpl in Hr. by bool_inv.
Qed.

Lemma record_failure_ok op cause terminal : transition_ok op (-1) EmptyString (record_failure op cause terminal).
Proof.
  transition_inv. ok_inv. bool_inv. subst.
  destruct terminal.
  - split; [|done]. apply (step_end s ci "failed" (Error cause)); try done. constructor.
  - split; [apply step_note; by left|]. unfold op_of. simpl. by rewrite Hci.
Qed.

Lemma escalate_ok op cause : transition_ok op (-1) EmptyString (escalate op cause).
Proof.
  transition_inv. destruct (both_phases s ci "escalated"); ok_inv; [done|]. bool_inv. subst.
  match goal with H : both_phases _ _ _ = true |- _ => apply both_phases_true in H as [? ?] end.
  split; [|done]. apply step_end; try done. constructor.
Qed.
Hint Resolve safe_mutateCreationState attach_ok activate_ok exhaust_ok prove_ok finish_creation_ok record_failure_ok
  escalate_ok : safe.

Lemma post_persisted op index attempt mutate wrap :
  transition_ok op index attempt mutate ->
  safe_post G (same_op op) (bind_wrap (mutateCreationState key op index attempt mutate) wrap (fun s => Ret (Ok s))).
Proof.
  intros Hok. unfold bind_wrap. eapply safe_post_bind; [by apply post_mutateCreationState|].
  intros [s|e] Hs; by apply safe_post_ret.
Qed.

Lemma post_recordCreationFailure s op cause terminal :
  op_of s = Some op -> safe_post G (keeps_op op) (recordCreationFailure key s op cause terminal).
Proof.
  intros Hs. unfold recordCreationFailure. eapply safe_post_bind; [apply post_mutateCreationState, record_failure_ok|].
  intros [s'|e] Hs'; by apply safe_post_ret.
Qed.

Lemma post_escalateCreation s op cause :
  op_of s = Some op -> safe_post G (keeps_op op) (escalateCreation key s op cause).
Proof.
  intros Hs. unfold escalateCreation. eapply safe_post_bind; [apply post_mutateCreationState, escalate_ok|].
  intros [s'|e] Hs'; by apply safe_post_ret.
Qed.

(** ** Cleanup *)
Lemma safe_claim_cleanup n op index attempt server : safe G (claim_cleanup n key op index attempt server).
Proof.
  induction n as [|n IH]; cbn [claim_cleanup]; [apply safe_ret|].
  unfold bind_ok at 1. apply safe_read_cas. intros h [read|e] Hr; [|done].
  destruct (cleanup_target op index attempt server read) as [|next etag phase] eqn:Et; [done|].
  unfold cleanup_target in Et. destruct read as [[s e]|]; [|done].
  destruct (State.CreationIntent_ s) as [ci|] eqn:Eci; [|done].
  destruct (_ != op); [done|]. destruct (CreationIntent.Resources ci !! _) as [r|] eqn:Er; [|done].
  destruct (_ || _) eqn:Ec; [done|]. injection Et as <- <- <-. bool_inv.
  apply (wp_cas _ s); [done|by apply step_cleanup|]. intros h' [[v []]|e']; [done|apply IH|done].
Qed.

Lemma safe_record_cleanup n op index attempt server phase err :
  safe G (record_cleanup n key op index attempt server phase err).
Proof.
  induction n as [|n IH]; cbn [record_cleanup]; [apply safe_ret|].
  unfold bind_ok at 1. apply safe_read_cas. intros h [read|e] Hr; [|done]. rewrite bind_ok_lift.
  destruct (cleaned_state op index attempt server phase err read) as [[next etag]|e] eqn:Et; [|done].
  unfold cleaned_state in Et. destruct read as [[s e]|]; [|done].
  destruct (State.CreationIntent_ s) as [ci|] eqn:Eci; [|done]. ok_inv. bool_inv.
  destruct (CreationIntent.Resources ci !! _) as [r|] eqn:Er; [|done]. ok_inv. bool_inv.
  subst. apply (wp_cas _ s); [done| |intros h' [[v []]|e']; [done|apply IH|done]].
  destruct err as [e'|].
  - by apply (step_cleaned s ci index r).
  - by apply (step_cleaned s ci index r "destroyed"
                (remove_resources (State.Resources s) (Server.ID server)) (State.Failure s)).
Qed.

Lemma safe_cleanupComputeAfterFence op index attempt server :
  safe G (cleanupComputeAfterFence key op index attempt server).
Proof.
  unfold cleanupComputeAfterFence. apply safe_bind_ok; [apply safe_claim_cleanup|].
  intros [phase|]; safe_tac. apply safe_record_cleanup.
Qed.

Hint Resolve safe_cleanupComputeAfterFence : safe.

(** ** reconcileCreation *)
Section Apply.
Context (fuel : nat) (grace : Z).

Lemma safe_reconcileManagedServer spec op r : safe G (reconcileManagedServer spec op r).
Proof. unfold reconcileManagedServer. safe_tac. Qed.
Hint Resolve safe_reconcileManagedServer : safe.

Lemma safe_waitForManagedServerVisibility spec op r until :
  safe G (waitForManagedServerVisibility fuel spec op r until).
Proof. unfold waitForManagedServerVisibility. safe_tac. Qed.

Lemma safe_waitForProof k : safe G (waitForProof fuel k).
Proof. unfold waitForProof. safe_tac. Qed.

Hint Resolve safe_waitForManagedServerVisibility safe_waitForProof : safe.

Lemma post_escalated {A} s op e :
  op_of s = Some op -> safe_post G (keeps_op op) (escalated (A:=A) key s op e).
Proof.
  intros Hs. unfold escalated. eapply safe_post_bind; [by apply post_escalateCreation|].
  intros [s' e'] Hs'. by apply safe_post_ret.
Qed.

Lemma post_recorded {A} s op e e' :
  op_of s = Some op -> safe_post G (keeps_op op) (recorded (A:=A) key s op e e').
Proof.
  intros Hs. unfold recorded. eapply safe_post_bind; [by apply post_recordCreationFailure|].
  intros [s' o] Hs'. by apply safe_post_ret.
Qed.
Hint Resolve post_escalated post_recorded : safe.

(** The rules of [safe_post (keeps_op op)]. *)
Ltac post_step :=
  match goal with
  | |- safe_post _ _ (let '(_, _) := ?x in _) => destruct x
  | |- safe_post _ _ (Ret _) => apply safe_post_ret; done
  | |- safe_post _ _ (match ?x with _ => _ end) => destruct x eqn:?
  | |- safe_post _ _ _ => solve [eauto with safe]
  | |- safe_post _ _ (mbind _ _) => apply safe_post_any; [solve [safe_tac]|intros ?]
  end.
Ltac post_tac := repeat (cbv beta zeta; post_step).

Lemma post_locate spec op s r :
  op_of s = Some op -> safe_post G (keeps_op op) (locate fuel spec key op s r).
Proof. intros Hs. unfold locate. post_tac. Qed.

Lemma post_confirm_create spec op s r until created :
  op_of s = Some op -> safe_post G (keeps_op op) (confirm_create fuel spec key op s r until created).
Proof. intros Hs. unfold confirm_create. post_tac. Qed.

Lemma post_attach_or_cleanup op index s r server what :
  op_of s = Some op -> safe_post G (keeps_op op) (attach_or_cleanup key op index s r server what).
Proof.
  intros Hs. unfold attach_or_cleanup. eapply safe_post_bind; [apply post_persisted, attach_ok|].
  intros [s'|e] Hs'; [by apply safe_post_ret|]. post_tac.
Qed.

Lemma was_read_cons h s etag ev : was_read key h s etag -> was_read key (ev :: h) s etag.
Proof. unfold was_read. by right. Qed.
Lemma was_read_app h s etag l : was_read key h s etag -> was_read key (l ++ h) s etag.
Proof. unfold was_read. intros. apply elem_of_app. by right. Qed.

Lemma acquire_target_ok expected index read s ci r etag :
  acquire_target expected index read = Ok (s, ci, r, etag) ->
  read = Some (s, etag) /\ State.CreationIntent_ s = Some ci /\
  CreationIntent.Resources ci !! Z.to_nat index = Some r /\ State.Phase s = "creating" /\
  CreationIntent.Phase ci = "creating" /\ phase_of r = "pending" /\
  op_of expected = Some (CreationIntent.OperationID ci).
Proof.
  unfold acquire_target. destruct read as [[s' e]|]; [|done].
  destruct (State.CreationIntent_ s') as [ci'|] eqn:Eci; [|done]. intros Ht. ok_inv. bool_inv.
  destruct (CreationIntent.Resources ci' !! _) as [r'|] eqn:Er; [|done]. ok_inv. bool_inv. subst.
  match goal with H : both_phases _ _ _ = true |- _ => apply both_phases_true in H as [? ?] end. by split_and!.
Qed.

(** Whatever follows keeps the reads it saw. *)
Lemma wp_newID Q h :
  (forall h' id, (exists l, h' = l ++ h) -> Q h' id) -> wpG newID Q h.
Proof.
  intros HQ. unfold newID. apply wp_bind. wp_ask. simpl in a. destruct a as [b|e].
  - apply HQ. by exists [Event (R := answer) RandRead (Ok b)].
  - apply wp_bind. wp_ask. apply HQ.
    by exists [Event (R := answer) Now a; Event (R := answer) RandRead (Err e)].
Qed.

(** Acquiring an attempt is a step, and the last thing that happened. *)
Lemma wp_acquire expected index h :
  wpG (acquireResourceCreateAttempt grace key expected index)
    (fun h' r => match r with
                 | Ok next => attempt_written key index next h' /\ op_of next = op_of expected
                 | Err _ => True
                 end) h.
Proof.
  unfold acquireResourceCreateAttempt, bind_wrap at 1. apply wp_bind. unfold GetJSONVersion. wp_ask.
  simpl in a. destruct a as [read|e]; [|done]. rewrite bind_ok_lift.
  destruct (acquire_target expected index read) as [[[[s ci] r] etag]|e] eqn:Et; [|done].
  apply acquire_target_ok in Et as (-> & Hci & Hr & Hp1 & Hp2 & Hp & Hop).
  apply wp_bind. unfold now. wp_ask. apply wp_bind. apply wp_newID. intros h' id [l ->].
  apply wp_bind. unfold PutJSONIfMatch. set (h1 := l ++ _).
  assert (was_read key h1 s etag) as Hread by (apply was_read_app; right; left).
  wp_ask.
  { intros _. exists s. split; [done|].
    apply (step_resource s ci index r _ (State.Resources s) (State.Attempts s)); try done. by apply rs_acquire. }
  simpl in a0. destruct a0 as [[v []]|e]; [|done..]. split; [|by rewrite Hop].
  exists grace, s, ci, r, id, a, etag, v. split_and!; try done. by apply was_read_cons.
Qed.

Lemma attempt_written_at index next h :
  attempt_written key index next h -> exists ci r, resource_at next index = Some (ci, r).
Proof.
  intros (g & s & ci & r & id & t & e & e' & _ & Hci & Hr & _ & _ & ->).
  unfold resource_at. simpl. rewrite list_lookup_insert_eq by (by eapply lookup_lt_Some). simpl. eauto.
Qed.

Lemma wp_post {A} (P : A -> Prop) (p : sdk A) h : safe_post G P p -> wpG p (fun _ => P) h.
Proof. intros Hp. apply Hp. Qed.

Lemma post_create_resource spec op index s r :
  op_of s = Some op -> safe_post G (keeps_op op) (create_resource fuel grace spec key op index s r).
Proof.
  intros Hs. unfold create_resource.
  apply safe_post_any; [by apply safe_free|]. intros [url|e]; [|by apply safe_post_ret].
  intros h. eapply wp_bind_mono; [apply wp_acquire|]. intros h' [next|e] Hw; [|done].
  destruct Hw as [Hw Hop]. rewrite Hs in Hop.
  destruct (attempt_written_at _ _ _ Hw) as (ci & r' & Hat). rewrite Hat.
  assert (CreationIntent.OperationID ci = op) as Hci.
  { unfold resource_at in Hat. unfold op_of in Hop. destruct (State.CreationIntent_ next); [|done].
    simpl in *. destruct (CreationIntent.Resources _ !! _); [|done]. simpl in Hat. injection Hat as -> _.
    by injection Hop. }
  destruct (go_index _ _) as [network|] eqn:En; [|done].
  destruct (ComputeResourceIntent.ReconcileUntil r') as [until|]; [|done].
  apply wp_bind. wp_ask.
  { exists index, next, ci, r'. by split_and!. }
  revert h' Hw. intros h' _. apply wp_post.
  eapply safe_post_bind; [by apply post_confirm_create|]. intros [s1 [e|server]] Hs1; [by apply safe_post_ret|].
  eapply safe_post_bind; [by apply post_attach_or_cleanup|]. intros [s2 [e|u]] Hs2; by apply safe_post_ret.
Qed.

Lemma post_reconcile_network spec op index s r :
  op_of s = Some op -> safe_post G (keeps_op op) (reconcile_network fuel grace spec key op index s r).
Proof.
  intros Hs. unfold reconcile_network. eapply safe_post_bind; [by apply post_locate|].
  intros [s1 [e|found]] Hs1; [by apply safe_post_ret|].
  eapply (safe_post_bind _ (keeps_op op)).
  { destruct found as [server|]; [|by apply post_create_resource].
    destruct (_ == _); [|by apply safe_post_ret].
    eapply safe_post_bind; [by apply post_attach_or_cleanup|]. intros [s2 [e|u]] Hs2; by apply safe_post_ret. }
  intros [s2 [e|server]] Hs2; [by apply safe_post_ret|].
  destruct (resource_at s2 index) as [[ci r']|]; [|by apply safe_post_ret].
  apply safe_post_any; [by apply safe_free|]. intros [active|waitErr].
  - eapply safe_post_bind; [apply post_persisted, activate_ok|]. intros [s3|e] Hs3; [by apply safe_post_ret|]. post_tac.
  - destruct (negb _); [by apply post_recorded|]. apply safe_post_any; [auto with safe|].
    intros [u|e]; [|by apply safe_post_ret].
    eapply safe_post_bind; [apply post_persisted, exhaust_ok|]. intros [s3|e] Hs3; by apply safe_post_ret.
Qed.

Lemma post_reconcile_networks n spec op index s :
  op_of s = Some op -> safe_post G (keeps_op op) (reconcile_networks fuel grace n spec key op index s).
Proof.
  revert s. induction n as [|n IH]; intros s Hs; cbn [reconcile_networks];
    (destruct (resource_at s index) as [[ci r]|]; [|by apply safe_post_ret]);
    (destruct (_ <? _); [|by apply safe_post_ret]); [by apply safe_post_ret|].
  eapply safe_post_bind; [by apply post_reconcile_network|].
  intros [s1 [e|[]]] Hs1; [by apply safe_post_ret..|]. by apply IH.
Qed.

Lemma post_reconcile_resource spec op index s :
  op_of s = Some op -> safe_post G (keeps_op op) (reconcile_resource fuel grace spec key op s index).
Proof.
  intros Hs. unfold reconcile_resource. destruct (resource_at s index) as [[ci r]|]; [|by apply safe_post_ret].
  destruct (_ == _); [by apply safe_post_ret|].
  eapply safe_post_bind; [by apply post_reconcile_networks|]. intros [s1 [e|u]] Hs1; [by apply safe_post_ret|].
  destruct (resource_at s1 index) as [[ci1 r1]|]; [|by apply safe_post_ret].
  destruct (_ != _); [by apply safe_post_ret|]. apply safe_post_any; [auto with safe|]. intros [u'|e].
  - eapply safe_post_bind; [apply post_persisted, prove_ok|]. intros [s2|e] Hs2; by apply safe_post_ret.
  - eapply safe_post_bind; [by apply post_recordCreationFailure|]. intros [s2 o] Hs2. by apply safe_post_ret.
Qed.

Lemma safe_reconcileCreation spec s : safe G (reconcileCreation fuel grace spec key s).
Proof.
  unfold reconcileCreation. destruct (State.CreationIntent_ s) as [ci|] eqn:Eci; [|apply safe_ret].
  assert (op_of s = Some (CreationIntent.OperationID ci)) as Hs by (unfold op_of; by rewrite Eci).
  clear Eci. revert s Hs. generalize (CreationIntent.OperationID ci) as op.
  induction (seqZ 0 _) as [|i l IH]; intros op s Hs; cbn [reconcile_resources].
  - apply safe_bind; [|intros a; apply safe_ret]. unfold persistCreationReady.
    eapply safe_post_safe. apply (post_persisted op (-1) EmptyString). apply finish_creation_ok.
  - intros h. eapply wp_bind_mono; [by apply post_reconcile_resource|].
    intros h' [s' [e|u]] Hs'; [done|]. by apply (IH op s').
Qed.

End Apply.

(** ** Apply *)
Lemma stateKey_receipt spec rest : base (spec_prefix spec) +:+ "/receipts/" +:+ rest <> stateKey spec.
Proof. unfold stateKey. intros Heq. apply append_inj_l in Heq. discriminate. Qed.

Lemma wp_createIntent spec read h :
  match read with
  | Some (s, etag) => was_read key h s etag /\ State.Phase s = "destroyed"
  | None => True
  end ->
  wpG (createIntent spec key (bool_decide (is_Some read)) (match read with Some (_, etag) => etag | None => EmptyString end))
    (fun _ _ => True) h.
Proof.
  intros Hread. unfold createIntent, bind_ok. apply wp_bind. wp_ask. simpl in a.
  destruct a as [[[shape imageID] networkIDs]|e]; [|done].
  unfold createResolvedIntent. apply wp_bind, wp_newID. intros h' opID [l ->].
  apply wp_bind. unfold now. wp_ask. unfold bind_wrap. apply wp_bind.
  destruct read as [[s etag]|]; simpl.
  - destruct Hread as [Hr Hp]. split; [|by intros [[v []]|e] _]. intros _. exists s. split; [|by apply step_claim].
    right. apply was_read_app. by right.
  - split; [|by intros [[v []]|e] _]. intros _. by apply step_claim.
Qed.

Lemma safe_Plan spec : safe G (Client_Plan spec).
Proof. unfold Client_Plan. safe_tac. by apply safe_free. Qed.

(** The receipt of an Apply is not the document. *)
Definition keeps_receipt (r : option ApplyResult * option error) : Prop :=
  match r.1 with Some res => ApplyResult.ReceiptKey res <> key | None => True end.

Lemma post_Apply fuel grace spec :
  key = stateKey spec -> safe_post G keeps_receipt (Client_Apply fuel grace spec).
Proof.
  intros Hkey. unfold Client_Apply. rewrite <- Hkey. apply safe_post_any; [auto with safe|]. intros started.
  destruct (Spec_Validate spec) as [u|e]; [|by apply safe_post_ret].
  apply post_read_cas. intros h [read|e] Hr; [|done]. cbv zeta.
  destruct (match read with Some _ => _ | None => _ end); [done|].
  destruct (_ && _ && _); [done|].
  eapply wp_bind_mono; [apply wp_history, safe_wp, safe_Plan|].
  intros h1 [plan|e] [_ [l ->]]; [|done].
  eapply wp_bind_mono with (P := fun _ _ => True).
  { destruct read as [[prior etag]|].
    - destruct (_ == _) eqn:Ep; [|done]. bool_inv.
      apply (wp_createIntent spec (Some (prior, etag))). split; [by apply was_read_app|done].
    - apply (wp_createIntent spec None). done. }
  intros h2 [s|e] _; [|done]. eapply wp_bind_mono; [apply safe_wp, safe_reconcileCreation|]. intros h3 [s' [e|u']] _.
  - apply wp_bind. unfold now. wp_ask. unfold keeps_receipt. simpl. rewrite Hkey. unfold stateKey.
    by destruct (base (spec_prefix spec)).
  - cbv zeta. apply wp_bind. unfold now. wp_ask. apply wp_bind. unfold PutJSON. wp_ask.
    + simpl. rewrite Hkey. apply stateKey_receipt.
    + destruct a0; [|done]. unfold keeps_receipt. simpl. rewrite Hkey. apply stateKey_receipt.
Qed.

Lemma safe_Apply fuel grace spec : key = stateKey spec -> safe G (Client_Apply fuel grace spec).
Proof. intros Hkey. by eapply safe_post_safe, post_Apply. Qed.

(** ** Destroy *)
Lemma destroy_target_ok c e read s etag :
  destroy_target c e read = Ok (s, etag) -> read = Some (s, etag) /\ State.Phase s = "destroying".
Proof.
  unfold destroy_target. destruct read as [[s' e']|]; [|done]. intros Ht. ok_inv. bool_inv. by simplify_eq.
Qed.

Lemma safe_mutateDestroyState c e mutate :
  (forall s, safe_post G (fun r => match r with Ok next => destroy_change s next | Err _ => True end) (mutate s)) ->
  safe G (mutateDestroyState key c e mutate).
Proof.
  intros Hm. unfold mutateDestroyState. induction retry_limit as [|n IH]; cbn [mutate_destroy]; [apply safe_ret|].
  unfold bind_ok at 1. apply safe_read_cas. intros h [read|err] Hr; [|done]. rewrite bind_ok_lift.
  destruct (destroy_target c e read) as [[s etag]|err] eqn:Et; [|done].
  apply destroy_target_ok in Et as [-> Hp]. unfold bind_ok at 1.
  eapply wp_bind_mono; [apply wp_history, Hm|]. intros h' [next|err] [Hc [l ->]]; [|done].
  apply (wp_cas _ s); [by apply was_read_app|by apply step_destroy|].
  intros h' [[v []]|err]; [done|apply IH|done].
Qed.

Lemma safe_mutate_now c e f :
  (forall s next, f s = Ok next -> destroy_change s next) -> safe G (mutate_now key c e f).
Proof.
  intros Hf. unfold mutate_now. apply safe_mutateDestroyState. intros s. apply safe_post_ret.
  destruct (f s) eqn:E; [by apply Hf|done].
Qed.

Lemma safe_destroy_escalate c e s cause : safe G (destroy_escalate key c e s cause).
Proof.
  unfold destroy_escalate. apply safe_bind; [|intros a; apply safe_ret].
  apply safe_mutate_now. intros s0 next [= <-]. apply dc_escalate.
Qed.
Hint Resolve safe_destroy_escalate : safe.

Section Destroy.
Context (visit : forall A, list A -> list A).

Lemma safe_delete_servers l : safe G (delete_servers l).
Proof. induction l as [|x l IH]; cbn [delete_servers]; safe_tac. Qed.

Lemma safe_owned spec op r : safe G (ownedServersForDestroy visit spec op r).
Proof. unfold ownedServersForDestroy. safe_tac. Qed.
Hint Resolve safe_delete_servers safe_owned : safe.

Lemma safe_destroy_resources spec c e l s : safe G (destroy_resources visit spec key c e l s).
Proof.
  revert s. induction l as [|i l IH]; intros s; cbn [destroy_resources]; [apply safe_ret|].
  apply safe_bind; [|intros [s' [err|]]; [apply safe_ret|apply IH]].
  unfold destroy_resource. safe_tac. apply safe_mutate_now. intros s0 next Hn. by eapply dc_resource.
Qed.

Lemma safe_destroy_policies c e l s : safe G (destroy_policies key c e l s).
Proof.
  revert s. induction l as [|p l IH]; intros s; cbn [destroy_policies]; [apply safe_ret|]. cbv zeta.
  apply safe_bind; [by apply safe_free|]. intros [u|err]; [|auto with safe].
  apply safe_bind; [|intros [s'|err]; [apply IH|apply safe_ret]].
  apply safe_mutate_now. intros s0 next [= <-]. apply dc_policy.
Qed.

Lemma safe_and_then p k : safe G p -> (forall s, safe G (k s)) -> safe G (and_then p k).
Proof. intros Hp Hk. unfold and_then. apply safe_bind; [done|]. intros [s [err|]]; [apply safe_ret|apply Hk]. Qed.

Lemma safe_finish_destroy spec c e s : key = stateKey spec -> safe G (finish_destroy spec key c e s).
Proof.
  intros Hkey. unfold finish_destroy. apply safe_bind.
  { apply safe_mutateDestroyState. intros s0. apply safe_post_any; [auto with safe|]. intros t.
    apply safe_post_ret. apply dc_done. }
  intros [s'|err]; [|apply safe_ret]. safe_tac. apply safe_PutJSON. rewrite Hkey.
  change ("/receipts/destroy-" +:+ ?x) with ("/receipts/" +:+ ("destroy-" +:+ x)). apply stateKey_receipt.
Qed.

Lemma safe_destroy_exposure c e s : safe G (destroy_exposure key c e s).
Proof.
  unfold destroy_exposure. safe_tac. apply safe_mutate_now. intros s0 next Hn. by apply dc_exposure.
Qed.

Lemma safe_destroy_fenced spec c e s : key = stateKey spec -> safe G (destroy_fenced visit spec key c e s).
Proof.
  intros Hkey. unfold destroy_fenced.
  assert (safe G (policies_to_delete s)) as Hp by (unfold policies_to_delete; safe_tac; by apply safe_free).
  safe_tac; repeat (apply safe_and_then; [|intros ?]);
    auto using safe_destroy_resources, safe_destroy_policies, safe_destroy_exposure, safe_finish_destroy.
Qed.

Lemma safe_Destroy spec : key = stateKey spec -> safe G (Client_Destroy visit spec).
Proof.
  intros Hkey. unfold Client_Destroy. rewrite <- Hkey. destruct (Spec_Validate spec) as [u|e]; [|apply safe_ret].
  apply safe_read_cas. intros h [[[s etag]|]|e] Hr; [|done..].
  destruct (_ != sandbox_of spec); [done|]. destruct (_ == "destroyed") eqn:Ed; [done|].
  eapply wp_bind_mono with (P := fun _ _ => True).
  { destruct (_ != "destroying") eqn:Ep; [|done]. bool_inv. unfold bind_wrap.
    apply (wp_cas _ s); [done|by apply step_destroying|]. by intros h' [[v []]|e]. }
  intros h' [s'|e] _; [|done]. eapply wp_bind_mono; [by apply safe_wp, safe_destroy_fenced|]. by intros h2 [s2 err] _.
Qed.
End Destroy.

(** ** Exposure *)
Lemma exposure_target_ok op read s ei etag :
  exposure_target op read = Ok (s, ei, etag) -> read = Some (s, etag) /\ State.ExposureIntent_ s = Some ei.
Proof.
  unfold exposure_target. destruct read as [[s' e']|]; [|done].
  destruct (State.ExposureIntent_ s') as [ei'|] eqn:E; [|done]. intros Ht. ok_inv. by simplify_eq.
Qed.

Lemma safe_mutateExposureState op mutate :
  (forall s ei next, State.ExposureIntent_ s = Some ei -> mutate s ei = Ok (Some next) -> sandbox_step (Some s) next) ->
  safe G (mutateExposureState key op mutate).
Proof.
  intros Hm. unfold mutateExposureState. induction retry_limit as [|n IH]; cbn [mutate_exposure]; [apply safe_ret|].
  unfold bind_ok at 1. apply safe_read_cas. intros h [read|err] Hr; [|done]. rewrite bind_ok_lift.
  destruct (exposure_target op read) as [[[s ei] etag]|err] eqn:Et; [|done].
  apply exposure_target_ok in Et as [-> Hei]. rewrite bind_ok_lift.
  destruct (mutate s ei) as [[next|]|err] eqn:Em; [|done|done].
  apply (wp_cas _ s); [done|by eapply Hm|]. intros h' [[v []]|err]; [done|apply IH|done].
Qed.

Lemma complete_ok op policy rec s ei next :
  State.ExposureIntent_ s = Some ei -> complete op policy rec s ei = Ok (Some next) -> sandbox_step (Some s) next.
Proof.
  intros Hei. unfold complete. cbv zeta. intros Hc. ok_inv. apply orb_false_iff in H0 as [H1 H2].
  assert (State.Phase s = "ready" \/ State.Phase s = "escalated" /\ ExposureIntent.Phase ei = "escalated" /\
          ExposureIntent.MutationUnresolved ei = true) as Hphase.
  { destruct (rec && _ && _ && _) eqn:Er; [right; by bool_inv|left]. simpl in H1. by bool_inv. }
  destruct (existsb _ _); ok_inv.
  - destruct (ExposureIntent.Phase ei == "ready"); [done|]. injection Hc as <-.
    apply (step_exposed s ei (State.NetworkPolicies s) (State.Phase s)); auto.
  - subst. apply (step_exposed s ei _ "ready"); auto.
Qed.

Lemma safe_claim_exposure_cleanup n op : safe G (claim_exposure_cleanup n key op).
Proof.
  induction n as [|n IH]; cbn [claim_exposure_cleanup]; [apply safe_ret|].
  unfold bind_ok at 1. apply safe_read_cas. intros h [read|e] Hr; [|done].
  destruct (exposure_cleanup_target op read) as [[next etag]|] eqn:Et; [|done].
  unfold exposure_cleanup_target in Et. destruct read as [[s e]|]; [|done].
  destruct (State.ExposureIntent_ s) as [ei|] eqn:Ei; [|done]. destruct (_ || _) eqn:Ec; [done|].
  injection Et as <- <-. bool_inv.
  apply (wp_cas _ s); [done|by apply step_expose_cleanup|]. intros h' [[v []]|e']; [done|apply IH|done].
Qed.

Lemma safe_record_exposure_cleanup n op id err : safe G (record_exposure_cleanup n key op id err).
Proof.
  induction n as [|n IH]; cbn [record_exposure_cleanup]; [apply safe_ret|].
  unfold bind_ok at 1. apply safe_read_cas. intros h [read|e] Hr; [|done]. rewrite bind_ok_lift.
  destruct (exposure_cleaned op id err read) as [[next etag]|e] eqn:Et; [|done].
  unfold exposure_cleaned in Et. destruct read as [[s e]|]; [|done].
  destruct (State.ExposureIntent_ s) as [ei|] eqn:Ei; [|done]. ok_inv. bool_inv. subst.
  apply (wp_cas _ s); [done| |intros h' [[v []]|e']; [done|apply IH|done]].
  destruct err as [e'|].
  - eapply (step_expose_cleaned s ei); try done. by right.
  - apply (step_expose_cleaned s ei _ (removeNetworkPolicy (State.NetworkPolicies s) id) (State.Failure s)); try done.
    by left.
Qed.

Lemma safe_cleanupExposureAfterFence op id : safe G (cleanupExposureAfterFence key op id).
Proof.
  unfold cleanupExposureAfterFence. apply safe_bind_ok; [apply safe_claim_exposure_cleanup|]. intros [].
  - apply safe_bind; [by apply safe_free|]. intros a. apply safe_record_exposure_cleanup.
  - apply safe_ret.
Qed.

Lemma safe_completeExposureMode res op policy rec :
  ApplyResult.ReceiptKey res <> key -> safe G (completeExposureMode key res op policy rec).
Proof.
  intros Hk. unfold completeExposureMode. apply safe_bind.
  { apply safe_mutateExposureState. intros *. apply complete_ok. }
  intros [s|e]; safe_tac; auto using safe_cleanupExposureAfterFence, safe_PutJSON.
Qed.

Lemma safe_recordExposureFailure res op cause : safe G (recordExposureFailure key res op cause).
Proof.
  unfold recordExposureFailure. apply safe_bind; [|intros a; apply safe_ret]. apply safe_mutateExposureState.
  intros s ei next _ Hm. unfold exposure_failure in Hm. ok_inv. bool_inv. subst. apply step_note. by right.
Qed.

Lemma safe_escalateExposure res op cause : safe G (escalateExposure key res op cause).
Proof.
  unfold escalateExposure. apply safe_bind; [|intros a; apply safe_ret]. apply safe_mutateExposureState.
  intros s ei next Hei Hm. unfold exposure_escalated in Hm. destruct (_ && _); [by ok_inv|]. ok_inv. bool_inv. subst.
  by apply (step_expose_escalated s ei).
Qed.
Hint Resolve safe_completeExposureMode safe_recordExposureFailure safe_escalateExposure : safe.

Lemma safe_continue_exposure res ei id name own port c r rr :
  ApplyResult.ReceiptKey res <> key -> safe G (continue_exposure key res ei id name own port c r rr).
Proof. intros Hk. unfold continue_exposure, resolve_exposure, completeExposure. safe_tac. Qed.

Lemma safe_exposeSpecTCP spec res rec port name own :
  key = stateKey spec -> ApplyResult.ReceiptKey res <> key -> safe G (exposeSpecTCP spec res rec port name own).
Proof.
  intros Hkey Hk. unfold exposeSpecTCP. rewrite <- Hkey. apply safe_read_cas. intros h [[[s etag]|]|e] Hr; [|done..].
  cbv zeta. destruct (State.Resources s) as [|host []]; [done| |done]. destruct (_ || _) eqn:Ec; [done|].
  destruct (State.ExposureIntent_ s) as [ei|] eqn:Ei.
  - destruct (negb (same_exposure _ _ _ _ _)); apply safe_wp; [apply safe_escalateExposure|by apply safe_continue_exposure].
  - apply wp_bind. unfold now. wp_ask. apply wp_bind, wp_newID. intros h' id [l ->].
    apply (wp_cas _ s); [by apply was_read_app; right| |].
    + bool_inv. rewrite andb_false_r in H0. rewrite andb_true_r in H0. bool_inv. by apply step_expose.
    + intros h2 [[v []]|e]; [apply safe_wp; by apply safe_continue_exposure|done|done].
Qed.

(** ** Standalone servers *)
Lemma safe_vps_state plan : key = stateKey (VPSPlan.Spec_ plan) -> safe G (vps_state plan).
Proof.
  intros Hkey. unfold vps_state, bind_ok at 1. rewrite <- Hkey.
  apply safe_read_cas. intros h [[[s etag]|]|e] Hr; [done| |done].
  unfold createResolvedIntent. apply wp_bind, wp_newID. intros h' opID [l ->].
  apply wp_bind. unfold now. wp_ask. unfold bind_wrap. apply wp_bind. simpl.
  split; [|by intros [[v []]|e] _]. intros _. by apply step_claim.
Qed.

Lemma safe_ApplyVPS fuel grace plan : key = stateKey (VPSPlan.Spec_ plan) -> safe G (ApplyVPS fuel grace plan).
Proof.
  intros Hkey. unfold ApplyVPS. destruct (Spec_Validate _) as [u|e]; [|apply safe_ret].
  apply safe_bind; [by apply safe_vps_state|]. intros [s|e]; [|apply safe_ret].
  destruct (negb _); [apply safe_ret|]. apply safe_bind.
  { unfold resume_vps. destruct (_ == _); [|apply safe_ret]. destruct (validateCreationIntent _ _); [|apply safe_ret].
    rewrite <- Hkey. apply safe_bind; [apply safe_reconcileCreation|]. intros [s' r]. apply safe_ret. }
  intros [s' [e|]]; [apply safe_ret|]. destruct (_ != _); [apply safe_ret|].
  apply safe_bind; [apply safe_exposeSpecTCP; [done|]|intros [r e]; apply safe_ret].
  simpl. rewrite Hkey. unfold stateKey. by destruct (base _).
Qed.

Lemma safe_confirm_gone l : safe G (confirm_gone l).
Proof. induction l as [|r l IH]; cbn [confirm_gone]; safe_tac. Qed.

Lemma safe_destroy_vps visit spec : key = stateKey spec -> safe G (destroy_vps visit spec).
Proof.
  intros Hkey. unfold destroy_vps. apply safe_bind; [by apply safe_Destroy|].
  intros [[s|] [e|]]; try apply safe_ret. apply safe_bind; [apply safe_confirm_gone|]. intros r. apply safe_ret.
Qed.

Lemma safe_DestroyVPS visit plan : key = stateKey (VPSPlan.Spec_ plan) -> safe G (DestroyVPS visit plan).
Proof.
  intros Hkey. unfold DestroyVPS. apply safe_bind; [apply safe_GetOptional|].
  intros [[s|]|e]; [by apply safe_destroy_vps| |apply safe_ret].
  rewrite <- Hkey. apply safe_bind; [|intros [[v []]|e]; [apply safe_ret|by apply safe_destroy_vps|apply safe_ret]].
  unfold PutJSONIfAbsent. intros h. wp_ask; [|done]. simpl. intros _. apply step_tombstone.
Qed.

End Writers.
