(* ===== verification/Concurrency.v ===== *)
(** * Many writers, one document

    Any number of SDK operations run interleaved over one object store.  The
    store is an interface, [StateStore]: compare-and-swap is conditional on the
    etag of the current version, and an etag names one version.  Then the
    document of the sandbox only ever moves along [sandbox_step], and what the
    state machine preserves holds of every reachable document.  What a store
    gives back of a document that was put may be a rounding of it: an encoding
    that replaces what is not valid text. *)

From S2P Require Import Prelude Effects GoStrings Documents SandboxSpec Calls Systems Lifecycle Creation Destruction.
From S2P Require Import Exposure Releases Endpoints Vps Machine Writers.
From stdpp Require Import relations.

(** ** The store as its clients see it *)
(** What one call may do to the object at [key]; a write that answers an error
    may have been applied. *)
Inductive store_change (round : State -> State) (key : string) : sdk_call -> option (State * string) -> option (State * string) -> Prop :=
  | change_none c before : store_change round key c before before
  | change_match etag next s etag' :
      store_change round key (M1PutJSONIfMatch KState key etag next) (Some (s, etag)) (Some (round next, etag'))
  | change_absent next etag' : store_change round key (M1PutJSONIfAbsent KState key next) None (Some (round next, etag'))
  | change_blind c before after :
      match c with
      | M1PutJSON _ k _ | M1Put k _ _ | M1Delete k => k = key
      | M1PutJSONIfMatch k' k _ _ | M1PutJSONIfAbsent k' k _ => k = key /\ k' <> KState
      | _ => False
      end -> store_change round key c before after.

Class RoundingStore (round : State -> State) {S : Type} (handler : S -> forall c, answer c * S) (key : string) : Type := {
  stored : S -> option (State * string);
  version : S -> string -> State -> Prop;
  version_unique st etag s1 s2 : version st etag s1 -> version st etag s2 -> s1 = s2;
  version_stored st s etag : stored st = Some (s, etag) -> version st etag s;
  version_later st c r st' etag s : handler st c = (r, st') -> version st etag s -> version st' etag s;
  read_version st s etag st' :
    handler st (M1GetJSONVersion KState key) = (Ok (Some (s, etag)), st') -> version st etag s;
  call_change st c r st' :
    (forall etag next, c = M1PutJSONIfMatch KState key etag next -> exists s, version st etag s) ->
    handler st c = (r, st') -> store_change round key c (stored st) (stored st')
}.
(** A store that gives back what was put. *)
Abbreviation StateStore := (RoundingStore (fun s => s)).

Definition rounded_step `{Unicode} (round : State -> State) (d d' : option State) : Prop :=
  exists s, d' = Some (round s) /\ sandbox_step d s.
Definition doc_step `{Unicode} (d d' : option State) : Prop :=
  exists s, d' = Some s /\ sandbox_step d s.

Section Pool.
Context `{Unicode} {round : State -> State} {S : Type} (handler : S -> forall c, answer c * S) (key : string).
Context `{!RoundingStore round handler key}.

Definition document (st : S) : option State := fst <$> stored st.

Notation G := (write_guard key).

(** A thread that has only read existing versions and goes on being safe. *)
Definition thread_ok {A} (st : S) (t : thread answer A) : Prop :=
  wp (fun _ _ _ => True) G (th_prog t) (fun _ _ => True) (th_history t) /\
  forall s etag, was_read key (th_history t) s etag -> version st etag s.

Lemma thread_ok_later {A} st c r st' (t : thread answer A) :
  handler st c = (r, st') -> thread_ok st t -> thread_ok st' t.
Proof. intros Hh [Hwp Hr]. split; [done|]. intros s etag Hs. eapply version_later; eauto. Qed.

Lemma call_doc_step h st c r st' :
  handler st c = (r, st') -> G h c -> (forall s etag, was_read key h s etag -> version st etag s) ->
  document st' = document st \/ rounded_step round (document st) (document st').
Proof.
  intros Hh Hg Hr. unfold document. assert (store_change round key c (stored st) (stored st')) as Hc.
  { apply (call_change st c r st'); [|done]. intros etag next ->. destruct (Hg eq_refl) as (s & Hs & _).
    exists s. by apply Hr. }
  inversion Hc as [c' b E1 E2 E3|etag next s etag' E1 E2 E3|next etag' E1 E2 E3|c' b a Hblind E1 E2 E3]; subst.
  - left. congruence.
  - right. simpl in *. destruct (Hg eq_refl) as (s' & Hs' & Hstep). exists next. split; [done|].
    assert (s' = s) as ->; [|done]. eapply version_unique; [by apply Hr|]. by apply version_stored.
  - right. exists next. split; [done|]. by apply Hg.
  - exfalso. clear Hh Hc. destruct c; simpl in *; try done; try (destruct k); naive_solver.
Qed.

Lemma event_transport (P : forall c, answer c -> Prop) (e1 e2 : event answer) :
  e1 = e2 -> P (ev_call e1) (ev_answer e1) -> P (ev_call e2) (ev_answer e2).
Proof. by intros ->. Qed.

Definition pool_ok {A} (start : option State) (x : list (thread answer A) * S) : Prop :=
  Forall (thread_ok x.2) x.1 /\ rtc (rounded_step round) start (document x.2).

Lemma pool_ok_step {A} start (x y : list (thread answer A) * S) :
  pool_ok start x -> pool_step handler x y -> pool_ok start y.
Proof.
  intros [Hts Hp] Hstep. destruct Hstep as [ts i c k h st r st' Hi Hh]. simpl in *.
  rewrite Forall_forall in Hts.
  pose proof (Hts _ (list_elem_of_lookup_2 _ _ _ Hi)) as [[Hg Hk] Hr]. split; simpl.
  - apply Forall_forall. intros t Ht. apply list_elem_of_lookup in Ht as [j Hj].
    apply list_lookup_insert_Some in Hj as [(-> & <- & _)|[_ Hj]].
    + split; simpl; [by apply Hk|]. intros s etag Hs. apply elem_of_cons in Hs as [Hs|Hs].
      * eapply version_later; [exact Hh|]. eapply read_version.
        exact (event_transport (fun c r => handler st c = (r, st')) _ _ (eq_sym Hs) Hh).
      * eapply version_later; eauto.
    + eapply thread_ok_later; [exact Hh|]. apply Hts. by eapply list_elem_of_lookup_2.
  - destruct (call_doc_step h st c r st' Hh Hg Hr) as [->|Hd]; [done|]. eapply rtc_r; eauto.
Qed.

Lemma pool_path {A} (progs : list (sdk A)) st ts st' :
  Forall (safe G) progs ->
  rtc (pool_step handler) ((fun p => Thread p []) <$> progs, st) (ts, st') ->
  rtc (rounded_step round) (document st) (document st').
Proof.
  intros Hsafe Hrtc.
  enough (pool_ok (document st) (ts, st')) as [_ Hp] by exact Hp.
  eapply pool_invariant; [|intros; by eapply pool_ok_step|exact Hrtc].
  split; [|done]. apply Forall_fmap. eapply Forall_impl; [exact Hsafe|].
  intros p Hp. split; [apply Hp|]. intros s etag Hs. by apply elem_of_nil in Hs.
Qed.
End Pool.

(** ** What every step of the machine preserves *)
Section Invariants.
Context `{Unicode}.

(** The identity of a creation operation: what no step may change. *)
Definition resource_identity (r : ComputeResourceIntent) : Z * string * string :=
  (ComputeResourceIntent.Replica r, ComputeResourceIntent.Name r, ComputeResourceIntent.ProofKey r).

Definition creation_identity (ci : CreationIntent) :=
  (CreationIntent.OperationID ci, CreationIntent.DesiredClass ci, CreationIntent.DesiredImage ci,
   CreationIntent.ShapeID ci, CreationIntent.ImageID ci, CreationIntent.NetworkIDs ci, CreationIntent.CreatedAt ci,
   resource_identity <$> CreationIntent.Resources ci).

Definition identity (s : State) := (State.Sandbox s, creation_identity <$> State.CreationIntent_ s).

(** The resources whose server was destroyed for good. *)
Definition destroyed_at (s : State) (i : nat) : Prop :=
  exists ci r, State.CreationIntent_ s = Some ci /\ CreationIntent.Resources ci !! i = Some r /\
    phase_of r = "destroyed".

Lemma resource_step_identity r r' : resource_step r r' -> resource_identity r' = resource_identity r.
Proof. by destruct 1. Qed.

Lemma identity_insert ci i r r' :
  CreationIntent.Resources ci !! i = Some r -> resource_identity r' = resource_identity r ->
  creation_identity (CreationIntent.with_Resources (<[i := r']> (CreationIntent.Resources ci)) ci) =
  creation_identity ci.
Proof.
  intros Hr Hid. unfold creation_identity. simpl. rewrite list_fmap_insert, Hid.
  rewrite list_insert_id; [done|]. by rewrite list_lookup_fmap, Hr.
Qed.

Lemma set_resource_identity s ci index r r' (f : State -> State) :
  State.CreationIntent_ s = Some ci -> CreationIntent.Resources ci !! Z.to_nat index = Some r ->
  resource_identity r' = resource_identity r -> State.Sandbox (f s) = State.Sandbox s ->
  identity (set_resource index r' ci (f s)) = identity s.
Proof.
  intros Hci Hr Hid Hs. unfold identity, set_resource. simpl. rewrite Hci. simpl. f_equal; [done|]. f_equal.
  by eapply identity_insert.
Qed.

(** Changing the phase of an intent that may be absent. *)
Ltac by_intents := unfold identity; simpl; by destruct (State.CreationIntent_ _).

Lemma destroy_change_identity s s' : destroy_change s s' -> identity s' = identity s.
Proof.
  destruct 1 as [cause s|index name s s' Hs|id s|s s' Hs|t s].
  - by_intents.
  - unfold resource_destroyed in Hs. destruct (State.CreationIntent_ s) as [ci|] eqn:Eci; [|done].
    destruct (CreationIntent.Resources ci !! _) as [r|] eqn:Er; [|done]. injection Hs as <-.
    by apply (set_resource_identity s ci index r _ (fun s => s)).
  - done.
  - unfold exposure_destroyed in Hs. destruct (State.ExposureIntent_ s); [|done]. by injection Hs as <-.
  - by_intents.
Qed.

Lemma step_identity s s' :
  sandbox_step (Some s) s' -> State.Phase s <> "destroyed" -> identity s' = identity s.
Proof.
  intros Hstep Hp. inversion Hstep; subst; clear Hstep; try done.
  - apply (set_resource_identity s ci index r r' (State.with_Attempts attempts)); try done.
    by apply resource_step_identity.
  - unfold identity. simpl. match goal with Hc : State.CreationIntent_ s = _ |- _ => by rewrite Hc end.
  - by apply (set_resource_identity s ci index r _ (State.with_Phase "cleanup")).
  - by apply (set_resource_identity s ci index r _ (State.with_Phase "escalated")).
  - by_intents.
  - by apply destroy_change_identity.
Qed.

Lemma destroyed_set_resource s s' ci index r r' i :
  State.CreationIntent_ s = Some ci -> CreationIntent.Resources ci !! Z.to_nat index = Some r ->
  phase_of r <> "destroyed" \/ phase_of r' = "destroyed" ->
  destroyed_at s i -> destroyed_at (set_resource index r' ci s') i.
Proof.
  intros Hci Hr Hp (ci0 & r0 & Hci0 & Hr0 & Hd). rewrite Hci in Hci0. injection Hci0 as <-.
  unfold destroyed_at. simpl. destruct (decide (Z.to_nat index = i)) as [<-|Hne].
  - rewrite Hr in Hr0. injection Hr0 as <-. destruct Hp as [|Hp]; [done|]. exists (CreationIntent.with_Resources
      (<[Z.to_nat index := r']> (CreationIntent.Resources ci)) ci), r'. split_and!; [done| |done].
    simpl. apply list_lookup_insert_eq. by eapply lookup_lt_Some.
  - exists (CreationIntent.with_Resources (<[Z.to_nat index := r']> (CreationIntent.Resources ci)) ci), r0.
    split_and!; [done| |done]. simpl. by rewrite list_lookup_insert_ne.
Qed.

Lemma destroyed_same_intent s s' i :
  (exists f, State.CreationIntent_ s' = f <$> State.CreationIntent_ s /\
             forall ci, CreationIntent.Resources (f ci) = CreationIntent.Resources ci) ->
  destroyed_at s i -> destroyed_at s' i.
Proof.
  intros (f & Hs & Hf) (ci & r & Hci & Hr & Hd). exists (f ci), r. rewrite Hs, Hci, Hf. by split_and!.
Qed.

Lemma destroyed_kept s s' i : State.CreationIntent_ s' = State.CreationIntent_ s -> destroyed_at s i -> destroyed_at s' i.
Proof. intros E. apply destroyed_same_intent. exists id. rewrite E. by destruct (State.CreationIntent_ s). Qed.

Lemma destroyed_phase s s' p i :
  State.CreationIntent_ s' = CreationIntent.with_Phase p <$> State.CreationIntent_ s ->
  destroyed_at s i -> destroyed_at s' i.
Proof. intros E. apply destroyed_same_intent. by exists (CreationIntent.with_Phase p). Qed.

Lemma destroy_change_final s s' i : destroy_change s s' -> destroyed_at s i -> destroyed_at s' i.
Proof.
  destruct 1 as [cause s|index name s s' Hs|id s|s s' Hs|t s].
  - by eapply destroyed_phase.
  - unfold resource_destroyed in Hs. destruct (State.CreationIntent_ s) as [ci|] eqn:Eci; [|done].
    destruct (CreationIntent.Resources ci !! _) as [r|] eqn:Er; [|done]. injection Hs as <-.
    intros Hd. 
    by refine (destroyed_kept _ _ i _ (destroyed_set_resource s s ci index r
      (ComputeResourceIntent.with_Phase "destroyed" r) i Eci Er (or_intror eq_refl) Hd)).
  - by apply destroyed_kept.
  - unfold exposure_destroyed in Hs. destruct (State.ExposureIntent_ s); [|done]. injection Hs as <-.
    by apply destroyed_kept.
  - by eapply destroyed_phase.
Qed.

Lemma step_destroyed_final s s' i :
  sandbox_step (Some s) s' -> State.Phase s <> "destroyed" -> destroyed_at s i -> destroyed_at s' i.
Proof.
  assert (forall p, p <> "destroyed" -> forall r, phase_of r = p -> phase_of r <> "destroyed") as Hne by congruence.
  intros Hstep Hp Hd.
  inversion Hstep as [| | s0 ci index r r' res att Hci _ _ Hr Hrs | s0 ci p f Hci _ _ _ | | s0 ci index r id Hci _ Hr Hnd
    | s0 ci index r p res f Hci _ Hr Hc | | s0 s1 _ Hdc | | | | | ]; subst; clear Hstep; try done;
    try (by eapply destroyed_kept; [|exact Hd]).
  - assert (phase_of r <> "destroyed") as Hnd by (destruct Hrs as [? ? ? ? E|? ? E|? E|? [E|E]|? E]; by rewrite E).
    by refine (destroyed_kept _ _ i _ (destroyed_set_resource s s ci index r r' i Hci Hr (or_introl Hnd) Hd)).
  - eapply destroyed_phase; [|exact Hd]. simpl. by rewrite Hci.
  - by apply (destroyed_set_resource s _ ci index r _ i Hci Hr (or_introl Hnd)).
  - refine (destroyed_kept _ _ i _ (destroyed_set_resource s s ci index r
      (ComputeResourceIntent.with_Phase p r) i Hci Hr (or_introl _) Hd)); [done|].
    by rewrite Hc.
  - by eapply destroyed_phase.
  - by eapply destroy_change_final.
Qed.

(** ** Phases *)
Definition intent_of (s : State) : option string := CreationIntent.Phase <$> State.CreationIntent_ s.

(** Where the phase of the document and of its creation intent agree. *)
Definition agree (p : string) (s : State) : Prop :=
  (State.Phase s = p -> intent_of s = None \/ intent_of s = Some p) /\ (intent_of s = Some p -> State.Phase s = p).

Record wf_state (s : State) : Prop := {
  wf_phase : State.Phase s ∈ ["creating"; "ready"; "failed"; "escalated"; "cleanup"; "destroying"; "destroyed"];
  wf_agree_creating : agree "creating" s;
  wf_agree_destroying : agree "destroying" s;
  wf_agree_destroyed : agree "destroyed" s;
  wf_creating : State.Phase s = "creating" -> intent_of s <> None /\ State.ExposureIntent_ s = None
}.

(** Case analysis on the phases of a list. *)
Ltac by_phases :=
  intros; repeat match goal with
  | Hin : _ ∈ _ :: _ |- _ => apply elem_of_cons in Hin as [?|Hin]
  | Hin : _ ∈ [] |- _ => by apply elem_of_nil in Hin
  | Hor : _ \/ _ |- _ => destruct Hor
  end; subst; try congruence; naive_solver congruence.

(** [wf_state] from the new phase [p] and intent phase [q]. *)
Lemma wf_of s p q :
  State.Phase s = p -> intent_of s = q ->
  p ∈ ["creating"; "ready"; "failed"; "escalated"; "cleanup"; "destroying"; "destroyed"] ->
  (forall x, x ∈ ["creating"; "destroying"; "destroyed"] -> (p = x -> q = None \/ q = Some x) /\ (q = Some x -> p = x)) ->
  (p = "creating" -> q <> None /\ State.ExposureIntent_ s = None) -> wf_state s.
Proof. intros <- <- Hp Hx Hc. split; try done; apply Hx; set_solver. Qed.

Lemma wf_agree s x :
  wf_state s -> x ∈ ["creating"; "destroying"; "destroyed"] -> agree x s.
Proof. intros [] Hx. by_phases. Qed.

(** A step that keeps both phases and does not expose a creating document. *)
Lemma wf_same s s' :
  State.Phase s' = State.Phase s -> intent_of s' = intent_of s ->
  (State.Phase s = "creating" -> State.ExposureIntent_ s' = State.ExposureIntent_ s) -> wf_state s -> wf_state s'.
Proof.
  intros Hp Hi He Hw. apply (wf_of _ _ _ Hp Hi); [apply Hw|intros x Hx; by apply wf_agree|].
  intros Hc. rewrite (He Hc). by apply Hw.
Qed.

(** A step to an inert phase that keeps the intent's phase, itself inert. *)
Lemma wf_inert s p q :
  State.Phase s = p -> intent_of s = q -> p ∈ ["ready"; "failed"; "escalated"; "cleanup"] ->
  (forall x, x ∈ ["creating"; "destroying"; "destroyed"] -> q <> Some x) -> wf_state s.
Proof.
  intros Hp Hq Hin Hx. apply (wf_of _ _ _ Hp Hq); [set_solver| |by_phases].
  intros x Hxin. split; [by_phases|]. intros E. by destruct (Hx x Hxin).
Qed.

Lemma intent_inert s :
  wf_state s -> State.Phase s ∈ ["ready"; "failed"; "escalated"; "cleanup"] ->
  forall x, x ∈ ["creating"; "destroying"; "destroyed"] -> intent_of s <> Some x.
Proof.
  intros Hw Hp x Hx Hi. destruct (wf_agree s x Hw Hx) as [_ Hag]. apply Hag in Hi. by_phases.
Qed.

(** A step that gives the document and its intent the same phase. *)
Lemma wf_both s p :
  State.Phase s = p -> intent_of s = None \/ intent_of s = Some p -> p <> "creating" ->
  p ∈ ["ready"; "failed"; "escalated"; "cleanup"; "destroying"; "destroyed"] -> wf_state s.
Proof.
  intros Hp Hi Hc Hin. apply (wf_of _ _ _ Hp eq_refl); [set_solver| |done].
  intros x Hx. destruct Hi as [-> | ->]; naive_solver.
Qed.

Lemma intent_of_phase p s : intent_of (set_creation_phase p s) = None \/ intent_of (set_creation_phase p s) = Some p.
Proof. unfold intent_of, set_creation_phase. simpl. destruct (State.CreationIntent_ s); auto. Qed.

Lemma destroy_change_wf s s' : State.Phase s = "destroying" -> wf_state s -> destroy_change s s' -> wf_state s'.
Proof.
  intros Hp Hw Hd. destruct Hd as [cause s|index name s s' Hs|id s|s s' Hs|t s].
  - apply (wf_both _ "escalated"); [done|apply intent_of_phase|done|set_solver].
  - unfold resource_destroyed in Hs. destruct (State.CreationIntent_ s) as [ci|] eqn:Eci; [|done].
    destruct (CreationIntent.Resources ci !! _) as [r|] eqn:Er; [|done]. injection Hs as <-.
    apply (wf_same s); try done. unfold intent_of. simpl. by rewrite Eci.
  - by apply (wf_same s).
  - unfold exposure_destroyed in Hs. destruct (State.ExposureIntent_ s); [|done]. injection Hs as <-.
    apply (wf_same s); try done. by rewrite Hp.
  - apply (wf_both _ "destroyed"); [done|apply intent_of_phase|done|set_solver].
Qed.

Lemma step_wf d s' : (forall s, d = Some s -> wf_state s) -> sandbox_step d s' -> wf_state s'.
Proof.
  intros Hd Hstep. destruct d as [s|].
  2:{ inversion Hstep; subst; [|by apply (wf_both _ "destroyed"); [..|set_solver]; auto]. apply (wf_of _ "creating" (Some "creating")); try done; [set_solver|]. naive_solver. }
  specialize (Hd s eq_refl).
  inversion Hstep as [ | | s0 ci index r r' res att Hci Hp _ Hr Hrs | s0 ci p f Hci Hp _ Hend | s0 f Hp
    | s0 ci index r id Hci Hp Hr Hnd | s0 ci index r p res f Hci Hp Hr Hc | | s0 s1 Hp Hdc | s0 ei Hp _ _
    | s0 ei pol p Hei Hp Hp' | s0 ei f Hei Hp _ | s0 ei Hei Hp _ _ | s0 ei ei' pol f Hei Hp _ _];
    subst; clear Hstep.
  - apply (wf_of _ "creating" (Some "creating")); try done; [set_solver|]. naive_solver.
  - apply (wf_same s); try done. unfold intent_of. simpl. by rewrite Hci.
  - apply (wf_both _ p); [done|by right|by destruct Hend|destruct Hend; set_solver].
  - by apply (wf_same s).
  - apply (wf_inert _ "cleanup" (intent_of s)); [done|unfold intent_of; simpl; by rewrite Hci|set_solver|].
    apply intent_inert; [done|]. rewrite Hp. set_solver.
  - apply (wf_inert _ "escalated" (intent_of s)); [done|unfold intent_of; simpl; by rewrite Hci|set_solver|].
    apply intent_inert; [done|]. rewrite Hp. set_solver.
  - apply (wf_both _ "destroying"); [done|apply intent_of_phase|done|set_solver].
  - by apply (destroy_change_wf s).
  - apply (wf_same s); try done. by rewrite Hp.
  - apply (wf_inert _ p (intent_of s)); [done..| |].
    + destruct Hp' as [-> | ->]; [destruct Hp as [-> |[-> _]]|]; set_solver.
    + apply intent_inert; [done|]. destruct Hp as [-> |[-> _]]; set_solver.
  - apply (wf_inert _ "escalated" (intent_of s)); [done..|set_solver|].
    apply intent_inert; [done|]. rewrite Hp. set_solver.
  - apply (wf_inert _ "cleanup" (intent_of s)); [done..|set_solver|].
    apply intent_inert; [done|]. rewrite Hp. set_solver.
  - apply (wf_inert _ "escalated" (intent_of s)); [done..|set_solver|].
    apply intent_inert; [done|]. rewrite Hp. set_solver.
Qed.
End Invariants.

(** ** The operations of the SDK on one sandbox *)
Section Operations.
Context `{Unicode}.

Inductive operation : Type :=
  | OpApply (spec : Spec)
  | OpDestroy (spec : Spec)
  | OpExpose (s : System)
  | OpRecover (s : System)
  | OpBootstrap (s : System) (nodeBinary : string) (gateway : NodeBootstrapConfig)
  | OpApplyVPS (plan : VPSPlan)
  | OpDestroyVPS (plan : VPSPlan).

(** The parameters of the programs: fuel, configuration and codecs. *)
Record settings : Type := Settings {
  set_fuel : nat;
  set_grace : Z;
  set_visit : forall A, list A -> list A;
  set_url : string -> option URL
}.
Context (cfg : settings).

Definition operation_key (op : operation) : string :=
  match op with
  | OpApply spec | OpDestroy spec => stateKey spec
  | OpExpose s | OpRecover s => stateKey (SystemHostSpec s "true")
  | OpBootstrap s _ _ => stateKey (SystemHostSpec s "true")
  | OpApplyVPS plan | OpDestroyVPS plan => stateKey (VPSPlan.Spec_ plan)
  end.

Definition operation_program (op : operation) : sdk unit :=
  match op with
  | OpApply spec => _ ← Client_Apply (set_fuel cfg) (set_grace cfg) spec; Ret tt
  | OpDestroy spec => _ ← Client_Destroy (set_visit cfg) spec; Ret tt
  | OpExpose s => _ ← ExposeSystemHost s; Ret tt
  | OpRecover s => _ ← RecoverSystemHostExposure s; Ret tt
  | OpBootstrap s nodeBinary gateway =>
      _ ← BootstrapSystemHostViaGateway (set_fuel cfg) (set_url cfg) (set_grace cfg) s nodeBinary gateway; Ret tt
  | OpApplyVPS plan => _ ← ApplyVPS (set_fuel cfg) (set_grace cfg) plan; Ret tt
  | OpDestroyVPS plan => _ ← DestroyVPS (set_visit cfg) plan; Ret tt
  end.

Lemma stateKey_nonempty spec : stateKey spec <> EmptyString.
Proof. unfold stateKey. by destruct (base (spec_prefix spec)). Qed.

Lemma safe_expose key s rec res :
  key = stateKey (SystemHostSpec s "true") -> ApplyResult.ReceiptKey res <> key ->
  safe (write_guard key) (exposeSystemHostMode s res rec).
Proof.
  intros Hk Hr. unfold exposeSystemHostMode. destruct (systemPublicPort s) as [port|e]; [|apply safe_ret].
  destruct (systemEndpointPolicyIdentity s) as [name own]. by apply safe_exposeSpecTCP.
Qed.

Lemma safe_refresh key l : safe (write_guard key) (refresh_resources l).
Proof.
  induction l as [|r l IH]; cbn [refresh_resources]; [apply safe_ret|].
  apply safe_bind_ok; [|intros r'; apply safe_bind_ok; [done|intros l'; apply safe_ret]].
  destruct (_ == _); [apply safe_ret|]. apply safe_bind_ok; [apply safe_InspectServer|]. intros v. apply safe_ret.
Qed.

Lemma safe_Status key spec : safe (write_guard key) (Client_Status spec).
Proof.
  unfold Client_Status. cbv zeta. destruct (Spec_Validate spec); [|apply safe_ret].
  apply safe_bind; [apply safe_Get|]. intros [s|e]; [|apply safe_ret].
  repeat (destruct (_ : bool); [apply safe_ret|]).
  apply safe_bind; [apply safe_refresh|]. intros [l|e]; apply safe_ret.
Qed.

(** The other objects of a System are not the document of its host. *)
Lemma host_key_ne s rest :
  HasPrefix rest "/state.json" = false -> system_base s +:+ rest <> stateKey (SystemHostSpec s "true").
Proof.
  unfold stateKey, system_base. change (spec_prefix (SystemHostSpec s "true")) with (prefix_of s).
  intros Hp Heq. apply append_inj_l in Heq. by subst.
Qed.

Lemma safe_Bootstrap fuel url grace s nodeBinary gateway :
  safe (write_guard (stateKey (SystemHostSpec s "true"))) (BootstrapSystemHostViaGateway fuel url grace s nodeBinary gateway).
Proof.
  unfold BootstrapSystemHostViaGateway.
  apply safe_bind_ok; [apply safe_ret|intros u]. apply safe_bind_ok; [apply safe_ret|intros u'].
  destruct (negb _); [apply safe_ret|]. apply safe_bind_ok; [apply safe_ret|intros plan].
  unfold bind_wrap. apply safe_bind; [by apply safe_PutJSON, host_key_ne|]. intros [w|e]; [|apply safe_ret]. cbv zeta.
  apply safe_bind_ok; [unfold Put; intros h; wp_ask; [by apply host_key_ne|done]|intros w'].
  apply safe_bind_ok; [by apply safe_free|intros address].
  apply safe_bind_ok; [apply safe_ret|intros port]. apply safe_bind_ok; [apply safe_ret|intros script].
  change (stateKey (SystemHostSpec s "true")) with (stateKey (SystemHostSpec s script)).
  intros h. eapply wp_bind_mono; [by apply post_Apply|]. intros h' [[res|] [e|]] Hres; try done.
  apply safe_wp. apply safe_bind; [|intros [r o]; apply safe_ret].
  by apply safe_expose.
Qed.

Lemma operation_safe op : safe (write_guard (operation_key op)) (operation_program op).
Proof.
  destruct op as [spec|spec|s|s|s nodeBinary gateway|plan|plan]; cbn [operation_key operation_program]; (apply safe_bind; [|intros x; apply safe_ret]).
  - by apply safe_Apply.
  - by apply safe_Destroy.
  - unfold ExposeSystemHost. apply safe_bind; [apply safe_Status|].
    intros [[st|] [e|]]; try apply safe_ret. apply safe_bind; [|intros [r e]; apply safe_ret].
    apply safe_expose; [done|]. simpl. intros E. by destruct (stateKey_nonempty (SystemHostSpec s "true")).
  - unfold RecoverSystemHostExposure. apply safe_bind; [apply safe_Status|].
    intros [[st|] [e|]]; try apply safe_ret. apply safe_bind; [|intros [r e]; apply safe_ret].
    apply safe_expose; [done|]. simpl. intros E. by destruct (stateKey_nonempty (SystemHostSpec s "true")).
  - apply safe_Bootstrap.
  - by apply safe_ApplyVPS.
  - by apply safe_DestroyVPS.
Qed.
End Operations.

(** ** A concrete store: the versions of one object

    The versions of the document, newest first; the etag of a version is its
    number.  Every other call is answered by [env]. *)
Section Versions.
Context {A : Type}.

Definition bucket_stored (st : list A) : option (A * string) :=
  match st with
  | [] => None
  | s :: older => Some (s, Itoa (Z.of_nat (length older)))
  end.

Definition bucket_version (st : list A) (etag : string) (s : A) : Prop :=
  exists newer older, st = newer ++ s :: older /\ etag = Itoa (Z.of_nat (length older)).

Lemma bucket_stored_version st s etag : bucket_stored st = Some (s, etag) -> bucket_version st etag s.
Proof. destruct st as [|s' st]; [done|]. simpl. intros [= <- <-]. by exists [], st. Qed.

Lemma bucket_version_unique st etag s1 s2 : bucket_version st etag s1 -> bucket_version st etag s2 -> s1 = s2.
Proof.
  intros (n1 & o1 & -> & ->) (n2 & o2 & E & Hl).
  apply Itoa_inj in Hl. assert (length n1 = length n2) as Hn.
  { apply (f_equal length) in E. rewrite !length_app in E. simpl in E. lia. }
  apply app_inj_1 in E as [_ E]; [|done]. by injection E.
Qed.

Lemma bucket_version_later l st etag s : bucket_version st etag s -> bucket_version (l ++ st) etag s.
Proof. intros (n & o & -> & ->). exists (l ++ n), o. by rewrite <- app_assoc. Qed.
End Versions.

Section Bucket.
Context (key : string) (env : forall c, answer c).

Definition bucket_match (st : list State) (etag : string) (next : State) : result (string * bool) * list State :=
  match bucket_stored st with
  | Some (_, etag') => if etag' == etag then (Ok (Itoa (Z.of_nat (length st)), true), next :: st)
                       else (Ok (EmptyString, false), st)
  | None => (Ok (EmptyString, false), st)
  end.

Definition bucket_absent (st : list State) (next : State) : result (string * bool) * list State :=
  match st with
  | [] => (Ok (Itoa 0, true), [next])
  | _ => (Ok (EmptyString, false), st)
  end.

Definition bucket (st : list State) (c : sdk_call) : answer c * list State :=
  match c as c return answer c * list State with
  | M1GetJSONVersion k key' =>
      match k as k return answer (M1GetJSONVersion k key') * list State with
      | KState => (if key' == key then Ok (bucket_stored st) else env (M1GetJSONVersion KState key'), st)
      | k => (env (M1GetJSONVersion k key'), st)
      end
  | M1PutJSONIfMatch k key' etag v =>
      match k as k return doc k -> result (string * bool) * list State with
      | KState => fun v => if key' == key then bucket_match st etag v else (Ok (EmptyString, false), st)
      | _ => fun _ => (Ok (EmptyString, false), st)
      end v
  | M1PutJSONIfAbsent k key' v =>
      match k as k return doc k -> result (string * bool) * list State with
      | KState => fun v => if key' == key then bucket_absent st v else (Ok (EmptyString, false), st)
      | _ => fun _ => (Ok (EmptyString, false), st)
      end v
  | c => (env c, st)
  end.

Lemma bucket_grows st c r st' :
  bucket st c = (r, st') -> exists l, st' = l ++ st.
Proof.
  destruct c; simpl; intros Hb; try (injection Hb as _ <-; by exists []);
    destruct k; try (injection Hb as _ <-; by exists []).
  - unfold bucket_absent in Hb. destruct (_ == _); [|injection Hb as _ <-; by exists []].
    destruct st; injection Hb as _ <-; [by exists [v]|by exists []].
  - unfold bucket_match in Hb. destruct (_ == _); [|injection Hb as _ <-; by exists []].
    destruct (bucket_stored st) as [[s e]|]; [|injection Hb as _ <-; by exists []].
    destruct (_ == _); injection Hb as _ <-; [by exists [v]|by exists []].
Qed.

#[global] Instance bucket_store : StateStore bucket key.
Proof.
  refine {| stored := bucket_stored; version := bucket_version |}.
  - apply bucket_version_unique.
  - apply bucket_stored_version.
  - intros st c r st' etag s Hb. apply bucket_grows in Hb as [l ->]. apply bucket_version_later.
  - intros st s etag st' Hb. simpl in Hb. rewrite bool_decide_true in Hb by done.
    injection Hb as Hb _. by apply bucket_stored_version.
  - intros st c r st' _ Hb. destruct c; simpl in Hb; try (injection Hb as _ <-; constructor);
      destruct k; try (injection Hb as _ <-; constructor).
    + destruct (decide (key0 = key)) as [->|E]; [rewrite bool_decide_true in Hb by done|
        rewrite bool_decide_false in Hb by done; injection Hb as _ <-; constructor].
      unfold bucket_absent in Hb. destruct st; injection Hb as _ <-; constructor.
    + destruct (decide (key0 = key)) as [->|E]; [rewrite bool_decide_true in Hb by done|
        rewrite bool_decide_false in Hb by done; injection Hb as _ <-; constructor].
      unfold bucket_match in Hb. destruct (bucket_stored st) as [[s e]|] eqn:Es; [|injection Hb as _ <-; rewrite Es; constructor].
      destruct (decide (e = etag)) as [->|Ee]; [rewrite bool_decide_true in Hb by done|
        rewrite bool_decide_false in Hb by done; injection Hb as _ <-; rewrite Es; constructor].
      injection Hb as _ <-. constructor.
Defined.
End Bucket.
