(* ===== verification/Provider.v ===== *)
(** * The provider client (internal/provider/compute/client.go)

    An OpenStack client in two layers.  The lower one sends HTTP requests:
    [authenticate], which caches the session of the [Client] under its mutex,
    and [request].  The upper one has the operations of the SDK's interface
    [computeProvider] as programs over [api_call]; [over_http] puts the two
    together.

    Parameters: the parsers of net/url and net, and [Unmarshal], which decodes
    a body into the Go struct of a [reply_kind]. *)

From S2P Require Import Prelude Effects GoStrings Digest Documents Json SandboxSpec Calls Systems Releases Endpoints.

(** ** Data *)
Module config.

Record config : Type := mk {
  AuthURL : string;
  Username : string;
  Password : string;
  ProjectName : string;
  ProjectDomainID : string;
  Region : string
}.

End config.

Module session.

Record session : Type := mk {
  Token : string;
  ComputeURL : string;
  ImageURL : string;
  NetworkURL : string;
  Expires : Z
}.

#[global] Instance session_eq_dec : EqDecision session.
Proof. solve_decision. Defined.

Definition zero : session := mk "" "" "" "" (-62135596800 * 10 ^ 9).

End session.
Abbreviation session := session.session (only parsing).

Module networkPort.

Record networkPort : Type := mk { ID : string; SecurityGroups : list string }.

#[global] Instance networkPort_eq_dec : EqDecision networkPort.
Proof. solve_decision. Defined.

End networkPort.
Abbreviation networkPort := networkPort.networkPort (only parsing).

Module securityRule.

Record securityRule : Type := mk {
  ID : string;
  Direction : string;
  Protocol : string;
  Min : Z;
  Max : Z
}.

#[global] Instance securityRule_eq_dec : EqDecision securityRule.
Proof. solve_decision. Defined.

End securityRule.
Abbreviation securityRule := securityRule.securityRule (only parsing).

Module securityGroup.

Record securityGroup : Type := mk {
  ID : string;
  Name : string;
  Description : string;
  Rules : list securityRule
}.

#[global] Instance securityGroup_eq_dec : EqDecision securityGroup.
Proof. solve_decision. Defined.

Definition zero : securityGroup := mk "" "" "" [].

End securityGroup.
Abbreviation securityGroup := securityGroup.securityGroup (only parsing).

Module image.

Record image : Type := mk { ID : string; Name : string; Status : string }.

End image.
Abbreviation image := image.image (only parsing).

Module network.

Record network : Type := mk { ID : string; Name : string; Status : string; External : bool }.

End network.
Abbreviation network := network.network (only parsing).

(** The service catalog of a token. *)
Record catalog_endpoint : Type := CatalogEndpoint { ep_Interface : string; ep_Region : string; ep_URL : string }.
Record catalog_service : Type := CatalogService { svc_Type : string; svc_Endpoints : list catalog_endpoint }.
Record token_body : Type := TokenBody { ExpiresAt : Z; Catalog : list catalog_service }.

(** A flavor as the list has it. *)
Record flavor : Type := Flavor { fl_ID : string; fl_Name : string; fl_VCPUs : Z; fl_RAM : Z; fl_Disk : Z }.
Definition shapes (fs : list flavor) : list Shape :=
  (fun x => Shape.mk (fl_ID x) (fl_Name x) (fl_VCPUs x) (fl_RAM x) (fl_Disk x)) <$> fs.

(** The structs bodies are decoded into, by the field they consist of. *)
Inductive reply_kind : Type :=
  | RToken | RServers | RFlavors | RImages | RNetworks | RServer | RPorts | RGroups | RGroup | RRule
  | RServerFlavor | RFlavor.

Definition reply (k : reply_kind) : Type :=
  match k with
  | RToken => token_body
  | RServers => list Server
  | RFlavors => list flavor
  | RImages => list image
  | RNetworks => list network
  | RServer => Server
  | RPorts => list networkPort
  | RGroups => list securityGroup
  | RGroup => securityGroup
  | RRule => securityRule
  | RServerFlavor => Shape
  | RFlavor => Z * Z
  end.

(** What the target of a body that is not decoded stays. *)
Definition zero_reply (k : reply_kind) : reply k :=
  match k with
  | RToken => TokenBody (session.Expires session.zero) []
  | RServers | RFlavors | RImages | RNetworks | RPorts | RGroups => []
  | RServer => Server.mk "" "" "" ∅ None []
  | RGroup => securityGroup.zero
  | RRule => securityRule.mk "" "" "" 0 0
  | RServerFlavor => Shape.mk "" "" 0 0 0
  | RFlavor => (0, 0)
  end.

(** The target of a request: [nil], or a struct. *)
Definition target_type (t : option reply_kind) : Type := match t with Some k => reply k | None => unit end.

(** ** HTTP *)
Record http_request : Type := HTTPRequest {
  rq_Method : string;
  rq_URL : string;
  rq_Header : list (string * string);
  rq_Body : option string
}.

(** [rs_Body]: what reading the body to its end yields, and the error it ends
    with, if it is not [io.EOF]. *)
Record http_response : Type := HTTPResponse {
  rs_StatusCode : Z;
  rs_SubjectToken : string;
  rs_Body : string * option error
}.

(** [Do] is [http.NewRequestWithContext] and [c.http.Do]: a client that does not
    follow redirects.  The session is the field of the [Client]. *)
Inductive http_call : Type :=
  | Clock
  | GetSession
  | SetSession (s : session)
  | Do (r : http_request)
  | Sleep.

Definition http_answer (c : http_call) : Type :=
  match c with
  | Clock => Z
  | GetSession => session
  | SetSession _ => unit
  | Do _ => result http_response
  | Sleep => wake
  end.

Abbreviation http := (prog http_answer).

Class Standard : Type := {
  url_Parse : string -> option URL;
  loopback_IP : string -> bool;              (* net.ParseIP(h) != nil && net.ParseIP(h).IsLoopback() *)
  Unmarshal : forall k, string -> result (reply k)
}.

Section Client.
Context `{Unicode} `{Standard}.

Definition maxProviderJSONBody : Z := Z.shiftl 16 20.

(** [io.ReadAll(io.LimitReader(body, n))]. *)
Definition limit_reader (n : Z) (body : string * option error) : string * option error :=
  if n <=? slen body.1 then (take_bytes (Z.to_nat n) body.1, None) else body.

Definition decodeProviderJSON (k : reply_kind) (body : string * option error) : result (reply k) :=
  match limit_reader (maxProviderJSONBody + 1) body with
  | (_, Some e) => Err e
  | (data, None) =>
      reject_if (maxProviderJSONBody <? slen data) (Errorf "compute response exceeded size limit");;
      Unmarshal k data
  end.

(** [errors.As(err, &requestErr)] for a [*url.Error]. *)
Fixpoint url_error (e : error) : option (string * error) :=
  match e with
  | URLError op _ e' => Some (op, e')
  | Wrapf _ e' | WrapfBefore e' _ | AmbiguousManagedResourceError _ _ e' | TransportError _ e' => url_error e'
  | _ => None
  end.

Definition privateTransportError (operation : string) (err : error) : error :=
  match url_error err with
  | Some (op, cause) => TransportError (if op != "" then op else operation) cause
  | None => TransportError operation err
  end.

Definition validProviderURL (raw : string) : bool :=
  match url_Parse raw with
  | None => false
  | Some u =>
      if (url_Hostname u == "") || match url_User u with Some _ => true | None => false end ||
         (url_RawQuery u != "") || (url_Fragment u != "") || (url_Opaque u != "") then false
      else if url_Scheme u == "https" then true
      else (url_Scheme u == "http") && ((url_Hostname u == "localhost") || loopback_IP (url_Hostname u))
  end.

Definition NewFromEnv (getenv : string -> string) : result config.config :=
  let cfg := config.mk (getenv "CANTER_COMPUTE_AUTH_URL") (getenv "CANTER_COMPUTE_USERNAME")
               (getenv "CANTER_COMPUTE_PASSWORD") (getenv "CANTER_COMPUTE_PROJECT")
               (getenv "CANTER_COMPUTE_PROJECT_DOMAIN") (getenv "CANTER_COMPUTE_REGION") in
  reject_if ((config.AuthURL cfg == "") || (config.Username cfg == "") || (config.Password cfg == "") ||
             (config.ProjectName cfg == "") || (config.ProjectDomainID cfg == "") || (config.Region cfg == ""))
    (Errorf "compute credentials are incomplete");;
  reject_if (negb (validProviderURL (config.AuthURL cfg)))
    (Errorf "compute auth URL must be an HTTPS URL without credentials, query, or fragment");;
  Ok cfg.

(** ** Authentication *)
Context (cfg : config.config).

(** The maps of the payload, with the sorted keys [json.Marshal] gives them. *)
Definition auth_payload : json :=
  JObject [("auth", JObject [
    ("identity", JObject [
      ("methods", strings_json ["password"]);
      ("password", JObject [("user", JObject [
        ("domain", JObject [("id", JString "default")]);
        ("name", JString (config.Username cfg));
        ("password", JString (config.Password cfg))])])]);
    ("scope", JObject [("project", JObject [
      ("domain", JObject [("id", JString (config.ProjectDomainID cfg))]);
      ("name", JString (config.ProjectName cfg))])])])].

Definition auth_url : string := TrimRight (config.AuthURL cfg) "/"%char +:+ "/v3/auth/tokens".

Definition auth_request : http_request :=
  HTTPRequest "POST" auth_url [("Content-Type", "application/json")] (Some (render auth_payload)).

Definition catalog_entry (type : string) (s : session) (ep : catalog_endpoint) : session :=
  if (ep_Interface ep != "public") || (ep_Region ep != config.Region cfg) || negb (validProviderURL (ep_URL ep)) then s
  else
    let url := TrimRight (ep_URL ep) "/"%char in
    if type == "compute" then session.mk (session.Token s) url (session.ImageURL s) (session.NetworkURL s) (session.Expires s)
    else if type == "image" then session.mk (session.Token s) (session.ComputeURL s) url (session.NetworkURL s) (session.Expires s)
    else if type == "network" then session.mk (session.Token s) (session.ComputeURL s) (session.ImageURL s) url (session.Expires s)
    else s.

Definition read_catalog (s : session) (catalog : list catalog_service) : session :=
  fold_left (fun s svc => fold_left (catalog_entry (svc_Type svc)) (svc_Endpoints svc) s) catalog s.

Definition authenticated (resp : http_response) : result session :=
  reject_if (rs_StatusCode resp != 201)
    (Errorf ("compute authentication failed with HTTP " +:+ Itoa (rs_StatusCode resp)));;
  body ← decodeProviderJSON RToken (rs_Body resp);
  let s := read_catalog (session.mk (rs_SubjectToken resp) "" "" "" (ExpiresAt body)) (Catalog body) in
  reject_if ((session.Token s == "") || (session.ComputeURL s == "") || (session.ImageURL s == "") ||
             (session.NetworkURL s == ""))
    (Errorf "compute service catalog is incomplete");;
  Ok s.

Definition log_in : http (result session) :=
  r ← call (Do auth_request);
  match (r : result http_response) with
  | Err e => Ret (Err (privateTransportError "POST" e))
  | Ok resp =>
      s ←! lift (authenticated resp);
      _ ← call (SetSession s);
      Ret (Ok s)
  end.

(** [c.session.Token != "" && time.Until(c.session.Expires) > time.Minute]. *)
Definition authenticate : http (result session) :=
  cached ← call GetSession;
  if session.Token cached != "" then
    now ← call Clock;
    if Minute <? sat64 (session.Expires cached - now) then Ret (Ok (cached : session)) else log_in
  else log_in.

Definition with_token (method url token : string) (payload : option json) : http_request :=
  HTTPRequest method url [("X-Auth-Token", token); ("Content-Type", "application/json")] (render <$> payload).

Definition received (target : option reply_kind) (resp : http_response) : result (target_type target) :=
  if (rs_StatusCode resp <? 200) || (300 <=? rs_StatusCode resp) then
    Err (HTTPError (rs_StatusCode resp) (TrimSpace (limit_reader 2048 (rs_Body resp)).1))
  else match target with
       | None => Ok tt
       | Some k => if rs_StatusCode resp == 204 then Ok (zero_reply k) else decodeProviderJSON k (rs_Body resp)
       end.

Definition request (method url : string) (payload : option json) (target : option reply_kind)
    : http (result (target_type target)) :=
  s ←! authenticate;
  r ← call (Do (with_token method url (session.Token s) payload));
  match (r : result http_response) with
  | Err e => Ret (Err (privateTransportError method e))
  | Ok resp => Ret (received target resp)
  end.

(** ** The client's operations over [authenticate] and [request] *)
Inductive api_call : Type :=
  | Authenticate
  | Request (method url : string) (payload : option json) (target : option reply_kind)
  | SendDelete (url token : string)      (* [Delete] sends its request itself *)
  | Wait.                                (* a ticker or timer, or the end of the context *)

Definition api_answer (c : api_call) : Type :=
  match c with
  | Authenticate => result session
  | Request _ _ _ target => result (target_type target)
  | SendDelete _ _ => result Z
  | Wait => wake
  end.

Definition perform (c : api_call) : http (api_answer c) :=
  match c with
  | Authenticate => authenticate
  | Request method url payload target => request method url payload target
  | SendDelete url token =>
      r ← call (Do (HTTPRequest "DELETE" url [("X-Auth-Token", token)] None));
      Ret (match (r : result http_response) with
           | Err e => Err (privateTransportError "DELETE" e)
           | Ok resp => Ok (rs_StatusCode resp)
           end)
  | Wait => call Sleep
  end.
End Client.

Abbreviation api := (prog api_answer).

(** Each call of a program performed by a program. *)
Fixpoint interpret {C1 C2} {R1 : C1 -> Type} {R2 : C2 -> Type} (f : forall c, prog R2 (R1 c)) {A} (p : prog R1 A)
    : prog R2 A :=
  match p with
  | Ret a => Ret a
  | Call c k => r ← f c; interpret f (k r)
  end.

Definition over_http `{Unicode} `{Standard} (cfg : config.config) {A} (p : api A) : http A := interpret (perform cfg) p.

(** [x, err := p; if err != nil { return wrap(err) }; k(x)]. *)
Definition bind_error {A B} (p : api (result A)) (wrap : error -> error) (k : A -> api (result B)) : api (result B) :=
  r ← p; match r with Ok a => k a | Err e => Ret (Err (wrap e)) end.

Definition authentication : api (result session) := call Authenticate.
Definition get (k : reply_kind) (url : string) : api (result (reply k)) := call (Request "GET" url None (Some k)).

(** [url.QueryEscape], and [url.Values.Encode] of one value. *)
Definition query_byte (c : ascii) : string :=
  if is_alnum c || existsb (fun d => c == d) ["-"; "_"; "."; "~"]%char then String c EmptyString
  else if c == " "%char then "+"
  else String "%" (String (upper_hex (byte_of c / 16)) (String (upper_hex (byte_of c mod 16)) EmptyString)).
Fixpoint QueryEscape (s : string) : string :=
  match s with EmptyString => EmptyString | String c s' => query_byte c +:+ QueryEscape s' end.
Definition name_query (name : string) : string := "?name=" +:+ QueryEscape name.

(** [sort.Slice] by a string: elements with the same key may come in any order
    in Go, here in that of the list. *)
Definition by_key {A} (key : A -> string) (x y : A) : Prop := String.leb (key x) (key y) = true.
#[global] Instance by_key_dec {A} (key : A -> string) : RelDecision (by_key key).
Proof. intros x y. unfold by_key. apply _. Defined.

(** ** Shapes, images and networks *)
Definition shape_less (x y : Shape) : bool :=
  if Shape.Memory x != Shape.Memory y then Shape.Memory x <? Shape.Memory y
  else if Shape.VCPU x != Shape.VCPU y then Shape.VCPU x <? Shape.VCPU y
  else Shape.GB x <? Shape.GB y.

Definition shape_le (x y : Shape) : Prop := shape_less y x = false.
#[global] Instance shape_le_dec : RelDecision shape_le.
Proof. intros x y. unfold shape_le. apply _. Defined.

(** [strings.NewReplacer("-", "", ".", "", "_", "", "amd64", "")], with the
    number of bytes of the current match still to be dropped. *)
Fixpoint replace_image (skip : nat) (s : string) : string :=
  match s with
  | EmptyString => EmptyString
  | String c s' =>
      match skip with
      | S skip' => replace_image skip' s'
      | O =>
          if existsb (fun d => c == d) ["-"; "."; "_"]%char then replace_image 0 s'
          else if HasPrefix s "amd64" then replace_image 4 s'
          else String c (replace_image 0 s')
      end
  end.

Section Operations.
Context `{Unicode}.

Definition normalizeImage (value : string) : string := replace_image 0 (ToLower value).

Definition image_matches (want : string) (img : image) : bool :=
  let n := ToLower (image.Name img) in
  (image.Status img == "active") && negb (HasPrefix n "old_") && Contains (normalizeImage n) want.

Definition usable_network (n : network) : bool :=
  let lower := ToLower (network.Name n) in
  network.External n && (network.Status n == "ACTIVE") && negb (Contains lower "reserve") &&
  negb (Contains lower "notworking") && negb (Contains lower "ipv6").

Definition resolveShape (imageAlias : string) (selectShape : list Shape -> result Shape)
    : api (result (Shape * string * list string)) :=
  s ←! authentication;
  fs ←! get RFlavors (session.ComputeURL s +:+ "/flavors/detail");
  shape ←! lift (selectShape (merge_sort shape_le (shapes fs)));
  imgs ←! get RImages (session.ImageURL s +:+ "/v2/images?limit=100");
  let imageID := match List.find (image_matches (normalizeImage imageAlias)) imgs with
                 | Some img => image.ID img
                 | None => ""
                 end in
  if imageID == "" then Ret (Err (Errorf ("unsupported compute image " +:+ Quote imageAlias))) else
  nets ←! get RNetworks (session.NetworkURL s +:+ "/v2.0/networks");
  let networkIDs := network.ID <$> List.filter usable_network (merge_sort (by_key network.Name) nets) in
  if (length networkIDs =? 0)%nat then Ret (Err (Errorf "no usable compute network")) else
  Ret (Ok (shape, imageID, networkIDs)).

Definition select_class (class : string) (available : list Shape) : result Shape :=
  match Index (ToLower class) with
  | Some i => match available !! Z.to_nat i with Some shape => Ok shape | None => Err (UnsupportedClassError class) end
  | None => Err (UnsupportedClassError class)
  end.

Definition Client_Resolve (class imageAlias : string) : api (result (Shape * string * list string)) :=
  resolveShape imageAlias (select_class class).

Definition meets (vcpus memoryMiB diskGiB : Z) (shape : Shape) : bool :=
  (vcpus <=? Shape.VCPU shape) && (memoryMiB <=? Shape.Memory shape) && (diskGiB <=? Shape.GB shape).

Definition select_size (vcpus memoryMiB diskGiB : Z) (available : list Shape) : result Shape :=
  match List.find (meets vcpus memoryMiB diskGiB) available with
  | Some shape => Ok shape
  | None => Err (Errorf "no available VM meets the requested CPU, memory, and disk targets")
  end.

Definition Client_ResolveSize (vcpus memoryMiB diskGiB : Z) (imageAlias : string)
    : api (result (Shape * string * list string)) :=
  if (vcpus <? 1) || (memoryMiB <? 1) || (diskGiB <? 1)
  then Ret (Err (Errorf "positive compute dimensions are required"))
  else resolveShape imageAlias (select_size vcpus memoryMiB diskGiB).

(** ** Servers *)
Definition managed_metadata (input : ManagedServerRequest) : list (string * string) :=
  let operation := ManagedServerRequest.OperationID input in
  [("canter.managed", "true")] ++
  (if operation != "" then [("canter.operation", operation); ("canter.resource", ManagedServerRequest.Name input)]
   else []) ++
  [("canter.sandbox", ManagedServerRequest.Sandbox input)].

Definition server_payload (input : ManagedServerRequest) : json :=
  JObject [("server", JObject [
    ("flavorRef", JString (ManagedServerRequest.FlavorID input));
    ("imageRef", JString (ManagedServerRequest.ImageID input));
    ("metadata", JObject ((fun kv => (kv.1, JString kv.2)) <$> managed_metadata input));
    ("name", JString (ManagedServerRequest.Name input));
    ("networks", JArray [JObject [("uuid", JString (ManagedServerRequest.NetworkID input))]]);
    ("user_data", JString (base64_encode (string_bytes (ManagedServerRequest.UserData input))))])].

Definition Client_CreateManaged (input : ManagedServerRequest) : api (result Server) :=
  s ←! authentication;
  call (Request "POST" (session.ComputeURL s +:+ "/servers") (Some (server_payload input)) (Some RServer)).

Definition Client_Create (name sandbox flavorID imageID networkID userData : string) : api (result Server) :=
  Client_CreateManaged (ManagedServerRequest.mk name sandbox "" flavorID imageID networkID userData).

(** [m[k]] of a map of strings. *)
Definition metadata (server : Server) (k : string) : string := default "" (Server.Metadata server !! k).

Definition owned_server (sandbox operationID name : string) (server : Server) : bool :=
  negb ((Server.Name server != name) || (metadata server "canter.managed" != "true") ||
        (metadata server "canter.sandbox" != sandbox) || (metadata server "canter.operation" != operationID) ||
        (metadata server "canter.resource" != name)).

Definition Client_FindManagedServers (sandbox operationID name : string) : api (result (list Server)) :=
  s ←! authentication;
  servers ←! get RServers (session.ComputeURL s +:+ "/servers/detail" +:+ name_query name);
  Ret (Ok (merge_sort (by_key Server.ID) (List.filter (owned_server sandbox operationID name) servers))).

Definition Client_Server (id : string) : api (result Server) :=
  s ←! authentication;
  get RServer (session.ComputeURL s +:+ "/servers/" +:+ id).

Definition active_state (server : Server) : option (result Server) :=
  if Server.Status server == "ACTIVE" then Some (Ok server)
  else if Server.Status server == "ERROR" then
    Some (Err (Errorf match Server.Fault_ server with
      | Some fault => "compute resource entered ERROR state: code=" +:+ Itoa (Fault.Code fault) +:+
                      " message=" +:+ TrimSpace (Fault.Message fault)
      | None => "compute resource entered ERROR state without a fault message"
      end))
  else None.

Fixpoint Client_WaitActive (fuel : nat) (id : string) : api (result Server) :=
  match fuel with
  | O => Ret (Err OutOfFuel)
  | S fuel' =>
      server ←! Client_Server id;
      match active_state server with
      | Some r => Ret r
      | None =>
          w ← call Wait;
          match (w : wake) with
          | WDone e => Ret (Err e)
          | _ => Client_WaitActive fuel' id
          end
      end
  end.

Definition Client_Delete (id : string) : api (result unit) :=
  s ←! authentication;
  code ←! call (SendDelete (session.ComputeURL s +:+ "/servers/" +:+ id) (session.Token s));
  if ((code : Z) != 204) && (code != 404) then Ret (Err (HTTPError code "")) else Ret (Ok tt).

(** The body decodes to the flavor's [ID], [VCPU] and [Memory]. *)
Definition Client_ServerShape (id : string) : api (result Shape) :=
  s ←! authentication;
  f ←! get RServerFlavor (session.ComputeURL s +:+ "/servers/" +:+ id);
  if (0 <? Shape.VCPU f) && (0 <? Shape.Memory f) then Ret (Ok (Shape.mk (Shape.ID f) "" (Shape.VCPU f) (Shape.Memory f) 0))
  else if Shape.ID f == "" then Ret (Err (Errorf "server flavor missing"))
  else
    detail ←! get RFlavor (session.ComputeURL s +:+ "/flavors/" +:+ Shape.ID f);
    Ret (Ok (Shape.mk (Shape.ID f) "" detail.1 detail.2 0)).

(** ** Network policies *)
Definition managedPolicyDescription (ownership : string) : string :=
  "Canter-managed public endpoint policy; owner=" +:+ ownership.

Definition matches_tcp (port : Z) (rule : securityRule) : bool :=
  (securityRule.Direction rule == "ingress") && (securityRule.Protocol rule == "tcp") &&
  (securityRule.Min rule =? port) && (securityRule.Max rule =? port).
Definition matchingTCPRules (group : securityGroup) (port : Z) : list securityRule :=
  List.filter (matches_tcp port) (securityGroup.Rules group).

Definition containsString (values : list string) (want : string) : bool := existsb (fun value => value == want) values.

Definition findServerPort (s : session) (serverID : string) : api (result networkPort) :=
  ports ←! get RPorts (session.NetworkURL s +:+ "/v2.0/ports?device_id=" +:+ QueryEscape serverID);
  Ret (match ports with
       | [port] => Ok port
       | _ => Err (Errorf ("expected one compute network port, found " +:+ Itoa (Z.of_nat (length ports))))
       end).

Definition owned_group (name description : string) (group : securityGroup) : bool :=
  (securityGroup.Name group == name) && (securityGroup.Description group == description).
Definition owned_groups (name description : string) (groups : list securityGroup) : list securityGroup :=
  merge_sort (by_key securityGroup.ID) (List.filter (owned_group name description) groups).

Definition groups_url (s : session) : string := session.NetworkURL s +:+ "/v2.0/security-groups".
Definition rules_url (s : session) : string := session.NetworkURL s +:+ "/v2.0/security-group-rules".
Definition port_url (s : session) (portID : string) : string := session.NetworkURL s +:+ "/v2.0/ports/" +:+ portID.

Definition findSecurityGroups (s : session) (name description : string) : api (result (list securityGroup)) :=
  groups ←! get RGroups (groups_url s +:+ name_query name);
  Ret (Ok (owned_groups name description groups)).

Definition createSecurityGroup (s : session) (name description : string) : api (result securityGroup) :=
  call (Request "POST" (groups_url s)
    (Some (JObject [("security_group", JObject [("description", JString description); ("name", JString name)])]))
    (Some RGroup)).

Definition rule_payload (groupID : string) (portNumber : Z) : json :=
  JObject [("security_group_rule", JObject [
    ("direction", JString "ingress"); ("ethertype", JString "IPv4");
    ("port_range_max", JInt portNumber); ("port_range_min", JInt portNumber);
    ("protocol", JString "tcp"); ("remote_ip_prefix", JString "0.0.0.0/0");
    ("security_group_id", JString groupID)])].

Definition createTCPRule (s : session) (groupID : string) (portNumber : Z) : api (result string) :=
  rule ←! call (Request "POST" (rules_url s) (Some (rule_payload groupID portNumber)) (Some RRule));
  Ret (Ok (securityRule.ID rule)).

(** [%v] of an error that may be nil, and the error next to a value that is
    taken for a failure when [empty]. *)
Definition error_text (e : option error) : string := match e with Some e => Error e | None => "<nil>" end.
Definition failure {A} (empty : A -> bool) (r : result A) : option (option error) :=
  match r with Ok a => if empty a then Some None else None | Err e => Some (Some e) end.

Definition duplicate_group (name : string) (groups : list securityGroup) : error :=
  DuplicateManagedResourceError "network policy" name (Z.of_nat (length groups)).
Definition rule_identity (name : string) (portNumber : Z) : string := name +:+ ":tcp/" +:+ Itoa portNumber.
Definition duplicate_rule (name : string) (portNumber : Z) (rules : list securityRule) : error :=
  DuplicateManagedResourceError "network policy rule" (rule_identity name portNumber) (Z.of_nat (length rules)).

Section Exposure.
Context (s : session) (input : ManagedTCPExposureRequest).

Let serverID := ManagedTCPExposureRequest.ServerID input.
Let name := ManagedTCPExposureRequest.Name input.
Let portNumber := ManagedTCPExposureRequest.Port input.
Let description := managedPolicyDescription (ManagedTCPExposureRequest.Ownership input).

(** The creation of the group answered [failed] or an empty group. *)
Definition reconcile_group (failed : option error) : api (result securityGroup) :=
  bind_error (findSecurityGroups s name description)
    (Wrapf ("create network policy failed (" +:+ error_text failed +:+ ") and reconciliation failed: "))
    (fun reconciled =>
       Ret (match reconciled with
            | [] =>
                match failed with
                | Some e => Err (AmbiguousManagedResourceError "network policy" name e)
                | None => Err (Errorf "provider returned an empty network policy")
                end
            | [group] => Ok group
            | _ => Err (duplicate_group name reconciled)
            end)).

Definition choose_group (groups : list securityGroup) : api (result securityGroup) :=
  match groups with
  | [] =>
      created ← createSecurityGroup s name description;
      match failure (fun g => securityGroup.ID g == "") created with
      | Some failed => reconcile_group failed
      | None => Ret created
      end
  | [group] => Ret (Ok group)
  | _ => Ret (Err (duplicate_group name groups))
  end.

Definition reconcile_rule (failed : option error) : api (result string) :=
  bind_error (findSecurityGroups s name description)
    (Wrapf ("create network policy rule failed (" +:+ error_text failed +:+ ") and reconciliation failed: "))
    (fun reconciled =>
       Ret (match reconciled with
            | _ :: _ :: _ => Err (duplicate_group name reconciled)
            | _ =>
                let rules := match reconciled with [group] => matchingTCPRules group portNumber | _ => [] end in
                match rules with
                | [] =>
                    match failed with
                    | Some e => Err (AmbiguousManagedResourceError "network policy rule" (rule_identity name portNumber) e)
                    | None => Err (Errorf "provider returned an empty network policy rule")
                    end
                | [rule] => Ok (securityRule.ID rule)
                | _ => Err (duplicate_rule name portNumber rules)
                end
            end)).

Definition choose_rule (group : securityGroup) : api (result string) :=
  match matchingTCPRules group portNumber with
  | [] =>
      created ← createTCPRule s (securityGroup.ID group) portNumber;
      match failure (fun ruleID => ruleID == "") created with
      | Some failed => reconcile_rule failed
      | None => Ret created
      end
  | [rule] => Ret (Ok (securityRule.ID rule))
  | rules => Ret (Err (duplicate_rule name portNumber rules))
  end.

Definition attach_payload (attached : list string) : json :=
  JObject [("port", JObject [("security_groups", strings_json attached)])].

Definition attach_group (port : networkPort) (groupID : string) : api (result networkPort) :=
  if containsString (networkPort.SecurityGroups port) groupID then Ret (Ok port) else
  r ← call (Request "PUT" (port_url s (networkPort.ID port))
              (Some (attach_payload (networkPort.SecurityGroups port ++ [groupID]))) None);
  match (r : result unit) with
  | Ok _ => Ret (Ok port)
  | Err attachErr =>
      bind_error (findServerPort s serverID)
        (Wrapf ("attach network policy failed (" +:+ Error attachErr +:+ ") and reconciliation failed: "))
        (fun reconciled =>
           Ret (if negb (containsString (networkPort.SecurityGroups reconciled) groupID)
                then Err (AmbiguousManagedResourceError "network policy attachment" (serverID +:+ ":" +:+ name) attachErr)
                else Ok reconciled))
  end.
End Exposure.

Definition Client_ExposeManagedTCP (input : ManagedTCPExposureRequest) : api (result SecurityPolicy) :=
  let name := ManagedTCPExposureRequest.Name input in
  let portNumber := ManagedTCPExposureRequest.Port input in
  if (portNumber <? 1) || (65535 <? portNumber) then Ret (Err (Errorf "invalid TCP port"))
  else if (TrimSpace name == "") || (TrimSpace (ManagedTCPExposureRequest.Ownership input) == "")
  then Ret (Err (Errorf "managed TCP exposure requires name and ownership"))
  else
    s ←! authentication;
    port ←! findServerPort s (ManagedTCPExposureRequest.ServerID input);
    groups ←! findSecurityGroups s name (managedPolicyDescription (ManagedTCPExposureRequest.Ownership input));
    group ←! choose_group s input groups;
    ruleID ←! choose_rule s input group;
    port ←! attach_group s input port (securityGroup.ID group);
    Ret (Ok (SecurityPolicy.mk (securityGroup.ID group) (networkPort.ID port) ruleID portNumber)).

Definition Client_ExposeTCP (serverID name : string) (portNumber : Z) : api (result SecurityPolicy) :=
  Client_ExposeManagedTCP (ManagedTCPExposureRequest.mk serverID name
    ("legacy-sha256:" +:+ sha256_hex (serverID +:+ bytes [0] +:+ name)) portNumber).

(** What the provider's groups and the server's port say of an exposure. *)
Definition exposure_found (input : ManagedTCPExposureRequest) (port : networkPort) (groups : list securityGroup)
    : result (option SecurityPolicy) :=
  let name := ManagedTCPExposureRequest.Name input in
  let portNumber := ManagedTCPExposureRequest.Port input in
  match groups with
  | [] => Ok None
  | [group] =>
      match matchingTCPRules group portNumber with
      | [] => Err (AmbiguousManagedResourceError "network policy" name (Errorf "owned policy exists without the intended rule"))
      | [rule] =>
          if negb (containsString (networkPort.SecurityGroups port) (securityGroup.ID group))
          then Err (AmbiguousManagedResourceError "network policy attachment"
                     (ManagedTCPExposureRequest.ServerID input +:+ ":" +:+ name)
                     (Errorf "owned policy exists but is not attached"))
          else Ok (Some (SecurityPolicy.mk (securityGroup.ID group) (networkPort.ID port) (securityRule.ID rule) portNumber))
      | rules => Err (duplicate_rule name portNumber rules)
      end
  | _ => Err (duplicate_group name groups)
  end.

Definition Client_FindManagedTCPExposure (input : ManagedTCPExposureRequest) : api (result (option SecurityPolicy)) :=
  let portNumber := ManagedTCPExposureRequest.Port input in
  if (portNumber <? 1) || (65535 <? portNumber) || (TrimSpace (ManagedTCPExposureRequest.Name input) == "") ||
     (TrimSpace (ManagedTCPExposureRequest.Ownership input) == "")
  then Ret (Err (Errorf "managed TCP exposure requires valid name, ownership, and port"))
  else
    s ←! authentication;
    port ←! findServerPort s (ManagedTCPExposureRequest.ServerID input);
    groups ←! findSecurityGroups s (ManagedTCPExposureRequest.Name input)
      (managedPolicyDescription (ManagedTCPExposureRequest.Ownership input));
    Ret (exposure_found input port groups).

(** At most [attempts] requests; [last] is the error of the latest. *)
Fixpoint delete_policy (attempts : nat) (url : string) (last : result unit) : api (result unit) :=
  match attempts with
  | O => Ret last
  | S attempts' =>
      r ← call (Request "DELETE" url None None);
      match (r : result unit) with
      | Ok _ => Ret (Ok tt)
      | Err e =>
          if isHTTPStatus e 404 then Ret (Ok tt)
          else if negb (isHTTPStatus e 409) then Ret (Err e)
          else
            w ← call Wait;
            match (w : wake) with
            | WDone e' => Ret (Err e')
            | _ => delete_policy attempts' url (Err e)
            end
      end
  end.

Definition Client_DeleteSecurityPolicy (id : string) : api (result unit) :=
  s ←! authentication;
  delete_policy 20 (session.NetworkURL s +:+ "/v2.0/security-groups/" +:+ id) (Ok tt).
End Operations.
