(* ===== verification/Billing.v ===== *)
(** * Prices and the payment service (pricing/, internal/controlplane/billing*.go)

    What a plan costs, what an allocation costs, how the payment gateway makes
    its requests, checks its configuration and the signature of what is posted
    to it; and the conversations with the payment service as programs over
    [billing_call], whose other calls are the statements of the database.

    [StripeDecode] decodes the bodies the payment service sends. *)

From S2P Require Import Prelude Effects GoStrings Digest Documents Json Calls SandboxSpec Systems Releases Provider.
From S2P Require Import ControlDocuments Rows Tables Metering.

(** ** The catalog *)
(** pricing/catalog.json, embedded in the program. *)
Definition Current : Catalog :=
  Catalog.mk "2026-09-15" "usd" [PricingPlan.mk "payg" "Pay as you go" 0 0; PricingPlan.mk "pro" "Pro" 2000 2000].

Definition Find (id : string) : option PricingPlan := List.find (fun p => PricingPlan.ID p == id) (Catalog.Plans Current).

Definition Calculate (planID : string) (usageCents : Z) : result Bill :=
  let bad := Errorf "invalid plan or usage amount" in
  match Find planID with
  | None => Err bad
  | Some p =>
      if (usageCents <? 0) || (1000000000 <? usageCents) then Err bad else
      let included := PricingPlan.IncludedUsageCents p in
      let credit := Z.min usageCents included in
      Ok (Bill.mk (PricingPlan.ID p) (Catalog.Currency Current) (PricingPlan.MonthlyCents p) usageCents credit
            (sub64 included credit) (sub64 usageCents credit)
            (sub64 (add64 (PricingPlan.MonthlyCents p) usageCents) credit))
  end.

Definition ComputeCentsPerUnitPer720Hours : Z := 300.
Definition HoursPerResourceMonth : Z := 720.

Definition ComputeUsageUnits (vCPU memoryMiB : Z) : result Z :=
  if (vCPU <? 1) || (256 <? vCPU) || (memoryMiB <? 1) || (Z.shiftl 1 20 <? memoryMiB)
  then Err (Errorf "compute allocation is outside the supported estimate range")
  else Ok (Z.max vCPU (div64 (add64 memoryMiB 1023) 1024)).

Definition EstimateComputeMonthlyCents (vCPU memoryMiB : Z) : result Z :=
  units ← ComputeUsageUnits vCPU memoryMiB;
  Ok (mul64 units ComputeCentsPerUnitPer720Hours).

(** ** The gateway *)
Definition Ready (b : option BillingConfig) : bool :=
  match b with
  | None => false
  | Some c =>
      BillingConfig.Enabled c && (BillingConfig.SecretKey c != "") && (BillingConfig.WebhookSecret c != "") &&
      (32 <=? slen (BillingConfig.IngestToken c)) && (BillingConfig.PaygPriceID c != "") &&
      (BillingConfig.MeterID c != "") && (BillingConfig.MeterEventName c != "") &&
      (BillingConfig.PortalConfigurationID c != "")
  end.

(** [url.Values], as the pairs it holds; [Encode] sorts them by key. *)
Abbreviation values := (list (string * string)).
Definition encode_values (v : values) : string :=
  Join ((fun kv => QueryEscape kv.1 +:+ "=" +:+ QueryEscape kv.2) <$> merge_sort (by_key fst) v) "&".

(** The answers, by the struct they are decoded into. *)
Inductive stripe_kind : Type :=
  | SSubscriptions      (* Data, and HasMore *)
  | SSubscription       (* the subscription; its schedule; its collection method and default payment method *)
  | SCheckoutSession    (* Status, Customer *)
  | SCheckout           (* ID, URL, Expires *)
  | SCustomer           (* ID, and the default payment method of its invoices *)
  | SSchedule
  | SPrice
  | SMeter.

Record billingSchedule : Type := BillingSchedule {
  sch_ID : string;
  sch_Status : string;
  sch_Metadata : gmap string string;
  sch_CurrentStart : Z;
  sch_Phases : list (Z * gmap string string)
}.

Record subscription_view : Type := SubscriptionView {
  sv_Subscription : stripeSubscription;
  sv_Schedule : option billingSchedule;
  sv_CollectionMethod : string;
  sv_PaymentMethod : option stripeCardMethod
}.

Definition stripe_reply (k : stripe_kind) : Type :=
  match k with
  | SSubscriptions => list stripeSubscription * bool
  | SSubscription => subscription_view
  | SCheckoutSession => string * string
  | SCheckout => string * string * Z
  | SCustomer => string * option stripeCardMethod
  | SSchedule => billingSchedule
  | SPrice => stripe_price
  | SMeter => stripe_meter
  end.
Definition stripe_target (t : option stripe_kind) : Type := match t with Some k => stripe_reply k | None => unit end.

Class StripeDecode : Type := {
  decode_reply : forall k, string -> result (stripe_reply k);
  decode_event : string -> result webhook_event
}.

Section Request.
Context `{StripeDecode} (cfg : BillingConfig).

Definition basic_auth (user password : string) : string :=
  "Basic " +:+ base64_encode (string_bytes (user +:+ ":" +:+ password)).

Definition gateway_request (method path : string) (v : values) (key : string) : http_request :=
  let address := "https://api.stripe.com" +:+ path in
  HTTPRequest method
    (if (method == "GET") && negb (length v =? 0)%nat then address +:+ "?" +:+ encode_values v else address)
    ([("Authorization", basic_auth (BillingConfig.SecretKey cfg) "");
      ("Content-Type", "application/x-www-form-urlencoded"); ("Stripe-Version", "2025-03-31.basil")] ++
     (if key != "" then [("Idempotency-Key", key)] else []))
    (if method == "GET" then None else Some (encode_values v)).

Definition gateway_received (out : option stripe_kind) (resp : http_response) : result (stripe_target out) :=
  if (rs_StatusCode resp <? 200) || (300 <=? rs_StatusCode resp)
  then Err (Errorf ("payment provider returned status " +:+ Itoa (rs_StatusCode resp)))
  else match out with
       | None => match (limit_reader (Z.shiftl 1 20) (rs_Body resp)).2 with Some e => Err e | None => Ok tt end
       | Some k => decode_reply k (limit_reader (Z.shiftl 2 20) (rs_Body resp)).1
       end.

(** [BillingGateway.request]. *)
Definition gateway (method path : string) (v : values) (key : string) (out : option stripe_kind)
    : http (result (stripe_target out)) :=
  r ← call (Do (gateway_request method path v key));
  Ret (match (r : result http_response) with
       | Err _ => Err (Errorf "payment provider unavailable")
       | Ok resp => gateway_received out resp
       end).
End Request.

(** ** Signatures of what is posted *)
(** HMAC-SHA256 (RFC 2104). *)
Definition hmac_sha256 (key message : list Z) : list Z :=
  let key := if (64 <? length key)%nat then Sha256.sum key else key in
  let block := key ++ replicate (64 - length key) 0 in
  Sha256.sum ((Z.lxor 92 <$> block) ++ Sha256.sum ((Z.lxor 54 <$> block) ++ message)).

(** RFC 4231, test case 2. *)
Example hmac_rfc4231 :
  hex_encode (hmac_sha256 (string_bytes "Jefe") (string_bytes "what do ya want for nothing?")) =
    "5bdcc146bf60754e6a042426089575c75a003f089d2739839dec58b964ec3843".
Proof. vm_compute. reflexivity. Qed.

(** [strconv.ParseInt(s, 10, 64)]. *)
Fixpoint parse_digits (acc : Z) (s : string) : option Z :=
  match s with
  | EmptyString => Some acc
  | String c s' => if is_digit c then parse_digits (10 * acc + (byte_of c - 48)) s' else None
  end.
Definition ParseInt (s : string) : option Z :=
  let in_range := fun x => if (min_int <=? x) && (x <=? max_int) then Some x else None in
  match s with
  | EmptyString | String "+" EmptyString | String "-" EmptyString => None
  | String "+" s' => parse_digits 0 s' ≫= in_range
  | String "-" s' => x ← parse_digits 0 s'; in_range (- x)
  | _ => parse_digits 0 s ≫= in_range
  end%char.

(** [t.Unix()] of an instant in nanoseconds. *)
Definition Unix (t : Z) : Z := t / Second.

(** The last time stamp and all signatures of the header. *)
Definition signature_part (acc : string * list string) (part : string) : string * list string :=
  match Cut (TrimSpace part) "=" with
  | None => acc
  | Some (k, v) =>
      let acc := if k == "t" then (v, acc.2) else acc in
      if k == "v1" then (acc.1, acc.2 ++ [v]) else acc
  end.

Definition verifyBillingSignature (body signature secret : string) (now : Z) : bool :=
  if secret == "" then false else
  let '(stamp, signatures) := fold_left signature_part (Split signature ","%char) ("", []) in
  match ParseInt stamp with
  | None => false
  | Some seconds =>
      if (seconds <? Unix (now - 5 * Minute)) || (Unix (now + 5 * Minute) <? seconds) then false else
      let mac := hmac_sha256 (string_bytes secret) (string_bytes (stamp +:+ "." +:+ body)) in
      existsb (fun candidate => match hex_decode candidate with Some decoded => decoded == mac | None => false end) signatures
  end.

(** ** Prices and plans *)
Section Prices.
Context (cfg : BillingConfig).

Definition is_some_z (o : option Z) (v : Z) : bool := match o with Some x => x =? v | None => false end.
Definition none_or_zero (o : option Z) : bool := match o with Some x => x =? 0 | None => true end.
Definition is_none (o : option Z) : bool := match o with Some _ => false | None => true end.

Definition pro_plan : PricingPlan := default (PricingPlan.mk "" "" 0 0) (Find "pro").

Definition valid_tiers (tiers : list price_tier) : bool :=
  match tiers with
  | [a; z] =>
      is_some_z (price_tier.UpTo a) (PricingPlan.IncludedUsageCents pro_plan) &&
      is_some_z (price_tier.UnitAmount a) 0 && none_or_zero (price_tier.FlatAmount a) &&
      is_none (price_tier.UpTo z) && is_some_z (price_tier.UnitAmount z) 1 && none_or_zero (price_tier.FlatAmount z)
  | _ => false
  end.

Definition valid_price (kind : string) (p : stripe_price) : bool :=
  let valid := stripe_price.Active p && (stripe_price.Currency p == Catalog.Currency Current) &&
               (stripe_price.Interval p == "month") && (stripe_price.IntervalCount p =? 1) &&
               negb (stripe_price.Transform p) in
  if kind == "base" then
    valid && (stripe_price.BillingScheme p == "per_unit") &&
    is_some_z (stripe_price.UnitAmount p) (PricingPlan.MonthlyCents pro_plan) && (stripe_price.UsageType p == "licensed")
  else
    let valid := valid && (stripe_price.UsageType p == "metered") && (stripe_price.Meter p == BillingConfig.MeterID cfg) in
    if kind == "payg" then
      valid && (stripe_price.BillingScheme p == "per_unit") && is_some_z (stripe_price.UnitAmount p) 1
    else
      valid && (stripe_price.BillingScheme p == "tiered") && (stripe_price.TiersMode p == "graduated") &&
      valid_tiers (stripe_price.Tiers p).

Definition price_specs : result (list (string * string)) :=
  let payg := [(BillingConfig.PaygPriceID cfg, "payg"%string)] in
  if xorb (BillingConfig.ProPriceID cfg == "") (BillingConfig.ProUsagePriceID cfg == "")
  then Err (Errorf "both legacy Pro prices must be configured together")
  else if BillingConfig.ProPriceID cfg != ""
  then Ok (payg ++ [(BillingConfig.ProPriceID cfg, "base"%string); (BillingConfig.ProUsagePriceID cfg, "overage"%string)])
  else Ok payg.

Definition valid_meter (meter : stripe_meter) : bool :=
  negb ((stripe_meter.EventName meter != BillingConfig.MeterEventName cfg) || (stripe_meter.Status meter != "active") ||
        (stripe_meter.Formula meter != "sum") || (stripe_meter.CustomerKey meter != "stripe_customer_id") ||
        (stripe_meter.CustomerType meter != "by_id") || (stripe_meter.ValueKey meter != "value") ||
        (stripe_meter.Window meter != "")).

(** The items seen so far: base, overage, payg. *)
Definition plan_item (acc : result (bool * bool * bool)) (item : subscription_item) : result (bool * bool * bool) :=
  '(base, overage, payg) ← acc;
  let id := subscription_item.PriceID item in
  if id == BillingConfig.ProPriceID cfg then
    if negb (subscription_item.Quantity item =? 1) then Err ErrConflict else Ok (true, overage, payg)
  else if id == BillingConfig.ProUsagePriceID cfg then Ok (base, true, payg)
  else if id == BillingConfig.PaygPriceID cfg then Ok (base, overage, true)
  else Err ErrConflict.

Definition subscriptionPlan (s : stripeSubscription) : result string :=
  let items := stripeSubscription.Items s in
  '(base, overage, payg) ← fold_left plan_item items (Ok (false, false, false));
  if (length items =? 1)%nat && payg then Ok "payg"%string
  else if (length items =? 2)%nat && base && overage then Ok "pro"%string
  else Err ErrConflict.
End Prices.

(** ** The conversations *)
(** What [DispatchUsage] reads of the row it picks. *)
Record picked_usage : Type := Picked { pk_ID : string; pk_Customer : string; pk_Amount : Z; pk_Occurred : Z }.

Inductive billing_call : Type :=
  | Wall                                                          (* time.Now(), or the clock of the store *)
  | Stripe (method path : string) (v : values) (key : string) (out : option stripe_kind)
  | ReadValidated | WriteValidated                                (* b.validated, under b.mu *)
  | Begin | Commit
  (* workspace_billing *)
  | InsertBilling (workspace : string)
  | LockBilling (workspace : string)                              (* SELECT ... FOR UPDATE *)
  | BillingOf (workspace : string)                                (* SELECT *)
  | LinkCustomer (workspace customer : string)
  | SaveCheckout (workspace customer id url plan : string) (expires attempt : Z)
  | CountAttempt (workspace : string)
  | LockByCustomer (customer : string)
  | CancelBilling (workspace : string)
  | SetBilling (workspace subscription plan status : string) (start stop : Z) (cancel : bool)
  (* the other tables *)
  | InsertWebhookEvent (id : string)                              (* whether a row was inserted *)
  | InsertInvoice (id : string) (row : invoice_row)
  | ClearInactiveSamples (workspace : string)
  | MarkUncertain                                                 (* needs_reconciliation of old first attempts *)
  | PickUsage                                                     (* the transaction that picks a row *)
  | MarkSent (id : string)
  | RecordUsage (e : BillingUsageEvent)                           (* RecordBillingUsage *)
  | BillingWorkspaces
  | TryLock (workspace : string) | Unlock (workspace : string)    (* the advisory lock *)
  | DropSamples (workspace : string)
  | NoteIssue (workspace issue : string)
  | SystemsOf (workspace : string)
  | MeterSystem (contract : System)
  | ServersOf (workspace : string)
  | CanMeterServers | MeterServer (plan : VPSPlan)
  | RecordSnapshot (workspace : string) (resources : list BillingResource) (at_ : Z).

Definition billing_answer (c : billing_call) : Type :=
  match c with
  | Wall => Z
  | Stripe _ _ _ _ out => result (stripe_target out)
  | ReadValidated => bool
  | WriteValidated => unit
  | LockBilling _ => result billing_row
  | BillingOf _ => result (option billing_row)
  | LockByCustomer _ => result (option string)
  | InsertWebhookEvent _ => result bool
  | PickUsage => result (option picked_usage)
  | BillingWorkspaces => result (list string)
  | TryLock _ => result bool
  | Unlock _ => unit
  | SystemsOf _ => result (list System)
  | ServersOf _ => result (list VPS)
  | MeterSystem _ | MeterServer _ => result (list BillingResource)
  | CanMeterServers => bool
  | _ => result unit
  end.

Abbreviation billing := (prog billing_answer).

Definition stripe (method path : string) (v : values) (key : string) (k : stripe_kind) : billing (result (stripe_reply k)) :=
  call (Stripe method path v key (Some k)).
Definition stripe_post (path : string) (v : values) (key : string) : billing (result unit) :=
  call (Stripe "POST" path v key None).
Definition conflict (msg : string) : error := WrapfBefore ErrConflict (": " +:+ msg).

(** A subscription that can still take a payment. *)
Definition live_subscription (s : stripeSubscription) : bool :=
  (stripeSubscription.Status s != "canceled") && (stripeSubscription.Status s != "incomplete_expired").

(** The period of the subscription, or of its first item. *)
Definition period_of (s : stripeSubscription) : Z * Z :=
  match stripeSubscription.Items s with
  | item :: _ =>
      if stripeSubscription.PeriodStart s =? 0 then (subscription_item.PeriodStart item, subscription_item.PeriodEnd item)
      else (stripeSubscription.PeriodStart s, stripeSubscription.PeriodEnd s)
  | [] => (stripeSubscription.PeriodStart s, stripeSubscription.PeriodEnd s)
  end.

Definition all_subscriptions (customer : string) (expand : values) : billing (result (list stripeSubscription * bool)) :=
  stripe "GET" "/v1/subscriptions" ([("customer", customer); ("status", "all"); ("limit", "100")]%string ++ expand) "" SSubscriptions.

Section Gateway.
Context `{Unicode} (cfg : BillingConfig).

Fixpoint validate_specs (specs : list (string * string)) : billing (result unit) :=
  match specs with
  | [] => Ret (Ok tt)
  | (id, kind) :: rest =>
      p ←! stripe "GET" ("/v1/prices/" +:+ PathEscape id) [("expand[]", "tiers")] "" SPrice;
      if negb (valid_price cfg kind p)
      then Ret (Err (Errorf "billing price configuration does not match the Canter catalog"))
      else validate_specs rest
  end.

Definition ValidatePrices : billing (result unit) :=
  validated ← call ReadValidated;
  if (validated : bool) then Ret (Ok tt) else
  specs ←! lift (price_specs cfg);
  _ ←! validate_specs specs;
  meter ←! stripe "GET" ("/v1/billing/meters/" +:+ PathEscape (BillingConfig.MeterID cfg)) [] "" SMeter;
  if negb (valid_meter cfg meter)
  then Ret (Err (Errorf "billing meter configuration does not match the usage ledger"))
  else
    _ ← call WriteValidated;
    Ret (Ok tt).

(** *** Usage *)
Definition meter_values (p : picked_usage) : values :=
  [("event_name", BillingConfig.MeterEventName cfg); ("identifier", pk_ID p);
   ("payload[stripe_customer_id]", pk_Customer p); ("payload[value]", Itoa (pk_Amount p));
   ("timestamp", Itoa (Unix (pk_Occurred p)))].
Definition meter_request (p : picked_usage) : billing_call :=
  Stripe "POST" "/v1/billing/meter_events" (meter_values p) ("canter-usage-" +:+ pk_ID p) None.

Fixpoint dispatch_usage (n : nat) : billing (result unit) :=
  match n with
  | O => Ret (Ok tt)
  | S n' =>
      picked ←! call PickUsage;
      match (picked : option picked_usage) with
      | None => Ret (Ok tt)
      | Some p =>
          _ ←! call (meter_request p);
          _ ←! call (MarkSent (pk_ID p));
          dispatch_usage n'
      end
  end.

Definition DispatchUsage : billing (result unit) :=
  if negb (Ready (Some cfg)) then Ret (Ok tt) else
  _ ←! ValidatePrices;
  _ ←! call MarkUncertain;
  dispatch_usage 100.

(** *** Payment methods *)
Definition paid_invoice (s : stripeSubscription) : bool :=
  match stripeSubscription.LatestInvoice s with Some status => status == "paid" | None => false end.

(** The year and the month of an instant. *)
Definition year_month (t : Z) : Z * Z := let '(y, m, _) := civil (t / Second / 86400) in (y, m).

Definition valid_card (pm : stripeCardMethod) (now : Z) : bool :=
  let '(y, m) := year_month now in
  (1 <=? stripeCardMethod.ExpMonth pm) && (stripeCardMethod.ExpMonth pm <=? 12) &&
  ((y <? stripeCardMethod.ExpYear pm) || ((stripeCardMethod.ExpYear pm =? y) && (m <=? stripeCardMethod.ExpMonth pm))).

Definition paymentReadiness (customer subscription : string) (now : Z)
    : billing (result (option BillingPaymentMethod * bool)) :=
  sub ←! stripe "GET" ("/v1/subscriptions/" +:+ PathEscape subscription)
          [("expand[]", "default_payment_method"); ("expand[]", "latest_invoice")] "" SSubscription;
  let s := sv_Subscription sub in
  if stripeSubscription.Customer s != customer then Ret (Err (conflict "billing customer mismatch")) else
  plan ←! lift (subscriptionPlan cfg s);
  if (plan == "pro") && negb (paid_invoice s) then Ret (Ok (None, false)) else
  pm ←! match sv_PaymentMethod sub with
        | Some pm => Ret (Ok (Some pm))
        | None =>
            c ←! stripe "GET" ("/v1/customers/" +:+ PathEscape customer)
                  [("expand[]", "invoice_settings.default_payment_method")] "" SCustomer;
            Ret (Ok c.2)
        end;
  match (pm : option stripeCardMethod) with
  | None => Ret (Ok (None, false))
  | Some pm =>
      if (stripeCardMethod.ID pm == "") || (stripeCardMethod.Customer pm != customer) ||
         (stripeCardMethod.Type_ pm != "card") || negb (slen (stripeCardMethod.Last4 pm) =? 4)
      then Ret (Ok (None, false))
      else Ret (Ok (Some (BillingPaymentMethod.mk (stripeCardMethod.Brand pm) (stripeCardMethod.Last4 pm)),
                    valid_card pm now && (stripeSubscription.Status s == "active") &&
                    (sv_CollectionMethod sub == "charge_automatically")))
  end.

Definition billingPaymentReadiness (workspace : string) : billing (result (option BillingPaymentMethod * bool)) :=
  row ←! call (BillingOf workspace);
  match (row : option billing_row) with
  | None => Ret (Ok (None, false))
  | Some row =>
      let customer := text (billing_row.CustomerID row) in
      let subscription := text (billing_row.SubscriptionID row) in
      if (customer == "") || (subscription == "") then Ret (Ok (None, false)) else
      now ← call Wall;
      paymentReadiness customer subscription now
  end.
End Gateway.

(** [Store.requireBillingPayment]: [billing] is the configured gateway, if any. *)
Definition requireBillingPayment (billing : option BillingConfig) (workspace : string) : prog billing_answer (result unit) :=
  match billing with
  | None => Ret (Ok tt)
  | Some cfg =>
      if negb (BillingConfig.Enabled cfg) then Ret (Ok tt)
      else if negb (Ready billing) then Ret (Err (conflict "billing is unavailable"))
      else
        r ←! billingPaymentReadiness cfg workspace;
        if negb r.2
        then Ret (Err (conflict "a workspace owner must add or update the payment method in Billing before provisioning paid resources"))
        else Ret (Ok tt)
  end.

(** *** Checkout *)
Section Sessions.
Context `{Unicode} `{StripeDecode} (cfg : BillingConfig) (PublicURL : string).

Definition billing_page : string := TrimRight PublicURL "/"%char +:+ "/app/billing".

(** The provider confirms that nothing of this customer can still be charged. *)
Definition no_subscription (customer : string) : billing (result unit) :=
  l ←! all_subscriptions customer [];
  if l.2 then Ret (Err (conflict "billing history needs reconciliation"))
  else if existsb live_subscription l.1
  then Ret (Err (conflict "this workspace already has billing; use Manage billing"))
  else Ret (Ok tt).

(** A session that is still open is used again for the same plan, and expired for another. *)
Definition resume_checkout (row : billing_row) (customer plan : string) : billing (result (option string)) :=
  match billing_row.CheckoutExpiresAt row with
  | Some expires =>
      if billing_row.CheckoutURL row == "" then Ret (Ok None) else
      now ← call Wall;
      if negb (now <? expires) then Ret (Ok None) else
      let path := "/v1/checkout/sessions/" +:+ PathEscape (billing_row.CheckoutID row) in
      session ←! stripe "GET" path [] "" SCheckoutSession;
      if session.2 != customer then Ret (Err (conflict "checkout customer mismatch"))
      else if session.1 == "open" then
        if billing_row.CheckoutPlan row == plan then
          _ ←! call Commit;
          Ret (Ok (Some (billing_row.CheckoutURL row)))
        else
          _ ←! stripe_post (path +:+ "/expire") [] "";
          Ret (Ok None)
      else if session.1 == "expired" then Ret (Ok None)
      else Ret (Err (conflict "checkout is completing; refresh billing before trying again"))
  | None => Ret (Ok None)
  end.

Definition plan_lines (plan : string) : values :=
  if plan == "pro" then
    [("line_items[0][price]", BillingConfig.ProPriceID cfg); ("line_items[0][quantity]", "1"%string);
     ("line_items[1][price]", BillingConfig.ProUsagePriceID cfg)]
  else [("line_items[0][price]", BillingConfig.PaygPriceID cfg)].
Definition checkout_values (workspace customer plan : string) : values :=
  [("mode", "subscription"%string); ("customer", customer); ("client_reference_id", workspace);
   ("payment_method_collection", "always"%string); ("payment_method_types[]", "card"%string);
   ("success_url", billing_page +:+ "?checkout=complete"); ("cancel_url", billing_page +:+ "?checkout=canceled");
   ("subscription_data[metadata][canter_workspace_id]", workspace); ("subscription_data[metadata][canter_plan]", plan)] ++
  plan_lines plan.
Definition checkout_key (workspace plan : string) (attempt : Z) : string :=
  "canter-checkout-" +:+ workspace +:+ "-" +:+ plan +:+ "-" +:+ Itoa attempt.

Definition new_customer (workspace email : string) : billing (result unit) :=
  c ←! stripe "POST" "/v1/customers" [("email", email); ("metadata[canter_workspace_id]", workspace)]
        ("canter-customer-" +:+ workspace) SCustomer;
  if c.1 == "" then Ret (Err (Errorf "payment provider returned an incomplete customer")) else
  _ ←! call (LinkCustomer workspace c.1);
  call Commit.

Definition new_checkout (workspace customer plan : string) (attempt : Z) : billing (result string) :=
  c ←! stripe "POST" "/v1/checkout/sessions" (checkout_values workspace customer plan) (checkout_key workspace plan attempt) SCheckout;
  let '(id, url, expires) := c in
  if (id == "") || (url == "") || (expires =? 0) then Ret (Err (Errorf "payment provider returned an incomplete checkout")) else
  _ ←! call (SaveCheckout workspace customer id url plan (expires * Second) attempt);
  _ ←! call Commit;
  Ret (Ok url).

Fixpoint startBillingCheckout (fuel : nat) (workspace email plan : string) : billing (result string) :=
  match fuel with
  | O => Ret (Err OutOfFuel)
  | S fuel' =>
      _ ←! ValidatePrices cfg;
      _ ←! call Begin;
      _ ←! call (InsertBilling workspace);
      row ←! call (LockBilling workspace);
      let customer := text (billing_row.CustomerID row) in
      _ ←! (if customer == "" then Ret (Ok tt) else no_subscription customer);
      resumed ←! resume_checkout row customer plan;
      match (resumed : option string) with
      | Some url => Ret (Ok url)
      | None =>
          if customer == "" then
            _ ←! new_customer workspace email;
            startBillingCheckout fuel' workspace email plan
          else new_checkout workspace customer plan (add64 (billing_row.CheckoutAttempt row) 1)
      end
  end.

(** *** The webhook *)
(** 200 with [received]; a status with an error; an error of the store. *)
Inductive webhook_answer : Type :=
  | Received
  | Rejected (status : Z) (e : error)
  | Failed (e : error).

(** [strings.EqualFold(s, t)] for an ASCII [t]: the long s and the Kelvin sign
    are the only other letters that fold to an ASCII one. *)
Fixpoint equal_fold (s t : string) : bool :=
  match t with
  | EmptyString => s == EmptyString
  | String c t' =>
      match s with
      | EmptyString => false
      | String a s' =>
          if (lower_byte c == "s"%char) && HasPrefix s (bytes [197; 191]) then equal_fold (drop_bytes 2 s) t'
          else if (lower_byte c == "k"%char) && HasPrefix s (bytes [226; 132; 170]) then equal_fold (drop_bytes 3 s) t'
          else (lower_byte a == lower_byte c) && equal_fold s' t'
      end
  end.

Definition billing_events : list string :=
  ["checkout.session.completed"; "customer.subscription.created"; "customer.subscription.updated";
   "customer.subscription.deleted"; "invoice.paid"; "invoice.payment_failed"].

(** A positive settled invoice in the catalog's currency. *)
Definition settled_invoice (event : webhook_event) : bool :=
  let invoice := webhook_event.Object event in
  (webhook_event.Type_ event == "invoice.paid") && (invoice_object.ID invoice != "") && (invoice_object.Status invoice == "paid") &&
  (0 <? invoice_object.AmountPaid invoice) && equal_fold (invoice_object.Currency invoice) (Catalog.Currency Current) &&
  (0 <? invoice_object.PaidAt invoice).
Definition invoice_of (workspace : string) (invoice : invoice_object) : invoice_row :=
  invoice_row.mk workspace (invoice_object.AmountPaid invoice) (ToLower (invoice_object.Currency invoice)) (invoice_object.PaidAt invoice * Second).

(** The one live subscription, if any. *)
Fixpoint current_subscription (l : list stripeSubscription) (current : option stripeSubscription) : result (option stripeSubscription) :=
  match l with
  | [] => Ok current
  | s :: l' =>
      if live_subscription s
      then match current with Some _ => Err ErrConflict | None => current_subscription l' (Some s) end
      else current_subscription l' current
  end.

Definition subscription_status (plan : string) (s : stripeSubscription) : string :=
  if (plan == "pro") && (stripeSubscription.Status s == "active") && negb (paid_invoice s) then "payment_pending"
  else stripeSubscription.Status s.

Definition store_failed (p : billing (result unit)) (k : billing webhook_answer) : billing webhook_answer :=
  r ← p; match (r : result unit) with Ok _ => k | Err e => Ret (Failed e) end.

Definition write_subscription (workspace : string) (current : option stripeSubscription) : billing webhook_answer :=
  let finish := fun written =>
    store_failed (_ ←! written; _ ←! call (ClearInactiveSamples workspace); call Commit) (Ret Received) in
  match current with
  | None => finish (call (CancelBilling workspace) : billing (result unit))
  | Some s =>
      match subscriptionPlan cfg s with
      | Err e => Ret (Failed e)
      | Ok plan =>
          let '(start, stop) := period_of s in
          if (start =? 0) || (stop <=? start) then Ret (Rejected 409 (Errorf "invalid subscription period"))
          else finish (call (SetBilling workspace (stripeSubscription.ID s) plan (subscription_status plan s)
                              (start * Second) (stop * Second) (stripeSubscription.CancelAtPeriodEnd s)))
      end
  end.

(** Under the lock of the workspace that has the customer. *)
Definition apply_event (event : webhook_event) (workspace : string) : billing webhook_answer :=
  let invoice := webhook_event.Object event in
  store_failed
    (if settled_invoice event then (call (InsertInvoice (invoice_object.ID invoice) (invoice_of workspace invoice)) : billing (result unit))
     else Ret (Ok tt))
    (r ← all_subscriptions (invoice_object.Customer invoice) [("expand[]", "data.latest_invoice")];
     match (r : result (list stripeSubscription * bool)) with
     | Err e => Ret (Failed e)
     | Ok (_, true) => Ret (Failed (conflict "billing history needs reconciliation"))
     | Ok (l, false) =>
         match current_subscription l None with
         | Err e => Ret (Failed e)
         | Ok current => write_subscription workspace current
         end
     end).

Definition handle_event (event : webhook_event) : billing webhook_answer :=
  if negb (bool_decide (webhook_event.Type_ event ∈ billing_events)) then Ret Received
  else if invoice_object.Customer (webhook_event.Object event) == "" then Ret (Rejected 400 (Errorf "missing billing customer"))
  else
    store_failed (call Begin)
      (inserted ← call (InsertWebhookEvent (webhook_event.ID event));
       match (inserted : result bool) with
       | Err e => Ret (Failed e)
       | Ok false => Ret Received
       | Ok true =>
           locked ← call (LockByCustomer (invoice_object.Customer (webhook_event.Object event)));
           match (locked : result (option string)) with
           | Err e => Ret (Failed e)
           | Ok None => store_failed (call Commit) (Ret Received)
           | Ok (Some workspace) => apply_event event workspace
           end
       end).
End Sessions.

(** [raw]: the body, read up to 1 MiB. *)
Definition billingWebhook `{Unicode} `{StripeDecode} (billing_config : option BillingConfig) (raw : result string) (signature : string)
    : billing webhook_answer :=
  match billing_config with
  | None => Ret (Rejected 503 (Errorf "billing webhook not configured"))
  | Some cfg =>
      if BillingConfig.WebhookSecret cfg == "" then Ret (Rejected 503 (Errorf "billing webhook not configured")) else
      match raw with
      | Err _ => Ret (Rejected 400 (Errorf "invalid webhook body"))
      | Ok raw =>
          now ← call Wall;
          if negb (verifyBillingSignature raw signature (BillingConfig.WebhookSecret cfg) now) then Ret (Failed ErrUnauthorized) else
          match decode_event raw with
          | Err _ => Ret (Rejected 400 (Errorf "invalid webhook event"))
          | Ok event =>
              if webhook_event.ID event == "" then Ret (Rejected 400 (Errorf "invalid webhook event")) else handle_event cfg event
          end
      end
  end.

(** *** Changes of plan *)
Definition field_of (m : gmap string string) (k : string) : string := default "" (m !! k).

Definition scheduled (id : string) : billing (result subscription_view) :=
  stripe "GET" ("/v1/subscriptions/" +:+ PathEscape id) [("expand[]", "schedule")] "" SSubscription.

(** The first phase to come that has a plan. *)
Fixpoint pending_phase (phases : list (Z * gmap string string)) : billing (result (option (string * Z))) :=
  match phases with
  | [] => Ret (Ok None)
  | (start, metadata) :: rest =>
      now ← call Wall;
      let plan := field_of metadata "canter_plan" in
      if (Unix now <? start) && ((plan == "pro") || (plan == "payg")) then Ret (Ok (Some (plan, start * Second)))
      else pending_phase rest
  end.

Definition pendingBillingPlan (workspace : string) : billing (result (option (string * Z))) :=
  row ←! call (BillingOf workspace);
  match (row : option billing_row) with
  | None => Ret (Err no_rows)
  | Some row =>
      let id := text (billing_row.SubscriptionID row) in
      if id == "" then Ret (Ok None) else
      sub ←! scheduled id;
      match sv_Schedule sub with
      | None => Ret (Ok None)
      | Some s =>
          if (sch_Status s != "active") || (field_of (sch_Metadata s) "canter_workspace_id" != workspace) then Ret (Ok None)
          else pending_phase (sch_Phases s)
      end
  end.

Section Plans.
Context (cfg : BillingConfig).

Definition change_key (workspace : string) (attempt : Z) : string :=
  "canter-plan-" +:+ workspace +:+ "-" +:+ Itoa (add64 attempt 1).

Definition create_schedule (id key : string) : billing (result billingSchedule) :=
  stripe "POST" "/v1/subscription_schedules" [("from_subscription", id)] (key +:+ "-create") SSchedule.

(** The items of the phase that runs. *)
Fixpoint kept_items (i : Z) (items : list subscription_item) : values :=
  match items with
  | [] => []
  | item :: rest =>
      let prefix := "phases[0][items][" +:+ Itoa i +:+ "]" in
      [(prefix +:+ "[price]", subscription_item.PriceID item)] ++
      (if subscription_item.PriceID item == BillingConfig.ProPriceID cfg then [(prefix +:+ "[quantity]", "1"%string)] else []) ++
      kept_items (i + 1) rest
  end.

Definition schedule_values (workspace current target : string) (start stop : Z) (items : list subscription_item) : values :=
  [("end_behavior", "release"%string); ("proration_behavior", "none"%string); ("metadata[canter_workspace_id]", workspace);
   ("phases[0][start_date]", Itoa start); ("phases[0][end_date]", Itoa stop); ("phases[0][proration_behavior]", "none"%string);
   ("phases[0][metadata][canter_plan]", current); ("phases[1][start_date]", Itoa stop); ("phases[1][iterations]", "1"%string);
   ("phases[1][proration_behavior]", "none"%string); ("phases[1][metadata][canter_plan]", target)] ++
  kept_items 0 items ++
  (if target == "pro" then
     [("phases[1][items][0][price]", BillingConfig.ProPriceID cfg); ("phases[1][items][0][quantity]", "1"%string);
      ("phases[1][items][1][price]", BillingConfig.ProUsagePriceID cfg)]
   else [("phases[1][items][0][price]", BillingConfig.PaygPriceID cfg)]).

Definition reconcile_schedule (workspace id key : string) (schedule : option billingSchedule) : billing (result unit) :=
  match schedule with
  | Some s =>
      if field_of (sch_Metadata s) "canter_workspace_id" == workspace then Ret (Ok tt) else
      recovered ← create_schedule id key;
      match (recovered : result billingSchedule) with
      | Ok r => if sch_ID r != sch_ID s then Ret (Err (conflict "existing billing schedule requires reconciliation")) else Ret (Ok tt)
      | Err _ => Ret (Err (conflict "existing billing schedule requires reconciliation"))
      end
  | None => Ret (Ok tt)
  end.

Definition write_schedule (workspace id key current target : string) (start stop : Z) (items : list subscription_item)
    (schedule : option billingSchedule) : billing (result unit) :=
  if target == current then
    match schedule with
    | Some s => stripe_post ("/v1/subscription_schedules/" +:+ PathEscape (sch_ID s) +:+ "/release") [] (key +:+ "-release")
    | None => Ret (Ok tt)
    end
  else
    s ←! match schedule with Some s => Ret (Ok s) | None => create_schedule id key end;
    let start := if sch_CurrentStart s =? 0 then start else sch_CurrentStart s in
    stripe_post ("/v1/subscription_schedules/" +:+ PathEscape (sch_ID s))
      (schedule_values workspace current target start stop items) (key +:+ "-update-" +:+ target).

Definition changeBillingPlan (workspace target : string) (expectedEnd : Z) : billing (result unit) :=
  _ ←! ValidatePrices cfg;
  if (target == "pro") && ((BillingConfig.ProPriceID cfg == "") || (BillingConfig.ProUsagePriceID cfg == ""))
  then Ret (Err (conflict "Pro is not configured")) else
  _ ←! call Begin;
  row ←! call (LockBilling workspace);
  let id := text (billing_row.SubscriptionID row) in
  if id == "" then Ret (Err (conflict "set up billing first")) else
  sub ←! scheduled id;
  let s := sv_Subscription sub in
  current ←! lift (subscriptionPlan cfg s);
  if (stripeSubscription.Customer s != text (billing_row.CustomerID row)) || (stripeSubscription.Status s != "active") ||
     stripeSubscription.CancelAtPeriodEnd s
  then Ret (Err (conflict "resolve the current subscription status first")) else
  let '(start, stop) := period_of s in
  let changed := conflict "billing period changed; refresh and review again" in
  if negb (expectedEnd =? stop) then Ret (Err changed) else
  now ← call Wall;
  if (stop <=? Unix now) || (start =? 0) then Ret (Err changed) else
  let key := change_key workspace (billing_row.CheckoutAttempt row) in
  _ ←! reconcile_schedule workspace id key (sv_Schedule sub);
  _ ←! write_schedule workspace id key current target start stop (stripeSubscription.Items s) (sv_Schedule sub);
  _ ←! call (CountAttempt workspace);
  call Commit.
End Plans.

(** *** Collecting usage *)
Section Collector.
Context `{Unicode}.

Definition invalid_reading (seen : list string) (r : BillingResource) : bool :=
  (BillingResource.ID r == "") || bool_decide (BillingResource.ID r ∈ seen) || (BillingResource.Units r <? 0) ||
  (Z.shiftl 1 50 <? BillingResource.Units r) || ((BillingResource.Kind r != "compute") && (BillingResource.Kind r != "storage")).
Definition invalid_server_reading (seen : list string) (r : BillingResource) : bool :=
  (BillingResource.ID r == "") || (BillingResource.Kind r != "compute") || (BillingResource.Units r <? 1) ||
  (Z.shiftl 1 50 <? BillingResource.Units r) || bool_decide (BillingResource.ID r ∈ seen).

(** The readings so far with these, unless one is invalid or seen before. *)
Fixpoint add_readings (invalid : list string -> BillingResource -> bool) (e : error) (resources items : list BillingResource)
    : result (list BillingResource) :=
  match items with
  | [] => Ok resources
  | r :: rest =>
      if invalid (BillingResource.ID <$> resources) r then Err e else add_readings invalid e (resources ++ [r]) rest
  end.

Fixpoint meter_systems (workspace : string) (systems : list System) (resources : list BillingResource) : billing (result (list BillingResource)) :=
  match systems with
  | [] => Ret (Ok resources)
  | s :: rest =>
      _ ←! lift (validateCanonicalSystemForWorkspace workspace s);
      items ←! call (MeterSystem s);
      resources ←! lift (add_readings invalid_reading (Errorf "invalid metering snapshot") resources items);
      meter_systems workspace rest resources
  end.

Fixpoint meter_servers (servers : list VPS) (resources : list BillingResource) : billing (result (list BillingResource)) :=
  match servers with
  | [] => Ret (Ok resources)
  | vm :: rest =>
      if (VPS.Phase vm == "drafted") || (VPS.Phase vm == "deleted") then meter_servers rest resources else
      can ← call CanMeterServers;
      if negb can then Ret (Err (Errorf "VPS metering unavailable")) else
      items ←! call (MeterServer (VPS.Plan_ vm));
      resources ←! lift (add_readings invalid_server_reading (Errorf "invalid VPS metering snapshot") resources items);
      meter_servers rest resources
  end.

Definition inactive_issue : string :=
  "Billing inactive: new paid provisioning is blocked. Existing resources and data are retained for owner review; inactive time is not charged.".

(** Under the advisory lock. *)
Definition collect_locked (workspace : string) : billing (result unit) :=
  row ←! call (BillingOf workspace);
  match (row : option billing_row) with
  | None => Ret (Err no_rows)
  | Some row =>
      if billing_row.Status row != "active" then
        _ ←! call (DropSamples workspace);
        call (NoteIssue workspace inactive_issue)
      else
        systems ←! call (SystemsOf workspace);
        resources ←! meter_systems workspace systems [];
        servers ←! call (ServersOf workspace);
        resources ←! meter_servers servers resources;
        now ← call Wall;
        call (RecordSnapshot workspace resources (now - now mod Second))
  end.

Definition collectWorkspaceUsage (workspace : string) : billing (result unit) :=
  locked ←! call (TryLock workspace);
  if negb locked then Ret (Ok tt) else
  r ← collect_locked workspace;
  _ ← call (Unlock workspace);
  Ret r.

Definition attention_issue : string := "Resource metering needs attention; unverified time is not charged.".

Fixpoint collect_workspaces (workspaces : list string) (first : option error) : billing (option error) :=
  match workspaces with
  | [] => Ret first
  | w :: rest =>
      r ← collectWorkspaceUsage w;
      match (r : result unit) with
      | Ok _ => collect_workspaces rest first
      | Err _ =>
          _ ← call (NoteIssue w attention_issue);
          collect_workspaces rest
            (match first with None => Some (Errorf ("resource metering failed for workspace " +:+ w)) | _ => first end)
      end
  end.

Definition CollectUsage : billing (result unit) :=
  workspaces ←! call BillingWorkspaces;
  first ← collect_workspaces workspaces None;
  Ret (match (first : option error) with None => Ok tt | Some e => Err e end).
End Collector.
