(* ===== verification/Servers.v ===== *)
(** * Standalone servers of the control plane (internal/controlplane/vps.go)

    A server is drafted by anyone who may draft, approved by a person, created,
    watched and destroyed by a dispatcher.  Its row and the spend guard are
    tables ([server_db], which holds the tables of initial deployments, for the
    reservations and the caps are shared); a transaction is one step.  The
    service, the routes and the dispatcher are programs over [server_call], whose
    [E] calls are the SDK's (Vps) and whose others are statements of the database.

    The copy of the flag [deleteRequested] inside the document is left out:
    whatever reads a document overwrites it with the column. *)

From S2P Require Import Prelude Effects GoStrings Digest Documents Json ControlDocuments SandboxSpec Calls Creation Vps.
From S2P Require Import Tables LeaseQueue Deployments Rows Billing.
#[local] Open Scope Z_scope.

(** ** The digest that is approved *)
Definition shape_json (s : Shape) : json :=
  JObject (field "ID" (JString (Shape.ID s)) ++ field "Name" (JString (Shape.Name s)) ++ field "VCPU" (JInt (Shape.VCPU s)) ++
           field "Memory" (JInt (Shape.Memory s)) ++ field "GB" (JInt (Shape.GB s))).
Definition vps_request_json (r : VPSRequest) : json :=
  JObject (field "name" (JString (VPSRequest.Name r)) ++ field "vcpus" (JInt (VPSRequest.VCPUs r)) ++
           field "memoryMiB" (JInt (VPSRequest.MemoryMiB r)) ++ field "diskGiB" (JInt (VPSRequest.DiskGiB r)) ++
           field "sshPublicKey" (JString (VPSRequest.SSHPublicKey r)) ++ field "sshCidr" (JString (VPSRequest.SSHCIDR r)) ++
           field "forSeconds" (JInt (VPSRequest.ForSeconds r))).
Definition vps_plan_json (p : VPSPlan) : json :=
  JObject (field "spec" (spec_tree (VPSPlan.Spec_ p)) ++ field "shape" (shape_json (VPSPlan.Shape_ p)) ++
           field "imageId" (JString (VPSPlan.ImageID p)) ++ field "networks" (strings_json (VPSPlan.Networks p))).
Definition vpsDigest (v : VPS) : string :=
  "sha256:" +:+ sha256_hex (render (JObject (
    field "Workspace" (JString (VPS.WorkspaceID v)) ++ field "ID" (JString (VPS.ID v)) ++
    field "Request" (vps_request_json (VPS.Request v)) ++ field "Plan" (vps_plan_json (VPS.Plan_ v)) ++
    field "MonthlyCents" (JInt (VPS.MonthlyCents v))))).

(** ** The tables *)
Record server_db : Type := Db {
  servers : gmap string server_row;         (* workspace_vps, by id *)
  ledger : deployment_db                    (* workspace_usage_caps and usage_reservations *)
}.
Definition with_servers v db := Db v db.(ledger).
Definition with_ledger v db := Db db.(servers) v.

(** The CHECK of the column phase. *)
Definition server_phases : list string := ["drafted"; "queued"; "creating"; "ready"; "deleting"; "deleted"].

(** [scanVPS]: the document and the column delete_requested. *)
Definition scanVPS (row : option server_row) : result (VPS * bool) :=
  match row with
  | None => Err ErrNotFound
  | Some r => Ok (server_row.Document r, server_row.DeleteRequested r)
  end.
Definition server_in (workspace id : string) (db : server_db) : option server_row :=
  r ← servers db !! id; if server_row.WorkspaceID r == workspace then Some r else None.
Definition Store_VPS (workspace id : string) (db : server_db) : result (VPS * bool) := scanVPS (server_in workspace id db).

Definition newest_first (a b : server_row) : Prop :=
  VPS.CreatedAt (server_row.Document b) <= VPS.CreatedAt (server_row.Document a).
#[export] Instance newest_first_dec : RelDecision newest_first.
Proof. intros a b. unfold newest_first. apply _. Defined.
Definition ListVPS (workspace : string) (db : server_db) : list (VPS * bool) :=
  (fun r => (server_row.Document r, server_row.DeleteRequested r)) <$>
    merge_sort newest_first (List.filter (fun r => server_row.WorkspaceID r == workspace) (snd <$> map_to_list (servers db))).

(** [now]: the database's clock, the default of next_attempt_at. *)
Definition insert_server (v : VPS) (now : Z) (db : server_db) : result unit * server_db :=
  match servers db !! VPS.ID v with
  | Some _ => (Err unique_violation, db)
  | None => (Ok tt, with_servers (<[VPS.ID v := server_row.mk (VPS.WorkspaceID v) v false now]> (servers db)) db)
  end.

(** [UPDATE workspace_vps SET ... WHERE workspace_id and id]. *)
Definition update_server (workspace id : string) (f : server_row -> server_row) (db : server_db) : server_db :=
  match server_in workspace id db with
  | None => db
  | Some r => with_servers (<[id := f r]> (servers db)) db
  end.
Definition saved (v : VPS) (next now : Z) (r : server_row) : server_row :=
  server_row.with_NextAttemptAt (if server_row.DeleteRequested r then now else next) (server_row.with_Document v r).
Definition delete_requested (now : Z) (r : server_row) : server_row :=
  server_row.with_NextAttemptAt now (server_row.with_DeleteRequested true r).

(** ** The spend guard *)
Definition reservation_cents (v : VPS) : Z :=
  if 0 <? VPSRequest.ForSeconds (VPS.Request v)
  then Z.max initialDeploymentReservationCents
         (div64 (sub64 (add64 (mul64 (VPS.MonthlyCents v) (VPSRequest.ForSeconds (VPS.Request v))) (720 * 3600)) 1) (720 * 3600))
  else Z.max initialDeploymentReservationCents (VPS.MonthlyCents v).

Definition of_server (workspace id : string) (r : usage_reservation) : bool :=
  (usage_reservation.WorkspaceID r == workspace) && (usage_reservation.SubjectKind r == "vps") &&
  (usage_reservation.SubjectID r == id).

(** Under the row lock of the cap. *)
Definition reserve_server (rid : result string) (workspace id : string) (amount : Z) (db : deployment_db) : result deployment_db :=
  match caps db !! workspace with
  | None => Err no_rows
  | Some (usage_cap.mk limit reserved spent) =>
      if limit <? reserved + spent + amount
      then Err (WrapfBefore ErrCapacity ": this workspace cannot allocate more compute")
      else
        rid ← rid;
        if existsb (fun r => usage_reservation.ID r == rid) (reservations db) || existsb (of_server workspace id) (reservations db)
        then Err unique_violation
        else Ok (with_usage (<[workspace := usage_cap.mk limit (reserved + amount) spent]> (caps db))
                   (reservations db ++ [usage_reservation.mk rid workspace "vps" id amount "reserved"]) db)
  end.

Definition reserved_server (workspace id : string) (r : usage_reservation) : bool :=
  of_server workspace id r && (usage_reservation.Phase r == "reserved").
Definition released (r : usage_reservation) : usage_reservation :=
  usage_reservation.mk (usage_reservation.ID r) (usage_reservation.WorkspaceID r) (usage_reservation.SubjectKind r)
    (usage_reservation.SubjectID r) (usage_reservation.AmountCents r) "released".

Definition releaseReservation (workspace id : string) (db : deployment_db) : result unit * deployment_db :=
  match List.find (reserved_server workspace id) (reservations db) with
  | None => (Ok tt, db)
  | Some r =>
      let amount := usage_reservation.AmountCents r in
      let reservations' := update_where (reserved_server workspace id) released (reservations db) in
      match caps db !! workspace with
      | None => (Ok tt, with_usage (caps db) reservations' db)
      | Some (usage_cap.mk limit reserved spent) =>
          if reserved - amount <? 0 then (Err check_violation, db)
          else (Ok tt, with_usage (<[workspace := usage_cap.mk limit (reserved - amount) spent]> (caps db)) reservations' db)
      end
  end.

(** ** Approval, in one transaction.  [t1] and [t2] are the two readings of the
    clock; the answer tells whether the server was approved by this transaction. *)
Definition approved (now : Z) (actor : string) (v : VPS) : VPS :=
  VPS.mk (VPS.MonthlyCents v) (VPS.ProvisioningFailed v) (VPS.ID v) (VPS.WorkspaceID v) (VPS.Request v) (VPS.Plan_ v)
    (VPS.Digest v) "queued" (VPS.CreatedAt v) (Some now) actor
    (if 0 <? VPSRequest.ForSeconds (VPS.Request v) then Some (now + VPSRequest.ForSeconds (VPS.Request v) * Second)
     else VPS.ExpiresAt v)
    (VPS.Address v) (VPS.HostFingerprint v) (VPS.Failure v).

Definition approve_server (workspace id digest actor : string) (rid : result string) (t1 t2 : Z) (db : server_db)
    : result (VPS * bool) * server_db :=
  match Store_VPS workspace id db with
  | Err e => (Err e, db)
  | Ok (v, _) =>
      if (VPS.Digest v != digest) || (VPS.Digest v != vpsDigest v) || (digest == EmptyString) then (Err ErrConflict, db)
      else if VPS.Phase v != "drafted" then
        (match VPS.ApprovedAt v with Some _ => Ok (v, false) | None => Err ErrConflict end, db)
      else if 30 * Minute <? t1 - VPS.CreatedAt v
      then (Err (WrapfBefore ErrConflict ": this VM proposal expired; ask Canter to refresh it"), db)
      else
        match caps (ledger db) !! workspace with
        | None => (Err no_rows, db)
        | Some _ =>
            if VPS.MonthlyCents v <? 1 then (Err ErrConflict, db) else
            match reserve_server rid workspace id (reservation_cents v) (ledger db) with
            | Err e => (Err e, db)
            | Ok l =>
                let v := approved t2 actor v in
                (Ok (v, true), update_server workspace id (server_row.with_Document v) (with_ledger l db))
            end
        end
  end.

(** The servers the dispatcher looks at. *)
Definition due_first (a b : string * server_row) : Prop := server_row.NextAttemptAt a.2 <= server_row.NextAttemptAt b.2.
#[export] Instance due_first_dec : RelDecision due_first.
Proof. intros a b. unfold due_first. apply _. Defined.
Definition due_servers (now : Z) (db : server_db) : list (string * string) :=
  (fun kv => (server_row.WorkspaceID kv.2, kv.1)) <$>
    take 100 (merge_sort due_first
      (List.filter (fun kv => negb ((VPS.Phase (server_row.Document kv.2) == "drafted") ||
                                    (VPS.Phase (server_row.Document kv.2) == "deleted")) &&
                              (server_row.NextAttemptAt kv.2 <=? now)) (map_to_list (servers db)))).

(** ** What the programs call *)
Inductive server_call : Type :=
  | ServerNow                                                   (* the clock of the store *)
  | ServerNewID (prefix : string)
  | PayFor (workspace : string)                                 (* requireBillingPayment *)
  | RoleOf (account workspace : string)                         (* Membership *)
  | ServerAudit (workspace : string) (actor : ActorRef) (action subject : string)
  | ContextErr                                                  (* ctx.Err() *)
  (* VPSEngine *)
  | EPlanVPS (workspace id : string) (request : VPSRequest)
  | EApplyVPS (plan : VPSPlan) (deadline : Z)
  | EVPSHostFingerprint (plan : VPSPlan)
  | EDestroyVPS (plan : VPSPlan)
  (* statements and transactions *)
  | InsertServer (v : VPS)
  | GetServer (workspace id : string)
  | ListServers (workspace : string)
  | ApproveServer (workspace id digest actor : string)
  | RequestDeletion (workspace id : string)
  | TryLockServer (id : string) | UnlockServer (id : string)    (* the advisory lock *)
  | DeletionRequested (workspace id : string)
  | SaveServer (v : VPS) (next : Z)
  | ReleaseReservation (workspace id : string)
  | DueServers
  (* goroutines *)
  | TakeSlot                                                    (* slots <- struct{}{}, if there is room *)
  | SpawnReconcile (workspace id : string)
  | ServerTick.                                                 (* the tick, or ctx.Done() *)

Definition server_answer (c : server_call) : Type :=
  match c with
  | ServerNow => Z
  | ServerNewID _ => result string
  | RoleOf _ _ => result string
  | ServerAudit _ _ _ _ | UnlockServer _ | SpawnReconcile _ _ => unit
  | ContextErr | ServerTick => option error
  | EPlanVPS _ _ _ => result VPSPlan
  | EApplyVPS _ _ => result State
  | EVPSHostFingerprint _ => result string
  | GetServer _ _ => result (VPS * bool)
  | ListServers _ => result (list (VPS * bool))
  | ApproveServer _ _ _ _ => result (VPS * bool)
  | TryLockServer _ | DeletionRequested _ _ => result bool
  | DueServers => result (list (string * string))
  | TakeSlot => bool
  | _ => result unit
  end.
Abbreviation sprog := (prog server_answer).
Abbreviation ask c := (call c : sprog (server_answer c)) (only parsing).

(** ** Drafting *)
Section Service.
Context `{Unicode} (ssh_authorized_key : string -> option (string * list string * string)).
Context (vps_engine : bool).

Definition outside_bounds (request : VPSRequest) (plan : VPSPlan) : bool :=
  let shape := VPSPlan.Shape_ plan in
  (Shape.VCPU shape <? VPSRequest.VCPUs request) || (Shape.Memory shape <? VPSRequest.MemoryMiB request) ||
  (Shape.GB shape <? VPSRequest.DiskGiB request) || (32 <? Shape.VCPU shape) || (131072 <? Shape.Memory shape) ||
  (2048 <? Shape.GB shape) || (length (VPSPlan.Networks plan) =? 0)%nat || (VPSPlan.ImageID plan == EmptyString) ||
  (Shape.ID shape == EmptyString).

Definition drafted (workspace id : string) (request : VPSRequest) (plan : VPSPlan) (monthly now : Z) : VPS :=
  let v := VPS.mk monthly false id workspace request plan EmptyString "drafted" now None EmptyString None EmptyString EmptyString EmptyString in
  VPS.with_Digest (vpsDigest v) v.

Definition DraftVPS (workspace : string) (input : VPSRequest) (actor : ActorRef) : sprog (result VPS) :=
  input ←! lift (VPSRequest_Validate ssh_authorized_key input);
  if negb vps_engine then Ret (Err (Errorf "Canter VM provisioning is unavailable on this server")) else
  id ←! ask (ServerNewID "vps_");
  planned ← ask (EPlanVPS workspace id input);
  match (planned : result VPSPlan) with
  | Err _ => Ret (Err (Errorf "Canter could not find an available VM for this plan; retry or adjust the sizing"))
  | Ok plan =>
      if outside_bounds input plan then Ret (Err (Errorf "available VM allocation is outside supported bounds")) else
      now ← ask ServerNow;
      monthly ←! lift (EstimateComputeMonthlyCents (Shape.VCPU (VPSPlan.Shape_ plan)) (Shape.Memory (VPSPlan.Shape_ plan)));
      let v := drafted workspace id input plan monthly now in
      _ ←! ask (InsertServer v);
      _ ← ask (ServerAudit workspace actor "vps.drafted" id);
      Ret (Ok v)
  end.

Definition ApproveVPS (workspace id digest : string) (actor : ActorRef) : sprog (result VPS) :=
  if ActorRef.Kind actor != "human" then Ret (Err ErrForbidden) else
  _ ←! ask (PayFor workspace);
  r ←! ask (ApproveServer workspace id digest (ActorRef.ID actor));
  _ ← (if (r : VPS * bool).2 then ask (ServerAudit workspace actor "vps.approved" id) else Ret tt);
  Ret (Ok r.1).

(** ** The routes *)
Inductive route_answer : Type :=
  | Servers (l : list (VPS * bool))
  | Server_ (v : VPS) (deleting : bool)
  | CreatedServer (v : VPS)
  | AcceptedServer (v : VPS)
  | DeletionRequested_
  | MethodNotAllowed
  | BadBody
  | RouteError (e : error).

(** [HTTPServer.allowWorkspace]. *)
Definition allowWorkspace (p : Principal) (workspace : string) (write : bool) : sprog (result unit) :=
  match Principal.Installation_ p with
  | Some i =>
      let a := Installation.Authority_ i in
      Ret (if (Principal.WorkspaceID p != workspace) || negb (Authority.Inspect a) || (write && negb (Authority.Draft a))
           then Err ErrForbidden else Ok tt)
  | None =>
      match Principal.Account_ p with
      | None => Ret (Err ErrUnauthorized)
      | Some account =>
          role ←! ask (RoleOf (Account.ID account) workspace);
          Ret (if write && ((role : string) == "viewer") then Err ErrForbidden else Ok tt)
      end
  end.

Definition answer {A} (f : A -> route_answer) (p : sprog (result A)) : sprog route_answer :=
  r ← p; Ret (match r with Ok a => f a | Err e => RouteError e end).

Definition request_deletion (p : Principal) (workspace id : string) : sprog (result unit) :=
  v ←! ask (GetServer workspace id);
  if VPS.Phase (v : VPS * bool).1 == "drafted" then Ret (Err ErrConflict) else
  _ ←! ask (RequestDeletion workspace id);
  _ ← ask (ServerAudit workspace (Principal.Actor p) "vps.deletion-requested" (VPS.ID v.1));
  Ret (Ok tt).

(** [request] and [digest]: the body as the route decodes it. *)
Definition workspaceVPS (method : string) (p : Principal) (workspace : string) (parts : list string)
    (request : option VPSRequest) (digest : option string) : sprog route_answer :=
  match parts, method == "GET" with
  | [], true => answer Servers (ask (ListServers workspace))
  | [id], true => answer (fun v => Server_ v.1 v.2) (ask (GetServer workspace id))
  | _, _ =>
      if method != "POST" then Ret MethodNotAllowed else
      allowed ← allowWorkspace p workspace true;
      match (allowed : result unit) with
      | Err e => Ret (RouteError e)
      | Ok _ =>
          match parts with
          | [] =>
              if match Principal.Installation_ p with Some i => negb (Authority.Draft (Installation.Authority_ i)) | None => false end
              then Ret (RouteError ErrForbidden) else
              match request with
              | None => Ret BadBody
              | Some input => answer CreatedServer (DraftVPS workspace input (Principal.Actor p))
              end
          | _ =>
              if match Principal.Account_ p, Principal.Installation_ p with Some _, None => false | _, _ => true end
              then Ret (RouteError ErrForbidden) else
              match parts with
              | [id; action] =>
                  if action == "approve" then
                    match digest with
                    | None => Ret BadBody
                    | Some digest => answer AcceptedServer (ApproveVPS workspace id digest (Principal.Actor p))
                    end
                  else if action == "delete" then answer (fun _ => DeletionRequested_) (request_deletion p workspace id)
                  else Ret (RouteError ErrNotFound)
              | _ => Ret (RouteError ErrNotFound)
              end
          end
      end
  end.
End Service.

(** ** The dispatcher *)
Definition system_actor : ActorRef := ActorRef.mk "system" "vps-dispatcher" EmptyString EmptyString.

(** [VPSDispatcher.save]. *)
Definition save (v : VPS) : sprog (result unit) :=
  t ← ask ServerNow;
  next ← (if VPS.Phase v == "ready" then
            t ← ask ServerNow;
            let next := (t : Z) + Minute in
            Ret (match VPS.ExpiresAt v with Some expires => if expires <? next then expires else next | None => next end)
          else Ret ((t : Z) + 10 * Second) : sprog Z);
  _ ← ask ServerNow;
  ask (SaveServer v next).

Definition failing (why : string) (v : VPS) : VPS := VPS.with_Failure why (VPS.with_Phase "deleting" v).
Definition failed_provisioning (why : string) (v : VPS) : VPS := VPS.with_ProvisioningFailed true (failing why v).
Definition removed (v : VPS) : VPS :=
  VPS.with_Failure (if VPS.ProvisioningFailed v then "Provisioning failed; the allocated resources have been removed."%string else EmptyString)
    (VPS.with_Address EmptyString (VPS.with_Phase "deleted" v)).

Definition remove_server (v : VPS) : sprog (result unit) :=
  let v := VPS.with_Phase "deleting" v in
  _ ←! save v;
  destroyed ← ask (EDestroyVPS (VPS.Plan_ v));
  match (destroyed : result unit) with
  | Err e =>
      _ ← save (VPS.with_Failure "Deletion is still pending. Canter will retry until removal is verified." v);
      Ret (Err e)
  | Ok _ =>
      _ ←! ask (ReleaseReservation (VPS.WorkspaceID v) (VPS.ID v));
      _ ←! save (removed v);
      _ ← ask (ServerAudit (VPS.WorkspaceID v) system_actor "vps.deleted" (VPS.ID v));
      Ret (Ok tt)
  end.

Definition apply_deadline (v : VPS) : Z :=
  let deadline := default zero_time (VPS.ApprovedAt v) + 10 * Minute in
  match VPS.ExpiresAt v with Some expires => if expires <? deadline then expires else deadline | None => deadline end.

(** The address of a server that is ready. *)
Definition ready_address (state : State) : option string :=
  match State.Resources state with
  | [r] => if (Resource.Address r == EmptyString) || (State.Phase state != "ready") then None else Some (Resource.Address r)
  | _ => None
  end.

Definition made_ready (address fingerprint : string) (v : VPS) : VPS :=
  VPS.with_Failure EmptyString (VPS.with_HostFingerprint fingerprint (VPS.with_Address address (VPS.with_Phase "ready" v))).

Definition create_server (v : VPS) : sprog (result unit) :=
  applied ← ask (EApplyVPS (VPS.Plan_ v) (apply_deadline v));
  match (applied : result State) with
  | Err e =>
      ended ← ask ContextErr;
      match (ended : option error) with
      | Some ended => Ret (Err ended)
      | None =>
          _ ← save (failed_provisioning "Provisioning did not finish. Canter is cleaning up the allocation." v);
          Ret (Err e)
      end
  | Ok state =>
      match ready_address state with
      | None => save (failed_provisioning "VM access could not be verified; cleaning up." v)
      | Some address =>
          proof ← ask (EVPSHostFingerprint (VPS.Plan_ v));
          match (proof : result string) with
          | Err _ => save (failed_provisioning "SSH setup could not be verified; cleaning up." v)
          | Ok fingerprint =>
              _ ←! save (made_ready address fingerprint v);
              _ ← ask (ServerAudit (VPS.WorkspaceID v) system_actor "vps.ready" (VPS.ID v));
              Ret (Ok tt)
          end
      end
  end.

Definition start_server (v : VPS) : sprog (result unit) :=
  if VPS.Phase v == "queued" then
    paid ← ask (PayFor (VPS.WorkspaceID v));
    match (paid : result unit) with
    | Err _ => save (failing "Billing needs attention; provisioning was cancelled." v)
    | Ok _ =>
        let v := VPS.with_Phase "creating" v in
        _ ←! save v;
        create_server v
    end
  else create_server v.

Definition reconcile_locked (workspace id : string) : sprog (result unit) :=
  read ←! ask (GetServer workspace id);
  let v := (read : VPS * bool).1 in
  if (VPS.Phase v == "drafted") || (VPS.Phase v == "deleted") then Ret (Ok tt)
  else if match VPS.ApprovedAt v with None => true | Some _ => VPS.Digest v != vpsDigest v end
  then Ret (Err (Errorf "VM approval is missing or changed"))
  else
    remove ←! ask (DeletionRequested workspace id);
    now ← ask ServerNow;
    let expired := match VPS.ExpiresAt v with Some expires => expires <=? now | None => false end in
    if (remove : bool) || expired || (VPS.Phase v == "deleting") then remove_server v
    else if VPS.Phase v == "ready" then save v
    else start_server v.

Definition Reconcile (workspace id : string) : sprog (result unit) :=
  locked ←! ask (TryLockServer id);
  if negb locked then Ret (Ok tt) else
  r ← reconcile_locked workspace id;
  _ ← ask (UnlockServer id);
  Ret r.

Fixpoint spawn_all (items : list (string * string)) : sprog unit :=
  match items with
  | [] => Ret tt
  | (workspace, id) :: rest =>
      free ← ask TakeSlot;
      _ ← (if (free : bool) then ask (SpawnReconcile workspace id) else Ret tt);
      spawn_all rest
  end.
Fixpoint VPSDispatcher_Run (fuel : nat) : sprog error :=
  match fuel with
  | O => Ret OutOfFuel
  | S fuel' =>
      due ← ask DueServers;
      match (due : result (list (string * string))) with
      | Err e => Ret e
      | Ok items =>
          _ ← spawn_all items;
          w ← ask ServerTick;
          match (w : option error) with Some e => Ret e | None => VPSDispatcher_Run fuel' end
      end
  end.
