(* ===== verification/ObjectStore.v ===== *)
(** * The object store client (internal/provider/m1/client.go)

    The SDK's interface [objectStore] over the operations of an S3 service: each
    method is a program over [s3_call].  The service is a parameter, and so is
    the AWS SDK, whose operations the calls are; [Codec] is encoding/json.

    [S3Bucket] states what the service promises of one object: conditional puts,
    and etags that name contents.  Over such a service the client is the store
    that the theorems about concurrent writers ask for ([m1_store]). *)

From S2P Require Import Prelude Effects GoStrings Documents Json SandboxSpec Calls Systems Endpoints Provider.
From S2P Require Import Machine Writers Concurrency.

(** ** The calls *)
Inductive put_condition : Type := Unconditional | IfNoneMatch (etags : string) | IfMatch (etag : string).

Inductive s3_call : Type :=
  | PutObject (key body contentType : string) (condition : put_condition)
  | GetObject (key : string)
  | DeleteObject (key : string)
  | HeadObject (key : string)
  | HeadBucket
  | PresignPutObject (key contentType : string) (expires : Z)
  | PresignGetObject (key : string) (expires : Z)
  | NextPage (prefix : string) (page : nat).   (* of a ListObjectsV2Paginator *)

Record s3_object : Type := S3Object {
  so_ContentLength : option Z;
  so_Body : string * option error;
  so_ETag : option string
}.

(** The sizes of the objects of a page, and whether there are more pages. *)
Record s3_page : Type := S3Page { pg_Sizes : list (option Z); pg_More : bool }.

Definition s3_answer (c : s3_call) : Type :=
  match c with
  | PutObject _ _ _ _ => result (option string)
  | GetObject _ => result s3_object
  | DeleteObject _ | HeadObject _ | HeadBucket => result unit
  | PresignPutObject _ _ _ | PresignGetObject _ _ => result string
  | NextPage _ _ => result s3_page
  end.

Abbreviation s3 := (prog s3_answer).

Class Codec : Type := {
  MarshalIndent : forall k, doc k -> result string;
  Decode : forall k, string -> result (doc k)
}.

(** ** Errors and endpoints *)
(** [errors.As(err, &apiErr)] for a [smithy.APIError], and its code. *)
Fixpoint api_error (e : error) : option string :=
  match e with
  | APIError code _ => Some code
  | Wrapf _ e' | WrapfBefore e' _ | AmbiguousManagedResourceError _ _ e' | TransportError _ e' | URLError _ _ e' => api_error e'
  | _ => None
  end.
Definition has_code (codes : list string) (e : error) : bool :=
  match api_error e with Some code => existsb (fun c => code == c) codes | None => false end.
Definition isPrecondition : error -> bool := has_code ["PreconditionFailed"; "ConditionalRequestConflict"].
Definition missing_object : error -> bool := has_code ["NoSuchKey"; "NotFound"].

Section Endpoint.
Context `{Standard}.

Definition validEndpointURL (raw : string) : bool :=
  match url_Parse raw with
  | None => false
  | Some u =>
      if (url_Hostname u == "") || match url_User u with Some _ => true | None => false end ||
         (url_RawQuery u != "") || (url_Fragment u != "") || (url_Opaque u != "") then false
      else if url_Scheme u == "https" then true
      else (url_Scheme u == "http") && ((url_Hostname u == "localhost") || loopback_IP (url_Hostname u))
  end.

(** The settings the client is made from: endpoint, bucket, keys and region. *)
Definition store_settings (getenv : string -> string) : result (string * string * string * string * string) :=
  let endpoint := getenv "CANTER_M1_ENDPOINT" in
  let bucket := getenv "CANTER_M1_BUCKET" in
  let access := getenv "CANTER_M1_ACCESS_KEY" in
  let secret := getenv "CANTER_M1_SECRET_KEY" in
  let region := if getenv "CANTER_M1_REGION" == "" then "auto"%string else getenv "CANTER_M1_REGION" in
  reject_if ((endpoint == "") || (bucket == "") || (access == "") || (secret == ""))
    (Errorf "m1 credentials are incomplete");;
  reject_if (negb (validEndpointURL endpoint))
    (Errorf "m1 endpoint must be an HTTPS URL without credentials, query, or fragment");;
  Ok (endpoint, bucket, access, secret, region).
End Endpoint.

(** ** The client *)
Definition maxObjectBytes : Z := Z.shiftl 512 20.
Definition maxJSONBytes : Z := Z.shiftl 16 20.
Definition maxErrorResponseBytes : Z := Z.shiftl 64 10.

(** [boundedErrorResponseTransport.RoundTrip]: the body of a response that is not
    a success is cut. *)
Definition bounded_response (status : Z) (body : string * option error) : string * option error :=
  if (200 <=? status) && (status <? 300) then body else limit_reader maxErrorResponseBytes body.

Section Store.
Context `{Codec}.

Definition etag_of (etag : option string) : string := default "" etag.

Definition Store_Put (key data contentType : string) : s3 (result unit) :=
  _ ←! call (PutObject key data contentType Unconditional);
  Ret (Ok tt).

Definition Store_Delete (key : string) : s3 (result unit) := call (DeleteObject key).

Definition Store_PutJSON (k : kind) (key : string) (value : doc k) : s3 (result unit) :=
  b ←! lift (MarshalIndent k value);
  Store_Put key b "application/json".

Definition put_conditional (k : kind) (key : string) (value : doc k) (condition : put_condition)
    : s3 (result (string * bool)) :=
  b ←! lift (MarshalIndent k value);
  out ← call (PutObject key b "application/json" condition);
  Ret (match (out : result (option string)) with
       | Ok etag => Ok (etag_of etag, true)
       | Err e => if isPrecondition e then Ok ("", false) else Err e
       end).

Definition Store_PutJSONIfAbsent (k : kind) (key : string) (value : doc k) : s3 (result (string * bool)) :=
  put_conditional k key value (IfNoneMatch "*").
Definition Store_PutJSONIfMatch (k : kind) (key etag : string) (value : doc k) : s3 (result (string * bool)) :=
  put_conditional k key value (IfMatch etag).

Definition too_large (limit : Z) : error := Errorf ("object exceeds " +:+ Itoa limit +:+ " bytes").

Definition read_object (limit : Z) (out : s3_object) : result (string * string) :=
  reject_if match so_ContentLength out with Some n => limit <? n | None => false end (too_large limit);;
  match limit_reader (limit + 1) (so_Body out) with
  | (_, Some e) => Err e
  | (b, None) => reject_if (limit <? slen b) (too_large limit);; Ok (b, etag_of (so_ETag out))
  end.

Definition getBytesVersion (key : string) (limit : Z) : s3 (result (string * string)) :=
  out ←! call (GetObject key);
  Ret (read_object limit out).

Definition Store_Get (k : kind) (key : string) : s3 (result (doc k)) :=
  '(b, _) ←! getBytesVersion key maxJSONBytes;
  Ret (Decode k b).

Definition GetBytesVersion (key : string) : s3 (result (string * string)) := getBytesVersion key maxObjectBytes.

Definition Store_GetBytes (key : string) : s3 (result string) :=
  '(b, _) ←! GetBytesVersion key;
  Ret (Ok b).

Definition Store_GetBytesLimited (key : string) (limit : Z) : s3 (result string) :=
  if (limit <? 1) || (maxObjectBytes <? limit)
  then Ret (Err (Errorf ("object limit must be between 1 and " +:+ Itoa maxObjectBytes +:+ " bytes")))
  else
    '(b, _) ←! getBytesVersion key limit;
    Ret (Ok b).

Definition Store_GetJSONVersion (k : kind) (key : string) : s3 (result (option (doc k * string))) :=
  r ← getBytesVersion key maxJSONBytes;
  Ret (match r with
       | Ok (b, etag) => v ← Decode k b; Ok (Some (v, etag))
       | Err e => if missing_object e then Ok None else Err e
       end).

Definition Store_GetOptional (k : kind) (key : string) : s3 (result (option (doc k))) :=
  r ← Store_Get k key;
  Ret (match r with
       | Ok v => Ok (Some v)
       | Err e => if missing_object e then Ok None else Err e
       end).

Definition Store_Exists (key : string) : s3 bool :=
  r ← call (HeadObject key);
  Ret (is_ok (r : result unit)).

Definition Store_PresignPut (key : string) (lifetime : Z) : s3 (result string) :=
  call (PresignPutObject key "application/json" lifetime).
Definition Store_PresignGet (key : string) (lifetime : Z) : s3 (result string) := call (PresignGetObject key lifetime).

(** [aws.ToInt64(object.Size)], and the running total of the inventory. *)
Definition add_size (total : Z) (object : option Z) : result Z :=
  let size := default 0 object in
  reject_if ((size <? 0) || (sub64 (2 ^ 60) size <? total)) (Errorf "invalid storage inventory size");;
  Ok (add64 total size).

Fixpoint stored_pages (fuel : nat) (prefix : string) (page : nat) (total : Z) : s3 (result Z) :=
  match fuel with
  | O => Ret (Err OutOfFuel)
  | S fuel' =>
      p ←! call (NextPage prefix page);
      total' ←! lift (fold_result add_size total (pg_Sizes (p : s3_page)));
      if pg_More p then stored_pages fuel' prefix (S page) total' else Ret (Ok total')
  end.

Definition Store_StoredBytes (fuel : nat) (prefix : string) : s3 (result Z) :=
  if (prefix == "") || negb (HasSuffix prefix "/") then Ret (Err (Errorf "metering requires a delimited namespace"))
  else stored_pages fuel prefix 0 0.

(** The method that answers a call of the SDK. *)
Definition store_program (fuel : nat) (c : sdk_call) : option (s3 (answer c)) :=
  match c as c return option (s3 (answer c)) with
  | M1Put key data contentType => Some (Store_Put key data contentType)
  | M1PutJSON k key v => Some (Store_PutJSON k key v)
  | M1PutJSONIfAbsent k key v => Some (Store_PutJSONIfAbsent k key v)
  | M1PutJSONIfMatch k key etag v => Some (Store_PutJSONIfMatch k key etag v)
  | M1Get k key => Some (Store_Get k key)
  | M1GetBytes key => Some (Store_GetBytes key)
  | M1GetBytesLimited key limit => Some (Store_GetBytesLimited key limit)
  | M1GetJSONVersion k key => Some (Store_GetJSONVersion k key)
  | M1GetOptional k key => Some (Store_GetOptional k key)
  | M1PresignPut key lifetime => Some (Store_PresignPut key lifetime)
  | M1PresignGet key lifetime => Some (Store_PresignGet key lifetime)
  | M1Delete key => Some (Store_Delete key)
  | M1StoredBytes prefix => Some (Store_StoredBytes fuel prefix)
  | _ => None
  end.

(** The SDK's calls over an S3 service and the rest of the world. *)
Definition over_s3 {B W} (fuel : nat) (service : B -> forall c, s3_answer c * B) (rest : W -> forall c, answer c * W)
    (st : B * W) (c : sdk_call) : answer c * (B * W) :=
  match store_program fuel c with
  | Some p => let '(r, b, _) := run service p st.1 [] in (r, (b, st.2))
  | None => let '(r, w) := rest st.2 c in (r, (st.1, w))
  end.
End Store.

(** ** What the service promises of the object at one key *)
Inductive s3_change (key : string) : s3_call -> option (string * string) -> option (string * string) -> Prop :=
  | s3_same c o : s3_change key c o o
  | s3_match body contentType etag old etag' :
      s3_change key (PutObject key body contentType (IfMatch etag)) (Some (old, etag)) (Some (body, etag'))
  | s3_absent body contentType etag' :
      s3_change key (PutObject key body contentType (IfNoneMatch "*")) None (Some (body, etag'))
  | s3_blind c o o' :
      match c with PutObject k _ _ Unconditional | DeleteObject k => k = key | _ => False end -> s3_change key c o o'.

(** [content b etag body]: some version so far had this etag and body.  An
    object that is read is one of the versions, unless reading it ends in an
    error. *)
Class S3Bucket {B : Type} (service : B -> forall c, s3_answer c * B) (key : string) : Type := {
  object : B -> option (string * string);
  content : B -> string -> string -> Prop;
  content_unique b etag body1 body2 : content b etag body1 -> content b etag body2 -> body1 = body2;
  content_current b body etag : object b = Some (body, etag) -> content b etag body;
  content_later b c r b' etag body : service b c = (r, b') -> content b etag body -> content b' etag body;
  object_read b out b' :
    service b (GetObject key) = (Ok out, b') -> (so_Body out).2 = None ->
    exists etag, so_ETag out = Some etag /\ content b etag (so_Body out).1;
  object_change b c r b' : service b c = (r, b') -> s3_change key c (object b) (object b')
}.

Section OverS3.
Context `{Unicode} `{Codec} {B W : Type} (fuel : nat) (service : B -> forall c, s3_answer c * B) (key : string).
Context `{!S3Bucket service key} (rest : W -> forall c, answer c * W).

(** Every call of a program run against the service changes the object as [P] allows. *)
Definition object_kept (P : option (string * string) -> option (string * string) -> Prop) : Prop :=
  (forall o, P o o) /\ (forall x y z, P x y -> P y z -> P x z).

Lemma run_object (allowed : s3_call -> Prop) P {A} (p : s3 A) b a b' h h' :
  object_kept P -> (forall c o o', allowed c -> s3_change key c o o' -> P o o') ->
  safe (fun _ c => allowed c) p ->
  run service p b h = (a, b', h') -> P (object b) (object b').
Proof.
  intros [Prefl Ptrans] HP Hp. specialize (Hp h). revert b h Hp.
  induction p as [x|c k IH]; intros b h Hp Hrun; cbn [run] in Hrun; [by injection Hrun as _ <- _|].
  destruct (service b c) as [r b1] eqn:Hs. destruct Hp as [Hc Hk].
  apply (Ptrans _ (object b1)); [|exact (IH r b1 _ (Hk r I) Hrun)].
  apply (HP c); [done|]. by eapply object_change.
Qed.

Lemma run_content {A} (p : s3 A) b a b' h h' etag body :
  run service p b h = (a, b', h') -> content b etag body -> content b' etag body.
Proof.
  revert b h. induction p as [x|c k IH]; intros b h Hrun Hc; cbn [run] in Hrun; [by injection Hrun as _ <- _|].
  destruct (service b c) as [r b1] eqn:Hs. eapply IH; [exact Hrun|]. by eapply content_later.
Qed.

(** Calls that leave the object alone. *)
Definition elsewhere (c : s3_call) : Prop :=
  match c with PutObject k _ _ _ | DeleteObject k => k <> key | _ => True end.

Lemma elsewhere_same c o o' : elsewhere c -> s3_change key c o o' -> o = o'.
Proof. intros Hc Hch. destruct Hch as [| | |c o o' Hb]; [done|by destruct Hc..|]. by destruct c as [? ? ? []| | | | | | |]. Qed.

Lemma run_elsewhere {A} (p : s3 A) b a b' h h' :
  safe (fun _ c => elsewhere c) p -> run service p b h = (a, b', h') -> object b' = object b.
Proof.
  intros Hp Hrun. symmetry. eapply (run_object elsewhere eq); [split; congruence|apply elsewhere_same|exact Hp|exact Hrun].
Qed.

Lemma call_elsewhere c : elsewhere c -> safe (R := s3_answer) (fun _ c => elsewhere c) (call c).
Proof. intros Hc. by apply safe_call. Qed.
#[local] Hint Extern 1 (safe _ (call _)) => apply call_elsewhere; simpl; done : safe.

Lemma stored_pages_elsewhere n prefix page total : safe (fun _ c => elsewhere c) (stored_pages n prefix page total).
Proof. revert page total. induction n as [|n IH]; intros page total; cbn [stored_pages]; safe_tac. Qed.
Lemma read_elsewhere k limit : safe (fun _ c => elsewhere c) (getBytesVersion k limit).
Proof. unfold getBytesVersion. safe_tac. Qed.
#[local] Hint Resolve stored_pages_elsewhere read_elsewhere : safe.

(** A call of the SDK that does not write the document. *)
Definition writes_document (c : sdk_call) : bool :=
  match c with
  | M1Put k _ _ | M1PutJSON _ k _ | M1PutJSONIfAbsent _ k _ | M1PutJSONIfMatch _ k _ _ | M1Delete k => k == key
  | _ => false
  end.

Lemma not_writing c p :
  store_program fuel c = Some p -> writes_document c = false -> safe (fun _ c => elsewhere c) p.
Proof.
  destruct c; intros Hp Hw; cbn [store_program writes_document] in *; try discriminate; injection Hp as <-; bool_inv;
    unfold Store_PutJSON, Store_Put, Store_PutJSONIfAbsent, Store_PutJSONIfMatch, put_conditional, Store_Get,
      Store_GetBytes, GetBytesVersion, Store_GetBytesLimited, Store_GetJSONVersion, Store_GetOptional, Store_Get,
      Store_PresignPut, Store_PresignGet, Store_Delete, Store_StoredBytes; safe_tac.
Qed.

(** *** The client as the store of the writers of a sandbox document

    encoding/json decodes what it encoded, with invalid UTF-8 replaced in every
    string. *)
Definition decoded_resource (r : Resource) : Resource :=
  Resource.mk (decoded_string (Resource.ID r)) (decoded_string (Resource.Name r)) (decoded_string (Resource.Status r))
    (decoded_string (Resource.Address r)).
Definition decoded_attempt (a : Attempt) : Attempt :=
  Attempt.mk (decoded_string (Attempt.ID a)) (decoded_string (Attempt.Status a)) (decoded_string (Attempt.Failure a)).
Definition decoded_policy (p : NetworkPolicy) : NetworkPolicy :=
  NetworkPolicy.mk (decoded_string (NetworkPolicy.ID p)) (decoded_string (NetworkPolicy.PortID p))
    (decoded_string (NetworkPolicy.RuleID p)) (decoded_string (NetworkPolicy.Name p))
    (decoded_string (NetworkPolicy.Ownership p)) (decoded_string (NetworkPolicy.Protocol p)) (NetworkPolicy.Port p).
Definition decoded_resource_intent (r : ComputeResourceIntent) : ComputeResourceIntent :=
  ComputeResourceIntent.mk (ComputeResourceIntent.Replica r) (decoded_string (ComputeResourceIntent.Name r))
    (decoded_string (ComputeResourceIntent.ProofKey r)) (ComputeResourceIntent.NetworkIndex r)
    (decoded_string (ComputeResourceIntent.ResourceID r)) (decoded_string (ComputeResourceIntent.Phase r))
    (decoded_string (ComputeResourceIntent.AttemptID r)) (ComputeResourceIntent.CreateAttemptedAt r)
    (ComputeResourceIntent.ReconcileUntil r).
Definition decoded_creation (c : CreationIntent) : CreationIntent :=
  CreationIntent.mk (decoded_string (CreationIntent.OperationID c)) (decoded_string (CreationIntent.DesiredClass c))
    (decoded_string (CreationIntent.DesiredImage c)) (decoded_string (CreationIntent.ShapeID c))
    (decoded_string (CreationIntent.ImageID c)) (decoded_string <$> CreationIntent.NetworkIDs c)
    (decoded_resource_intent <$> CreationIntent.Resources c) (decoded_string (CreationIntent.Phase c)) (CreationIntent.CreatedAt c).
Definition decoded_exposure (e : ExposureIntent) : ExposureIntent :=
  ExposureIntent.mk (decoded_string (ExposureIntent.OperationID e)) (decoded_string (ExposureIntent.ServerID e))
    (decoded_string (ExposureIntent.Name e)) (decoded_string (ExposureIntent.Ownership e))
    (decoded_string (ExposureIntent.Protocol e)) (ExposureIntent.Port e) (decoded_string (ExposureIntent.Phase e))
    (ExposureIntent.MutationUnresolved e) (ExposureIntent.CreatedAt e) (ExposureIntent.AttemptedAt e).
Definition decoded_state (s : State) : State :=
  State.mk (decoded_string (State.Sandbox s)) (decoded_string (State.Phase s)) (decoded_string (State.Class_ s))
    (decoded_string (State.Image s)) (decoded_resource <$> State.Resources s) (decoded_attempt <$> State.Attempts s)
    (decoded_string <$> State.ProofKeys s) (State.CreatedAt s) (State.DestroyedAt s) (decoded_string (State.Failure s))
    (decoded_policy <$> State.NetworkPolicies s) (decoded_creation <$> State.CreationIntent_ s)
    (decoded_exposure <$> State.ExposureIntent_ s).

(** The phases are ASCII, so the consistency of phases survives. *)
Lemma decoded_wf s : wf_state s -> wf_state (decoded_state s).
Proof.
  intros [H1 H2 H3 H4 H5].
  assert (forall p, is_ascii p = true -> agree p s -> agree p (decoded_state s)) as Hagree.
  { intros p Hp [A1 B1]. unfold agree, intent_of in *. cbn [decoded_state State.Phase State.CreationIntent_].
    rewrite (decoded_ascii _ _ Hp). destruct (State.CreationIntent_ s) as [c|]; cbn in *; [|split; [by left|done]].
    split.
    - intros Hs. destruct (A1 Hs) as [?|[= Hc]]; [done|]. right. f_equal. by apply decoded_ascii.
    - intros [= Hc]. apply B1. f_equal. by apply (decoded_ascii _ _ Hp). }
  assert (State.Phase s ∈ ["creating"; "ready"; "failed"; "escalated"; "cleanup"; "destroying"; "destroyed"]%string -> decoded_string (State.Phase s) = State.Phase s) as Hph.
  { intros Hin. apply decoded_ascii; [|done]. repeat (apply elem_of_cons in Hin as [->|Hin]; [done|]). by apply not_elem_of_nil in Hin. }
  split; try (by apply Hagree); cbn [decoded_state State.Phase State.ExposureIntent_]; rewrite Hph by done; [done|].
  intros Hc. destruct (H5 Hc) as [Hi ->]. split; [|done]. unfold intent_of in *. cbn. by destruct (State.CreationIntent_ s).
Qed.

Definition document_of (o : option (string * string)) : option (State * string) :=
  match o with
  | Some (body, etag) => match Decode KState body with Ok s => Some (s, etag) | Err _ => None end
  | None => None
  end.
Definition m1_version (st : B * W) (etag : string) (s : State) : Prop :=
  exists body, content st.1 etag body /\ Decode KState body = Ok s.

Abbreviation m1 := (over_s3 fuel service rest).

Lemma m1_later st c r st' etag s : m1 st c = (r, st') -> m1_version st etag s -> m1_version st' etag s.
Proof.
  unfold over_s3. intros Hh (body & Hc & Hd). exists body. split; [|done].
  destruct (store_program fuel c) as [p|].
  - destruct (run service p st.1 []) as [[x b] h] eqn:Hrun. injection Hh as _ <-. by eapply run_content.
  - destruct (rest st.2 c) as [x w]. by injection Hh as _ <-.
Qed.

Lemma m1_same st c r st' : m1 st c = (r, st') -> writes_document c = false -> object st'.1 = object st.1.
Proof.
  unfold over_s3. intros Hh Hw. destruct (store_program fuel c) as [p|] eqn:Hp.
  - destruct (run service p st.1 []) as [[x b] h] eqn:Hrun. injection Hh as _ <-.
    eapply run_elsewhere; [by eapply not_writing|exact Hrun].
  - destruct (rest st.2 c) as [x w]. by injection Hh as _ <-.
Qed.

Lemma limit_reader_whole limit body b :
  limit_reader (limit + 1) body = (b, None) -> (limit <? slen b) = false -> body = (b, None).
Proof.
  unfold limit_reader. destruct (_ <=? _) eqn:Hle; [|done]. intros [= <-] Hlen. exfalso.
  apply Z.leb_le in Hle. apply Z.ltb_ge in Hlen. unfold slen in *.
  rewrite length_take_bytes in Hlen. lia.
Qed.

Lemma m1_read st s etag st' :
  m1 st (M1GetJSONVersion KState key) = (Ok (Some (s, etag)), st') -> m1_version st etag s.
Proof.
  unfold over_s3, store_program, Store_GetJSONVersion, getBytesVersion, call.
  intros Hh. cbn in Hh. destruct (service st.1 (GetObject key)) as [[out|e] b'] eqn:Hs; cbn in Hh.
  2: { destruct (missing_object e); discriminate. }
  destruct (read_object maxJSONBytes out) as [[b etag']|e] eqn:Hr; [|by destruct (missing_object e)].
  destruct (Decode KState b) as [v|e] eqn:Hd; [|discriminate]. injection Hh as <- <- _.
  unfold read_object in Hr. apply result_bind_ok in Hr as (u & _ & Hr).
  destruct (limit_reader _ _) as [data [e|]] eqn:Hl; [discriminate|].
  apply result_bind_ok in Hr as (v' & Hlen & Hr). injection Hr as -> <-.
  destruct v'. apply reject_if_ok in Hlen. apply limit_reader_whole in Hl; [|done].
  destruct (object_read st.1 out b' Hs) as (etag & He & Hc); [by rewrite Hl|].
  exists b. rewrite He. rewrite Hl in Hc. by split.
Qed.

Context (round_trip : forall s body, MarshalIndent KState s = Ok body -> Decode KState body = Ok (decoded_state s)).

Lemma m1_conditional (st : B * W) s condition r b' h :
  run service (put_conditional KState key s condition) st.1 [] = (r, b', h) ->
  object b' = object st.1 \/
  exists body, Decode KState body = Ok (decoded_state s) /\
    s3_change key (PutObject key body "application/json" condition) (object st.1) (object b').
Proof.
  unfold put_conditional, call. intros Hrun. cbn in Hrun.
  destruct (MarshalIndent KState s) as [body|e] eqn:Hm; cbn in Hrun; [|left; by injection Hrun as _ <- _].
  destruct (service st.1 (PutObject key body "application/json" condition)) as [x b1] eqn:Hs. injection Hrun as _ <- _.
  right. exists body. split; [by apply round_trip|]. by eapply object_change.
Qed.

Lemma m1_change (st : B * W) c r st' :
  (forall etag next, c = M1PutJSONIfMatch KState key etag next -> exists s, m1_version st etag s) ->
  m1 st c = (r, st') ->
  store_change decoded_state key c (document_of (object st.1)) (document_of (object st'.1)).
Proof.
  intros Hknown Hh. destruct (writes_document c) eqn:Hw; [|rewrite (m1_same _ _ _ _ Hh Hw); constructor].
  destruct c; cbn [writes_document] in Hw; try discriminate; apply bool_decide_eq_true in Hw as ->;
    try (apply change_blind; done).
  - destruct k; try (apply change_blind; done). unfold over_s3 in Hh. cbn [store_program] in Hh.
    destruct (run service _ st.1 []) as [[x b] h] eqn:Hrun. injection Hh as _ <-. cbn [fst].
    apply m1_conditional in Hrun as [->|(body & Hd & Hc)]; [constructor|].
    revert Hc. generalize (object st.1) (object b). intros o o' Hc. inversion Hc; subst; [constructor| |contradiction].
    cbn [document_of]. rewrite Hd. constructor.
  - destruct k; try (apply change_blind; done). unfold over_s3 in Hh. cbn [store_program] in Hh.
    destruct (run service _ st.1 []) as [[x b] h] eqn:Hrun. injection Hh as _ <-. cbn [fst].
    apply m1_conditional in Hrun as [->|(body & Hd & Hc)]; [constructor|].
    destruct (Hknown _ _ eq_refl) as (s & body0 & Hc0 & Hd0).
    pose proof (content_current st.1) as Hcur.
    revert Hc Hcur. generalize (object st.1) (object b). intros o o' Hc Hcur.
    inversion Hc as [|? ? ? old| |]; subst; [constructor| |contradiction].
    rewrite (content_unique _ _ _ _ (Hcur old etag eq_refl) Hc0). cbn [document_of]. rewrite Hd, Hd0. constructor.
Qed.

#[global] Instance m1_store : RoundingStore decoded_state m1 key.
Proof.
  refine {| stored st := document_of (object st.1); version := m1_version |}.
  - intros st etag s1 s2 (b1 & Hc1 & Hd1) (b2 & Hc2 & Hd2).
    assert (b1 = b2) as -> by (by eapply content_unique). congruence.
  - intros st s etag Hs. destruct (object st.1) as [[body etag']|] eqn:Ho; [|discriminate]. cbn [document_of] in Hs.
    destruct (Decode KState body) as [s'|] eqn:Hd; [|discriminate]. injection Hs as <- <-.
    exists body. split; [by apply content_current|done].
  - apply m1_later.
  - apply m1_read.
  - apply m1_change.
Defined.
End OverS3.

(** ** Limits *)
(** An object that is answered is whole and within the limit. *)
Lemma read_object_limited limit out b etag :
  read_object limit out = Ok (b, etag) -> so_Body out = (b, None) /\ slen b <= limit.
Proof.
  unfold read_object. intros Hr. apply result_bind_ok in Hr as (u & _ & Hr).
  destruct (limit_reader _ _) as [data [e|]] eqn:Hl; [discriminate|].
  apply result_bind_ok in Hr as ([] & Hlen & Hr). injection Hr as <- _. apply reject_if_ok in Hlen.
  split; [by apply limit_reader_whole in Hl|]. by apply Z.ltb_ge in Hlen.
Qed.

(** The sizes seen so far, as the provider reported them. *)
Definition page_sizes (e : event s3_answer) : list Z :=
  match e with
  | Event (NextPage _ _) (Ok p) => default 0 <$> pg_Sizes p
  | _ => []
  end.
Definition sum (l : list Z) : Z := foldr Z.add 0 l.
Definition inventory (h : list (event s3_answer)) : Z := sum (concat (page_sizes <$> h)).

Lemma add_size_ok total o t :
  int_range (default 0 o) -> 0 <= total <= 2 ^ 60 -> add_size total o = Ok t ->
  t = total + default 0 o /\ 0 <= t <= 2 ^ 60.
Proof.
  unfold add_size, add64, sub64. intros Ho Ht Ha. apply result_bind_ok in Ha as ([] & Hc & Ha). injection Ha as <-.
  apply reject_if_ok, orb_false_iff in Hc as [H1%Z.ltb_ge H2%Z.ltb_ge]. unfold int_range, min_int, max_int in Ho.
  rewrite i64_id in H2 by (unfold int_range, min_int, max_int; lia).
  rewrite i64_id by (unfold int_range, min_int, max_int; lia). lia.
Qed.

Lemma add_sizes_ok sizes total t :
  Forall (fun o => int_range (default 0 o)) sizes -> 0 <= total <= 2 ^ 60 -> fold_result add_size total sizes = Ok t ->
  t = total + sum (default 0 <$> sizes) /\ 0 <= t <= 2 ^ 60.
Proof.
  intros Hs. revert total. induction Hs as [|o sizes Ho Hs IH]; intros total Ht Hf; cbn [fold_result] in Hf.
  - injection Hf as <-. simpl. lia.
  - apply result_bind_ok in Hf as (t1 & Ha & Hf). apply add_size_ok in Ha as [-> Ht1]; [|done..].
    apply IH in Hf as [-> Ht2]; [|done]. change (sum (default 0 <$> o :: sizes)) with (default 0 o + sum (default 0 <$> sizes)). lia.
Qed.

Lemma inventory_page h c r : inventory (Event c r :: h) = sum (page_sizes (Event c r)) + inventory h.
Proof.
  unfold inventory, sum. cbn [fmap list_fmap concat]. induction (page_sizes _) as [|x l IH]; simpl; [done|].
  rewrite IH. lia.
Qed.

(** A metered total is the sum of every size listed, without overflow. *)
Theorem StoredBytes_exact fuel prefix :
  wp (fun _ c r => match c as c return s3_answer c -> Prop with
                   | NextPage _ _ => fun r => match r with
                       | Ok p => Forall (fun o => int_range (default 0 o)) (pg_Sizes p)
                       | Err _ => True
                       end
                   | _ => fun _ => True
                   end r)
    (fun _ c => exists page, c = NextPage prefix page) (Store_StoredBytes fuel prefix)
    (fun h r => match r with Ok total => total = inventory h /\ 0 <= total <= 2 ^ 60 | Err _ => True end) [].
Proof.
  unfold Store_StoredBytes. destruct (_ || _); [by apply wp_ret|].
  enough (forall page total h, total = inventory h -> 0 <= total <= 2 ^ 60 ->
    wp _ (fun _ c => exists page, c = NextPage prefix page) (stored_pages fuel prefix page total)
      (fun h r => match r with Ok total => total = inventory h /\ 0 <= total <= 2 ^ 60 | Err _ => True end) h) as Hgen
    by by apply Hgen.
  induction fuel as [|fuel IH]; intros page total h Hi Ht; cbn [stored_pages]; [by apply wp_ret|].
  apply wp_bind_ok. wp_ask_as r Hr; [by exists page|]. destruct r as [p|e]; [|exact I].
  apply wp_bind_ok. destruct (fold_result _ _ _) as [t|e] eqn:Hf; apply wp_ret; [|exact I].
  apply add_sizes_ok in Hf as [-> Hb]; [|done..].
  assert (total + sum (default 0 <$> pg_Sizes p) = inventory (Event (NextPage prefix page) (Ok p) :: h)) as Hsum.
  { rewrite inventory_page, Hi. cbn [page_sizes]. lia. }
  destruct (pg_More p); [by apply IH|]. by apply wp_ret.
Qed.
