(* ===== verification/Example.v ===== *)
(** * A concrete world

    The environment the theorems are instantiated with: one host spec, a
    provider that creates what it is asked to, and the object store of
    [Concurrency]. *)

From S2P Require Import Prelude Effects GoStrings Documents SandboxSpec Calls Systems Lifecycle Creation Destruction.
From S2P Require Import Exposure Machine Writers Concurrency.

(** Strings of the examples are ASCII, where these are not used. *)
#[export] Instance ascii_only : Unicode :=
  {| unicode_ToUpper := fun s => s; unicode_ToLower := fun s => s; unicode_Quote := fun s => s |}.

Definition demo_spec : Spec :=
  Spec.mk APIVersion "Sandbox" (Metadata.mk "demo")
    (Desired.mk "run the demo" (ComputeSpec.mk "c1" "ubuntu-24.04" 1 "true") (M1Spec.mk "teams/demo") (Policy.mk 1)).

Definition demo_service : SystemService :=
  SystemService.mk "web" "app" EmptyString "process" 2 [] (ServiceResources.mk 1 256) (Readiness.mk "http" 8080) "public".
Definition demo_database : SystemService :=
  SystemService.mk "db" "database" "Postgres" "firecracker" 1 [] (ServiceResources.mk 1 512) (Readiness.mk "tcp" 5432)
    "private".
Definition demo_system : System :=
  System.mk APIVersion "System" (Metadata.mk "demo")
    (SystemContract.mk "serve the demo" (Constraints.mk (HostConstraint.mk "c1" 1 4096 512))
       [SystemService.mk "web" "app" EmptyString "process" 2 ["db"] (ServiceResources.mk 1 256)
          (Readiness.mk "http" 8080) "public"; demo_database]
       (M1Spec.mk "teams/demo")).

Definition demo_server (name : string) : Server :=
  Server.mk "srv-1" name "ACTIVE"
    (<["canter.managed" := "true"]> (<["canter.sandbox" := "demo"]>
      (<["canter.operation" := "0102030405060708"]> {["canter.resource" := name]})))
    None [("public", [Address.mk "203.0.113.7" 4 "floating"])].

Definition demo_plan : Plan := Plan.mk "v1" "ok" (wanted_operations demo_spec) EmptyString 0.

Definition world (c : sdk_call) : answer c :=
  match c as c return answer c with
  | M1Put _ _ _ | M1PutJSON _ _ _ | M1Delete _ => Ok tt
  | M1PutJSONIfAbsent _ _ _ | M1PutJSONIfMatch _ _ _ _ => Ok (EmptyString, false)
  | M1Get _ _ => Err ErrNotFound
  | M1GetBytes _ | M1GetBytesLimited _ _ => Err ErrNotFound
  | M1GetJSONVersion _ _ => Ok None
  | M1GetOptional k _ =>
      match k as k return result (option (doc k)) with
      | KProof => Ok (Some (BootProof.mk "demo" "booted" 0 "host" EmptyString))
      | _ => Ok None
      end
  | M1PresignPut _ _ | M1PresignGet _ _ => Ok "https://store.example/put"
  | M1StoredBytes _ => Ok 0
  | Resolve _ _ | ResolveSize _ _ _ _ => Ok (Shape.mk "flavor-1" "c1" 1 1024 20, "image-1", ["net-a"; "net-b"])
  | CreateManaged request => Ok (demo_server (ManagedServerRequest.Name request))
  | FindManagedServers _ _ _ => Ok []
  | GetServer _ | WaitActive _ => Ok (demo_server "canter-demo-1")
  | DeleteServer _ | DeleteSecurityPolicy _ => Ok tt
  | ExposeManagedTCP request => Ok (SecurityPolicy.mk "sg-1" "port-1" "rule-1" (ManagedTCPExposureRequest.Port request))
  | FindManagedTCPExposure _ => Ok None
  | ServerShape _ => Ok (Shape.mk "flavor-1" "c1" 1 1024 20)
  | Supports _ => true
  | ModelCompile _ => Ok (demo_plan, "model", 1)
  | Now => 0
  | RandRead => Ok [1; 2; 3; 4; 5; 6; 7; 8]
  | Select => WTimer
  | ReadFile _ => Ok "binary"
  | HTTPPrepare _ _ => Ok tt
  | HTTPDo _ _ => Ok (200, Ok EmptyString)
  | ReadGuard => changeLeaseGuard.mk EmptyString (ChangeLease.mk "v1" EmptyString EmptyString EmptyString 0) EmptyString None
  | WriteGuard _ => tt
  end.

Definition demo_settings : settings := Settings 4 0 (fun _ l => l) (fun _ => None).
Definition demo_key : string := stateKey demo_spec.
Definition demo_store := bucket demo_key world.

Definition demo_threads (ops : list operation) : list (thread answer unit) :=
  (fun op => Thread (operation_program demo_settings op) []) <$> ops.
Definition demo_run (ops : list operation) (schedule : list nat) (st : list State)
    : list (thread answer unit) * list State :=
  fold_left (pool_exec demo_store) schedule (demo_threads ops, st).

(** [Apply] alone takes the document to ready. *)
Definition applied : list State := (demo_run [OpApply demo_spec] (replicate 40 0%nat) []).2.
Example applied_ready : (State.Phase <$> head applied) = Some "ready".
Proof. vm_compute. reflexivity. Qed.

(** Then [Destroy] takes it to destroyed. *)
Definition destroyed : list State := (demo_run [OpDestroy demo_spec] (replicate 40 0%nat) applied).2.
Example destroyed_destroyed : State.Phase <$> destroyed =
  ["destroyed"; "destroying"; "destroying"; "ready"; "creating"; "creating"; "creating"; "creating"; "creating"].
Proof. vm_compute. reflexivity. Qed.
