(* ===== verification/SandboxTheorems.v ===== *)
(** * Theorems on the lifecycle of a sandbox

    What the operations of sdk/client.go and the exposure part of
    sdk/release.go guarantee, for every environment and every interleaving. *)

From S2P Require Import Prelude Effects GoStrings Documents SandboxSpec Calls Systems Lifecycle Creation Destruction.
From S2P Require Import Exposure Machine Writers Concurrency Example ObjectStore.
From stdpp Require Import relations.

Section Theorems.
Context `{Unicode}.

(** C1: whatever the store, the provider, the clock and the other processes
    answer, every call Apply, Destroy, ExposeSystemHost and
    RecoverSystemHostExposure make is guarded: the sandbox document is only
    written by a compare-and-swap whose new value is a step of the lifecycle
    from the version read under the presented etag, and a server is only
    created immediately after the compare-and-swap that recorded its attempt. *)
Theorem sdk_operations_guarded cfg op h :
  wp (fun _ _ _ => True) (write_guard (operation_key op)) (operation_program cfg op) (fun _ _ => True) h.
Proof. apply operation_safe. Qed.

(** C2: any number of these operations running concurrently over one store
    move the document only along the lifecycle's steps. *)
Theorem sandbox_document_path {S} (handler : S -> forall c, answer c * S) key (store : StateStore handler key)
    cfg ops st ts st' :
  Forall (fun op => operation_key op = key) ops ->
  rtc (pool_step handler) ((fun op => Thread (operation_program cfg op) []) <$> ops, st) (ts, st') ->
  rtc doc_step (document handler key st) (document handler key st').
Proof.
  intros Hkeys Hrun. apply (pool_path handler key (operation_program cfg <$> ops) st ts st').
  - apply Forall_fmap. eapply Forall_impl; [exact Hkeys|]. intros op <-. apply operation_safe.
  - by rewrite <- list_fmap_compose.
Qed.

(** C3: on every such run the phase of the document and of its creation intent
    stay consistent. *)
Theorem sandbox_document_invariant {S} (handler : S -> forall c, answer c * S) key (store : StateStore handler key)
    cfg ops st ts st' :
  Forall (fun op => operation_key op = key) ops ->
  (forall s, document handler key st = Some s -> wf_state s) ->
  rtc (pool_step handler) ((fun op => Thread (operation_program cfg op) []) <$> ops, st) (ts, st') ->
  forall s, document handler key st' = Some s -> wf_state s.
Proof.
  intros Hkeys Hwf Hrun.
  assert (rtc doc_step (document handler key st) (document handler key st')) as Hpath.
  { apply (pool_path handler key (operation_program cfg <$> ops) st ts st').
    - apply Forall_fmap. eapply Forall_impl; [exact Hkeys|]. intros op <-. apply operation_safe.
    - by rewrite <- list_fmap_compose. }
  clear Hrun. induction Hpath as [d|d1 d2 d3 [s [-> Hs]] _ IH]; [done|]. apply IH.
  intros s0 [= <-]. by eapply step_wf.
Qed.

(** C4: over the object store client, any number of these operations running
    concurrently move the document that the bucket holds only along the
    lifecycle's steps, each written as encoding/json stores it (invalid UTF-8
    replaced), and its phases stay consistent: if the service keeps its promises
    about conditional writes and etags, and a document that is encoded decodes
    to itself but for that replacement. *)
Theorem sandbox_documents_over_s3 `{Codec} {B W} fuel (service : B -> forall c, s3_answer c * B) key
    (bucket : S3Bucket service key) (rest : W -> forall c, answer c * W) cfg ops st ts st' :
  (forall s body, MarshalIndent KState s = Ok body -> Decode KState body = Ok (decoded_state s)) ->
  Forall (fun op => operation_key op = key) ops ->
  rtc (pool_step (over_s3 fuel service rest)) ((fun op => Thread (operation_program cfg op) []) <$> ops, st) (ts, st') ->
  let before : option State := fst <$> document_of (object st.1) in let after : option State := fst <$> document_of (object st'.1) in
  rtc (rounded_step decoded_state) before after /\
  ((forall s, before = Some s -> wf_state s) -> forall s, after = Some s -> wf_state s).
Proof.
  intros Hcodec Hkeys Hrun before after.
  assert (rtc (rounded_step decoded_state) before after) as Hpath.
  { apply (pool_path (over_s3 fuel service rest) key (RoundingStore0 := m1_store fuel service key rest Hcodec)
             (operation_program cfg <$> ops) st ts st').
    - apply Forall_fmap. eapply Forall_impl; [exact Hkeys|]. intros op <-. apply operation_safe.
    - by rewrite <- list_fmap_compose. }
  split; [done|]. clear Hrun. induction Hpath as [d|d1 d2 d3 (s & -> & Hs) _ IH]; [done|]. intros Hwf. apply IH.
  intros s0 [= <-]. apply decoded_wf. by eapply step_wf.
Qed.

(** A step of a document that was not destroyed. *)
Definition live_step (s s' : State) : Prop := sandbox_step (Some s) s' /\ State.Phase s <> "destroyed".

(** As long as the document is not destroyed, no step changes which
    operation it belongs to, what was requested, or the name, replica number
    and proof key of a resource; and a resource recorded as destroyed stays so. *)
Theorem live_document_identity s s' :
  rtc live_step s s' -> identity s' = identity s /\ forall i, destroyed_at s i -> destroyed_at s' i.
Proof.
  induction 1 as [s|s s1 s2 [Hstep Hp] _ [IHid IHd]]; [done|]. split.
  - rewrite IHid. by apply step_identity.
  - intros i Hi. apply IHd. by eapply step_destroyed_final.
Qed.
End Theorems.

(** ** Witnesses *)
Definition two_applies_and_a_destroy : list operation := [OpApply demo_spec; OpDestroy demo_spec; OpApply demo_spec].
Definition race : list nat :=
  concat (replicate 9 [0; 2])%nat ++ replicate 20 0%nat ++ replicate 6 1%nat ++ replicate 10 2%nat ++ replicate 10 1%nat.

Lemma sandbox_document_path_witness :
  let '(ts, st) := demo_run two_applies_and_a_destroy race [] in
  length st = 9%nat /\ rtc doc_step None (document demo_store demo_key st).
Proof.
  destruct (demo_run two_applies_and_a_destroy race []) as [ts st] eqn:E. split.
  - change st with (ts, st).2. rewrite <- E. vm_compute. reflexivity.
  - apply (sandbox_document_path demo_store demo_key (bucket_store demo_key world) demo_settings
             two_applies_and_a_destroy [] ts st); [by repeat constructor|].
    rewrite <- E. apply pool_exec_steps.
Defined.

Lemma sandbox_document_invariant_witness :
  let '(ts, st) := demo_run two_applies_and_a_destroy race [] in
  forall s, document demo_store demo_key st = Some s -> wf_state s.
Proof.
  destruct (demo_run two_applies_and_a_destroy race []) as [ts st] eqn:E.
  apply (sandbox_document_invariant demo_store demo_key (bucket_store demo_key world) demo_settings
           two_applies_and_a_destroy [] ts st); [by repeat constructor|done|].
  rewrite <- E. apply pool_exec_steps.
Defined.

Definition demo_intent : State :=
  intent_state demo_spec "op" 0 (Shape.mk "flavor-1" "c1" 1 1024 20) "image-1" ["net-a"].

Lemma live_document_identity_witness :
  exists s', State.Phase s' = "escalated" /\ destroyed_at s' 0 /\ identity s' = identity demo_intent.
Proof.
  destruct (resource_destroyed 0 "canter-demo-1" (destroying_state demo_intent)) as [s1|] eqn:E1; [|discriminate].
  assert (live_step demo_intent (destroying_state demo_intent)) as H1 by (split; [by apply step_destroying|done]).
  assert (live_step (destroying_state demo_intent) s1) as H2.
  { split; [|done]. apply step_destroy; [done|]. by eapply dc_resource. }
  injection E1 as <-.
  match type of H2 with live_step _ ?s1 =>
    assert (live_step s1 (destroy_escalated ErrConflict s1)) as H3 by (split; [by apply step_destroy; [done|apply dc_escalate]|done]);
    exists (destroy_escalated ErrConflict s1)
  end.
  split_and!; [done| |].
  - apply (live_document_identity _ _ (rtc_once _ _ H3)). do 2 eexists. split_and!; reflexivity.
  - apply live_document_identity. eapply rtc_l; [exact H1|]. eapply rtc_l; [exact H2|]. by apply rtc_once.
Defined.

(** *** A bucket: the versions of one object, newest first

    The etag of a version is its number.  The documents of the race above are
    the ones the codec knows; any other object is the host's boot proof. *)
Module Bucket.

Section Codec.
Context (known : list State).

Definition encode (s : State) : result string :=
  match list_find (s =.) known with Some (i, _) => Ok (Itoa (Z.of_nat i)) | None => Err (External "unknown document") end.
Definition decode (body : string) : result State :=
  match list_find (fun p => p.1 = body) (imap (fun i s => (Itoa (Z.of_nat i), s)) known) with
  | Some (_, (_, s)) => Ok s
  | None => Err (External "not a document")
  end.
Definition decodes (s : State) : bool :=
  match encode s with Ok b => bool_decide (decode b = Ok (decoded_state s)) | Err _ => false end.

Lemma known_round_trip s body : forallb decodes known = true -> encode s = Ok body -> decode body = Ok (decoded_state s).
Proof.
  intros Hall He. assert (s ∈ known) as Hs.
  { unfold encode in He. destruct (list_find _ known) as [[i x]|] eqn:Hf; [|discriminate].
    apply list_find_Some in Hf as (Hi & -> & _). by eapply list_elem_of_lookup_2. }
  rewrite forallb_forall in Hall. specialize (Hall s (proj1 (list_elem_of_In _ _) Hs)).
  unfold decodes in Hall. rewrite He in Hall. by apply bool_decide_eq_true in Hall.
Qed.
End Codec.

Definition known : list State := (demo_run two_applies_and_a_destroy race []).2.

#[local] Instance demo_codec : Codec := {|
  MarshalIndent k := match k as k return doc k -> result string with KState => encode known | _ => fun _ => Ok "other" end;
  Decode k := match k as k return string -> result (doc k) with
    | KState => decode known
    | KProof => fun _ => Ok (BootProof.mk "demo" "booted" 0 "host" EmptyString)
    | _ => fun _ => Err (External "not json")
    end
|}.

Definition put (st : list string) (body : string) (condition : put_condition) : result (option string) * list string :=
  let done := (Ok (Some (Itoa (Z.of_nat (length st)))), body :: st) in
  let failed := (Err (APIError "PreconditionFailed" "precondition"), st) in
  match condition, st with
  | Unconditional, _ => done
  | IfNoneMatch etags, [] => if etags == "*" then done else failed
  | IfNoneMatch _, _ => failed
  | IfMatch _, [] => failed
  | IfMatch etag, _ :: older => if Itoa (Z.of_nat (length older)) == etag then done else failed
  end.

Definition service (st : list string) (c : s3_call) : s3_answer c * list string :=
  match c as c return s3_answer c * list string with
  | PutObject k body _ condition => if k == demo_key then put st body condition else (Ok None, st)
  | GetObject k =>
      (if k == demo_key then
         match st with
         | [] => Err (APIError "NoSuchKey" "missing")
         | body :: older => Ok (S3Object None (body, None) (Some (Itoa (Z.of_nat (length older)))))
         end
       else Ok (S3Object None ("proof"%string, None) (Some "x"%string)), st)
  | DeleteObject k => (Err (APIError "AccessDenied" "denied"), st)
  | HeadObject _ | HeadBucket => (Ok tt, st)
  | PresignPutObject _ _ _ | PresignGetObject _ _ => (Ok "https://store.example/put"%string, st)
  | NextPage _ _ => (Ok (S3Page [] false), st)
  end.

Lemma service_grows st c r st' : service st c = (r, st') -> exists l, st' = l ++ st.
Proof.
  destruct c; simpl; intros Hs; try (injection Hs as _ <-; by exists []).
  destruct (_ == _); [|injection Hs as _ <-; by exists []]. unfold put in Hs.
  destruct condition, st; try destruct (_ == _); injection Hs as _ <-; first [by exists []|by exists [body]].
Qed.

#[local] Instance demo_bucket : S3Bucket service demo_key.
Proof.
  refine {| object := bucket_stored; content st etag body := bucket_version st etag body |}.
  - apply bucket_version_unique.
  - intros st body etag. apply bucket_stored_version.
  - intros st c r st' etag body Hs. apply service_grows in Hs as [l ->]. apply bucket_version_later.
  - intros st out st' Hs _. simpl in Hs.
    destruct st as [|body older]; [done|]. injection Hs as <- _. eexists. split; [done|]. by apply bucket_stored_version.
  - intros st c r st' Hs. destruct c; simpl in Hs; try (injection Hs as _ <-; constructor).
    destruct (decide (key = demo_key)) as [->|E]; [rewrite bool_decide_true in Hs by done|
      rewrite bool_decide_false in Hs by done; injection Hs as _ <-; constructor].
    destruct condition, st as [|old older]; simpl in Hs; try (injection Hs as _ <-; constructor; done).
    { destruct (decide (etags = "*")) as [->|E]; [rewrite bool_decide_true in Hs by done|
        rewrite bool_decide_false in Hs by done]; injection Hs as _ <-; constructor. }
    destruct (decide (Itoa (Z.of_nat (length older)) = etag)) as [<-|E]; [rewrite bool_decide_true in Hs by done|
      rewrite bool_decide_false in Hs by done]; injection Hs as _ <-; constructor.
Defined.

Lemma known_decode : forallb (decodes known) known = true.
Proof. vm_compute. reflexivity. Qed.

Definition over_bucket := over_s3 1 service (fun (_ : unit) c => (world c, tt)).
Definition race_over_bucket : list (thread answer unit) * (list string * unit) :=
  fold_left (pool_exec over_bucket) race (demo_threads two_applies_and_a_destroy, ([], tt)).

End Bucket.

Lemma sandbox_documents_over_s3_witness :
  let '(ts, st) := Bucket.race_over_bucket in
  length st.1 = 9%nat /\
  (State.Phase ∘ fst <$> document_of (H0 := Bucket.demo_codec) (bucket_stored st.1)) = Some "destroyed" /\
  rtc (rounded_step decoded_state) None (fst <$> document_of (H0 := Bucket.demo_codec) (bucket_stored st.1)).
Proof.
  destruct Bucket.race_over_bucket as [ts st] eqn:E. split_and!.
  - change st with (ts, st).2. rewrite <- E. vm_compute. reflexivity.
  - change st with (ts, st).2. rewrite <- E. vm_compute. reflexivity.
  - apply (sandbox_documents_over_s3 (H0 := Bucket.demo_codec) 1 Bucket.service demo_key Bucket.demo_bucket
             (fun (_ : unit) c => (world c, tt)) demo_settings two_applies_and_a_destroy ([], tt) ts st
             (fun s body => Bucket.known_round_trip Bucket.known s body Bucket.known_decode)); [by repeat constructor|].
    rewrite <- E. apply pool_exec_steps.
Defined.
