(* ===== verification/SystemTheorems.v ===== *)
(** * Theorems on System contracts *)

From S2P Require Import Prelude Effects GoStrings Documents SandboxSpec Calls Systems Topology Admission Compilation.
From S2P Require Import Creation Releases Changes Endpoints Namespace Example.

Section Theorems.
Context `{Unicode}.

(** C5: System.Validate accepts exactly the admissible contracts: over
    unbounded integers, with the dependency graph acyclic in the usual sense
    (a rank decreases along every edge), every name valid and unique, and the
    expansion, edge, capacity and overflow budgets respected. *)
Theorem System_Validate_iff s : System_Validate s = Ok tt <-> admissible s.
Proof. apply admitted_iff. Qed.

(** CompileSystem compiles every contract System.Validate accepts, into a
    graph whose node ids are distinct, whose dependencies and placements name
    nodes of the graph, sorted, within the node budget, and whose capacity adds
    up with a non-negative remainder: no 64-bit operation overflowed. *)
Theorem CompileSystem_graph s :
  System_Validate s = Ok tt -> exists g, CompileSystem s = Ok g /\ graph_ok s g.
Proof.
  intros Hv. destruct (CompileSystem s) as [g|e] eqn:Hg; [by eauto using CompileSystem_graph_ok|].
  unfold CompileSystem in Hg. by rewrite Hv in Hg.
Qed.

(** The replica limit ScaleCapacity reports is exact: the System's single
    host has the memory for [k] replicas of the service, the others unchanged,
    exactly when [k] is at most the limit. *)
Theorem ScaleCapacity_maximal s name t n :
  ScaleCapacity s name = Ok (t, n) ->
  t ∈ services_of s /\ SystemService.Name t = name /\ 1 <= n /\
  forall k, guest_memory (rescale name k (services_of s)) <= schedulable s <-> k <= n.
Proof. intros (Ht & Hname & _ & Hn & Hk)%ScaleCapacity_ok. done. Qed.

(** The environment variable a service is bound to is valid, and two
    services of a System are never bound to the same one. *)
Theorem ServiceBindingName_distinct n m b :
  ServiceBindingName n = Ok b -> environmentName b = true /\ (ServiceBindingName m = Ok b -> m = n).
Proof.
  intros [Hn ->]%ServiceBindingName_ok. apply safeName_bytes in Hn as [Hn Hlen]. split.
  - change (class_match is_upper binding_ok 127 ("CANTER_SERVICE_" +:+ (map_string binding_byte n +:+ "_URL")) = true).
    cbn [class_match String.append]. rewrite !andb_true_iff, Nat.leb_le. cbn [string_forallb String.length].
    rewrite string_forallb_app, (map_string_forallb binding_byte name_byte binding_ok), length_append, length_map_string
      by (done || apply binding_byte_ok). cbn [String.length]. split_and!; [done..|lia].
  - intros [Hm E]%ServiceBindingName_ok. apply append_inj_l, append_inj_r in E. apply safeName_bytes in Hm as [Hm _].
    rewrite <- (map_string_inv binding_byte unbind name_byte m), <- E by (done || apply binding_byte_inv).
    apply (map_string_inv binding_byte unbind name_byte); [apply binding_byte_inv|done].
Qed.

(** Two documents of Systems canonical for their workspaces have the same
    key only if they are the same document of the same System of the same
    workspace: tenants cannot reach one another's state, and no document of a
    System overwrites another. *)
Theorem documents_disjoint w w' s s' d d' :
  validateCanonicalSystemForWorkspace w s = Ok tt -> validateCanonicalSystemForWorkspace w' s' = Ok tt ->
  contains_byte w "/" = false -> contains_byte w' "/" = false -> document_ok d = true -> document_ok d' = true ->
  document_key s d = document_key s' d' -> w = w' /\ name_of s = name_of s' /\ d = d'.
Proof.
  intros [Hb Hn]%canonical_base [Hb' Hn']%canonical_base Hw Hw' Hd Hd' E.
  rewrite !document_key_path, Hb, Hb' in E. apply (f_equal (fun k => Split k "/")) in E.
  rewrite !Split_base in E by (done || apply safeName_chars; auto).
  injection E as -> -> E. split_and!; [done..|]. apply document_path_inj; [done..|].
  by rewrite <- (Join_Split (document_path d) "/"), <- (Join_Split (document_path d') "/"), E.
Qed.
End Theorems.

(** ** Witnesses *)
Definition tenant_system : System := with_prefix "workspaces/ws_1/systems/demo" demo_system.
Lemma CompileSystem_graph_witness : exists g, CompileSystem demo_system = Ok g /\ graph_ok demo_system g.
Proof. apply CompileSystem_graph. vm_compute. reflexivity. Defined.

Definition web : SystemService :=
  SystemService.mk "web" "app" EmptyString "process" 2 ["db"] (ServiceResources.mk 1 256) (Readiness.mk "http" 8080) "public".
Lemma ScaleCapacity_maximal_witness :
  ScaleCapacity demo_system "web" = Ok (web, 12) /\
  (guest_memory (rescale "web" 13 (services_of demo_system)) <= schedulable demo_system <-> 13 <= 12).
Proof.
  assert (ScaleCapacity demo_system "web" = Ok (web, 12)) as Hc by (vm_compute; reflexivity).
  split; [exact Hc|]. apply (ScaleCapacity_maximal demo_system "web" web 12 Hc).
Defined.

Lemma ServiceBindingName_distinct_witness :
  ServiceBindingName "db-main" = Ok "CANTER_SERVICE_DB_MAIN_URL" /\ environmentName "CANTER_SERVICE_DB_MAIN_URL" = true.
Proof.
  assert (ServiceBindingName "db-main" = Ok "CANTER_SERVICE_DB_MAIN_URL") as Hb by (vm_compute; reflexivity).
  split; [exact Hb|]. apply (ServiceBindingName_distinct "db-main" "db-main" _ Hb).
Defined.

Lemma documents_disjoint_witness :
  document_key tenant_system DDesired = document_key tenant_system DDesired /\ "ws_1" = "ws_1".
Proof.
  split; [reflexivity|].
  refine (proj1 (documents_disjoint "ws_1" "ws_1" tenant_system tenant_system DDesired DDesired _ _ _ _ _ _ _));
    vm_compute; reflexivity.
Defined.
