(* ===== verification/ChangeTheorems.v ===== *)
(** * Theorems on Changes (sdk/change.go) *)

From S2P Require Import Prelude Effects GoStrings Digest Documents Json SandboxSpec Calls Systems Creation Releases Changes.
From S2P Require Import ChangeRun Readers ChangeSafety ChangeOutcome Example.

Section Theorems.
Context `{Unicode}.

(** ** Safety of ApplyChange *)
(** A call of [ApplyChange s id]: a read, or a call that a change read before
    allows, whose authorization still matches its contract. *)
Definition applied_guard (s : System) (id : string) (h : trace) (call : sdk_call) : Prop :=
  reading h call \/
  exists c, Event (R := answer) (M1Get KChange (changeKey s id)) (Ok c) ∈ h /\ Change.ID c = id /\
    applicable (Change.Phase c) = true /\ digest_valid c = true /\ change_guard s c h call.

Lemma reading_applied s id {A} (p : sdk A) : safe reading p -> safe (applied_guard s id) p.
Proof. apply safe_mono. by left. Qed.

(** C6: whatever the rest of the world does, ApplyChange only reads until it
    has read a change in an applicable phase whose digest equals both the
    authorized one and the digest of its plan and operations; from then on it
    calls the provider only to read (the host's status, for verification), its
    writes of the change keep everything that was authorized, a runtime action carries the approved migration under the lease
    key, and the desired release is set only right after the execution lease was
    asserted, to the approved release, its scale restored, or the stored base. *)
Theorem ApplyChange_guarded fuel s id h :
  wp (fun _ _ _ => True) (applied_guard s id) (ApplyChange fuel s id) (fun _ _ => True) h.
Proof.
  unfold ApplyChange. apply wp_bind. apply wp_InspectChange; [by left|done|]. intros c _ Hid.
  destruct (ended _); [done|]. destruct (applicable _) eqn:Ea; [|done]. destruct (digest_valid c) eqn:Ed; [|done].
  cbn [negb].
  eapply wp_guard; [|apply wp_guard_history, safe_apply_under_lease].
  intros h' call [Hg [l ->]]. right. exists c. split_and!; try done. apply elem_of_app. right. apply list_elem_of_here.
Qed.

(** ** How a change ends *)
Abbreviation wpA p Q h := (wp (fun _ _ _ => True) (fun _ _ => True) p Q h).



(** ** Authorization *)
(** The change [c], read as drafted, authorized under the digest of its own
    plan and operations. *)
Definition authorizes (digest : string) (c v : Change) : Prop :=
  Change.Phase c = "drafted" /\ digest <> EmptyString /\ Change.Digest c = digest /\
  digestChange (Change.Plan_ c) (Change.Operations c) = Ok digest /\
  Change.Phase v = "authorized" /\ Change.Plan_ v = Change.Plan_ c /\ Change.Operations v = Change.Operations c /\
  Authorization.Digest <$> Change.Authorization_ v = Some digest /\ digest_valid v = true.

(** C9: AuthorizeChange writes one thing at most, the drafted change it read,
    authorized under the digest presented, and only when that digest is the
    recorded one and the digest of its plan and operations; what it returns is
    a change ApplyChange accepts. *)
Theorem AuthorizeChange_binds actor s id digest h :
  wp (fun _ _ _ => True)
    (fun h' call => reading h' call \/
       exists c v, call = M1PutJSON KChange (changeKey s id) v /\
         Event (R := answer) (M1Get KChange (changeKey s id)) (Ok c) ∈ h' /\ authorizes digest c v)
    (AuthorizeChange actor s id digest)
    (fun h' r => forall v, r = Ok v -> exists c,
       Event (R := answer) (M1Get KChange (changeKey s id)) (Ok c) ∈ h' /\ authorizes digest c v) h.
Proof.
  unfold AuthorizeChange. apply wp_bind_ok. apply wp_InspectChange; [by left|done|]. intros c _ Hid.
  destruct (_ != "drafted") eqn:Ep; [done|].
  destruct (digestChange (Change.Plan_ c) (Change.Operations c)) as [actual|e] eqn:Ed; [|done].
  rewrite bind_ok_lift. destruct (_ || _) eqn:Em; [done|]. bool_inv. subst actual.
  assert (forall t t', authorizes digest c (Change.with_UpdatedAt t' (Change.with_UpdatedAt t (Change.with_Phase "authorized"
    (Change.with_Authorization_ (Some (Authorization.mk digest t actor)) c))))) as Hauth.
  { intros t t'. split_and!; try done. unfold digest_valid. simpl. rewrite Ed. by rewrite !bool_decide_true by done. }
  apply wp_bind. unfold now. wp_ask; [by left|]. cbv zeta. unfold saveChange. apply wp_bind, wp_bind.
  unfold now. wp_ask; [by left|]. apply wp_bind. unfold PutJSON. wp_ask.
  - right. exists c. eexists. split_and!; [by rewrite <- Hid| |apply Hauth].
    do 2 (apply elem_of_cons; right). apply list_elem_of_here.
  - destruct a1 as [u|e]; [|done]. intros v [= <-]. exists c. split; [|apply Hauth].
    do 3 (apply elem_of_cons; right). apply list_elem_of_here.
Qed.

(** ** The execution lease *)
(** A write of the lease: it did not exist, or the version replaced had expired
    by the clock when it was read. *)
Definition takes_over (s : System) (id : string) (h : trace) (call : sdk_call) : Prop :=
  let key := changeLeaseKey s in
  match call with
  | M1PutJSONIfAbsent KLease k v =>
      k = key /\ ChangeLease.ChangeID v = id /\ Event (R := answer) (M1GetJSONVersion KLease key) (Ok None) ∈ h
  | M1PutJSONIfMatch KLease k etag v =>
      k = key /\ ChangeLease.ChangeID v = id /\
      exists prior, Event (R := answer) (M1GetJSONVersion KLease key) (Ok (Some (prior, etag))) ∈ h /\
        ChangeLease.ExpiresAt prior + changeLeaseDuration <= ChangeLease.ExpiresAt v
  | _ => False
  end.

(** The guard returned is the lease the store accepted. *)
Definition holds (s : System) (h : trace) (r : result changeLeaseGuard) : Prop :=
  match r with
  | Ok g => changeLeaseGuard.key g = changeLeaseKey s /\ changeLeaseGuard.err g = None /\
      ((exists etag, Event (R := answer) (M1PutJSONIfMatch KLease (changeLeaseKey s) etag (changeLeaseGuard.lease g))
         (Ok (changeLeaseGuard.etag g, true)) ∈ h) \/
       Event (R := answer) (M1PutJSONIfAbsent KLease (changeLeaseKey s) (changeLeaseGuard.lease g))
         (Ok (changeLeaseGuard.etag g, true)) ∈ h)
  | Err _ => True
  end.

Lemma wp_read_newID guar Q h :
  (forall h c, reading h c -> guar h c) -> (forall l id, Q (l ++ h) id) ->
  wp (fun _ _ _ => True) guar newID Q h.
Proof.
  intros Hg HQ. unfold newID. apply wp_bind. wp_ask; [by apply Hg|]. destruct a as [b|e].
  - apply wp_ret, (HQ [_]).
  - apply wp_bind. wp_ask; [by apply Hg|]. apply wp_ret, (HQ [_; _]).
Qed.

Lemma acquire_takes_over n s id h :
  wp (fun _ _ _ => True)
    (fun h' call => reading h' call \/ (exists g, call = WriteGuard g) \/ takes_over s id h' call)
    (acquire_lease n s id) (holds s) h.
Proof.
  revert h. induction n as [|n IH]; intros h; cbn [acquire_lease]; [done|]. cbv zeta.
  apply wp_bind_ok. unfold GetJSONVersion. wp_ask; [by left|]. destruct a as [read|e]; [|done].
  apply wp_bind. unfold now. wp_ask; [by left|]. rename a into t.
  apply wp_bind, wp_read_newID; [by left|]. intros l1 holder. apply wp_bind, wp_read_newID; [by left|]. intros l2 token.
  destruct read as [[prior etag]|]; [destruct (_ <=? t) eqn:Et; [|done]|]; apply wp_bind;
    unfold PutJSONIfMatch, PutJSONIfAbsent; wp_ask.
  - right; right. split_and!; [done..|]. exists prior. split; [|simpl; bool_inv; lia].
    do 2 (apply elem_of_app; right). apply elem_of_cons; right. apply list_elem_of_here.
  - destruct a as [[etag' []]|e]; [|apply IH|done]. apply wp_bind. unfold WriteLeaseGuard. wp_ask; [right; left; eauto|].
    split_and!; [done..|]. left. exists etag. apply elem_of_cons; right. apply list_elem_of_here.
  - right; right. split_and!; [done..|]. do 2 (apply elem_of_app; right). apply elem_of_cons; right. apply list_elem_of_here.
  - destruct a as [[etag' []]|e]; [|apply IH|done]. apply wp_bind. unfold WriteLeaseGuard. wp_ask; [right; left; eauto|].
    split_and!; [done..|]. right. apply elem_of_cons; right. apply list_elem_of_here.
Qed.

(** A change takes the execution lease of its System only if there is none
    or by replacing, conditionally on the version read, one that has expired at
    least the duration of the new lease before the new one does; the guard it
    gets is the lease the store accepted. *)
Theorem acquireChangeLease_exclusive s id h :
  wp (fun _ _ _ => True)
    (fun h' call => reading h' call \/ (exists g, call = WriteGuard g) \/ takes_over s id h' call)
    (acquireChangeLease s id) (holds s) h.
Proof. apply acquire_takes_over. Qed.

(** Only the expiry of the lease the guard holds is written, at the version it holds. *)
Definition keeps_lease (h : trace) (c : sdk_call) : Prop :=
  reading h c \/ (exists g, c = WriteGuard g) \/
  exists g t, Event (R := answer) ReadGuard g ∈ h /\
    c = M1PutJSONIfMatch KLease (changeLeaseGuard.key g) (changeLeaseGuard.etag g)
          (ChangeLease.with_ExpiresAt t (changeLeaseGuard.lease g)).
Definition poisoned (h : trace) (b : bool) : Prop :=
  b = false -> exists g, Event (R := answer) (WriteGuard g) tt ∈ h /\ is_Some (changeLeaseGuard.err g).

(** The heartbeat and the release of a lease write it only conditionally on
    the version the guard holds, and change nothing but its expiry; after a
    heartbeat that fails the guard has an error, so that every assertion fails. *)
Theorem heartbeat_keeps_token h :
  wp (fun _ _ _ => True) keeps_lease (b ← heartbeat_tick; _ ← Close; Ret (b : bool)) poisoned h.
Proof.
  apply wp_bind. unfold heartbeat_tick. apply wp_bind. unfold ReadLeaseGuard at 1. wp_ask; [by left|]. rename a into g.
  apply wp_bind. unfold now at 1. wp_ask; [by left|]. cbv zeta. apply wp_bind. unfold PutJSONIfMatch at 1. wp_ask.
  { right; right. exists g. eexists. split; [|done]. apply elem_of_cons; right. apply list_elem_of_here. }
  assert (forall h b (P : trace -> bool -> Prop), (forall l, P (l ++ h) b) ->
    wp (fun _ _ _ => True) keeps_lease (_ ← Close; Ret (b : bool)) P h) as Hclose.
  { intros h0 b P HP. apply wp_bind. unfold Close, ReadLeaseGuard. apply wp_bind. wp_ask; [by left|]. apply wp_bind.
    unfold now. wp_ask; [by left|]. cbv zeta. apply wp_bind. unfold PutJSONIfMatch. wp_ask.
    - right; right. eexists _, _. split; [apply elem_of_cons; right; apply list_elem_of_here|reflexivity].
    - unfold WriteLeaseGuard. wp_ask; [right; left; by eexists|]. apply (HP [_; _; _; _]). }
  destruct a0 as [[etag []]|e]; apply wp_bind; unfold WriteLeaseGuard at 1; (wp_ask; [right; left; by eexists|]);
    (match goal with u : answer (WriteGuard _) |- _ => destruct u end);
    apply Hclose; intros l; try done; intros _; eexists; (split; [apply elem_of_app; right; apply list_elem_of_here|]);
    by eexists.
Qed.

(** C10: a change takes the execution lease of its System only if there is none or
    by replacing, conditionally on the version read, one that has expired at
    least the duration of the new lease before the new one does, and the guard it
    gets is the lease the store accepted; from then on the heartbeat and the
    release write the lease only conditionally on the version the guard holds, and
    change nothing but its expiry; and after a heartbeat that fails the guard has
    an error, so that every assertion of it fails. *)
Theorem change_lease_fenced s id h :
  wp (fun _ _ _ => True)
    (fun h' call => reading h' call \/ (exists g, call = WriteGuard g) \/ takes_over s id h' call)
    (acquireChangeLease s id) (holds s) h /\
  wp (fun _ _ _ => True) keeps_lease (b ← heartbeat_tick; _ ← Close; Ret (b : bool)) poisoned h.
Proof. split; [apply acquireChangeLease_exclusive|apply heartbeat_keeps_token]. Qed.

(** ** The migration language *)
Definition opens (words phrase : list string) : Prop := exists rest, words = phrase ++ rest.
Definition has_run (words phrase : list string) : Prop := exists before after, words = before ++ phrase ++ after.

(** The words of a statement of the expand-only language. *)
Definition expand_words (words : list string) : Prop :=
  opens words ["ALTER"; "TABLE"] /\ has_run words ["ADD"; "COLUMN"; "IF"; "NOT"; "EXISTS"] \/
  opens words ["CREATE"; "TABLE"; "IF"; "NOT"; "EXISTS"] \/
  opens words ["CREATE"; "INDEX"; "IF"; "NOT"; "EXISTS"] \/
  opens words ["CREATE"; "UNIQUE"; "INDEX"; "IF"; "NOT"; "EXISTS"].

Lemma expand_statement_words ws :
  Forall (fun w => contains_byte w " " = false) ws -> expand_statement (Join ws " ") = true -> expand_words ws.
Proof.
  intros Hws. unfold expand_statement. rewrite !orb_true_iff, andb_true_iff.
  intros [[[[Ha Hb]|Hp]|Hp]|Hp].
  - left. split; [by apply (prefix_words ws "ALTER TABLE" EmptyString)|].
    by apply (inner_words ws "ADD COLUMN IF NOT EXISTS").
  - right; left. by apply (prefix_words ws "CREATE TABLE IF NOT EXISTS" EmptyString).
  - right; right; left. by apply (prefix_words ws "CREATE INDEX IF NOT EXISTS" EmptyString).
  - right; right; right. by apply (prefix_words ws "CREATE UNIQUE INDEX IF NOT EXISTS" EmptyString).
Qed.

(** C11: an accepted migration is not blank once its line comments are removed,
    contains none of the forbidden phrases, and each of its statements, in
    upper case and split into words, adds a column to a table or creates a table
    or an index, if it does not exist. *)
Theorem migration_language sql :
  validateExpandMigration sql = Ok tt ->
  let clean := stripSQLComments sql in
  TrimSpace clean <> EmptyString /\
  Forall (fun phrase => Contains (" " +:+ ToUpper clean +:+ " ") phrase = false) forbidden_operations /\
  Forall (fun raw => TrimSpace raw <> EmptyString -> expand_words (Fields (ToUpper (TrimSpace raw)))) (Split clean ";").
Proof.
  unfold validateExpandMigration. cbv zeta. intros Hv. ok_inv. bool_inv. split_and!; [done| |].
  - match goal with Hf : fold_result _ _ forbidden_operations = _ |- _ => by apply fold_result_reject in Hf end.
  - revert Hv. induction (Split _ _) as [|raw l IH]; intros Hv; [constructor|]. cbn [fold_result] in Hv.
    apply result_bind_ok in Hv as ([] & Hc & Hv). constructor; [|by apply IH]. intros Hne. unfold check_statement in Hc.
    rewrite bool_decide_false in Hc by done. ok_inv. bool_inv. apply expand_statement_words; [|done].
    by apply fields_no_space.
Qed.

(** ** Drafting has no effect in production *)
(** DraftChange never touches the desired release, the provider or the
    runtime: it writes the artifact, release records and the change; and what it
    drafts is pending, unauthorized, and recorded under its own digest. *)
Theorem DraftChange_no_effect visit actor revision s input h :
  wp (fun _ _ _ => True) (draft_guard s) (DraftChange visit actor revision s input) (fun _ r => drafted s r) h.
Proof.
  enough (safe_post (draft_guard s) (drafted s) (DraftChange visit actor revision s input)) as Hs by apply Hs.
  unfold DraftChange.
  apply post_bind_ok; [apply safe_ret|done|intros u]. destruct (_ == _); [by apply safe_post_ret|].
  apply post_bind_ok; [apply safe_ret|done|intros u'].
  apply post_bind_wrap; [apply draft_reading; auto with safe|done|intros observed].
  destruct (negb _); [by apply safe_post_ret|].
  apply post_bind_wrap; [apply draft_reading; auto with safe|done|intros desired].
  apply post_bind_ok; [apply post_draft_release|done|intros release]. cbv zeta.
  destruct (negb _); [by apply safe_post_ret|].
  eapply safe_post_bind; [apply post_migration|]. intros [[plan ops]|e] Hops; [|by apply safe_post_ret].
  eapply safe_post_mono; [apply post_draft|by intros r [Hr _]].
  apply Forall_app. split; [by repeat constructor|]. apply Forall_app. split; [by eapply Hops|by repeat constructor].
Qed.

(** What a drafted scaling promises. *)
Definition scale_fits (s : System) (name : string) (c : Change) : Prop :=
  exists service maxReplicas scale,
    ScaleCapacity s name = Ok (service, maxReplicas) /\
    ChangePlan.Scale (Change.Plan_ c) = Some scale /\ ReplicaScalePlan.Service scale = SystemService.Name service /\
    1 <= ReplicaScalePlan.ToReplicas scale <= maxReplicas /\
    ReplicaScalePlan.ToReplicas scale <> ReplicaScalePlan.FromReplicas scale /\
    ReleaseManifest.Replicas (ChangePlan.Release (Change.Plan_ c)) = ReplicaScalePlan.ToReplicas scale.

(** A drafted scaling stays within the capacity of the System's host, its
    release has the planned number of replicas, and drafting it touches neither
    the desired release nor the provider. *)
Theorem DraftScaleChange_fits actor revision s input h :
  wp (fun _ _ _ => True) (draft_guard s) (DraftScaleChange actor revision s input)
    (fun _ r => drafted s r /\ forall c, r = Ok c -> scale_fits s (DraftScaleChangeInput.Service input) c) h.
Proof.
  enough (safe_post (draft_guard s) (fun r => drafted s r /\ forall c, r = Ok c -> scale_fits s _ c)
            (DraftScaleChange actor revision s input)) as Hs by apply Hs.
  assert (forall e, (fun r => drafted s r /\ forall c, r = Ok c -> scale_fits s (DraftScaleChangeInput.Service input) c) (Err e))
    as He by done.
  unfold DraftScaleChange. apply post_bind_ok; [apply safe_ret|done|intros u].
  destruct (_ == _); [by apply safe_post_ret|].
  destruct (ScaleCapacity s _) as [[service maxReplicas]|e] eqn:Ec; [|by apply safe_post_ret]. rewrite bind_ok_lift.
  destruct (_ || _) eqn:Eto; [by apply safe_post_ret|]. bool_inv. destruct (_ && _); [by apply safe_post_ret|].
  apply post_bind_wrap; [apply draft_reading; auto with safe|done|intros observed].
  destruct (negb _); [by apply safe_post_ret|].
  apply post_bind_wrap; [apply draft_reading; auto with safe|done|intros release].
  apply safe_post_any; [apply draft_reading; auto with safe|intros t]. cbv zeta.
  match goal with |- safe_post _ _ (if ?b then _ else _) => destruct b end; [by apply safe_post_ret|].
  destruct (DraftScaleChangeInput.Replicas input == _) eqn:Efrom; [by apply safe_post_ret|].
  destruct (negb _); [by apply safe_post_ret|].
  apply safe_post_any; [apply draft_reading; safe_tac|intros restoreAt].
  eapply safe_post_mono; [apply post_draft; by repeat constructor|]. intros r [Hr Hplan]. split; [done|].
  intros c ->. specialize (Hplan c eq_refl). bool_inv. unfold scale_fits. rewrite Hplan.
  exists service, maxReplicas. eexists. split_and!; try done; simpl; lia.
Qed.

(** ** The waits *)
(** The waits for a release end: if the timer or the context ends the wait
    within [n] ticks of half a second, [n + 1] turns of the loop decide it. *)
Theorem waits_terminate n fuel s version replicas timeout :
  (n < fuel)%nat ->
  wp (ends_within n) (fun _ _ => True) (waitReleaseVersion fuel s version timeout) (fun _ r => r <> Err OutOfFuel) [] /\
  wp (ends_within n) (fun _ _ => True) (waitReleaseReplicas fuel s version replicas timeout)
    (fun _ r => r <> Err OutOfFuel) [].
Proof.
  intros Hn. split_and!; apply (poll_ends n fuel); try done; unfold bounded.
  - intros h [o|e] Hr; [|by intros [= ->]]. by destruct (healthy_version version o), (failed_version version o).
  - intros h [e| |] Hw; split; try done. by intros [= ->].
  - intros h [o|e] Hr; [|by intros [= ->]].
    by destruct (replicas_ready version replicas o), (failed_version version o), (lease_expired o).
  - intros h [e| |] Hw; split; try done. by intros [= ->].
Qed.

End Theorems.

(** ** Witnesses *)
Definition demo_migration : string := "-- a column and a table
alter  table orders add column if not exists note text;
CREATE TABLE IF NOT EXISTS refunds (id bigint);".

Lemma migration_language_witness :
  validateExpandMigration demo_migration = Ok tt /\ TrimSpace (stripSQLComments demo_migration) <> EmptyString.
Proof. split; [reflexivity|]. apply (migration_language demo_migration). reflexivity. Defined.

Lemma waits_terminate_witness :
  (3 < 4)%nat /\
  wp (ends_within 3) (fun _ _ => True) (waitReleaseVersion 4 demo_system "0123456789ab" wait_timeout)
    (fun _ r => r <> Err OutOfFuel) [].
Proof. split; [lia|]. apply (waits_terminate 3 4 demo_system "0123456789ab" 1 wait_timeout). lia. Defined.

(** ** What the migration language lets through

    A forbidden word is looked for between spaces, so a line break or a tab
    hides it; and what follows two dashes inside a string constant is dropped
    before the check but not before the execution. *)
Example hidden_drop_column :
  validateExpandMigration ("ALTER TABLE t ADD COLUMN IF NOT EXISTS x int," +:+ bytes [10] +:+ "DROP" +:+ bytes [9] +:+
                           "COLUMN balance;") = Ok tt.
Proof. vm_compute. reflexivity. Qed.

Example hidden_statement :
  validateExpandMigration "ALTER TABLE t ADD COLUMN IF NOT EXISTS x text DEFAULT '--'; DROP TABLE accounts;" = Ok tt.
Proof. vm_compute. reflexivity. Qed.
