(* ===== verification/ReleaseTheorems.v ===== *)
(** * Theorems on releases and the node gateway *)

From S2P Require Import Prelude Effects GoStrings Digest Documents Calls SandboxSpec Systems Creation Releases Changes.
From S2P Require Import Nodes ReleaseSafety Example.

(** ** Quoting

    The release layer passes values through a shell script and a systemd unit
    ([shellQuote], [systemdQuoteArg]).  The readers are specified here, POSIX
    word quoting and systemd's command line, and reading what was quoted gives
    the value back.  [Reads] is the interface the theorems use: a writer of
    values and a reader of text that inverts it. *)

Class Reads {A} (write : A -> result string) (read : string -> option A) : Prop :=
  read_write : forall a s, write a = Ok s -> read s = Some a.

Lemma reads_inj {A} (write : A -> result string) read `{!Reads write read} a b s :
  write a = Ok s -> write b = Ok s -> a = b.
Proof. intros Ha%read_write Hb%read_write. congruence. Qed.

(** ** A word of a POSIX shell

    Only quoted text and escaped bytes: [None] is a word the shell would expand,
    split or not finish. *)
Inductive sh_mode : Type := Plain | Escaped | Quoted.
Fixpoint sh_go (m : sh_mode) (s : string) : option string :=
  match m, s with
  | Plain, EmptyString => Some EmptyString
  | Plain, String c s' =>
      if c == "'"%char then sh_go Quoted s' else if c == "\"%char then sh_go Escaped s' else None
  | Escaped, String c s' => if c == chr 10 then None else String c <$> sh_go Plain s'
  | Quoted, String c s' => if c == "'"%char then sh_go Plain s' else String c <$> sh_go Quoted s'
  | _, EmptyString => None
  end.
Definition sh_word (s : string) : option string := sh_go Plain s.

Lemma ReplaceAll_app s t c new : ReplaceAll (s +:+ t) c new = ReplaceAll s c new +:+ ReplaceAll t c new.
Proof. induction s as [|a s IH]; [done|]. cbn [ReplaceAll String.append]. by rewrite IH, append_assoc. Qed.

Lemma sh_quoted v rest :
  sh_go Quoted (ReplaceAll v "'"%char "'\''" +:+ String "'" rest) = (fun r => v +:+ r) <$> sh_go Plain rest.
Proof.
  induction v as [|c v IH]; [cbn; by destruct (sh_go Plain rest)|]. cbn [ReplaceAll].
  rewrite <- append_assoc. destruct (decide (c = "'"%char)) as [->|Hc].
  - rewrite bool_decide_true by done.
    assert (forall t, sh_go Quoted ("'\''" +:+ t) = String "'" <$> sh_go Quoted t) as -> by done.
    rewrite IH. by destruct (sh_go Plain rest).
  - rewrite bool_decide_false by done. cbn [String.append sh_go].
    rewrite bool_decide_false by done. rewrite IH. by destruct (sh_go Plain rest).
Qed.

#[export] Instance shell_reads : Reads (fun v => Ok (shellQuote v)) sh_word.
Proof.
  intros v s [= <-]. unfold shellQuote, single_quote, sh_word.
  change (sh_go Quoted (ReplaceAll v "'"%char "'\''" +:+ String "'" EmptyString) = Some v).
  rewrite sh_quoted. simpl. by rewrite append_nil_r.
Qed.

(** ** A word of a systemd command line

    Double quotes with backslash escapes, then specifiers.  A dollar sign would
    be replaced by a variable: [None]. *)
Fixpoint unescape (escaped : bool) (s : string) : option string :=
  match s with
  | EmptyString => None
  | String c s' =>
      if escaped then (if (c == quote_char) || (c == "\"%char) then String c <$> unescape false s' else None)
      else if c == quote_char then (if s' == EmptyString then Some EmptyString else None)
      else if c == "\"%char then unescape true s'
      else if (c == chr 0) || (c == chr 10) then None
      else String c <$> unescape false s'
  end.
Fixpoint specifiers (percent : bool) (s : string) : option string :=
  match s with
  | EmptyString => if percent then None else Some EmptyString
  | String c s' =>
      if percent then (if c == "%"%char then String c <$> specifiers false s' else None)
      else if c == "%"%char then specifiers true s'
      else if c == "$"%char then None
      else String c <$> specifiers false s'
  end.
Definition systemd_word (s : string) : option string :=
  match s with
  | String c s' => if c == quote_char then word ← unescape false s'; specifiers false word else None
  | EmptyString => None
  end.

(** One pass that escapes a byte, as the source's three calls of ReplaceAll do. *)
Definition systemd_byte (c : ascii) : string :=
  if c == "\"%char then bytes [92; 92] else if c == quote_char then bytes [92; 34]
  else if c == "%"%char then "%%" else String c EmptyString.
Fixpoint systemd_bytes (s : string) : string :=
  match s with EmptyString => EmptyString | String c s' => systemd_byte c +:+ systemd_bytes s' end.

Lemma replace_three s :
  ReplaceAll (ReplaceAll (ReplaceAll s (chr 92) (bytes [92; 92])) quote_char (bytes [92; 34])) "%"%char "%%" =
  systemd_bytes s.
Proof.
  induction s as [|c s IH]; [done|]. cbn [ReplaceAll systemd_bytes]. rewrite !ReplaceAll_app, IH. f_equal.
  unfold systemd_byte. change (chr 92) with "\"%char. destruct (decide (c = "\"%char)) as [->|H1]; [done|].
  rewrite !(bool_decide_false (c = "\"%char)) by done. cbn [ReplaceAll].
  destruct (decide (c = quote_char)) as [->|H2]; [done|]. rewrite !(bool_decide_false (c = quote_char)) by done.
  cbn [ReplaceAll String.append]. by destruct (decide (c = "%"%char)) as [->|H3];
    [|rewrite !(bool_decide_false (c = "%"%char)) by done].
Qed.

Fixpoint percents (s : string) : string :=
  match s with EmptyString => EmptyString | String c s' => (if c == "%"%char then "%%" else String c EmptyString) +:+ percents s' end.

Lemma unescape_bytes v :
  contains_byte v (chr 0) = false -> contains_byte v (chr 10) = false ->
  unescape false (systemd_bytes v +:+ double_quote) = Some (percents v).
Proof.
  induction v as [|c v IH]; [done|]. cbn [contains_byte systemd_bytes percents]. rewrite !orb_false_iff.
  intros [H0 Hv0] [H10 Hv10]. specialize (IH Hv0 Hv10). rewrite <- append_assoc. unfold systemd_byte.
  destruct (decide (c = "\"%char)) as [->|H1].
  { trans (String "\" <$> unescape false (systemd_bytes v +:+ double_quote)); [done|by rewrite IH]. }
  rewrite (bool_decide_false (c = "\"%char)) by done. destruct (decide (c = quote_char)) as [->|H2].
  { trans (String quote_char <$> unescape false (systemd_bytes v +:+ double_quote)); [done|by rewrite IH]. }
  rewrite (bool_decide_false (c = quote_char)) by done. destruct (decide (c = "%"%char)) as [->|H3].
  { trans (String "%" <$> (String "%" <$> unescape false (systemd_bytes v +:+ double_quote))); [done|by rewrite IH]. }
  rewrite !(bool_decide_false (c = "%"%char)) by done. cbn [String.append unescape].
  rewrite (bool_decide_false (c = quote_char)), (bool_decide_false (c = "\"%char)), H0, H10 by done. cbn.
  by rewrite IH.
Qed.

Lemma specifiers_percents v : contains_byte v "$" = false -> specifiers false (percents v) = Some v.
Proof.
  induction v as [|c v IH]; [done|]. cbn [contains_byte percents]. rewrite orb_false_iff. intros [Hc Hv].
  specialize (IH Hv). destruct (decide (c = "%"%char)) as [->|H3].
  { trans (String "%" <$> specifiers false (percents v)); [done|by rewrite IH]. }
  rewrite !(bool_decide_false (c = "%"%char)) by done. cbn [String.append specifiers].
  rewrite (bool_decide_false (c = "%"%char)), Hc by done. cbn. by rewrite IH.
Qed.

(** The arguments systemd does not expand. *)
Definition systemd_arg (v : string) : result string :=
  if contains_byte v "$" then Err (Errorf "systemd argument contains a variable") else systemdQuoteArg v.

#[export] Instance systemd_reads : Reads systemd_arg systemd_word.
Proof.
  intros v s. unfold systemd_arg. destruct (contains_byte v "$") eqn:Hd; [done|]. unfold systemdQuoteArg. cbv zeta.
  destruct (_ || _) eqn:Hc; [done|]. intros [= <-]. apply orb_false_iff in Hc as [_ Hc].
  unfold ContainsAny in Hc. cbn [existsb] in Hc. rewrite !orb_false_iff in Hc. destruct Hc as (H0 & _ & H10 & _).
  rewrite replace_three. unfold double_quote at 1. cbn [String.append systemd_word].
  rewrite bool_decide_true by done. rewrite unescape_bytes by done. simpl. by apply specifiers_percents.
Qed.

(** ** Digests *)
#[export] Instance hex_reads :
  Reads (fun l => if forallb (fun b => (0 <=? b) && (b <? 256)) l then Ok (hex_encode l) else Err (Errorf "not bytes"))
    hex_decode.
Proof.
  intros l s. destruct (forallb _ l) eqn:E; [|done]. intros [= <-]. apply hex_decode_encode.
  apply Forall_forall. intros b Hb. rewrite forallb_forall in E. specialize (E b (proj1 (list_elem_of_In _ _) Hb)).
  bool_inv. lia.
Qed.

Section Theorems.
Context `{Unicode}.

(** ** Publishing *)
(** C36: publishing a release, from a staged artifact or from a local file,
    records its manifest under the version of its own digest without ever
    overwriting the manifest of another digest, and makes it desired only once
    it is recorded and its content was read or uploaded and has its digest. *)
Theorem publish_guarded s staged input h :
  wp (fun _ _ _ => True) (release_guard s)
    (_ ← PublishStagedRelease s staged; PublishRelease s input) (fun _ _ => True) h.
Proof.
  eapply wp_bind_mono with (P := fun _ _ => True).
  - unfold PublishStagedRelease. cbv zeta. apply wp_bind_ok, wp_ret. destruct (System_Validate s); [|done].
    apply wp_bind_ok, wp_ret. destruct (valid_release _ _ _); [|done]. destruct (_ || _); [done|].
    apply wp_bind_ok, wp_VerifyStaged; [by intros h0 [] Hc; try destruct k|done|]. intros l data Hd He.
    apply wp_bind. unfold now. wp_ask. apply wp_bind_wrap, wp_persist; [done|done|]. intros l' Hr.
    apply wp_publish_desired; [done|done| |done]. apply hashed_mono. by eapply (hashed_mono [_]), hashed_staged.
  - intros h' r _. unfold PublishRelease. apply wp_bind_ok, wp_StageRelease; [done|]. intros h0 m Hv Hr Hh.
    by apply wp_publish_desired.
Qed.

(** What the object store answers when it holds [data] under [key]. *)
Definition stores (key data : string) (h : trace) (c : sdk_call) (r : answer c) : Prop :=
  match c return answer c -> Prop with
  | M1GetBytes k => fun r => k = key -> r = Ok data
  | M1GetBytesLimited k limit => fun r => k = key -> slen data <= limit -> r = Ok data
  | _ => fun _ => True
  end r.

(** What StageControlPlaneArtifact staged passes VerifyStagedArtifact as
    long as the store returns the bytes it was given, and is erasable: its key
    is canonical for its digest. *)
Theorem staged_artifact_verifies artifact filename contentType h :
  wp (fun _ _ _ => True) (fun _ _ => True) (StageControlPlaneArtifact artifact filename contentType)
    (fun _ r => forall a, r = Ok a ->
       canonical_artifact (StagedArtifact.Key a) (StagedArtifact.SHA256 a) = true /\
       forall h', wp (stores (StagedArtifact.Key a) artifact) (fun _ _ => True) (VerifyStagedArtifact a)
                    (fun _ v => v = Ok tt) h') h.
Proof.
  unfold StageControlPlaneArtifact. destruct (_ || _) eqn:Esize; [done|]. bool_inv. cbv zeta.
  assert (ControlPlaneArtifactKey (sha256_hex artifact) = Ok (artifactPrefix +:+ sha256_hex artifact +:+ ".tar.gz")) as Hkey.
  { unfold ControlPlaneArtifactKey. unfold sha256_hex at 1. rewrite hex_decode_encode by apply sum_bytes.
    rewrite length_sum, ToLower_lower_hex by apply sha256_hex_lower. by rewrite !bool_decide_true by done. }
  set (key := artifactPrefix +:+ sha256_hex artifact +:+ ".tar.gz") in Hkey. clearbody key.
  rewrite Hkey, bind_ok_lift. apply wp_bind_wrap. unfold Put. wp_ask. destruct a as [u|e]; [|done].
  intros a [= <-]. cbn [StagedArtifact.Key StagedArtifact.SHA256]. split.
  { unfold canonical_artifact. rewrite Hkey. by rewrite bool_decide_true. }
  intros h'. unfold VerifyStagedArtifact. cbn [StagedArtifact.Size StagedArtifact.SHA256 StagedArtifact.Key]. cbv zeta.
  assert (slen artifact <> 0) by done. assert (0 <= slen artifact) by (unfold slen; lia).
  destruct (_ || _) eqn:Es.
  { exfalso. apply orb_true_iff in Es as [Es|Es]; bool_inv; lia. }
  rewrite Hkey, bind_ok_lift, bool_decide_true by done. cbn [negb]. apply wp_bind_wrap. unfold readArtifactBytes.
  apply wp_bind. wp_ask. destruct a.
  - wp_ask_as r Hr. simpl in Hr. rewrite (Hr eq_refl) by lia. by rewrite !bool_decide_true by done.
  - apply wp_bind_ok. unfold GetBytes. wp_ask_as r Hr. simpl in Hr. rewrite (Hr eq_refl).
    cbv beta iota. rewrite Z.ltb_irrefl. cbn [wp]. by rewrite !bool_decide_true by done.
Qed.

(** Erasure deletes nothing but a canonical staged artifact: one object,
    named by 64 hexadecimal digits in lower case under the staging prefix. *)
Theorem DeleteControlPlaneArtifact_canonical key h :
  wp (fun _ _ _ => True)
    (fun _ call => match call with
       | M1Delete k => k = key /\ exists digest bytes, k = artifactPrefix +:+ digest +:+ ".tar.gz" /\
           hex_decode digest = Some bytes /\ length bytes = 32%nat /\ ToLower digest = digest
       | call => reading h call
       end)
    (DeleteControlPlaneArtifact key) (fun _ _ => True) h.
Proof.
  unfold DeleteControlPlaneArtifact. cbv zeta. set (digest := TrimSuffix _ _).
  destruct (canonical_artifact key digest) eqn:Ec; [|done]. unfold canonical_artifact, ControlPlaneArtifactKey in Ec.
  destruct (hex_decode digest) as [b|] eqn:Ed; [|done]. destruct (_ || _) eqn:Eb; [done|]. bool_inv.
  cbn [negb]. apply wp_bind. wp_ask. destruct a; [|done]. cbn [negb]. wp_ask; [|done]. split; [done|]. by exists digest, b.
Qed.

(** ** Nodes *)
Definition artifact_current (s : System) (digest ownedKey : string) (h : trace) (r : result string) : Prop :=
  forall data, r = Ok data -> sha256_hex data = digest /\
    exists d, Event (R := answer) (M1Get KManifest (desiredKey s)) (Ok d) ∈ h /\
      ReleaseManifest.System d = name_of s /\ ReleaseManifest.ArtifactSHA d = digest /\
      Event (R := answer) (M1GetBytes (ReleaseManifest.ArtifactKey d)) (Ok data) ∈ h /\
      (HasPrefix (ReleaseManifest.ArtifactKey d) (system_base s +:+ "/artifacts/") = true \/ ReleaseManifest.ArtifactKey d = ownedKey).

(** A node fetches only the artifact of the release that is desired now for
    its System, by its exact digest, from the System's own artifacts or the one
    staged object its workspace owns; the bytes it gets have that digest; and
    fetching only reads. *)
Theorem NodeArtifact_current s digest ownedKey h :
  wp (fun _ _ _ => True) reading (NodeArtifact s digest ownedKey) (fun h' r => artifact_current s digest ownedKey h' r) h.
Proof.
  unfold NodeArtifact. destruct (_ || _); [done|]. apply wp_bind_ok. unfold Get. wp_ask. destruct a as [d|e]; [|done].
  destruct (_ || _) eqn:Ed; [done|]. cbv zeta. destruct (_ && _) eqn:Ek; [done|]. apply wp_bind_ok. unfold GetBytes. wp_ask.
  destruct a as [b|e]; [|done]. destruct (sha256_hex b != _) eqn:Es; [done|]. apply wp_ret. intros data [= <-]. bool_inv. split; [done|].
  exists d. split_and!; try done; [apply elem_of_cons; right; left|left|].
  apply andb_false_iff in Ek as [Ek|Ek]; bool_inv; auto.
Qed.

(** The lease of an action, read before the clock, still covers it. *)
Definition fenced (s : System) (h : trace) (action : RuntimeAction) (lease : ChangeLease) : Prop :=
  HasPrefix (RuntimeAction.LeaseKey action) (changesPrefix s) = true /\
  ChangeLease.FencingToken lease = RuntimeAction.FencingToken action /\
  HasPrefix (RuntimeAction.ID action) (ChangeLease.ChangeID lease +:+ "-") = true /\
  exists t, t < ChangeLease.ExpiresAt lease /\ Event (R := answer) Now t ∈ h.

Lemma covered_fenced s h action lease t :
  HasPrefix (RuntimeAction.LeaseKey action) (changesPrefix s) = true -> lease_covers action lease t = true ->
  Event (R := answer) Now t ∈ h -> fenced s h action lease.
Proof.
  unfold lease_covers. intros Hk Hc Ht. rewrite !andb_true_iff, bool_decide_eq_true, Z.ltb_lt in Hc.
  destruct Hc as [[Hf He] Hp]. split_and!; [done..|]. by exists t.
Qed.

Definition snapshot_fenced (s : System) (h : trace) (r : result NodeSnapshot) : Prop :=
  forall snapshot served, r = Ok snapshot -> NodeSnapshot.RuntimeAction_ snapshot = Some served ->
    exists action,
      Event (R := answer) (M1GetOptional KAction (runtimeActionRequestKey s)) (Ok (Some action)) ∈ h /\
      Event (R := answer) (M1GetOptional KActionResult (runtimeActionResultKey s (RuntimeAction.ID action))) (Ok None) ∈ h /\
      Event (R := answer) (M1GetOptional KLease (RuntimeAction.LeaseKey action)) (Ok (Some (NodeRuntimeAction.Lease served))) ∈ h /\
      NodeRuntimeAction.Action served = RuntimeAction.with_LeaseKey EmptyString action /\
      fenced s h action (NodeRuntimeAction.Lease served).

(** The action served is the pending one, and its lease covers it. *)
Lemma wp_snapshot_action s Q h :
  (forall l r, (forall served, r = Ok (Some served) -> exists action,
      Event (R := answer) (M1GetOptional KAction (runtimeActionRequestKey s)) (Ok (Some action)) ∈ l ++ h /\
      Event (R := answer) (M1GetOptional KActionResult (runtimeActionResultKey s (RuntimeAction.ID action))) (Ok None) ∈ l ++ h /\
      Event (R := answer) (M1GetOptional KLease (RuntimeAction.LeaseKey action)) (Ok (Some (NodeRuntimeAction.Lease served))) ∈ l ++ h /\
      NodeRuntimeAction.Action served = RuntimeAction.with_LeaseKey EmptyString action /\
      fenced s (l ++ h) action (NodeRuntimeAction.Lease served)) -> Q (l ++ h) r) ->
  wp (fun _ _ _ => True) reading (snapshot_action s) Q h.
Proof.
  intros HQ. unfold snapshot_action. apply wp_bind_ok. unfold GetOptional. wp_ask.
  destruct a as [[action|]|e]; [|by apply (HQ [_])..].
  apply wp_bind_ok. wp_ask. destruct a as [[res|]|e]; [by apply (HQ [_; _])| |by apply (HQ [_; _])].
  destruct (HasPrefix (RuntimeAction.LeaseKey action) _) eqn:Ek; [|by apply (HQ [_; _])].
  apply wp_bind_ok. wp_ask. destruct a as [[lease|]|e]; [|by apply (HQ [_; _; _])..].
  destruct (_ != _) eqn:Ef; [by apply (HQ [_; _; _])|]. apply wp_bind. unfold now. wp_ask. apply wp_ret, (HQ [_; _; _; _]).
  intros served. destruct (lease_covers action lease a) eqn:Ec; [|done]. intros [= <-]. exists action.
  split_and!; [set_solver..|done|]. apply (covered_fenced s _ _ _ a); [done..|]. left.
Qed.

Lemma reading_snapshot_parts s :
  safe reading (snapshot_plan s) /\ safe reading (snapshot_desired s) /\ safe reading (snapshot_control s).
Proof. unfold snapshot_plan, snapshot_desired, snapshot_control. split_and!; safe_tac. Qed.

(** A node's snapshot only reads, and the runtime action it serves is the
    one requested, without a result yet, under a lease of its System's Changes
    read with the action's fencing token and unexpired when the clock was read;
    the node is not told the lease's key. *)
Theorem NodeSnapshot_fenced s h :
  wp (fun _ _ _ => True) reading (Client_NodeSnapshot s) (fun h' r => snapshot_fenced s h' r) h.
Proof.
  destruct (reading_snapshot_parts s) as (H1 & H2 & H3). unfold Client_NodeSnapshot.
  apply wp_bind_ok, wp_ret. destruct (System_Validate s); [|done].
  apply wp_bind_ok. eapply wp_mono; [by apply safe_wp|]. intros h1 [plan|e] _; [|done].
  apply wp_bind_ok. eapply wp_mono; [by apply safe_wp|]. intros h2 [desired|e] _; [|done].
  apply wp_bind_ok. eapply wp_mono; [by apply safe_wp|]. intros h3 [control|e] _; [|done].
  apply wp_bind_ok, wp_snapshot_action. intros l [action|e] Ha; [|done].
  destruct (generation plan desired control action) as [g|e]; [|done]. rewrite bind_ok_lift.
  intros snapshot served [= <-] Hs. cbn [NodeSnapshot.RuntimeAction_] in Hs. by apply Ha; rewrite Hs.
Qed.

Definition result_guard (s : System) (res : RuntimeActionResult) (h : trace) (c : sdk_call) : Prop :=
  match c with
  | M1PutJSON KActionResult key v => v = res /\ exists action lease,
      Event (R := answer) (M1Get KAction (runtimeActionRequestKey s)) (Ok action) ∈ h /\
      Event (R := answer) (M1Get KLease (RuntimeAction.LeaseKey action)) (Ok lease) ∈ h /\
      key = runtimeActionResultKey s (RuntimeAction.ID action) /\ RuntimeActionResult.System v = name_of s /\
      fenced s h action lease
  | c => reading h c
  end.

(** A node's result is stored only under the id of the action that is
    current, while the lease the action was requested under still has its
    fencing token and has not expired. *)
Theorem PutNodeRuntimeActionResult_fenced s res h :
  wp (fun _ _ _ => True) (result_guard s res) (PutNodeRuntimeActionResult s res) (fun _ _ => True) h.
Proof.
  unfold PutNodeRuntimeActionResult. apply wp_bind_ok. unfold Get. wp_ask. destruct a as [action|e]; [|done].
  destruct (_ || _) eqn:Er; [done|]. bool_inv. destruct (HasPrefix _ _) eqn:Ek; [|done]. cbn [negb]. apply wp_bind_ok. wp_ask.
  destruct a as [lease|e]; [|done]. cbv zeta. destruct (_ != _) eqn:Ef; [done|]. bool_inv.
  apply wp_bind. unfold now. wp_ask. destruct (lease_covers action lease a) eqn:Ec; [|done].
  unfold PutJSON. wp_ask; [|done]. split; [done|]. exists action, lease. bool_inv.
  split_and!; [set_solver..|congruence|done|]. apply (covered_fenced s _ _ _ a); [done..|]. left.
Qed.

(** What a node is served and may store, whatever happens meanwhile.  Its
    snapshot only reads, and the runtime action in it is the one requested,
    without a result yet, under a lease of its System's Changes with the action's
    fencing token, unexpired when the clock was read, and without the lease's key.
    Its result is stored only under the id of the current action, while the lease
    the action was requested under still has its token and has not expired.  It
    fetches only the artifact of the release that is desired now for its System,
    by its exact digest, from the System's own artifacts or the staged object its
    workspace owns, and the bytes it gets have that digest. *)
Theorem node_gateway_fenced s res digest ownedKey h :
  wp (fun _ _ _ => True) reading (Client_NodeSnapshot s) (fun h' r => snapshot_fenced s h' r) h /\
  wp (fun _ _ _ => True) (result_guard s res) (PutNodeRuntimeActionResult s res) (fun _ _ => True) h /\
  wp (fun _ _ _ => True) reading (NodeArtifact s digest ownedKey) (fun h' r => artifact_current s digest ownedKey h' r) h.
Proof. split_and!; [apply NodeSnapshot_fenced|apply PutNodeRuntimeActionResult_fenced|apply NodeArtifact_current]. Qed.

(** ** Quoting *)
(** A shell reads what shellQuote wrote as one word, the value itself,
    without expanding anything, whatever the value. *)
Theorem shellQuote_read value : sh_word (shellQuote value) = Some value.
Proof. by apply shell_reads. Qed.

(** Systemd reads an argument systemdQuoteArg wrote as one word, the value
    itself: quotes, backslashes and percent signs are escaped, and line breaks
    are refused.  (A dollar sign is not escaped: see the hypothesis.) *)
Theorem systemdQuoteArg_read value quoted :
  contains_byte value "$" = false -> systemdQuoteArg value = Ok quoted -> systemd_word quoted = Some value.
Proof. intros Hd Hq. apply systemd_reads. unfold systemd_arg. by rewrite Hd. Qed.

(** A shell reads what shellQuote wrote as one word, the value itself,
    without expanding anything, whatever the value; and systemd reads an argument
    systemdQuoteArg wrote as one word, the value itself: quotes, backslashes and
    percent signs are escaped and line breaks are refused.  (systemdQuoteArg does
    not escape a dollar sign: see the hypothesis.) *)
Theorem quoted_words_read value quoted :
  contains_byte value "$" = false -> systemdQuoteArg value = Ok quoted ->
  sh_word (shellQuote value) = Some value /\ systemd_word quoted = Some value.
Proof. intros Hd Hq. split; [apply shellQuote_read|by apply systemdQuoteArg_read]. Qed.
End Theorems.

(** ** Witnesses *)
Lemma quoted_words_read_witness :
  systemdQuoteArg "50% of 'a' \ b" = Ok (double_quote +:+ "50%% of 'a' \\ b" +:+ double_quote) /\
  sh_word (shellQuote "50% of 'a' \ b") = Some "50% of 'a' \ b" /\
  systemd_word (double_quote +:+ "50%% of 'a' \\ b" +:+ double_quote) = Some "50% of 'a' \ b".
Proof. split; [reflexivity|]. apply (quoted_words_read "50% of 'a' \ b"); reflexivity. Defined.
