(* ===== verification/NodeTheorems.v ===== *)
(** * Theorems on the node agent *)

From stdpp Require Import relations.
From S2P Require Import Prelude Effects GoStrings Digest Documents Json SandboxSpec Calls Systems Creation Releases.
From S2P Require Import Nodes AgentCalls NodeArtifacts Paths Postgres NodeAgent NodeReconcile NodeFleet NodeTurns.
From S2P Require Import Routing ExtractSafety Example.
#[local] Open Scope Z_scope.

Section Theorems.
Context `{Unicode} (open_archive : string -> result archive) (fuel : nat).

(** ** The fleet *)
(** C35: reconciling a node's fleet either fails, leaving the replicas, their
    routing and the state of the node exactly as they were, but that a pending
    restart request may be dropped, and every process it started killed; or it
    ends with the number of replicas wanted, all with the identity wanted
    (artifact, command, environment, bindings), on distinct ports, each new one
    started for this release and answered healthy before, traffic routed to
    exactly them, every other process it started and every former replica
    killed. *)
Theorem reconcileReleaseFleet_result before desired n h :
  fleet_ok before h n -> 1 <= ReleaseManifest.Replicas desired ->
  wp (fun _ _ _ => True) (fun _ _ => True) (reconcileReleaseFleet open_archive fuel desired n)
    (fun h' r => fleet_result desired before h h' n r.1 r.2) h.
Proof. intros Hn Hr. eapply wp_guard; [|by apply (wp_fleet open_archive fuel desired before)]. done. Qed.

(** C34: over the turns of the agent, whatever the gateway, the processes and
    the drivers of [main] answer, a process is signalled only while no traffic
    is routed to it or after it was seen to have exited; and between turns
    traffic is routed to exactly the fleet, whose replicas have distinct ports. *)
Theorem run_node_no_outage turns n :
  node.active n = [] ->
  wp (fun _ _ _ => True) turn_guard (run_node open_archive (main_registry fuel) fuel turns n)
    (fun h' r => fleet_ok [] h' r.2) [].
Proof.
  intros Hn. apply keeps_run_node; [|split; rewrite Hn; [done|constructor]].
  unfold main_registry, Register. repeat (apply map_Forall_insert_2; [apply inert_Postgres|]). apply map_Forall_empty.
Qed.

(** How often a health check went on. *)
Definition health_tick (e : event agent_answer) : bool :=
  match e with Event (HealthSelect _) ATick => true | _ => false end.
Definition health_ticks (h : atrace) : nat := length (List.filter health_tick h).
Definition ticks_at_most (limit : nat) (h : atrace) (c : agent_call) : agent_answer c -> Prop :=
  match c return agent_answer c -> Prop with
  | HealthSelect _ => fun wake => wake = ATick -> (health_ticks h < limit)%nat
  | _ => fun _ => True
  end.

(** C40: waiting for a candidate's health ends: when the ticker can fire at most
    [limit] times before the deadline (120 in the 30 seconds of main.go), more
    fuel than that is enough, and the answer is then decided by a check, the
    deadline, the context or the candidate's exit, never by the fuel. *)
Theorem waitHealthy_terminates limit port path p :
  (limit < fuel)%nat ->
  wp (ticks_at_most limit) (fun _ _ => True) (waitHealthy fuel port path p)
    (fun h' r => match r with
       | Ok _ => exists code, 200 <= code < 300 /\
           head h' = Some (Event (R := agent_answer) (HealthGet ("http://127.0.0.1:" +:+ Itoa port +:+ path)) (Some code))
       | Err e => exists wake, head h' = Some (Event (R := agent_answer) (HealthSelect p) wake) /\ wake <> ATick
       end) [].
Proof.
  unfold waitHealthy. set (url := _ +:+ _ +:+ _). clearbody url.
  assert (forall n h, (health_ticks h <= limit)%nat -> (limit - health_ticks h < n)%nat ->
    wp (ticks_at_most limit) (fun _ _ => True) (health_loop n url p)
      (fun h' r => match r with
         | Ok _ => exists code, 200 <= code < 300 /\ head h' = Some (Event (R := agent_answer) (HealthGet url) (Some code))
         | Err e => exists wake, head h' = Some (Event (R := agent_answer) (HealthSelect p) wake) /\ wake <> ATick
         end) h) as Hloop.
  { intros n. induction n as [|n IH]; intros h Hh Hn; [lia|]. cbn [health_loop]. apply wp_bind. unfold ask.
    wp_ask_as wake Hw. destruct wake as [e| |e|]; try by eexists; split. specialize (Hw eq_refl).
    apply wp_bind. wp_ask. destruct (healthy_status a) eqn:Ea.
    - destruct a as [code|]; [|done]. exists code. unfold healthy_status in Ea. bool_inv. by split.
    - apply IH; unfold health_ticks in *; cbn [List.filter health_tick length]; lia. }
  intros Hf. apply Hloop; unfold health_ticks; simpl; lia.
Qed.

(** ** Artifacts *)
(** C37: whatever an artifact contains, unpacking it creates files and
    directories only below its destination, each file once, never through
    another file's name, never with a permission for others, and copies no more
    bytes than the limit before it stops.  ([limited] is what io.LimitedReader
    documents of a copy that succeeds; one that fails ends the unpacking, and the
    bytes it wrote before are not counted.) *)
Theorem extractTarGz_confined artifact destination :
  clean_dir destination ->
  wp limited (extract_guard destination) (extractTarGz open_archive artifact destination) (fun _ _ => True) [].
Proof.
  intros Hd. unfold extractTarGz. destruct (open_archive artifact) as [a|e]; [|done]. rewrite bind_ok_lift.
  apply wp_bind_ok. eapply wp_mono; [apply (wp_extract_entries destination Hd)|].
  - split; [by intros path ?%not_elem_of_nil|done].
  - split; [done|]. unfold maxNodeArtifactBytes. simpl. lia.
  - by intros h' [u|e] _.
Qed.

(** ** The environment *)
(** C36: a replica reads its port and its release's version as the node chose
    them, whatever the release and its bindings say; then a binding before the
    release's own environment, and that before the node's. *)
Theorem releaseProcessEnvironment_reads base desired bindings port version key :
  env_names desired -> env_names bindings -> key <> EmptyString ->
  getenv (releaseProcessEnvironment base desired bindings port version) key =
    if key == "CANTER_RELEASE_VERSION" then Some version
    else if key == "PORT" then Some (Itoa port)
    else match bindings !! key with
         | Some value => Some value
         | None => match desired !! key with Some value => Some value | None => getenv base key end
         end.
Proof.
  intros Hd Hb Hk. unfold releaseProcessEnvironment. rewrite getenv_map by by apply environment_names.
  unfold environment_values. case_bool_decide as E1; [subst; by rewrite lookup_insert_eq|]. rewrite lookup_insert_ne by done.
  case_bool_decide as E2; [subst; by rewrite lookup_insert_eq|]. rewrite lookup_insert_ne by done.
  rewrite !lookup_union, <- (values_lookup base key) by done.
  by destruct (bindings !! key), (desired !! key), (fold_left add_entry base ∅ !! key).
Qed.

(** ** Migrations *)
(** The commands given a program on their standard input. *)
Definition with_input (e : event agent_answer) : bool :=
  match ev_call e with RunCommand _ _ _ input => input != EmptyString | _ => false end.
Definition transactions (h : atrace) : list (event agent_answer) := List.filter with_input h.

(** The digest recorded for a migration was read as [out]. *)
Definition recorded_digest (migrationID : string) (h : atrace) (out : string) : Prop :=
  exists c, Event (R := agent_answer)
    (RunCommand "psql" (query_args c (select_digest migrationID)) ["PGPASSWORD=" +:+ postgresCredentials.Password c] EmptyString)
    (Ok out) ∈ h.

Definition migration_guard (action : RuntimeAction) (h : atrace) (call : agent_call) : Prop :=
  let migrationID := parameter action "migrationId" in
  let sql := parameter action "sql" in
  match call with
  | RunCommand name args env input =>
      name = "psql" /\
      (input = EmptyString \/
       exists c out,
         input = migration_transaction migrationID (parameter action "digest") sql /\
         args = transaction_args c /\ env = ["PGPASSWORD=" +:+ postgresCredentials.Password c] /\
         migrationIdentifier migrationID = true /\
         hex_decode (parameter action "digest") = Some (Sha256.sum (string_bytes sql)) /\
         recorded_digest migrationID h out /\ TrimSpace out = EmptyString /\ transactions h = [])
  | _ => True
  end.

Definition no_command (call : agent_call) : Prop := match call with RunCommand _ _ _ _ => False | _ => True end.
Lemma credentials_no_command n root service : safe (fun _ c => no_command c) (credentials n root service).
Proof.
  induction n as [|n IH]; [apply safe_ret|]. cbn [credentials]. unfold read_credentials, create_credentials, write_temporary,
    sync_directory, closing, ask. safe_tac; done || by apply (safe_call (R := agent_answer)).
Qed.

Lemma no_command_transactions l : Forall (fun e => no_command (ev_call e)) l -> forall h, transactions (l ++ h) = transactions h.
Proof.
  induction 1 as [|e l He _ IH]; intros h; [done|]. cbn [app]. unfold transactions, with_input in *. cbn [List.filter].
  destruct (ev_call e); done || apply IH.
Qed.

(** An expand migration runs only psql, and runs its SQL at most once: in
    the transaction that records it, after its digest was checked against the
    SQL and nothing was found recorded under its id.  It succeeds only if that
    transaction was committed, or if the very digest was recorded already, in
    which case no SQL was run. *)
Theorem Postgres_Execute_once root service action :
  wp (fun _ _ _ => True) (migration_guard action) (Postgres_Execute fuel root service action)
    (fun h' r => forall res, r = Ok res ->
       if RuntimeActionResult.Duplicate res
       then transactions h' = [] /\ exists out, recorded_digest (parameter action "migrationId") h' out /\
              TrimSpace out = parameter action "digest"
       else exists e, transactions h' = [e] /\ exists args env out, e = Event (R := agent_answer)
              (RunCommand "psql" args env (migration_transaction (parameter action "migrationId")
                 (parameter action "digest") (parameter action "sql"))) (Ok out)) [].
Proof.
  unfold Postgres_Execute. cbv zeta. destruct (check_migration action) as [[]|e] eqn:Ec; [|done]. rewrite bind_ok_lift.
  assert (migrationIdentifier (parameter action "migrationId") = true /\
          hex_decode (parameter action "digest") = Some (Sha256.sum (string_bytes (parameter action "sql")))) as [Hid Hsum].
  { unfold check_migration in Ec. cbv zeta in Ec. apply result_bind_ok in Ec as ([] & _ & Ec).
    apply result_bind_ok in Ec as ([] & _ & Ec). apply result_bind_ok in Ec as ([] & Hr & Ec). apply reject_if_ok in Hr.
    destruct (hex_decode _) as [decoded|]; [|done]. apply reject_if_ok in Ec. bool_inv. by subst. }
  apply wp_bind_ok. eapply wp_mono; [eapply wp_guard; [|apply wp_only, credentials_no_command]; by intros h []|].
  intros h1 [c|e] (l & -> & Hl); [|done]. pose proof (no_command_transactions l Hl []) as Ht. rewrite app_nil_r in *.
  apply wp_bind. unfold ask. wp_ask. apply wp_bind_ok. unfold psql, ask. wp_ask; [split; [done|by left]|].
  destruct a0 as [out0|e]; [|done]. apply wp_bind_ok. wp_ask; [split; [done|by left]|].
  destruct a0 as [out|e]; [|done]. destruct (TrimSpace out != EmptyString) eqn:Eo.
  - destruct (TrimSpace out != parameter action "digest") eqn:Ed; [done|]. bool_inv. apply wp_bind. unfold agent_now. wp_ask. apply wp_ret.
    intros res [= <-]. cbn [RuntimeActionResult.Duplicate action_result]. split; [done|]. exists out. split; [|done].
    exists c. set_solver.
  - bool_inv. apply wp_bind_ok. wp_ask.
    + split; [done|]. right. exists c, out. split_and!; try done. exists c. set_solver.
    + destruct a0 as [out1|e]; [|done]. apply wp_bind. unfold agent_now. wp_ask. apply wp_ret. intros res [= <-].
      cbn [RuntimeActionResult.Duplicate action_result]. eexists. split; [|by eexists _, _, _]. 
      unfold transactions in *. cbn [List.filter with_input ev_call]. rewrite Ht. done.
Qed.

(** ** The proxy *)
Definition fresh_routing : routing := Routing [] 0 ∅.

(** A table that was never given more targets than memory can hold. *)
Inductive routing_step : routing * list string -> routing * list string -> Prop :=
  | routing_step_of st st' :
      route_step st st' -> Z.of_nat (length (rt_targets st'.1)) <= 2 ^ 63 -> routing_step st st'.

(** However requests are taken and finished and the targets replaced, the
    proxy's count for a target is the number of requests it is serving: a
    target is drained exactly when its count is zero. *)
Theorem inflight_counts st target :
  rtc routing_step (fresh_routing, []) st -> Z.of_nat (length st.2) <= max_int ->
  count_of st.1 target = serving target st.2 /\ (count_of st.1 target = 0 <-> target ∉ st.2).
Proof.
  intros Hst Hlen. assert (routing_ok st) as [Hc _ _].
  { remember (fresh_routing, []) as st0 eqn:E0. assert (routing_ok st0) as H0 by (rewrite E0; by split).
    clear E0 Hlen. induction Hst as [|st1 st2 st3 [? ? Hs Hl] _ IH]; [done|]. apply IH. eapply routing_ok_step; [|done..].
    intros r out targets -> ->. exact Hl. }
  pose proof (serving_bounds target st.2) as Hb. rewrite Hc, i64_id by (unfold int_range, min_int, max_int in *; lia).
  split; [done|]. apply serving_zero.
Qed.

(** C39: as many requests in a row as there are targets reach each target
    exactly once (in the first 2^64 requests of a table). *)
Theorem acquireTarget_round_robin r :
  rt_targets r <> [] -> 0 <= rt_nextTarget r ->
  rt_nextTarget r + Z.of_nat (length (rt_targets r)) <= 2 ^ 64 ->
  acquire_many (length (rt_targets r)) r ≡ₚ rt_targets r.
Proof.
  intros Hne H0 Hn. destruct (rt_targets r) as [|first rest] eqn:E; [done|]. rewrite <- E in *.
  apply (rotation _ _ (rt_nextTarget r)); [done| |done|].
  - by eapply length_acquire_many.
  - by eapply acquire_many_rotation.
Qed.
End Theorems.

(** ** Witnesses *)
Definition demo_process : process := process.mk 4242 "0123456789ab" "identity" 18080.
Definition demo_node (active : list process) : node :=
  node.mk "shop" 443 active EmptyString 0 EmptyString "host" EmptyString 0 ∅ [] (RuntimePlan.mk EmptyString EmptyString [])
    0 false "/var/lib/canter/releases".
Definition demo_release : ReleaseManifest :=
  ReleaseManifest.mk "v1" "shop" "0123456789ab" EmptyString EmptyString ["./web"] ∅ "/healthz" 443 2 None 0.
Definition no_archive (_ : string) : result archive := Err (External "gzip: invalid header").

Lemma reconcileReleaseFleet_result_witness :
  fleet_ok ["http://127.0.0.1:18080"] [] (demo_node [demo_process]) /\ 1 <= ReleaseManifest.Replicas demo_release /\
  wp (fun _ _ _ => True) (fun _ _ => True) (reconcileReleaseFleet no_archive 200 demo_release (demo_node [demo_process]))
    (fun h' r => fleet_result demo_release ["http://127.0.0.1:18080"] [] h' (demo_node [demo_process]) r.1 r.2) [].
Proof.
  assert (fleet_ok ["http://127.0.0.1:18080"] [] (demo_node [demo_process])) as Hf.
  { split; [vm_compute; reflexivity|apply NoDup_singleton]. }
  assert (1 <= ReleaseManifest.Replicas demo_release) as Hr by (simpl; lia).
  split_and!; [done|done|]. by apply (reconcileReleaseFleet_result no_archive 200).
Defined.

Lemma run_node_no_outage_witness :
  node.active (demo_node []) = [] /\
  wp (fun _ _ _ => True) turn_guard (run_node no_archive (main_registry 200) 200 5 (demo_node []))
    (fun h' r => fleet_ok [] h' r.2) [].
Proof. split; [reflexivity|]. exact (run_node_no_outage no_archive 200 5 (demo_node []) eq_refl). Defined.

Lemma waitHealthy_terminates_witness :
  (120 < 121)%nat /\
  wp (ticks_at_most 120) (fun _ _ => True) (waitHealthy 121 18080 "/healthz" demo_process)
    (fun h' r => match r with
       | Ok _ => exists code, 200 <= code < 300 /\
           head h' = Some (Event (R := agent_answer) (HealthGet ("http://127.0.0.1:" +:+ Itoa 18080 +:+ "/healthz")) (Some code))
       | Err e => exists wake, head h' = Some (Event (R := agent_answer) (HealthSelect demo_process) wake) /\ wake <> ATick
       end) [].
Proof. split; [lia|]. apply (waitHealthy_terminates 121 120 18080 "/healthz" demo_process). lia. Defined.

Lemma extractTarGz_confined_witness :
  clean_dir "/var/lib/canter/releases/.artifact-1" /\
  wp limited (extract_guard "/var/lib/canter/releases/.artifact-1")
    (extractTarGz no_archive "bytes" "/var/lib/canter/releases/.artifact-1") (fun _ _ => True) [].
Proof.
  assert (clean_dir "/var/lib/canter/releases/.artifact-1") as Hd by (split_and!; [vm_compute; reflexivity|reflexivity|discriminate]).
  split; [exact Hd|]. by apply (extractTarGz_confined no_archive "bytes").
Defined.

Lemma releaseProcessEnvironment_reads_witness :
  env_names {["PORT" := "1"]} /\ env_names {["DATABASE_URL" := "postgres://"]} /\
  getenv (releaseProcessEnvironment ["HOME=/root"; "PATH=/bin"] {["PORT" := "1"]} {["DATABASE_URL" := "postgres://"]} 18080 "v") "PORT"
  = Some (Itoa 18080).
Proof.
  assert (env_names {["PORT" := "1"]}) as H1 by (apply map_Forall_singleton; reflexivity).
  assert (env_names {["DATABASE_URL" := "postgres://"]}) as H2 by (apply map_Forall_singleton; reflexivity).
  split_and!; [done|done|].
  rewrite (releaseProcessEnvironment_reads ["HOME=/root"; "PATH=/bin"] _ _ 18080 "v" "PORT"); [reflexivity|done|done|discriminate].
Defined.

(** A name with an equals sign, which the node itself does not refuse, takes
    the port away from the replica. *)
Example hidden_port :
  getenv (releaseProcessEnvironment [] {["PORT=0" := "x"]} ∅ 18080 "v") "PORT" = Some "0=x".
Proof. vm_compute. reflexivity. Qed.

Definition demo_routing : routing * list string := (Routing ["a"; "b"] 1 {["a" := 1]}, ["a"]).

Lemma inflight_counts_witness :
  rtc routing_step (fresh_routing, []) demo_routing /\
  (count_of demo_routing.1 "a" = serving "a" demo_routing.2 /\ (count_of demo_routing.1 "a" = 0 <-> "a" ∉ demo_routing.2)).
Proof.
  assert (rtc routing_step (fresh_routing, []) demo_routing) as Hst.
  { eapply rtc_l; [apply routing_step_of; [apply (step_set fresh_routing [] ["a"; "b"])|simpl; lia]|].
    eapply rtc_l; [apply routing_step_of; [by apply (step_acquire _ [] "a")|simpl; lia]|]. apply rtc_refl. }
  split; [exact Hst|]. apply (inflight_counts demo_routing "a" Hst). unfold max_int. simpl. lia.
Defined.

Lemma acquireTarget_round_robin_witness :
  acquire_many 2 (Routing ["a"; "b"] 1 ∅) = ["b"; "a"] /\ acquire_many 2 (Routing ["a"; "b"] 1 ∅) ≡ₚ ["a"; "b"].
Proof.
  split; [reflexivity|]. apply (acquireTarget_round_robin (Routing ["a"; "b"] 1 ∅)); simpl; [discriminate|lia|lia].
Defined.
