(* ===== verification/ControlTheorems.v ===== *)
(** * Theorems on the control plane: its ledgers, its service, its uploads and its dispatchers *)

From S2P Require Import Prelude Effects GoStrings Digest Documents Calls SandboxSpec ControlDocuments Tables LeaseQueue.
From S2P Require Import Ledger Deployments DeploymentSteps Policies PolicySafety RateLimit AgentCalls NodeArtifacts.
From S2P Require Import Uploads Views ControlCalls Service ServiceSafety Dispatch DispatchSafety Example.
#[local] Open Scope Z_scope.

Section Theorems.
Context `{Unicode}.

(** ** Both ledgers are leased queues *)
(** C11: whatever sequence of transactions runs, interleaved in any order and
    read at any clock, the executions of Changes and those of initial
    deployments are a leased queue: what was answered is a history of the
    abstract contract, and the rows are its jobs. *)
Theorem ledgers_refine_queue ops dops h l h' db :
  Forall op_ok dops -> ledger_run ops = (h, l) -> deployment_run dops = (h', db) ->
  queue_run h (queue_of l) /\ queue_run h' (queue_of (executions db)).
Proof.
  intros Hops Hl Hd. split; [by eapply ledger_run_refines|]. by destruct (deployment_run_refines _ _ _ Hops Hd).
Qed.

(** A history of one of the two ledgers. *)
Inductive execution_history : list queue_event -> Prop :=
  | change_history ops h l : ledger_run ops = (h, l) -> execution_history h
  | deployment_history ops h db : Forall op_ok ops -> deployment_run ops = (h, db) -> execution_history h.

Lemma history_run h : execution_history h -> exists q, queue_run h q.
Proof.
  intros [ops h0 l Hl|ops h0 db Hops Hd]; [exists (queue_of l)|exists (queue_at db)]; [by eapply ledger_run_refines|].
  by destruct (deployment_run_refines _ _ _ Hops Hd).
Qed.

(** In every history of either ledger, an execution is completed at most
    once, by the worker and with the token of the last claim, before the lease
    last granted runs out; nothing happens to it afterwards; and it is claimed
    while another claim stands only once that claim's lease ran out. *)
Theorem execution_fenced h :
  execution_history h ->
  (forall newer older id worker token now, h = newer ++ Completed id worker token now :: older ->
     (exists expires, holder id older = Some (worker, token, expires) /\ now < expires) /\
     Forall (fun e => subject e <> Some id) newer /\ Forall (fun e => ~ completes id e) older) /\
  (forall newer older id worker token now expires holder_worker holder_token until,
     h = newer ++ Claimed id worker token now expires :: older ->
     holder id older = Some (holder_worker, holder_token, until) -> until <= now).
Proof.
  intros [q Hq]%history_run. split.
  - intros newer older id worker token now ->. by eapply completed_once.
  - intros newer older id worker token now expires w t x -> Hh. by eapply claimed_after.
Qed.

(** ** Initial deployments *)
Definition authorized_plan (d : InitialDeployment) : Prop :=
  exists a, InitialDeployment.Authorization_ d = Some a /\
    Authorization.Digest a = digestInitialDeployment (InitialDeployment.Plan d).

(** C12: in every state the transactions reach, a deployment that left its draft
    is authorized under the digest of exactly the plan it holds, it has at most
    one active execution, and no workspace has reserved and spent more than its
    cap. *)
Theorem initial_deployment_invariant ops h db :
  Forall op_ok ops -> deployment_run ops = (h, db) ->
  (forall row, row ∈ deployments db -> deployment_row.Phase row <> "drafted" -> authorized_plan (deployment_row.Document row)) /\
  (forall e1 e2, e1 ∈ executions db -> e2 ∈ executions db -> IE.DeploymentID e1 = IE.DeploymentID e2 ->
     IE.Phase e1 ∈ ["queued"; "running"] -> IE.Phase e2 ∈ ["queued"; "running"] -> e1 = e2) /\
  (forall ws cap, caps db !! ws = Some cap ->
     usage_cap.ReservedCents cap + usage_cap.SpentCents cap <= usage_cap.LimitCents cap).
Proof.
  intros Hops Hrun. pose proof (deployment_run_ok ops Hops) as Hok. rewrite Hrun in Hok. cbn [snd] in Hok. split_and!.
  - intros row Hrow Hph. assert (row_ok row) as Hr by (eapply Forall_forall; [apply (dp_rows _ Hok)|done]).
    destruct (rw_authorized _ Hr Hph) as (a & Ha & Hd & Hp). exists a. split; [done|congruence].
  - assert (forall e, IE.Phase e ∈ ["queued"; "running"] -> active_execution (IE.DeploymentID e) e = true) as Hact.
    { intros e He. unfold active_execution. rewrite bool_decide_true by done. repeat setoid_rewrite elem_of_cons in He.
      destruct He as [->|[->|He%not_elem_of_nil]]; done. }
    intros e1 e2 He1 He2 Hd Hp1 Hp2. apply (dp_active _ Hok); auto.
  - intros ws cap Hcap. by apply (dp_caps _ Hok ws).
Qed.

(** C25: in every reachable state, an operation of a deployment is begun only by
    the worker that holds the running execution of that deployment, with its
    token and within its lease; the deployment is authorized for its plan, and
    the operation has not succeeded before. *)
Theorem operation_begun_by_holder ops h db id worker token dep op now db' :
  Forall op_ok ops -> deployment_run ops = (h, db) ->
  BeginInitialDeploymentOperation id worker token dep op now db = (Ok true, db') ->
  (exists expires, holder id h = Some (worker, token, expires) /\ now < expires) /\
  exists e row o, e ∈ executions db /\ IE.ID e = id /\ IE.DeploymentID e = dep /\ IE.Phase e = "running" /\
    row ∈ deployments db /\ deployment_row.ID row = dep /\ authorized_plan (deployment_row.Document row) /\
    find_operation op (deployment_row.Document row) = Some o /\ InitialDeploymentOperation.Phase o <> "succeeded".
Proof.
  intros Hops Hrun. destruct (deployment_run_refines _ _ _ Hops Hrun) as [Hq Hok]. unfold BeginInitialDeploymentOperation.
  destruct (lockActiveInitialExecution _ _ _ _ _ _) as [[]|e] eqn:Hl; [|done].
  destruct (find_deployment dep db) as [row|] eqn:Hd; [|done]. cbv zeta. destruct (find_operation op _) as [o|] eqn:Ho; [|done].
  destruct (_ == "succeeded") eqn:Hs; [done|]. intros _. apply bool_decide_eq_false in Hs.
  destruct (lock_started _ _ _ _ _ _ _ Hok Hl Hd) as [Hrow Hph]. apply find_deployment_in in Hd as [_ Hid].
  apply reject_if_ok, negb_false_iff, existsb_exists in Hl as (e & He & Hh). apply list_elem_of_In in He.
  apply andb_true_iff in Hh as [Hh Hdep]. apply bool_decide_eq_true in Hdep.
  destruct (held_inv _ _ _ _ _ Hh) as (Heid & x & Hx & Hnow & Hj). split.
  - exists x. split; [|done]. pose proof (run_described _ _ Hq id) as Hdesc.
    assert (queue_at db !! id = Some (Running worker token x)) as Hlk.
    { apply queue_of_lookup; [apply (dp_executions _ Hok)|]. by exists e. }
    rewrite Hlk in Hdesc. by destruct Hdesc.
  - assert (row_ok row) as Hr by (eapply Forall_forall; [apply (dp_rows _ Hok)|done]).
    destruct (rw_authorized _ Hr Hph) as (a & Ha & Hda & Hp). unfold held in Hh. cbn in Hh. bool_inv.
    exists e, row, o. split_and!; try done. exists a. split; [done|congruence].
Qed.

(** ** Standing policies *)
(** C22: in every state that creating, revoking and evaluating policies and
    advancing decisions reach: an automatic decision is about the very Change
    presented, by id and digest, and names by its digest a policy of that System
    with a bounded envelope, which either decided an execution that is already
    queued, or is in force now for these revisions and contains the Change; and
    a person is asked only if no policy in force contains it. *)
Theorem EvaluateStandingPolicies_sound ops refused id ws sys installation wr sr change retry_now now d policy db' :
  EvaluateStandingPolicies refused id ws sys installation wr sr change retry_now now (policy_run ops) = (Ok (d, policy), db') ->
  match policy with
  | Some p =>
      p ∈ policies (policy_run ops) /\ policy_ok p /\ decision_for ws sys change p d /\
      (PD.ExecutionID d <> EmptyString /\ d ∈ decisions (policy_run ops) \/
       granted ws sys installation wr sr [retry_now; now] change p)
  | None =>
      PD.Outcome d = "human-approval-required" /\
      forall p, p ∈ policies (policy_run ops) -> in_force ws sys wr sr now p = true ->
        ~ within (StandingPolicy.Envelope p) installation change
  end.
Proof.
  pose proof (policy_run_ok ops) as Hok. set (db := policy_run ops) in *. unfold EvaluateStandingPolicies.
  destruct (cached_decision _ _ _ _ _ _ _ _) as [r|] eqn:Hc.
  - intros [= -> <-]. destruct (cached_sound _ _ _ _ _ _ _ _ _ _ Hok Hc) as (p & -> & Hp & Hd & Hdo & Hx).
    assert (policy_ok p) by (eapply Forall_forall; [apply (ps_policies _ Hok)|done]). split_and!; try done.
    destruct Hx as [Hx|(t & Ht & Hg)]; [by left|]. right. exists t. split; [|done]. apply elem_of_cons. left.
    by apply list_elem_of_singleton in Ht.
  - intros Hf. pose proof (fresh_sound _ _ _ _ _ _ _ _ _ _ _ _ _ Hf) as Hs. destruct policy as [p|]; [|done].
    destruct Hs as (Hp & Hd & t & Ht & Hg). assert (policy_ok p) by (eapply Forall_forall; [apply (ps_policies _ Hok)|done]).
    split_and!; try done. right. exists t. split; [|done]. apply elem_of_cons. by right.
Qed.

(** ** Rate limits *)
(** Whatever requests arrive, at a clock that does not go back: a client
    address gets at most twice its bucket's budget in any interval as long as the
    bucket's window; the table never holds more than 10,000 windows; and a
    request is refused only if the whole budget was spent within the last window,
    or if the table is full. *)
Theorem rate_limited reqs log l method path ip limit :
  in_order reqs -> limiter_run reqs = (log, l) -> limitForRequest method path = Some limit ->
  let key := request_key limit ip in
  (forall t, admitted key t (t + RL.window limit) log <= 2 * RL.max limit) /\
  Z.of_nat (size (windows l)) <= maxRequestWindows /\
  (forall now retry l', Forall (fun r => rq_time r <= now) reqs -> allow key limit now l = (false, retry, l') ->
     RL.max limit <= admitted key (now - RL.window limit + 1) (now + 1) log \/
     maxRequestWindows <= Z.of_nat (size (windows l'))).
Proof.
  intros Ho Hrun Hlim%limit_listed key. destruct (limit_positive _ Hlim) as [Hmax Hwin].
  assert (forall clock, Forall (fun r => rq_time r <= clock) reqs -> exists s, key_ok key limit log (windows l !! key) clock s) as Hk
    by by apply limiter_run_key. split_and!.
  - intros t. assert (exists clock, Forall (fun r => rq_time r <= clock) reqs) as [clock Hc].
    { destruct reqs as [|r reqs]; [by exists 0|]. exists (rq_time r). apply StronglySorted_inv in Ho as [_ Ho]. by constructor. }
    destruct (Hk clock Hc) as [s Hs]. apply (kt_any _ _ _ _ _ _ Hs).
  - by eapply limiter_run_size.
  - intros now retry l' Hnow Ha. destruct (Hk now Hnow) as [s Hs]. destruct (refused_spent _ _ _ _ _ _ _ _ Hs Ha); auto.
Qed.
End Theorems.

(** ** Witnesses *)
Definition human : ActorRef := ActorRef.mk "human" "acc_1" EmptyString EmptyString.
(** The plan is only hashed here. *)
Definition small_system : System.System :=
  System.mk APIVersion "System" (Metadata.mk "demo")
    (SystemContract.mk EmptyString (Constraints.mk (HostConstraint.mk "c1" 1 2048 512)) [] (M1Spec.mk EmptyString)).
Definition demo_deployment_plan : InitialDeploymentPlan.InitialDeploymentPlan :=
  InitialDeploymentPlan.mk small_system "artifact" (InitialDeploymentRelease.mk ["./serve"] ∅ "/healthz" 8080)
    (ChangeVerification.mk "GET" "/" 200 EmptyString) 1 EmptyString.
Definition demo_digest : string := digestInitialDeployment demo_deployment_plan.
Definition demo_deployment : InitialDeployment.InitialDeployment :=
  InitialDeployment.mk "v1" "dep_1" "wrk_1" "demo" "first deployment" "drafted" demo_digest
    human None demo_deployment_plan
    [InitialDeploymentOperation.mk "01-register-system" "system.register" "register" "pending" None None EmptyString]
    [] EmptyString 5 5 None.

(** Newest first: drafted, authorized, queued, claimed by a worker. *)
Definition demo_deployment_ops : list deployment_op :=
  [OpClaim "worker-1" 30 "fence_1" [] 20;
   OpEnqueue (Ok tt) "idx_1" "usrv_1" "wrk_1" "dep_1" human 10;
   OpAuthorize "wrk_1" "dep_1" demo_digest human 7;
   OpCreate demo_deployment;
   OpCap "wrk_1" (usage_cap.mk 500 0 0);
   OpWorkspace "wrk_1" 1].
Definition demo_deployment_run : list queue_event * deployment_db := deployment_run demo_deployment_ops.

(** A change execution whose first worker loses its lease to a second one. *)
Definition demo_ledger_ops : list ledger_op :=
  [LComplete "exe_1" "worker-2" "fence_2" None 45;
   LComplete "exe_1" "worker-1" "fence_1" None 45;
   LClaim "worker-2" 30 "fence_2" [] 40;
   LRenew "exe_1" "worker-1" "fence_1" 20 20;
   LClaim "worker-1" 20 "fence_1" [] 10;
   LEnqueue "exe_1" "wrk_1" "demo" "chg_1" human 5].

Lemma demo_ops_ok : Forall op_ok demo_deployment_ops.
Proof. repeat constructor; cbn; lia. Qed.

Lemma run_eq {A B} (x : A * B) : x = (x.1, x.2).
Proof. by destruct x. Qed.

(** What a computation answers, without its result as a term. *)
Definition begins {A} (x : result bool * A) : bool := match x.1 with Ok b => b | Err _ => false end.
Lemma begins_inv {A} (x : result bool * A) : begins x = true -> x = (Ok true, x.2).
Proof. destruct x as [[[]|] b]; cbn; congruence. Qed.

Lemma demo_begins : begins (BeginInitialDeploymentOperation "idx_1" "worker-1" "fence_1" "dep_1" "01-register-system" 30 demo_deployment_run.2) = true.
Proof. vm_compute. reflexivity. Qed.

Lemma demo_run_eq : deployment_run demo_deployment_ops = (demo_deployment_run.1, demo_deployment_run.2).
Proof. exact (run_eq (deployment_run demo_deployment_ops)). Qed.
#[local] Opaque demo_deployment_run.

Lemma ledgers_refine_queue_witness :
  Forall op_ok demo_deployment_ops /\ queue_run (ledger_run demo_ledger_ops).1 (queue_of (ledger_run demo_ledger_ops).2) /\
  queue_run demo_deployment_run.1 (queue_of (executions demo_deployment_run.2)).
Proof.
  split; [exact demo_ops_ok|].
  exact (ledgers_refine_queue _ _ _ _ _ _ demo_ops_ok (run_eq (ledger_run demo_ledger_ops)) demo_run_eq).
Defined.

Lemma execution_fenced_witness :
  execution_history (ledger_run demo_ledger_ops).1 /\
  exists expires, holder "exe_1" [Refused; Claimed "exe_1" "worker-2" "fence_2" 40 70;
      Renewed "exe_1" "worker-1" "fence_1" 20 40; Claimed "exe_1" "worker-1" "fence_1" 10 30; Enqueued "exe_1"]
    = Some ("worker-2", "fence_2", expires) /\ 45 < expires.
Proof.
  assert (execution_history (ledger_run demo_ledger_ops).1) as Hh by (eapply change_history, run_eq).
  split; [exact Hh|]. destruct (execution_fenced _ Hh) as [Hc _].
  exact (proj1 (Hc [] _ "exe_1" "worker-2" "fence_2" 45 eq_refl)).
Defined.

Lemma initial_deployment_invariant_witness :
  Forall op_ok demo_deployment_ops /\
  (forall row, row ∈ deployments demo_deployment_run.2 -> deployment_row.Phase row <> "drafted" ->
     authorized_plan (deployment_row.Document row)).
Proof.
  split; [exact demo_ops_ok|]. exact (proj1 (initial_deployment_invariant _ _ _ demo_ops_ok demo_run_eq)).
Defined.

Lemma operation_begun_by_holder_witness :
  Forall op_ok demo_deployment_ops /\
  exists expires, holder "idx_1" demo_deployment_run.1 = Some ("worker-1", "fence_1", expires) /\ 30 < expires.
Proof.
  split; [exact demo_ops_ok|].
  exact (proj1 (operation_begun_by_holder _ _ _ _ _ _ _ _ _ _ demo_ops_ok demo_run_eq (begins_inv _ demo_begins))).
Defined.

(** A policy that lets one installation deploy releases, and a Change it covers. *)
Definition demo_envelope : SE.StandingPolicyEnvelope :=
  SE.mk ["inst_1"] ["web"] ["release.publish"] ["rolling"] ["none"] ["reversible"] 0 4 ∅ 0 false.
Definition demo_policies : list policy_op :=
  [PCreate (Context (Some (3, 7, demo_system)) ["inst_1"; "inst_2"]) "pol_1" "wrk_1" "demo" "acc_1"
     (CreateStandingPolicyInput.mk "deploy" EmptyString demo_envelope (60 * Minute)) 0].
Definition demo_change : Change.Change :=
  Change.mk "v1" "chg_1" "demo" "ship" "drafted" "digest" None
    (ChangePlan.mk (ChangeBaseRevision.mk "wrk_1" 3 7) "v1"
       (ReleaseManifest.mk "v1" "demo" "v2" EmptyString EmptyString ["./web"] ∅ "/healthz" 8080 2 None 0)
       None None (ChangeVerification.mk "GET" "/" 200 EmptyString) (ChangeImpact.mk ["web"] "rolling" "none" 0))
    None [ChangeOperation.mk "01" "release.publish" EmptyString "reversible" EmptyString "pending" 0 None None EmptyString]
    [] [] EmptyString 1 1 None.

Definition demo_evaluation : result (PD.PolicyDecision * option StandingPolicy.StandingPolicy) * policy_db :=
  EvaluateStandingPolicies None "pdc_1" "wrk_1" "demo" "inst_1" 3 7 demo_change 10 10 (policy_run demo_policies).

(** Its outcome and the policy it names. *)
Definition automatic (r : result (PD.PolicyDecision * option StandingPolicy.StandingPolicy)) : option (string * string) :=
  match r with Ok (d, Some p) => Some (PD.Outcome d, StandingPolicy.ID p) | _ => None end.
Lemma automatic_inv r o i : automatic r = Some (o, i) -> exists d p, r = Ok (d, Some p) /\ StandingPolicy.ID p = i.
Proof. destruct r as [[d [p|]]|e]; cbn; [|done..]. intros [= _ <-]. eauto. Qed.
Lemma demo_automatic : automatic demo_evaluation.1 = Some ("automatic", "pol_1").
Proof. vm_compute. reflexivity. Qed.

Lemma EvaluateStandingPolicies_sound_witness :
  exists d p, demo_evaluation.1 = Ok (d, Some p) /\ StandingPolicy.ID p = "pol_1" /\ decision_for "wrk_1" "demo" demo_change p d.
Proof.
  destruct (automatic_inv _ _ _ demo_automatic) as (d & p & Hr & Hid). exists d, p. split; [exact Hr|]. split; [exact Hid|].
  assert (demo_evaluation = (Ok (d, Some p), demo_evaluation.2)) as He by (rewrite <- Hr; exact (run_eq demo_evaluation)).
  exact (proj1 (proj2 (proj2 (EvaluateStandingPolicies_sound _ _ _ _ _ _ _ _ _ _ _ _ _ _ He)))).
Defined.

(** The thirty-first call of one client within a minute is refused. *)
Definition demo_requests : list request := (fun i => Request "POST" "/v1/acquisition" "192.0.2.1" (1000 - Z.of_nat i)) <$> seq 0 31.
Definition demo_limiter : list (string * Z) * requestLimiter := limiter_run demo_requests.

Lemma demo_in_order : in_order demo_requests.
Proof. unfold in_order, demo_requests. cbn. repeat constructor; cbn; lia. Qed.

Lemma rate_limited_witness :
  in_order demo_requests /\ limitForRequest "POST" "/v1/acquisition" = Some (RL.mk "acquisition" 30 Minute) /\
  admitted "acquisition|192.0.2.1" 0 (0 + Minute) demo_limiter.1 <= 2 * 30 /\ length demo_limiter.1 = 30%nat.
Proof.
  split; [exact demo_in_order|]. split; [reflexivity|]. split; [|vm_compute; reflexivity].
  exact (proj1 (rate_limited demo_requests _ _ "POST" "/v1/acquisition" "192.0.2.1" _ demo_in_order (run_eq demo_limiter) eq_refl) 0).
Defined.

Section Theorems.
Context `{Unicode}.

(** ** From the upload to the node *)
(** C38: an application the control plane accepts can be unpacked by every node:
    when both read the same bytes in the same way, a node fails to unpack an
    accepted artifact only with the error of a call to its file system, whatever
    the destination, and otherwise has created exactly the files that the control
    plane listed, in that order, at their paths below the destination, with
    their modes cut to 0750. *)
Theorem accepted_artifact_unpacks open_archive read_member data destination entries h :
  validateApplicationArtifact open_archive read_member data = Ok entries ->
  wp (fun _ _ _ => True) (fun _ _ => True) (extractTarGz open_archive data destination)
    (fun h' r => exists l, h' = l ++ h /\
       match r with Ok _ => created l = node_file destination <$> entries | Err e => fs_failed h' e end) h.
Proof. apply wp_extract_validated. Qed.

(** ** Changes under a standing policy *)
(** C21: in every environment, applying a Change on behalf of an automation only
    reads and notes, until policies were evaluated for this very Change, under
    the digest presented, for the caller's installation and at the revisions just
    read, with an automatic decision that has no execution yet; it authorizes the
    Change only as that policy's actor, under that digest and only if the Change
    is not stale; and it queues the Change only once the policy has authorized it,
    now or before. *)
Theorem ApplyChangeUnderPolicy_guarded ws sys id digest principal h :
  wp (fun _ _ _ => True) (policy_guard ws sys id digest principal)
    (ApplyChangeUnderPolicy true ws sys id digest principal) (fun _ _ => True) h.
Proof. apply wp_apply_under_policy. Qed.

(** ** The dispatchers *)
(** In every environment, a dispatched execution applies its Change at most
    once, as the worker, only if the Change as inspected is not stale at the
    System's and workspace's revisions just read, and only if the workspace has
    paid when the Change costs more; and it ends by completing the execution it
    claimed, once, with its token, and without an error only if the Change was
    applied without one. *)
Theorem Dispatcher_runOne_guarded worker execution :
  wp (fun _ _ _ => True) (dispatch_guard worker execution) (Dispatcher_runOne worker execution)
    (fun h _ => exists err r rest, h = Event (R := control_answer)
       (Complete (Execution.ID execution) worker (Execution.ClaimToken execution) err) r :: rest) [].
Proof. apply wp_runOne. constructor. Qed.

End Theorems.

(** ** Witnesses *)
(** An archive with a directory and a program in it. *)
Definition demo_header (name : string) (typeflag size mode : Z) : tar_header.tar_header :=
  tar_header.mk name typeflag size mode EmptyString EmptyString EmptyString ∅ ∅.
Definition demo_archive (_ : string) : result archive :=
  Ok (Archive [demo_header "bin/" TypeDir 0 493; demo_header "bin/serve" TypeReg 1024 493] None (Ok tt) false 0).
Definition demo_entries : list DeploymentArtifactEntry.DeploymentArtifactEntry := [DeploymentArtifactEntry.mk "bin/serve" 493 1024].

Lemma accepted_artifact_unpacks_witness :
  validateApplicationArtifact demo_archive (fun _ _ => Ok tt) "bytes" = Ok demo_entries /\
  wp (fun _ _ _ => True) (fun _ _ => True) (extractTarGz demo_archive "bytes" "/var/lib/canter/releases/.artifact-1")
    (fun h' r => exists l, h' = l ++ [] /\
       match r with
       | Ok _ => created l = node_file "/var/lib/canter/releases/.artifact-1" <$> demo_entries
       | Err e => fs_failed h' e
       end) [].
Proof.
  assert (validateApplicationArtifact demo_archive (fun _ _ => Ok tt) "bytes" = Ok demo_entries) as Hv by (vm_compute; reflexivity).
  split; [exact Hv|]. exact (accepted_artifact_unpacks _ _ _ _ _ _ Hv).
Defined.
