(* ===== verification/AgentTheorems.v ===== *)
(** * Theorems on nodes and agents, their tokens and the links agents ask for *)

From S2P Require Import Prelude Tables GoStrings Digest Documents ControlDocuments Rows Calls Enrollment EnrollmentSafety Agents.
From S2P Require Import AgentHistory AgentSafety AgentTokens Example.
#[local] Open Scope Z_scope.

(** ** Nodes *)
(** C27: whatever enrollments, exchanges, resolutions and revocations ran, in any
    order and at any clock: at most one token acts for a System of a workspace;
    an enrollment is exchanged at most once; an exchange ends, for good, every
    token its node had; and once a node is revoked no token ever acts for it. *)
Theorem node_tokens_exclusive ops more :
  let db := node_run ops no_nodes in
  (forall t1 t2 now1 now2 n1 n2, (ResolveNode t1 now1 db).1 = Ok n1 -> (ResolveNode t2 now2 db).1 = Ok n2 ->
     NI.WorkspaceID n1 = NI.WorkspaceID n2 -> NI.System n1 = NI.System n2 ->
     NI.ID n1 = NI.ID n2 /\ secretHash t1 = secretHash t2) /\
  (forall credentialID nodeToken enrollmentID token now cred db',
     ExchangeNodeEnrollment credentialID nodeToken enrollmentID token now db = (Ok cred, db') ->
     (forall credentialID2 nodeToken2 token2 now2,
        (ExchangeNodeEnrollment credentialID2 nodeToken2 enrollmentID token2 now2 (node_run more db')).1 = Err ErrUnauthorized) /\
     (forall t now1 now2 n, (ResolveNode t now1 db).1 = Ok n -> NI.ID n = NI.ID (NodeCredential.Node cred) ->
        (ResolveNode t now2 (node_run more db')).1 = Err ErrUnauthorized)) /\
  (forall workspaceID nodeID now db', RevokeNodeInstallation workspaceID nodeID now db = (Ok tt, db') ->
     forall t now2 n, (ResolveNode t now2 (node_run more db')).1 = Ok n -> NI.ID n <> nodeID).
Proof.
  intros db. assert (nodes_ok db) as Hok by apply node_run_ok, no_nodes_ok. split_and!.
  - intros t1 t2 now1 now2 n1 n2 (c1 & m1 & Hc1 & Hh1 & Hr1 & _ & Hm1 & Hid1 & Hl1 & ->)%resolved
      (c2 & m2 & Hc2 & Hh2 & Hr2 & _ & Hm2 & Hid2 & Hl2 & ->)%resolved Hw Hs. cbn in Hw, Hs |- *.
    assert (m1 = m2) as -> by by apply Hok. split; [done|].
    rewrite <- Hh1, <- Hh2. f_equal. apply Hok; [done..|congruence].
  - intros credentialID nodeToken enrollmentID token now cred db' Hex. destruct (exchanged _ _ _ _ _ _ _ _ Hok Hex) as [Hused Hdead].
    destruct (exchange_ok credentialID nodeToken enrollmentID token now db Hok) as [Hok' _]. rewrite Hex in Hok'.
    destruct (node_run_ok more _ Hok') as [Hok'' Hl]. split.
    + intros. by apply used_up_unauthorized, (used_up_later db').
    + intros t now1 now2 n (c & m & Hc & Hh & _ & _ & _ & Hid & _ & ->)%resolved Hn. cbn in Hn.
      apply dead_token_unresolved, (dead_token_later db'); [done..|]. apply (Hdead t c); [done|congruence|done].
  - intros workspaceID nodeID now db' Hrev t now2 n. pose proof (revoke_ok workspaceID nodeID now db Hok) as [Hok' _]. rewrite Hrev in Hok'.
    destruct (node_run_ok more _ Hok') as [Hok'' Hl]. apply dead_node_unresolved; [done|]. by eapply dead_node_later, node_revoked.
Qed.

(** ** Agents *)
Section Theorems.
Context `{Unicode}.

(** What the transactions reach. *)
Definition reached (db : agent_db) : Prop := exists ops, Forall agent_op_ok ops /\ db = agent_run ops no_agents.
Lemma reached_ok db : reached db -> agents_ok db.
Proof. intros (ops & Hops & ->). apply (ag_ok _ _ (agent_run_good ops no_agents Hops)), no_agents_ok. Qed.

(** C23: in every reachable state, whatever transactions follow: a refresh token
    refreshes at most once; presenting it again is refused and, when that
    transaction runs, ends for good every refresh token and every access token
    (a worker's too) that came from it, directly or through other refreshes; and
    a device code is exchanged at most once. *)
Theorem agent_tokens_single_use db ops more :
  reached db -> Forall agent_op_ok ops -> Forall agent_op_ok more ->
  (forall n r c token instance tokens db1, RefreshAgent n r c token instance db = (Ok tokens, db1) ->
     (exists f, of_family db1 token f /\ of_family db1 (TokenPair.RefreshToken tokens) f /\ access_of_family db1 (TokenPair.AccessToken tokens) f) /\
     forall n' r' c' instance' res db3, RefreshAgent n' r' c' token instance' (agent_run ops db1) = (res, db3) ->
       is_ok res = false /\
       (is_ok (validatedClientInstance instance') = true -> (n' < 4)%nat -> forall f, of_family (agent_run ops db1) token f ->
          (forall t n r c instance tokens', of_family (agent_run ops db1) t f ->
             (RefreshAgent n r c t instance (agent_run more db3)).1 <> Ok tokens') /\
          (forall t c, access_of_family (agent_run ops db1) t f -> (ResolveAgent c t (agent_run more db3)).1 = Err ErrUnauthorized))) /\
  (forall r c code instance tokens db1, ExchangeDevice r c code instance db = (Ok tokens, db1) ->
     forall r' c' instance' tokens', (ExchangeDevice r' c' code instance' (agent_run ops db1)).1 <> Ok tokens').
Proof.
  intros Hdb%reached_ok Hops Hmore. split.
  - intros n r c token instance tokens db1 He. destruct (refreshed _ _ _ _ _ _ _ _ Hdb He) as (Hspent & Hfam & _). split; [done|].
    pose proof (ag_ok _ _ (refresh_good n r c token instance db) Hdb) as Hok1. rewrite He in Hok1.
    destruct (agent_run_good ops db1 Hops) as [Ok2 Later2 _]. specialize (Ok2 Hok1). specialize (Later2 Hok1).
    intros n' r' c' instance' res db3 He'. destruct (replayed _ _ _ _ _ _ _ _ Ok2 (spent_later _ _ _ Later2 Hspent) He') as [Hrefused Hends].
    split; [done|]. intros Hi Hn f Hf. destruct (Hends Hi Hn) as [_ Hended]. specialize (Hended f Hf).
    destruct (refresh_good n' r' c' token instance' (agent_run ops db1)) as [Ok3 Later3 _]. rewrite He' in Ok3, Later3. specialize (Ok3 Ok2). specialize (Later3 Ok2).
    destruct (agent_run_good more db3 Hmore) as [Ok4 Later4 Ended4].
    assert (agents_later (agent_run ops db1) (agent_run more db3)) as Hl by (etrans; [exact Later3|by apply Later4]). split; intros.
    + eapply ended_family_refresh; [by apply Ok4|by apply Ended4|by eapply of_family_later].
    + eapply ended_family_access; [by apply Ok4|by apply Ended4|by eapply access_of_family_later].
  - intros r c code instance tokens db1 He. destruct (device_exchanged _ _ _ _ _ _ _ He) as [Hx _].
    pose proof (ag_ok _ _ (exchange_device_good r c code instance db) Hdb) as Hok1. rewrite He in Hok1.
    destruct (agent_run_good ops db1 Hops) as [Ok2 Later2 _]. intros. apply exchanged_refused; [by apply Ok2|].
    by eapply exchanged_device_later, Hx; apply Later2.
Qed.

(** C25: once an installation is revoked, by its owner, by the temporary agent
    itself that disconnects, by cancelling the invitation it came by or by
    deleting the account that installed it, nothing acts for it any more, whatever transactions follow: no access token resolves
    to it, no refresh token and no device code gives tokens for it, and no link
    it asked for is consumed. *)
Theorem agent_revocation_final db id db1 ops :
  reached db -> revokes db id db1 -> Forall agent_op_ok ops ->
  let db' := agent_run ops db1 in
  (forall c token p i, (ResolveAgent c token db').1 = Ok p -> Principal.Installation_ p = Some i -> IN.ID i <> id) /\
  (forall n r c token instance tokens, (RefreshAgent n r c token instance db').1 = Ok tokens -> IN.ID (TokenPair.Installation_ tokens) <> id) /\
  (forall r c code instance tokens, (ExchangeDevice r c code instance db').1 = Ok tokens -> IN.ID (TokenPair.Installation_ tokens) <> id) /\
  (forall c token accountID review x, (ConsumeChangeApprovalCapability c token accountID db').1 = Ok review ->
     x ∈ capabilities db' -> CP.TokenHash x = secretHash token -> CP.RequestedByInstallation x <> id).
Proof.
  intros Hdb%reached_ok Hrev Hops db'. pose proof (ag_ok _ _ (revokes_good _ _ _ Hrev) Hdb) as Hok1. destruct (agent_run_good ops db1 Hops) as [Ok2 Later2 _]. specialize (Ok2 Hok1).
  assert (revoked_agent db' id) as Hr by (eapply revoked_agent_later; [by apply Later2|by apply (revokes_revoked db)]).
  assert (forall i now, i ∈ installations db' -> live_installation now i = true -> IN.ID i <> id) as Hne by (intros; by eapply revoked_not_live).
  split_and!.
  - intros c token p i Hp Hi. destruct (resolved_agent _ _ _ _ Ok2 Hp) as (row & j & Hl & [(i' & Hi' & Hid & _) _ _]).
    assert (i' = i) as -> by congruence. rewrite Hid. eapply Hne; apply Hl.
  - intros n r c token instance tokens He. destruct (RefreshAgent _ _ _ _ _ db') as [res db2] eqn:E. cbn in He. subst.
    destruct (refreshed _ _ _ _ _ _ _ _ Ok2 E) as (_ & _ & i & now & Hi & Hlive & ->). by eapply Hne.
  - intros r c code instance tokens He. destruct (ExchangeDevice _ _ _ _ db') as [res db2] eqn:E. cbn in He. subst.
    destruct (device_exchanged _ _ _ _ _ _ _ E) as (_ & i & now & Hi & Hlive & ->). by eapply Hne.
  - intros c token a review x He Hx Hh. destruct (ConsumeChangeApprovalCapability _ _ _ db') as [res db2] eqn:E. cbn in He. subst.
    destruct (link_consumed _ _ _ _ _ _ Ok2 E) as (y & i & record & role & Ho & _).
    rewrite (link_unique db' token x y) by (first [done|apply Ho]). destruct (op_installation _ _ _ _ _ _ _ _ Ho) as (Hi & <- & Hlive). by eapply Hne.
Qed.

(** C26: in every reachable state, a principal acts for an installation that is
    neither revoked nor expired, in that installation's workspace, with a session
    that is live (and whose parent is, for a worker); it drafts only if the
    installation may, and a worker only if it was made to; it may apply on its
    own only with a grant for that, which then lets it read and draft, and never
    as a worker. *)
Theorem agent_acts_within_grant db c token p :
  reached db -> (ResolveAgent c token db).1 = Ok p ->
  exists row i i', lives token (c 0%nat) db row i /\ Principal.Installation_ p = Some i' /\
    IN.ID i' = IN.ID i /\ Principal.WorkspaceID p = IN.WorkspaceID i /\
    (Authority.Draft (IN.Authority_ i') = true ->
       Authority.Draft (IN.Authority_ i) = true /\ (is_worker row = true -> AS.WorkerDraft (SR.Session row) = true)) /\
    (Authority.ApplyMode (IN.Authority_ i') = "automatic" ->
       Authority.ApplyMode (IN.Authority_ i) = "automatic" /\ is_worker row = false /\
       Authority.Inspect (IN.Authority_ i) = true /\ Authority.Draft (IN.Authority_ i) = true) /\
    (agentCanApply p = true <-> Authority.ApplyMode (IN.Authority_ i') = "automatic").
Proof.
  intros Hdb%reached_ok Hr. destruct (resolved_agent _ _ _ _ Hdb Hr) as (row & i & Hl & [(i' & Hi' & Hid & Hw & Ha) (s & Hs & Hsid & Hpar) Hws]).
  assert (authority_ok (IN.Authority_ i)) as Hok.
  { destruct (ak_installations _ Hdb) as (_ & _ & Hall). eapply Forall_forall in Hall; [exact Hall|apply Hl]. }
  assert (Authority.ApplyMode (IN.Authority_ i') = "automatic" ->
       Authority.ApplyMode (IN.Authority_ i) = "automatic" /\ is_worker row = false /\
       Authority.Inspect (IN.Authority_ i) = true /\ Authority.Draft (IN.Authority_ i) = true) as Hauto.
  { rewrite Ha. unfold grant, worker_authority. destruct (is_worker row); cbn.
    - destruct (negb _); [done|]. destruct (Authority.ApplyMode (IN.Authority_ i) == "automatic") eqn:E; bool_inv; [done|congruence].
    - intros He. by destruct (Hok He). }
  exists row, i, i'. split_and!; try done.
  - rewrite Ha. unfold grant, worker_authority. destruct (is_worker row); cbn; [|done]. by intros [-> ->]%andb_true_iff.
  - unfold agentCanApply. rewrite Hi', Hs, Hpar. split; [intros; by bool_inv|]. intros He. destruct (Hauto He) as (_ & Hw' & Hin & Hdr).
    rewrite He, Ha. unfold grant, is_worker in *. rewrite Hw', Hin, Hdr. bool_inv. by rewrite Hw', !bool_decide_true.
Qed.

(** C24: in every reachable state, whatever transactions follow: a link is given
    only for a drafted Change under its digest, to a live session of a live
    installation of that workspace whose grant asks for a person's approval; it is
    spent only for that Change and digest, by a person who may act in that
    workspace, while the Change is still drafted under that digest, the
    installation that asked is live and the link has not expired; it is spent at
    most once, and never once the grant of that installation was changed, its own
    or, where it takes the grant of its workspace, the workspace's. *)
Theorem approval_link_spent_once db r now ws sys id digest p url capability db1 ops more :
  reached db -> CreateChangeApprovalCapability r now ws sys id digest p url db = (Ok capability, db1) ->
  Forall agent_op_ok ops -> Forall agent_op_ok more ->
  let token := newSecret "cap_" (r 1%nat) in
  let db2 := agent_run ops db1 in
  exists i, Principal.Installation_ p = Some i /\
  (exists row j record, row ∈ sessions db /\ live_session now (SR.Session row) = true /\
     AS.ID <$> Principal.Session p = Some (AS.ID (SR.Session row)) /\
     j ∈ installations db /\ IN.ID j = IN.ID i /\ IN.WorkspaceID j = ws /\ live_installation now j = true /\
     Authority.ApplyMode (IN.Authority_ j) = "human-approval-required" /\
     change_records db !! (ws, sys, id) = Some record /\ change_row.Phase record = "drafted" /\ change_row.Digest record = digest) /\
  (forall c accountID review db3, ConsumeChangeApprovalCapability c token accountID db2 = (Ok review, db3) ->
     let change := ChangeApprovalReview.Change_ review in
     (exists x j record role, opens (after 1 c) token accountID db2 x j record role /\ role <> "viewer"%string /\
        IN.ID j = IN.ID i /\ (CP.WorkspaceID x, CP.SystemName x, CP.ChangeID x, CP.Digest x) = (ws, sys, id, digest) /\
        (Change.ID change, Change.System change, Change.Digest change) = (id, sys, digest) /\
        change_row.Document record = Ok change) /\
     forall c' accountID' review', (ConsumeChangeApprovalCapability c' token accountID' (agent_run more db3)).1 <> Ok review') /\
  (forall c accountID workspaceID authority useDefault j db3,
     UpdateAgentAuthority c accountID workspaceID (IN.ID i) authority useDefault db2 = (Ok j, db3) ->
     forall c' accountID' review', (ConsumeChangeApprovalCapability c' token accountID' (agent_run more db3)).1 <> Ok review') /\
  (forall c accountID workspaceID authority j db3,
     UpdateWorkspaceAgentAuthority c accountID workspaceID authority db2 = (Ok tt, db3) ->
     j ∈ installations db2 -> IN.ID j = IN.ID i -> inherits workspaceID j ->
     forall c' accountID' review', (ConsumeChangeApprovalCapability c' token accountID' (agent_run more db3)).1 <> Ok review').
Proof.
  intros Hdb%reached_ok Hcreate Hops Hmore token db2.
  destruct (link_created _ _ _ _ _ _ _ _ _ _ _ Hcreate) as (i & record & Hi & Hlink & (row & j & H1 & H2 & _ & H3 & H4 & H5 & H6 & H7 & H8 & H9) & Hrec & Hph & Hdig).
  pose proof (ag_ok _ _ (create_capability_good r now ws sys id digest p url db) Hdb) as Hok1. rewrite Hcreate in Hok1.
  destruct (agent_run_good ops db1 Hops) as [Ok2 Later2 _]. specialize (Ok2 Hok1). specialize (Later2 Hok1).
  assert (link_for db2 token ws sys id digest (IN.ID i)) as Hlink2 by (by eapply link_for_later).
  assert (forall db3, agood db2 db3 -> spent_link db3 token -> forall c' accountID' review',
    (ConsumeChangeApprovalCapability c' token accountID' (agent_run more db3)).1 <> Ok review') as Hnever.
  { intros db3 Hg Hspent c' a' review'. destruct (agent_run_good more db3 Hmore) as [Ok4 Later4 _]. pose proof (ag_ok _ _ Hg Ok2) as Ok3.
    apply spent_refused; [by apply Ok4|]. by eapply spent_link_later, Hspent; apply Later4. }
  exists i. split_and!; [done|by exists row, j, record| | |].
  - intros c a review db3 He change. destruct (link_consumed _ _ _ _ _ _ Ok2 He) as (x & j' & record' & role & Ho & Hrole & Hdoc & Hid & Hsys & Hd & _ & _ & Hspent).
    destruct Hlink2 as (x' & Hx' & Hh' & Heq & Hby). assert (x' = x) as -> by (apply (link_unique db2 token); try done; apply Ho). split.
    + exists x, j', record', role. destruct (op_installation _ _ _ _ _ _ _ _ Ho) as (_ & Hj & _). split_and!; try done; [congruence|].
      injection Heq as <- <- <- <-. unfold change. congruence.
    + apply Hnever; [|done]. pose proof (consume_good c token a db2) as Hg. by rewrite He in Hg.
  - intros c a w authority useDefault j' db3 He. apply Hnever; [|by eapply grant_changed_spends].
    pose proof (update_authority_good c a w (IN.ID i) authority useDefault db2) as Hg. by rewrite He in Hg.
  - intros c a w authority j' db3 He Hj' Hid Hin. rewrite <- Hid in Hlink2. apply Hnever; [|by eapply defaults_changed_spends].
    pose proof (update_defaults_good c a w authority db2) as Hg. by rewrite He in Hg.
Qed.
End Theorems.

(** ** Witnesses *)
Section Witness.
(** A temporary agent comes by an invitation, gets its tokens and drafts. *)
#[local] Definition draws (n : string) : random := fun k => n +:+ pretty (N.of_nat k).
#[local] Definition at_time (t : Z) : clock := fun _ => t.
#[local] Definition full_grant : Authority := Authority.mk true true "human-approval-required".
#[local] Definition the_digest : string := Nat.iter 64 (String "a") EmptyString.
#[local] Definition the_change : Change.Change :=
  Change.mk "v1" "chg" "shop" "ship" "drafted" the_digest None
    (ChangePlan.mk (ChangeBaseRevision.mk "ws" 3 7) "v1"
       (ReleaseManifest.mk "v1" "shop" "v2" EmptyString EmptyString ["./web"] ∅ "/healthz" 8080 2 None 0)
       None None (ChangeVerification.mk "GET" "/" 200 EmptyString) (ChangeImpact.mk ["web"] "rolling" "none" 0))
    None [] [] [] EmptyString 1 1 None.
#[local] Definition agent_comes : list agent_op :=
  [AMember "alice" "ws" (Some "owner"%string); AWorkspace "ws" full_grant;
   ARecordChange "ws" "shop" "chg" (change_row.mk "drafted" the_digest (Ok the_change));
   ACreatePairing (draws "p") 0 "alice" "ws"; AClaimPairing (draws "d") (at_time 1) "cp_p1" "bot" "codex" "https://canter";
   AApprovePairing (draws "i") (at_time 2) "pair_p0" "alice" false None; AExchangeDevice (draws "t") (at_time 3) "cdc_d1" "here"].
#[local] Definition with_agent : agent_db := Eval vm_compute in agent_run agent_comes no_agents.
Lemma with_agent_reached : reached with_agent.
Proof. exists agent_comes. split; [by repeat constructor|]. vm_compute. reflexivity. Qed.

(** Its refresh token is used, and presented again. *)
#[local] Definition first_use : result TokenPair * agent_db := Eval vm_compute in RefreshAgent 0 (draws "u") (at_time 4) "cr_t1" "here" with_agent.
#[local] Definition second_use : result TokenPair * agent_db := Eval vm_compute in RefreshAgent 0 (draws "v") (at_time 9) "cr_t1" "here" first_use.2.
#[local] Definition the_tokens : TokenPair := Eval vm_compute in match first_use.1 with Ok tokens => tokens | Err _ =>
  TokenPair.mk "" "" 0 "" (IN.mk false 0 None "" "" "" "" full_grant "" 0 None None) (AS.mk "" "" false "" "" "" 0 0 0 None) end.
(** Whom its access token shows, and the link it asks for. *)
#[local] Definition the_agent : Principal := Eval vm_compute in match (ResolveAgent (at_time 4) "ca_t3" with_agent).1 with Ok p => p | Err _ =>
  Principal.mk (ActorRef.mk "" "" "" "") None None None "" "" end.
#[local] Definition asked : result ChangeApprovalCapability * agent_db := Eval vm_compute in
  CreateChangeApprovalCapability (draws "c") 5 "ws" "shop" "chg" the_digest the_agent "https://canter" with_agent.
#[local] Definition the_link : ChangeApprovalCapability := Eval vm_compute in match asked.1 with Ok l => l | Err _ =>
  ChangeApprovalCapability.mk "" "" "" "" "" "" (IN.mk false 0 None "" "" "" "" full_grant "" 0 None None) 0 0 None "" "" "" end.
#[local] Definition left_alone : agent_db := Eval vm_compute in (DisconnectAgent (at_time 6) the_agent with_agent).2.
#[local] Opaque RefreshAgent ResolveAgent CreateChangeApprovalCapability ConsumeChangeApprovalCapability DisconnectAgent.

Lemma agent_tokens_single_use_witness :
  RefreshAgent 0 (draws "u") (at_time 4) "cr_t1" "here" with_agent = (Ok the_tokens, first_use.2) /\
  forall n r c instance res db, RefreshAgent n r c "cr_t1" instance first_use.2 = (res, db) -> is_ok res = false.
Proof.
  assert (RefreshAgent 0 (draws "u") (at_time 4) "cr_t1" "here" with_agent = (Ok the_tokens, first_use.2)) as He by (vm_compute; reflexivity).
  split; [exact He|]. intros n r c instance res db Hr.
  exact (proj1 (proj2 (proj1 (agent_tokens_single_use with_agent [] [] with_agent_reached (List.Forall_nil _) (List.Forall_nil _))
    _ _ _ _ _ _ _ He) n r c instance res db Hr)).
Defined.

Lemma agent_revocation_final_witness :
  revokes with_agent "agt_i0" left_alone /\
  forall n r c token instance tokens, (RefreshAgent n r c token instance left_alone).1 = Ok tokens -> IN.ID (TokenPair.Installation_ tokens) <> "agt_i0"%string.
Proof.
  assert (revokes with_agent "agt_i0" left_alone) as Hr.
  { assert ((ResolveAgent (at_time 4) "ca_t3" with_agent).1 = Ok the_agent) as Hres by (vm_compute; reflexivity).
    assert (DisconnectAgent (at_time 6) the_agent with_agent = (Ok tt, left_alone)) as Hd by (vm_compute; reflexivity).
    exact (by_itself with_agent "agt_i0" _ _ the_agent _ _ _ left_alone Hres eq_refl eq_refl ltac:(discriminate) eq_refl eq_refl Hd). }
  split; [exact Hr|].
  exact (proj1 (proj2 (agent_revocation_final with_agent "agt_i0" left_alone [] with_agent_reached Hr (List.Forall_nil _)))).
Defined.

Lemma agent_acts_within_grant_witness :
  (ResolveAgent (at_time 4) "ca_t3" with_agent).1 = Ok the_agent /\
  exists row i, lives "ca_t3" 4 with_agent row i /\ Principal.WorkspaceID the_agent = IN.WorkspaceID i.
Proof.
  assert ((ResolveAgent (at_time 4) "ca_t3" with_agent).1 = Ok the_agent) as He by (vm_compute; reflexivity). split; [exact He|].
  destruct (agent_acts_within_grant _ _ _ _ with_agent_reached He) as (row & i & i' & Hl & _ & _ & Hw & _). exact (ex_intro _ row (ex_intro _ i (conj Hl Hw))).
Defined.

Lemma approval_link_spent_once_witness :
  CreateChangeApprovalCapability (draws "c") 5 "ws" "shop" "chg" the_digest the_agent "https://canter" with_agent = (Ok the_link, asked.2) /\
  is_ok (ConsumeChangeApprovalCapability (at_time 7) "cap_c1" "alice" asked.2).1 = true /\
  exists i, Principal.Installation_ the_agent = Some i /\ IN.ID i = "agt_i0"%string.
Proof.
  assert (CreateChangeApprovalCapability (draws "c") 5 "ws" "shop" "chg" the_digest the_agent "https://canter" with_agent = (Ok the_link, asked.2)) as He
    by (vm_compute; reflexivity).
  split; [exact He|]. split; [vm_compute; reflexivity|].
  destruct (approval_link_spent_once with_agent _ _ _ _ _ _ _ _ _ _ [] [] with_agent_reached He (List.Forall_nil _) (List.Forall_nil _)) as (i & Hi & _).
  exists i. split; [exact Hi|]. injection Hi as <-. reflexivity.
Defined.
End Witness.

Section NodeWitness.
(** A node enrolls, is enrolled again, and is revoked. *)
#[local] Definition first_enrollment : list node_op :=
  [NEnroll "n1" "e1" "once" "ws" "shop" "m1/shop" 0; NExchange "c1" "secret" "e1" "once" 5; NResolve "secret" 10;
   NEnroll "n2" "e2" "again" "ws" "shop" "m1/shop" 20].

#[local] Definition enrolled_again : node_db := Eval vm_compute in node_run first_enrollment no_nodes.
#[local] Definition exchanged_again : node_db := Eval vm_compute in (ExchangeNodeEnrollment "c2" "other" "e2" "again" 25 enrolled_again).2.
#[local] Definition the_node (seen : Z) : NI.NodeInstallation := NI.mk "n1" "ws" "shop" "m1/shop" 0 (Some seen) None.
#[local] Definition the_credential : NodeCredential := NodeCredential.mk "other" (25 + nodeCredentialLifetime) (the_node 10).
#[local] Opaque node_run ExchangeNodeEnrollment ResolveNode.

Lemma node_tokens_exclusive_witness :
  (exists n, (ResolveNode "secret" 30 enrolled_again).1 = Ok n) /\
  (ExchangeNodeEnrollment "c3" "third" "e2" "again" 40 (node_run [NResolve "other" 30] exchanged_again)).1 = Err ErrUnauthorized /\
  (ResolveNode "secret" 30 (node_run [NResolve "other" 30] exchanged_again)).1 = Err ErrUnauthorized /\
  (exists n, (ResolveNode "other" 30 exchanged_again).1 = Ok n).
Proof.
  assert (node_run first_enrollment no_nodes = enrolled_again) as Hrun by (vm_compute; reflexivity).
  assert (ExchangeNodeEnrollment "c2" "other" "e2" "again" 25 enrolled_again = (Ok the_credential, exchanged_again)) as He by (vm_compute; reflexivity).
  assert ((ResolveNode "secret" 30 enrolled_again).1 = Ok (the_node 30)) as Hr by (vm_compute; reflexivity).
  assert ((ResolveNode "other" 30 exchanged_again).1 = Ok (the_node 30)) as Ho by (vm_compute; reflexivity).
  pose proof (node_tokens_exclusive first_enrollment [NResolve "other" 30]) as (_ & H & _). rewrite Hrun in H.
  destruct (H _ _ _ _ _ _ _ He) as [H1 H2]. split; [by exists (the_node 30)|]. split; [exact (H1 "c3"%string "third"%string "again"%string 40)|].
  split; [exact (H2 "secret"%string 30 30 (the_node 30) Hr eq_refl)|]. by exists (the_node 30).
Defined.
End NodeWitness.
