(* ===== verification/ProviderTheorems.v ===== *)
(** * Theorems: the provider client

    The interface the SDK relies on ([computeProvider]), proved of the client
    that implements it: where its requests go, what [ExposeManagedTCP] may
    change, what [FindManagedTCPExposure] recovers and which shape
    [ResolveSize] picks. *)

From stdpp Require Import relations.
From S2P Require Import Prelude Effects GoStrings Documents Json Calls Endpoints Provider Example.

(** ** Programs over programs *)
Section Interpret.
Context {C1 C2 : Type} {R1 : C1 -> Type} {R2 : C2 -> Type} (f : forall c, prog R2 (R1 c)).
Context (rely : list (event R2) -> forall c, R2 c -> Prop) (guar : list (event R2) -> C2 -> Prop).
Context (allowed : C1 -> Prop) (post : forall c, R1 c -> Prop).

(** What every implementation of a call promises, a program over them may rely on. *)
Lemma wp_interpret {A} (p : prog R1 A) h1 h2 :
  (forall c, allowed c -> forall h, wp rely guar (f c) (fun _ a => post c a) h) ->
  wp (fun _ c a => post c a) (fun _ c => allowed c) p (fun _ _ => True) h1 ->
  wp rely guar (interpret f p) (fun _ _ => True) h2.
Proof.
  intros Hf. revert h1 h2. induction p as [a|c k IH]; intros h1 h2; cbn [interpret]; [done|].
  intros [Hc Hk]. eapply wp_bind_mono; [by apply Hf|]. intros h' a Ha. exact (IH a _ h' (Hk a Ha)).
Qed.
End Interpret.

(** Threads of one pool that keep an invariant of the state: what a thread may
    assume of an answer, its guards let the others keep.  The answers are those
    of one run, to the threads [final]. *)
Section PoolInvariant.
Context {C : Type} {R : C -> Type} {S A : Type} (handler : S -> forall c, R c * S) (final : list (thread R A)).
Context (I : S -> Prop) (rely : forall c, R c -> Prop) (guar : C -> Prop).

Definition happened (ts : list (thread R A)) (e : event R) : Prop := exists t, t ∈ ts /\ e ∈ th_history t.
Context (Hstep : forall st c r st', I st -> guar c -> handler st c = (r, st') -> happened final (Event c r) -> I st' /\ rely c r).

Definition kept (t : thread R A) : Prop :=
  wp (fun _ c r => rely c r) (fun _ c => guar c) (th_prog t) (fun _ _ => True) (th_history t) /\
  Forall (fun e => guar (ev_call e)) (th_history t).

Lemma happened_step x y e : pool_step handler x y -> happened x.1 e -> happened y.1 e.
Proof.
  intros Hs (t & Ht & He). destruct Hs as [ts i c k h st r st' Hi _]. simpl in *.
  apply list_elem_of_lookup in Ht as [j Hj]. destruct (decide (i = j)) as [<-|Hne].
  - assert (t = Thread (Call c k) h) as -> by congruence.
    exists (Thread (k r) (Event c r :: h)). split; [|by right]. apply list_elem_of_insert. by eapply lookup_lt_Some.
  - exists t. split; [|done]. apply (list_elem_of_lookup_2 _ j). by rewrite list_lookup_insert_ne.
Qed.
Lemma happened_later x y e : rtc (pool_step handler) x y -> happened x.1 e -> happened y.1 e.
Proof. induction 1 as [|x y z Hs _ IH]; [done|]. intros He. by eapply IH, happened_step. Qed.

Lemma pool_kept ts st st' :
  I st -> Forall kept ts -> rtc (pool_step handler) (ts, st) (final, st') -> I st' /\ Forall kept final.
Proof.
  intros HI Hts Hrtc. change (I (final, st').2 /\ Forall kept (final, st').1).
  assert (happened (final, st').1 = happened final) as Hfinal by done. revert Hfinal.
  assert (I (ts, st).2) as HI0 by done. assert (Forall kept (ts, st).1) as Hts0 by done. revert HI0 Hts0. clear HI Hts.
  induction Hrtc as [x|x y z Hs Hrest IH]; [done|]. intros HI Hts Hfinal.
  assert (forall e, happened y.1 e -> happened final e) as Hy by (intros e; rewrite <- Hfinal; by apply happened_later).
  destruct Hs as [ts' i c k h st0 r st1 Hi Hh]. simpl in *.
  pose proof (Forall_lookup_1 _ _ _ _ Hts Hi) as [[Hg Hk] Hl].
  destruct (Hstep st0 c r st1 HI Hg Hh) as [HI' Hr].
  { apply Hy. exists (Thread (k r) (Event c r :: h)). split; [|left]. apply list_elem_of_insert. by eapply lookup_lt_Some. }
  apply IH; [done| |done]. apply Forall_insert; [done|]. split; [by apply Hk|]. by constructor.
Qed.
End PoolInvariant.

(** ** Where requests go *)
Section Confinement.
Context `{Unicode} `{Standard} (cfg : config.config).
(** The answers of the identity service. *)
Context (seen : http_response -> Prop).

(** A URL that requests may go below: over TLS, or to the machine itself, and
    with nothing but a host and a path. *)
Definition secure_url (raw : string) : Prop :=
  exists u, url_Parse raw = Some u /\ url_Hostname u <> "" /\ url_User u = None /\ url_RawQuery u = "" /\ url_Fragment u = "" /\
    (url_Scheme u = "https" \/ url_Scheme u = "http" /\ (url_Hostname u = "localhost" \/ loopback_IP (url_Hostname u) = true)).

(** A catalog lists [url], but for its final slashes, as the public endpoint of a
    service in the configured region. *)
Definition in_catalog (catalog : list catalog_service) (type url : string) : Prop :=
  exists svc ep, svc ∈ catalog /\ svc_Type svc = type /\ ep ∈ svc_Endpoints svc /\ ep_Interface ep = "public" /\
    ep_Region ep = config.Region cfg /\ secure_url (ep_URL ep) /\ url = TrimRight (ep_URL ep) "/"%char.

(** The session of one answer: its token, and the URLs of its catalog. *)
Definition session_of (resp : http_response) (s : session) : Prop :=
  rs_StatusCode resp = 201 /\ session.Token s = rs_SubjectToken resp /\ session.Token s <> "" /\
  exists body, decodeProviderJSON RToken (rs_Body resp) = Ok body /\ session.Expires s = ExpiresAt body /\
    in_catalog (Catalog body) "compute" (session.ComputeURL s) /\ in_catalog (Catalog body) "image" (session.ImageURL s) /\
    in_catalog (Catalog body) "network" (session.NetworkURL s).
Definition good_session (s : session) : Prop := exists resp, seen resp /\ session_of resp s.

(** What is asked of which service, and with which body. *)
Inductive asks (s : session) : string -> string -> option json -> Prop :=
  | asks_compute path : asks s "GET" (session.ComputeURL s +:+ "/" +:+ path) None
  | asks_image path : asks s "GET" (session.ImageURL s +:+ "/" +:+ path) None
  | asks_network path : asks s "GET" (session.NetworkURL s +:+ "/" +:+ path) None
  | asks_create input : asks s "POST" (session.ComputeURL s +:+ "/servers") (Some (server_payload input))
  | asks_delete id : asks s "DELETE" (session.ComputeURL s +:+ "/servers/" +:+ id) None
  | asks_group name description : asks s "POST" (session.NetworkURL s +:+ "/v2.0/security-groups")
      (Some (JObject [("security_group", JObject [("description", JString description); ("name", JString name)])]))
  | asks_rule groupID portNumber : asks s "POST" (session.NetworkURL s +:+ "/v2.0/security-group-rules") (Some (rule_payload groupID portNumber))
  | asks_attach portID groups : asks s "PUT" (session.NetworkURL s +:+ "/v2.0/ports/" +:+ portID) (Some (attach_payload groups))
  | asks_delete_group id : asks s "DELETE" (session.NetworkURL s +:+ "/v2.0/security-groups/" +:+ id) None.

(** A request with the password goes to the identity service; any other carries a
    token of it and asks a service of a catalog for one of the things above. *)
Definition proper_request (r : http_request) : Prop :=
  r = auth_request cfg \/
  exists s s' payload, good_session s /\ good_session s' /\ asks s (rq_Method r) (rq_URL r) payload /\
    rq_Body r = render <$> payload /\ ("X-Auth-Token", session.Token s') ∈ rq_Header r /\
    forall header, header ∈ rq_Header r -> header = ("X-Auth-Token", session.Token s') \/ header = ("Content-Type", "application/json").

Definition http_allowed (c : http_call) : Prop :=
  match c with SetSession s => good_session s | Do r => proper_request r | _ => True end.
Definition http_relied (c : http_call) : http_answer c -> Prop :=
  match c with
  | GetSession => fun s => session.Token s = "" \/ good_session s
  | Do r => fun a => forall resp, r = auth_request cfg -> a = Ok resp -> seen resp
  | _ => fun _ => True
  end.

Definition api_allowed (c : api_call) : Prop :=
  match c with
  | Request method url payload _ => exists s, good_session s /\ asks s method url payload
  | SendDelete url token => exists s, good_session s /\ asks s "DELETE" url None /\ token = session.Token s
  | _ => True
  end.
Definition api_relied (c : api_call) : api_answer c -> Prop :=
  match c with
  | Authenticate => fun r => match r with Ok s => good_session s | Err _ => True end
  | _ => fun _ => True
  end.

Lemma valid_secure raw : validProviderURL raw = true -> secure_url raw.
Proof.
  unfold validProviderURL. destruct (url_Parse raw) as [u|] eqn:Eu; [|done]. intros Hv. exists u. split; [done|].
  destruct (_ || (url_Opaque u != "")) eqn:E1; [done|]. repeat (apply orb_false_iff in E1 as [E1 ?]).
  bool_inv. destruct (url_User u); [done|]. destruct (url_Scheme u == "https") eqn:E2; bool_inv; split_and!; try done; [by left|].
  right. split; [done|]. match goal with Ho : _ || _ = true |- _ => apply orb_true_iff in Ho as [Ho|Ho]; [left|by right] end. by bool_inv.
Qed.

(** The catalog's entries fill in URLs it lists. *)
Section Filling.
Context (catalog : list catalog_service).
Definition filled_in (s : session) : Prop :=
  (session.ComputeURL s = "" \/ in_catalog catalog "compute" (session.ComputeURL s)) /\
  (session.ImageURL s = "" \/ in_catalog catalog "image" (session.ImageURL s)) /\
  (session.NetworkURL s = "" \/ in_catalog catalog "network" (session.NetworkURL s)).
Definition same_token (s s' : session) : Prop := session.Token s' = session.Token s /\ session.Expires s' = session.Expires s.

Lemma catalog_entry_filled svc s ep :
  svc ∈ catalog -> ep ∈ svc_Endpoints svc -> filled_in s ->
  filled_in (catalog_entry cfg (svc_Type svc) s ep) /\ same_token s (catalog_entry cfg (svc_Type svc) s ep).
Proof.
  intros Hsvc Hep Hs. unfold catalog_entry. destruct (_ || _) eqn:E; [done|]. apply orb_false_iff in E as [[Ei Er]%orb_false_iff Hv%negb_false_iff].
  bool_inv. apply valid_secure in Hv. destruct Hs as (H1 & H2 & H3).
  assert (forall type, svc_Type svc = type -> in_catalog catalog type (TrimRight (ep_URL ep) "/"%char)) as Hl by (intros type Ht; by exists svc, ep).
  repeat case_bool_decide; unfold filled_in; simpl; split_and!; auto; done.
Qed.

Lemma read_catalog_filled s : filled_in s -> filled_in (read_catalog cfg s catalog) /\ same_token s (read_catalog cfg s catalog).
Proof.
  assert (forall svc eps s, svc ∈ catalog -> (forall ep, ep ∈ eps -> ep ∈ svc_Endpoints svc) -> filled_in s ->
    filled_in (fold_left (catalog_entry cfg (svc_Type svc)) eps s) /\ same_token s (fold_left (catalog_entry cfg (svc_Type svc)) eps s)) as Heps.
  { intros svc eps. induction eps as [|ep eps IH]; intros s0 Hsvc Hin Hs; [done|]. simpl.
    destruct (catalog_entry_filled svc s0 ep) as [Hf [Ht He]]; [done|apply Hin; left|done|].
    destruct (IH (catalog_entry cfg (svc_Type svc) s0 ep)) as [Hf' [Ht' He']]; [done|intros; apply Hin; by right|done|].
    split; [done|]. split; congruence. }
  unfold read_catalog. generalize (reflexivity catalog : catalog = catalog).
  enough (forall l s, (forall svc, svc ∈ l -> svc ∈ catalog) -> filled_in s ->
    filled_in (fold_left (fun s svc => fold_left (catalog_entry cfg (svc_Type svc)) (svc_Endpoints svc) s) l s) /\
    same_token s (fold_left (fun s svc => fold_left (catalog_entry cfg (svc_Type svc)) (svc_Endpoints svc) s) l s)) as Hl by (intros; by apply Hl).
  clear s. induction l as [|svc l IH]; intros s Hin Hs; [done|]. simpl.
  destruct (Heps svc (svc_Endpoints svc) s) as [Hf [Ht He]]; [apply Hin; left|done|done|].
  edestruct IH as [Hf' [Ht' He']]; [intros; apply Hin; by right|exact Hf|]. split; [exact Hf'|]. split; congruence.
Qed.
End Filling.

Lemma authenticated_session resp s : authenticated cfg resp = Ok s -> session_of resp s.
Proof.
  unfold authenticated. intros Hok. ok_inv. subst. bool_inv.
  match goal with |- session_of _ (read_catalog _ ?s0 ?cat) =>
    destruct (read_catalog_filled cat s0) as [(Hc & Hi & Hn) [Ht He]]; [by split_and!; left|] end.
  split; [done|]. split; [done|]. split; [done|]. eexists. split; [done|]. naive_solver.
Qed.

Abbreviation confined_http p := (forall h, wp (fun _ c r => http_relied c r) (fun _ c => http_allowed c) p
  (fun _ r => match r with Ok s => good_session s | Err _ => True end) h) (only parsing).

Lemma log_in_good : confined_http (log_in cfg).
Proof.
  intros h. unfold log_in. apply wp_bind. wp_ask_as r Hr; [by left|]. destruct r as [resp|e]; [|by apply wp_ret].
  rewrite bind_ok_lift. destruct (authenticated cfg resp) as [s|e] eqn:E; [|by apply wp_ret].
  assert (good_session s) as Hgood by (exists resp; split; [by apply Hr|by apply authenticated_session]). apply wp_bind. wp_ask_as u Hu. by apply wp_ret.
Qed.

Lemma authenticate_good : confined_http (authenticate cfg).
Proof.
  intros h. unfold authenticate. apply wp_bind. wp_ask_as s Hs. simpl in Hs.
  case_bool_decide as Ht; cbn [negb]; [by apply log_in_good|].
  apply wp_bind. wp_ask_as t Hnow. destruct (_ <? _); [|by apply log_in_good].
  apply wp_ret. by destruct Hs.
Qed.

Lemma perform_confined c h :
  api_allowed c ->
  wp (fun _ c r => http_relied c r) (fun _ c => http_allowed c) (perform cfg c) (fun _ a => api_relied c a) h.
Proof.
  destruct c as [|method url payload target|url token|]; intros Hc; cbn [perform].
  - apply authenticate_good.
  - destruct Hc as (s0 & Hs0 & Ha). unfold request. apply wp_bind_ok. eapply wp_mono; [apply authenticate_good|].
    intros h' [s|e]; [|done]. intros Hs. apply wp_bind. wp_ask_as r Hr; [|by destruct r; apply wp_ret].
    right. exists s0, s, payload. split_and!; try done; [left|]. cbn. set_solver.
  - destruct Hc as (s0 & Hs0 & Ha & ->). apply wp_bind. wp_ask_as r Hr; [|by apply wp_ret].
    right. exists s0, s0, None. split_and!; try done; [left|]. cbn. set_solver.
  - by wp_ask_as r Hr.
Qed.

(** *** The operations of the client ask only for URLs of the session they got *)
Abbreviation confined p := (forall h, wp (fun _ c a => api_relied c a) (fun _ c => api_allowed c) p (fun _ _ => True) h)
  (only parsing).

Lemma confined_ret {A} (a : A) : confined (Ret a : api A).
Proof. by intros h. Qed.

Lemma confined_bind {A B} (p : api A) (k : A -> api B) : confined p -> (forall a, confined (k a)) -> confined (p ≫= k).
Proof. intros Hp Hk h. eapply wp_bind_mono; [apply Hp|]. intros h' a _. apply Hk. Qed.

Lemma confined_ok {A B} (p : api (result A)) (k : A -> api (result B)) :
  confined p -> (forall a, confined (k a)) -> confined (bind_ok p k).
Proof. intros Hp Hk. apply confined_bind; [done|]. intros [a|e]; [apply Hk|apply confined_ret]. Qed.

Lemma confined_error {A B} (p : api (result A)) wrap (k : A -> api (result B)) :
  confined p -> (forall a, confined (k a)) -> confined (bind_error p wrap k).
Proof. intros Hp Hk. apply confined_bind; [done|]. intros [a|e]; [apply Hk|apply confined_ret]. Qed.

Lemma confined_authentication {A} (k : session -> api (result A)) :
  (forall s, good_session s -> confined (k s)) -> confined (bind_ok authentication k).
Proof. intros Hk h. apply wp_bind_ok. unfold authentication. wp_ask_as r Hr. destruct r as [s|e]; [by apply Hk|exact I]. Qed.

Lemma confined_call c : api_allowed c -> confined (call c).
Proof. intros Hc h. by wp_ask_as r Hr. Qed.
End Confinement.

(** The client's URLs, with the slash that ends the base made visible. *)
Ltac asked :=
  match goal with
  | Hu : api_allowed _ _ (Request "DELETE" ?u None None) |- api_allowed _ _ (Request "DELETE" ?u None None) => exact Hu
  | Hs : good_session _ _ ?s |- api_allowed _ _ _ =>
      exists s; split; [exact Hs|]; first [split; [apply asks_delete|reflexivity]|apply asks_create|apply asks_group|apply asks_rule|apply asks_attach
        |apply asks_delete_group|apply asks_compute|apply asks_image|apply asks_network]
  end.
Ltac confined_step :=
  match goal with
  | |- forall h, wp _ _ (Ret _) _ h => apply confined_ret
  | |- forall h, wp _ _ (lift _) _ h => apply confined_ret
  | |- forall h, wp _ _ (bind_ok authentication _) _ h => apply confined_authentication; intros ? ?
  | |- forall h, wp _ _ (bind_ok _ _) _ h => apply confined_ok; [|intros ?]
  | |- forall h, wp _ _ (bind_error _ _ _) _ h => apply confined_error; [|intros ?]
  | |- forall h, wp _ _ (mbind _ _) _ h => apply confined_bind; [|intros ?]
  | |- forall h, wp _ _ (call _) _ h => apply confined_call; first [exact I|asked]
  | |- forall h, wp _ _ (get _ _) _ h => apply confined_call; asked
  | |- forall h, wp _ _ (match ?x with _ => _ end) _ h => destruct x
  | |- forall h, wp _ _ _ _ h => solve [eauto with confined]
  end.
Ltac confined_tac := repeat (cbv beta zeta; confined_step).
Create HintDb confined.

(** One client and the world: the session is the client's, the rest of the
    answers are the world's. *)
Definition client_handler {W} (world : W -> forall c, http_answer c * W) (st : session * W) (c : http_call)
    : http_answer c * (session * W) :=
  match c with
  | GetSession => (st.1, st)
  | SetSession s => (tt, (s, st.2))
  | c => let '(r, w) := world st.2 c in (r, (st.1, w))
  end.

Section Operations.
Context `{Unicode} `{Standard} (cfg : config.config) (seen : http_response -> Prop).

Abbreviation confined p := (forall h, wp (fun _ c a => api_relied cfg seen c a) (fun _ c => api_allowed cfg seen c) p (fun _ _ => True) h)
  (only parsing).

Lemma confined_find_port s serverID : good_session cfg seen s -> confined (findServerPort s serverID).
Proof. intros Hs. unfold findServerPort. confined_tac. Qed.
Lemma confined_find_groups s name description : good_session cfg seen s -> confined (findSecurityGroups s name description).
Proof. intros Hs. unfold findSecurityGroups, groups_url. rewrite <- append_assoc. confined_tac. Qed.
#[local] Hint Resolve confined_find_port confined_find_groups : confined.

Lemma confined_choose_group s input groups : good_session cfg seen s -> confined (choose_group s input groups).
Proof. intros Hs. unfold choose_group, reconcile_group, createSecurityGroup, groups_url. confined_tac. Qed.
Lemma confined_choose_rule s input group : good_session cfg seen s -> confined (choose_rule s input group).
Proof. intros Hs. unfold choose_rule, reconcile_rule, createTCPRule, rules_url. confined_tac. Qed.
Lemma confined_attach s input port groupID : good_session cfg seen s -> confined (attach_group s input port groupID).
Proof. intros Hs. unfold attach_group, port_url. confined_tac. Qed.
#[local] Hint Resolve confined_choose_group confined_choose_rule confined_attach : confined.

Lemma confined_delete_policy attempts url last : api_allowed cfg seen (Request "DELETE" url None None) -> confined (delete_policy attempts url last).
Proof. intros Hu. revert last. induction attempts as [|n IH]; intros last; cbn [delete_policy]; confined_tac. Qed.
#[local] Hint Resolve confined_delete_policy : confined.
#[local] Hint Extern 1 (api_allowed _ _ _) => asked : confined.

Lemma confined_resolve_shape imageAlias selectShape : confined (resolveShape imageAlias selectShape).
Proof. unfold resolveShape. confined_tac. Qed.
#[local] Hint Resolve confined_resolve_shape : confined.

Lemma confined_server id : confined (Client_Server id).
Proof. unfold Client_Server. confined_tac. Qed.
#[local] Hint Resolve confined_server : confined.

Lemma confined_wait_active fuel id : confined (Client_WaitActive fuel id).
Proof. induction fuel as [|fuel IH]; cbn [Client_WaitActive]; confined_tac. Qed.
#[local] Hint Resolve confined_wait_active : confined.

(** The operations of the SDK's interface [computeProvider]. *)
Inductive provider_op : Type :=
  | OpResolve (class imageAlias : string)
  | OpResolveSize (vcpus memoryMiB diskGiB : Z) (imageAlias : string)
  | OpCreateManaged (input : ManagedServerRequest)
  | OpFindManagedServers (sandbox operationID name : string)
  | OpServer (id : string)
  | OpWaitActive (fuel : nat) (id : string)
  | OpDelete (id : string)
  | OpExposeManagedTCP (input : ManagedTCPExposureRequest)
  | OpFindManagedTCPExposure (input : ManagedTCPExposureRequest)
  | OpDeleteSecurityPolicy (id : string)
  | OpServerShape (id : string).

Definition ignoring {A} (p : api A) : api unit := _ ← p; Ret tt.

Definition op_program (op : provider_op) : api unit :=
  match op with
  | OpResolve class imageAlias => ignoring (Client_Resolve class imageAlias)
  | OpResolveSize v m d imageAlias => ignoring (Client_ResolveSize v m d imageAlias)
  | OpCreateManaged input => ignoring (Client_CreateManaged input)
  | OpFindManagedServers sandbox operationID name => ignoring (Client_FindManagedServers sandbox operationID name)
  | OpServer id => ignoring (Client_Server id)
  | OpWaitActive fuel id => ignoring (Client_WaitActive fuel id)
  | OpDelete id => ignoring (Client_Delete id)
  | OpExposeManagedTCP input => ignoring (Client_ExposeManagedTCP input)
  | OpFindManagedTCPExposure input => ignoring (Client_FindManagedTCPExposure input)
  | OpDeleteSecurityPolicy id => ignoring (Client_DeleteSecurityPolicy id)
  | OpServerShape id => ignoring (Client_ServerShape id)
  end.

Lemma op_confined op : confined (op_program op).
Proof.
  destruct op; cbn [op_program]; unfold ignoring, Client_Resolve, Client_ResolveSize, Client_CreateManaged,
    Client_FindManagedServers, Client_Delete, Client_ExposeManagedTCP, Client_FindManagedTCPExposure,
    Client_DeleteSecurityPolicy, Client_ServerShape; confined_tac.
Qed.

Definition session_ok {W} (st : session * W) : Prop := session.Token st.1 = "" \/ good_session cfg seen st.1.
End Operations.

Section Clients.
Context `{Unicode} `{Standard} (cfg : config.config) {W : Type} (world : W -> forall c, http_answer c * W).

(** The identity service answered [resp] to a thread. *)
Definition answered_login (ts : list (thread http_answer unit)) (resp : http_response) : Prop :=
  happened ts (Event (R := http_answer) (Do (auth_request cfg)) (Ok resp)).

Lemma client_step (final : list (thread http_answer unit)) (st : session * W) c r st' :
  session_ok cfg (answered_login final) st -> http_allowed cfg (answered_login final) c -> client_handler world st c = (r, st') ->
  happened final (Event c r) -> session_ok cfg (answered_login final) st' /\ http_relied cfg (answered_login final) c r.
Proof.
  unfold session_ok. destruct c; simpl; intros Hs Hc Hh He; try (destruct (world _ _); injection Hh as <- <-; simpl; auto).
  - injection Hh as <- <-. auto.
  - injection Hh as <- <-. simpl. auto.
  - split; [done|]. intros resp -> ->. exact He.
Qed.

Lemma ops_kept seen ops :
  Forall (kept (http_relied cfg seen) (http_allowed cfg seen)) ((fun op => Thread (over_http cfg (op_program op)) []) <$> ops).
Proof.
  apply Forall_fmap, Forall_true. intros op. split; [|constructor]. simpl.
  eapply wp_interpret; [|apply (op_confined cfg seen op [])]. intros c Hc h. by apply perform_confined.
Qed.

(** C32: however the operations of one client interleave, and whatever is
    answered, the client's session is empty or that of an answer of the identity
    service to one of them: its token, and the URLs its catalog lists for the
    compute, image and network services in the configured region, public and
    over TLS (or to the machine itself).  The password is sent only in the
    authentication request to the configured identity service; every other
    request carries such a token and asks one of the services listed in such an
    answer for one of nine things, with the body that goes with it. *)
Theorem requests_confined ops w ts s w' :
  rtc (pool_step (client_handler world))
    ((fun op => Thread (over_http cfg (op_program op)) []) <$> ops, (session.zero, w)) (ts, (s, w')) ->
  (session.Token s = "" \/ good_session cfg (answered_login ts) s) /\
  forall t e r, t ∈ ts -> e ∈ th_history t -> ev_call e = Do r -> proper_request cfg (answered_login ts) r.
Proof.
  intros Hrun.
  eapply (pool_kept (client_handler world) ts (session_ok cfg (answered_login ts)) (http_relied cfg (answered_login ts))
            (http_allowed cfg (answered_login ts))) in Hrun as [Hs Hts]; [|by apply client_step|by left|apply ops_kept].
  split; [done|]. intros t e r Ht He Hr. rewrite Forall_forall in Hts. destruct (Hts t Ht) as [_ Hl].
  rewrite Forall_forall in Hl. specialize (Hl e He). by rewrite Hr in Hl.
Qed.
End Clients.



(** ** What exposing a port may change *)
Definition answered (h : list (event api_answer)) (c : api_call) (r : api_answer c) : Prop := Event c r ∈ h.
Arguments answered h c r : clear implicits.

(** The requests that change something, in the order an exposure makes them. *)
Definition rank (c : api_call) : option nat :=
  match c with
  | Authenticate | Wait => None
  | Request method _ _ target =>
      if method == "GET" then None
      else match target with Some RGroup => Some 1%nat | Some RRule => Some 2%nat | _ => Some 3%nat end
  | SendDelete _ _ => Some 0%nat
  end.

(** Every change so far comes before the [n]-th. *)
Definition before (n : nat) (h : list (event api_answer)) : Prop :=
  Forall (fun e => match rank (ev_call e) with Some m => (m < n)%nat | None => True end) h.

Section Exposing.
Context `{Unicode} (input : ManagedTCPExposureRequest).

Let name := ManagedTCPExposureRequest.Name input.
Let portNumber := ManagedTCPExposureRequest.Port input.
Let description := managedPolicyDescription (ManagedTCPExposureRequest.Ownership input).

Definition list_groups (s : session) : api_call := Request "GET" (groups_url s +:+ name_query name) None (Some RGroups).
Definition list_ports (s : session) : api_call :=
  Request "GET" (session.NetworkURL s +:+ "/v2.0/ports?device_id=" +:+ QueryEscape (ManagedTCPExposureRequest.ServerID input))
    None (Some RPorts).
Definition create_group (s : session) : api_call :=
  Request "POST" (groups_url s)
    (Some (JObject [("security_group", JObject [("description", JString description); ("name", JString name)])]))
    (Some RGroup).
Definition create_rule (s : session) (g : securityGroup) : api_call :=
  Request "POST" (rules_url s) (Some (rule_payload (securityGroup.ID g) portNumber)) (Some RRule).
Definition attach_port (s : session) (port : networkPort) (g : securityGroup) : api_call :=
  Request "PUT" (port_url s (networkPort.ID port))
    (Some (attach_payload (networkPort.SecurityGroups port ++ [securityGroup.ID g]))) None.

(** The groups of this name and owner that some listing showed. *)
Definition listed (h : list (event api_answer)) (gs : list securityGroup) : Prop :=
  exists s raw, answered h (list_groups s) (Ok raw) /\ gs = owned_groups name description raw.
(** The exposure's own group: the only one listed, or the one just created. *)
Definition own_group (h : list (event api_answer)) (g : securityGroup) : Prop :=
  listed h [g] \/ exists s, answered h (create_group s) (Ok g).
Definition own_rule (h : list (event api_answer)) (g : securityGroup) (ruleID : string) : Prop :=
  (exists g' rule, own_group h g' /\ matchingTCPRules g' portNumber = [rule] /\ ruleID = securityRule.ID rule) \/
  (exists s rule, answered h (create_rule s g) (Ok rule) /\ ruleID = securityRule.ID rule /\ ruleID <> "").
Definition server_port (h : list (event api_answer)) (port : networkPort) : Prop :=
  exists s, answered h (list_ports s) (Ok [port]).
Definition attached (port : networkPort) (g : securityGroup) : Prop :=
  containsString (networkPort.SecurityGroups port) (securityGroup.ID g) = true.

Definition exposure_guard (h : list (event api_answer)) (c : api_call) : Prop :=
  rank c = None \/
  exists s,
    (c = create_group s /\ before 1 h /\ listed h []) \/
    (exists g, c = create_rule s g /\ before 2 h /\ own_group h g /\ matchingTCPRules g portNumber = []) \/
    (exists port g, c = attach_port s port g /\ before 3 h /\ server_port h port /\ own_group h g /\ ~ attached port g).

Definition exposed (h : list (event api_answer)) (p : SecurityPolicy) : Prop :=
  exists g port,
    own_group h g /\ SecurityPolicy.ID p = securityGroup.ID g /\
    own_rule h g (SecurityPolicy.RuleID p) /\
    server_port h port /\ SecurityPolicy.PortID p = networkPort.ID port /\
    (attached port g \/ exists s, answered h (attach_port s port g) (Ok tt)) /\
    SecurityPolicy.Port p = portNumber.

(** Later histories know as much. *)
Definition grows (h h' : list (event api_answer)) : Prop := h ⊆ h'.

Lemma listed_grows h h' gs : grows h h' -> listed h gs -> listed h' gs.
Proof. intros Hg (s & raw & Ha & ->). exists s, raw. split; [by apply Hg|done]. Qed.
Lemma own_group_grows h h' g : grows h h' -> own_group h g -> own_group h' g.
Proof. intros Hg [Hl|(s & Ha)]; [left; by eapply listed_grows|right; exists s; by apply Hg]. Qed.
Lemma own_rule_grows h h' g ruleID : grows h h' -> own_rule h g ruleID -> own_rule h' g ruleID.
Proof.
  intros Hg [(g' & rule & Hg' & Hr)|(s & rule & Ha & Hr)].
  - left. exists g', rule. split; [by eapply own_group_grows|done].
  - right. exists s, rule. split; [by apply Hg|done].
Qed.
Lemma server_port_grows h h' port : grows h h' -> server_port h port -> server_port h' port.
Proof. intros Hg (s & Ha). exists s. by apply Hg. Qed.

Abbreviation guarded p Q h := (wp (fun _ _ _ => True) exposure_guard p Q h) (only parsing).

Lemma wp_call_grows c (Q : list (event api_answer) -> api_answer c -> Prop) h :
  exposure_guard h c ->
  (forall r, grows h (Event c r :: h) -> Q (Event c r :: h) r) -> guarded (call c) Q h.
Proof. intros Hc HQ. apply wp_call; [done|]. intros r _. apply HQ. intros e He. by apply list_elem_of_further. Qed.

Lemma before_read n h c r : rank c = None -> before n h -> before n (Event c r :: h).
Proof. intros Hc Hb. constructor; [by simpl; rewrite Hc|done]. Qed.
Lemma before_change n m h c r :
  rank c = Some m -> (m < n)%nat -> before m h -> before n (Event c r :: h).
Proof.
  intros Hc Hm Hb. constructor; [by simpl; rewrite Hc|]. eapply Forall_impl; [exact Hb|].
  intros e. cbv beta. destruct (rank (ev_call e)); [intros; lia|done].
Qed.
Lemma before_le m n h : (m <= n)%nat -> before m h -> before n h.
Proof. intros Hmn Hb. eapply Forall_impl; [exact Hb|]. intros e. cbv beta. destruct (rank (ev_call e)); [intros; lia|done]. Qed.

Lemma find_groups_spec s n h :
  before n h ->
  guarded (findSecurityGroups s name description)
    (fun h' r => grows h h' /\ before n h' /\ match r with Ok gs => listed h' gs | Err _ => True end) h.
Proof.
  intros Hb. unfold findSecurityGroups, get. apply wp_bind_ok. apply wp_call_grows; [by left|].
  intros r Hg. assert (before n (Event (list_groups s) r :: h)) as Hb' by by apply before_read.
  destruct r as [raw|e]; [|by split_and!]. apply wp_ret. split_and!; [done..|].
  exists s, raw. split; [by apply list_elem_of_here|done].
Qed.

Lemma find_port_spec s n h :
  before n h ->
  guarded (findServerPort s (ManagedTCPExposureRequest.ServerID input))
    (fun h' r => grows h h' /\ before n h' /\ match r with Ok port => server_port h' port | Err _ => True end) h.
Proof.
  intros Hb. unfold findServerPort, get. apply wp_bind_ok. apply wp_call_grows; [by left|].
  intros r Hg. assert (before n (Event (list_ports s) r :: h)) as Hb' by by apply before_read.
  destruct r as [ports|e]; [|by split_and!]. apply wp_ret. split_and!; [done..|].
  destruct ports as [|port [|]]; [done| |done]. exists s. by apply list_elem_of_here.
Qed.

Lemma choose_group_spec s groups h :
  before 1 h -> listed h groups ->
  guarded (choose_group s input groups)
    (fun h' r => grows h h' /\ before 2 h' /\ match r with Ok g => own_group h' g | Err _ => True end) h.
Proof.
  intros Hb Hl. assert (before 2 h) as Hb2 by (apply (before_le 1); [lia|done]).
  destruct groups as [|g [|g' gs]]; cbn [choose_group].
  2: { apply wp_ret. split_and!; [by intros e|done|by left]. }
  2: { apply wp_ret. by split_and!. }
  apply wp_bind. unfold createSecurityGroup. apply (wp_call_grows (create_group s)); [right; exists s; by left|].
  intros r Hg.
  assert (before 2 (Event (create_group s) r :: h)) as Hb' by (apply (before_change 2 1); [done|lia|done]).
  change (api_answer (create_group s)) with (result securityGroup) in r.
  destruct (failure (fun g => securityGroup.ID g == "") r) as [failed|] eqn:Hf.
  - unfold reconcile_group, bind_error. apply wp_bind.
    eapply wp_mono; [by apply find_groups_spec|]. intros h' [gs|e] (Hg' & Hbh & Hgs); apply wp_ret;
      (split_and!; [by etrans|done|]); [|done].
    destruct gs as [|g [|]]; [by destruct failed|by left|done].
  - apply wp_ret. split_and!; [done..|]. destruct r as [g|e]; [|done]. right. exists s. apply list_elem_of_here.
Qed.

Lemma choose_rule_spec s g h :
  before 2 h -> own_group h g ->
  guarded (choose_rule s input g)
    (fun h' r => grows h h' /\ before 3 h' /\ match r with Ok ruleID => own_rule h' g ruleID | Err _ => True end) h.
Proof.
  intros Hb Hg. assert (before 3 h) as Hb3 by (apply (before_le 2); [lia|done]). unfold choose_rule.
  destruct (matchingTCPRules g _) as [|rule [|]] eqn:Hm.
  2: { apply wp_ret. split_and!; [by intros e|done|]. left. by exists g, rule. }
  2: { apply wp_ret. by split_and!. }
  apply wp_bind. unfold createTCPRule. apply wp_bind_ok.
  apply (wp_call_grows (create_rule s g)); [right; exists s; right; left; by exists g|]. intros r Hgr.
  assert (before 3 (Event (create_rule s g) r :: h)) as Hb' by (apply (before_change 3 2); [done|lia|done]).
  set (created := match r with Ok rule => Ok (securityRule.ID rule) | Err e => Err e end : result string).
  enough (guarded (match failure (fun ruleID => ruleID == "") created with
                   | Some failed => reconcile_rule s input failed
                   | None => Ret created
                   end)
    (fun h' r => grows h h' /\ before 3 h' /\ match r with Ok ruleID => own_rule h' g ruleID | Err _ => True end)
    (Event (create_rule s g) r :: h)) as Hrest by (destruct r; exact Hrest).
  destruct (failure (fun ruleID => ruleID == "") created) as [failed|] eqn:Hf.
  - unfold reconcile_rule, bind_error. apply wp_bind.
    eapply wp_mono; [by apply find_groups_spec|]. intros h' [gs|e] (Hg' & Hbh & Hgs); apply wp_ret;
      (split_and!; [by etrans|done|]); [|done].
    destruct gs as [|g' [|]]; [by destruct failed| |done]. cbn [app].
    destruct (matchingTCPRules g' _) as [|rule [|]] eqn:Hm'; [by destruct failed| |done].
    left. exists g', rule. split_and!; [by left|done..].
  - apply wp_ret. split_and!; [done..|]. subst created. destruct r as [rule|e]; [|done]. right. exists s, rule.
    split_and!; [apply list_elem_of_here|done|]. simpl in Hf. by case_bool_decide.
Qed.

Lemma attach_spec s port g h :
  before 3 h -> own_group h g -> server_port h port ->
  guarded (attach_group s input port (securityGroup.ID g))
    (fun h' r => grows h h' /\ match r with
       | Ok port' => server_port h' port' /\ (attached port' g \/ exists s, answered h' (attach_port s port' g) (Ok tt))
       | Err _ => True
       end) h.
Proof.
  intros Hb Hg Hp. unfold attach_group. destruct (containsString _ _) eqn:Hc.
  { apply wp_ret. split_and!; [by intros e|done|by left]. }
  apply wp_bind. apply (wp_call_grows (attach_port s port g)).
  { right. exists s. right. right. exists port, g. split_and!; [done..|]. unfold attached. by rewrite Hc. }
  intros r Hgr. destruct r as [[]|e].
  - apply wp_ret. split_and!; [done|by eapply server_port_grows|]. right. exists s. apply list_elem_of_here.
  - unfold bind_error. apply wp_bind. eapply wp_mono; [apply (find_port_spec s 4), (before_change 4 3); [done|lia|done]|].
    intros h' [port'|e'] (Hg' & _ & Hp'); apply wp_ret; (split; [by etrans|]); [|done].
    destruct (containsString (networkPort.SecurityGroups port') _) eqn:Hc'; simpl; [|done].
    split; [done|by left].
Qed.

(** C33: exposing a port makes each change at most once and in order: it creates
    the group only after a listing showed none of this name and owner, the rule
    only in the group that is the exposure's own and shows no such rule, and
    attaches the group by adding it to the groups just read of the server's only
    port.  A policy it answers is made of what it saw or created itself. *)
Theorem ExposeManagedTCP_once :
  wp (fun _ _ _ => True) exposure_guard (Client_ExposeManagedTCP input)
    (fun h r => match r with Ok p => exposed h p | Err _ => True end) [].
Proof.
  unfold Client_ExposeManagedTCP. repeat (case_match; [by apply wp_ret|]).
  apply wp_bind_ok. unfold authentication. apply wp_call_grows; [by left|]. intros [s|e] _; [|done].
  apply wp_bind_ok. eapply wp_mono; [apply (find_port_spec s 1); by repeat constructor|].
  intros h1 [port|e] (_ & Hb1 & Hp); [|done].
  apply wp_bind_ok. eapply wp_mono; [by apply (find_groups_spec s 1)|].
  intros h2 [groups|e] (Hg2 & Hb2 & Hl); [|done].
  apply wp_bind_ok. eapply wp_mono; [by apply choose_group_spec|].
  intros h3 [g|e] (Hg3 & Hb3 & Hown); [|done].
  apply wp_bind_ok. eapply wp_mono; [by apply choose_rule_spec|].
  intros h4 [ruleID|e] (Hg4 & Hb4 & Hr); [|done].
  assert (server_port h4 port) as Hp4 by (eapply server_port_grows; [|exact Hp]; by do 2 (etrans; [eassumption|])).
  apply wp_bind_ok. eapply wp_mono; [apply attach_spec; [done|by eapply own_group_grows|done]|].
  intros h5 [port'|e] [Hg5 Ha]; [|done]. destruct Ha as [Hp5 Ha].
  apply wp_ret. exists g, port'. split_and!; try done.
  - eapply own_group_grows; [|exact Hown]. by etrans.
  - by eapply own_rule_grows.
Qed.
End Exposing.

(** ** Recovering an exposure

    A provider that answers each question in one way: what a program yields of
    it, and whether it asks only questions. *)
Section Frozen.
Context (provider : forall c, api_answer c).

Fixpoint value {A} (p : api A) : A := match p with Ret a => a | Call c k => value (k (provider c)) end.
Fixpoint reads_only {A} (p : api A) : Prop :=
  match p with Ret _ => True | Call c k => rank c = None /\ reads_only (k (provider c)) end.

Lemma value_bind {A B} (p : api A) (k : A -> api B) : value (p ≫= k) = value (k (value p)).
Proof. induction p as [a|c f IH]; simpl; [done|apply IH]. Qed.
Lemma reads_bind {A B} (p : api A) (k : A -> api B) : reads_only (p ≫= k) <-> reads_only p /\ reads_only (k (value p)).
Proof. induction p as [a|c f IH]; simpl; [naive_solver|]. specialize (IH (provider c)). naive_solver. Qed.

Lemma value_ok {A B} (p : api (result A)) (k : A -> api (result B)) :
  value (bind_ok p k) = match value p with Ok a => value (k a) | Err e => Err e end.
Proof. unfold bind_ok. rewrite value_bind. by destruct (value p). Qed.
Lemma reads_ok {A B} (p : api (result A)) (k : A -> api (result B)) :
  reads_only (bind_ok p k) <-> reads_only p /\ match value p with Ok a => reads_only (k a) | Err _ => True end.
Proof. unfold bind_ok. rewrite reads_bind. by destruct (value p). Qed.
Lemma value_call c : value (call c) = provider c.
Proof. done. Qed.
Lemma reads_call c : reads_only (call c) <-> rank c = None.
Proof. simpl. naive_solver. Qed.

(** Two programs that begin with the same question. *)
Lemma same_lookup {A B D} (q : api (result A)) (k : A -> api (result B)) (k' : A -> api (result D)) b d :
  reads_only q ->
  (forall a, value q = Ok a ->
     reads_only (k a) /\ (value (k a) = Ok b <-> value (k' a) = Ok d /\ reads_only (k' a))) ->
  reads_only (bind_ok q k) /\
  (value (bind_ok q k) = Ok b <-> value (bind_ok q k') = Ok d /\ reads_only (bind_ok q k')).
Proof.
  intros Hq Hk. rewrite !value_ok, !reads_ok. destruct (value q) as [a|e].
  - destruct (Hk a eq_refl) as [H1 H2]. rewrite H2. tauto.
  - split; [done|]. split; [done|by intros [? _]].
Qed.

Section Recovery.
Context `{Unicode} (input : ManagedTCPExposureRequest).

Lemma reads_find_port s serverID : reads_only (findServerPort s serverID).
Proof. unfold findServerPort. rewrite reads_ok. split; [done|]. by destruct (value _). Qed.
Lemma reads_find_groups s name description : reads_only (findSecurityGroups s name description).
Proof. unfold findSecurityGroups. rewrite reads_ok. split; [done|]. by destruct (value _). Qed.

(** Exposing a port after the lookups, when it changes nothing. *)
Lemma expose_unchanged s port groups p :
  let expose :=
    group ←! choose_group s input groups;
    ruleID ←! choose_rule s input group;
    port ←! attach_group s input port (securityGroup.ID group);
    Ret (Ok (SecurityPolicy.mk (securityGroup.ID group) (networkPort.ID port) ruleID
      (ManagedTCPExposureRequest.Port input))) in
  exposure_found input port groups = Ok (Some p) <-> value expose = Ok p /\ reads_only expose.
Proof.
  cbv zeta. rewrite value_ok, reads_ok. destruct groups as [|group [|? ?]]; cbn [choose_group value reads_only exposure_found].
  { rewrite reads_bind. split; [done|]. intros [_ [[Hr _] _]]. by apply reads_call in Hr. }
  2: { naive_solver. }
  rewrite value_ok, reads_ok. unfold choose_rule.
  destruct (matchingTCPRules group _) as [|rule [|? ?]] eqn:Hm; cbn [value reads_only].
  { rewrite reads_bind. split; [done|]. intros [_ [_ [[Hr _] _]]]. apply reads_ok in Hr as [Hr _].
    by apply reads_call in Hr. }
  2: { naive_solver. }
  rewrite value_ok, reads_ok. unfold attach_group.
  destruct (containsString _ _) eqn:Hc; cbn [negb value reads_only]; [naive_solver|].
  split; [done|]. intros (_ & _ & _ & Hr & _). apply reads_bind in Hr as [Hr _]. by apply reads_call in Hr.
Qed.

(** Looking an exposure up and making it agree: the lookup, which never
    changes anything, answers a policy exactly when exposing the port would
    answer that policy without changing anything. *)
Theorem exposure_recovery_exact p :
  reads_only (Client_FindManagedTCPExposure input) /\
  (value (Client_FindManagedTCPExposure input) = Ok (Some p) <->
   value (Client_ExposeManagedTCP input) = Ok p /\ reads_only (Client_ExposeManagedTCP input)).
Proof.
  unfold Client_FindManagedTCPExposure, Client_ExposeManagedTCP. rewrite <- orb_assoc.
  destruct (_ || (65535 <? _)); cbn [orb]; [split; [done|naive_solver]|].
  destruct ((TrimSpace _ == "") || _); [split; [done|naive_solver]|].
  apply same_lookup; [by split|]. intros s _.
  apply same_lookup; [apply reads_find_port|]. intros port _.
  apply same_lookup; [apply reads_find_groups|]. intros groups _.
  split; [done|]. apply expose_unchanged.
Qed.
End Recovery.
End Frozen.

(** ** Choosing a shape *)
Lemma shape_le_iff x y :
  shape_le x y <->
  Shape.Memory x < Shape.Memory y \/
  Shape.Memory x = Shape.Memory y /\
    (Shape.VCPU x < Shape.VCPU y \/ Shape.VCPU x = Shape.VCPU y /\ Shape.GB x <= Shape.GB y).
Proof. unfold shape_le, shape_less. repeat case_bool_decide; cbn [negb]; rewrite Z.ltb_ge; lia. Qed.

#[export] Instance shape_le_total : Total shape_le.
Proof. intros x y. rewrite !shape_le_iff. lia. Qed.
#[export] Instance shape_le_trans : Transitive shape_le.
Proof. intros x y z. rewrite !shape_le_iff. lia. Qed.

(** [ResolveSize] picks from the provider's flavors one that meets the targets
    and than which no other that meets them is smaller. *)
Theorem select_size_smallest vcpus memoryMiB diskGiB fs shape :
  select_size vcpus memoryMiB diskGiB (merge_sort shape_le (shapes fs)) = Ok shape ->
  shape ∈ shapes fs /\ meets vcpus memoryMiB diskGiB shape = true /\
  forall other, other ∈ shapes fs -> meets vcpus memoryMiB diskGiB other = true -> shape_less other shape = false.
Proof.
  unfold select_size. destruct (List.find _ _) as [x|] eqn:Hf; intros Hx; [injection Hx as <-|done].
  pose proof (merge_sort_Permutation shape_le (shapes fs)) as Hperm.
  pose proof (StronglySorted_merge_sort shape_le (shapes fs)) as Hsort.
  assert (forall y, y ∈ merge_sort shape_le (shapes fs) <-> y ∈ shapes fs) as Hin by (intros y; by rewrite Hperm).
  revert Hf Hsort Hin. generalize (merge_sort shape_le (shapes fs)) as l. clear Hperm.
  intros l Hf Hsort Hin. apply find_some in Hf as Hm. destruct Hm as [Hx Hm].
  split_and!; [by apply Hin, list_elem_of_In|done|]. intros other Ho Hmo. apply Hin in Ho. clear Hin Hx.
  induction Hsort as [|y l Hs IH Hle]; [done|]. simpl in Hf.
  destruct (meets _ _ _ y) eqn:Hy.
  - injection Hf as ->. apply elem_of_cons in Ho as [->|Ho]; [|rewrite Forall_forall in Hle; by apply Hle].
    apply shape_le_iff. lia.
  - apply elem_of_cons in Ho as [->|Ho]; [congruence|]. by apply IH.
Qed.

Section Choosing.
Context `{Unicode}.

(** The shape is the smallest the provider lists, the image active and of the
    wanted name, and the networks are usable, at least one. *)
Theorem ResolveSize_smallest vcpus memoryMiB diskGiB imageAlias h :
  wp (fun _ _ _ => True) (fun _ c => rank c = None) (Client_ResolveSize vcpus memoryMiB diskGiB imageAlias)
    (fun h' r => match r with
       | Ok (shape, imageID, networkIDs) =>
           exists s fs imgs nets img,
             answered h' (Request "GET" (session.ComputeURL s +:+ "/flavors/detail") None (Some RFlavors)) (Ok fs) /\
             select_size vcpus memoryMiB diskGiB (merge_sort shape_le (shapes fs)) = Ok shape /\
             answered h' (Request "GET" (session.ImageURL s +:+ "/v2/images?limit=100") None (Some RImages)) (Ok imgs) /\
             img ∈ imgs /\ image_matches (normalizeImage imageAlias) img = true /\ imageID = image.ID img /\
             answered h' (Request "GET" (session.NetworkURL s +:+ "/v2.0/networks") None (Some RNetworks)) (Ok nets) /\
             networkIDs <> [] /\
             forall id, id ∈ networkIDs -> exists n, n ∈ nets /\ usable_network n = true /\ id = network.ID n
       | Err _ => True
       end) h.
Proof.
  unfold Client_ResolveSize. destruct (_ || (diskGiB <? 1)); [by apply wp_ret|]. unfold resolveShape, get.
  apply wp_bind_ok. unfold authentication. wp_ask. destruct a as [s|e]; [|done].
  apply wp_bind_ok. wp_ask. destruct a as [fs|e]; [|done].
  apply wp_bind_ok. destruct (select_size _ _ _ _) as [shape|e] eqn:Hsel; apply wp_ret; [|done].
  apply wp_bind_ok. wp_ask. destruct a as [imgs|e]; [|done].
  destruct (List.find _ _) as [img|] eqn:Himg; [|by apply wp_ret].
  case_bool_decide; [by apply wp_ret|].
  apply wp_bind_ok. wp_ask. destruct a as [nets|e]; [|done].
  destruct (_ =? 0)%nat eqn:Hn; apply wp_ret; [done|].
  apply find_some in Himg as [Hin Hm]. apply list_elem_of_In in Hin.
  exists s, fs, imgs, nets, img. unfold answered.
  split_and!; try (repeat (first [apply list_elem_of_here|apply list_elem_of_further])); try done.
  - intros Hnil. by rewrite Hnil in Hn.
  - intros id (n & -> & Hid)%list_elem_of_fmap. exists n. apply list_elem_of_In, List.filter_In in Hid as [Hid Hu].
    split_and!; [|done..]. by rewrite <- (merge_sort_Permutation (by_key network.Name) nets), list_elem_of_In.
Qed.
End Choosing.

(** ** Servers and policies *)
(** The lookup by creation intent finds the server that was created for it, if
    the provider keeps the name and metadata it was given. *)
Lemma managed_server_found input server :
  ManagedServerRequest.OperationID input <> "" ->
  Server.Name server = ManagedServerRequest.Name input ->
  Server.Metadata server = list_to_map (managed_metadata input) ->
  owned_server (ManagedServerRequest.Sandbox input) (ManagedServerRequest.OperationID input)
    (ManagedServerRequest.Name input) server = true.
Proof.
  intros Hop Hname Hmeta. unfold owned_server, metadata. rewrite Hname, Hmeta. unfold managed_metadata.
  rewrite (bool_decide_false _ Hop). cbn [negb app list_to_map foldr]. simplify_map_eq.
  by rewrite !bool_decide_true by (by simplify_map_eq).
Qed.

Definition is_delete (c : api_call) : bool :=
  match c with Request method _ _ _ => method == "DELETE" | SendDelete _ _ => true | _ => false end.
Definition deletions (h : list (event api_answer)) : nat := length (List.filter (fun e => is_delete (ev_call e)) h).

(** Deleting a policy asks at most so many times, and answers success only when
    the provider deleted it or does not know it. *)
Lemma delete_policy_bounded attempts url last h :
  wp (fun _ _ _ => True) (fun _ _ => True) (delete_policy attempts url last)
    (fun h' r => (deletions h' <= deletions h + attempts)%nat /\
       (r = Ok tt -> attempts = 0%nat /\ last = Ok tt \/
          exists answer, answered h' (Request "DELETE" url None None) answer /\
            (answer = Ok tt \/ exists e, answer = Err e /\ isHTTPStatus e 404 = true))) h.
Proof.
  revert last h. induction attempts as [|n IH]; intros last h; cbn [delete_policy].
  { apply wp_ret. split; [lia|]. by left. }
  apply wp_bind. wp_ask. set (h1 := _ :: h).
  assert (deletions h1 = S (deletions h)) as Hd by done.
  assert (answered h1 (Request "DELETE" url None None) a) as Ha by apply list_elem_of_here.
  clearbody h1. destruct a as [[]|e].
  { apply wp_ret. split; [lia|]. intros _. right. eexists. split; [exact Ha|]. by left. }
  destruct (isHTTPStatus e 404) eqn:H404.
  { apply wp_ret. split; [lia|]. intros _. right. eexists. split; [exact Ha|]. right. by exists e. }
  destruct (negb _); [by apply wp_ret; split; [lia|]|].
  apply wp_bind. wp_ask. set (h2 := _ :: h1). assert (deletions h2 = deletions h1) as Hd2 by done.
  destruct a; [by apply wp_ret; split; [lia|]|..];
    (eapply wp_mono; [apply IH|]; intros h' r [Hle Hr]; split; [lia|]; intros Hok;
     destruct (Hr Hok) as [[_ ?]|Hans]; [done|by right]).
Qed.

(** ** Witness: a server is deleted by one thread while another looks it up *)
Module Demo.

#[local] Instance demo_standard : Standard := {|
  url_Parse raw := if HasPrefix raw "https://" then Some (MkURL "https" "cloud" None "" "" "cloud" "") else None;
  loopback_IP _ := false;
  Unmarshal k data :=
    match k as k return result (reply k) with
    | RToken =>
        Ok (TokenBody (100 * Minute)
          [CatalogService "compute" [CatalogEndpoint "public" "r1" "https://cloud/compute/";
                                     CatalogEndpoint "public" "r1" "ftp://elsewhere"];
           CatalogService "image" [CatalogEndpoint "public" "r1" "https://cloud/image"];
           CatalogService "network" [CatalogEndpoint "public" "r1" "https://cloud/network"]])
    | RServer => Ok (demo_server "canter-demo-1")
    | _ => Err (External "not json")
    end
|}.

Definition demo_config : config.config := config.mk "https://identity/" "user" "secret" "project" "domain" "r1".

(** The clock counts; the identity service answers 201, anything else 204 or 200. *)
Definition demo_world (t : Z) (c : http_call) : http_answer c * Z :=
  match c as c return http_answer c * Z with
  | Clock => (t, t + 1)
  | GetSession => (session.zero, t)
  | SetSession _ => (tt, t)
  | Do r =>
      (Ok (HTTPResponse (if rq_URL r == auth_url demo_config then 201 else if rq_Method r == "DELETE" then 204 else 200)
             "token-1" ("{}", None)), t)
  | Sleep => (WTick, t)
  end.

Definition demo_threads : list (thread http_answer unit) :=
  (fun op => Thread (over_http demo_config (op_program op)) []) <$> [OpDelete "srv-1"; OpServer "srv-1"].

Definition demo_pool : list (thread http_answer unit) * (session * Z) :=
  fold_left (pool_exec (client_handler demo_world)) [0; 1; 0; 0; 1; 1; 0; 1; 1; 1]%nat (demo_threads, (session.zero, 0)).

End Demo.

Lemma requests_confined_witness :
  let '(ts, (s, w)) := Demo.demo_pool in
  session.ComputeURL s = "https://cloud/compute" /\
  (exists t, t ∈ ts /\ Event (R := http_answer) (Do (HTTPRequest "DELETE" "https://cloud/compute/servers/srv-1"
     [("X-Auth-Token", "token-1")] None)) (Ok (HTTPResponse 204 "token-1" ("{}", None))) ∈ th_history t) /\
  (session.Token s = "" \/ good_session (H0 := Demo.demo_standard) Demo.demo_config (answered_login Demo.demo_config ts) s).
Proof.
  destruct Demo.demo_pool as [ts [s w]] eqn:E. split_and!.
  - change s with (ts, (s, w)).2.1. rewrite <- E. vm_compute. reflexivity.
  - change ts with (ts, (s, w)).1. rewrite <- E. eexists. split; [apply list_elem_of_here|].
    vm_compute. repeat (first [apply list_elem_of_here|apply list_elem_of_further]).
  - apply (requests_confined (H0 := Demo.demo_standard) Demo.demo_config Demo.demo_world
             [OpDelete "srv-1"; OpServer "srv-1"] 0 ts s w).
    rewrite <- E. apply pool_exec_steps.
Defined.
