(* ===== verification/MeteringTheorems.v ===== *)
(** * Theorems on metering

    What the ledger charges for what was metered: a specification of one
    resource's meter, and that the transactions of [Metering] keep to it. *)

From S2P Require Import Prelude GoStrings Documents Calls Admission Rows Tables Metering.
#[local] Open Scope Z_scope.

(** ** The meter *)
(** What the ledger was told: accepted snapshots, and samples dropped. *)
Inductive meter_event : Type :=
  | Observed (workspace : string) (resources : list BillingResource) (at_ : Z)
  | Dropped (workspace : string).

(** The specification of one resource's meter: its last reading, and what is
    owed in all, in units of [rate]: every interval between two consecutive
    readings at most five minutes apart costs its whole seconds at the smaller
    of the two readings. *)
Record meter : Type := Meter { last_reading : option (Z * Z); owed : Z }.

Definition owed_between (r : BillingResource) (t0 u0 at_ : Z) : Z :=
  if at_ - t0 <=? 5 * Minute then Z.min u0 (BillingResource.Units r) * ((at_ - t0) / Second) * (rate (BillingResource.Kind r)).1 else 0.

Definition observe (at_ : Z) (m : meter) (r : BillingResource) : meter :=
  match last_reading m with
  | Some (t0, u0) =>
      if t0 <? at_ then Meter (Some (micros at_, BillingResource.Units r)) (owed m + owed_between r t0 u0 at_) else m
  | None => Meter (Some (micros at_, BillingResource.Units r)) (owed m)
  end.

Definition meter_step (workspace id : string) (m : meter) (e : meter_event) : meter :=
  match e with
  | Observed w resources at_ =>
      if w == workspace then
        match List.filter (fun r => BillingResource.ID r == id) resources with
        | [] => Meter None (owed m)
        | readings => fold_left (observe at_) readings m
        end
      else m
  | Dropped w => if w == workspace then Meter None (owed m) else m
  end.
Definition metered (workspace id : string) (h : list meter_event) : meter := fold_left (meter_step workspace id) h (Meter None 0).

(** ** The transactions of the ledger *)
Inductive billing_op : Type :=
  | OpRecord (e : BillingUsageEvent) (t1 t2 created : Z)
  | OpSnapshot (workspace : string) (resources : list BillingResource) (at_ created : Z)
  | OpDrop (workspace : string)
  | OpIssue (workspace issue : string) (now : Z)
  | OpUncertain (now : Z)
  | OpPick (locked : list string) (now : Z)
  | OpSent (id : string) (now : Z)
  | OpWebhook (id : string)
  | OpInvoice (id : string) (i : invoice_row)
  | OpCancel (workspace : string)
  | OpSubscribe (workspace subscription plan status : string) (start stop : Z) (cancel : bool)
  | OpClear (workspace : string)
  | OpOpen (workspace : string)
  | OpLink (workspace customer : string)
  | OpCheckout (workspace customer id url plan : string) (expires attempt : Z)
  | OpAttempt (workspace : string).

Definition or_unchanged (r : result billing_db) (db : billing_db) : billing_db := match r with Ok db' => db' | Err _ => db end.

Section Run.
Context (numeric_floor : Z -> Z -> Z).

(** What the meter is told, and the tables. *)
Definition billing_step (st : list meter_event * billing_db) (op : billing_op) : list meter_event * billing_db :=
  let '(h, db) := st in
  match op with
  | OpRecord e t1 t2 created => (h, (RecordBillingUsage e t1 t2 created db).2)
  | OpSnapshot w resources at_ created =>
      match recordResourceSnapshot numeric_floor w resources at_ created db with
      | (Ok _, db') => (h ++ [Observed w resources at_], db')
      | (Err _, db') => (h, db')
      end
  | OpDrop w => (h ++ [Dropped w], drop_samples w db)
  | OpIssue w issue now => (h, note_issue w issue now db)
  | OpUncertain now => (h, mark_uncertain now db)
  | OpPick locked now => (h, (pick_usage locked now db).2)
  | OpSent id now => (h, mark_sent id now db)
  | OpWebhook id => (h, (insert_webhook id db).2)
  | OpInvoice id i => (h, insert_invoice id i db)
  | OpCancel w => (h, or_unchanged (update_billing w canceled_billing db) db)
  | OpSubscribe w subscription plan status start stop cancel =>
      (h, or_unchanged (update_billing w (subscribed_billing subscription plan status start stop cancel) db) db)
  | OpClear w =>
      match billings db !! w with
      | Some b => if billing_row.Status b != "active" then (h ++ [Dropped w], clear_inactive_samples w db) else (h, db)
      | None => (h, db)
      end
  | OpOpen w => (h, insert_billing w db)
  | OpLink w customer => (h, or_unchanged (update_billing w (linked_billing customer) db) db)
  | OpCheckout w customer id url plan expires attempt =>
      (h, or_unchanged (update_billing w (saved_checkout customer id url plan expires attempt) db) db)
  | OpAttempt w => (h, or_unchanged (update_billing w counted_attempt db) db)
  end.
Definition billing_run (ops : list billing_op) (st : list meter_event * billing_db) : list meter_event * billing_db :=
  fold_left billing_step ops st.
End Run.

(** The kind of a resource is in its identifier (sdk/billing.go, sdk/vps.go). *)
Definition metered_kind (id : string) : string := if HasPrefix id "storage/" then "storage" else "compute".
Definition well_kinded (r : BillingResource) : Prop := BillingResource.Kind r = metered_kind (BillingResource.ID r).

(** The collector's rate version is its own. *)
Definition ledger_op (op : billing_op) : Prop :=
  match op with
  | OpRecord e _ _ _ => BillingUsageEvent.RateVersion e <> resourceRateVersion
  | OpSnapshot _ resources _ _ => Forall well_kinded resources
  | _ => True
  end.

(** What the ledger charges for a resource. *)
Definition charge_of (workspace id : string) (u : usage_row) : Z :=
  if (usage_row.WorkspaceID u == workspace) && (usage_row.Resource u == id) && (usage_row.RateVersion u == resourceRateVersion)
  then usage_row.AmountCents u else 0.
Definition charged (workspace id : string) (db : billing_db) : Z := sum_by (charge_of workspace id) (usage db).
Definition remainder_of (workspace id : string) (db : billing_db) : Z :=
  match samples db !! (workspace, id) with Some s => sample_row.Remainder s | None => 0 end.
Definition denominator_of (id : string) : Z := (rate (metered_kind id)).2.

Definition reading (s : sample_row) : Z * Z := (sample_row.ObservedAt s, sample_row.Units s).
Definition sample_ok (s : sample_row) : Prop := 0 <= sample_row.Units s /\ 0 <= sample_row.Remainder s.

Definition tracked (workspace id : string) (m : meter) (db : billing_db) : Prop :=
  reading <$> samples db !! (workspace, id) = last_reading m /\
  denominator_of id * charged workspace id db + remainder_of workspace id db <= owed m.
Definition samples_ok (db : billing_db) : Prop := map_Forall (fun _ s => sample_ok s) (samples db).

Lemma denominator_pos id : 0 < denominator_of id.
Proof. unfold denominator_of, rate. by destruct (_ == _). Qed.
Lemma numerator_pos kind : 0 < (rate kind).1.
Proof. unfold rate. by destruct (_ == _). Qed.

Lemma rate_pos kind : 0 < (rate kind).2.
Proof. unfold rate. by destruct (_ == _). Qed.

Lemma short_seconds t : 0 <= t <= 5 * Minute -> div64 t Second = t / Second.
Proof.
  intros Ht. unfold div64. rewrite Z.quot_div_nonneg by (unfold Second; lia). apply i64_id. unfold Minute, Second in *.
  assert (0 <= t / 10 ^ 9 <= t) by (split; [apply Z.div_pos; lia|apply Z.div_le_upper_bound; lia]). unfold int_range, min_int, max_int. lia.
Qed.

(** A database that rounds quotients to some scale before it floors them: it may
    find the next integer, never a smaller one. *)
Definition rounded_floor (numeric_floor : Z -> Z -> Z) : Prop := forall a d, 0 <= a -> 0 < d -> a / d <= numeric_floor a d.

Section Snapshots.
Context (numeric_floor : Z -> Z -> Z) (workspace customer subscription : string) (start at_ created : Z).

(** What charging a reading does: cents are moved from the remainder to the ledger, exactly. *)
Lemma charge_resource_spec r s db db' :
  charge_resource numeric_floor workspace customer subscription at_ created r s db = Ok db' ->
  sample_row.ObservedAt s < at_ <= sample_row.ObservedAt s + 5 * Minute ->
  exists cents remainder,
    0 <= cents /\ 0 <= remainder /\ (rounded_floor numeric_floor -> remainder < (rate (BillingResource.Kind r)).2) /\
    (rate (BillingResource.Kind r)).2 * cents + remainder =
      sample_row.Remainder s + Z.min (sample_row.Units s) (BillingResource.Units r) * ((at_ - sample_row.ObservedAt s) / Second) * (rate (BillingResource.Kind r)).1 /\
    db' = with_samples (<[(workspace, BillingResource.ID r) := sample_row.with_Remainder remainder s]> (samples db))
            (with_usage (usage db ++ (if 0 <? cents then
               [usage_row.mk (usage_id workspace subscription at_ (BillingResource.ID r) (sample_row.ObservedAt s)) workspace customer
                  subscription cents (BillingResource.ID r) resourceRateVersion (micros (at_ - Second)) created None None false] else [])) db).
Proof.
  unfold charge_resource. pose proof (rate_pos (BillingResource.Kind r)) as Hd.
  destruct (rate (BillingResource.Kind r)) as [n d] eqn:Er. cbn [fst snd] in *. intros Hc Ht.
  rewrite short_seconds in Hc by lia.
  set (rem := _ + _ * _ * n) in *. set (cents := numeric_floor rem d) in *.
  destruct (rem <? 0) eqn:E1; [done|].
  assert (rounded_floor numeric_floor -> rem / d <= cents) as Hexact by (intros He; apply He; lia). destruct (in_bigint cents); [|done]. cbn [negb] in Hc.
  destruct (0 <? cents) eqn:E2.
  - destruct ((100000000 <? cents) || (rem - cents * d <? 0)) eqn:E3; [done|].
    destruct (existsb _ _); [done|]. injection Hc as <-. apply orb_false_iff in E3 as [_ E3].
    exists cents, (rem - cents * d). rewrite E2. split_and!; [lia|lia| |lia|done].
    intros He%Hexact. pose proof (Z.mod_pos_bound rem d ltac:(lia)). pose proof (Z.div_mod rem d ltac:(lia)). nia.
  - injection Hc as <-. exists 0, rem. rewrite Z.ltb_irrefl, app_nil_r. split_and!; [lia|lia| |lia|by destruct db].
    intros He%Hexact. pose proof (Z.mod_pos_bound rem d ltac:(lia)). pose proof (Z.div_mod rem d ltac:(lia)). nia.
Qed.

(** What a reading leaves: the new sample, and what was charged. *)
Definition read_resource (r : BillingResource) (cents remainder : Z) (db db' : billing_db) : Prop :=
  exists l,
    db' = with_samples (<[(workspace, BillingResource.ID r) :=
            sample_row.mk subscription start (micros at_) (BillingResource.Units r) remainder]> (samples db))
            (with_usage (usage db ++ l) db) /\
    0 <= cents /\ 0 <= remainder /\ 0 <= BillingResource.Units r /\
    (forall w id, sum_by (charge_of w id) l = if (w == workspace) && (BillingResource.ID r == id) then cents else 0).

Lemma store_sample_spec r keep db db' :
  store_sample workspace subscription start at_ r keep db = Ok db' -> samples_ok db ->
  read_resource r 0 (if keep then remainder_of workspace (BillingResource.ID r) db else 0) db db'.
Proof.
  unfold store_sample, remainder_of. destruct (_ <? 0) eqn:E; [done|]. intros [= <-] Hok. exists []. rewrite app_nil_r.
  split_and!; [|lia| |lia|intros; by destruct (_ && _)].
  - destruct db; unfold with_samples, with_usage; cbn. destruct (_ !! _); by destruct keep.
  - destruct (samples db !! _) as [s|] eqn:Es; [|by destruct keep]. destruct keep; [|lia]. by apply (Hok _ _ Es).
Qed.

Lemma charge_of_new w id resource previous cents r :
  resource = BillingResource.ID r ->
  charge_of w id (usage_row.mk (usage_id workspace subscription at_ resource previous) workspace customer subscription cents resource
                    resourceRateVersion (micros (at_ - Second)) created None None false) =
  if (w == workspace) && (BillingResource.ID r == id) then cents else 0.
Proof.
  intros ->. unfold charge_of. cbn. rewrite (bool_decide_ext (workspace = w) (w = workspace)) by done.
  by rewrite (bool_decide_true (resourceRateVersion = _)), andb_true_r by done.
Qed.

Lemma read_resource_charged r s db db' cents remainder keep db2 :
  db' = with_samples (<[(workspace, BillingResource.ID r) := sample_row.with_Remainder remainder s]> (samples db))
          (with_usage (usage db ++ (if 0 <? cents then
             [usage_row.mk (usage_id workspace subscription at_ (BillingResource.ID r) (sample_row.ObservedAt s)) workspace customer
                subscription cents (BillingResource.ID r) resourceRateVersion (micros (at_ - Second)) created None None false] else [])) db) ->
  0 <= cents -> 0 <= remainder -> store_sample workspace subscription start at_ r keep db' = Ok db2 ->
  read_resource r cents (if keep then remainder else 0) db db2.
Proof.
  intros -> Hc Hr. unfold store_sample. destruct (_ <? 0) eqn:E; [done|]. cbn [samples with_samples]. rewrite lookup_insert_eq.
  intros [= <-]. eexists (if 0 <? cents then [_] else []). split_and!; [|lia|by destruct keep; lia|lia|].
  - unfold with_samples, with_usage; cbn [billings usage samples collections invoices webhooks]. by rewrite insert_insert_eq.
  - intros w id. destruct (0 <? cents) eqn:E0; cbn [sum_by].
    + rewrite (charge_of_new _ _ _ _ _ r) by done. destruct (_ && _); lia.
    + destruct (_ && _); lia.
Qed.

Definition first_reading (r : BillingResource) (db db' : billing_db) : Prop :=
  samples db !! (workspace, BillingResource.ID r) = None /\ read_resource r 0 0 db db'.
Definition later_reading (r : BillingResource) (db db' : billing_db) : Prop :=
  exists s, samples db !! (workspace, BillingResource.ID r) = Some s /\
    if sample_row.ObservedAt s <? at_ then
      exists cents remainder, read_resource r cents remainder db db' /\
        (rate (BillingResource.Kind r)).2 * cents + remainder <=
          sample_row.Remainder s + owed_between r (sample_row.ObservedAt s) (sample_row.Units s) at_ /\
        (chargeable subscription start at_ s = true ->
           (rate (BillingResource.Kind r)).2 * cents + remainder =
             sample_row.Remainder s + owed_between r (sample_row.ObservedAt s) (sample_row.Units s) at_ /\
           (rounded_floor numeric_floor -> remainder < (rate (BillingResource.Kind r)).2))
    else db' = db.

Lemma snapshot_resource_spec r db db' :
  snapshot_resource numeric_floor workspace customer subscription start at_ created (Ok db) r = Ok db' -> samples_ok db ->
  first_reading r db db' \/ later_reading r db db'.
Proof.
  unfold snapshot_resource, first_reading, later_reading. cbn [mbind result_bind]. intros Hs Hok.
  destruct (samples db !! _) as [s|] eqn:Es.
  2:{ left. split; [done|]. by apply store_sample_spec in Hs. }
  right. exists s. split; [done|]. destruct (Hok _ _ Es) as [Hu Hrem]. destruct (_ <? at_) eqn:Et; cbn [negb] in Hs; [|congruence].
  assert (0 <= owed_between r (sample_row.ObservedAt s) (sample_row.Units s) at_ \/ BillingResource.Units r < 0) as Hpos.
  { unfold owed_between. destruct (_ <=? _); [|lia]. destruct (Z_lt_dec (BillingResource.Units r) 0); [by right|left].
    pose proof (numerator_pos (BillingResource.Kind r)). assert (0 <= (at_ - sample_row.ObservedAt s) / Second) by (apply Z.div_pos; unfold Second; lia).
    assert (0 <= Z.min (sample_row.Units s) (BillingResource.Units r)) by lia. nia. }
  destruct (chargeable subscription start at_ s) eqn:Ec.
  - destruct (charge_resource _ _ _ _ _ _ _ _ _) as [db1|] eqn:E1; [|done]. cbn in Hs.
    assert (sample_row.ObservedAt s < at_ <= sample_row.ObservedAt s + 5 * Minute) as Hat.
    { unfold chargeable in Ec. bool_inv. lia. }
    apply charge_resource_spec in E1 as (cents & rem & Hc & Hr & Hf & He & ->); [|done].
    unfold chargeable in Ec. apply andb_true_iff in Ec as [[Esame _]%andb_true_iff _]. rewrite Esame in Hs.
    exists cents, rem. split; [by eapply (read_resource_charged r s db _ cents rem true)|].
    unfold owed_between. destruct (_ <=? _) eqn:E5; [|lia]. split; [lia|intros _; split; [lia|done]].
  - cbn in Hs. pose proof Hs as Hs'. apply store_sample_spec in Hs; [|done]. exists 0. eexists. split; [exact Hs|]. split; [|done].
    unfold store_sample in Hs'. destruct (BillingResource.Units r <? 0) eqn:E0; [done|].
    unfold remainder_of. rewrite Es. destruct (same_period subscription start s); lia.
Qed.
End Snapshots.

(** ** Every transaction keeps every meter *)
Definition observe_if (workspace w id : string) (at_ : Z) (m : meter) (r : BillingResource) : meter :=
  if (w == workspace) && (BillingResource.ID r == id) then observe at_ m r else m.

Lemma observe_first at_ m r : last_reading m = None -> observe at_ m r = Meter (Some (micros at_, BillingResource.Units r)) (owed m).
Proof. unfold observe. by intros ->. Qed.
Lemma observe_stale at_ m r s : last_reading m = Some (reading s) -> at_ <= sample_row.ObservedAt s -> observe at_ m r = m.
Proof. unfold observe, reading. intros -> Ht. destruct (_ <? _) eqn:E; [lia|done]. Qed.
Lemma observe_later at_ m r s :
  last_reading m = Some (reading s) -> sample_row.ObservedAt s < at_ ->
  observe at_ m r = Meter (Some (micros at_, BillingResource.Units r))
                      (owed m + owed_between r (sample_row.ObservedAt s) (sample_row.Units s) at_).
Proof. unfold observe, reading. intros -> Ht. destruct (_ <? _) eqn:E; [done|lia]. Qed.

Lemma observe_if_fold workspace id at_ l m :
  fold_left (observe_if workspace workspace id at_) l m = fold_left (observe at_) (List.filter (fun r => BillingResource.ID r == id) l) m.
Proof.
  revert m. induction l as [|r l IH]; intros m; [done|]. cbn [fold_left List.filter].
  unfold observe_if at 2. rewrite (bool_decide_true (workspace = workspace)) by done. cbn [andb]. destruct (_ == id); apply IH.
Qed.

Lemma observe_if_other workspace w id at_ l m : w <> workspace -> fold_left (observe_if workspace w id at_) l m = m.
Proof. intros Hw. induction l; [done|]. cbn [fold_left]. unfold observe_if at 2. by rewrite bool_decide_false. Qed.

Section Tracked.
Context (numeric_floor : Z -> Z -> Z) (workspace customer subscription : string) (start at_ created : Z).
Let read_resource := read_resource workspace subscription start at_.

Lemma read_charged w id r cents rem db db' :
  read_resource r cents rem db db' ->
  charged w id db' = charged w id db + (if (w == workspace) && (BillingResource.ID r == id) then cents else 0).
Proof.
  intros (l & -> & _ & _ & _ & Hl). unfold charged. cbn [usage with_usage with_samples]. by rewrite sum_by_app, Hl.
Qed.

Lemma read_samples w id r cents rem db db' :
  read_resource r cents rem db db' ->
  samples db' !! (w, id) =
    if (w == workspace) && (BillingResource.ID r == id)
    then Some (sample_row.mk subscription start (micros at_) (BillingResource.Units r) rem) else samples db !! (w, id).
Proof.
  intros (l & -> & _). cbn [samples with_samples]. destruct (_ && _) eqn:E; bool_inv; subst.
  - by rewrite lookup_insert_eq.
  - rewrite lookup_insert_ne; [done|]. intros [= <- <-]. by rewrite !bool_decide_true in E by done.
Qed.

Lemma read_samples_ok r cents rem db db' : read_resource r cents rem db db' -> samples_ok db -> samples_ok db'.
Proof.
  intros (l & -> & Hc & Hr & Hu & _) Hok. unfold samples_ok. cbn [samples with_samples]. by apply map_Forall_insert_2.
Qed.

Lemma snapshot_resource_tracked w id m r db db' :
  snapshot_resource numeric_floor workspace customer subscription start at_ created (Ok db) r = Ok db' ->
  well_kinded r -> samples_ok db -> tracked w id m db -> samples_ok db' /\ tracked w id (observe_if workspace w id at_ m r) db'.
Proof.
  intros Hs Hk Hok [Hr Ho]. apply snapshot_resource_spec in Hs as [[Hn Hread]|(s & Es & Hread)]; [..|done].
  - split; [by eapply read_samples_ok|]. unfold tracked, remainder_of. rewrite (read_charged w id _ _ _ _ _ Hread), (read_samples w id _ _ _ _ _ Hread).
    unfold observe_if. destruct (_ && _) eqn:E; bool_inv; subst; [|by rewrite Z.add_0_r].
    unfold remainder_of in Ho. rewrite Hn in Hr, Ho. rewrite observe_first by (by rewrite <- Hr). split; [done|]. cbn [owed sample_row.Remainder]. lia.
  - destruct (sample_row.ObservedAt s <? at_) eqn:Et.
    2:{ subst db'. split; [done|]. unfold observe_if. destruct (_ && _) eqn:E; [|done]. bool_inv. subst.
        rewrite (observe_stale _ _ _ s); [done|by rewrite <- Hr, Es|done]. }
    destruct Hread as (cents & rem & Hread & Hle & _). split; [by eapply read_samples_ok|].
    unfold tracked, remainder_of. rewrite (read_charged w id _ _ _ _ _ Hread), (read_samples w id _ _ _ _ _ Hread).
    unfold observe_if. destruct (_ && _) eqn:E; bool_inv; subst; [|by rewrite Z.add_0_r].
    unfold remainder_of in Ho. rewrite Es in Hr, Ho. rewrite (observe_later _ _ _ s) by (lia || by rewrite <- Hr). split; [done|].
    cbn [owed sample_row.Remainder]. unfold denominator_of in *. rewrite <- Hk in *. lia.
Qed.

Lemma snapshot_fold_tracked w id m l db db' :
  fold_left (snapshot_resource numeric_floor workspace customer subscription start at_ created) l (Ok db) = Ok db' ->
  Forall well_kinded l -> samples_ok db -> tracked w id m db ->
  samples_ok db' /\ tracked w id (fold_left (observe_if workspace w id at_) l m) db'.
Proof.
  revert m db. induction l as [|r l IH]; intros m db; cbn [fold_left]; [by intros [= <-]|].
  intros Hf [Hr Hl]%Forall_cons Hok Ht. destruct (snapshot_resource _ _ _ _ _ _ _ _ r) as [db1|e] eqn:E1.
  - apply (snapshot_resource_tracked w id m) in E1 as [Hok1 Ht1]; [|done..]. by apply (IH _ db1).
  - exfalso. clear -Hf. induction l as [|r' l IHl]; cbn in Hf; [done|auto].
Qed.
End Tracked.

(** *** The other transactions *)
(** The meters see only the samples and the charges. *)
Lemma tracked_same w id m db db' :
  samples db' = samples db -> charged w id db' = charged w id db -> samples_ok db -> tracked w id m db ->
  samples_ok db' /\ tracked w id m db'.
Proof. intros Hs Hc Hok Ht. unfold samples_ok, tracked, remainder_of in *. by rewrite Hs, Hc. Qed.

Lemma update_billing_same w f db : samples (or_unchanged (update_billing w f db) db) = samples db /\ usage (or_unchanged (update_billing w f db) db) = usage db.
Proof. unfold update_billing. destruct (billings db !! w); [|done]. by destruct (unique_billing _ _ _). Qed.

Lemma record_same w id e t1 t2 created db :
  BillingUsageEvent.RateVersion e <> resourceRateVersion ->
  samples (RecordBillingUsage e t1 t2 created db).2 = samples db /\ charged w id (RecordBillingUsage e t1 t2 created db).2 = charged w id db.
Proof.
  intros He. unfold RecordBillingUsage. destruct (valid_usage _ _ _); [|done]. cbn [negb].
  destruct (billings db !! _); [|done]. destruct (find_usage _ _); [done|]. destruct (charged_period _ _) as [[[]]|]; [|done].
  split; [done|]. unfold charged. cbn [snd usage with_usage]. rewrite sum_by_app. cbn [sum_by]. unfold charge_of at 2. cbn [usage_row.RateVersion].
  rewrite (bool_decide_false (BillingUsageEvent.RateVersion e = _)), andb_false_r by done. lia.
Qed.

Lemma pick_same w id locked t db :
  samples (pick_usage locked t db).2 = samples db /\ charged w id (pick_usage locked t db).2 = charged w id db.
Proof. unfold pick_usage. destruct (oldest_usage _); [|done]. split; [done|]. unfold charged. cbn. by apply sum_update. Qed.

Section Filtered.
Context (P : (string * string) * sample_row -> Prop) `{!forall kv, Decision (P kv)} (db : billing_db).

Lemma filter_samples k : filter P (samples db) !! k = match samples db !! k with Some s => if decide (P (k, s)) then Some s else None | None => None end.
Proof.
  destruct (samples db !! k) as [s|] eqn:Es; [|apply map_lookup_filter_None; by left]. case_decide.
  - by apply map_lookup_filter_Some.
  - apply map_lookup_filter_None. right. intros s' Hs'. congruence.
Qed.

(** Dropping samples forgets readings and waives remainders. *)
Lemma filter_tracked w id m :
  samples_ok db -> tracked w id m db ->
  samples_ok (with_samples (filter P (samples db)) db) /\
  ((forall s, samples db !! (w, id) = Some s -> P (w, id, s)) -> tracked w id m (with_samples (filter P (samples db)) db)) /\
  ((forall s, ~ P (w, id, s)) -> tracked w id (Meter None (owed m)) (with_samples (filter P (samples db)) db)).
Proof.
  intros Hok [Hr Ho]. unfold samples_ok, tracked, remainder_of, charged in *. cbn [samples with_samples usage].
  rewrite filter_samples. split_and!.
  - intros k s. rewrite filter_samples. destruct (samples db !! k) eqn:Ek; [|done]. case_decide; [|done]. intros [= <-]. by apply (Hok k).
  - intros HP. destruct (samples db !! (w, id)) as [s|]; [|done]. rewrite decide_True by auto. done.
  - intros HP. destruct (samples db !! (w, id)) as [s|] eqn:Es; [|done]. rewrite decide_False by auto.
    pose proof (Hok _ _ Es) as [_ Hs]. cbn [last_reading owed]. split; [done|]. lia.
Qed.
End Filtered.

Lemma drop_tracked workspace w id m db :
  samples_ok db -> tracked w id m db ->
  samples_ok (drop_samples workspace db) /\ tracked w id (meter_step w id m (Dropped workspace)) (drop_samples workspace db).
Proof.
  intros Hok Ht. destruct (filter_tracked (fun kv => kv.1.1 <> workspace) db w id m Hok Ht) as (H1 & H2 & H3).
  split; [done|]. cbn [meter_step]. case_bool_decide as Ew; [apply H3; intros s Hne; by apply Hne|apply H2; intros s _ He; by apply Ew].
Qed.

Lemma snapshot_tracked numeric_floor workspace resources at_ created w id m db db' :
  recordResourceSnapshot numeric_floor workspace resources at_ created db = (Ok tt, db') ->
  Forall well_kinded resources -> samples_ok db -> tracked w id m db ->
  samples_ok db' /\ tracked w id (meter_step w id m (Observed workspace resources at_)) db'.
Proof.
  unfold recordResourceSnapshot. intros Hs Hk Hok Ht. apply tx_committed in Hs.
  destruct (billings db !! workspace) as [b|]; [|done]. cbn [one_row mbind result_bind] in Hs.
  destruct (charged_period b at_) as [[[customer subscription] start]|]; [|done]. cbn [one_row mbind result_bind] in Hs.
  destruct (fold_left _ _ _) as [db1|] eqn:Ef; [|done]. cbn [mbind result_bind] in Hs. injection Hs as <-.
  apply (snapshot_fold_tracked _ _ _ _ _ _ _ w id m) in Ef as [Hok1 Ht1]; [|done..].
  destruct (filter_tracked (named_sample workspace (BillingResource.ID <$> resources)) db1 w id _ Hok1 Ht1) as (H1 & H2 & H3).
  split; [done|]. cbn [meter_step]. case_bool_decide as Ew.
  2:{ rewrite observe_if_other in H2 by done. apply H2. intros s _ Hw. by destruct Ew. }
  subst w. destruct (List.filter _ resources) as [|r l] eqn:Er.
  - rewrite observe_if_fold, Er in H3. apply H3. intros s Hw.
    pose proof (Hw eq_refl) as Hin. apply list_elem_of_fmap in Hin as (r & He & Hr). cbn in He. subst id.
    assert (r ∈ List.filter (fun r0 => BillingResource.ID r0 == BillingResource.ID r) resources) as Hin.
    { apply list_elem_of_In, List.filter_In. split; [by apply list_elem_of_In|]. by apply bool_decide_true. }
    rewrite Er in Hin. by apply not_elem_of_nil in Hin.
  - rewrite observe_if_fold, Er in H2. apply H2. intros s _ _. cbn [fst snd].
    assert (r ∈ List.filter (fun r0 => BillingResource.ID r0 == id) resources) as Hin by (rewrite Er; by left).
    apply list_elem_of_In, List.filter_In in Hin as [Hin E]. bool_inv. subst. by apply list_elem_of_fmap_2, list_elem_of_In.
Qed.

Lemma billing_step_tracked numeric_floor h db op h' db' w id :
  ledger_op op -> billing_step numeric_floor (h, db) op = (h', db') -> samples_ok db -> tracked w id (metered w id h) db ->
  samples_ok db' /\ tracked w id (metered w id h') db'.
Proof.
  intros Hop Hs Hok Ht.
  assert (forall e db1, samples_ok db1 /\ tracked w id (meter_step w id (metered w id h) e) db1 ->
            samples_ok db1 /\ tracked w id (metered w id (h ++ [e])) db1) as Happ.
  { intros e db1 Hd. unfold metered. by rewrite fold_left_app. }
  assert (forall db1, samples db1 = samples db -> charged w id db1 = charged w id db -> (h, db1) = (h', db') ->
            samples_ok db' /\ tracked w id (metered w id h') db') as Hsame.
  { intros db1 H1 H2 [= <- <-]. by apply (tracked_same _ _ _ db). }
  assert (forall w' f, (h, or_unchanged (update_billing w' f db) db) = (h', db') ->
            samples_ok db' /\ tracked w id (metered w id h') db') as Hupdate.
  { intros w' f. destruct (update_billing_same w' f db) as [H1 H2]. apply Hsame; [done|]. unfold charged. by rewrite H2. }
  destruct op; cbn [billing_step ledger_op] in *; try (by eapply Hupdate).
  - destruct (record_same w id e t1 t2 created db) as [H1 H2]; [done|]. by apply Hsame in Hs.
  - destruct (recordResourceSnapshot _ _ _ _ _ _) as [[[]|e] db1] eqn:Er; injection Hs as <- <-.
    + apply Happ. by eapply snapshot_tracked.
    + assert (db1 = db) as ->; [|done]. unfold recordResourceSnapshot, tx in Er. clear -Er.
      match type of Er with match ?r with _ => _ end = _ => destruct r as [[a s]|] end; congruence.
  - injection Hs as <- <-. apply Happ. by apply drop_tracked.
  - by apply Hsame in Hs.
  - apply Hsame in Hs; [done..|]. unfold charged. by apply sum_update.
  - destruct (pick_same w id locked now db) as [H1 H2]. by apply Hsame in Hs.
  - apply Hsame in Hs; [done..|]. unfold charged. by apply sum_update.
  - by apply Hsame in Hs.
  - apply Hsame in Hs; [done| |]; unfold insert_invoice; by destruct (invoices db !! _).
  - destruct (billings db !! workspace) as [b|] eqn:Eb; [|by injection Hs as <- <-].
    destruct (billing_row.Status b != "active") eqn:Ea; [|by injection Hs as <- <-]. injection Hs as <- <-. apply Happ.
    unfold clear_inactive_samples. rewrite Eb, Ea. by apply drop_tracked.
  - apply Hsame in Hs; [done| |]; unfold insert_billing; by destruct (billings db !! _).
Qed.

Lemma billing_run_tracked numeric_floor ops h db h' db' w id :
  Forall ledger_op ops -> billing_run numeric_floor ops (h, db) = (h', db') -> samples_ok db -> tracked w id (metered w id h) db ->
  samples_ok db' /\ tracked w id (metered w id h') db'.
Proof.
  revert h db. induction ops as [|op ops IH]; intros h db; [by intros _ [= <- <-]|].
  intros [Hop Hops]%Forall_cons Hrun Hok Ht. cbn [billing_run fold_left] in Hrun.
  destruct (billing_step numeric_floor (h, db) op) as [h1 db1] eqn:E1.
  eapply billing_step_tracked in E1 as [Hok1 Ht1]; [|done..]. by eapply IH.
Qed.

(** Nothing has been metered. *)
Definition new_ledger (db : billing_db) : Prop := usage db = [] /\ samples db = ∅.

Lemma new_ledger_tracked w id db : new_ledger db -> samples_ok db /\ tracked w id (metered w id []) db.
Proof.
  intros [Hu Hs]. unfold samples_ok, tracked, remainder_of, charged. rewrite Hu, Hs, lookup_empty. split; [apply map_Forall_empty|].
  split; [done|]. cbn. lia.
Qed.

(** The snapshots of the workspace from [c] to [stop] are in order, at whole
    seconds, and show at most [units] of the resource. *)
Fixpoint readings_within (workspace id : string) (units c stop : Z) (h : list meter_event) : Prop :=
  match h with
  | [] => c <= stop
  | Observed w resources at_ :: h' =>
      if w == workspace then
        c <= at_ /\ at_ mod Second = 0 /\
        Forall (fun r => BillingResource.ID r = id -> well_kinded r /\ BillingResource.Units r <= units) resources /\
        readings_within workspace id units at_ stop h'
      else readings_within workspace id units c stop h'
  | Dropped _ :: h' => readings_within workspace id units c stop h'
  end.

Lemma whole_second_micros t : t mod Second = 0 -> micros t = t.
Proof. unfold micros, Second. intros Ht. apply Z.mod_divide in Ht as [k ->]; [|lia]. replace (k * 10 ^ 9) with (k * 10 ^ 6 * 1000) by lia. rewrite Z.mod_mul; lia. Qed.

Definition numerator_of (id : string) : Z := (rate (metered_kind id)).1.

(** What is owed, up to the last snapshot at [c]. *)
Definition owed_until (id : string) (units start c : Z) (m : meter) : Prop :=
  (forall t u, last_reading m = Some (t, u) -> t = c /\ u <= units) /\
  owed m <= units * numerator_of id * ((c - start) / Second) /\ start <= c.

Lemma observe_owed id units start c at_ m r :
  0 <= units -> start mod Second = 0 -> c mod Second = 0 -> c <= at_ -> at_ mod Second = 0 ->
  BillingResource.ID r = id -> well_kinded r -> BillingResource.Units r <= units ->
  owed_until id units start c m -> owed_until id units start at_ (observe at_ m r).
Proof.
  intros Hu Hs Hc Hca Ha Hid Hk Hr (Hl & Ho & Hsc). pose proof (numerator_pos (metered_kind id)) as Hn. fold (numerator_of id) in Hn.
  assert (rate (BillingResource.Kind r) = rate (metered_kind id)) as Er by (by rewrite Hk, Hid).
  apply Z.mod_divide in Hs as [s ->], Hc as [k ->], Ha as [a ->]; try (unfold Second; lia).
  assert ((k * Second - s * Second) / Second = k - s) as E1 by (rewrite <- Z.mul_sub_distr_r; apply Z.div_mul; unfold Second; lia).
  assert ((a * Second - s * Second) / Second = a - s) as E2 by (rewrite <- Z.mul_sub_distr_r; apply Z.div_mul; unfold Second; lia).
  assert ((a * Second - k * Second) / Second = a - k) as E3 by (rewrite <- Z.mul_sub_distr_r; apply Z.div_mul; unfold Second; lia).
  unfold owed_until, observe. rewrite E1 in Ho. rewrite E2.
  assert (k <= a /\ s <= k) as [Hka Hsk] by (unfold Second in *; lia).
  assert (0 <= units * numerator_of id) as Hpos by nia.
  destruct (last_reading m) as [[t u]|] eqn:El.
  - destruct (Hl t u eq_refl) as [-> Hut]. destruct (_ <? _) eqn:Et.
    + cbn [last_reading owed]. rewrite whole_second_micros by (apply Z.mod_mul; unfold Second; lia). split; [intros t' u' [= <- <-]; done|].
      split; [|unfold Second in *; lia]. unfold owed_between. rewrite E3, Er. fold (numerator_of id).
      assert (Z.min u (BillingResource.Units r) * (a - k) * numerator_of id <= units * numerator_of id * (a - k)) as Hmin.
      { rewrite <- !Z.mul_assoc, (Z.mul_comm (numerator_of id)). apply Z.mul_le_mono_nonneg_r; [apply Z.mul_nonneg_nonneg|]; lia. }
      assert (0 <= units * numerator_of id * (a - k)) by (apply Z.mul_nonneg_nonneg; lia).
      replace (a - s) with ((k - s) + (a - k)) by lia. rewrite Z.mul_add_distr_l. destruct (_ <=? 5 * Minute); lia.
    + assert (k = a) as -> by (unfold Second in *; lia). rewrite El. split; [intros t' u' [= <- <-]; done|]. split; [done|unfold Second in *; lia].
  - cbn [last_reading owed]. rewrite whole_second_micros by (apply Z.mod_mul; unfold Second; lia).
    split; [intros t' u' [= <- <-]; done|]. split; [nia|unfold Second in *; lia].
Qed.

Lemma metered_owed workspace id units start c stop m h :
  0 <= units -> start mod Second = 0 -> c mod Second = 0 -> readings_within workspace id units c stop h -> owed_until id units start c m ->
  owed (fold_left (meter_step workspace id) h m) <= units * numerator_of id * ((stop - start) / Second).
Proof.
  intros Hu Hs. revert m c. induction h as [|e h IH]; intros m c Hc Hh Hm.
  - cbn in *. destruct Hm as (_ & Ho & Hsc). pose proof (numerator_pos (metered_kind id)) as Hn. fold (numerator_of id) in Hn.
    etransitivity; [exact Ho|]. apply Z.mul_le_mono_nonneg_l; [nia|]. apply Z.div_le_mono; [unfold Second; lia|lia].
  - cbn [fold_left]. destruct e as [w resources at_|w]; cbn [readings_within meter_step] in *.
    2:{ destruct (w == workspace); [|by eapply IH]. eapply IH; [done..|]. destruct Hm as (_ & Hm). by split. }
    case_bool_decide as Ew; [|by eapply IH]. destruct Hh as (Hca & Ha & Hr & Hh). eapply (IH _ at_); [done..|]. clear IH Hh.
    assert (forall m, owed_until id units start c m -> owed_until id units start at_ (Meter None (owed m))) as Hnone.
    { intros m0 (_ & Ho & Hsc). split; [done|]. split; [|lia]. cbn [owed]. etransitivity; [exact Ho|].
      pose proof (numerator_pos (metered_kind id)) as Hn. fold (numerator_of id) in Hn.
      apply Z.mul_le_mono_nonneg_l; [nia|]. apply Z.div_le_mono; [unfold Second; lia|lia]. }
    assert (Forall (fun r => BillingResource.ID r = id /\ well_kinded r /\ BillingResource.Units r <= units)
              (List.filter (fun r => BillingResource.ID r == id) resources)) as Hl.
    { apply Forall_forall. intros r [Hin E]%list_elem_of_In%List.filter_In. bool_inv. apply list_elem_of_In in Hin.
      rewrite Forall_forall in Hr. specialize (Hr r Hin). tauto. }
    destruct (List.filter _ resources) as [|r l]; [by apply Hnone|]. apply Forall_cons in Hl as [(H1 & H2 & H3) Hl]. cbn [fold_left].
    assert (owed_until id units start at_ (observe at_ m r)) as Hfirst by (by apply (observe_owed id units start c)).
    revert Hfirst. generalize (observe at_ m r). clear -Hl Hu Hs Ha. induction l as [|r' l IHl]; intros m0 Hm0; [done|].
    apply Forall_cons in Hl as [(H1 & H2 & H3) Hl]. cbn [fold_left]. apply IHl; [done|]. apply (observe_owed id units start at_); done || lia.
Qed.

(** C14: the ledger never charges more than was metered.  Whatever transactions
    run, in any order and at any clock, and however the database rounds its
    quotients: the cents charged for a resource, with its remainder, are at
    most what the intervals between its consecutive readings cost at the
    smaller reading, at most five minutes each.  So in a time in which the
    readings are in order and never above some number of units, they are at
    most those units at the published rate for that time: no second is charged
    twice, whatever periods, subscriptions or retries it spans. *)
Theorem metering_bounded numeric_floor ops db h db' workspace id :
  new_ledger db -> Forall ledger_op ops -> billing_run numeric_floor ops ([], db) = (h, db') ->
  denominator_of id * charged workspace id db' + remainder_of workspace id db' <= owed (metered workspace id h) /\
  forall units start stop,
    0 <= units -> start mod Second = 0 -> readings_within workspace id units start stop h ->
    denominator_of id * charged workspace id db' <= units * numerator_of id * ((stop - start) / Second).
Proof.
  intros Hnew Hops Hrun. destruct (new_ledger_tracked workspace id db Hnew) as [Hok Ht].
  destruct (billing_run_tracked _ _ _ _ _ _ workspace id Hops Hrun Hok Ht) as [Hok' [_ Ho]]. split; [done|].
  intros units start stop Hu Hs Hh. apply (metered_owed _ _ _ start start stop (Meter None 0)) in Hh; [|done..|].
  2:{ split; [done|]. rewrite Z.sub_diag, Z.div_0_l by (unfold Second; lia). cbn. lia. }
  fold (metered workspace id h) in Hh.
  assert (0 <= remainder_of workspace id db'); [|lia].
  unfold remainder_of. destruct (samples db' !! _) as [s|] eqn:Es; [|lia]. by apply (Hok' _ _ Es).
Qed.

(** ** While nothing interrupts the meter, the charge is exact *)
Section Exact.
Context (numeric_floor : Z -> Z -> Z) (Hfloor : rounded_floor numeric_floor).
Context (workspace id customer subscription : string) (start created : Z).

(** The sample of the resource belongs to the period and nothing is waived. *)
Definition exact (c : Z) (m : meter) (db : billing_db) : Prop :=
  exists s, samples db !! (workspace, id) = Some s /\ last_reading m = Some (reading s) /\
    same_period subscription start s = true /\ start <= sample_row.ObservedAt s /\ sample_row.ObservedAt s = c /\
    0 <= sample_row.Remainder s < denominator_of id /\
    denominator_of id * charged workspace id db + sample_row.Remainder s = owed m.

Lemma new_sample_period at_ units rem : same_period subscription start (sample_row.mk subscription start at_ units rem) = true.
Proof. unfold same_period. cbn. by rewrite bool_decide_true, Z.eqb_refl. Qed.

Lemma snapshot_resource_exact at_ c m r db db' :
  snapshot_resource numeric_floor workspace customer subscription start at_ created (Ok db) r = Ok db' ->
  well_kinded r -> samples_ok db -> at_ mod Second = 0 -> start <= at_ -> c = at_ \/ c < at_ <= c + 5 * Minute ->
  exact c m db -> samples_ok db' /\ exact (if BillingResource.ID r == id then at_ else c) (observe_if workspace workspace id at_ m r) db'.
Proof.
  intros Hs Hk Hok Hat Hstart Hc (s & Es & Hr & Hp & Hss & Hsc & Hrem & Ho).
  unfold observe_if. rewrite (bool_decide_true (workspace = workspace)) by done. cbn [andb].
  apply snapshot_resource_spec in Hs as Hspec; [|done].
  assert (forall cents rem, read_resource workspace subscription start at_ r cents rem db db' -> BillingResource.ID r <> id -> exact c m db') as Hother.
  { intros cents rem Hread Hne. exists s. rewrite (read_samples _ _ _ _ workspace id _ _ _ _ _ Hread), (read_charged _ _ _ _ workspace id _ _ _ _ _ Hread).
    rewrite (bool_decide_false (BillingResource.ID r = id)), andb_false_r, Z.add_0_r by done. done. }
  destruct Hspec as [[Hn Hread]|(s' & Es' & Hread)].
  - split; [by eapply read_samples_ok|]. case_bool_decide as E; [rewrite E in Hn; congruence|by eapply Hother].
  - destruct (sample_row.ObservedAt s' <? at_) eqn:Et.
    2:{ subst db'. split; [done|]. case_bool_decide as E; [|by exists s]. assert (s' = s) as -> by (rewrite E in Es'; congruence).
        rewrite (observe_stale _ _ _ s) by (done || lia). exists s. split_and!; try done; lia. }
    destruct Hread as (cents & rem & Hread & _ & Hex). split; [by eapply read_samples_ok|].
    case_bool_decide as E; [|by eapply Hother]. assert (s' = s) as -> by (rewrite E in Es'; congruence).
    destruct Hex as [He Hlt]; [unfold chargeable; rewrite Hp; cbn [andb]; apply andb_true_iff; split; [|apply negb_true_iff]; lia|].
    specialize (Hlt Hfloor). rewrite (observe_later _ _ _ s) by (done || lia).
    assert (0 <= rem) as Hrem0 by by destruct Hread as (? & ? & ? & ? & ?).
    eexists. rewrite (read_samples _ _ _ _ workspace id _ _ _ _ _ Hread), (read_charged _ _ _ _ workspace id _ _ _ _ _ Hread).
    rewrite !bool_decide_true by done. cbn [andb].
    split; [done|]. rewrite whole_second_micros by done. unfold denominator_of in *. rewrite <- E, <- Hk in *.
    split_and!; [done|apply new_sample_period|done|done|done|done|]. cbn [owed sample_row.Remainder]. lia.
Qed.

Lemma snapshot_fold_exact at_ c m l db db' :
  fold_left (snapshot_resource numeric_floor workspace customer subscription start at_ created) l (Ok db) = Ok db' ->
  Forall well_kinded l -> samples_ok db -> at_ mod Second = 0 -> start <= at_ -> c = at_ \/ c < at_ <= c + 5 * Minute -> exact c m db ->
  samples_ok db' /\ exact (if existsb (fun r => BillingResource.ID r == id) l then at_ else c) (fold_left (observe_if workspace workspace id at_) l m) db'.
Proof.
  intros Hf Hl Hok Hat Hstart Hc Hm. revert c m db Hf Hok Hc Hm. induction l as [|r l IH]; intros c m db Hf Hok Hc Hm; cbn [fold_left existsb] in *; [by injection Hf as <-|].
  apply Forall_cons in Hl as [Hr Hl]. destruct (snapshot_resource _ _ _ _ _ _ _ _ r) as [db1|e] eqn:E1.
  - apply (snapshot_resource_exact _ c m) in E1 as [Hok1 Hm1]; [|done..]. destruct (BillingResource.ID r == id); cbn [orb].
    + apply (IH Hl at_ _ db1) in Hm1 as [H1 H2]; [|done|done|by left]. split; [done|]. by destruct (existsb _ l).
    + by apply (IH Hl c _ db1).
  - exfalso. clear -Hf. induction l as [|r' l IHl]; cbn in Hf; [done|auto].
Qed.
End Exact.

Lemma charged_period_inv b t customer subscription start :
  charged_period b t = Some (customer, subscription, start) ->
  customer = text (billing_row.CustomerID b) /\ subscription = text (billing_row.SubscriptionID b) /\
  billing_row.PeriodStart b = Some start /\ start <= t.
Proof.
  unfold charged_period. destruct (billing_row.PeriodStart b), (billing_row.PeriodEnd b); try done.
  destruct (_ || _) eqn:E; [done|]. intros [= <- <- <-]. bool_inv. split_and!; try done; lia.
Qed.

Section Snapshot.
Context (numeric_floor : Z -> Z -> Z) (Hfloor : rounded_floor numeric_floor) (workspace id : string) (created : Z).

(** A snapshot that can follow one at [c]. *)
Definition follows (c : Z) (snap : list BillingResource * Z) : Prop :=
  Forall well_kinded snap.1 /\ existsb (fun r => BillingResource.ID r == id) snap.1 = true /\ snap.2 mod Second = 0 /\
  c < snap.2 <= c + 5 * Minute.
Fixpoint unbroken (c : Z) (snaps : list (list BillingResource * Z)) : Prop :=
  match snaps with [] => True | snap :: rest => follows c snap /\ unbroken snap.2 rest end.

Definition op_of (snap : list BillingResource * Z) : billing_op := OpSnapshot workspace snap.1 snap.2 created.
Definition event_of (snap : list BillingResource * Z) : meter_event := Observed workspace snap.1 snap.2.

Lemma snapshot_inv resources at_ db db' :
  recordResourceSnapshot numeric_floor workspace resources at_ created db = (Ok tt, db') ->
  exists b customer subscription start db1,
    billings db !! workspace = Some b /\ charged_period b at_ = Some (customer, subscription, start) /\
    fold_left (snapshot_resource numeric_floor workspace customer subscription start at_ created) resources (Ok db) = Ok db1 /\
    usage db' = usage db1 /\ billings db' = billings db1 /\
    samples db' = filter (named_sample workspace (BillingResource.ID <$> resources)) (samples db1).
Proof.
  unfold recordResourceSnapshot. intros Hs. apply tx_committed in Hs.
  destruct (billings db !! workspace) as [b|]; [|done]. cbn [one_row mbind result_bind] in Hs.
  destruct (charged_period b at_) as [[[customer subscription] start]|] eqn:Ep; [|done]. cbn [one_row mbind result_bind] in Hs.
  destruct (fold_left _ _ _) as [db1|] eqn:Ef; [|done]. cbn [mbind result_bind] in Hs. injection Hs as <-.
  by exists b, customer, subscription, start, db1.
Qed.

Lemma reads_or_stays customer subscription start at_ r db db1 :
  snapshot_resource numeric_floor workspace customer subscription start at_ created (Ok db) r = Ok db1 -> samples_ok db ->
  db1 = db \/ exists cents rem, read_resource workspace subscription start at_ r cents rem db db1.
Proof.
  intros E1 Hok. apply snapshot_resource_spec in E1 as [[_ Hread]|(s & _ & Hread)]; [right; by exists 0, 0| |done].
  destruct (_ <? _); [|by left]. destruct Hread as (cents & rem & Hread & _). right. by exists cents, rem.
Qed.

Lemma fold_billings customer subscription start at_ l db db' :
  fold_left (snapshot_resource numeric_floor workspace customer subscription start at_ created) l (Ok db) = Ok db' ->
  samples_ok db -> billings db' = billings db.
Proof.
  revert db. induction l as [|r l IH]; intros db Hf Hok; cbn [fold_left] in Hf; [by injection Hf as <-|].
  destruct (snapshot_resource _ _ _ _ _ _ _ _ r) as [db1|e] eqn:E1.
  - apply reads_or_stays in E1 as [->|(cents & rem & Hread)]; [by apply IH| |done].
    rewrite (IH db1 Hf); [|by eapply read_samples_ok]. by destruct Hread as (? & -> & _).
  - exfalso. clear -Hf. induction l as [|r' l IHl]; cbn in Hf; [done|auto].
Qed.

(** The exact state, with the billing row that the period is of. *)
Definition exact_under (b : billing_row) (c : Z) (m : meter) (db : billing_db) : Prop :=
  billings db !! workspace = Some b /\ samples_ok db /\
  exists start, billing_row.PeriodStart b = Some start /\ exact workspace id (text (billing_row.SubscriptionID b)) start c m db.

Lemma exact_filter subscription start c m db1 db' resources :
  exact workspace id subscription start c m db1 -> samples_ok db1 -> existsb (fun r => BillingResource.ID r == id) resources = true ->
  usage db' = usage db1 -> samples db' = filter (named_sample workspace (BillingResource.ID <$> resources)) (samples db1) ->
  samples_ok db' /\ exact workspace id subscription start c m db'.
Proof.
  intros (s & Es & Hm) Hok Hin Hu Hs. split.
  - unfold samples_ok. rewrite Hs. intros k s'. rewrite filter_samples. destruct (samples db1 !! k) eqn:Ek; [|done].
    case_decide; [|done]. intros [= <-]. by apply (Hok k).
  - exists s. unfold charged. rewrite Hs, Hu, filter_samples, Es, decide_True; [done|]. intros _. cbn.
    apply existsb_exists in Hin as (r & Hr & E). bool_inv. subst. by apply list_elem_of_fmap_2, list_elem_of_In.
Qed.

Lemma snapshot_exact b c m snap db db' :
  recordResourceSnapshot numeric_floor workspace snap.1 snap.2 created db = (Ok tt, db') ->
  follows c snap -> exact_under b c m db -> exact_under b snap.2 (meter_step workspace id m (event_of snap)) db'.
Proof.
  intros Hs (Hk & Hin & Hat & Hc) (Hb & Hok & start & Hstart & Hm).
  apply snapshot_inv in Hs as (b' & customer & subscription & start' & db1 & Hb' & Hp & Hf & Hu & Hbs & Hss).
  assert (b' = b) as -> by congruence. apply charged_period_inv in Hp as (_ & -> & Hstart' & Hle).
  assert (start' = start) as -> by congruence. pose proof Hf as Hf'. apply fold_billings in Hf'; [|done].
  apply (snapshot_fold_exact _ Hfloor _ id _ _ _ _ _ c m) in Hf as [Hok1 Hm1]; [|done..|by right|done]. rewrite Hin in Hm1.
  eapply exact_filter in Hm1 as [Hok2 Hm2]; [|done..].
  split; [by rewrite Hbs, Hf'|]. split; [done|]. exists start. split; [done|].
  cbn [event_of meter_step]. rewrite bool_decide_true by done. rewrite observe_if_fold in Hm2.
  destruct (List.filter _ snap.1) eqn:E; [|done]. exfalso.
  apply existsb_exists in Hin as (r & Hr & Er). assert (List.In r []) as []. rewrite <- E. by apply List.filter_In.
Qed.

(** The first reading of the resource. *)
Lemma first_fold customer subscription start at_ l db db' :
  fold_left (snapshot_resource numeric_floor workspace customer subscription start at_ created) l (Ok db) = Ok db' ->
  Forall well_kinded l -> samples_ok db -> at_ mod Second = 0 -> start <= at_ ->
  samples db !! (workspace, id) = None -> charged workspace id db = 0 -> existsb (fun r => BillingResource.ID r == id) l = true ->
  samples_ok db' /\ exact workspace id subscription start at_ (fold_left (observe_if workspace workspace id at_) l (Meter None 0)) db'.
Proof.
  revert db. induction l as [|r l IH]; intros db Hf Hl Hok Hat Hstart Hn Hz; cbn [fold_left existsb] in *; [done|].
  apply Forall_cons in Hl as [Hr Hl]. destruct (snapshot_resource _ _ _ _ _ _ _ _ r) as [db1|e] eqn:E1.
  2:{ exfalso. clear -Hf. induction l as [|r' l IHl]; cbn in Hf; [done|auto]. }
  pose proof (snapshot_resource_spec _ _ _ _ _ _ _ _ _ _ E1 Hok) as Hspec. unfold observe_if at 2.
  rewrite (bool_decide_true (workspace = workspace)) by done. cbn [andb]. case_bool_decide as E; cbn [orb].
  - intros _. destruct Hspec as [[_ Hread]|(s & Es & _)]; [|congruence].
    apply (snapshot_fold_exact _ Hfloor _ id _ _ _ _ _ at_ (Meter (Some (micros at_, BillingResource.Units r)) 0)) in Hf as [H1 H2];
      [| done | by eapply read_samples_ok | done | done | by left | ].
    + split; [done|]. by destruct (existsb _ l).
    + eexists. rewrite (read_samples _ _ _ _ workspace id _ _ _ _ _ Hread), (read_charged _ _ _ _ workspace id _ _ _ _ _ Hread), Hz.
      rewrite !bool_decide_true by done. cbn [andb]. split; [done|]. rewrite whole_second_micros by done.
      pose proof (denominator_pos id). split_and!; try done; try apply new_sample_period. cbn [owed sample_row.Remainder]. lia.
  - intros Hin. apply reads_or_stays in E1 as [->|(cents & rem & Hread)]; [by apply (IH db)| |done].
    apply (IH db1); [done|done|by eapply read_samples_ok|done|done|..|done].
    + rewrite (read_samples _ _ _ _ workspace id _ _ _ _ _ Hread). by rewrite (bool_decide_false (BillingResource.ID r = id)), andb_false_r.
    + rewrite (read_charged _ _ _ _ workspace id _ _ _ _ _ Hread). by rewrite (bool_decide_false (BillingResource.ID r = id)), andb_false_r, Hz.
Qed.

Lemma step_snapshot h0 db snap :
  (billing_step numeric_floor (h0, db) (op_of snap) = (h0 ++ [event_of snap], (recordResourceSnapshot numeric_floor workspace snap.1 snap.2 created db).2) /\
   recordResourceSnapshot numeric_floor workspace snap.1 snap.2 created db = (Ok tt, (recordResourceSnapshot numeric_floor workspace snap.1 snap.2 created db).2)) \/
  exists db1, billing_step numeric_floor (h0, db) (op_of snap) = (h0, db1).
Proof. cbn [billing_step op_of]. destruct (recordResourceSnapshot _ _ _ _ _ _) as [[[]|e] db1]; [by left|right; by exists db1]. Qed.

Lemma run_length snaps h0 db : (length (billing_run numeric_floor (op_of <$> snaps) (h0, db)).1 <= length h0 + length snaps)%nat.
Proof.
  revert h0 db. induction snaps as [|snap snaps IH]; intros h0 db; [cbn; lia|]. cbn [fmap list_fmap billing_run fold_left].
  destruct (step_snapshot h0 db snap) as [[-> _]|[db1 ->]]; (etransitivity; [apply IH|]); rewrite ?length_app; cbn; lia.
Qed.

Lemma run_exact b c snaps h0 db db' :
  unbroken c snaps -> exact_under b c (metered workspace id h0) db ->
  billing_run numeric_floor (op_of <$> snaps) (h0, db) = (h0 ++ (event_of <$> snaps), db') ->
  exists c', exact_under b c' (metered workspace id (h0 ++ (event_of <$> snaps))) db'.
Proof.
  revert c h0 db. induction snaps as [|snap snaps IH]; intros c h0 db Hu Hm Hrun.
  - cbn in *. rewrite app_nil_r in *. injection Hrun as <-. by exists c.
  - destruct Hu as [Hfollow Hu]. cbn [fmap list_fmap billing_run fold_left] in *.
    destruct (step_snapshot h0 db snap) as [[E1 Hs]|[db1 E1]]; rewrite E1 in Hrun.
    + change (event_of snap :: (event_of <$> snaps)) with ([event_of snap] ++ (event_of <$> snaps)) in *. rewrite app_assoc in *.
      eapply IH; [exact Hu| |exact Hrun]. unfold metered. rewrite fold_left_app. by eapply snapshot_exact.
    + pose proof (run_length snaps h0 db1) as Hlen. unfold billing_run in Hlen. rewrite Hrun in Hlen. cbn [fst] in Hlen.
      rewrite length_app in Hlen. cbn [length] in Hlen. rewrite length_fmap in Hlen. lia.
Qed.

(** C15: while nothing interrupts the meter the charge is exact: after a first
    reading and any number of accepted snapshots that name the resource, each
    at most five minutes after the one before, the cents charged are the whole
    cents of what the intervals cost, no fraction being lost or charged twice
    on the way (the remainder carries it).  Of the database it assumes that a
    quotient rounded to a scale of its choosing is not floored below the
    quotient's own floor; where rounding goes up to the next integer the charge
    is refused by the check on the remainder. *)
Theorem metering_exact first snaps db db' :
  samples_ok db -> samples db !! (workspace, id) = None -> charged workspace id db = 0 ->
  Forall well_kinded first.1 -> existsb (fun r => BillingResource.ID r == id) first.1 = true -> first.2 mod Second = 0 ->
  unbroken first.2 snaps ->
  billing_run numeric_floor (op_of <$> first :: snaps) ([], db) = (event_of <$> first :: snaps, db') ->
  charged workspace id db' = owed (metered workspace id (event_of <$> first :: snaps)) / denominator_of id.
Proof.
  intros Hok Hn Hz Hk Hin Hat Hu Hrun. cbn [fmap list_fmap billing_run fold_left] in *.
  destruct (step_snapshot [] db first) as [[E1 Hs]|[db1 E1]]; rewrite E1 in Hrun.
  2:{ pose proof (run_length snaps [] db1) as Hlen. unfold billing_run in Hlen. rewrite Hrun in Hlen. cbn [fst length] in Hlen.
      rewrite length_fmap in Hlen. lia. }
  apply snapshot_inv in Hs as (b & customer & subscription & start & db1 & Hb & Hp & Hf & Hus & Hbs & Hss).
  apply charged_period_inv in Hp as (_ & -> & Hstart & Hle). pose proof Hf as Hf'. apply fold_billings in Hf'; [|done].
  apply first_fold in Hf as [Hok1 Hm1]; [|done..]. eapply exact_filter in Hm1 as [Hok2 Hm2]; [|done..].
  eapply (run_exact b first.2 snaps [event_of first]) in Hrun as (c' & _ & _ & start' & _ & s & _ & _ & _ & _ & _ & Hrem & Ho); [|done|].
  - cbn [app] in Ho. apply (Z.div_unique_pos _ _ _ (sample_row.Remainder s)); [done|]. by rewrite Ho.
  - split; [by rewrite Hbs, Hf'|]. split; [done|]. exists start. split; [done|]. rewrite observe_if_fold in Hm2.
    cbn [metered fold_left event_of meter_step]. unfold metered. cbn [fold_left event_of meter_step]. rewrite bool_decide_true by done.
    destruct (List.filter _ first.1) eqn:E; [|done]. exfalso.
    apply existsb_exists in Hin as (r & Hr & Er). assert (List.In r []) as []. rewrite <- E. by apply List.filter_In.
Qed.
End Snapshot.

(** ** Witnesses *)
(** A workspace that pays, a virtual machine of a hundred units, and three
    readings five minutes apart: 3 cents and a fraction, twice. *)
Definition wit_billing : billing_row :=
  billing_row.mk (Some "cus"%string) (Some "sub"%string) "payg" "active" (Some 0) (Some (31 * Day)) false "" "" "" None 0.
Definition wit_db : billing_db := Db {[ "w"%string := wit_billing ]} [] ∅ ∅ ∅ ∅.
Definition wit_resources : list BillingResource := [BillingResource.mk "compute/vm" "compute" 100].
Definition wit_snaps : list (list BillingResource * Z) := (fun k => (wit_resources, k * 300 * Second)) <$> [1; 2; 3].
Definition wit_ops : list billing_op := op_of "w" 0 <$> wit_snaps.

Lemma wit_fresh : new_ledger wit_db /\ Forall ledger_op wit_ops.
Proof. split; [done|]. by repeat constructor. Qed.
Lemma wit_kinded : Forall well_kinded wit_resources.
Proof. by repeat constructor. Qed.

Lemma wit_within : readings_within "w" "compute/vm" 100 (300 * Second) (900 * Second) (event_of "w" <$> wit_snaps).
Proof.
  assert (Forall (fun r => BillingResource.ID r = "compute/vm"%string -> well_kinded r /\ BillingResource.Units r <= 100) wit_resources) as Hr.
  { constructor; [|constructor]. intros _. split; [done|]. cbn. lia. }
  do 3 (split; [by vm_compute|]; split; [by vm_compute|]; split; [exact Hr|]). by vm_compute.
Qed.
Lemma wit_run : (billing_run Z.div wit_ops ([], wit_db)).1 = event_of "w" <$> wit_snaps.
Proof. vm_compute. reflexivity. Qed.

Lemma metering_bounded_witness :
  charged "w" "compute/vm" (billing_run Z.div wit_ops ([], wit_db)).2 = 6 /\ denominator_of "compute/vm" * 6 <= 100 * 300 * 600.
Proof.
  assert (charged "w" "compute/vm" (billing_run Z.div wit_ops ([], wit_db)).2 = 6) as Ec by (vm_compute; reflexivity). split; [exact Ec|].
  destruct (metering_bounded Z.div wit_ops wit_db _ _ "w" "compute/vm" (proj1 wit_fresh) (proj2 wit_fresh) (surjective_pairing _)) as [_ Hb].
  specialize (Hb 100 (300 * Second) (900 * Second)). rewrite Ec in Hb. apply Hb; [lia|by vm_compute|].
  rewrite wit_run. exact wit_within.
Defined.

(** Quotients rounded half up to sixteen decimals. *)
Definition numeric_scale : Z := 10 ^ 16.
Definition rounding_floor (a d : Z) : Z := (2 * a * numeric_scale + d) / (2 * d) / numeric_scale.
Lemma rounding_floor_rounded : rounded_floor rounding_floor.
Proof.
  intros a d Ha Hd. unfold rounding_floor, numeric_scale. pose proof (Z.mul_div_le a d Hd).
  apply Z.div_le_lower_bound; [lia|]. apply Z.div_le_lower_bound; lia.
Qed.

Lemma metering_exact_witness :
  charged "w" "compute/vm" (billing_run rounding_floor wit_ops ([], wit_db)).2 =
    owed (metered "w" "compute/vm" (event_of "w" <$> wit_snaps)) / denominator_of "compute/vm" /\
  owed (metered "w" "compute/vm" (event_of "w" <$> wit_snaps)) = 100 * 300 * 600.
Proof.
  split; [|vm_compute; reflexivity].
  apply (metering_exact rounding_floor rounding_floor_rounded "w" "compute/vm" 0 (wit_resources, 300 * Second) [(wit_resources, 600 * Second); (wit_resources, 900 * Second)] wit_db).
  - apply map_Forall_empty.
  - done.
  - done.
  - exact wit_kinded.
  - by vm_compute.
  - by vm_compute.
  - repeat split; exact wit_kinded || by vm_compute.
  - vm_compute. reflexivity.
Defined.
