(* ===== verification/BillingTheorems.v ===== *)
(** * Theorems on billing

    What a plan costs and that the configured prices charge it; what may be
    sent to the payment service as usage; what its webhook may change; who may
    post to it; and when a workspace may provision paid resources. *)

From S2P Require Import Prelude Effects GoStrings Digest Documents Calls SandboxSpec Systems Releases Provider.
From S2P Require Import ControlDocuments Rows Tables Metering Billing Example.
#[local] Open Scope Z_scope.

(** ** Facts a pool keeps

    What each program may do is guarded by what it saw; what the state says of
    what was seen stays true. *)
Fixpoint past {C : Type} {R : C -> Type} (guar : list (event R) -> C -> Prop) (h : list (event R)) : Prop :=
  match h with [] => True | e :: h' => guar h' (ev_call e) /\ past guar h' end.

Section PoolFacts.
Context {C : Type} {R : C -> Type} {S A : Type} (handler : S -> forall c, R c * S).
Context (I : S -> Prop) (guar : list (event R) -> C -> Prop) (fact : S -> event R -> Prop).
Context (Hstep : forall st h c r st', I st -> guar h c -> Forall (fact st) h -> handler st c = (r, st') ->
                  I st' /\ fact st' (Event c r) /\ forall e, fact st e -> fact st' e).

Definition factual (st : S) (t : thread R A) : Prop :=
  wp (fun _ _ _ => True) guar (th_prog t) (fun _ _ => True) (th_history t) /\
  Forall (fact st) (th_history t) /\ past guar (th_history t).

Lemma factual_step ts st ts' st' :
  pool_step handler (ts, st) (ts', st') -> I st -> Forall (factual st) ts -> I st' /\ Forall (factual st') ts'.
Proof.
  intros Hs HI Hts. inversion Hs as [ts0 i c k h st0 r st1 Hi Hh]; subst.
  pose proof (Forall_lookup_1 _ _ _ _ Hts Hi) as ([Hg Hk] & Hf & Hp). cbn [th_prog th_history] in *.
  destruct (Hstep st h c r st' HI Hg Hf Hh) as (HI' & Hnew & Hkeep). split; [done|].
  apply Forall_insert.
  - eapply Forall_impl; [exact Hts|]. intros t (H1 & H2 & H3). split; [done|]. split; [|done]. eapply Forall_impl; [exact H2|exact Hkeep].
  - split; [by apply Hk|]. split; [|done]. constructor; [done|]. eapply Forall_impl; [exact Hf|exact Hkeep].
Qed.

Lemma pool_factual ts st ts' st' :
  I st -> Forall (factual st) ts -> rtc (pool_step handler) (ts, st) (ts', st') -> I st' /\ Forall (factual st') ts'.
Proof.
  intros HI Hts Hrtc. apply (pool_invariant handler (fun x => I x.2 /\ Forall (factual x.2) x.1) (ts, st) (ts', st')); [done| |done].
  intros [ts1 st1] [ts2 st2] [HI1 H1] Hs. cbn [fst snd] in *. by eapply factual_step.
Qed.

Lemma factual_start st p : safe guar p -> factual st (Thread p []).
Proof. intros Hp. split; [apply Hp|]. split; [constructor|done]. Qed.
End PoolFacts.

(** ** Usage is sent as it was recorded *)
Definition meter_path : string := "/v1/billing/meter_events".

(** Calls that send no usage. *)
Definition harmless (c : billing_call) : Prop :=
  match c with Stripe _ path _ _ _ => path <> meter_path | MarkSent _ => False | _ => True end.

Abbreviation harmless_prog p := (safe (fun _ c => harmless c) p) (only parsing).

Ltac harmless_step :=
  match goal with
  | |- safe _ (Ret _) => apply safe_ret
  | |- safe _ (lift _) => apply safe_ret
  | |- safe _ (call _) => refine (safe_call _ _ _); intros ?; cbn [harmless]; first [exact I|unfold meter_path; discriminate]
  | |- safe _ (stripe _ _ _ _ _) => unfold stripe
  | |- safe _ (stripe_post _ _ _) => unfold stripe_post
  | |- safe _ (bind_ok _ _) => apply safe_bind_ok; [|intros ?]
  | |- safe _ (_ ≫= _) => apply safe_bind; [|intros ?]
  | |- safe _ (if ?b then _ else _) => destruct b
  | |- safe _ (match ?x with _ => _ end) => destruct x
  | |- safe _ _ => solve [eauto with harmless]
  end.
Ltac harmless_tac := repeat (cbv beta zeta; harmless_step).
Create HintDb harmless.

Section Harmless.
Context `{Unicode} `{StripeDecode} (cfg : BillingConfig) (PublicURL : string).

Lemma harmless_validate : harmless_prog (ValidatePrices cfg).
Proof.
  unfold ValidatePrices. assert (forall specs, harmless_prog (validate_specs cfg specs)) as Hspecs.
  { induction specs as [|[id kind] specs IH]; cbn [validate_specs]; harmless_tac. }
  harmless_tac.
Qed.
#[local] Hint Resolve harmless_validate : harmless.

Lemma harmless_readiness workspace : harmless_prog (billingPaymentReadiness cfg workspace).
Proof. unfold billingPaymentReadiness, paymentReadiness. harmless_tac. Qed.
#[local] Hint Resolve harmless_readiness : harmless.

Lemma harmless_require billing workspace : harmless_prog (requireBillingPayment billing workspace).
Proof. unfold requireBillingPayment. destruct billing as [c|]; harmless_tac. unfold billingPaymentReadiness, paymentReadiness. harmless_tac. Qed.

Lemma harmless_checkout fuel workspace email plan : harmless_prog (startBillingCheckout cfg PublicURL fuel workspace email plan).
Proof.
  induction fuel as [|fuel IH]; cbn [startBillingCheckout]; [apply safe_ret|].
  unfold no_subscription, all_subscriptions, resume_checkout, new_customer, new_checkout. harmless_tac.
Qed.

Lemma harmless_webhook billing raw signature : harmless_prog (billingWebhook billing raw signature).
Proof. unfold billingWebhook, handle_event, apply_event, write_subscription, store_failed, all_subscriptions. harmless_tac. Qed.

Lemma harmless_pending workspace : harmless_prog (pendingBillingPlan workspace).
Proof.
  unfold pendingBillingPlan, scheduled.
  assert (forall phases, harmless_prog (pending_phase phases)) as Hp by (induction phases as [|[] phases IH]; cbn [pending_phase]; harmless_tac).
  harmless_tac.
Qed.

Lemma harmless_change workspace target expectedEnd : harmless_prog (changeBillingPlan cfg workspace target expectedEnd).
Proof. unfold changeBillingPlan, scheduled, reconcile_schedule, write_schedule, create_schedule. harmless_tac. Qed.

Lemma harmless_collect : harmless_prog CollectUsage.
Proof.
  assert (forall w l r, harmless_prog (meter_systems w l r)) as H1 by (intros w; induction l; intros; cbn [meter_systems]; harmless_tac).
  assert (forall l r, harmless_prog (meter_servers l r)) as H2 by (induction l; intros; cbn [meter_servers]; harmless_tac).
  assert (forall l e, harmless_prog (collect_workspaces l e)) as H3.
  { induction l; intros; cbn [collect_workspaces]; unfold collectWorkspaceUsage, collect_locked; harmless_tac. }
  unfold CollectUsage. harmless_tac.
Qed.
End Harmless.

Section Dispatch.
Context `{Unicode} `{StripeDecode} (cfg : BillingConfig) (PublicURL : string).

Definition picked (h : list (event billing_answer)) (p : picked_usage) : Prop := Event PickUsage (Ok (Some p)) ∈ h.
Definition sent (h : list (event billing_answer)) (p : picked_usage) : Prop := Event (meter_request cfg p) (Ok tt) ∈ h.

(** Usage is sent as it was picked, and marked as sent once it was accepted. *)
Definition usage_guard (h : list (event billing_answer)) (c : billing_call) : Prop :=
  match c with
  | Stripe method path v key out => path = meter_path -> exists p, picked h p /\ Stripe method path v key out = meter_request cfg p
  | MarkSent id => exists p, pk_ID p = id /\ picked h p /\ sent h p
  | _ => True
  end.

Lemma harmless_guard h c : harmless c -> usage_guard h c.
Proof. by destruct c; cbn [harmless usage_guard]. Qed.

Lemma usage_dispatch : safe usage_guard (DispatchUsage cfg).
Proof.
  unfold DispatchUsage. destruct (negb _); [apply safe_ret|]. apply safe_bind_ok; [|intros ?].
  { eapply safe_mono; [intros ? ?; apply harmless_guard|apply harmless_validate]. }
  apply safe_bind_ok; [by refine (safe_call _ _ _)|intros ?]. generalize 100%nat. intros n.
  induction n as [|n IH]; cbn [dispatch_usage]; [apply safe_ret|]. intros h. apply wp_bind_ok. wp_ask.
  match goal with |- match ?r with _ => _ end => destruct r as [[p|]|] end; [|done|done].
  apply wp_bind_ok. wp_ask; [by (intros _; exists p; split; [left|])|].
  match goal with |- match ?r with _ => _ end => destruct r as [[]|] end; [|done].
  apply wp_bind_ok. wp_ask; [exists p; split; [done|]; split; [right; left|left]|].
  match goal with |- match ?r with _ => _ end => destruct r as [[]|] end; [|done]. apply IH.
Qed.

(** Everything the control plane does with the gateway. *)
Inductive gateway_op : Type :=
  | GDispatch
  | GRecord (e : BillingUsageEvent)
  | GCollect
  | GReadiness (workspace : string)
  | GRequire (workspace : string)
  | GCheckout (fuel : nat) (workspace email plan : string)
  | GWebhook (raw : result string) (signature : string)
  | GPending (workspace : string)
  | GChange (workspace target : string) (expectedEnd : Z).
Definition forget {A} (p : billing A) : billing unit := _ ← p; Ret tt.
Definition gateway_program (op : gateway_op) : billing unit :=
  match op with
  | GDispatch => forget (DispatchUsage cfg)
  | GRecord e => forget (call (RecordUsage e))
  | GCollect => forget CollectUsage
  | GReadiness workspace => forget (billingPaymentReadiness cfg workspace)
  | GRequire workspace => forget (requireBillingPayment (Some cfg) workspace)
  | GCheckout fuel workspace email plan => forget (startBillingCheckout cfg PublicURL fuel workspace email plan)
  | GWebhook raw signature => forget (billingWebhook (Some cfg) raw signature)
  | GPending workspace => forget (pendingBillingPlan workspace)
  | GChange workspace target expectedEnd => forget (changeBillingPlan cfg workspace target expectedEnd)
  end.

Lemma usage_guarded op : safe usage_guard (gateway_program op).
Proof.
  destruct op; (apply safe_bind; [|intros ?; apply safe_ret]); try apply usage_dispatch;
    (eapply safe_mono; [intros ? ?; apply harmless_guard|]);
    auto using harmless_collect, harmless_readiness, harmless_require, harmless_checkout, harmless_webhook, harmless_pending, harmless_change.
  by refine (safe_call _ _ _).
Qed.

(** ** The usage table, between the programs

    A transaction on it may fail, before or after it took effect; everything
    else is answered by the world, which may change the other tables. *)
Record weather : Type := Weather {
  wt_failure : option error;
  wt_committed : bool;
  wt_clock : Z;
  wt_clock2 : Z;
  wt_locked : list string
}.

Section World.
Context {W : Type} (outlook : W -> billing_call -> weather * W) (numeric_floor : Z -> Z -> Z).
Context (world : W -> billing_db -> forall c, billing_answer c * billing_db).

Definition answer_under {A} (wt : weather) (db : billing_db) (r : result A * billing_db) : result A * billing_db :=
  match wt_failure wt with
  | None => r
  | Some e => (Err e, if wt_committed wt then r.2 else db)
  end.
Definition picked_of (u : usage_row) : picked_usage :=
  Picked (usage_row.ID u) (usage_row.CustomerID u) (usage_row.AmountCents u) (usage_row.OccurredAt u).

Definition ledger_answer (w : W) (wt : weather) (db : billing_db) (c : billing_call) : billing_answer c * billing_db :=
  match c with
  | RecordUsage e => answer_under wt db (RecordBillingUsage e (wt_clock wt) (wt_clock2 wt) (wt_clock wt) db)
  | RecordSnapshot workspace resources at_ =>
      answer_under wt db (recordResourceSnapshot numeric_floor workspace resources at_ (wt_clock wt) db)
  | MarkUncertain => answer_under wt db (Ok tt, mark_uncertain (wt_clock wt) db)
  | PickUsage =>
      let '(u, db') := pick_usage (wt_locked wt) (wt_clock wt) db in answer_under wt db (Ok (picked_of <$> u), db')
  | MarkSent id => answer_under wt db (Ok tt, mark_sent id (wt_clock wt) db)
  | c => let '(r, db') := world w db c in (r, with_usage (usage db) db')
  end.
Definition ledger_handler (st : billing_db * W) (c : billing_call) : billing_answer c * (billing_db * W) :=
  let '(wt, w) := outlook st.2 c in let '(r, db) := ledger_answer st.2 wt st.1 c in (r, (db, w)).

Definition recorded (db : billing_db) (p : picked_usage) : Prop := exists u, u ∈ usage db /\ picked_of u = p.
Definition ids_unique (db : billing_db) : Prop := NoDup (usage_row.ID <$> usage db).

(** What a step does to the table: rows stay what they are, and ids unique. *)
Definition usage_kept (db db' : billing_db) : Prop :=
  ids_unique db' /\ forall p, recorded db p -> recorded db' p.
Lemma usage_kept_refl db : ids_unique db -> usage_kept db db.
Proof. by split. Qed.
Lemma usage_kept_same db db' : usage db' = usage db -> ids_unique db -> usage_kept db db'.
Proof. unfold usage_kept, ids_unique, recorded. intros ->. by split. Qed.

Lemma usage_kept_update p f db :
  ids_unique db -> (forall u, picked_of (f u) = picked_of u) -> usage_kept db (with_usage (update_where p f (usage db)) db).
Proof.
  intros Hids Hf. split.
  - unfold ids_unique. cbn [usage with_usage]. rewrite keys_update_where; [done|]. intros u. specialize (Hf u). unfold picked_of in Hf. congruence.
  - intros q (u & Hu & Hq). exists (if p u then f u else u). split; [by apply elem_update|]. by destruct (p u); rewrite ?Hf.
Qed.

Lemma usage_kept_insert u db db' :
  ids_unique db -> existsb (fun x => usage_row.ID x == usage_row.ID u) (usage db) = false -> usage db' = usage db ++ [u] -> usage_kept db db'.
Proof.
  intros Hids Hu Hd. split.
  - unfold ids_unique. rewrite Hd. apply keys_insert; [done|]. intros y Hy%list_elem_of_In He.
    enough (existsb (fun x => usage_row.ID x == usage_row.ID u) (usage db) = true) by congruence.
    apply existsb_exists. exists y. split; [done|]. by apply bool_decide_true.
  - intros q (x & Hx & Hq). exists x. rewrite Hd. split; [apply elem_of_app; by left|done].
Qed.

Lemma usage_kept_trans db1 db2 db3 : usage_kept db1 db2 -> usage_kept db2 db3 -> usage_kept db1 db3.
Proof. intros [_ H1] [H2 H3]. split; auto. Qed.

Lemma record_kept e t1 t2 created db : ids_unique db -> usage_kept db (RecordBillingUsage e t1 t2 created db).2.
Proof.
  intros Hids. unfold RecordBillingUsage. destruct (negb _); [by apply usage_kept_refl|].
  destruct (billings db !! _); [|by apply usage_kept_refl]. destruct (find_usage _ _) eqn:Ef; [by apply usage_kept_refl|].
  destruct (charged_period _ _) as [[[]]|]; [|by apply usage_kept_refl]. eapply usage_kept_insert; [done| |done].
  apply not_true_iff_false. intros (x & Hx & E)%existsb_exists. cbn in E. unfold find_usage in Ef.
  by rewrite (find_none _ _ Ef x Hx) in E.
Qed.

Lemma charge_kept workspace customer subscription at_ created r s db db' :
  charge_resource numeric_floor workspace customer subscription at_ created r s db = Ok db' -> ids_unique db -> usage_kept db db'.
Proof.
  unfold charge_resource. destruct (rate _) as [n d]. destruct (_ <? 0); [done|]. destruct (negb _); [done|]. destruct (0 <? _).
  - destruct (_ || _); [done|]. destruct (existsb _ _) eqn:Ex; [done|]. intros [= <-] Hids. eapply usage_kept_insert; [done| |reflexivity]. exact Ex.
  - intros [= <-] Hids. by apply usage_kept_same.
Qed.

Lemma snapshot_kept workspace resources at_ created db :
  ids_unique db -> usage_kept db (recordResourceSnapshot numeric_floor workspace resources at_ created db).2.
Proof.
  intros Hids. unfold recordResourceSnapshot. apply tx_spec; [by apply usage_kept_refl|]. intros [] db' Hr.
  destruct (billings db !! workspace) as [b|]; [|done]. cbn [one_row mbind result_bind] in Hr.
  destruct (charged_period b at_) as [[[customer subscription] start]|]; [|done]. cbn [one_row mbind result_bind] in Hr.
  destruct (fold_left _ _ _) as [db1|] eqn:Ef; [|done]. cbn [mbind result_bind] in Hr. injection Hr as <-.
  assert (usage_kept db db1) as Hk.
  2:{ eapply usage_kept_trans; [exact Hk|]. apply usage_kept_same; [done|]. by destruct Hk. }
  clear -Ef Hids. revert db Hids Ef. induction resources as [|r l IH]; intros db Hids Ef; cbn [fold_left] in Ef.
  - injection Ef as <-. by apply usage_kept_refl.
  - destruct (snapshot_resource _ _ _ _ _ _ _ _ r) as [db2|e] eqn:E1.
    2:{ exfalso. clear -Ef. induction l as [|r' l IHl]; cbn in Ef; [done|auto]. }
    assert (usage_kept db db2) as Hk; [|eapply usage_kept_trans; [exact Hk|]; apply IH; [by destruct Hk|done]].
    unfold snapshot_resource in E1. cbn [mbind result_bind] in E1. unfold store_sample in E1.
    destruct (samples db !! _) as [s|]; [|destruct (_ <? 0); [done|]; injection E1 as <-; by apply usage_kept_same].
    destruct (negb _); [injection E1 as <-; by apply usage_kept_refl|].
    destruct (chargeable _ _ _ _); [destruct (charge_resource _ _ _ _ _ _ _ _ _) as [db3|] eqn:E3; [|done]|].
    + cbn in E1. destruct (_ <? 0); [done|]. injection E1 as <-. apply charge_kept in E3; [|done].
      eapply usage_kept_trans; [exact E3|]. apply usage_kept_same; [done|]. by destruct E3.
    + cbn in E1. destruct (_ <? 0); [done|]. injection E1 as <-. by apply usage_kept_same.
Qed.

Lemma answer_kept {A} wt db (r : result A * billing_db) : ids_unique db -> usage_kept db r.2 -> usage_kept db (answer_under wt db r).2.
Proof. intros Hids Hk. unfold answer_under. destruct (wt_failure wt); [|done]. cbn. destruct (wt_committed wt); [done|by apply usage_kept_refl]. Qed.

Lemma pick_kept locked t db : ids_unique db -> usage_kept db (pick_usage locked t db).2.
Proof. intros Hids. unfold pick_usage. destruct (oldest_usage _); [by apply usage_kept_update|by apply usage_kept_refl]. Qed.

Lemma oldest_usage_in l u : oldest_usage l = Some u -> u ∈ l.
Proof.
  revert u. induction l as [|x l IH]; intros u; cbn [oldest_usage]; [done|].
  destruct (oldest_usage l) as [y|]; [|intros [= <-]; left].
  destruct (_ <? _); intros [= <-]; [right; by apply IH|left].
Qed.

Lemma pick_recorded locked t db u : (pick_usage locked t db).1 = Some u -> u ∈ usage db.
Proof.
  unfold pick_usage. destruct (oldest_usage _) as [x|] eqn:Eo; [|done]. intros [= <-].
  apply oldest_usage_in, list_elem_of_In, List.filter_In in Eo as [Hin _]. by apply list_elem_of_In.
Qed.

Lemma ledger_kept w wt db c : ids_unique db -> usage_kept db (ledger_answer w wt db c).2.
Proof.
  intros Hids.
  assert (usage_kept db (let '(r, db') := world w db c in (r, with_usage (usage db) db')).2) as Hother.
  { destruct (world w db c) as [r db1]. by apply usage_kept_same. }
  destruct c; cbn [ledger_answer]; try exact Hother.
  - apply answer_kept; [done|]. by apply usage_kept_update.
  - destruct (pick_usage _ _ _) as [u db'] eqn:Ep. apply answer_kept; [done|]. cbn. change db' with (u, db').2. rewrite <- Ep. by apply pick_kept.
  - apply answer_kept; [done|]. by apply usage_kept_update.
  - apply answer_kept; [done|]. by apply record_kept.
  - apply answer_kept; [done|]. by apply snapshot_kept.
Qed.

Lemma ledger_picks w wt db p db' : ledger_answer w wt db PickUsage = (Ok (Some p), db') -> recorded db p.
Proof.
  cbn [ledger_answer]. destruct (pick_usage _ _ _) as [u db1] eqn:Ep. unfold answer_under. destruct (wt_failure wt); [done|].
  intros [= Hp _]. destruct u as [u|]; [|done]. injection Hp as <-. exists u. split; [|done]. apply (pick_recorded (wt_locked wt) (wt_clock wt)). by rewrite Ep.
Qed.

(** *** What was marked as sent *)
(** A row that is marked was marked before, or is now. *)
Definition marks_kept (c : billing_call) (db db' : billing_db) : Prop :=
  forall u', u' ∈ usage db' -> usage_row.SentAt u' <> None ->
    exists u, u ∈ usage db /\ picked_of u = picked_of u' /\ (usage_row.SentAt u <> None \/ c = MarkSent (usage_row.ID u)).

Lemma marks_kept_same c db db' : usage db' = usage db -> marks_kept c db db'.
Proof. intros He u' Hu' Hs. rewrite He in Hu'. exists u'. auto. Qed.

Lemma marks_kept_insert c db db' u : usage db' = usage db ++ [u] -> usage_row.SentAt u = None -> marks_kept c db db'.
Proof.
  intros He Hu u' Hu' Hs. rewrite He in Hu'. apply elem_of_app in Hu' as [Hu'| ->%list_elem_of_singleton]; [|done]. exists u'. auto.
Qed.

Lemma marks_kept_update c p f db :
  (forall u, picked_of (f u) = picked_of u) -> (forall u, usage_row.SentAt (f u) <> None -> p u = true -> usage_row.SentAt u <> None \/ c = MarkSent (usage_row.ID u)) ->
  marks_kept c db (with_usage (update_where p f (usage db)) db).
Proof.
  intros Hf Hm u' Hu' Hs. cbn [usage with_usage] in Hu'. apply update_elem in Hu' as (u & Hu & ->). exists u. split; [done|].
  destruct (p u) eqn:Ep; [|by auto]. split; [done|]. by apply Hm.
Qed.

Lemma marks_kept_trans c db1 db2 db3 : marks_kept c db1 db2 -> (forall c', marks_kept c' db2 db3) -> marks_kept c db1 db3.
Proof.
  intros H1 H2 u3 Hu3 Hs3. destruct (H2 PickUsage u3 Hu3 Hs3) as (u2 & Hu2 & E2 & [Hs2|?]); [|done].
  destruct (H1 u2 Hu2 Hs2) as (u1 & Hu1 & E1 & Hs1). exists u1. split; [done|]. split; [congruence|done].
Qed.

Lemma snapshot_marks c workspace resources at_ created db :
  marks_kept c db (recordResourceSnapshot numeric_floor workspace resources at_ created db).2.
Proof.
  unfold recordResourceSnapshot. apply tx_spec; [by apply marks_kept_same|]. intros [] db' Hr.
  destruct (billings db !! workspace) as [b|]; [|done]. cbn [one_row mbind result_bind] in Hr.
  destruct (charged_period b at_) as [[[customer subscription] start]|]; [|done]. cbn [one_row mbind result_bind] in Hr.
  destruct (fold_left _ _ _) as [db1|] eqn:Ef; [|done]. cbn [mbind result_bind] in Hr. injection Hr as <-.
  assert (forall c, marks_kept c db db1) as Hk by
    (clear -Ef; revert db Ef; induction resources as [|r l IH]; intros db Ef c; cbn [fold_left] in Ef;
     [injection Ef as <-; by apply marks_kept_same|];
     destruct (snapshot_resource _ _ _ _ _ _ _ _ r) as [db2|e] eqn:E1;
     [|exfalso; clear -Ef; induction l as [|r' l IHl]; cbn in Ef; [done|auto]];
     eapply marks_kept_trans; [|by intros c'; apply IH];
     unfold snapshot_resource in E1; cbn [mbind result_bind] in E1; unfold store_sample, charge_resource in E1;
     repeat case_match; simplify_eq/=; repeat case_match; simplify_eq/=;
     first [by apply marks_kept_same|by eapply marks_kept_insert]).
  intros u' Hu' Hs. exact (Hk c u' Hu' Hs).
Qed.

Lemma answer_marks {A} c wt db (r : result A * billing_db) : marks_kept c db r.2 -> marks_kept c db (answer_under wt db r).2.
Proof. intros Hk. unfold answer_under. destruct (wt_failure wt); [|done]. cbn. destruct (wt_committed wt); [done|by apply marks_kept_same]. Qed.

Lemma ledger_marks w wt db c : marks_kept c db (ledger_answer w wt db c).2.
Proof.
  assert (marks_kept c db (let '(r, db') := world w db c in (r, with_usage (usage db) db')).2) as Hother.
  { destruct (world w db c) as [r db1]. by apply marks_kept_same. }
  destruct c; cbn [ledger_answer]; try exact Hother.
  - apply answer_marks, marks_kept_update; auto.
  - destruct (pick_usage _ _ _) as [u db'] eqn:Ep. apply answer_marks. cbn. change db' with (u, db').2. rewrite <- Ep.
    unfold pick_usage. destruct (oldest_usage _); [apply marks_kept_update; auto|by apply marks_kept_same].
  - apply answer_marks, marks_kept_update; [done|]. intros u _ E. bool_inv. right. congruence.
  - apply answer_marks. unfold RecordBillingUsage. destruct (negb _); [by apply marks_kept_same|].
    destruct (billings db !! _); [|by apply marks_kept_same]. destruct (find_usage _ _); [by apply marks_kept_same|].
    destruct (charged_period _ _) as [[[]]|]; [by eapply marks_kept_insert|by apply marks_kept_same].
  - apply answer_marks. by apply snapshot_marks.
Qed.

(** What was picked is in the table. *)
Definition fact_of (db : billing_db) (c : billing_call) : billing_answer c -> Prop :=
  match c with
  | PickUsage => fun r => match r with Ok (Some p) => recorded db p | _ => True end
  | _ => fun _ => True
  end.
Definition usage_fact (st : billing_db * W) (e : event billing_answer) : Prop := fact_of st.1 (ev_call e) (ev_answer e).

Lemma ledger_step st h c r st' :
  ids_unique st.1 -> usage_guard h c -> Forall (usage_fact st) h -> ledger_handler st c = (r, st') ->
  ids_unique st'.1 /\ usage_fact st' (Event c r) /\ forall e, usage_fact st e -> usage_fact st' e.
Proof.
  unfold ledger_handler. intros Hids _ _. destruct (outlook st.2 c) as [wt w]. destruct (ledger_answer _ _ _ _) as [r' db] eqn:El.
  intros [= <- <-]. pose proof (ledger_kept st.2 wt st.1 c Hids) as Hk. rewrite El in Hk. destruct Hk as [Hids' Hk]. split; [done|]. split.
  - unfold usage_fact. destruct c; try exact I. cbn [ev_call ev_answer fact_of fst]. destruct r' as [[p|]|]; try exact I.
    apply Hk. by eapply ledger_picks.
  - intros [c' r] He. unfold usage_fact in *. destruct c'; try exact I. cbn [ev_call ev_answer fact_of fst] in *.
    destruct r as [[p|]|]; try exact I. by apply Hk.
Qed.

(** The key under which a request sends usage. *)
Definition usage_key (c : billing_call) : option string :=
  match c with Stripe _ path _ key _ => if path == meter_path then Some key else None | _ => None end.

(** The rows marked as sent were accepted in some thread. *)
Definition marks_justified (ts : list (thread billing_answer unit)) (db : billing_db) : Prop :=
  forall u, u ∈ usage db -> usage_row.SentAt u <> None -> exists t, t ∈ ts /\ sent (th_history t) (picked_of u).

Lemma marks_step ts st ts' st' :
  pool_step ledger_handler (ts, st) (ts', st') -> ids_unique st.1 -> Forall (factual usage_guard usage_fact st) ts ->
  marks_justified ts st.1 -> marks_justified ts' st'.1.
Proof.
  intros Hs Hids Hts Hj. inversion Hs as [ts0 i c k h st0 r st1 Hi Hh]; subst.
  assert (forall p, (exists t, t ∈ ts /\ sent (th_history t) p) -> exists t, t ∈ <[i := Thread (k r) (Event c r :: h)]> ts /\ sent (th_history t) p) as Hgrow.
  { intros p (t & Ht & Hp). apply list_elem_of_lookup in Ht as [j Hj'].
    destruct (decide (j = i)) as [->|Hne].
    - exists (Thread (k r) (Event c r :: h)). split; [apply list_elem_of_lookup; exists i; apply list_lookup_insert_eq; by eapply lookup_lt_Some|].
      rewrite Hi in Hj'. injection Hj' as <-. by right.
    - exists t. split; [|done]. apply list_elem_of_lookup. exists j. by rewrite list_lookup_insert_ne. }
  intros u' Hu' Hs'. unfold ledger_handler in Hh. destruct (outlook st.2 c) as [wt w].
  destruct (ledger_answer _ _ _ _) as [r' db] eqn:El. injection Hh as <- <-. cbn [fst] in Hu'.
  pose proof (ledger_marks st.2 wt st.1 c u') as Hm. rewrite El in Hm. destruct (Hm Hu' Hs') as (u & Hu & Ep & [Hsent| ->]).
  - rewrite <- Ep. by apply Hgrow, Hj.
  - pose proof (Forall_lookup_1 _ _ _ _ Hts Hi) as ([(p & Hid & Hp & Hsent) _] & Hf & _). apply Hgrow.
    exists (Thread (Call (MarkSent (usage_row.ID u)) k) h). split; [by apply list_elem_of_lookup; exists i|].
    rewrite Forall_forall in Hf. destruct (Hf _ Hp) as (u0 & Hu0 & E0).
    assert (u0 = u) as ->; [|by rewrite <- Ep, E0].
    eapply (key_unique usage_row.ID); [exact Hids|done..|]. rewrite <- Hid, <- E0. done.
Qed.

(** C16: usage is billed as it was recorded.  However dispatchers, collectors,
    checkouts, webhooks and reports interleave, and whatever is answered or
    fails: every request that sends usage carries the customer, the amount and
    the time of a recorded row, under a key made of its identifier, so two
    requests under one key are the same request, which the service counts
    once; and a row is marked as sent only after the service accepted it. *)
Theorem usage_sent_as_recorded ops db w ts db' w' :
  ids_unique db -> Forall (fun u => usage_row.SentAt u = None) (usage db) ->
  rtc (pool_step ledger_handler) ((fun op => Thread (gateway_program op) []) <$> ops, (db, w)) (ts, (db', w')) ->
  let requests := fun key c => usage_key c = Some key /\ exists t e, t ∈ ts /\ e ∈ th_history t /\ ev_call e = c in
  (forall key c, requests key c ->
     exists u, u ∈ usage db' /\ key = "canter-usage-" +:+ usage_row.ID u /\ c = meter_request cfg (picked_of u)) /\
  (forall key c c', requests key c -> requests key c' -> c = c') /\
  (forall u, u ∈ usage db' -> usage_row.SentAt u <> None -> exists t, t ∈ ts /\ sent (th_history t) (picked_of u)).
Proof.
  intros Hids Hun Hrun requests.
  assert ((ids_unique db' /\ Forall (factual usage_guard usage_fact (db', w')) ts) /\ marks_justified ts db') as [[Hids' Hts] Hj].
  { apply (pool_invariant ledger_handler (fun x => (ids_unique x.2.1 /\ Forall (factual usage_guard usage_fact x.2) x.1) /\ marks_justified x.1 x.2.1)
             _ (ts, (db', w'))) in Hrun; [done| |].
    - split; [split; [done|]|]; cbn [fst snd].
      + apply Forall_fmap, Forall_true. intros op. apply factual_start, usage_guarded.
      + intros u Hu Hs. rewrite Forall_forall in Hun. by apply Hun in Hu.
    - intros [ts1 st1] [ts2 st2] [[H1 H2] H3] Hs. cbn [fst snd] in *. split; [|by eapply marks_step].
      by eapply (factual_step ledger_handler (fun st => ids_unique st.1) usage_guard usage_fact ledger_step). }
  assert (forall key c, requests key c ->
     exists u, u ∈ usage db' /\ key = "canter-usage-" +:+ usage_row.ID u /\ c = meter_request cfg (picked_of u)) as Hreq.
  { intros key c (Hkey & t & e & Ht & He & <-). rewrite Forall_forall in Hts. destruct (Hts t Ht) as (_ & Hf & Hp).
    clear -Hkey He Hf Hp. induction (th_history t) as [|e' h IH]; [by apply not_elem_of_nil in He|].
    apply Forall_cons in Hf as [_ Hf]. destruct Hp as [Hg Hp]. apply elem_of_cons in He as [->|He]; [|by apply IH].
    destruct e' as [c a]. cbn [ev_call] in *. destruct c; cbn [usage_key] in Hkey; try done.
    case_bool_decide as Epath; [|done]. injection Hkey as ->. destruct (Hg Epath) as (p & Hpick & Hc).
    rewrite Forall_forall in Hf. destruct (Hf _ Hpick) as (u & Hu & Eu). exists u. split; [done|]. rewrite Eu. split; [|done].
    unfold meter_request in Hc. injection Hc as _ _ _ -> _. by rewrite <- Eu. }
  split; [done|]. split; [|exact Hj].
  intros key c c' (u & Hu & Ek & ->)%Hreq (u' & Hu' & Ek' & ->)%Hreq. assert (u = u') as ->; [|done].
  eapply (key_unique usage_row.ID); [exact Hids'|done..|]. rewrite Ek in Ek'. by apply append_inj_l in Ek'.
Qed.
End World.
End Dispatch.

Abbreviation wp_any guard p Q h := (wp (fun _ _ _ => True) guard p Q h) (only parsing).

(** ** Prices *)
(** What the payment service charges for a quantity at a price: a unit amount,
    or graduated tiers, each of which charges its units above the tier before
    and, once reached, its flat amount. *)
Fixpoint graduated (from : Z) (tiers : list price_tier) (n : Z) : Z :=
  match tiers with
  | [] => 0
  | tier :: rest =>
      let last := match price_tier.UpTo tier with Some up => Z.min n up | None => n end in
      if n <=? from then 0
      else default 0 (price_tier.UnitAmount tier) * (last - from) + default 0 (price_tier.FlatAmount tier) + graduated last rest n
  end.
Definition price_charge (p : stripe_price) (n : Z) : Z :=
  if stripe_price.BillingScheme p == "tiered" then graduated 0 (stripe_price.Tiers p) n else default 0 (stripe_price.UnitAmount p) * n.

Definition total_of (plan : string) (usageCents : Z) : option Z :=
  match Calculate plan usageCents with Ok b => Some (Bill.TotalCents b) | Err _ => None end.

Lemma is_some_z_spec o v : is_some_z o v = true -> o = Some v.
Proof. destruct o; [|done]. cbn. intros E. f_equal. lia. Qed.
Lemma none_or_zero_spec o : none_or_zero o = true -> default 0 o = 0.
Proof. destruct o; [|done]. cbn. lia. Qed.

(** The bill, without overflow. *)
Lemma Calculate_spec plan n : 0 <= n <= 1000000000 ->
  Calculate plan n =
    match Find plan with
    | None => Err (Errorf "invalid plan or usage amount")
    | Some p =>
        let credit := Z.min n (PricingPlan.IncludedUsageCents p) in
        Ok (Bill.mk (PricingPlan.ID p) "usd" (PricingPlan.MonthlyCents p) n credit (PricingPlan.IncludedUsageCents p - credit)
              (n - credit) (PricingPlan.MonthlyCents p + n - credit))
    end.
Proof.
  intros Hn. unfold Calculate, Find, Current. cbn [Catalog.Plans Catalog.Currency List.find PricingPlan.ID].
  assert ((n <? 0) || (1000000000 <? n) = false) as -> by (apply orb_false_iff; split; lia).
  assert (forall x, - 10 ^ 10 <= x <= 10 ^ 10 -> i64 x = x) as Hi by (intros x Hx; apply i64_id; unfold int_range, min_int, max_int; lia).
  destruct ("payg" == plan); [|destruct ("pro" == plan); [|done]]; cbn [PricingPlan.ID PricingPlan.MonthlyCents PricingPlan.IncludedUsageCents];
    unfold sub64, add64; rewrite !Hi by (rewrite ?Hi by lia; lia); done.
Qed.

Section Prices.
Context `{StripeDecode} (cfg : BillingConfig).

Lemma payg_total p n : valid_price cfg "payg" p = true -> 0 <= n <= 1000000000 -> total_of "payg" n = Some (price_charge p n).
Proof.
  unfold valid_price. change ("payg"%string == "base"%string) with false. change ("payg"%string == "payg"%string) with true. intros Hv Hn. cbv beta iota zeta in Hv. bool_inv.
  unfold total_of, price_charge. rewrite Calculate_spec by done.
  change (Find "payg") with (Some (PricingPlan.mk "payg" "Pay as you go" 0 0)). cbn [PricingPlan.IncludedUsageCents PricingPlan.MonthlyCents Bill.TotalCents].
  match goal with Hu : is_some_z _ _ = true |- _ => apply is_some_z_spec in Hu; rewrite Hu end.
  match goal with Hs : stripe_price.BillingScheme p = _ |- _ => rewrite Hs end. change ("per_unit"%string == "tiered"%string) with false.
  cbn. f_equal. lia.
Qed.

Lemma base_charge p : valid_price cfg "base" p = true -> price_charge p 1 = 2000.
Proof.
  unfold valid_price. change ("base"%string == "base"%string) with true. intros Hv. cbv beta iota zeta in Hv. bool_inv. unfold price_charge.
  match goal with Hu : is_some_z _ _ = true |- _ => apply is_some_z_spec in Hu; rewrite Hu end.
  by match goal with Hs : stripe_price.BillingScheme p = _ |- _ => rewrite Hs end.
Qed.

Lemma tiers_charge tiers n : valid_tiers tiers = true -> 0 <= n -> graduated 0 tiers n = n - Z.min n 2000.
Proof.
  unfold valid_tiers. destruct tiers as [|a [|z []]]; try done. intros Ht Hn. bool_inv.
  repeat match goal with Hu : is_some_z _ _ = true |- _ => apply is_some_z_spec in Hu end.
  repeat match goal with Hu : none_or_zero _ = true |- _ => apply none_or_zero_spec in Hu end.
  change (PricingPlan.IncludedUsageCents pro_plan) with 2000 in *.
  destruct (price_tier.UpTo z) eqn:Ez; [done|]. cbn [graduated]. rewrite Ez.
  repeat match goal with Hu : _ _ = Some _ |- _ => rewrite Hu end.
  repeat match goal with Hu : default 0 _ = 0 |- _ => rewrite Hu end. cbn [default from_option id].
  destruct (n <=? 0) eqn:E0; [lia|]. destruct (n <=? Z.min n 2000) eqn:E1; lia.
Qed.

Lemma overage_charge p n : valid_price cfg "overage" p = true -> 0 <= n -> price_charge p n = n - Z.min n 2000.
Proof.
  unfold valid_price. change ("overage"%string == "base"%string) with false. change ("overage"%string == "payg"%string) with false. intros Hv Hn. cbv beta iota zeta in Hv. bool_inv.
  unfold price_charge. match goal with Hs : stripe_price.BillingScheme p = _ |- _ => rewrite Hs end.
  change ("tiered"%string == "tiered"%string) with true. cbn match. by apply tiers_charge.
Qed.

Lemma pro_total base over n :
  valid_price cfg "base" base = true -> valid_price cfg "overage" over = true -> 0 <= n <= 1000000000 ->
  total_of "pro" n = Some (price_charge base 1 + price_charge over n).
Proof.
  intros Hb Ho Hn. rewrite (base_charge base), (overage_charge over) by (done || lia). unfold total_of. rewrite Calculate_spec by done.
  change (Find "pro") with (Some (PricingPlan.mk "pro" "Pro" 2000 2000)).
  cbn [PricingPlan.IncludedUsageCents PricingPlan.MonthlyCents Bill.TotalCents]. f_equal. lia.
Qed.

Definition price_shown (h : list (event billing_answer)) (id : string) (p : stripe_price) : Prop :=
  Event (Stripe "GET" ("/v1/prices/" +:+ PathEscape id) [("expand[]"%string, "tiers"%string)] "" (Some SPrice)) (Ok p) ∈ h.

(** The prices that were shown charge what the catalog says, for every use of a period. *)
Definition catalog_charged (h : list (event billing_answer)) : Prop :=
  (exists p, price_shown h (BillingConfig.PaygPriceID cfg) p /\ forall n, 0 <= n <= 1000000000 -> total_of "payg" n = Some (price_charge p n)) /\
  (BillingConfig.ProPriceID cfg <> "" ->
   exists base over, price_shown h (BillingConfig.ProPriceID cfg) base /\ price_shown h (BillingConfig.ProUsagePriceID cfg) over /\
     forall n, 0 <= n <= 1000000000 -> total_of "pro" n = Some (price_charge base 1 + price_charge over n)).
(** Only reads, and the note that all prices were validated. *)
Definition validation_guard (h : list (event billing_answer)) (c : billing_call) : Prop :=
  match c with
  | ReadValidated => True
  | Stripe method _ _ key _ => method = "GET"%string /\ key = EmptyString
  | WriteValidated => catalog_charged h
  | _ => False
  end.

Definition spec_shown (h : list (event billing_answer)) (spec : string * string) : Prop :=
  exists p, price_shown h spec.1 p /\ valid_price cfg spec.2 p = true.

Lemma wp_validate_specs specs h :
  wp_any validation_guard (validate_specs cfg specs)
    (fun h' r => (exists l, h' = l ++ h) /\ (r = Ok tt -> Forall (spec_shown h') specs)) h.
Proof.
  revert h. induction specs as [|[id kind] specs IH]; intros h; cbn [validate_specs]; [apply wp_ret; split; [by exists []|by constructor]|].
  apply wp_bind_ok. unfold stripe. wp_ask. match goal with |- match ?r with _ => _ end => destruct r as [p|e] end.
  2:{ split; [by exists [Event (Stripe "GET" ("/v1/prices/" +:+ PathEscape id) [("expand[]", "tiers")]%string "" (Some SPrice)) (Err e)]|done]. }
  destruct (negb (valid_price cfg kind p)) eqn:Ev.
  { apply wp_ret. split; [by eexists [_]|done]. }
  eapply wp_mono; [apply IH|]. intros h' r [[l ->] Hr]. split; [eexists (l ++ [_]); by rewrite <- app_assoc|].
  intros E. constructor; [|by apply Hr]. exists p. split; [|by apply negb_false_iff in Ev]. apply elem_of_app. right. left.
Qed.

Lemma specs_catalog h l : price_specs cfg = Ok l -> Forall (spec_shown h) l -> catalog_charged h.
Proof.
  unfold price_specs. destruct (xorb _ _); [done|]. destruct (BillingConfig.ProPriceID cfg != "") eqn:Ep; intros [= <-] Hl.
  - apply Forall_cons in Hl as [(p & Hp & Hvp) Hl]. apply Forall_cons in Hl as [(b & Hb & Hvb) Hl]. apply Forall_cons in Hl as [(o & Ho & Hvo) _].
    cbn [fst snd] in *. split; [|intros _].
    + exists p. split; [done|]. intros n Hn. by apply payg_total.
    + exists b, o. split_and!; [done|done|]. intros n Hn. by apply pro_total.
  - apply Forall_cons in Hl as [(p & Hp & Hvp) _]. cbn [fst snd] in *. split.
    + exists p. split; [done|]. intros n Hn. by apply payg_total.
    + intros Hne. by bool_inv.
Qed.

(** C31: validated prices charge the published bill.  Validation only reads; it
    answers, and notes, that the configuration is valid only if it did before or
    if the service has just shown, for each configured price, one that charges:
    pay-as-you-go use alone, or the Pro price once with the graduated use, is
    exactly the total of [Calculate] for every use of a period up to the limit,
    so the included credit is counted once. *)
Theorem ValidatePrices_charge_catalog h :
  wp_any validation_guard (ValidatePrices cfg)
    (fun h' r => r = Ok tt -> Event ReadValidated true ∈ h' \/ catalog_charged h') h.
Proof.
  unfold ValidatePrices. apply wp_bind. wp_ask. match goal with |- wp _ _ (if ?b then _ else _) _ _ => destruct b end.
  { apply wp_ret. intros _. left. left. }
  unfold lift. apply wp_bind_ok, wp_ret. destruct (price_specs cfg) as [specs|e] eqn:Es; [|done].
  apply wp_bind_ok. eapply wp_mono; [apply wp_validate_specs|]. intros h' [[]|e] [_ Hs]; [|done]. specialize (Hs eq_refl).
  assert (catalog_charged h') as Hc by by eapply specs_catalog. apply wp_bind_ok. unfold stripe. wp_ask.
  match goal with |- match ?r with _ => _ end => destruct r as [meter|e] end; [|done].
  assert (forall e, catalog_charged (e :: h')) as Hgrow.
  { intros e. destruct Hc as [(p & Hp & Hn) Hpro]. split; [exists p; split; [by right|done]|]. intros Hne.
    destruct (Hpro Hne) as (b & o & Hb & Ho & Hbo). exists b, o. split_and!; [by right|by right|done]. }
  destruct (negb _); [done|]. apply wp_bind. wp_ask; [apply Hgrow|]. apply wp_ret. intros _. right.
  destruct (Hgrow (Event (Stripe "GET" ("/v1/billing/meters/" +:+ PathEscape (BillingConfig.MeterID cfg)) [] "" (Some SMeter)) (Ok meter)))
    as [(p & Hp & Hn) Hpro]. split; [exists p; split; [by right|done]|]. intros Hne.
  destruct (Hpro Hne) as (b & o & Hb & Ho & Hbo). exists b, o. split_and!; [by right|by right|done].
Qed.
End Prices.

(** ** The webhook *)
Section Webhook.
Context `{Unicode} `{StripeDecode} (cfg : BillingConfig) (raw signature : string).

(** The event the service signed, when it was read. *)
Definition signed_event (h : list (event billing_answer)) (e : webhook_event) : Prop :=
  decode_event raw = Ok e /\ exists now, Event Wall now ∈ h /\ verifyBillingSignature raw signature (BillingConfig.WebhookSecret cfg) now = true.

Definition customer_of (e : webhook_event) : string := invoice_object.Customer (webhook_event.Object e).
Definition first_time (h : list (event billing_answer)) (e : webhook_event) : Prop := Event (InsertWebhookEvent (webhook_event.ID e)) (Ok true) ∈ h.
Definition locked_workspace (h : list (event billing_answer)) (e : webhook_event) (workspace : string) : Prop :=
  Event (LockByCustomer (customer_of e)) (Ok (Some workspace)) ∈ h.

Definition list_call (customer : string) : billing_call :=
  Stripe "GET" "/v1/subscriptions"
    [("customer", customer); ("status", "all"); ("limit", "100"); ("expand[]", "data.latest_invoice")]%string "" (Some SSubscriptions).

(** The subscriptions the service lists, read while the workspace is locked. *)
Definition listed_under_lock (h : list (event billing_answer)) (e : webhook_event) (workspace : string) (l : list stripeSubscription) : Prop :=
  exists h1 h2, h = h1 ++ Event (list_call (customer_of e)) (Ok (l, false)) :: h2 /\ locked_workspace h2 e workspace.

Definition written_subscription (l : list stripeSubscription) (subscription plan status : string) (start stop : Z) (cancel : bool) : Prop :=
  exists s, List.filter live_subscription l = [s] /\ subscription = stripeSubscription.ID s /\ subscriptionPlan cfg s = Ok plan /\
    start = (period_of s).1 * Second /\ stop = (period_of s).2 * Second /\ start < stop /\
    cancel = stripeSubscription.CancelAtPeriodEnd s /\
    (status = "active" -> stripeSubscription.Status s = "active" /\ (plan = "pro" -> paid_invoice s = true)).

(** What the event says was written for the workspace it locked. *)
Definition invoice_counted (h : list (event billing_answer)) (e : webhook_event) (w : string) : Prop :=
  settled_invoice e = true -> Event (InsertInvoice (invoice_object.ID (webhook_event.Object e)) (invoice_of w (webhook_event.Object e))) (Ok tt) ∈ h.
Definition subscription_recorded (h : list (event billing_answer)) (w : string) : Prop :=
  Event (CancelBilling w) (Ok tt) ∈ h \/
  exists subscription plan status start stop cancel, Event (SetBilling w subscription plan status start stop cancel) (Ok tt) ∈ h.

Definition webhook_guard (h : list (event billing_answer)) (c : billing_call) : Prop :=
  match c with
  | Wall => True
  | Stripe method _ _ key _ => method = "GET"%string /\ key = EmptyString
  | _ =>
      exists e, signed_event h e /\
        match c with
        | Begin => True
        | InsertWebhookEvent id => id = webhook_event.ID e
        | LockByCustomer customer => first_time h e /\ customer = customer_of e
        | InsertInvoice id row =>
            exists w, first_time h e /\ locked_workspace h e w /\ settled_invoice e = true /\
              id = invoice_object.ID (webhook_event.Object e) /\ row = invoice_of w (webhook_event.Object e)
        | CancelBilling w => exists l, first_time h e /\ listed_under_lock h e w l /\ List.filter live_subscription l = []
        | SetBilling w subscription plan status start stop cancel =>
            exists l, first_time h e /\ listed_under_lock h e w l /\ written_subscription l subscription plan status start stop cancel
        | ClearInactiveSamples w => first_time h e /\ exists l, listed_under_lock h e w l
        | Commit =>
            first_time h e /\
            (Event (LockByCustomer (customer_of e)) (Ok None) ∈ h \/
             exists w, invoice_counted h e w /\ subscription_recorded h w /\ Event (ClearInactiveSamples w) (Ok tt) ∈ h)
        | _ => False
        end
  end.

(** The event ended without a commit. *)
Definition commits (c : billing_call) : billing_answer c -> bool :=
  match c with Commit => fun r => match r with Ok _ => true | Err _ => false end | _ => fun _ => false end.
Definition uncommitted (h : list (event billing_answer)) : Prop := Forall (fun e => commits (ev_call e) (ev_answer e) = false) h.
(** An event that needs nothing: not one of billing, or seen before. *)
Definition nothing_due (h : list (event billing_answer)) (e : webhook_event) : Prop :=
  webhook_event.Type_ e ∉ billing_events \/ Event (InsertWebhookEvent (webhook_event.ID e)) (Ok false) ∈ h.
(** Success is answered right after the commit, or when nothing was due; a
    refused or failed event is not committed. *)
Definition webhook_post (h : list (event billing_answer)) (r : webhook_answer) : Prop :=
  match r with
  | Received => (exists h', h = Event (R := billing_answer) Commit (Ok tt) :: h') \/
                uncommitted h /\ exists e, signed_event h e /\ nothing_due h e
  | _ => uncommitted h
  end.

Lemma current_subscription_spec l current r :
  current_subscription l current = Ok r ->
  match current with
  | None => match r with None => List.filter live_subscription l = [] | Some s => List.filter live_subscription l = [s] end
  | Some s => r = Some s /\ List.filter live_subscription l = []
  end.
Proof.
  revert current. induction l as [|s l IH]; intros current; cbn [current_subscription List.filter].
  - intros [= <-]. by destruct current.
  - destruct (live_subscription s); [|apply IH]. destruct current; [done|]. intros Hr. apply IH in Hr as [-> ->]. done.
Qed.

Lemma active_status plan s : subscription_status plan s = "active"%string -> stripeSubscription.Status s = "active"%string /\ (plan = "pro"%string -> paid_invoice s = true).
Proof.
  unfold subscription_status. destruct (paid_invoice s); cbn [negb]; rewrite ?andb_true_r, ?andb_false_r; [done|].
  destruct (plan == "pro") eqn:Ep; cbn [andb].
  - destruct (stripeSubscription.Status s == "active") eqn:Es; [done|]. intros Ha. rewrite Ha in Es. by rewrite bool_decide_true in Es.
  - intros Ha. split; [done|]. intros ->. by rewrite bool_decide_true in Ep.
Qed.

Lemma wp_store_failed (p : billing (result unit)) (k : billing webhook_answer) Q h :
  wp_any webhook_guard p (fun h' r => match r with Ok _ => wp_any webhook_guard k Q h' | Err e => Q h' (Failed e) end) h ->
  wp_any webhook_guard (store_failed p k) Q h.
Proof. intros Hp. unfold store_failed. apply wp_bind. eapply wp_mono; [exact Hp|]. by intros h' [[]|e]. Qed.

Lemma signed_cons h e a : signed_event h e -> signed_event (a :: h) e.
Proof. intros (Hd & t & Ht & Hv). split; [done|]. exists t. split; [by right|done]. Qed.
Lemma first_cons h e a : first_time h e -> first_time (a :: h) e.
Proof. by right. Qed.
Lemma locked_cons h e w a : locked_workspace h e w -> locked_workspace (a :: h) e w.
Proof. by right. Qed.
Lemma listed_cons h e w l a : listed_under_lock h e w l -> listed_under_lock (a :: h) e w l.
Proof. intros (h1 & h2 & -> & Hl). by exists (a :: h1), h2. Qed.
#[local] Hint Resolve signed_cons first_cons locked_cons listed_cons : webhook.
#[local] Hint Extern 1 (uncommitted (_ :: _)) => constructor; [reflexivity|] : webhook.

Lemma counted_cons h e w a : invoice_counted h e w -> invoice_counted (a :: h) e w.
Proof. intros Hc Hs. right. by apply Hc. Qed.
Lemma recorded_cons h w a : subscription_recorded h w -> subscription_recorded (a :: h) w.
Proof. intros [Hc|(s & p & st & a1 & a2 & c & Hc)]; [left; by right|right]. exists s, p, st, a1, a2, c. by right. Qed.
#[local] Hint Resolve counted_cons recorded_cons : webhook.

(** What is known once the subscriptions were listed. *)
Record known (e : webhook_event) (w : string) (l : list stripeSubscription) (h : list (event billing_answer)) : Prop := {
  kn_uncommitted : uncommitted h;
  kn_signed : signed_event h e;
  kn_first : first_time h e;
  kn_listed : listed_under_lock h e w l;
  kn_counted : invoice_counted h e w
}.
Lemma known_cons e w l h c a : commits c a = false -> known e w l h -> known e w l (Event c a :: h).
Proof. intros Hc []. split; [by constructor|auto with webhook..]. Qed.

Lemma wp_commit e w l h :
  known e w l h -> subscription_recorded h w -> wp_any webhook_guard (_ ←! call (ClearInactiveSamples w); call Commit)
    (fun h' r => match r with Ok _ => wp_any webhook_guard (Ret Received) webhook_post h' | Err e => webhook_post h' (Failed e) end) h.
Proof.
  intros Hk Hr. apply wp_bind_ok. wp_ask.
  { destruct Hk. exists e. split; [done|]. split; [done|by exists l]. }
  match goal with |- match ?r with _ => _ end => destruct r as [[]|err] end.
  2:{ constructor; [done|apply Hk]. }
  wp_ask.
  { destruct Hk. exists e. split; [by auto with webhook|]. split; [by auto with webhook|]. right. exists w. split_and!; [by auto with webhook..|left]. }
  match goal with |- match ?r with _ => _ end => destruct r as [[]|err] end; [by apply wp_ret; left; eexists|].
  constructor; [done|]. constructor; [done|apply Hk].
Qed.

Lemma wp_write e w l current h :
  known e w l h -> current_subscription l None = Ok current -> wp_any webhook_guard (write_subscription cfg w current) webhook_post h.
Proof.
  intros Hk Hcur. apply current_subscription_spec in Hcur. pose proof Hk as [Hun Hs Hf Hl Hc].
  unfold write_subscription. destruct current as [s|].
  - destruct (subscriptionPlan cfg s) as [plan|err] eqn:Ep; [|done]. destruct (period_of s) as [start stop] eqn:Eper.
    destruct (_ || _) eqn:Eb; [done|]. apply wp_store_failed, wp_bind_ok. wp_ask.
    { exists e. split; [done|]. exists l. split; [done|]. split; [done|]. exists s. rewrite Eper. apply orb_false_iff in Eb as [Eb1 Eb2].
      split_and!; try done; [unfold Second; lia|]. apply active_status. }
    match goal with |- match ?r with _ => _ end => destruct r as [[]|err] end; [|by constructor].
    eapply wp_commit; [by apply known_cons|]. right. eexists _, _, _, _, _, _. left.
  - apply wp_store_failed, wp_bind_ok. wp_ask; [exists e; split; [done|]; by exists l|].
    match goal with |- match ?r with _ => _ end => destruct r as [[]|err] end; [|by constructor].
    eapply wp_commit; [by apply known_cons|]. left. left.
Qed.

Lemma wp_apply_event e w h :
  uncommitted h -> signed_event h e -> first_time h e -> locked_workspace h e w ->
  wp_any webhook_guard (apply_event cfg e w) webhook_post h.
Proof.
  intros Hun Hs Hf Hl. unfold apply_event. apply wp_store_failed.
  apply (wp_mono _ _ _ (fun h' r => uncommitted h' /\ signed_event h' e /\ first_time h' e /\ locked_workspace h' e w /\
                                    (is_ok r = true -> invoice_counted h' e w))).
  { destruct (settled_invoice e) eqn:Ei; [|apply wp_ret; split_and!; try done; intros _ Hi; congruence].
    wp_ask; [exists e; split; [done|]; by exists w|].
    match goal with |- context [is_ok ?r] => destruct r as [[]|err] end; (split_and!; [by auto 10 with webhook..|]); [|done]. intros _ _. left. }
  clear h Hun Hs Hf Hl. intros h [[]|err] (Hun & Hs & Hf & Hl & Hc); [|done]. apply wp_bind. unfold all_subscriptions, stripe. wp_ask.
  match goal with |- wp _ _ (match ?r with _ => _ end) _ _ => destruct r as [[l []]|err] end; try by constructor.
  destruct (current_subscription l None) as [current|err] eqn:Ec; [|by constructor].
  eapply (wp_write e w l); [|done]. specialize (Hc eq_refl). split; [by constructor|by auto with webhook..|by exists [], h|by auto with webhook].
Qed.

(** C28: the webhook trusts only what it reads.  Whatever is posted and whatever
    is answered: nothing is written unless the body is an event signed with the
    secret within five minutes; nothing of an event seen before; an invoice is
    counted only if it is positive, paid and in the catalog's currency; the
    subscription of a workspace is written only from the list the service gave
    while the workspace was locked, with exactly one live subscription of
    configured prices (canceled, with none), and as active only if the service
    says so and, for Pro, its latest invoice is paid.  It commits only once the
    settled invoice of the event and the subscription were written, or when no
    workspace has the customer.  It answers success only right after a commit
    that succeeded, or, with nothing committed, to an event that is not one of
    billing or that was seen before; a refused or failed event commits nothing. *)
Theorem billingWebhook_guarded : wp_any webhook_guard (billingWebhook (Some cfg) (Ok raw) signature) webhook_post [].
Proof.
  unfold billingWebhook. destruct (_ == ""); [apply wp_ret; constructor|]. apply wp_bind. wp_ask_as t0 Ht0. clear Ht0.
  destruct (negb _) eqn:Ev; [apply wp_ret; by repeat constructor|]. destruct (decode_event raw) as [e|err] eqn:Ed; [|apply wp_ret; by repeat constructor].
  destruct (_ == ""); [apply wp_ret; by repeat constructor|].
  assert (signed_event [Event Wall t0] e) as Hs by (split; [done|]; exists t0; split; [left|by apply negb_false_iff in Ev]).
  assert (uncommitted [Event Wall t0]) as Hun by by repeat constructor.
  clear Ev. generalize dependent [Event Wall t0]. intros h Hs Hun. unfold handle_event. case_bool_decide as Et; cbn [negb].
  2:{ apply wp_ret. right. split; [done|]. exists e. split; [done|by left]. }
  destruct (_ == ""); [by apply wp_ret|].
  apply wp_store_failed. wp_ask; [by exists e|]. match goal with |- match ?r with _ => _ end => destruct r as [[]|err] end; [|by constructor].
  apply wp_bind. wp_ask; [exists e; split; [by auto with webhook|done]|].
  match goal with |- wp _ _ (match ?r with _ => _ end) _ _ => destruct r as [[]|err] end; [| |apply wp_ret; by repeat constructor].
  2:{ apply wp_ret. right. split; [by repeat constructor|]. exists e. split; [by auto with webhook|]. right. left. }
  apply wp_bind. wp_ask; [exists e; split; [by auto with webhook|]; split; [left|done]|].
  match goal with |- wp _ _ (match ?r with _ => _ end) _ _ => destruct r as [[w|]|err] end; [| |apply wp_ret; by repeat constructor].
  - apply wp_apply_event; [by repeat constructor|by auto with webhook|right; left|left].
  - apply wp_store_failed. wp_ask.
    { exists e. split; [by auto 10 with webhook|]. split; [right; left|]. left. left. }
    match goal with |- match ?r with _ => _ end => destruct r as [[]|err] end; [by left; eexists|by repeat constructor].
Qed.
End Webhook.

(** ** Signatures *)
(** *** Numbers read back *)
Lemma parse_digits_pretty n s : parse_digits 0 (pretty_N_go n s) = parse_digits (Z.of_N n) s.
Proof.
  revert s. induction (N.lt_wf_0 n) as [n _ IH]; intros s. destruct (decide (n = 0)%N) as [->|Hn]; [by rewrite pretty_N_go_0|].
  rewrite pretty_N_go_step by lia. rewrite IH by (apply N.div_lt; lia). cbn [parse_digits].
  assert (forall k, (k < 10)%N -> is_digit (pretty_N_char k) = true /\ byte_of (pretty_N_char k) - 48 = Z.of_N k) as Hc.
  { intros k Hk. assert (k = 0 \/ k = 1 \/ k = 2 \/ k = 3 \/ k = 4 \/ k = 5 \/ k = 6 \/ k = 7 \/ k = 8 \/ k = 9)%N as Hk' by lia.
    by repeat (destruct Hk' as [->|Hk']; [by vm_compute|]); subst k. }
  destruct (Hc (n `mod` 10)%N) as [H1 H2]; [by apply N.mod_lt|]. rewrite H1, H2. f_equal.
  rewrite N2Z.inj_mod, N2Z.inj_div. change (Z.of_N 10) with 10. pose proof (Z.div_mod (Z.of_N n) 10). lia.
Qed.

Lemma pretty_N_digits n s : string_forallb is_digit s = true -> string_forallb is_digit (pretty_N_go n s) = true.
Proof.
  revert s. induction (N.lt_wf_0 n) as [n _ IH]; intros s Hs. destruct (decide (n = 0)%N) as [->|Hn]; [by rewrite pretty_N_go_0|].
  rewrite pretty_N_go_step by lia. apply IH; [apply N.div_lt; lia|]. cbn [string_forallb]. rewrite Hs, andb_true_r.
  unfold pretty_N_char. by repeat case_match.
Qed.

Lemma Itoa_digits n : 0 <= n -> string_forallb is_digit (Itoa n) = true /\ Itoa n <> EmptyString /\ parse_digits 0 (Itoa n) = Some n.
Proof.
  intros Hn. unfold Itoa, pretty, pretty_Z. destruct n as [|p|p]; [done| |lia].
  unfold pretty, pretty_positive, pretty, pretty_N. case_decide; [done|]. split; [by apply pretty_N_digits|].
  rewrite parse_digits_pretty. split; [|done]. intros E. pose proof (parse_digits_pretty (N.pos p) EmptyString) as Hp. rewrite E in Hp. done.
Qed.

Lemma ParseInt_Itoa n : 0 <= n <= max_int -> ParseInt (Itoa n) = Some n.
Proof.
  intros Hn. destruct (Itoa_digits n) as (Hd & Hne & Hp); [lia|]. revert Hd Hne Hp. generalize (Itoa n). intros s Hd Hne Hp.
  assert (ParseInt s = (parse_digits 0 s ≫= fun x => if (min_int <=? x) && (x <=? max_int) then Some x else None)) as ->.
  { destruct s as [|c s]; [done|]. cbn [string_forallb] in Hd. apply andb_true_iff in Hd as [Hd _].
    destruct c as [[] [] [] [] [] [] [] []]; done. }
  rewrite Hp. cbn. by rewrite (proj2 (Z.leb_le min_int n)), (proj2 (Z.leb_le n max_int)) by (unfold min_int; lia).
Qed.

(** *** Text without spaces *)
Definition graphic (c : ascii) : bool := (32 <? byte_of c) && (byte_of c <? 127).

Lemma trim_left_graphic encs s :
  forallb (fun e => match e with String b _ => negb (graphic b) | EmptyString => false end) encs = true ->
  string_forallb graphic s = true -> trim_left encs 0 s = s.
Proof.
  intros He Hs. destruct s as [|a s]; [done|]. cbn [string_forallb] in Hs. apply andb_true_iff in Hs as [Ha _]. cbn [trim_left].
  assert (space_len encs (String a s) = 0%nat) as ->; [|done]. unfold space_len.
  destruct (List.find _ encs) as [e|] eqn:Ef; [|done]. apply find_some in Ef as [Hin Hp].
  rewrite forallb_forall in He. specialize (He e Hin). destruct e as [|b e]; [done|]. cbn [String.prefix] in Hp.
  destruct (ascii_dec b a) as [->|]; [|done]. by rewrite Ha in He.
Qed.

Lemma string_forallb_list f s : string_forallb f s = forallb f (String.list_ascii_of_string s).
Proof. induction s; [done|]. cbn. by rewrite IHs. Qed.

Lemma TrimSpace_graphic s : string_forallb graphic s = true -> TrimSpace s = s.
Proof.
  intros Hs. unfold TrimSpace, TrimLeftSpace, TrimRightSpace. rewrite (trim_left_graphic space_encodings) by (exact Hs || by vm_compute).
  rewrite trim_left_graphic; [|by vm_compute|].
  - unfold rev_string. by rewrite String.list_ascii_of_string_of_list_ascii, rev_involutive, String.string_of_list_ascii_of_string.
  - unfold rev_string. rewrite string_forallb_list in *. rewrite String.list_ascii_of_string_of_list_ascii.
    rewrite forallb_forall in *. intros c Hc. apply Hs. by apply in_rev.
Qed.

Lemma forallb_no_byte f s c : string_forallb f s = true -> f c = false -> contains_byte s c = false.
Proof.
  intros Hs Hc. induction s as [|a s IH]; [done|]. cbn [string_forallb contains_byte] in *. apply andb_true_iff in Hs as [Ha Hs].
  rewrite IH, orb_false_r by done. apply bool_decide_eq_false. intros ->. congruence.
Qed.

(** *** The header the service sends *)
Definition mac_of (secret stamp body : string) : list Z := hmac_sha256 (string_bytes secret) (string_bytes (stamp +:+ "." +:+ body)).
Definition signature_header (secret body : string) (seconds : Z) : string :=
  "t=" +:+ Itoa seconds +:+ ",v1=" +:+ hex_encode (mac_of secret (Itoa seconds) body).

Lemma mac_bytes secret stamp body : Forall (fun b => 0 <= b < 256) (mac_of secret stamp body).
Proof. apply sum_bytes. Qed.

Lemma signature_parts secret body seconds : 0 <= seconds ->
  fold_left signature_part (Split (signature_header secret body seconds) ","%char) (EmptyString, []) =
    (Itoa seconds, [hex_encode (mac_of secret (Itoa seconds) body)]).
Proof.
  intros Hs. unfold signature_header. destruct (Itoa_digits seconds Hs) as [Hd _].
  pose proof (hex_encode_lower _ (mac_bytes secret (Itoa seconds) body)) as Hh.
  revert Hd Hh. generalize (Itoa seconds) (hex_encode (mac_of secret (Itoa seconds) body)). intros t m Hd Hh.
  assert (string_forallb graphic t = true) as Hgt.
  { revert Hd. apply string_forallb_impl. intros c. unfold is_digit, between, graphic. intros Hc. bool_inv. unfold byte_of in *.
    change (nat_of_ascii "0") with 48%nat in *. change (nat_of_ascii "9") with 57%nat in *. apply andb_true_iff. lia. }
  assert (string_forallb graphic m = true) as Hgm.
  { revert Hh. apply string_forallb_impl. intros c Hc. unfold graphic. by destruct c as [[] [] [] [] [] [] [] []]. }
  assert ("t=" +:+ t +:+ ",v1=" +:+ m = ("t=" +:+ t) +:+ String "," ("v1=" +:+ m)) as -> by done.
  assert (contains_byte t "," = false) as Ht by (by apply (forallb_no_byte is_digit)).
  assert (contains_byte m "," = false) as Hm by (by apply (forallb_no_byte is_lower_hex)).
  rewrite Split_app, (Split_word ("t=" +:+ t)), (Split_word ("v1=" +:+ m)) by (by rewrite contains_byte_app, ?Ht, ?Hm).
  cbn [app fold_left]. unfold signature_part.
  rewrite (TrimSpace_graphic ("t=" +:+ t)), (TrimSpace_graphic ("v1=" +:+ m)) by (rewrite string_forallb_app, ?Hgt, ?Hgm; by vm_compute).
  assert (Cut ("t=" +:+ t) "=" = Some ("t"%string, t)) as -> by by destruct t.
  assert (Cut ("v1=" +:+ m) "=" = Some ("v1"%string, m)) as -> by by destruct m.
  done.
Qed.

(** C39: what the service signs is accepted, for five minutes around its time
    stamp and no longer; and whatever is accepted carries, in one of its
    signatures, the HMAC of this very body, with the secret, under a time stamp
    that close. *)
Theorem signature_accepted body secret now :
  secret <> EmptyString ->
  (forall seconds, 0 <= seconds <= max_int ->
     verifyBillingSignature body (signature_header secret body seconds) secret now =
       (Unix (now - 5 * Minute) <=? seconds) && (seconds <=? Unix (now + 5 * Minute))) /\
  (forall signature, verifyBillingSignature body signature secret now = true ->
     exists stamp seconds candidate,
       ParseInt stamp = Some seconds /\ Unix (now - 5 * Minute) <= seconds <= Unix (now + 5 * Minute) /\
       candidate ∈ (fold_left signature_part (Split signature ","%char) (EmptyString, [])).2 /\
       hex_decode candidate = Some (hmac_sha256 (string_bytes secret) (string_bytes (stamp +:+ "." +:+ body)))).
Proof.
  intros Hsecret. unfold verifyBillingSignature. rewrite (bool_decide_false (secret = EmptyString)) by done. split.
  - intros seconds Hs. rewrite signature_parts by lia. rewrite ParseInt_Itoa by done.
    destruct (_ || _) eqn:Eb; [apply orb_true_iff in Eb as [E|E]|apply orb_false_iff in Eb as [E1 E2]];
      [symmetry; apply andb_false_iff; lia..|].
    transitivity true; [|symmetry; apply andb_true_iff; lia].
    cbn [existsb]. rewrite hex_decode_encode by apply mac_bytes. by rewrite bool_decide_true.
  - intros signature. destruct (fold_left _ _ _) as [stamp signatures]. destruct (ParseInt stamp) as [seconds|] eqn:Ep; [|done].
    destruct (_ || _) eqn:Eb; [done|]. apply orb_false_iff in Eb as [E1 E2]. intros (candidate & Hin & Hc)%existsb_exists.
    exists stamp, seconds, candidate. split; [done|]. split; [lia|]. split; [by apply list_elem_of_In|].
    destruct (hex_decode candidate) as [l|]; [|done]. by apply bool_decide_eq_true in Hc as ->.
Qed.

(** ** Who may provision paid resources *)
Section Payment.
Context `{Unicode} `{StripeDecode} (workspace : string).

(** Reads only. *)
Definition reading_guard (h : list (event billing_answer)) (c : billing_call) : Prop :=
  match c with
  | Wall => True
  | BillingOf w => w = workspace
  | Stripe method _ _ key _ => method = "GET"%string /\ key = EmptyString
  | _ => False
  end.

Definition subscription_call (id : string) : billing_call :=
  Stripe "GET" ("/v1/subscriptions/" +:+ PathEscape id)
    [("expand[]"%string, "default_payment_method"%string); ("expand[]"%string, "latest_invoice"%string)] "" (Some SSubscription).
Definition customer_call (id : string) : billing_call :=
  Stripe "GET" ("/v1/customers/" +:+ PathEscape id) [("expand[]"%string, "invoice_settings.default_payment_method"%string)] "" (Some SCustomer).

(** The method the subscription is charged to. *)
Definition charged_method (h : list (event billing_answer)) (customer : string) (sub : subscription_view) (pm : stripeCardMethod) : Prop :=
  sv_PaymentMethod sub = Some pm \/
  (sv_PaymentMethod sub = None /\ exists id, Event (customer_call customer) (Ok (id, Some pm)) ∈ h).

(** The workspace pays: its customer's active subscription to configured prices
    is charged automatically to a card of that customer that has not expired,
    and a Pro period is paid. *)
Definition paying (cfg : BillingConfig) (h : list (event billing_answer)) : Prop :=
  exists row sub pm plan now,
    let customer := text (billing_row.CustomerID row) in
    let s := sv_Subscription sub in
    Event (BillingOf workspace) (Ok (Some row)) ∈ h /\ customer <> EmptyString /\
    Event (subscription_call (text (billing_row.SubscriptionID row))) (Ok sub) ∈ h /\
    stripeSubscription.Customer s = customer /\ stripeSubscription.Status s = "active"%string /\
    subscriptionPlan cfg s = Ok plan /\ (plan = "pro"%string -> paid_invoice s = true) /\
    sv_CollectionMethod sub = "charge_automatically"%string /\
    charged_method h customer sub pm /\ stripeCardMethod.Customer pm = customer /\ stripeCardMethod.Type_ pm = "card"%string /\
    Event Wall now ∈ h /\ valid_card pm now = true.

Lemma wp_readiness cfg h :
  wp_any reading_guard (billingPaymentReadiness cfg workspace)
    (fun h' r => forall pm, r = Ok (pm, true) -> paying cfg h') h.
Proof.
  unfold billingPaymentReadiness. apply wp_bind_ok. wp_ask. match goal with |- match ?r with _ => _ end => destruct r as [[row|]|] end; [|done|done].
  destruct (_ || _) eqn:E0; [done|]. apply orb_false_iff in E0 as [Ec _]. apply bool_decide_eq_false in Ec.
  apply wp_bind. wp_ask_as t0 Ht0. clear Ht0. unfold paymentReadiness. apply wp_bind_ok. unfold stripe. wp_ask.
  match goal with |- match ?r with _ => _ end => destruct r as [sub|] end; [|done].
  destruct (stripeSubscription.Customer _ != _) eqn:Ecust; [done|]. apply negb_false_iff, bool_decide_eq_true in Ecust.
  unfold lift. apply wp_bind_ok, wp_ret. destruct (subscriptionPlan cfg _) as [plan|] eqn:Ep; [|done].
  destruct (_ && negb _) eqn:Epaid; [done|]. apply wp_bind_ok.
  assert (plan = "pro"%string -> paid_invoice (sv_Subscription sub) = true) as Hpaid.
  { intros ->. rewrite bool_decide_true in Epaid by done. cbn in Epaid. by apply negb_false_iff in Epaid. }
  apply (wp_mono _ _ _ (fun h' r => forall pm, r = Ok (Some pm) ->
    (exists l, h' = l ++ Event (subscription_call (text (billing_row.SubscriptionID row))) (Ok sub) :: Event Wall t0 :: Event (BillingOf workspace) (Ok (Some row)) :: h) /\
    charged_method h' (text (billing_row.CustomerID row)) sub pm)).
  { destruct (sv_PaymentMethod sub) as [pm|] eqn:Epm.
    - apply wp_ret. intros pm' [= <-]. split; [by exists []|by left].
    - apply wp_bind_ok. unfold stripe. wp_ask. match goal with |- match ?r with _ => _ end => destruct r as [[id pm]|] end; [|done].
      apply wp_ret. cbn [snd]. intros pm' [= ->]. split; [by eexists [_]|]. right. split; [done|]. exists id. left. }
  intros h' [[pm|]|err] Hpm; [|done|done]. destruct (Hpm pm eq_refl) as [[l ->] Hm]. clear Hpm.
  destruct (_ || _) eqn:E1; [done|]. apply orb_false_iff in E1 as [[[_ E2]%orb_false_iff E3]%orb_false_iff _].
  apply negb_false_iff, bool_decide_eq_true in E2, E3. apply wp_ret. intros pm' [= _ Hready].
  apply andb_true_iff in Hready as [[Hcard Hact]%andb_true_iff Hauto]. apply bool_decide_eq_true in Hact, Hauto.
  exists row, sub, pm, plan, t0. cbv zeta. split_and!; try done; apply elem_of_app; right; [by do 2 right; left|by left|by right; left].
Qed.

(** C29: paid resources are provisioned only for a workspace that pays.  The
    check only reads, and passes only if billing is not enabled or if the
    service, just asked, says so of the very customer and subscription of the
    workspace's row. *)
Theorem requireBillingPayment_sound billing h :
  wp_any reading_guard (requireBillingPayment billing workspace)
    (fun h' r => r = Ok tt ->
       match billing with Some cfg => BillingConfig.Enabled cfg = true -> paying cfg h' | None => True end) h.
Proof.
  unfold requireBillingPayment. destruct billing as [cfg|]; [|by apply wp_ret]. destruct (BillingConfig.Enabled cfg); cbn [negb]; [|by apply wp_ret].
  destruct (negb _); [by apply wp_ret|]. apply wp_bind_ok. eapply wp_mono; [apply wp_readiness|].
  intros h' [[pm []]|err] Hr; [|by apply wp_ret|done]. apply wp_ret. intros _ _. by apply (Hr pm).
Qed.
End Payment.

(** ** Checkout *)
Section Checkout.
Context `{Unicode} `{StripeDecode} (cfg : BillingConfig) (PublicURL workspace email plan : string).

(** The row of the workspace, locked by a transaction that is still open, with
    what was answered since. *)
Definition row_locked (h : list (event billing_answer)) (row : billing_row) (since : list (event billing_answer)) : Prop :=
  exists before, h = since ++ Event (LockBilling workspace) (Ok row) :: before /\ Forall (fun e => ev_call e <> Commit) since.

Definition all_call (customer : string) : billing_call :=
  Stripe "GET" "/v1/subscriptions" [("customer", customer); ("status", "all"); ("limit", "100")]%string "" (Some SSubscriptions).

(** The service has confirmed that nothing of the customer can still be charged. *)
Definition unbilled (since : list (event billing_answer)) (customer : string) : Prop :=
  exists l, Event (all_call customer) (Ok (l, false)) ∈ since /\ existsb live_subscription l = false.

Definition session_path (row : billing_row) : string := "/v1/checkout/sessions/" +:+ PathEscape (billing_row.CheckoutID row).

(** What may be posted, for the row and what was answered since it was locked. *)
Definition checkout_post (row : billing_row) (since : list (event billing_answer)) (path : string) (v : values) (key : string) : Prop :=
  let customer := text (billing_row.CustomerID row) in
  (path = "/v1/customers"%string /\ customer = EmptyString /\ key = "canter-customer-" +:+ workspace /\
   v = [("email"%string, email); ("metadata[canter_workspace_id]"%string, workspace)]) \/
  (path = session_path row +:+ "/expire" /\ billing_row.CheckoutPlan row <> plan) \/
  (path = "/v1/checkout/sessions"%string /\ customer <> EmptyString /\ unbilled since customer /\
   v = checkout_values cfg PublicURL workspace customer plan /\
   key = checkout_key workspace plan (add64 (billing_row.CheckoutAttempt row) 1)).

Definition checkout_guard (h : list (event billing_answer)) (c : billing_call) : Prop :=
  match c with
  | ReadValidated | WriteValidated | Wall | Begin | Commit => True
  | InsertBilling w | LockBilling w => w = workspace
  | Stripe method path v key _ =>
      (method = "GET"%string /\ key = EmptyString) \/
      (method = "POST"%string /\ exists row since, row_locked h row since /\ checkout_post row since path v key)
  | LinkCustomer w customer =>
      w = workspace /\ customer <> EmptyString /\ exists row since, row_locked h row since /\ text (billing_row.CustomerID row) = EmptyString
  | SaveCheckout w customer id url p _ attempt =>
      w = workspace /\ p = plan /\ id <> EmptyString /\ url <> EmptyString /\
      exists row since, row_locked h row since /\ customer = text (billing_row.CustomerID row) /\
        unbilled since customer /\ attempt = add64 (billing_row.CheckoutAttempt row) 1
  | _ => False
  end.

(** A customer once linked stays linked; and no answer is the model's own error. *)
Definition linked (h : list (event billing_answer)) : Prop := exists customer, Event (LinkCustomer workspace customer) (Ok tt) ∈ h.
Definition checkout_rely (h : list (event billing_answer)) (c : billing_call) : billing_answer c -> Prop :=
  match c with
  | LockBilling _ => fun r => r <> Err OutOfFuel /\ forall row, r = Ok row -> linked h -> text (billing_row.CustomerID row) <> EmptyString
  | Begin | Commit | InsertBilling _ | LinkCustomer _ _ | SaveCheckout _ _ _ _ _ _ _ => fun r => r <> Err OutOfFuel
  | Stripe _ _ _ _ _ => fun r => r <> Err OutOfFuel
  | _ => fun _ => True
  end.

Lemma wp_validate_checkout h : wp checkout_rely checkout_guard (ValidatePrices cfg) (fun h' r => r <> Err OutOfFuel) h.
Proof.
  assert (forall specs h, wp checkout_rely checkout_guard (validate_specs cfg specs) (fun h' r => r <> Err OutOfFuel) h) as Hspecs.
  { induction specs as [|[id kind] specs IH]; intros h0; cbn [validate_specs]; [by apply wp_ret|]. apply wp_bind_ok. unfold stripe.
    wp_ask_as r Hr; [by left|]. destruct r as [p|e]; [|intros [= ->]; by apply Hr].
    destruct (negb _); [by apply wp_ret|apply IH]. }
  unfold ValidatePrices. apply wp_bind. wp_ask_as v Hv. destruct v; [by apply wp_ret|]. unfold lift. apply wp_bind_ok, wp_ret.
  destruct (price_specs cfg) as [specs|e] eqn:Es.
  2:{ intros [= ->]. unfold price_specs in Es. destruct (xorb _ _); [done|]. by destruct (_ != _). }
  apply wp_bind_ok. eapply wp_mono; [apply Hspecs|]. intros h' [[]|e] Hne; [|intros [= ->]; by apply Hne].
  apply wp_bind_ok. unfold stripe. wp_ask_as r Hr; [by left|]. destruct r as [m|e]; [|intros [= ->]; by apply Hr].
  destruct (negb _); [by apply wp_ret|]. apply wp_bind. wp_ask_as u Hu. by apply wp_ret.
Qed.
Lemma row_locked_cons h row since e : row_locked h row since -> ev_call e <> Commit -> row_locked (e :: h) row (e :: since).
Proof. intros (before & -> & Hf) He. exists before. split; [done|]. by constructor. Qed.
Lemma unbilled_cons since customer e : unbilled since customer -> unbilled (e :: since) customer.
Proof. intros (l & Hl & Hb). exists l. split; [by right|done]. Qed.
Lemma clean_error {A B} (r : result A) (e : error) : r <> Err OutOfFuel -> r = Err e -> (Err e : result B) <> Err OutOfFuel.
Proof. intros Hr -> [= ->]. by apply Hr. Qed.

Abbreviation wp_checkout p Q h := (wp checkout_rely checkout_guard p Q h) (only parsing).

Lemma wp_no_subscription row since h :
  row_locked h row since ->
  wp_checkout (no_subscription (text (billing_row.CustomerID row)))
    (fun h' r => r <> Err OutOfFuel /\
       exists since', row_locked h' row since' /\ (r = Ok tt -> unbilled since' (text (billing_row.CustomerID row)))) h.
Proof.
  intros Hrow. unfold no_subscription, all_subscriptions, stripe. apply wp_bind_ok. wp_ask_as r Hr; [by left|].
  pose proof (row_locked_cons _ _ _ (Event (all_call (text (billing_row.CustomerID row))) r) Hrow ltac:(done)) as Hrow'.
  destruct r as [[l more]|e].
  2:{ split; [by eapply clean_error|]. by eexists. }
  cbn [fst snd]. destruct more; [apply wp_ret; split; [done|]; by eexists|].
  destruct (existsb live_subscription l) eqn:El; (apply wp_ret; split; [done|]); eexists; (split; [exact Hrow'|]); [done|].
  intros _. exists l. split; [left|done].
Qed.

Lemma wp_resume row since h :
  row_locked h row since ->
  wp_checkout (resume_checkout row (text (billing_row.CustomerID row)) plan)
    (fun h' r => r <> Err OutOfFuel /\ (r = Ok None -> exists l, row_locked h' row (l ++ since))) h.
Proof.
  intros Hrow. unfold resume_checkout.
  assert (forall h, row_locked h row since -> (Ok None : result (option string)) <> Err OutOfFuel /\ (Ok None = Ok (@None string) -> exists l, row_locked h row (l ++ since))) as Hnone.
  { intros h' Hh'. split; [done|]. intros _. by exists []. }
  destruct (billing_row.CheckoutExpiresAt row) as [expires|]; [|apply wp_ret, Hnone, Hrow].
  destruct (_ == ""); [apply wp_ret, Hnone, Hrow|]. apply wp_bind. wp_ask_as t Ht.
  pose proof (row_locked_cons _ _ _ (Event Wall t) Hrow ltac:(done)) as Hrow1. cbv beta.
  destruct (negb _); [apply wp_ret; split; [done|]; intros _; by exists [Event Wall t]|]. unfold stripe. apply wp_bind_ok. wp_ask_as r Hr; [by left|].
  pose proof (row_locked_cons _ _ _ (Event (Stripe "GET" (session_path row) [] "" (Some SCheckoutSession)) r) Hrow1 ltac:(done)) as Hrow2.
  destruct r as [[status customer]|e]; [|split; [by eapply clean_error|done]]. cbn [fst snd].
  destruct (customer != _); [by apply wp_ret|]. destruct (status == "open").
  - destruct (billing_row.CheckoutPlan row == plan) eqn:Eplan.
    + apply wp_bind_ok. wp_ask_as r Hr2. destruct r; [by apply wp_ret|]. split; [by eapply clean_error|done].
    + apply wp_bind_ok. unfold stripe_post. wp_ask_as r Hr2.
      { right. split; [done|]. exists row. eexists. split; [exact Hrow2|]. right. left. split; [done|]. by apply bool_decide_eq_false in Eplan. }
      destruct r; [|split; [by eapply clean_error|done]]. apply wp_ret. split; [done|]. intros _. eexists [_; _; _].
      by apply row_locked_cons.
  - destruct (status == "expired"); [|by apply wp_ret]. apply wp_ret. split; [done|]. intros _. eexists [_; _]. exact Hrow2.
Qed.

Lemma wp_new_customer row since h :
  row_locked h row since -> text (billing_row.CustomerID row) = EmptyString ->
  wp_checkout (new_customer workspace email) (fun h' r => r <> Err OutOfFuel /\ (r = Ok tt -> linked h')) h.
Proof.
  intros Hrow Hc. unfold new_customer, stripe. apply wp_bind_ok. wp_ask_as r Hr.
  { right. split; [done|]. exists row, since. split; [done|]. left. done. }
  pose proof (row_locked_cons _ _ _ (Event (Stripe "POST" "/v1/customers" [("email"%string, email); ("metadata[canter_workspace_id]"%string, workspace)] ("canter-customer-" +:+ workspace) (Some SCustomer)) r) Hrow ltac:(done)) as Hrow1.
  destruct r as [[id pm]|e]; [|split; [by eapply clean_error|done]]. cbn [fst]. destruct (id == "") eqn:Eid; [by apply wp_ret|].
  apply wp_bind_ok. wp_ask_as r Hr1.
  { split; [done|]. split; [by apply bool_decide_eq_false in Eid|]. exists row. by eexists. }
  destruct r as [[]|e]; [|split; [by eapply clean_error|done]]. wp_ask_as r Hr2. split; [exact Hr2|]. intros _. exists id. right. left.
Qed.

Lemma wp_new_checkout row since h :
  row_locked h row since -> text (billing_row.CustomerID row) <> EmptyString -> unbilled since (text (billing_row.CustomerID row)) ->
  wp_checkout (new_checkout cfg PublicURL workspace (text (billing_row.CustomerID row)) plan (add64 (billing_row.CheckoutAttempt row) 1))
    (fun h' r => r <> Err OutOfFuel) h.
Proof.
  intros Hrow Hc Hun. unfold new_checkout, stripe. apply wp_bind_ok. wp_ask_as r Hr.
  { right. split; [done|]. exists row, since. split; [done|]. right. right. done. }
  pose proof (row_locked_cons _ _ _ (Event (Stripe "POST" "/v1/checkout/sessions" (checkout_values cfg PublicURL workspace (text (billing_row.CustomerID row)) plan)
    (checkout_key workspace plan (add64 (billing_row.CheckoutAttempt row) 1)) (Some SCheckout)) r) Hrow ltac:(done)) as Hrow1.
  destruct r as [[[id url] expires]|e]; [|by eapply clean_error]. destruct (_ || _) eqn:Eb; [by apply wp_ret|].
  apply orb_false_iff in Eb as [[E1 E2]%orb_false_iff _]. apply bool_decide_eq_false in E1, E2. apply wp_bind_ok. wp_ask_as r Hr1.
  { split_and!; try done. exists row. eexists. split; [exact Hrow1|]. split; [done|]. split; [by apply unbilled_cons|done]. }
  destruct r as [[]|e]; [|by eapply clean_error]. apply wp_bind_ok. wp_ask_as r Hr2. destruct r as [[]|e]; [by apply wp_ret|by eapply clean_error].
Qed.

Lemma wp_checkout_round n h :
  (~ linked h -> forall h', linked h' -> wp_checkout (startBillingCheckout cfg PublicURL n workspace email plan) (fun _ r => r <> Err OutOfFuel) h') ->
  wp_checkout (startBillingCheckout cfg PublicURL (S n) workspace email plan) (fun _ r => r <> Err OutOfFuel) h.
Proof.
  intros Hn. cbn [startBillingCheckout]. apply wp_bind_ok. eapply wp_mono; [apply wp_history, wp_validate_checkout|].
  intros h' [[]|e] [Hne [l ->]]; [|by eapply clean_error]. apply wp_bind_ok. wp_ask_as r Hr. destruct r as [[]|e]; [|by eapply clean_error].
  apply wp_bind_ok. wp_ask_as r Hr1. destruct r as [[]|e]; [|by eapply clean_error].
  apply wp_bind_ok. wp_ask_as r Hr2. destruct Hr2 as [Hr2 Hlinked]. destruct r as [row|e]; [|by eapply clean_error].
  specialize (Hlinked row eq_refl). match goal with |- wp _ _ _ _ (?e :: ?h0) => set (h1 := h0) in *; assert (row_locked (e :: h1) row []) as Hrow by (by exists h1) end.
  apply wp_bind_ok.
  apply (wp_mono _ _ _ (fun h' r => r <> Err OutOfFuel /\ exists since, row_locked h' row since /\
    (r = Ok tt -> text (billing_row.CustomerID row) <> EmptyString -> unbilled since (text (billing_row.CustomerID row))))).
  { destruct (text (billing_row.CustomerID row) == "") eqn:Ec.
    - apply wp_ret. split; [done|]. exists []. split; [done|]. apply bool_decide_eq_true in Ec. by intros _ [].
    - eapply wp_mono; [by eapply wp_no_subscription|]. intros h2 r [H1 (since & H2 & H3)]. split; [done|]. exists since. split; [done|]. auto. }
  clear Hrow. intros h2 [[]|e] [Hne1 (since & Hrow & Hun)]; [|by eapply clean_error]. specialize (Hun eq_refl).
  apply wp_bind_ok. eapply wp_mono; [by eapply wp_resume|]. intros h3 [[url|]|e] [Hne2 Hrow2]; [by apply wp_ret| |by eapply clean_error].
  destruct (Hrow2 eq_refl) as [l2 Hrow3]. destruct (text (billing_row.CustomerID row) == "") eqn:Ec.
  - apply bool_decide_eq_true in Ec. apply wp_bind_ok. eapply wp_mono; [by eapply wp_new_customer|].
    intros h4 [[]|e] [Hne4 Hl]; [|by eapply clean_error]. apply Hn; [|by apply Hl]. intros Hh. apply Hlinked; [|done].
    destruct Hh as [customer Hin]. exists customer. unfold h1. do 2 right. apply elem_of_app. by right.
  - apply bool_decide_eq_false in Ec. eapply wp_new_checkout; [exact Hrow3|done|]. clear -Hun Ec. specialize (Hun Ec).
    induction l2 as [|e l2 IH]; [done|]. by apply unbilled_cons.
Qed.

(** C30: a checkout is opened only where nothing can still be charged.
    Under the lock of the workspace's row, a checkout is created only for a
    customer already recorded there, once the service has confirmed in the same
    transaction that no subscription of that customer can still be charged, and
    with a key and parameters that are the same when the attempt is repeated; a
    customer is created only if the row has none; and two rounds are enough,
    since a linked customer stays linked. *)
Theorem startBillingCheckout_guarded fuel h :
  wp_checkout (startBillingCheckout cfg PublicURL (2 + fuel) workspace email plan) (fun _ r => r <> Err OutOfFuel) h.
Proof. apply wp_checkout_round. intros _ h1 H1. apply wp_checkout_round. intros H2. by destruct H2. Qed.
End Checkout.

(** ** Collecting *)
Section Collecting.
Context `{Unicode}.

(** Calls about the locks of workspaces. *)
Definition locks (c : billing_call) : bool := match c with TryLock _ | Unlock _ => true | _ => false end.

(** What was answered since the lock of the workspace was taken. *)
Definition locked_since (before h : list (event billing_answer)) (w : string) (since : list (event billing_answer)) : Prop :=
  h = since ++ Event (TryLock w) (Ok true) :: before /\ Forall (fun e => locks (ev_call e) = false) since.

Definition valid_reading (r : BillingResource) : Prop :=
  BillingResource.ID r <> EmptyString /\ 0 <= BillingResource.Units r <= 2 ^ 50 /\
  (BillingResource.Kind r = "compute"%string \/ BillingResource.Kind r = "storage"%string).

Definition metered_server (vm : VPS) : Prop := VPS.Phase vm <> "drafted"%string /\ VPS.Phase vm <> "deleted"%string.

Definition distinct (l : list BillingResource) : Prop := NoDup (BillingResource.ID <$> l).

(** The snapshot is what was measured of every System and every server. *)
Definition measured (since : list (event billing_answer)) (systems : list System) (servers : list VPS) (resources : list BillingResource) : Prop :=
  distinct resources /\ Forall valid_reading resources /\
  (forall s, s ∈ systems -> exists items : list BillingResource, Event (MeterSystem s) (Ok items) ∈ since /\ items ⊆ resources) /\
  (forall vm, vm ∈ servers -> metered_server vm -> exists items : list BillingResource, Event (MeterServer (VPS.Plan_ vm)) (Ok items) ∈ since /\ items ⊆ resources) /\
  (forall r, r ∈ resources ->
     (exists s (items : list BillingResource), s ∈ systems /\ Event (MeterSystem s) (Ok items) ∈ since /\ r ∈ items) \/
     (exists vm (items : list BillingResource), vm ∈ servers /\ Event (MeterServer (VPS.Plan_ vm)) (Ok items) ∈ since /\ r ∈ items)).

Definition collect_guard (h : list (event billing_answer)) (c : billing_call) : Prop :=
  match c with
  | RecordSnapshot w resources at_ =>
      at_ mod Second = 0 /\
      exists before since row systems servers, locked_since before h w since /\
        Event (BillingOf w) (Ok (Some row)) ∈ since /\ billing_row.Status row = "active"%string /\
        Event (SystemsOf w) (Ok systems) ∈ since /\ Event (ServersOf w) (Ok servers) ∈ since /\
        measured since systems servers resources
  | DropSamples w =>
      exists before since row, locked_since before h w since /\ Event (BillingOf w) (Ok (Some row)) ∈ since /\ billing_row.Status row <> "active"%string
  | BillingWorkspaces | TryLock _ | Unlock _ | BillingOf _ | SystemsOf _ | ServersOf _ | MeterSystem _ | MeterServer _ | CanMeterServers
  | Wall | NoteIssue _ _ => True
  | _ => False
  end.

(** The locks that are held. *)
Definition takes (c : billing_call) : billing_answer c -> option string :=
  match c with TryLock w => fun r => match r with Ok true => Some w | _ => None end | _ => fun _ => None end.
Fixpoint locks_held (h : list (event billing_answer)) : list string :=
  match h with
  | [] => []
  | e :: h' =>
      match takes (ev_call e) (ev_answer e) with
      | Some w => w :: locks_held h'
      | None => match ev_call e with Unlock w => List.filter (fun x => x != w) (locks_held h') | _ => locks_held h' end
      end
  end.

Abbreviation wp_collect p Q h := (wp_any collect_guard p Q h) (only parsing).

Lemma add_readings_spec invalid e items resources resources' :
  (forall seen r, invalid seen r = false -> BillingResource.ID r ∉ seen /\ valid_reading r) ->
  add_readings invalid e resources items = Ok resources' -> distinct resources -> Forall valid_reading resources ->
  resources' = resources ++ items /\ distinct resources' /\ Forall valid_reading resources'.
Proof.
  intros Hinv. revert resources. induction items as [|r items IH]; intros resources; cbn [add_readings].
  - intros [= <-] H1 H2. by rewrite app_nil_r.
  - destruct (invalid _ r) eqn:Ei; [done|]. destruct (Hinv _ _ Ei) as [Hseen Hr]. intros Ha Hnd Hf.
    destruct (IH (resources ++ [r]) Ha) as (-> & H1 & H2).
    + unfold distinct. rewrite fmap_app. apply NoDup_app. split_and!; [done| |apply NoDup_singleton]. by intros x Hx ->%list_elem_of_singleton.
    + apply Forall_app. by rewrite Forall_singleton.
    + split; [by rewrite <- app_assoc|done].
Qed.

Lemma invalid_reading_spec seen r : invalid_reading seen r = false -> BillingResource.ID r ∉ seen /\ valid_reading r.
Proof.
  unfold invalid_reading. intros Hi. repeat (apply orb_false_iff in Hi as [Hi ?]). bool_inv.
  change (Z.shiftl 1 50) with (2 ^ 50) in *. split; [done|]. split; [done|]. split; [lia|].
  match goal with Hk : (_ != _) && (_ != _) = false |- _ => apply andb_false_iff in Hk as [Hk|Hk]; apply negb_false_iff, bool_decide_eq_true in Hk end; auto.
Qed.
Lemma invalid_server_reading_spec seen r : invalid_server_reading seen r = false -> BillingResource.ID r ∉ seen /\ valid_reading r.
Proof.
  unfold invalid_server_reading. intros Hi. repeat (apply orb_false_iff in Hi as [Hi ?]). bool_inv.
  change (Z.shiftl 1 50) with (2 ^ 50) in *. split; [done|]. split; [done|]. split; [lia|by left].
Qed.
Lemma locked_since_cons before h w since e :
  locked_since before h w since -> locks (ev_call e) = false -> locked_since before (e :: h) w (e :: since).
Proof. intros (-> & Hf) He. split; [done|]. by constructor. Qed.

Lemma measured_cons since systems servers resources e : measured since systems servers resources -> measured (e :: since) systems servers resources.
Proof.
  intros (H1 & H2 & H3 & H4 & H5). split_and!; try done.
  - intros s Hs. destruct (H3 s Hs) as (items & Hi & Hsub). exists items. split; [by right|done].
  - intros vm Hvm Hm. destruct (H4 vm Hvm Hm) as (items & Hi & Hsub). exists items. split; [by right|done].
  - intros r Hr. destruct (H5 r Hr) as [(s & items & ? & ? & ?)|(vm & items & ? & ? & ?)]; [left; exists s, items|right; exists vm, items]; (split_and!; [done|by right|done]).
Qed.

Lemma measured_system since systems servers resources s items resources' e :
  measured since systems servers resources -> add_readings invalid_reading e resources items = Ok resources' ->
  measured (Event (MeterSystem s) (Ok items) :: since) (systems ++ [s]) servers resources'.
Proof.
  intros Hm Ha. pose proof (measured_cons _ _ _ _ (Event (MeterSystem s) (Ok items)) Hm) as (H1 & H2 & H3 & H4 & H5).
  apply add_readings_spec in Ha as (-> & Hd & Hv); [|exact invalid_reading_spec|done|done]. split_and!; [done|done|..].
  - intros s' [Hs| ->%list_elem_of_singleton]%elem_of_app.
    + destruct (H3 s' Hs) as (i & Hi & Hsub). exists i. split; [done|]. intros x Hx. apply elem_of_app. left. by apply Hsub.
    + exists items. split; [left|]. intros x Hx. apply elem_of_app. by right.
  - intros vm Hvm Hmv. destruct (H4 vm Hvm Hmv) as (i & Hi & Hsub). exists i. split; [done|]. intros x Hx. apply elem_of_app. left. by apply Hsub.
  - intros r [Hr|Hr]%elem_of_app.
    + destruct (H5 r Hr) as [(s' & i & Hs & ? & ?)|?]; [|by right]. left. exists s', i. split_and!; [apply elem_of_app; by left|done|done].
    + left. exists s, items. split_and!; [apply elem_of_app; right; by apply list_elem_of_singleton|left|done].
Qed.

Lemma measured_server since systems servers resources vm items resources' e :
  measured since systems servers resources -> add_readings invalid_server_reading e resources items = Ok resources' ->
  measured (Event (MeterServer (VPS.Plan_ vm)) (Ok items) :: since) systems (servers ++ [vm]) resources'.
Proof.
  intros Hm Ha. pose proof (measured_cons _ _ _ _ (Event (MeterServer (VPS.Plan_ vm)) (Ok items)) Hm) as (H1 & H2 & H3 & H4 & H5).
  apply add_readings_spec in Ha as (-> & Hd & Hv); [|exact invalid_server_reading_spec|done|done]. split_and!; [done|done|..].
  - intros s Hs. destruct (H3 s Hs) as (i & Hi & Hsub). exists i. split; [done|]. intros x Hx. apply elem_of_app. left. by apply Hsub.
  - intros vm' [Hs| ->%list_elem_of_singleton]%elem_of_app Hmv.
    + destruct (H4 vm' Hs Hmv) as (i & Hi & Hsub). exists i. split; [done|]. intros x Hx. apply elem_of_app. left. by apply Hsub.
    + exists items. split; [left|]. intros x Hx. apply elem_of_app. by right.
  - intros r [Hr|Hr]%elem_of_app.
    + destruct (H5 r Hr) as [?|(s' & i & Hs & ? & ?)]; [by left|]. right. exists s', i. split_and!; [apply elem_of_app; by left|done|done].
    + right. exists vm, items. split_and!; [apply elem_of_app; right; by apply list_elem_of_singleton|left|done].
Qed.

Lemma measured_skip since systems servers resources vm :
  ~ metered_server vm -> measured since systems servers resources -> measured since systems (servers ++ [vm]) resources.
Proof.
  intros Hn (H1 & H2 & H3 & H4 & H5). split_and!; try done.
  - intros vm' [Hs| ->%list_elem_of_singleton]%elem_of_app; [by apply H4|done].
  - intros r Hr. destruct (H5 r Hr) as [?|(s' & i & Hs & ? & ?)]; [by left|]. right. exists s', i. split_and!; [apply elem_of_app; by left|done|done].
Qed.

Lemma wp_meter_systems before w rest systems resources since h :
  locked_since before h w since -> measured since systems [] resources ->
  wp_collect (meter_systems w rest resources)
    (fun h' r => exists l, locked_since before h' w (l ++ since) /\ forall res, r = Ok res -> measured (l ++ since) (systems ++ rest) [] res) h.
Proof.
  revert systems resources since h. induction rest as [|s rest IH]; intros systems resources since h Hl Hm; cbn [meter_systems].
  - apply wp_ret. exists []. split; [done|]. intros res [= <-]. by rewrite app_nil_r.
  - unfold lift at 1. apply wp_bind_ok, wp_ret. destruct (validateCanonicalSystemForWorkspace w s); [|by exists []]. apply wp_bind_ok. wp_ask_as r Hr. clear Hr.
    pose proof (locked_since_cons _ _ _ _ (Event (MeterSystem s) r) Hl eq_refl) as Hl'.
    destruct r as [items|e]; [|by exists [Event (MeterSystem s) (Err e)]]. unfold lift. apply wp_bind_ok, wp_ret.
    destruct (add_readings _ _ _ items) as [resources'|e] eqn:Ea; [|by exists [Event (MeterSystem s) (Ok items)]].
    eapply wp_mono; [apply (IH (systems ++ [s])); [exact Hl'|by eapply measured_system]|].
    intros h' r (l & H1 & H2). exists (l ++ [Event (MeterSystem s) (Ok items)]). rewrite <- !app_assoc in *. split; [done|exact H2].
Qed.

Lemma wp_meter_servers before w systems rest servers resources since h :
  locked_since before h w since -> measured since systems servers resources ->
  wp_collect (meter_servers rest resources)
    (fun h' r => exists l, locked_since before h' w (l ++ since) /\ forall res, r = Ok res -> measured (l ++ since) systems (servers ++ rest) res) h.
Proof.
  revert servers resources since h. induction rest as [|vm rest IH]; intros servers resources since h Hl Hm; cbn [meter_servers].
  - apply wp_ret. exists []. split; [done|]. intros res [= <-]. by rewrite app_nil_r.
  - destruct (_ || _) eqn:Ephase.
    + eapply wp_mono; [apply (IH (servers ++ [vm])); [exact Hl|apply measured_skip; [|done]]|].
      * intros [Hd1 Hd2]. by apply orb_true_iff in Ephase as [E|E]; apply bool_decide_eq_true in E.
      * intros h' r (l & H1 & H2). exists l. rewrite <- app_assoc in H2. by split.
    + apply wp_bind. wp_ask_as can Hcan. clear Hcan. pose proof (locked_since_cons _ _ _ _ (Event CanMeterServers can) Hl eq_refl) as Hl1.
      destruct (negb can); [apply wp_ret; by exists [Event CanMeterServers can]|]. apply wp_bind_ok. wp_ask_as r Hr. clear Hr.
      pose proof (locked_since_cons _ _ _ _ (Event (MeterServer (VPS.Plan_ vm)) r) Hl1 eq_refl) as Hl2.
      destruct r as [items|e]; [|by exists [Event (MeterServer (VPS.Plan_ vm)) (Err e); Event CanMeterServers can]]. unfold lift. apply wp_bind_ok, wp_ret.
      destruct (add_readings _ _ _ items) as [resources'|e] eqn:Ea; [|by exists [Event (MeterServer (VPS.Plan_ vm)) (Ok items); Event CanMeterServers can]].
      eapply wp_mono; [apply (IH (servers ++ [vm])); [exact Hl2|eapply measured_server; [by apply measured_cons|done]]|].
      intros h' r (l & H1 & H2). exists (l ++ [Event (MeterServer (VPS.Plan_ vm)) (Ok items); Event CanMeterServers can]). rewrite <- !app_assoc in *. split; [done|exact H2].
Qed.
Lemma measured_app l since systems servers resources : measured since systems servers resources -> measured (l ++ since) systems servers resources.
Proof. intros Hm. induction l as [|e l IH]; [done|]. by apply measured_cons. Qed.

Lemma measured_nothing since : measured since [] [] [].
Proof. split_and!; [constructor|constructor|by intros s ?%not_elem_of_nil..]. Qed.

Lemma wp_collect_locked before w h :
  locked_since before h w [] -> wp_collect (collect_locked w) (fun h' _ => exists since, locked_since before h' w since) h.
Proof.
  intros Hl. unfold collect_locked. apply wp_bind_ok. wp_ask_as r Hr. clear Hr.
  pose proof (locked_since_cons _ _ _ _ (Event (BillingOf w) r) Hl eq_refl) as Hl1. destruct r as [[row|]|e]; [|apply wp_ret; by eexists|by eexists].
  destruct (billing_row.Status row != "active") eqn:Es.
  - apply negb_true_iff, bool_decide_eq_false in Es. apply wp_bind_ok. wp_ask_as r Hr; [exists before, [Event (BillingOf w) (Ok (Some row))], row; split_and!; [done|left|done]|]. clear Hr.
    pose proof (locked_since_cons _ _ _ _ (Event (DropSamples w) r) Hl1 eq_refl) as Hl2. destruct r as [[]|e]; [|by eexists].
    wp_ask_as r Hr. eexists. by apply (locked_since_cons _ _ _ _ (Event (NoteIssue w inactive_issue) r) Hl2).
  - apply negb_false_iff, bool_decide_eq_true in Es. apply wp_bind_ok. wp_ask_as r Hr. clear Hr.
    pose proof (locked_since_cons _ _ _ _ (Event (SystemsOf w) r) Hl1 eq_refl) as Hl2. destruct r as [systems|e]; [|by eexists].
    apply wp_bind_ok. eapply wp_mono; [apply (wp_meter_systems before w systems [] [] _ _ Hl2), measured_nothing|].
    intros h2 [resources|e] (l2 & Hl3 & Hm); [|by eexists]. specialize (Hm resources eq_refl). cbn [app] in Hm. apply wp_bind_ok. wp_ask_as r Hr. clear Hr.
    pose proof (locked_since_cons _ _ _ _ (Event (ServersOf w) r) Hl3 eq_refl) as Hl4. destruct r as [servers|e]; [|by eexists].
    apply wp_bind_ok. eapply wp_mono; [apply (wp_meter_servers before w systems servers [] resources _ _ Hl4); by apply measured_cons|].
    intros h3 [resources'|e] (l3 & Hl5 & Hm'); [|by eexists]. specialize (Hm' resources' eq_refl). cbn [app] in Hm'. apply wp_bind. wp_ask_as t Ht. clear Ht.
    pose proof (locked_since_cons _ _ _ _ (Event Wall t) Hl5 eq_refl) as Hl6. cbv beta. wp_ask_as r Hr.
    + split; [rewrite Zminus_mod, Z.mod_mod, Z.sub_diag by (unfold Second; lia); done|]. exists before; eexists; exists row, systems, servers. split; [exact Hl6|].
      split_and!; [|done| | |by apply measured_cons].
      * right. apply elem_of_app. right. right. apply elem_of_app. right. right. left.
      * right. apply elem_of_app. right. right. apply elem_of_app. right. left.
      * right. apply elem_of_app. right. left.
    + eexists. by apply (locked_since_cons _ _ _ _ (Event (RecordSnapshot w resources' (t - t mod Second)) r) Hl6).
Qed.

Lemma locks_held_app since h : Forall (fun e => locks (ev_call e) = false) since -> locks_held (since ++ h) = locks_held h.
Proof.
  induction 1 as [|[c a] since He _ IH]; [done|]. cbn [app locks_held ev_call ev_answer]. rewrite IH. cbn [ev_call] in He. by destruct c.
Qed.

Lemma filter_filter_other w (l : list string) : l = [] -> List.filter (fun x => x != w) (w :: l) = [].
Proof. intros ->. cbn. by rewrite bool_decide_true. Qed.

Lemma wp_collect_workspace w h : locks_held h = [] -> wp_collect (collectWorkspaceUsage w) (fun h' _ => locks_held h' = []) h.
Proof.
  intros Hh. unfold collectWorkspaceUsage. apply wp_bind_ok. wp_ask_as r Hr. clear Hr. destruct r as [[]|e]; cbn [negb]; [|by apply wp_ret|done].
  apply wp_bind. eapply wp_mono; [by apply (wp_collect_locked h)|]. intros h' r (since & -> & Hf). apply wp_bind. wp_ask_as u Hu. apply wp_ret.
  cbn [locks_held takes ev_call ev_answer]. rewrite locks_held_app by done. cbn [locks_held takes ev_call ev_answer]. by apply filter_filter_other.
Qed.

(** Collecting is exclusive, complete and honest.  A snapshot is recorded
    only under the lock of its workspace, which its row shows to be active, at a
    whole second; it is what was measured since of every System and every server
    that was listed (none but those not yet or no longer provisioned is left
    out), with distinct resources of known kinds and bounded units; samples are
    dropped only of a workspace that is not active; and however it ends no lock
    is left behind. *)
Theorem CollectUsage_guarded : wp_collect CollectUsage (fun h _ => locks_held h = []) [].
Proof.
  unfold CollectUsage. apply wp_bind_ok. wp_ask_as r Hr. clear Hr. destruct r as [workspaces|e]; [|done]. apply wp_bind.
  assert (forall l first h, locks_held h = [] -> wp_collect (collect_workspaces l first) (fun h' _ => locks_held h' = []) h) as Hl.
  { induction l as [|w l IH]; intros first h Hh; cbn [collect_workspaces]; [by apply wp_ret|]. apply wp_bind.
    eapply wp_mono; [by apply wp_collect_workspace|]. intros h' [[]|e] Hh'; [by apply IH|]. apply wp_bind. wp_ask_as u Hu. by apply IH. }
  eapply wp_mono; [by apply Hl|]. intros h' first Hh'. by apply wp_ret.
Qed.
End Collecting.

(** ** Changes of plan *)
Section PlanChange.
Context `{StripeDecode} (cfg : BillingConfig) (workspace target : string) (expectedEnd : Z).

Definition scheduled_call (id : string) : billing_call :=
  Stripe "GET" ("/v1/subscriptions/" +:+ PathEscape id) [("expand[]"%string, "schedule"%string)] "" (Some SSubscription).

(** The subscription of the locked row: active, of the current plan, and running
    until the end that the owner was shown, which is still to come. *)
Definition renewing (h : list (event billing_answer)) (id : string) (sub : subscription_view) (current : string) : Prop :=
  exists row now,
    Event (LockBilling workspace) (Ok row) ∈ h /\ id = text (billing_row.SubscriptionID row) /\ Event (scheduled_call id) (Ok sub) ∈ h /\
    let s := sv_Subscription sub in
    subscriptionPlan cfg s = Ok current /\ stripeSubscription.Customer s = text (billing_row.CustomerID row) /\
    stripeSubscription.Status s = "active"%string /\ stripeSubscription.CancelAtPeriodEnd s = false /\
    (period_of s).2 = expectedEnd /\ (period_of s).1 <> 0 /\ Event Wall now ∈ h /\ Unix now < expectedEnd.

(** A schedule that keeps what is paid until the renewal and charges nothing in between. *)
Definition at_renewal (current : string) (v : values) : Prop :=
  Forall (fun kv => kv ∈ v)
    [("proration_behavior", "none"); ("phases[0][proration_behavior]", "none"); ("phases[1][proration_behavior]", "none");
     ("phases[0][end_date]", Itoa expectedEnd); ("phases[1][start_date]", Itoa expectedEnd);
     ("phases[0][metadata][canter_plan]", current); ("phases[1][metadata][canter_plan]", target)]%string.

Definition change_guard (h : list (event billing_answer)) (c : billing_call) : Prop :=
  match c with
  | ReadValidated | WriteValidated | Wall | Begin => True
  | LockBilling w => w = workspace
  | Stripe method path v key _ =>
      (method = "GET"%string /\ key = EmptyString) \/
      (method = "POST"%string /\ exists id sub current, renewing h id sub current /\
         ((path = "/v1/subscription_schedules"%string /\ v = [("from_subscription"%string, id)]) \/
          (target = current /\ exists s, sv_Schedule sub = Some s /\ path = "/v1/subscription_schedules/" +:+ PathEscape (sch_ID s) +:+ "/release" /\ v = []) \/
          (target <> current /\ at_renewal current v)))
  | CountAttempt w => w = workspace /\ exists id sub current, renewing h id sub current
  | Commit => Event (CountAttempt workspace) (Ok tt) ∈ h
  | _ => False
  end.

Lemma renewing_cons h id sub current e : renewing h id sub current -> renewing (e :: h) id sub current.
Proof.
  intros (row & t & H1 & H2 & H3 & H4 & H5 & H6 & H7 & H8 & H9 & H10 & H11). exists row, t.
  split; [by right|]. split; [done|]. split; [by right|]. cbv zeta. split_and!; try done. by right.
Qed.

Lemma wp_validate_change h : wp_any change_guard (ValidatePrices cfg) (fun _ _ => True) h.
Proof.
  assert (safe change_guard (ValidatePrices cfg)) as Hs; [|apply Hs].
  assert (forall specs, safe change_guard (validate_specs cfg specs)) as Hspecs.
  { induction specs as [|[id kind] specs IH]; cbn [validate_specs]; [apply safe_ret|]. apply safe_bind_ok; [refine (safe_call _ _ _); intros ?; by left|].
    intros p. destruct (negb _); [apply safe_ret|done]. }
  unfold ValidatePrices. apply safe_bind; [refine (safe_call _ _ _); by intros ?|]. intros []; [apply safe_ret|]. apply safe_bind_ok; [apply safe_ret|].
  intros specs. apply safe_bind_ok; [apply Hspecs|]. intros _. apply safe_bind_ok; [refine (safe_call _ _ _); intros ?; by left|].
  intros m. destruct (negb _); [apply safe_ret|]. apply safe_bind; [refine (safe_call _ _ _); by intros ?|]. intros _. apply safe_ret.
Qed.

Lemma wp_reconcile id sub current schedule key h :
  renewing h id sub current ->
  wp_any change_guard (reconcile_schedule workspace id key schedule) (fun h' _ => renewing h' id sub current) h.
Proof.
  intros Hr. unfold reconcile_schedule. destruct schedule as [s|]; [|by apply wp_ret]. destruct (_ == workspace); [by apply wp_ret|].
  apply wp_bind. unfold create_schedule, stripe. wp_ask_as r Hans.
  { right. split; [done|]. exists id, sub, current. split; [done|]. by left. }
  destruct r as [r|e]; [destruct (_ != _)|]; apply wp_ret; by apply renewing_cons.
Qed.

Lemma wp_write_schedule id sub current key start items h :
  renewing h id sub current ->
  wp_any change_guard (write_schedule cfg workspace id key current target start expectedEnd items (sv_Schedule sub)) (fun h' _ => renewing h' id sub current) h.
Proof.
  intros Hr. unfold write_schedule. case_bool_decide as Et.
  - destruct (sv_Schedule sub) as [s|] eqn:Es; [|by apply wp_ret]. unfold stripe_post. wp_ask_as r Hans; [|by apply renewing_cons].
    right. split; [done|]. exists id, sub, current. split; [done|]. right. left. split; [done|]. by exists s.
  - apply wp_bind_ok. apply (wp_mono _ _ _ (fun h' _ => renewing h' id sub current)).
    { destruct (sv_Schedule sub); [by apply wp_ret|]. unfold create_schedule, stripe. wp_ask_as r Hans; [|by apply renewing_cons].
      right. split; [done|]. exists id, sub, current. split; [done|]. by left. }
    intros h' [s|e] Hr'; [|done]. unfold stripe_post. wp_ask_as r Hans; [|by apply renewing_cons].
    right. split; [done|]. exists id, sub, current. split; [done|]. right. right. split; [done|].
    unfold at_renewal, schedule_values. repeat constructor; apply elem_of_app; left; rewrite !elem_of_cons; tauto.
Qed.

(** A plan changes only at its renewal.  The service is asked to change
    something only for the workspace's own subscription, read while its row is
    locked, active and not ending, and running until the very end the owner was
    shown, which is still to come; then either the schedule is released because
    the plan is to stay, or one is written that keeps what is paid until that
    end and starts the other plan then, without proration; and a change is
    committed only with its attempt counted. *)
Theorem changeBillingPlan_guarded h : wp_any change_guard (changeBillingPlan cfg workspace target expectedEnd) (fun _ _ => True) h.
Proof.
  unfold changeBillingPlan. apply wp_bind_ok. eapply wp_mono; [apply wp_validate_change|]. intros h1 [u0|e] _; [|done].
  destruct (_ && _); [by apply wp_ret|]. apply wp_bind_ok. wp_ask_as r Hr. clear Hr. destruct r as [u|e]; [|done]. apply wp_bind_ok. wp_ask_as r Hr. clear Hr.
  destruct r as [row|e]; [|done]. destruct (_ == ""); [by apply wp_ret|]. apply wp_bind_ok. unfold scheduled, stripe. wp_ask_as r Hr; [by left|]. clear Hr.
  destruct r as [sub|e]; [|done]. unfold lift. apply wp_bind_ok, wp_ret. destruct (subscriptionPlan cfg _) as [current|e] eqn:Ep; [|done].
  destruct (_ || _) eqn:Eb; [by apply wp_ret|]. apply orb_false_iff in Eb as [[Ec Es]%orb_false_iff Ecancel].
  apply negb_false_iff, bool_decide_eq_true in Ec, Es. destruct (period_of _) as [start stop] eqn:Eper.
  destruct (expectedEnd =? stop) eqn:Eend; cbn [negb]; [|by apply wp_ret]. apply Z.eqb_eq in Eend. apply wp_bind. wp_ask_as t Ht. clear Ht.
  destruct (_ || _) eqn:Eb; [by apply wp_ret|]. apply orb_false_iff in Eb as [E1 E2].
  match goal with |- wp _ _ _ _ ?h0 => assert (renewing h0 (text (billing_row.SubscriptionID row)) sub current) as Hren end.
  { exists row, t. split; [by do 2 right; left|]. split; [done|]. split; [right; left|]. cbv zeta. rewrite Eper. split_and!; try done; [cbn; lia|left|lia]. }
  subst stop. apply wp_bind_ok. eapply wp_mono; [by eapply wp_reconcile|]. intros h2 [u2|e] H2; [|done]. apply wp_bind_ok.
  eapply wp_mono; [by eapply wp_write_schedule|]. intros h3 [u3|e] H3; [|done]. apply wp_bind_ok. wp_ask_as r Hr; [split; [done|]; by eexists _, _, _|]. clear Hr.
  destruct r as [[]|e]; [|done]. wp_ask_as r Hr; [left|done].
Qed.
End PlanChange.

(** ** Witnesses *)
Definition wit_config : BillingConfig :=
  BillingConfig.mk "bpc" true "sk" "whsec" "0123456789abcdef0123456789abcdef" "price_payg" "" "" "mtr" "canter_usage".

(** A service that accepts what is posted and shows nothing. *)
Definition wit_answer (c : billing_call) : billing_answer c.
Proof.
  destruct c; try match goal with out : option stripe_kind |- _ => destruct out end; cbn;
    first [exact 0|exact tt|exact true|exact (Ok tt)|exact (Err (Errorf "down"))].
Defined.
#[local] Instance wit_decode : StripeDecode := { decode_reply _ _ := Err (Errorf "not used"); decode_event _ := Err (Errorf "not used") }.

Definition wit_usage : usage_row :=
  usage_row.mk "usage-0001" "w" "cus" "sub" 42 "compute/vm" "v1" (100 * Second) 0 None None false.
Definition wit_table : billing_db := Db ∅ [wit_usage] ∅ ∅ ∅ ∅.
Definition wit_handler : billing_db * unit -> forall c, billing_answer c * (billing_db * unit) :=
  ledger_handler (fun _ _ => (Weather None true (200 * Second) (200 * Second) [], tt)) Z.div (fun _ db c => (wit_answer c, db)).

(** Two dispatchers pick the row, both send it and both mark it. *)
Definition wit_threads : list (thread billing_answer unit) :=
  (fun op => Thread (gateway_program wit_config "" op) []) <$> [GDispatch; GDispatch].
Definition wit_race : list (thread billing_answer unit) * (billing_db * unit) :=
  fold_left (pool_exec wit_handler) [0; 1; 0; 1; 0; 1; 0; 1; 0; 1; 0; 1]%nat (wit_threads, (wit_table, tt)).

Lemma wit_race_steps : rtc (pool_step wit_handler) (wit_threads, (wit_table, tt)) (wit_race.1, (wit_race.2.1, wit_race.2.2)).
Proof. pose proof (pool_exec_steps wit_handler (wit_threads, (wit_table, tt)) [0; 1; 0; 1; 0; 1; 0; 1; 0; 1; 0; 1]%nat) as Hs. fold wit_race in Hs. by destruct wit_race as [ts [db []]]. Qed.

Definition keys_sent (ts : list (thread billing_answer unit)) : list (list string) :=
  (fun t => omap (fun e => usage_key (ev_call e)) (th_history t)) <$> ts.

Lemma usage_sent_as_recorded_witness :
  keys_sent wit_race.1 = [["canter-usage-usage-0001"]; ["canter-usage-usage-0001"]]%string /\
  (usage_row.SentAt <$> usage wit_race.2.1) = [Some (200 * Second)] /\
  forall u, u ∈ usage wit_race.2.1 -> usage_row.SentAt u <> None -> exists t, t ∈ wit_race.1 /\ sent wit_config (th_history t) (picked_of u).
Proof.
  split; [vm_compute; reflexivity|]. split; [vm_compute; reflexivity|].
  apply (usage_sent_as_recorded wit_config "" (fun _ _ => (Weather None true (200 * Second) (200 * Second) [], tt)) Z.div (fun _ db c => (wit_answer c, db))
    [GDispatch; GDispatch] wit_table tt wit_race.1 wit_race.2.1 wit_race.2.2).
  - repeat constructor. by intros ?%not_elem_of_nil.
  - by repeat constructor.
  - exact wit_race_steps.
Defined.

Lemma signature_accepted_witness :
  verifyBillingSignature "{}" (signature_header "whsec" "{}" 1000) "whsec" (1000 * Second) = true /\
  verifyBillingSignature "{}" (signature_header "whsec" "{}" 1000) "whsec" (2000 * Second) = false.
Proof.
  split; (rewrite (proj1 (signature_accepted "{}" "whsec" _ ltac:(discriminate))); [vm_compute; reflexivity|unfold max_int; lia]).
Defined.
