(* ===== verification/ServerTheorems.v ===== *)
(** * Theorems on standalone servers

    What the dispatcher may do to a server and on what evidence, for every
    environment; and, for any number of drafts, approvals, requests to delete
    and dispatchers that interleave with each other and with the transactions of
    initial deployments, how documents move and what is reserved for them; and
    that an undisturbed turn of the dispatcher brings a server where it belongs. *)

From S2P Require Import Prelude Effects GoStrings Digest Documents Json ControlDocuments SandboxSpec Calls Creation Vps.
From S2P Require Import Tables LeaseQueue Deployments DeploymentSteps Rows Billing Servers.
From S2P Require Import Example.
From stdpp Require Import relations.
#[local] Open Scope Z_scope.
#[local] Opaque vpsDigest.

Abbreviation strace := (list (event server_answer)).

(** ** What a program knows of a server

    From its own history: whether it holds the lock, what was answered since,
    and the document as it last read or saved it. *)
Definition lock_event (id : string) (e : event server_answer) : option bool :=
  match ev_call e as c return server_answer c -> option bool with
  | TryLockServer i => fun r => match r with Ok true => if i == id then Some true else None | _ => None end
  | UnlockServer i => fun _ => if i == id then Some false else None
  | _ => fun _ => None
  end (ev_answer e).
Fixpoint holds (id : string) (h : strace) : bool :=
  match h with [] => false | e :: h' => match lock_event id e with Some b => b | None => holds id h' end end.
Fixpoint since_lock (id : string) (h : strace) : strace :=
  match h with [] => [] | e :: h' => match lock_event id e with Some _ => [] | None => e :: since_lock id h' end end.

Definition document_event (id : string) (e : event server_answer) : option (option VPS) :=
  match ev_call e as c return server_answer c -> option (option VPS) with
  | GetServer _ i => fun r => match r with Ok (v, _) => if i == id then Some (Some v) else None | Err _ => None end
  | SaveServer v _ => fun r => if VPS.ID v == id then Some (match r with Ok _ => Some v | Err _ => None end) else None
  | _ => fun _ => None
  end (ev_answer e).
Fixpoint latest (id : string) (h : strace) : option VPS :=
  match h with
  | [] => None
  | e :: h' =>
      match lock_event id e with
      | Some _ => None
      | None => match document_event id e with Some o => o | None => latest id h' end
      end
  end.
Definition knows (h : strace) (v : VPS) : Prop := holds (VPS.ID v) h = true /\ latest (VPS.ID v) h = Some v.

(** ** The life of a server *)
Inductive server_step : VPS -> VPS -> Prop :=
  | step_approve v now actor : VPS.Phase v = "drafted"%string -> VPS.Digest v = vpsDigest v -> server_step v (approved now actor v)
  | step_create v : VPS.Phase v = "queued"%string -> server_step v (VPS.with_Phase "creating" v)
  | step_ready v address fingerprint : VPS.Phase v = "creating"%string -> server_step v (made_ready address fingerprint v)
  | step_unpaid v why : VPS.Phase v = "queued"%string -> server_step v (failing why v)
  | step_failed v why : VPS.Phase v = "creating"%string -> server_step v (failed_provisioning why v)
  | step_remove v : VPS.Phase v <> "drafted"%string -> VPS.Phase v <> "deleted"%string -> server_step v (VPS.with_Phase "deleting" v)
  | step_pending v why : VPS.Phase v = "deleting"%string -> server_step v (VPS.with_Failure why v)
  | step_removed v : VPS.Phase v = "deleting"%string -> server_step v (removed v).

Definition may_run (v : VPS) : Prop := is_Some (VPS.ApprovedAt v) /\ VPS.Digest v = vpsDigest v.
Definition expired_at (v : VPS) (now : Z) : Prop := exists expires, VPS.ExpiresAt v = Some expires /\ expires <= now.

(** ** What a program may do, given its history *)
(** The evidence for saving [v'] over [v]. *)
Definition evidence (s : strace) (v v' : VPS) : Prop :=
  (VPS.Phase v = "queued"%string -> VPS.Phase v' = "creating"%string -> Event (PayFor (VPS.WorkspaceID v)) (Ok tt) ∈ s) /\
  (VPS.Phase v = "ready"%string ->
     v' = v \/ Event (DeletionRequested (VPS.WorkspaceID v) (VPS.ID v)) (Ok true) ∈ s \/ exists now, Event ServerNow now ∈ s /\ expired_at v now) /\
  (VPS.Phase v <> "ready"%string -> VPS.Phase v' = "ready"%string ->
     exists deadline state address fingerprint,
       Event (EApplyVPS (VPS.Plan_ v) deadline) (Ok state) ∈ s /\ ready_address state = Some address /\
       Event (EVPSHostFingerprint (VPS.Plan_ v)) (Ok fingerprint) ∈ s /\ v' = made_ready address fingerprint v) /\
  (VPS.Phase v' = "deleted"%string ->
     Event (EDestroyVPS (VPS.Plan_ v)) (Ok tt) ∈ s /\ Event (ReleaseReservation (VPS.WorkspaceID v) (VPS.ID v)) (Ok tt) ∈ s).

Definition server_guard (h : strace) (c : server_call) : Prop :=
  match c with
  | SaveServer v' _ =>
      exists v, knows h v /\ may_run v /\ VPS.Phase v <> "drafted"%string /\ VPS.ID v' = VPS.ID v /\ VPS.WorkspaceID v' = VPS.WorkspaceID v /\
        (v' = v \/ server_step v v') /\ evidence (since_lock (VPS.ID v) h) v v'
  | EApplyVPS plan deadline =>
      exists v now, knows h v /\ may_run v /\ VPS.Phase v = "creating"%string /\ plan = VPS.Plan_ v /\ deadline = apply_deadline v /\
        Event (DeletionRequested (VPS.WorkspaceID v) (VPS.ID v)) (Ok false) ∈ since_lock (VPS.ID v) h /\
        Event ServerNow now ∈ since_lock (VPS.ID v) h /\ ~ expired_at v now
  | EVPSHostFingerprint plan => exists v, knows h v /\ may_run v /\ VPS.Phase v = "creating"%string /\ plan = VPS.Plan_ v
  | EDestroyVPS plan => exists v, knows h v /\ may_run v /\ VPS.Phase v = "deleting"%string /\ plan = VPS.Plan_ v
  | ReleaseReservation workspace id =>
      exists v, knows h v /\ VPS.ID v = id /\ VPS.WorkspaceID v = workspace /\ VPS.Phase v = "deleting"%string /\
        Event (EDestroyVPS (VPS.Plan_ v)) (Ok tt) ∈ since_lock id h
  | InsertServer v => VPS.Phase v = "drafted"%string /\ VPS.Digest v = vpsDigest v
  | ApproveServer workspace _ _ _ => Event (PayFor workspace) (Ok tt) ∈ h
  | RequestDeletion workspace id => exists v d, Event (GetServer workspace id) (Ok (v, d)) ∈ h /\ VPS.Phase v <> "drafted"%string
  | UnlockServer id => holds id h = true
  | _ => True
  end.

(** A row holds the document of its id and workspace, in a phase the table knows. *)
Definition server_rely (h : strace) (c : server_call) : server_answer c -> Prop :=
  match c with
  | GetServer workspace id => fun r => match r with
                                   | Ok (v, _) => VPS.ID v = id /\ VPS.WorkspaceID v = workspace /\ VPS.Phase v ∈ server_phases
                                   | Err _ => True
                                   end
  | _ => fun _ => True
  end.
Abbreviation wp_server p Q h := (wp server_rely server_guard p Q h) (only parsing).

(** ** Knowledge through a program *)
Definition quiet (e : event server_answer) : Prop :=
  match ev_call e with TryLockServer _ | UnlockServer _ | GetServer _ _ | SaveServer _ _ => False | _ => True end.

(** Under the lock of [id], with [v] its document and the events [s] since. *)
Record At (id workspace : string) (v : VPS) (s h : strace) : Prop := {
  at_holds : holds id h = true;
  at_latest : latest id h = Some v;
  at_id : VPS.ID v = id;
  at_workspace : VPS.WorkspaceID v = workspace;
  at_since : forall e, e ∈ s -> e ∈ since_lock id h
}.

Lemma quiet_lock id e : quiet e -> lock_event id e = None.
Proof. destruct e as [[] r]; cbn; done. Qed.
Lemma quiet_document id e : quiet e -> document_event id e = None.
Proof. destruct e as [[] r]; cbn; done. Qed.

Lemma at_quiet id ws v s h e : quiet e -> At id ws v s h -> At id ws v (e :: s) (e :: h).
Proof.
  intros He [H1 H2 H3 H4 H5]. pose proof (quiet_lock id e He) as El. pose proof (quiet_document id e He) as Ed.
  split; cbn [holds latest since_lock]; rewrite ?El, ?Ed; try done.
  intros x Hx. apply elem_of_cons in Hx as [->|Hx]; [by left|right; by apply H5].
Qed.
Lemma at_drop id ws v s s' h : (forall e, e ∈ s' -> e ∈ s) -> At id ws v s h -> At id ws v s' h.
Proof. intros Hs [H1 H2 H3 H4 H5]. split; try done. intros e He. by apply H5, Hs. Qed.
Lemma at_knows id ws v s h : At id ws v s h -> knows h v.
Proof. intros [H1 H2 H3 H4 H5]. split; by rewrite H3. Qed.

Lemma evidence_mono s s' v v' : (forall e, e ∈ s -> e ∈ s') -> evidence s v v' -> evidence s' v v'.
Proof.
  intros Hs (H1 & H2 & H3 & H4). split_and!.
  - intros Hq Hc. by apply Hs, H1.
  - intros Hr. destruct (H2 Hr) as [->|[H|(now & Hn & Hx)]]; [by left|right; left; by apply Hs|right; right; exists now; split; [by apply Hs|done]].
  - intros Hn Hr. destruct (H3 Hn Hr) as (d & st & a & f & Ha & Hra & Hf & ->). exists d, st, a, f. by split_and!; [apply Hs| |apply Hs|].
  - intros Hd. destruct (H4 Hd) as [Ha Hb]. split; by apply Hs.
Qed.

Section Dispatcher.
Context (workspace id : string).
Abbreviation at_ := (At id workspace) (only parsing).

Lemma wp_at_now {A} (k : Z -> sprog A) Q v s h :
  at_ v s h -> (forall t h', h' = Event ServerNow t :: h -> at_ v (Event ServerNow t :: s) h' -> wp_server (k t) Q h') ->
  wp_server (ask ServerNow ≫= k) Q h.
Proof. intros Hat Hk. apply wp_bind. wp_ask_as t Ht. apply (Hk t _ eq_refl). by apply at_quiet. Qed.

Lemma wp_save_guarded v0 v s h next Q :
  at_ v0 s h -> may_run v0 -> VPS.Phase v0 <> "drafted"%string -> VPS.ID v = VPS.ID v0 -> VPS.WorkspaceID v = VPS.WorkspaceID v0 ->
  v = v0 \/ server_step v0 v -> evidence s v0 v ->
  (forall h', at_ v s h' -> Q h' (Ok tt)) -> (forall h' e, holds id h' = true -> Q h' (Err e)) ->
  wp_server (ask (SaveServer v next)) Q h.
Proof.
  intros Hat Hrun Hd Hi Hw Hs He Hok Herr. wp_ask_as r Hr.
  - exists v0. split; [by eapply at_knows|]. split_and!; try done. eapply evidence_mono; [|exact He]. rewrite (at_id _ _ _ _ _ Hat). apply Hat.
  - assert (lock_event id (Event (SaveServer v next) r) = None) as El by done.
    assert (VPS.ID v = id) as Hid by (rewrite Hi; apply Hat).
    destruct r as [[]|e].
    + apply Hok. destruct Hat as [H1 H2 H3 H4 H5]. split; cbn [holds latest since_lock]; rewrite ?El; [done| |done|congruence|].
      * unfold document_event. cbn [ev_call ev_answer]. by rewrite bool_decide_true.
      * intros x Hx. right. by apply H5.
    + apply Herr. cbn [holds]. rewrite El. apply Hat.
Qed.

Lemma wp_save v0 v s h Q :
  at_ v0 s h -> may_run v0 -> VPS.Phase v0 <> "drafted"%string -> VPS.ID v = VPS.ID v0 -> VPS.WorkspaceID v = VPS.WorkspaceID v0 ->
  v = v0 \/ server_step v0 v -> evidence s v0 v ->
  (forall h', at_ v s h' -> Q h' (Ok tt)) -> (forall h' e, holds id h' = true -> Q h' (Err e)) ->
  wp_server (save v) Q h.
Proof.
  intros Hat Hrun Hd Hi Hw Hs He Hok Herr.
  assert (forall next t h', at_ v0 (Event ServerNow t :: s) h' -> wp_server (ask (SaveServer v next)) Q h') as Hsave.
  { intros next t h' Hat'. eapply wp_save_guarded; [by apply Hat'|done..| | |done].
    - eapply evidence_mono; [|exact He]. intros e Hin. by right.
    - intros h2 H2. apply Hok. eapply at_drop; [|exact H2]. intros e Hin. by right. }
  unfold save. eapply wp_at_now; [exact Hat|]. intros t h1 _ H1. apply wp_bind. destruct (_ == "ready").
  - eapply wp_at_now; [exact H1|]. intros t' h2 _ H2. apply wp_ret. eapply wp_at_now; [exact H2|]. intros t3 h3 _ H3.
    eapply Hsave, at_drop; [|exact H3]. intros e [->|He']%elem_of_cons; [by left|do 3 right; exact He'].
  - apply wp_ret. eapply wp_at_now; [exact H1|]. intros t3 h3 _ H3. eapply Hsave, at_drop; [|exact H3].
    intros e [->|He']%elem_of_cons; [by left|do 2 right; exact He'].
Qed.
(** A call that changes neither the lock nor the document. *)
Definition quiet_call (c : server_call) : Prop :=
  match c with TryLockServer _ | UnlockServer _ | GetServer _ _ | SaveServer _ _ => False | _ => True end.
Lemma wp_at_quiet {A} c (k : server_answer c -> sprog A) Q v s h :
  at_ v s h -> quiet_call c -> server_guard h c ->
  (forall r h', at_ v (Event c r :: s) h' -> wp_server (k r) Q h') -> wp_server (call c ≫= k) Q h.
Proof. intros Hat Hq Hg Hk. apply wp_bind. wp_ask_as r Hr. by apply Hk, at_quiet. Qed.

Abbreviation locked := (fun (h : strace) (_ : result unit) => holds id h = true) (only parsing).
Lemma wp_then v s h (p : sprog (result unit)) (k : sprog (result unit)) Q :
  wp_server p (fun h' r => match r with Ok _ => at_ v s h' | Err e => Q h' (Err e) end) h ->
  (forall h', at_ v s h' -> wp_server k Q h') -> wp_server (bind_ok p (fun _ => k)) Q h.
Proof. intros Hp Hk. apply wp_bind_ok. eapply wp_mono; [exact Hp|]. intros h' [a|e]; [apply Hk|done]. Qed.

Lemma wp_saved v0 v s h (Q : strace -> result unit -> Prop) :
  at_ v0 s h -> may_run v0 -> VPS.Phase v0 <> "drafted"%string -> VPS.ID v = VPS.ID v0 -> VPS.WorkspaceID v = VPS.WorkspaceID v0 ->
  v = v0 \/ server_step v0 v -> evidence s v0 v -> (forall h' e, holds id h' = true -> Q h' (Err e)) ->
  wp_server (save v) (fun h' r => match r with Ok _ => at_ v s h' | Err e => Q h' (Err e) end) h.
Proof. intros. eapply wp_save; eauto. Qed.
Lemma wp_last v0 v s h :
  at_ v0 s h -> may_run v0 -> VPS.Phase v0 <> "drafted"%string -> VPS.ID v = VPS.ID v0 -> VPS.WorkspaceID v = VPS.WorkspaceID v0 ->
  v = v0 \/ server_step v0 v -> evidence s v0 v -> wp_server (save v) locked h.
Proof. intros. eapply wp_save; eauto. intros h' H'. apply H'. Qed.

(** Evidence for a phase other than the guarded ones. *)
Lemma evidence_other s v v' :
  VPS.Phase v <> "ready"%string -> VPS.Phase v' <> "creating"%string -> VPS.Phase v' <> "ready"%string -> VPS.Phase v' <> "deleted"%string ->
  evidence s v v'.
Proof. by intros H1 H2 H3 H4; split_and!. Qed.

Lemma wp_audit v s h action (Q : strace -> result unit -> Prop) :
  at_ v s h -> (forall h', holds id h' = true -> Q h' (Ok tt)) ->
  wp_server (_ ← ask (ServerAudit (VPS.WorkspaceID v) system_actor action (VPS.ID v)); Ret (Ok tt)) Q h.
Proof. intros Hat HQ. eapply wp_at_quiet; [exact Hat|done..|]. intros r h' H'. apply wp_ret, HQ, H'. Qed.

(** [why]: the service of the workspace asked for it, it expired, or it was already so. *)
Lemma wp_remove v s h :
  at_ v s h -> may_run v -> VPS.Phase v <> "drafted"%string -> VPS.Phase v <> "deleted"%string ->
  (VPS.Phase v = "ready"%string -> Event (DeletionRequested workspace id) (Ok true) ∈ s \/ exists now, Event ServerNow now ∈ s /\ expired_at v now) ->
  wp_server (remove_server v) locked h.
Proof.
  intros Hat Hrun Hd Hdel Hwhy. unfold remove_server. cbv zeta. pose proof (at_id _ _ _ _ _ Hat) as Hid. pose proof (at_workspace _ _ _ _ _ Hat) as Hws.
  eapply wp_then.
  { eapply (wp_saved _ _ _ _ locked); [exact Hat|done|done|done|done|right; by constructor| |done].
    split_and!; cbn; try done. intros Hr. right. rewrite Hws, Hid. by apply Hwhy. }
  intros h1 H1. eapply wp_at_quiet; [exact H1|done|exists (VPS.with_Phase "deleting" v); split_and!; [by eapply at_knows|done..]|].
  intros [[]|e] h2 H2.
  - eapply wp_then.
    { wp_ask_as r Hr.
      - exists (VPS.with_Phase "deleting" v). split_and!; [by eapply at_knows|done..|]. cbn. rewrite Hid. apply H2. left.
      - destruct r as [[]|e]; [|cbn; by apply H2]. by apply at_quiet. }
    intros h3 H3. eapply wp_then.
    { eapply (wp_saved _ _ _ _ locked); [exact H3|done..|right; by constructor| |done].
      split_and!; cbn; try done. intros _. split; [right; left|left]. }
    intros h4 H4. eapply (wp_audit (removed (VPS.with_Phase "deleting" v))); [exact H4|done].
  - apply wp_bind. eapply wp_mono; [eapply wp_last; [exact H2|done..|right; by constructor|by apply evidence_other]|].
    intros h3 r H3. by apply wp_ret.
Qed.

Lemma wp_create v s h :
  at_ v s h -> may_run v -> VPS.Phase v = "creating"%string -> Event (DeletionRequested workspace id) (Ok false) ∈ s ->
  (exists now, Event ServerNow now ∈ s /\ ~ expired_at v now) -> wp_server (create_server v) locked h.
Proof.
  intros Hat Hrun Hph Hreq (now & Hnow & Hexp). unfold create_server. pose proof (at_id _ _ _ _ _ Hat) as Hid. pose proof (at_workspace _ _ _ _ _ Hat) as Hws.
  assert (forall why s h, at_ v s h -> wp_server (save (failed_provisioning why v)) locked h) as Hfail.
  { intros why s' h' H'. eapply wp_last; [exact H'|done|by rewrite Hph|done..|right; by constructor|]. apply evidence_other; [by rewrite Hph|done..]. }
  eapply wp_at_quiet; [exact Hat|done| |].
  { exists v, now. split_and!; [by eapply at_knows|done|done|done|done|rewrite Hws, Hid; apply Hat, Hreq|rewrite Hid; apply Hat, Hnow|done]. }
  intros [state|e] h1 H1.
  - destruct (ready_address state) as [address|] eqn:Ea; [|by eapply Hfail].
    eapply wp_at_quiet; [exact H1|done|exists v; split_and!; [by eapply at_knows|done..]|].
    intros [fingerprint|e] h2 H2; [|by eapply Hfail]. eapply wp_then.
    { eapply (wp_saved _ _ _ _ locked); [exact H2|done|by rewrite Hph|done..|right; by constructor| |done]. split_and!; cbn; try done; [by rewrite Hph|].
      intros _ _. exists (apply_deadline v), state, address, fingerprint. split_and!; [right; left|done|left|done]. }
    intros h3 H3. eapply (wp_audit (made_ready address fingerprint v)); [exact H3|done].
  - eapply wp_at_quiet; [exact H1|done|done|]. intros [ended|] h2 H2; [apply wp_ret, H2|].
    apply wp_bind. eapply wp_mono; [by eapply Hfail|]. intros h3 r H3. by apply wp_ret.
Qed.

Lemma wp_start v s h :
  at_ v s h -> may_run v -> VPS.Phase v = "queued"%string \/ VPS.Phase v = "creating"%string ->
  Event (DeletionRequested workspace id) (Ok false) ∈ s -> (exists now, Event ServerNow now ∈ s /\ ~ expired_at v now) ->
  wp_server (start_server v) locked h.
Proof.
  intros Hat Hrun Hph Hreq Hnow. unfold start_server. destruct (VPS.Phase v == "queued") eqn:Eq.
  - apply bool_decide_eq_true in Eq. eapply wp_at_quiet; [exact Hat|done|done|]. intros [[]|e] h1 H1.
    + eapply wp_then.
      { eapply (wp_saved _ _ _ _ locked); [exact H1|done|by rewrite Eq|done..|right; by constructor| |done]. split_and!; cbn; try done; [|by rewrite Eq].
        intros _ _. left. }
      intros h2 H2. eapply wp_create; [exact H2|done|done|by right|]. destruct Hnow as (now & Hn & Hx). exists now. split; [by right|done].
    + eapply wp_last; [exact H1|done|by rewrite Eq|done..|right; by constructor|]. apply evidence_other; [by rewrite Eq|done..].
  - apply bool_decide_eq_false in Eq. destruct Hph as [Hph|Hph]; [done|]. by eapply wp_create.
Qed.

Lemma wp_reconcile_locked h : holds id h = true -> wp_server (reconcile_locked workspace id) locked h.
Proof.
  intros Hh. unfold reconcile_locked. apply wp_bind_ok. wp_ask_as r Hr. destruct r as [[v d]|e]; [|exact Hh].
  destruct Hr as (Hid & Hws & Hin). cbn [fst]. set (h1 := Event _ _ :: h).
  assert (at_ v [] h1) as H1.
  { split; cbn; [done|by rewrite bool_decide_true|done|done|]. intros e He. by apply not_elem_of_nil in He. }
  destruct (_ || _) eqn:Eph; [apply wp_ret, H1|]. apply orb_false_iff in Eph as [Ed Ex]. apply bool_decide_eq_false in Ed, Ex.
  destruct (VPS.ApprovedAt v) as [t|] eqn:Eat; [|apply wp_ret, H1]. destruct (VPS.Digest v != vpsDigest v) eqn:Eg; [apply wp_ret, H1|].
  apply negb_false_iff, bool_decide_eq_true in Eg. assert (may_run v) as Hrun by by split.
  apply wp_bind_ok. wp_ask_as remove Hrem. clear Hrem. destruct remove as [remove|e]; [|apply H1].
  assert (at_ v [Event (DeletionRequested workspace id) (Ok remove)] (Event (DeletionRequested workspace id) (Ok remove) :: h1)) as H2
    by by apply at_quiet. clearbody h1. revert H2. generalize (Event (DeletionRequested workspace id) (Ok remove) :: h1). intros h2 H2.
  eapply wp_at_now; [exact H2|]. intros now h3 _ H3.
  assert ((match VPS.ExpiresAt v with Some expires => expires <=? now | None => false end) = true <-> expired_at v now) as Hexp.
  { unfold expired_at. destruct (VPS.ExpiresAt v) as [x|]; [|by split; [|intros (x & Hx & _)]]. rewrite Z.leb_le.
    split; [intros Hx; by exists x|by intros (y & [= ->] & Hy)]. }
  destruct (remove || _ || _) eqn:Er.
  - eapply wp_remove; [exact H3|done..|]. intros Hready. apply orb_true_iff in Er as [[->|Er]%orb_true_iff|Er].
    + left. right. left.
    + right. exists now. split; [left|by apply Hexp].
    + apply bool_decide_eq_true in Er. by rewrite Er in Hready.
  - apply orb_false_iff in Er as [[-> Er]%orb_false_iff Edel]. apply bool_decide_eq_false in Edel.
    assert (~ expired_at v now) as Hn by (rewrite <- Hexp; by rewrite Er).
    destruct (VPS.Phase v == "ready") eqn:Eready.
    { eapply wp_last; [exact H3|done..|by left|]. apply bool_decide_eq_true in Eready.
      split_and!; try (by intros; left); intros; exfalso; congruence. }
    apply bool_decide_eq_false in Eready. eapply wp_start; [exact H3|done| |right; left|exists now; split; [left|done]].
    clear -Hin Ed Ex Edel Eready. unfold server_phases in Hin. set_solver.
Qed.

Lemma wp_Reconcile h : holds id h = false -> wp_server (Reconcile workspace id) (fun h _ => holds id h = false) h.
Proof.
  intros Hh. unfold Reconcile. apply wp_bind_ok. wp_ask_as r Hr. clear Hr. destruct r as [[]|e]; cbn [negb]; [|done..].
  apply wp_bind. eapply wp_mono; [apply wp_reconcile_locked; cbn; by rewrite bool_decide_true|].
  intros h' r Hh'. apply wp_bind. wp_ask_as u Hu. apply wp_ret. cbn. by rewrite bool_decide_true.
Qed.

(** C17: the dispatcher touches only what was approved, and never doubles it.
    Whatever is answered or fails: documents are written, servers created and
    destroyed and reservations released only under the lock of the server, over
    the document read or written there last, which is approved and has the
    digest of its plan; along the life of a server and on evidence found since
    the lock was taken.  A server is created only if no deletion was requested
    and it had not expired, after billing allowed it, before a deadline that its
    expiry bounds; ready only with an address and a verified host key; removed
    while ready only on request or expiry; deleted, and its reservation
    released, only once the provider confirmed the destruction.  However it
    ends, the lock is given back. *)
Theorem Reconcile_guarded : wp_server (Reconcile workspace id) (fun h _ => holds id h = false) [].
Proof. by apply wp_Reconcile. Qed.
End Dispatcher.

(** ** The programs *)
Section Programs.
Context `{Unicode} (ssh_authorized_key : string -> option (string * list string * string)) (vps_engine : bool).

Lemma wp_draft workspace input actor h : wp_server (DraftVPS ssh_authorized_key vps_engine workspace input actor) (fun _ _ => True) h.
Proof.
  unfold DraftVPS. apply wp_bind_ok, wp_ret. destruct (VPSRequest_Validate _ input) as [request|e]; [|done].
  destruct (negb vps_engine); [done|]. apply wp_bind_ok. wp_ask. destruct a as [id|e]; [|done].
  apply wp_bind. wp_ask. destruct a as [plan|e]; [|done]. destruct (outside_bounds request plan); [done|].
  apply wp_bind. wp_ask. apply wp_bind_ok, wp_ret. destruct (EstimateComputeMonthlyCents _ _) as [monthly|e]; [|done].
  apply wp_bind_ok. wp_ask. destruct a0 as [[]|e]; [|done]. apply wp_bind. by wp_ask.
Qed.

Lemma wp_approve workspace id digest actor h : wp_server (ApproveVPS workspace id digest actor) (fun _ _ => True) h.
Proof.
  unfold ApproveVPS. destruct (_ != _); [done|]. apply wp_bind_ok. wp_ask. destruct a as [[]|e]; [|done].
  apply wp_bind_ok. wp_ask; [left|]. destruct a as [[v b]|e]; [|done]. apply wp_bind. destruct b; cbn [snd]; [by wp_ask|by apply wp_ret].
Qed.

Lemma wp_answer {A} (f : A -> route_answer) (p : sprog (result A)) h :
  wp_server p (fun _ _ => True) h -> wp_server (answer f p) (fun _ _ => True) h.
Proof. intros Hp. apply wp_bind. eapply wp_mono; [exact Hp|]. intros h' r _. by apply wp_ret. Qed.

Lemma wp_request_deletion p workspace id h : wp_server (request_deletion p workspace id) (fun _ _ => True) h.
Proof.
  unfold request_deletion. apply wp_bind_ok. wp_ask_as r Hr. destruct r as [[v d]|e]; [|done]. cbn [fst].
  destruct (_ == "drafted") eqn:Ed; [done|]. apply bool_decide_eq_false in Ed. apply wp_bind_ok. wp_ask_as u Hu.
  - exists v, d. split; [left|done].
  - destruct u as [[]|e]; [|done]. apply wp_bind. by wp_ask.
Qed.

Lemma wp_route method p workspace parts request digest h :
  wp_server (workspaceVPS ssh_authorized_key vps_engine method p workspace parts request digest) (fun _ _ => True) h.
Proof.
  assert (forall rest : sprog route_answer, (forall h, wp_server rest (fun _ _ => True) h) -> forall h, wp_server
    (if method != "POST" then Ret MethodNotAllowed else
     allowed ← allowWorkspace p workspace true;
     match (allowed : result unit) with Err e => Ret (RouteError e) | Ok _ => rest end) (fun _ _ => True) h) as Hpost.
  { clear h. intros rest Hrest h. destruct (_ != "POST"); [done|]. apply wp_bind. unfold allowWorkspace.
    destruct (Principal.Installation_ p).
    { apply wp_ret. destruct (_ || _); [done|apply Hrest]. }
    destruct (Principal.Account_ p); [|done]. apply wp_bind_ok. wp_ask. destruct a0 as [role|e]; [|done]. apply wp_ret.
    destruct (_ && _); [done|apply Hrest]. }
  assert (forall b : bool, forall rest : sprog route_answer, (forall h, wp_server rest (fun _ _ => True) h) -> forall h,
    wp_server (if b then Ret (RouteError ErrForbidden) else rest) (fun _ _ => True) h) as Hif by by intros [].
  unfold workspaceVPS. destruct parts as [|id [|action [|]]], (method == "GET"); cbn [length];
    try (apply Hpost; intros h'; apply Hif; intros h2); try done;
    try (destruct request; [apply wp_answer, wp_draft|done]);
    (destruct (action == "approve"); [destruct digest; [apply wp_answer, wp_approve|done]|]);
    (destruct (action == "delete"); [apply wp_answer, wp_request_deletion|done]).
Qed.

Lemma wp_dispatcher fuel h : wp_server (VPSDispatcher_Run fuel) (fun _ _ => True) h.
Proof.
  assert (forall items Q h, (forall h, Q h tt) -> wp_server (spawn_all items) Q h) as Hspawn.
  { intros items Q. induction items as [|[w i] items IH]; intros h' HQ; cbn [spawn_all]; [by apply wp_ret|].
    apply wp_bind. wp_ask. apply wp_bind. destruct a; [wp_ask|apply wp_ret]; by apply IH. }
  revert h. induction fuel as [|fuel IH]; intros h; cbn [VPSDispatcher_Run]; [done|]. apply wp_bind. wp_ask. destruct a as [items|e]; [|done].
  apply wp_bind. apply Hspawn. intros h'. apply wp_bind. wp_ask. destruct a; [done|apply IH].
Qed.

Inductive server_op : Type :=
  | SRoute (method : string) (p : Principal) (workspace : string) (parts : list string) (request : option VPSRequest) (digest : option string)
  | SDraft (workspace : string) (input : VPSRequest) (actor : ActorRef)
  | SReconcile (workspace id : string)
  | SDispatcher (fuel : nat).
Definition run_only {A} (p : sprog A) : sprog unit := _ ← p; Ret tt.
Definition server_program (op : server_op) : sprog unit :=
  match op with
  | SRoute method p workspace parts request digest => run_only (workspaceVPS ssh_authorized_key vps_engine method p workspace parts request digest)
  | SDraft workspace input actor => run_only (DraftVPS ssh_authorized_key vps_engine workspace input actor)
  | SReconcile workspace id => run_only (Reconcile workspace id)
  | SDispatcher fuel => run_only (VPSDispatcher_Run fuel)
  end.
Lemma wp_discard {A} (p : sprog A) Q h : wp_server p Q h -> wp_server (run_only p) (fun _ _ => True) h.
Proof. intros Hp. apply wp_bind. eapply wp_mono; [exact Hp|]. intros h' a _. by apply wp_ret. Qed.
End Programs.

(** ** The spend guard, shared with initial deployments *)
Definition is_server (r : usage_reservation) : bool := usage_reservation.SubjectKind r == "vps".
Definition server_part (l : deployment_db) : list usage_reservation := List.filter is_server (reservations l).
Definition counted_cents (workspace : string) (r : usage_reservation) : Z :=
  if (usage_reservation.WorkspaceID r == workspace) && (usage_reservation.Phase r != "released") then usage_reservation.AmountCents r else 0.
Definition reserved_total (workspace : string) (l : deployment_db) : Z := sum_by (counted_cents workspace) (reservations l).
Definition subject (r : usage_reservation) : string * string := (usage_reservation.WorkspaceID r, usage_reservation.SubjectID r).

(** The caps count the reservations that stand, and hold. *)
Record spend_ok (l : deployment_db) : Prop := {
  sp_caps workspace cap : caps l !! workspace = Some cap ->
    usage_cap.ReservedCents cap = reserved_total workspace l /\ cap_ok cap;
  sp_unique : NoDup (subject <$> server_part l);
  sp_amounts x : x ∈ reservations l -> 0 < usage_reservation.AmountCents x
}.

(** The transactions of initial deployments (and of nothing that sets caps). *)
Definition others `{Unicode} (ops : list deployment_op) (l : deployment_db) : deployment_db :=
  fold_left (fun l op => match op with OpCap _ _ => l | _ => (deployment_step op l).2 end) ops l.

Section Others.
Context `{Unicode}.

Lemma reserve_spend id ws dep replaces l l' :
  reserveInitialDeploymentUsage id ws dep replaces l = Ok l' -> spend_ok l -> spend_ok l' /\ server_part l' = server_part l.
Proof.
  unfold reserveInitialDeploymentUsage. destruct (existsb _ _); [by intros [= <-]|].
  assert (new_reservation id ws dep l = Ok l' -> spend_ok l -> spend_ok l' /\ server_part l' = server_part l) as Hnew.
  { unfold new_reservation. destruct (caps l !! ws) as [[limit reserved spent]|] eqn:Hcap; [|done].
    destruct (limit <? _) eqn:Hl; [done|]. destruct (existsb _ _); [done|]. intros [= <-] [H1 H2 H3].
    set (r := usage_reservation.mk _ _ _ _ _ _).
    assert (server_part (with_usage (<[ws:=usage_cap.mk limit (reserved + initialDeploymentReservationCents) spent]> (caps l)) (reservations l ++ [r]) l)
      = server_part l) as Hp.
    { unfold server_part. cbn [reservations with_usage]. rewrite List.filter_app. cbn. by rewrite app_nil_r. }
    split; [|done]. split; [|by rewrite Hp|intros x [Hx| ->%list_elem_of_singleton]%elem_of_app; [by apply H3|done]].
    intros w cap. unfold reserved_total. cbn [caps with_usage reservations].
    rewrite sum_by_app. cbn [sum_by]. unfold counted_cents at 2. cbn [usage_reservation.WorkspaceID usage_reservation.Phase usage_reservation.AmountCents r].
    intros [[<- <-]|[Hne Hc]]%lookup_insert_Some.
    - destruct (H1 _ _ Hcap) as [Hr Hok]. rewrite bool_decide_true, bool_decide_false by done.
      unfold reserved_total in Hr. unfold cap_ok in *. cbn in *. lia.
    - destruct (H1 _ _ Hc) as [Hr Hok]. rewrite (bool_decide_false (ws = w)) by done. unfold reserved_total in Hr. cbn. split; [lia|done]. }
  destruct (_ == EmptyString); [done|]. cbv zeta. destruct (_ && _); [done|].
  destruct (_ =? 1); [|by destruct (1 <? _)]. intros [= <-] [H1 H2 H3].
  assert (forall x, live_reservation ws replaces x = true -> is_server x = false) as Hkind.
  { intros x Hx. unfold live_reservation in Hx. bool_inv. unfold is_server. by rewrite bool_decide_false by congruence. }
  assert (server_part (with_usage (caps l) (update_where (live_reservation ws replaces) (with_SubjectID dep) (reservations l)) l) = server_part l) as Hp.
  { unfold server_part. cbn [reservations with_usage]. apply filter_update. intros x Hx. split; [by apply Hkind|exact (Hkind x Hx)]. }
  split; [|done]. split; [|by rewrite Hp|intros x (y & Hy & ->)%update_elem; apply H3 in Hy; by destruct (live_reservation ws replaces y)].
  intros w cap Hc. destruct (H1 w cap Hc) as [Hr Hok]. split; [|done]. rewrite Hr. unfold reserved_total.
  cbn [reservations with_usage]. by rewrite sum_update.
Qed.

Lemma deployment_spend op l :
  match op with OpCap _ _ => False | _ => True end -> spend_ok l ->
  spend_ok (deployment_step op l).2 /\ server_part (deployment_step op l).2 = server_part l.
Proof.
  assert (forall l', caps l' = caps l -> reservations l' = reservations l -> spend_ok l -> spend_ok l' /\ server_part l' = server_part l) as Hsame.
  { intros l' Hc Hr [H1 H2 H3]. assert (server_part l' = server_part l) as Hp by (unfold server_part; by rewrite Hr).
    split; [|done]. split; [|by rewrite Hp|by rewrite Hr]. intros w cap. unfold reserved_total. rewrite Hc, Hr. apply H1. }
  intros Hop Hok. destruct op; try done; cbn [deployment_step].
  3: {
    destruct (EnqueueInitialDeployment _ _ _ _ _ _ _ _) as [r l'] eqn:E. cbn [snd]. revert E. unfold EnqueueInitialDeployment.
    destruct billing as [[]|e]; [|by intros [= _ <-]]. destruct (Store_InitialDeployment _ _ _) as [d|e]; [|by intros [= _ <-]]. cbv zeta.
    destruct (_ || _ || _); [by intros [= _ <-]|]. destruct (existsb (active_execution _) _); [by intros [= _ <-]|].
    destruct (reserveInitialDeploymentUsage _ _ _ _ _) as [l1|e] eqn:Er; [|by intros [= _ <-]].
    destruct (bool_decide _ || _); [by intros [= _ <-]|]. intros [= _ <-]. apply reserve_spend in Er as [[H1 H2 H3] Hp]; [|done].
    split; [by split|done]. }
  all: apply Hsame; [| |exact Hok].
  all: repeat first [progress cbn [snd caps reservations with_executions with_deployments updateInitialDeploymentTx] | done
    | progress unfold CreateInitialDeployment, AuthorizeInitialDeployment, ClaimInitialDeploymentExecution, RenewInitialDeploymentExecution,
        CompleteInitialDeploymentExecution, BeginInitialDeploymentOperation, FinishInitialDeploymentOperation, ReopenDestroyedInitialDeploymentHost
    | case_match; simplify_eq].
Qed.

Lemma others_spend ops l : spend_ok l -> spend_ok (others ops l) /\ server_part (others ops l) = server_part l.
Proof.
  revert l. induction ops as [|op ops IH]; intros l Hok; [done|]. unfold others. cbn [fold_left]. fold (others ops).
  assert (forall l', spend_ok l' /\ server_part l' = server_part l -> spend_ok (others ops l') /\ server_part (others ops l') = server_part l) as Hn.
  { intros l' [H1 <-]. by apply IH. }
  unfold others in *. destruct op; try (apply Hn, deployment_spend; done). by apply IH.
Qed.
End Others.

(** ** What a step keeps *)
Definition offer (v : VPS) : string * string * VPSRequest * VPSPlan * string * Z * Z :=
  (VPS.ID v, VPS.WorkspaceID v, VPS.Request v, VPS.Plan_ v, VPS.Digest v, VPS.MonthlyCents v, VPS.CreatedAt v).
Definition approval (v : VPS) : option Z * string * option Z := (VPS.ApprovedAt v, VPS.ApprovedBy v, VPS.ExpiresAt v).
Definition live (v : VPS) : Prop := VPS.Phase v ∈ ["queued"; "creating"; "ready"]%string.

Lemma offer_digest v v' : offer v = offer v' -> vpsDigest v = vpsDigest v'.
Proof. intros [= H1 H2 H3 H4 H5 H6 H7]. with_strategy transparent [vpsDigest] (unfold vpsDigest). by rewrite H1, H2, H3, H4, H6. Qed.
Lemma offer_cents v v' : offer v = offer v' -> reservation_cents v = reservation_cents v'.
Proof. intros [= H1 H2 H3 H4 H5 H6 H7]. unfold reservation_cents. by rewrite H3, H6. Qed.

Record step_facts (v v' : VPS) : Prop := {
  sf_offer : offer v' = offer v;
  sf_phase : VPS.Phase v' ∈ server_phases;
  sf_started : VPS.Phase v' <> "drafted"%string;
  sf_ended : VPS.Phase v <> "deleted"%string;
  sf_approval : VPS.Phase v <> "drafted"%string -> approval v' = approval v;
  sf_live : VPS.Phase v <> "drafted"%string -> live v' -> live v;
  sf_run : VPS.Phase v = "drafted"%string \/ may_run v -> may_run v'
}.
Lemma step_keeps v v' : server_step v v' -> step_facts v v'.
Proof.
  assert (forall w, offer w = offer v -> approval w = approval v -> VPS.Phase v <> "drafted"%string ->
    VPS.Phase v = "drafted"%string \/ may_run v -> may_run w) as Hrun.
  { intros w Ho Ha Hd [?|[H1 H2]]; [done|]. injection Ha as Ha _ _. split; [by rewrite Ha|].
    rewrite (offer_digest w v Ho). injection Ho as _ _ _ _ Hg _ _. by rewrite Hg. }
  intros Hs. assert (Hs' := Hs).
  destruct Hs; split; try done; try (apply Hrun; [done|done|congruence]); try (cbn; congruence);
    try (unfold server_phases; cbn; set_solver); try (intros _; unfold live; cbn; set_solver).
Qed.

(** ** The tables *)
Record servers_ok (db : server_db) : Prop := {
  sv_row id r : servers db !! id = Some r ->
    VPS.ID (server_row.Document r) = id /\ VPS.WorkspaceID (server_row.Document r) = server_row.WorkspaceID r /\
    VPS.Phase (server_row.Document r) ∈ server_phases /\
    (VPS.Phase (server_row.Document r) = "drafted"%string \/ may_run (server_row.Document r));
  sv_spend : spend_ok (ledger db);
  sv_live id r : servers db !! id = Some r -> live (server_row.Document r) ->
    exists x, x ∈ server_part (ledger db) /\ subject x = (server_row.WorkspaceID r, id) /\
      usage_reservation.Phase x = "reserved"%string /\ usage_reservation.AmountCents x = reservation_cents (server_row.Document r);
  sv_owned x : x ∈ server_part (ledger db) ->
    exists r, servers db !! usage_reservation.SubjectID x = Some r /\ server_row.WorkspaceID r = usage_reservation.WorkspaceID x /\
      VPS.Phase (server_row.Document r) <> "drafted"%string
}.

(** Rows stay, and their documents only move along the life of a server; new
    rows hold drafts. *)
Record progress (db db' : server_db) : Prop := {
  pg_rows id r : servers db !! id = Some r ->
    exists r', servers db' !! id = Some r' /\ server_row.WorkspaceID r' = server_row.WorkspaceID r /\
      rtc server_step (server_row.Document r) (server_row.Document r');
  pg_new id r' : servers db' !! id = Some r' ->
    is_Some (servers db !! id) \/
    exists v, VPS.Phase v = "drafted"%string /\ VPS.Digest v = vpsDigest v /\ rtc server_step v (server_row.Document r')
}.
#[export] Instance progress_refl : Reflexive progress.
Proof. intros db. split; [intros id r Hr; by exists r|intros id r Hr; left; by eexists]. Qed.
#[export] Instance progress_trans : Transitive progress.
Proof.
  intros x y z [A1 A2] [B1 B2]. split.
  - intros id r Hr. destruct (A1 id r Hr) as (r1 & H1 & Hw1 & Hp1). destruct (B1 id r1 H1) as (r2 & H2 & Hw2 & Hp2).
    exists r2. split; [done|]. split; [congruence|by etrans].
  - intros id r Hr. destruct (B2 id r Hr) as [[r1 H1]|?]; [|by right]. destruct (A2 id r1 H1) as [?|(v & Hv & Hd & Hp)]; [by left|].
    right. exists v. split_and!; [done..|]. destruct (B1 id r1 H1) as (r2 & H2 & _ & Hp2). rewrite Hr in H2. injection H2 as <-. by etrans.
Qed.

(** The documents past their draft, but for the server [id], are as before. *)
Definition others_stay (except : option string) (db db' : server_db) : Prop :=
  forall id r, servers db !! id = Some r -> VPS.Phase (server_row.Document r) <> "drafted"%string -> except <> Some id ->
    exists r', servers db' !! id = Some r' /\ server_row.Document r' = server_row.Document r.

Lemma server_in_lookup ws id db r : server_in ws id db = Some r <-> servers db !! id = Some r /\ server_row.WorkspaceID r = ws.
Proof.
  unfold server_in. destruct (servers db !! id) as [r'|]; cbn; [|by split; [|intros [? _]]].
  destruct (_ == ws) eqn:E; bool_inv; split; [intros [= ->]; done|intros [[= ->] _]; done|done|intros [[= ->] ?]; done].
Qed.

(** *** Rows *)
Lemma ledger_ok db l : servers_ok db -> spend_ok l -> server_part l = server_part (ledger db) -> servers_ok (with_ledger l db).
Proof. intros [H1 H2 H3 H4] Hl Hp. split; cbn; [exact H1|exact Hl|rewrite Hp; exact H3|rewrite Hp; exact H4]. Qed.

Lemma insert_effect v now db :
  servers_ok db -> VPS.Phase v = "drafted"%string -> VPS.Digest v = vpsDigest v ->
  servers_ok (insert_server v now db).2 /\ progress db (insert_server v now db).2 /\ others_stay None db (insert_server v now db).2.
Proof.
  intros [H1 H2 H3 H4] Hd Hg. unfold insert_server. destruct (servers db !! VPS.ID v) as [r|] eqn:E; cbn [snd].
  { split; [done|]. split; [done|]. intros id x Hx _ _. by exists x. }
  split_and!.
  - split; cbn.
    + intros id r. rewrite lookup_insert_Some. intros [[<- <-]|[_ Hr]]; [|by apply H1]. cbn. rewrite Hd. split_and!; [done..| |by left].
      unfold server_phases. set_solver.
    + exact H2.
    + intros id r. rewrite lookup_insert_Some. intros [[<- <-]|[_ Hr]]; [|by apply H3]. cbn. unfold live. rewrite Hd. set_solver.
    + intros x Hx. destruct (H4 x Hx) as (r & Hr & Hw & Hp). exists r. split; [|done]. apply lookup_insert_Some. right. split; [congruence|done].
  - split; cbn.
    + intros id r Hr. exists r. split; [|done]. apply lookup_insert_Some. right. split; [congruence|done].
    + intros id r. rewrite lookup_insert_Some. intros [[<- <-]|[_ Hr]]; [right; by exists v|left; by eexists].
  - intros id r Hr _ _. exists r. split; [|done]. cbn. apply lookup_insert_Some. right. split; [congruence|done].
Qed.

(** A change of one row whose document is kept or takes one step within its life. *)
Lemma update_effect ws id f db :
  servers_ok db ->
  (forall r, server_row.WorkspaceID (f r) = server_row.WorkspaceID r) ->
  (forall r, server_in ws id db = Some r ->
     server_row.Document (f r) = server_row.Document r \/
     server_step (server_row.Document r) (server_row.Document (f r)) /\ VPS.Phase (server_row.Document r) <> "drafted"%string) ->
  servers_ok (update_server ws id f db) /\ progress db (update_server ws id f db) /\ others_stay (Some id) db (update_server ws id f db) /\
  ((forall r, server_row.Document (f r) = server_row.Document r) -> others_stay None db (update_server ws id f db)).
Proof.
  intros Hok Hws Hf. unfold update_server. destruct (server_in ws id db) as [r0|] eqn:E.
  2:{ split; [done|]. split; [done|]. split; [|intros _]; intros i x Hx _ _; by exists x. }
  apply server_in_lookup in E as [E Hw0]. specialize (Hf r0 eq_refl). destruct Hok as [H1 H2 H3 H4]. destruct (H1 _ _ E) as (Hi & Hw & Hp & Hr).
  assert (offer (server_row.Document (f r0)) = offer (server_row.Document r0) /\ VPS.Phase (server_row.Document (f r0)) ∈ server_phases /\
    (VPS.Phase (server_row.Document (f r0)) = "drafted"%string \/ may_run (server_row.Document (f r0))) /\
    (live (server_row.Document (f r0)) -> live (server_row.Document r0)) /\
    (VPS.Phase (server_row.Document r0) <> "drafted"%string -> VPS.Phase (server_row.Document (f r0)) <> "drafted"%string) /\
    rtc server_step (server_row.Document r0) (server_row.Document (f r0))) as (Ho & Hp' & Hr' & Hl & Hs & Hpath).
  { destruct Hf as [->|[Hs Hd]]; [done|]. destruct (step_keeps _ _ Hs) as [F1 F2 F3 F4 F5 F6 F7].
    split_and!; [done|done|right; by apply F7|by apply F6|done|by apply rtc_once]. }
  split_and!.
  - split; cbn.
    + intros i r. rewrite lookup_insert_Some. intros [[<- <-]|[_ Hx]]; [|by apply H1].
      injection Ho as Ho1 Ho2 _ _ _ _ _. rewrite Hws. split_and!; [congruence|congruence|done|done].
    + exact H2.
    + intros i r. rewrite lookup_insert_Some. intros [[<- <-]|[_ Hx]]; [|by apply H3].
      intros Hlive. destruct (H3 _ _ E (Hl Hlive)) as (x & Hx & Hsub & Hres & Ham). exists x. rewrite Hws, (offer_cents _ _ Ho). done.
    + intros x Hx. destruct (H4 x Hx) as (r & Hrow & Hwx & Hpx). destruct (decide (usage_reservation.SubjectID x = id)) as [He|Hne].
      * rewrite He in *. rewrite E in Hrow. injection Hrow as <-. exists (f r0). rewrite lookup_insert_eq, Hws. split_and!; [done|done|by apply Hs].
      * exists r. split; [|done]. apply lookup_insert_Some. right. split; [congruence|done].
  - split; cbn.
    + intros i r Hx. destruct (decide (i = id)) as [->|Hne].
      * rewrite E in Hx. injection Hx as <-. exists (f r0). by rewrite lookup_insert_eq.
      * exists r. split; [|done]. apply lookup_insert_Some. right. split; [congruence|done].
    + intros i r. rewrite lookup_insert_Some. intros [[<- <-]|[_ Hx]]; left; by eexists.
  - intros i r Hx _ Hne. exists r. split; [|done]. cbn. apply lookup_insert_Some. right. split; [congruence|done].
  - intros Hdoc i r Hx _ _. cbn. destruct (decide (i = id)) as [->|Hne].
    + rewrite E in Hx. injection Hx as <-. exists (f r0). by rewrite lookup_insert_eq, Hdoc.
    + exists r. split; [|done]. apply lookup_insert_Some. right. split; [congruence|done].
Qed.

(** *** Reservations *)
Lemma of_server_spec ws id x : of_server ws id x = true <-> is_server x = true /\ subject x = (ws, id).
Proof.
  unfold of_server, is_server, subject. rewrite !andb_true_iff, !bool_decide_eq_true. split; [by intros [[-> ->] ->]|].
  by intros [-> [= -> ->]].
Qed.
Lemma server_part_elem x l : x ∈ server_part l <-> x ∈ reservations l /\ is_server x = true.
Proof. unfold server_part. rewrite !list_elem_of_In. apply List.filter_In. Qed.

Lemma reservation_positive v : 0 < reservation_cents v.
Proof. unfold reservation_cents, initialDeploymentReservationCents. destruct (0 <? _); lia. Qed.

Lemma reserve_effect rid ws id amount l l' :
  reserve_server rid ws id amount l = Ok l' -> 0 < amount -> spend_ok l ->
  spend_ok l' /\ exists x, server_part l' = server_part l ++ [x] /\ subject x = (ws, id) /\
    usage_reservation.SubjectID x = id /\ usage_reservation.WorkspaceID x = ws /\
    usage_reservation.Phase x = "reserved"%string /\ usage_reservation.AmountCents x = amount.
Proof.
  unfold reserve_server. destruct (caps l !! ws) as [[limit reserved spent]|] eqn:Hcap; [|done]. destruct (limit <? _) eqn:Hl; [done|].
  intros (i & -> & Hx)%result_bind_ok Hpos. revert Hx. destruct (_ || _) eqn:Hu; [done|]. intros [= <-] [H1 H2 H3]. apply orb_false_iff in Hu as [_ Hu].
  set (x := usage_reservation.mk _ _ _ _ _ _). set (l' := with_usage _ _ _).
  assert (server_part l' = server_part l ++ [x]) as Hp by (unfold server_part, l'; cbn [reservations with_usage]; by rewrite List.filter_app).
  split; [|exists x; by split_and!]. split.
  - intros w cap. unfold reserved_total, l'. cbn [caps with_usage reservations]. rewrite sum_by_app. cbn [sum_by]. unfold counted_cents at 2.
    cbn [usage_reservation.WorkspaceID usage_reservation.Phase usage_reservation.AmountCents x].
    intros [[<- <-]|[Hne Hc]]%lookup_insert_Some.
    + destruct (H1 _ _ Hcap) as [Hr Hok]. rewrite bool_decide_true, bool_decide_false by done. unfold reserved_total in Hr. unfold cap_ok in *. cbn in *. lia.
    + destruct (H1 _ _ Hc) as [Hr Hok]. rewrite (bool_decide_false (ws = w)) by done. unfold reserved_total in Hr. cbn. split; [lia|done].
  - rewrite Hp. apply (keys_insert subject); [exact H2|]. intros y [Hy Hk]%server_part_elem Hs.
    assert (of_server ws id y = true) as Hof by by apply of_server_spec. rewrite (existsb_elem _ _ _ Hu Hy) in Hof. done.
  - intros y [Hy| ->%list_elem_of_singleton]%elem_of_app; [by apply H3|done].
Qed.

Lemma sum_release ws id w l :
  NoDup (subject <$> List.filter is_server l) ->
  sum_by (counted_cents w) (update_where (reserved_server ws id) released l) =
    sum_by (counted_cents w) l - match List.find (reserved_server ws id) l with Some x => counted_cents w x | None => 0 end.
Proof.
  assert (forall y, reserved_server ws id y = true -> is_server y = true /\ subject y = (ws, id)) as Hspec.
  { intros y [Hy _]%andb_true_iff. by apply of_server_spec. }
  intros Hnd. induction l as [|x l IH]; [done|]. cbn [List.filter List.find] in *. unfold update_where in *. rewrite fmap_cons. cbn [sum_by].
  destruct (reserved_server ws id x) eqn:Ex.
  - destruct (Hspec x Ex) as [Hk Hs]. rewrite Hk in Hnd. cbn in Hnd. apply NoDup_cons in Hnd as [Hx Hnd].
    assert (sum_by (counted_cents w) ((fun e => if reserved_server ws id e then released e else e) <$> l) = sum_by (counted_cents w) l) as ->.
    { clear IH. induction l as [|y l IHl]; [done|]. rewrite fmap_cons. cbn [sum_by]. destruct (reserved_server ws id y) eqn:Ey.
      - destruct (Hspec y Ey) as [Hky Hsy]. exfalso. apply Hx. cbn [List.filter]. rewrite Hky. cbn. rewrite Hs, <- Hsy. left.
      - f_equal. apply IHl.
        + intros Hin. apply Hx. cbn [List.filter]. destruct (is_server y); [cbn; by right|done].
        + cbn [List.filter] in Hnd. destruct (is_server y); [by apply NoDup_cons in Hnd as [_ ?]|done]. }
    assert (counted_cents w (released x) = 0) as ->; [|lia]. unfold counted_cents. cbn. by destruct (_ == w).
  - rewrite IH; [lia|]. destruct (is_server x); [by apply NoDup_cons in Hnd as [_ ?]|done].
Qed.

Lemma release_effect ws id l r l' :
  releaseReservation ws id l = (r, l') -> spend_ok l ->
  spend_ok l' /\ (server_part l' = server_part l \/ server_part l' = update_where (reserved_server ws id) released (server_part l)).
Proof.
  unfold releaseReservation. destruct (List.find _ _) as [x|] eqn:Ef; [|intros [= _ <-] Hok; split; [done|by left]]. cbv zeta.
  intros Heq [H1 H2 H3]. set (rs := update_where (reserved_server ws id) released (reservations l)) in *.
  assert (List.filter is_server rs = update_where (reserved_server ws id) released (server_part l)) as Hp.
  { unfold rs, server_part. by apply filter_update_keeps. }
  assert (forall w, sum_by (counted_cents w) rs = reserved_total w l - counted_cents w x) as Hsum.
  { intros w. unfold rs. by rewrite sum_release, Ef by exact H2. }
  apply find_elem in Ef as [Exin Ex]. unfold reserved_server in Ex. apply andb_true_iff in Ex as [Ex Hph]. apply bool_decide_eq_true in Hph.
  apply of_server_spec in Ex as [Hk Hs]. injection Hs as Hw _.
  assert (0 < usage_reservation.AmountCents x) as Hpos by by apply H3.
  assert (counted_cents ws x = usage_reservation.AmountCents x) as Hc by by (unfold counted_cents; rewrite Hw, Hph, bool_decide_true).
  assert (forall w, w <> ws -> counted_cents w x = 0) as Ho.
  { intros w Hne. unfold counted_cents. by rewrite Hw, bool_decide_false. }
  assert (NoDup (subject <$> List.filter is_server rs)) as Hnd by (rewrite Hp, (keys_update_where subject); done).
  assert (forall y, y ∈ rs -> 0 < usage_reservation.AmountCents y) as Ham.
  { intros y. intros (z & Hz & ->)%update_elem. apply H3 in Hz. by destruct (reserved_server ws id z). }
  destruct (caps l !! ws) as [[limit reserved spent]|] eqn:Hcap.
  - destruct (_ <? 0) eqn:Hneg; injection Heq as _ <-; [split; [by split|by left]|]. split; [|by right]. split; [|done..].
    intros w cap. unfold reserved_total. cbn [caps with_usage reservations]. rewrite Hsum. intros [[<- <-]|[Hne Hcw]]%lookup_insert_Some.
    + destruct (H1 _ _ Hcap) as [Hr Hok]. apply Z.ltb_ge in Hneg. unfold cap_ok in *. cbn in *. lia.
    + destruct (H1 _ _ Hcw) as [Hr Hok]. rewrite Ho by done. split; [lia|done].
  - injection Heq as _ <-. split; [|by right]. split; [|done..]. intros w cap Hcw. unfold reserved_total. cbn [reservations with_usage]. rewrite Hsum.
    destruct (H1 _ _ Hcw) as [Hr Hok]. cbn in Hcw. rewrite Ho by (intros ->; congruence). split; [lia|done].
Qed.

Lemma approve_effect ws id digest actor rid t1 t2 db :
  servers_ok db ->
  let db' := (approve_server ws id digest actor rid t1 t2 db).2 in servers_ok db' /\ progress db db' /\ others_stay None db db'.
Proof.
  intros Hok. assert (servers_ok db /\ progress db db /\ others_stay None db db) as Hsame.
  { split; [done|]. split; [done|]. intros i r Hr _ _. by exists r. }
  cbv zeta. unfold approve_server, Store_VPS, scanVPS. destruct (server_in ws id db) as [r0|] eqn:E; [|exact Hsame].
  destruct (_ || _ || _) eqn:Hd; [exact Hsame|]. destruct (_ != "drafted") eqn:Eph; [exact Hsame|].
  destruct (30 * Minute <? _); [exact Hsame|]. destruct (caps (ledger db) !! ws); [|exact Hsame]. destruct (_ <? 1); [exact Hsame|].
  destruct (reserve_server _ _ _ _ _) as [l|e] eqn:Er; [|exact Hsame]. cbn [snd]. apply negb_false_iff, bool_decide_eq_true in Eph.
  apply orb_false_iff in Hd as [[_ Hd]%orb_false_iff _]. apply negb_false_iff, bool_decide_eq_true in Hd.
  set (v := server_row.Document r0) in *.
  destruct (reserve_effect _ _ _ _ _ _ Er (reservation_positive v) (sv_spend _ Hok)) as (Hl & x & Hp & Hs & Hsid & Hsw & Hx & Ham). clear Hsame.
  set (v' := approved t2 actor v).
  assert (server_step v v') as Hstep by by constructor. destruct (step_keeps _ _ Hstep) as [F1 F2 F3 _ _ _ F7].
  unfold update_server. assert (server_in ws id (with_ledger l db) = Some r0) as -> by exact E.
  apply server_in_lookup in E as [E Hw]. destruct Hok as [H1 H2 H3 H4]. destruct (H1 _ _ E) as (Hi & Hws & _ & _).
  split_and!.
  - split; cbn.
    + intros i r. rewrite lookup_insert_Some. intros [[<- <-]|[_ Hr]]; [|by apply H1]. cbn.
      split_and!; [exact Hi|exact Hws|exact F2|right; apply F7; by left].
    + exact Hl.
    + intros i r. rewrite lookup_insert_Some. intros [[<- <-]|[_ Hr]] Hlive.
      * exists x. rewrite Hp. cbn. rewrite Hw. split_and!; [apply elem_of_app; right; by left|done|done|]. rewrite Ham. symmetry. by apply offer_cents.
      * destruct (H3 i r Hr Hlive) as (y & Hy & ?). exists y. rewrite Hp. split; [apply elem_of_app; by left|done].
    + intros y. rewrite Hp. intros [Hy| ->%list_elem_of_singleton]%elem_of_app.
      * destruct (H4 y Hy) as (r & Hr & Hwr & Hph). exists r. split; [|done]. apply lookup_insert_Some. right. split; [|done].
        intros He. rewrite <- He, E in Hr. injection Hr as <-. done.
      * rewrite Hsid, Hsw. exists (server_row.with_Document v' r0). rewrite lookup_insert_eq. by split_and!.
  - split; cbn.
    + intros i r Hr. destruct (decide (i = id)) as [->|Hne].
      * rewrite E in Hr. injection Hr as <-. exists (server_row.with_Document v' r0). rewrite lookup_insert_eq. split_and!; [done..|by apply rtc_once].
      * exists r. split; [|done]. apply lookup_insert_Some. by right.
    + intros i r. rewrite lookup_insert_Some. intros [[<- <-]|[_ Hr]]; left; by eexists.
  - intros i r Hr Hph _. exists r. split; [|done]. cbn. apply lookup_insert_Some. right. split; [|done]. intros <-.
    rewrite E in Hr. injection Hr as <-. done.
Qed.

Lemma release_rows ws id db r l' :
  servers_ok db -> releaseReservation ws id (ledger db) = (r, l') ->
  (forall row, servers db !! id = Some row -> server_row.WorkspaceID row = ws -> ~ live (server_row.Document row)) ->
  servers_ok (with_ledger l' db).
Proof.
  intros [H1 H2 H3 H4] Hrel Hdead. destruct (release_effect _ _ _ _ _ Hrel H2) as [Hl [Hp|Hp]]; [by apply ledger_ok|].
  split; cbn; [exact H1|exact Hl| |].
  - intros i row Hi Hlive. destruct (H3 i row Hi Hlive) as (x & Hx & Hs & Hres & Ham). exists x. split; [|done]. rewrite Hp.
    assert (reserved_server ws id x = false) as Hn; [|apply (elem_update (reserved_server ws id) released) in Hx; by rewrite Hn in Hx].
    apply not_true_iff_false. intros [Hof _]%andb_true_iff. apply of_server_spec in Hof as [_ Hof]. rewrite Hs in Hof. injection Hof as Hw <-.
    by apply (Hdead row).
  - intros x. rewrite Hp. intros (y & Hy & ->)%update_elem. destruct (H4 y Hy) as (row & Hrow & Hw & Hph). exists row.
    by destruct (reserved_server ws id y).
Qed.

(** ** The world: a database, the locks, and everything else

    [outlook] decides, for each statement, whether it fails and whether it was
    committed all the same, the readings of the database's clock, the id that is
    drawn, and the transactions of initial deployments that ran before it;
    [world] answers what is not a statement.  An advisory lock belongs to a
    session, which lasts until it is given back. *)
Record sky : Type := Sky {
  sk_failure : option error;
  sk_committed : bool;
  sk_clock : Z;
  sk_clock2 : Z;
  sk_id : result string;
  sk_others : list deployment_op
}.

Section World.
Context `{Unicode} {W : Type} (outlook : W -> server_call -> sky * W) (world : W -> server_db -> forall c, server_answer c).
(** The servers whose reservations were released before. *)
Context (before : string * string -> Prop).

Definition under {A} (s : sky) (db : server_db) (r : result A * server_db) : result A * server_db :=
  match sk_failure s with
  | None => r
  | Some e => (Err e, if sk_committed s then r.2 else db)
  end.

Definition statement (w : W) (s : sky) (db : server_db) (c : server_call) : server_answer c * server_db :=
  match c with
  | InsertServer v => under s db (insert_server v (sk_clock s) db)
  | GetServer ws id => under s db (Store_VPS ws id db, db)
  | ListServers ws => under s db (Ok (ListVPS ws db), db)
  | ApproveServer ws id digest actor => under s db (approve_server ws id digest actor (sk_id s) (sk_clock s) (sk_clock2 s) db)
  | RequestDeletion ws id => under s db (Ok tt, update_server ws id (delete_requested (sk_clock s)) db)
  | DeletionRequested ws id =>
      under s db (match server_in ws id db with Some r => Ok (server_row.DeleteRequested r) | None => Err no_rows end, db)
  | SaveServer v next => under s db (Ok tt, update_server (VPS.WorkspaceID v) (VPS.ID v) (saved v next (sk_clock s)) db)
  | ReleaseReservation ws id => under s db (let '(r, l) := releaseReservation ws id (ledger db) in (r, with_ledger l db))
  | DueServers => under s db (Ok (due_servers (sk_clock s) db), db)
  | c => (world w db c, db)
  end.

(** The database sessions: one that took the lock of a server keeps it until it
    unlocks it.  (Its connection is taken to last: PostgreSQL frees the advisory
    locks of a connection that is lost, and [Reconcile] does not notice.) *)
Definition server_handler (st : server_db * gset string * W) (c : server_call) : server_answer c * (server_db * gset string * W) :=
  let '(db, locks, w) := st in
  let '(s, w') := outlook w c in
  let db := with_ledger (others (sk_others s) (ledger db)) db in
  match c with
  | TryLockServer id =>
      match sk_failure s with
      | Some e => (Err e, (db, locks, w'))
      | None => if bool_decide (id ∈ locks) then (Ok false, (db, locks, w')) else (Ok true, (db, {[id]} ∪ locks, w'))
      end
  | UnlockServer id => (tt, (db, locks ∖ {[id]}, w'))
  | c => let '(r, db') := statement w s db c in (r, (db', locks, w'))
  end.

(** What a program knows under a lock is so. *)
Definition believes (db : server_db) (h : strace) : Prop :=
  forall v, knows h v -> VPS.Phase v <> "drafted"%string ->
    exists r, servers db !! VPS.ID v = Some r /\ server_row.Document r = v.
Definition written (c : server_call) : option string := match c with SaveServer v _ => Some (VPS.ID v) | _ => None end.

Lemma under_cases {A} s db (r : result A * server_db) (P : server_db -> Prop) : P db -> P r.2 -> P (under s db r).2.
Proof. intros H1 H2. unfold under. destruct (sk_failure s); [|done]. by destruct (sk_committed s). Qed.

Lemma statement_effect w s db c h :
  servers_ok db -> server_guard h c -> believes db h ->
  servers_ok (statement w s db c).2 /\ progress db (statement w s db c).2 /\ others_stay (written c) db (statement w s db c).2.
Proof.
  intros Hok Hg Hb. assert (servers_ok db /\ progress db db /\ others_stay (written c) db db) as Hsame.
  { split; [done|]. split; [done|]. intros i r Hr _ _. by exists r. }
  destruct c; cbn [statement]; try exact Hsame;
    (apply (under_cases s db _ (fun d => servers_ok d /\ progress db d /\ others_stay _ db d)); [exact Hsame|]); cbn [snd]; try exact Hsame.
  - destruct Hg. by apply insert_effect.
  - by apply approve_effect.
  - destruct (update_effect workspace id (delete_requested (sk_clock s)) db) as (U1 & U2 & _ & U3); [done|done|by left|].
    split; [done|]. split; [done|]. by apply U3.
  - destruct Hg as (v0 & Hk & Hrun & Hd & Hi & Hw & Hs & _). destruct (Hb v0 Hk Hd) as (r0 & Hr0 & Hv0).
    destruct (update_effect (VPS.WorkspaceID v) (VPS.ID v) (saved v next (sk_clock s)) db) as (U1 & U2 & U3 & _); [done|done| |done].
    intros r [Hr _]%server_in_lookup. rewrite Hi, Hr0 in Hr. injection Hr as <-. rewrite Hv0. cbn. destruct Hs as [->|Hs]; [by left|by right].
  - destruct (releaseReservation workspace id (ledger db)) as [r l] eqn:Er. cbn [snd].
    destruct Hg as (v & Hk & Hi & Hw & Hph & _). split_and!.
    + eapply release_rows; [done|exact Er|]. intros row Hrow _ Hlive. destruct (Hb v Hk) as (r0 & Hr0 & Hv0); [by rewrite Hph|].
      rewrite Hi, Hrow in Hr0. injection Hr0 as <-. rewrite Hv0 in Hlive. unfold live in Hlive. rewrite Hph in Hlive. set_solver.
    + split; cbn; [intros i x Hx; by exists x|intros i x Hx; left; by eexists].
    + intros i x Hx _ _. by exists x.
Qed.

(** *** One step of one program *)
Lemma under_ok {A} s db (r : result A * server_db) a db' : under s db r = (Ok a, db') -> r = (Ok a, db').
Proof. unfold under. by destruct (sk_failure s). Qed.

Lemma statement_rely w s db c h : servers_ok db -> server_rely h c (statement w s db c).1.
Proof.
  intros Hok. destruct c; try done. cbn. unfold under. destruct (sk_failure s); [done|]. cbn. unfold Store_VPS, scanVPS.
  destruct (server_in workspace id db) as [r|] eqn:E; [|done]. apply server_in_lookup in E as [E <-].
  destruct (sv_row _ Hok _ _ E) as (H1 & H2 & H3 & _). done.
Qed.

Lemma holds_cons id e h : holds id (e :: h) = true -> lock_event id e = Some true \/ lock_event id e = None /\ holds id h = true.
Proof. cbn. destruct (lock_event id e) as [[]|]; [by left|done|by right]. Qed.
Lemma knows_cons e h v :
  knows (e :: h) v ->
  lock_event (VPS.ID v) e = None /\ (document_event (VPS.ID v) e = Some (Some v) /\ holds (VPS.ID v) h = true \/
    document_event (VPS.ID v) e = None /\ knows h v).
Proof.
  unfold knows. cbn. destruct (lock_event _ e) as [[]|]; [by intros [_ ?]|by intros [? _]|].
  destruct (document_event _ e) as [o|]; intros [H1 H2]; (split; [done|]); [left; by subst|by right].
Qed.

(** The documents of the others, for they hold other locks. *)
Lemma believes_other w s db c h h' :
  servers_ok db -> server_guard h c -> believes db h -> believes db h' ->
  (forall id, holds id h = true -> holds id h' = true -> False) -> believes (statement w s db c).2 h'.
Proof.
  intros Hok Hg Hb Hb' Hex v Hk Hd. destruct (statement_effect w s db c h Hok Hg Hb) as (_ & _ & Hun).
  destruct (Hb' v Hk Hd) as (r & Hr & Hv). destruct (Hun (VPS.ID v) r Hr) as (r' & Hr' & Hv'); [by rewrite Hv| |exists r'; split; [done|congruence]].
  destruct c; try done. cbn. intros [= He]. destruct Hg as (v1 & Hk0 & _ & _ & Hi & _). apply (Hex (VPS.ID v)); [|apply Hk].
  rewrite <- He, Hi. apply Hk0.
Qed.

Lemma believes_self w s db c h :
  servers_ok db -> server_guard h c -> believes db h -> (forall id, c <> TryLockServer id) -> (forall id, c <> UnlockServer id) ->
  believes (statement w s db c).2 (Event c (statement w s db c).1 :: h).
Proof.
  intros Hok Hg Hb Hnl Hnu v Hk Hd. destruct (statement_effect w s db c h Hok Hg Hb) as (_ & _ & Hun).
  apply knows_cons in Hk as [_ [[Hdoc Hh]|[Hdoc Hk]]].
  - destruct c; try done; cbn [document_event ev_call ev_answer] in Hdoc.
    + unfold document_event in Hdoc. cbn [ev_call ev_answer] in Hdoc. destruct ((statement w s db (GetServer workspace id)).1) as [[v' d]|e] eqn:E; [|done].
      destruct (id == VPS.ID v) eqn:Ei; [|done]. injection Hdoc as ->. apply bool_decide_eq_true in Ei. cbn in E |- *.
      unfold under in *. destruct (sk_failure s); [done|]. cbn in *. unfold Store_VPS, scanVPS in E.
      destruct (server_in workspace id db) as [r|] eqn:Er; [|done]. injection E as E _. apply server_in_lookup in Er as [Er _]. exists r. by rewrite <- Ei.
    + unfold document_event in Hdoc. cbn [ev_call ev_answer] in Hdoc. destruct (VPS.ID v0 == VPS.ID v) eqn:Ei; [|done].
      destruct (statement w s db (SaveServer v0 next)) as [ans db'] eqn:E. cbn [fst snd] in *. destruct ans as [u|e]; [|done]. injection Hdoc as ->.
      cbn in E. apply under_ok in E. injection E as _ <-. destruct Hg as (v1 & Hk1 & _ & Hd1 & Hi & Hw & _).
      destruct (Hb v1 Hk1 Hd1) as (r & Hr & Hv). destruct (sv_row _ Hok _ _ Hr) as (_ & Hws & _). unfold update_server.
      assert (server_in (VPS.WorkspaceID v) (VPS.ID v) db = Some r) as ->.
      { apply server_in_lookup. rewrite Hi, Hw. split; [done|]. by rewrite <- Hws, Hv. }
      exists (saved v next (sk_clock s) r). cbn. by rewrite lookup_insert_eq.
  - destruct (Hb v Hk Hd) as (r & Hr & Hv). destruct (Hun (VPS.ID v) r Hr) as (r' & Hr' & Hv'); [by rewrite Hv| |exists r'; split; [done|congruence]].
    destruct c; try done. cbn. intros [= He]. unfold document_event in Hdoc. cbn in Hdoc. rewrite bool_decide_true in Hdoc by done. done.
Qed.

(** *** Released reservations *)
Lemma approve_released ws id digest actor rid t1 t2 db x :
  x ∈ server_part (ledger (approve_server ws id digest actor rid t1 t2 db).2) -> usage_reservation.Phase x = "released"%string ->
  spend_ok (ledger db) -> x ∈ server_part (ledger db).
Proof.
  intros Hx Hph Hok. revert Hx. unfold approve_server, Store_VPS, scanVPS. destruct (server_in ws id db) as [r0|] eqn:E; [|done].
  destruct (_ || _ || _); [done|]. destruct (_ != "drafted"); [done|]. destruct (30 * Minute <? _); [done|].
  destruct (caps (ledger db) !! ws); [|done]. destruct (_ <? 1); [done|]. destruct (reserve_server _ _ _ _ _) as [l|e] eqn:Er; [|done].
  destruct (reserve_effect _ _ _ _ _ _ Er (reservation_positive _) Hok) as (_ & y & Hp & _ & _ & _ & Hy & _).
  unfold update_server. destruct (server_in ws id (with_ledger l db)); cbn; rewrite Hp;
    (intros [?| ->%list_elem_of_singleton]%elem_of_app; [done|by rewrite Hph in Hy]).
Qed.

Lemma statement_released w s db c x :
  x ∈ server_part (ledger (statement w s db c).2) -> usage_reservation.Phase x = "released"%string -> spend_ok (ledger db) ->
  x ∈ server_part (ledger db) \/ exists ws id, c = ReleaseReservation ws id /\ subject x = (ws, id).
Proof.
  intros Hx Hph Hok. destruct c; cbn [statement] in Hx; try (by left); unfold under in Hx;
    (destruct (sk_failure s); [destruct (sk_committed s); [|by left]|]); cbn [snd] in Hx; try (by left).
  all: try (revert Hx; unfold insert_server; destruct (servers db !! _); by left).
  all: try (revert Hx; unfold update_server; destruct (server_in _ _ db); by left).
  all: try (destruct (releaseReservation workspace id (ledger db)) as [r l] eqn:Er; cbn in Hx;
    destruct (release_effect _ _ _ _ _ Er Hok) as [_ [Hp|Hp]]; rewrite Hp in Hx; [by left|];
    apply update_elem in Hx as (y & Hy & ->); destruct (reserved_server workspace id y) eqn:Ey; [|by left];
    right; exists workspace, id; split; [done|]; apply andb_true_iff in Ey as [Ey _]; by apply of_server_spec in Ey as [_ Ey]).
  all: left; by eapply approve_released.
Qed.

Definition destroyed (ts : list (thread server_answer unit)) (plan : VPSPlan) : Prop :=
  exists t, t ∈ ts /\ Event (EDestroyVPS plan) (Ok tt) ∈ th_history t.
Definition justified (ts : list (thread server_answer unit)) (db : server_db) : Prop :=
  forall id row x, servers db !! id = Some row -> x ∈ server_part (ledger db) -> subject x = (server_row.WorkspaceID row, id) ->
    usage_reservation.Phase x = "released"%string -> before (subject x) \/ destroyed ts (VPS.Plan_ (server_row.Document row)).

Lemma path_plan v v' : rtc server_step v v' -> offer v' = offer v.
Proof. induction 1 as [|x y z Hs _ IH]; [done|]. rewrite IH. apply (step_keeps _ _ Hs). Qed.
Lemma since_lock_elem id h e : e ∈ since_lock id h -> e ∈ h.
Proof.
  induction h as [|x h IH]; cbn; [done|]. destruct (lock_event id x); [by intros ?%not_elem_of_nil|].
  intros [->|He]%elem_of_cons; [by left|right; by apply IH].
Qed.

Lemma justified_step w s db c h ts ts' :
  servers_ok db -> server_guard h c -> believes db h -> justified ts db ->
  (forall plan, destroyed ts plan -> destroyed ts' plan) -> (forall e, e ∈ h -> exists t, t ∈ ts' /\ e ∈ th_history t) ->
  justified ts' (statement w s db c).2.
Proof.
  intros Hok Hg Hb Hj Hmono Hown id row' x Hrow' Hx Hsub Hph.
  destruct (statement_effect w s db c h Hok Hg Hb) as (Hok' & [Hrows Hnew] & _).
  assert (exists row, servers db !! id = Some row /\ server_row.WorkspaceID row' = server_row.WorkspaceID row /\
    (before (subject x) \/ destroyed ts' (VPS.Plan_ (server_row.Document row)))) as (row & Hrow & _ & Hd).
  { destruct (statement_released w s db c x Hx Hph (sv_spend _ Hok)) as [Hold|(ws & i & -> & Hxs)].
    - destruct (sv_owned _ Hok x Hold) as (row & Hrow & Hw & _). injection Hsub as Hxw Hxi. rewrite Hxi in Hrow.
      destruct (Hrows _ _ Hrow) as (row2 & Hrow2 & Hw2 & _). rewrite Hrow' in Hrow2. injection Hrow2 as <-.
      exists row. split; [done|]. split; [done|]. destruct (Hj _ row x Hrow Hold) as [?|Hd]; [unfold subject; by rewrite Hw, Hxi|done|by left|right; by apply Hmono].
    - rewrite Hxs in Hsub. injection Hsub as -> ->. destruct Hg as (v & Hk & Hi & Hw & Hpv & He).
      destruct (Hb v Hk) as (row & Hrow & Hv); [by rewrite Hpv|]. rewrite Hi in Hrow.
      destruct (Hrows _ _ Hrow) as (row2 & Hrow2 & Hw2 & _). rewrite Hrow' in Hrow2. injection Hrow2 as <-.
      exists row. split; [done|]. split; [done|]. right. rewrite Hv. apply since_lock_elem, Hown in He as (t & Ht & He). by exists t. }
  destruct (Hrows _ _ Hrow) as (row2 & Hrow2 & _ & Hpath). rewrite Hrow' in Hrow2. injection Hrow2 as <-.
  apply path_plan in Hpath. injection Hpath as _ _ _ Hplan _ _ _. by rewrite Hplan.
Qed.

(** *** The pool *)
Record pool_ok (ts : list (thread server_answer unit)) (st : server_db * gset string * W) : Prop := {
  po_db : servers_ok st.1.1;
  po_wp : Forall (fun t => wp_server (th_prog t) (fun _ _ => True) (th_history t)) ts;
  po_believes : Forall (fun t => believes st.1.1 (th_history t)) ts;
  po_locks : Forall (fun t => forall id, holds id (th_history t) = true -> id ∈ st.1.2) ts;
  po_exclusive i j t t' id : ts !! i = Some t -> ts !! j = Some t' -> holds id (th_history t) = true -> holds id (th_history t') = true -> i = j;
  po_justified : justified ts st.1.1
}.

(** What a call does to the locks: it takes a free one, or gives one back. *)
Definition lock_effect (locks locks' : gset string) (c : server_call) (r : server_answer c) : Prop :=
  (forall id, lock_event id (Event c r) = Some true -> id ∉ locks /\ id ∈ locks') /\
  (forall id, id ∈ locks -> id ∈ locks' \/ lock_event id (Event c r) = Some false).

(** What becomes of everything once a call was answered. *)
Record handled (db : server_db) (locks : gset string) (h : strace) (c : server_call) (r : server_answer c) (db' : server_db) (locks' : gset string) : Prop := {
  hd_locks : lock_effect locks locks' c r;
  hd_rely : server_rely h c r;
  hd_ok : servers_ok db';
  hd_progress : progress db db';
  hd_other h' : believes db h' -> (forall id, holds id h = true -> holds id h' = true -> False) -> believes db' h';
  hd_self : believes db' (Event c r :: h);
  hd_justified ts ts' : justified ts db -> (forall plan, destroyed ts plan -> destroyed ts' plan) ->
    (forall e, e ∈ h -> exists t, t ∈ ts' /\ e ∈ th_history t) -> justified ts' db'
}.

Lemma handler_effect db locks w c h r db' locks' w' :
  servers_ok db -> server_guard h c -> believes db h ->
  server_handler (db, locks, w) c = (r, (db', locks', w')) -> handled db locks h c r db' locks'.
Proof.
  intros Hok Hg Hb Hh. unfold server_handler in Hh. destruct (outlook w c) as [s w2].
  destruct (others_spend (sk_others s) (ledger db) (sv_spend _ Hok)) as [Hsp Hpart]. set (db0 := with_ledger _ db) in Hh.
  assert (servers_ok db0) as Hok0 by by apply ledger_ok.
  assert (progress db db0) as Hp0 by (split; cbn; [intros i x Hx; by exists x|intros i x Hx; left; by eexists]).
  assert (forall ts, justified ts db -> justified ts db0) as Hj0.
  { intros ts Hj id row x Hrow Hx. apply (Hj id row x Hrow). rewrite <- Hpart. exact Hx. }
  assert (forall ans locks2, lock_effect locks locks2 c ans -> server_rely h c ans -> believes db0 (Event c ans :: h) ->
    (r, (db', locks', w')) = (ans, (db0, locks2, w2)) -> handled db locks h c r db' locks') as Hquiet.
  { intros ans locks2 Hl Hr Hbe [= -> -> -> ->]. split; try done.
    intros ts ts' Hj Hm _ id row x Hrow Hx Hs Hph. destruct (Hj0 ts Hj id row x) as [?|Hd]; [done..|by left|right; by apply Hm]. }
  assert ((forall id, c <> TryLockServer id) -> (forall id, c <> UnlockServer id) -> (forall id ans, lock_event id (Event c ans) = None) ->
    statement w s db0 c = (r, db') -> locks' = locks -> handled db locks h c r db' locks') as Hstmt.
  { intros Hnl Hnu Hne Hs ->. pose proof (statement_effect w s db0 c h Hok0 Hg Hb) as (E1 & E2 & _).
    pose proof (statement_rely w s db0 c h Hok0) as E3. pose proof (believes_self w s db0 c h Hok0 Hg Hb Hnl Hnu) as E4.
    pose proof (fun h' H1 H2 => believes_other w s db0 c h h' Hok0 Hg Hb H1 H2) as E5.
    pose proof (fun ts ts' H1 H2 H3 => justified_step w s db0 c h ts ts' Hok0 Hg Hb (Hj0 ts H1) H2 H3) as E6.
    rewrite Hs in *. cbn [fst snd] in *. split; try done; [|by etrans].
    split; [intros id E; by rewrite Hne in E|intros id Hid; by left]. }
  clear Hok0 Hp0 Hj0. destruct c; cbn beta iota in Hh;
    try (destruct (statement w s db0 _) as [r0 db2] eqn:Es; injection Hh as <- <- <- <-; by apply Hstmt).
  - clear Hstmt. assert (forall ans, ans <> Ok true -> lock_effect locks locks (TryLockServer id) ans /\ server_rely h (TryLockServer id) ans /\
      believes db0 (Event (TryLockServer id) ans :: h)) as Hnot.
    { intros ans Hans. split_and!; [|done|].
      - split; [|intros i Hi; by left]. intros i. cbn. destruct ans as [[]|]; try done. 
      - intros v Hk. apply knows_cons in Hk as [_ [[Hd _]|[_ Hk]]]; [done|]. by apply Hb. }
    destruct (sk_failure s) as [e|].
    { destruct (Hnot (Err e)) as (A & B & C); [done|]. by eapply (Hquiet (Err e) locks). }
    destruct (bool_decide (id ∈ locks)) eqn:El.
    { destruct (Hnot (Ok false)) as (A & B & C); [done|]. by eapply (Hquiet (Ok false) locks). }
    apply bool_decide_eq_false in El. eapply (Hquiet (Ok true) ({[id]} ∪ locks)); [|done| |by symmetry].
    + split; [|intros i Hi; left; set_solver]. intros i. cbn. destruct (id == i) eqn:Ei; [|done]. apply bool_decide_eq_true in Ei as <-. intros _. set_solver.
    + intros v Hk. apply knows_cons in Hk as [_ [[Hd _]|[_ Hk]]]; [done|]. by apply Hb.
  - clear Hstmt. eapply (Hquiet tt (locks ∖ {[id]})); [|done| |by symmetry].
    + split; [intros i; cbn; by destruct (id == i)|]. intros i Hi. cbn. destruct (decide (id = i)) as [->|Hne]; [right; by rewrite bool_decide_true|left; set_solver].
    + intros v Hk. apply knows_cons in Hk as [_ [[Hd _]|[_ Hk]]]; [done|]. by apply Hb.
Qed.

Lemma pool_step_ok ts st ts' st' : pool_step server_handler (ts, st) (ts', st') -> pool_ok ts st -> pool_ok ts' st' /\ progress st.1.1 st'.1.1.
Proof.
  intros Hstep [P1 P2 P3 P4 P5 P6]. inversion Hstep as [ts0 i c k h st0 r st1 Hi Hh]; subst.
  destruct st as [[db locks] w], st' as [[db' locks'] w']. cbn [fst snd] in *.
  pose proof (Forall_lookup_1 _ _ _ _ P2 Hi) as [Hg Hk]. pose proof (Forall_lookup_1 _ _ _ _ P3 Hi) as Hb.
  pose proof (Forall_lookup_1 _ _ _ _ P4 Hi) as Hl. cbn [th_history th_prog] in *.
  destruct (handler_effect _ _ _ _ _ _ _ _ _ P1 Hg Hb Hh) as [[L1 L2] H2 H3 H4 H5 H6 H7]. split; [|done].
  assert (i < length ts)%nat as Hlen by by eapply lookup_lt_Some. set (t' := Thread (k r) (Event c r :: h)).
  assert (forall j t, ts !! j = Some t -> j <> i -> forall id, holds id h = true -> holds id (th_history t) = true -> False) as Hex.
  { intros j t Hj Hne id A B. apply Hne. by eapply P5. }
  assert (t' ∈ <[i:=t']> ts) as Ht' by (apply list_elem_of_lookup; exists i; by rewrite list_lookup_insert_eq).
  assert (forall e, e ∈ h -> exists t, t ∈ <[i:=t']> ts /\ e ∈ th_history t) as Hown.
  { intros e He. exists t'. split; [done|]. by right. }
  assert (forall j t, <[i:=t']> ts !! j = Some t -> j = i /\ t = t' \/ j <> i /\ ts !! j = Some t) as Hlook.
  { intros j t. rewrite list_lookup_insert_Some. intros [(<- & <- & _)|[? ?]]; [by left|by right]. }
  assert (forall j t id, <[i:=t']> ts !! j = Some t -> j <> i -> holds id (th_history t) = true -> holds id (Event c r :: h) = true -> False) as Hex'.
  { intros j t id Hj Hne A B. destruct (Hlook j t Hj) as [[-> _]|[_ Hjt]]; [done|].
    apply holds_cons in B as [B|[_ B]]; [|by eapply (Hex j t)]. apply L1 in B as [Hout _]. apply Hout.
    by apply (Forall_lookup_1 _ _ _ _ P4 Hjt). }
  split; cbn [fst snd].
  - done.
  - apply Forall_insert; [exact P2|]. cbn. by apply Hk.
  - apply Forall_lookup. intros j t Hj. destruct (Hlook j t Hj) as [[-> ->]|[Hne Hjt]]; [exact H6|].
    apply H5; [by apply (Forall_lookup_1 _ _ _ _ P3 Hjt)|by eapply Hex].
  - apply Forall_lookup. intros j t Hj id Hid. destruct (Hlook j t Hj) as [[-> ->]|[Hne Hjt]].
    + cbn [th_history t'] in Hid. apply holds_cons in Hid as [Hid|[Hn Hid]]; [exact (proj2 (L1 _ Hid))|]. destruct (L2 id (Hl id Hid)) as [?|Hf]; [done|by rewrite Hf in Hn].
    + destruct (L2 id (Forall_lookup_1 _ _ _ _ P4 Hjt id Hid)) as [?|Hf]; [done|]. exfalso. apply (Hex j t Hjt Hne id); [|done].
      destruct c; try done; cbn in Hf.
      * destruct r as [[]|e]; [|done|done]. by destruct (id0 == id).
      * destruct (id0 == id) eqn:E; [|done]. by apply bool_decide_eq_true in E as <-.
  - intros j1 j2 t1 t2 id Hj1 Hj2 A B. destruct (decide (j1 = i)) as [->|N1], (decide (j2 = i)) as [->|N2]; [done|exfalso..|].
    + destruct (Hlook _ _ Hj1) as [[_ ->]|[? _]]; [|done]. by eapply (Hex' j2 t2).
    + destruct (Hlook _ _ Hj2) as [[_ ->]|[? _]]; [|done]. by eapply (Hex' j1 t1).
    + destruct (Hlook _ _ Hj1) as [[? _]|[_ G1]]; [done|]. destruct (Hlook _ _ Hj2) as [[? _]|[_ G2]]; [done|]. by eapply P5.
  - apply (H7 ts); [done| |exact Hown]. intros plan (t & Ht & He). apply list_elem_of_lookup in Ht as [j Hj].
    destruct (decide (j = i)) as [->|Hne]; [|exists t; split; [|done]].
    + rewrite Hi in Hj. injection Hj as <-. exists t'. split; [done|]. by right.
    + apply list_elem_of_lookup. exists j. by rewrite list_lookup_insert_ne.
Qed.

Lemma pool_run_ok ts st ts' st' :
  rtc (pool_step server_handler) (ts, st) (ts', st') -> pool_ok ts st -> pool_ok ts' st' /\ progress st.1.1 st'.1.1.
Proof.
  intros Hrun Hok. apply (pool_invariant server_handler (fun x => pool_ok x.1 x.2 /\ progress st.1.1 x.2.1.1) _ (ts', st')) in Hrun; [done|done|].
  intros [ts1 st1] [ts2 st2] [H1 H2] Hs. cbn [fst snd] in *. destruct (pool_step_ok _ _ _ _ Hs H1) as [H3 H4]. split; [done|by etrans].
Qed.
End World.

(** ** From the start *)
#[export] Instance live_dec v : Decision (live v).
Proof. unfold live. apply _. Defined.

(** What the servers of a workspace that run, or will, may still cost. *)
Definition live_amount (workspace : string) (r : server_row) : Z :=
  if bool_decide (live (server_row.Document r)) && (server_row.WorkspaceID r == workspace) then reservation_cents (server_row.Document r) else 0.
Definition live_cents (workspace : string) (db : server_db) : Z :=
  sum_by (fun kv => live_amount workspace kv.2) (map_to_list (servers db)).

Lemma live_reserved workspace db : servers_ok db -> live_cents workspace db <= reserved_total workspace (ledger db).
Proof.
  intros [_ [_ _ Ha] Hl _]. apply (sum_by_inject _ _ fst usage_reservation.SubjectID).
  - apply NoDup_fst_map_to_list.
  - intros x Hx. apply Ha in Hx. unfold counted_cents. destruct (_ && _); lia.
  - intros [id r] Hr%elem_of_map_to_list. cbn. unfold live_amount. destruct (bool_decide (live _)) eqn:El; [|by left].
    destruct (_ == workspace) eqn:Ew; [|by left]. right. apply bool_decide_eq_true in El, Ew.
    destruct (Hl id r Hr El) as (x & [Hx _]%server_part_elem & [= Hw Hi] & Hp & Hc). exists x. split; [done|]. split; [done|].
    unfold counted_cents. rewrite Hw, Ew, Hp, Hc, bool_decide_true by done.
    rewrite (bool_decide_false ("reserved"%string = "released"%string)) by done. cbn. lia.
Qed.

Section Runs.
Context `{Unicode} (ssh_authorized_key : string -> option (string * list string * string)) (vps_engine : bool).
Context {W : Type} (outlook : W -> server_call -> sky * W) (world : W -> server_db -> forall c, server_answer c).

Lemma wp_program op h :
  (forall id, holds id h = false) -> wp_server (server_program ssh_authorized_key vps_engine op) (fun _ _ => True) h.
Proof.
  intros Hh. destruct op; cbn [server_program]; eapply wp_discard.
  - by apply wp_route.
  - by apply wp_draft.
  - by apply wp_Reconcile.
  - by apply wp_dispatcher.
Qed.

Definition released_in (db : server_db) (who : string * string) : Prop :=
  exists x, x ∈ server_part (ledger db) /\ subject x = who /\ usage_reservation.Phase x = "released"%string.
Abbreviation started ops := ((fun op => Thread (server_program ssh_authorized_key vps_engine op) []) <$> ops) (only parsing).

Lemma started_ok ops db (w : W) : servers_ok db -> pool_ok (released_in db) (started ops) (db, ∅, w).
Proof.
  intros Hok. assert (forall i t, started ops !! i = Some t -> th_history t = []) as Hnil.
  { intros i t. rewrite list_lookup_fmap. destruct (ops !! i); cbn; [by intros [= <-]|done]. }
  split; cbn [fst snd].
  - done.
  - apply Forall_fmap, Forall_forall. intros op _. by apply wp_program.
  - apply Forall_lookup. intros i t Hi v [Hv _]. by rewrite (Hnil i t Hi) in Hv.
  - apply Forall_lookup. intros i t Hi id Hv. by rewrite (Hnil i t Hi) in Hv.
  - intros i j t t' id Hi _ Hv. by rewrite (Hnil i t Hi) in Hv.
  - intros id row x _ Hx Hs Hp. left. by exists x.
Qed.

Lemma run_ok ops db (w : W) ts db' locks w' :
  servers_ok db -> rtc (pool_step (server_handler outlook world)) (started ops, (db, ∅, w)) (ts, (db', locks, w')) ->
  pool_ok (released_in db) ts (db', locks, w') /\ progress db db'.
Proof. intros Hok Hrun. apply (pool_run_ok outlook world _ _ _ _ _ Hrun). by apply started_ok. Qed.

Lemma path_approval v v' : rtc server_step v v' -> VPS.Phase v <> "drafted"%string -> approval v' = approval v.
Proof.
  induction 1 as [|x y z Hs _ IH]; [done|]. intros Hd. destruct (step_keeps _ _ Hs) as [_ _ Hst _ Ha _ _]. by rewrite IH, Ha.
Qed.
Lemma path_deleted v v' : rtc server_step v v' -> VPS.Phase v = "deleted"%string -> v' = v.
Proof. intros Hs Hd. destruct Hs as [|x y z Hs _]; [done|]. by destruct (step_keeps _ _ Hs). Qed.

(** C18: servers only ever move along their life, whoever works on them.  Any
    drafts, routes, reconciliations and dispatchers, in any interleaving with
    each other and with the transactions of initial deployments, under any
    failure of a statement, committed or not, as long as the connections that
    hold locks last: a row stays, with its workspace
    and its offer (request, plan, digest, price), its document moves by steps of
    [server_step], the approval, once given, is not changed, and a deleted
    server stays as it is; what appears was drafted with the digest of its
    plan; no two programs hold the lock of the same server, and what the holder
    knows of it is what the row says. *)
Theorem servers_lifecycle ops db w ts db' locks w' :
  servers_ok db -> rtc (pool_step (server_handler outlook world)) (started ops, (db, ∅, w)) (ts, (db', locks, w')) ->
  (forall id r, servers db !! id = Some r -> exists r', servers db' !! id = Some r' /\
     server_row.WorkspaceID r' = server_row.WorkspaceID r /\
     let v := server_row.Document r in let v' := server_row.Document r' in
     rtc server_step v v' /\ offer v' = offer v /\ (VPS.Phase v <> "drafted"%string -> approval v' = approval v) /\
     (VPS.Phase v = "deleted"%string -> v' = v)) /\
  (forall id r', servers db' !! id = Some r' -> servers db !! id = None ->
     exists v, VPS.Phase v = "drafted"%string /\ VPS.Digest v = vpsDigest v /\ rtc server_step v (server_row.Document r')) /\
  (forall i j t t' id, ts !! i = Some t -> ts !! j = Some t' -> holds id (th_history t) = true -> holds id (th_history t') = true -> i = j) /\
  (forall t v, t ∈ ts -> knows (th_history t) v -> VPS.Phase v <> "drafted"%string ->
     exists r, servers db' !! VPS.ID v = Some r /\ server_row.Document r = v).
Proof.
  intros Hok Hrun. destruct (run_ok _ _ _ _ _ _ _ Hok Hrun) as [[_ _ Hb _ Hx _] [Hrows Hnew]]. split_and!.
  - intros id r Hr. destruct (Hrows id r Hr) as (r' & Hr' & Hw & Hp). exists r'. split; [done|]. split; [done|]. split; [done|].
    split; [by apply path_plan|]. split; [by apply path_approval|by apply path_deleted].
  - intros id r' Hr' Hn. destruct (Hnew id r' Hr') as [[x Hx']|?]; [congruence|done].
  - exact Hx.
  - intros t v Ht. rewrite Forall_forall in Hb. by apply Hb.
Qed.

(** C19: the spend guard of servers.  In the same runs (connections that hold
    locks last, too), in every state: what the
    servers of a workspace that run or wait to run may cost, and what it spent,
    never exceed its limit; each of them has its own reservation, one, still
    standing, of its price; and a reservation was released, of those that were
    not before, only once the provider confirmed that the server is destroyed. *)
Theorem servers_spend ops db w ts db' locks w' :
  servers_ok db -> rtc (pool_step (server_handler outlook world)) (started ops, (db, ∅, w)) (ts, (db', locks, w')) ->
  (forall workspace cap, caps (ledger db') !! workspace = Some cap ->
     live_cents workspace db' + usage_cap.SpentCents cap <= usage_cap.LimitCents cap) /\
  (forall id r, servers db' !! id = Some r -> live (server_row.Document r) ->
     exists x, x ∈ reservations (ledger db') /\ of_server (server_row.WorkspaceID r) id x = true /\
       usage_reservation.Phase x = "reserved"%string /\ usage_reservation.AmountCents x = reservation_cents (server_row.Document r) /\
       forall y, y ∈ reservations (ledger db') -> of_server (server_row.WorkspaceID r) id y = true -> y = x) /\
  (forall id r x, servers db' !! id = Some r -> x ∈ reservations (ledger db') -> of_server (server_row.WorkspaceID r) id x = true ->
     usage_reservation.Phase x = "released"%string ->
     released_in db (server_row.WorkspaceID r, id) \/ destroyed ts (VPS.Plan_ (server_row.Document r))).
Proof.
  intros Hok Hrun. destruct (run_ok _ _ _ _ _ _ _ Hok Hrun) as [[Hok' _ _ _ _ Hj] _]. cbn [fst snd] in *. split_and!.
  - intros workspace cap Hc. destruct (sp_caps _ (sv_spend _ Hok') _ _ Hc) as [Hr Hcap].
    pose proof (live_reserved workspace db' Hok'). unfold cap_ok in Hcap. lia.
  - intros id r Hr Hl. destruct (sv_live _ Hok' id r Hr Hl) as (x & Hx & Hs & Hp & Hc). exists x.
    pose proof (proj1 (server_part_elem _ _) Hx) as [Hin Hk]. split_and!; [done|by apply of_server_spec|done|done|].
    intros y Hy [Hky Hsy]%of_server_spec. apply (key_unique subject (server_part (ledger db'))); [apply (sv_spend _ Hok')| |done|congruence].
    by apply server_part_elem.
  - intros id r x Hr Hx [Hk Hs]%of_server_spec Hp. rewrite <- Hs. apply (Hj id r x); [done| |done..]. by apply server_part_elem.
Qed.
End Runs.

(** ** An undisturbed turn *)
Section Calm.
Context `{Unicode} {W : Type} (outlook : W -> server_call -> sky * W) (world : W -> server_db -> forall c, server_answer c) (now : Z).

(** No statement fails, the clocks agree, and whoever is asked does it. *)
Record calm : Prop := {
  calm_sky w c : sk_failure (outlook w c).1 = None;
  calm_now w db : world w db ServerNow = now;
  calm_paid w db workspace : world w db (PayFor workspace) = Ok tt;
  calm_apply w db plan deadline : exists state address,
    world w db (EApplyVPS plan deadline) = Ok state /\ ready_address state = Some address;
  calm_key w db plan : exists fingerprint, world w db (EVPSHostFingerprint plan) = Ok fingerprint;
  calm_destroy w db plan : world w db (EDestroyVPS plan) = Ok tt
}.
Context (workspace id : string) (locks : gset string) (Hcalm : calm).
Abbreviation state := (server_db * gset string * W)%type (only parsing).
Abbreviation handler := (server_handler outlook world) (only parsing).

(** [p], run from [st] to its end, answers and leaves what [Q] says. *)
Definition does {A} (p : sprog A) (Q : A -> state -> Prop) (st : state) : Prop :=
  forall h, let '(a, st', _) := run handler p st h in Q a st'.
Lemma does_bind {A B} (p : sprog A) (f : A -> sprog B) Q st : does p (fun a => does (f a) Q) st -> does (p ≫= f) Q st.
Proof. intros Hp h. rewrite run_bind. specialize (Hp h). destruct (run handler p st h) as [[a st'] h']. apply Hp. Qed.
Lemma does_bind_ok {A B} (p : sprog (result A)) (f : A -> sprog (result B)) Q st :
  does p (fun r st' => exists a, r = Ok a /\ does (f a) Q st') st -> does (bind_ok p f) Q st.
Proof. intros Hp. apply does_bind. intros h. specialize (Hp h). destruct (run handler p st h) as [[r st'] h']. by destruct Hp as (a & -> & Hf). Qed.

Lemma does_call c (Q : server_answer c -> state -> Prop) st : (let '(r, st') := handler st c in Q r st') -> does (call c) Q st.
Proof.
  intros Hp h. change (let '(a, st', _) := (let '(r, s') := handler st c in (r, s', Event c r :: h)) in Q a st').
  by destruct (handler st c) as [r st'].
Qed.
Lemma does_bind_call {A} c (k : server_answer c -> sprog A) Q st :
  (let '(r, st') := handler st c in does (k r) Q st') -> does (call c ≫= k) Q st.
Proof. intros Hp. by apply does_bind, does_call. Qed.
Lemma does_mono {A} (p : sprog A) (Q Q' : A -> state -> Prop) st : does p Q st -> (forall a st', Q a st' -> Q' a st') -> does p Q' st.
Proof. intros Hp HQ h. specialize (Hp h). destruct (run handler p st h) as [[a st'] h']. by apply HQ. Qed.
Lemma does_ret {A} (a : A) (Q : A -> state -> Prop) st : Q a st -> does (Ret a) Q st.
Proof. by intros HQ h. Qed.

(** The server under the lock: its document, whether it is to be deleted, and
    what is reserved for servers. *)
Record stands (v : VPS) (del : bool) (P : list usage_reservation -> Prop) (st : state) : Prop := {
  sd_ok : servers_ok st.1.1;
  sd_locks : st.1.2 = {[id]} ∪ locks;
  sd_row : exists r, servers st.1.1 !! id = Some r /\ server_row.Document r = v /\ server_row.WorkspaceID r = workspace /\ server_row.DeleteRequested r = del;
  sd_part : P (server_part (ledger st.1.1))
}.

(** The transactions of initial deployments that ran in between. *)
Lemma stands_others v del P db l w w' ops :
  stands v del P (db, l, w) -> stands v del P (with_ledger (others ops (ledger db)) db, l, w').
Proof.
  intros [H1 H2 H3 H4]. cbn [fst snd] in *. destruct (others_spend ops (ledger db) (sv_spend _ H1)) as [Hs Hp].
  split; cbn [fst snd]; [by apply ledger_ok|done|exact H3|cbn; by rewrite Hp].
Qed.

Lemma does_world {A} v del P st c (k : server_answer c -> sprog A) Q :
  stands v del P st -> (forall w db s, statement world w s db c = (world w db c, db)) ->
  (match c with TryLockServer _ | UnlockServer _ => False | _ => True end) ->
  (forall w db st', stands v del P st' -> does (k (world w db c)) Q st') -> does (call c ≫= k) Q st.
Proof.
  intros Hs Hc Hl HQ. apply does_bind_call. destruct st as [[db l] w]. unfold server_handler. destruct (outlook w c) as [s w'].
  assert (stands v del P (with_ledger (others (sk_others s) (ledger db)) db, l, w')) as Hs' by by eapply stands_others.
  destruct c; try done; rewrite Hc; by apply HQ.
Qed.
Lemma does_now {A} v del P st (k : Z -> sprog A) Q :
  stands v del P st -> (forall st', stands v del P st' -> does (k now) Q st') -> does (ask ServerNow ≫= k) Q st.
Proof.
  intros Hs HQ. apply (does_world v del P st ServerNow k); [exact Hs|done|done|].
  intros w db st' H'. rewrite (calm_now Hcalm). by apply HQ.
Qed.

Lemma does_save v v' del P st Q :
  stands v del P st -> VPS.Phase v <> "drafted"%string -> v' = v \/ server_step v v' ->
  (forall st', stands v' del P st' -> Q (Ok tt) st') -> does (save v') Q st.
Proof.
  intros Hs Hd Hstep HQ. assert (forall next st, stands v del P st -> does (ask (SaveServer v' next)) Q st) as Hsave.
  { clear st Hs. intros next [[db l] w] Hs. apply does_call. unfold server_handler. pose proof (calm_sky Hcalm w (SaveServer v' next)) as Hf.
    destruct (outlook w (SaveServer v' next)) as [s w']. apply (stands_others _ _ _ _ _ _ w' (sk_others s)) in Hs.
    destruct Hs as [H1 H2 (r & Hr & Hv & Hw & Hdel) H4]. revert H1 Hr H4. generalize (with_ledger (others (sk_others s) (ledger db)) db). intros db0 H1 Hr H4.
    cbn [statement fst snd] in *. unfold under. rewrite Hf. apply HQ. destruct (sv_row _ H1 _ _ Hr) as (Hi & Hws & _).
    assert (offer v' = offer v) as Ho by (destruct Hstep as [->|Hs]; [done|apply (step_keeps _ _ Hs)]). injection Ho as Hi' Hw' _ _ _ _ _.
    assert (VPS.ID v' = id) as -> by congruence. assert (VPS.WorkspaceID v' = workspace) as -> by congruence.
    assert (server_in workspace id db0 = Some r) as Hin by by apply server_in_lookup.
    destruct (update_effect workspace id (saved v' next (sk_clock s)) db0) as (U1 & _); [done|done| |].
    { intros r' Hr'. rewrite Hin in Hr'. injection Hr' as <-. cbn. rewrite Hv. destruct Hstep as [->|Hs]; [by left|right; by split]. }
    split; cbn [fst snd]; [done|done| |]; unfold update_server; rewrite Hin; cbn; [|done].
    exists (saved v' next (sk_clock s) r). rewrite lookup_insert_eq. by split_and!. }
  unfold save. eapply does_now; [exact Hs|]. intros st1 H1. apply does_bind. destruct (_ == "ready").
  - eapply does_now; [exact H1|]. intros st2 H2. apply does_ret. eapply does_now; [exact H2|]. intros st3 H3. by apply Hsave.
  - apply does_ret. eapply does_now; [exact H1|]. intros st3 H3. by apply Hsave.
Qed.

(** Nothing of the server is reserved. *)
Definition freed (l : list usage_reservation) : Prop := forall x, x ∈ l -> reserved_server workspace id x = false.

Lemma release_frees l : spend_ok l -> exists l', releaseReservation workspace id l = (Ok tt, l') /\ freed (server_part l').
Proof.
  intros Hok. destruct (releaseReservation workspace id l) as [r l'] eqn:E. exists l'.
  assert (freed (List.filter is_server (update_where (reserved_server workspace id) released (reservations l)))) as Hf.
  { intros x Hx. rewrite list_elem_of_In, List.filter_In, <- list_elem_of_In in Hx. destruct Hx as [(y & _ & ->)%update_elem _].
    destruct (reserved_server workspace id y) eqn:Ey; [|done]. apply andb_false_iff. right. by rewrite bool_decide_false. }
  revert E. unfold releaseReservation. destruct (List.find _ _) as [x|] eqn:Ef.
  - cbv zeta. apply find_elem in Ef as [Hx Hr]. destruct Hok as [H1 _ H3].
    destruct (caps l !! workspace) as [[limit reserved spent]|] eqn:Hcap; [|by intros [= <- <-]].
    destruct (_ <? 0) eqn:Hn; [|by intros [= <- <-]]. exfalso. apply Z.ltb_lt in Hn. destruct (H1 _ _ Hcap) as [Ht _]. cbn in Ht.
    apply andb_true_iff in Hr as [[_ [= Hw _]]%of_server_spec Hp%bool_decide_eq_true].
    assert (counted_cents workspace x <= reserved_total workspace l) as Hle.
    { apply (sum_by_elem (counted_cents workspace)); [|done]. intros y Hy. apply H3 in Hy. unfold counted_cents. destruct (_ && _); lia. }
    unfold counted_cents in Hle. rewrite Hw, Hp, bool_decide_true, bool_decide_false in Hle by done. cbn in Hle. lia.
  - intros [= <- <-]. split; [done|]. intros x [Hx _]%server_part_elem. destruct (reserved_server workspace id x) eqn:Er; [|done].
    apply list_elem_of_In in Hx. by rewrite (find_none _ _ Ef _ Hx) in Er.
Qed.

Lemma does_release v del P st Q :
  stands v del P st -> VPS.Phase v = "deleting"%string ->
  (forall st', stands v del freed st' -> Q (Ok tt) st') -> does (ask (ReleaseReservation workspace id)) Q st.
Proof.
  intros Hs Hd HQ. apply does_call. destruct st as [[db l] w]. unfold server_handler. pose proof (calm_sky Hcalm w (ReleaseReservation workspace id)) as Hf.
  destruct (outlook w _) as [s w']. apply (stands_others _ _ _ _ _ _ w' (sk_others s)) in Hs.
  destruct Hs as [H1 H2 (r & Hr & Hv & Hw & Hdel) H4]. revert H1 Hr H4. generalize (with_ledger (others (sk_others s) (ledger db)) db). intros db0 H1 Hr H4.
  cbn [statement fst snd] in *. unfold under. rewrite Hf. destruct (release_frees (ledger db0) (sv_spend _ H1)) as (l' & Hl & Hfree). rewrite Hl. apply HQ.
  split; cbn [fst snd]; [|done|by exists r|exact Hfree]. eapply release_rows; [exact H1|exact Hl|].
  intros r' Hr' _ Hlive. cbn in Hr. rewrite Hr in Hr'. injection Hr' as <-. rewrite Hv in Hlive. unfold live in Hlive. rewrite Hd in Hlive. set_solver.
Qed.

Lemma does_audit v del P st action subject (Q : result unit -> state -> Prop) :
  stands v del P st -> (forall st', stands v del P st' -> Q (Ok tt) st') ->
  does (_ ← ask (ServerAudit workspace system_actor action subject); Ret (Ok tt)) Q st.
Proof.
  intros Hs HQ. apply (does_world v del P st (ServerAudit workspace system_actor action subject)); [exact Hs|done|done|].
  intros w db st' H'. by apply does_ret, HQ.
Qed.

(** The document keeps its identity while the server stands. *)
Lemma stands_identity v del P st : stands v del P st -> VPS.ID v = id /\ VPS.WorkspaceID v = workspace.
Proof. intros [H1 _ (r & Hr & <- & <- & _) _]. by destruct (sv_row _ H1 _ _ Hr) as (? & ? & _). Qed.

Abbreviation ends Q := (fun r st => r = Ok tt /\ Q st) (only parsing).
Definition gone (del : bool) (st : state) : Prop := exists v, VPS.Phase v = "deleted"%string /\ stands v del freed st.
Definition running (st : state) : Prop := exists v, VPS.Phase v = "ready"%string /\ stands v false (fun _ => True) st.

Lemma does_remove v del P st :
  stands v del P st -> VPS.Phase v <> "drafted"%string -> VPS.Phase v <> "deleted"%string -> does (remove_server v) (ends (gone del)) st.
Proof.
  intros Hs Hd Hn. unfold remove_server. cbv zeta. apply does_bind_ok. eapply does_save; [exact Hs|done|right; by constructor|].
  intros st1 H1. exists tt. split; [done|]. apply (does_world _ _ _ _ (EDestroyVPS (VPS.Plan_ (VPS.with_Phase "deleting" v))) _ _ H1); [done|done|].
  intros w db st2 H2. rewrite (calm_destroy Hcalm). apply does_bind_ok. destruct (stands_identity _ _ _ _ H2) as [Hi Hw]. rewrite Hi, Hw.
  eapply does_release; [exact H2|done|]. intros st3 H3. exists tt. split; [done|]. apply does_bind_ok.
  eapply does_save; [exact H3|done|right; by constructor|]. intros st4 H4. exists tt. split; [done|].
  eapply does_audit; [exact H4|]. intros st5 H5. split; [done|]. by exists (removed (VPS.with_Phase "deleting" v)).
Qed.

Lemma does_create v st :
  stands v false (fun _ => True) st -> VPS.Phase v = "creating"%string -> does (create_server v) (ends running) st.
Proof.
  intros Hs Hp. unfold create_server. apply (does_world _ _ _ _ (EApplyVPS (VPS.Plan_ v) (apply_deadline v)) _ _ Hs); [done|done|].
  intros w db st1 H1. destruct (calm_apply Hcalm w db (VPS.Plan_ v) (apply_deadline v)) as (state & address & -> & Ha). rewrite Ha.
  apply (does_world _ _ _ _ (EVPSHostFingerprint (VPS.Plan_ v)) _ _ H1); [done|done|].
  intros w2 db2 st2 H2. destruct (calm_key Hcalm w2 db2 (VPS.Plan_ v)) as (fingerprint & ->). apply does_bind_ok.
  eapply does_save; [exact H2|by rewrite Hp|right; by constructor|]. intros st3 H3. exists tt. split; [done|].
  destruct (stands_identity _ _ _ _ H3) as [_ Hw]. cbn in Hw. rewrite Hw. eapply does_audit; [exact H3|]. intros st4 H4. split; [done|]. by exists (made_ready address fingerprint v).
Qed.

Lemma does_start v st :
  stands v false (fun _ => True) st -> VPS.Phase v = "queued"%string \/ VPS.Phase v = "creating"%string -> does (start_server v) (ends running) st.
Proof.
  intros Hs Hp. unfold start_server. destruct (_ == "queued") eqn:Eq.
  - apply bool_decide_eq_true in Eq. apply (does_world _ _ _ _ (PayFor (VPS.WorkspaceID v)) _ _ Hs); [done|done|].
    intros w db st1 H1. rewrite (calm_paid Hcalm). apply does_bind_ok. eapply does_save; [exact H1|by rewrite Eq|right; by constructor|].
    intros st2 H2. exists tt. split; [done|]. by apply does_create.
  - apply bool_decide_eq_false in Eq. destruct Hp as [Hp|Hp]; [done|]. by apply does_create.
Qed.

(** A read of the row. *)
Lemma does_read v del P st c (Q : server_answer c -> state -> Prop) ans :
  stands v del P st ->
  (forall w s db, sk_failure s = None -> server_in workspace id db = Some (server_row.mk workspace v del (default 0 (server_row.NextAttemptAt <$> server_in workspace id db))) ->
     statement world w s db c = (ans, db)) ->
  (match c with TryLockServer _ | UnlockServer _ => False | _ => True end) ->
  (forall st', stands v del P st' -> Q ans st') -> does (call c) Q st.
Proof.
  intros Hs Hc Hl HQ. apply does_call. destruct st as [[db l] w]. unfold server_handler. pose proof (calm_sky Hcalm w c) as Hf.
  destruct (outlook w c) as [s w']. apply (stands_others _ _ _ _ _ _ w' (sk_others s)) in Hs. cbn [fst] in Hf.
  assert (statement world w s (with_ledger (others (sk_others s) (ledger db)) db) c = (ans, with_ledger (others (sk_others s) (ledger db)) db)) as Hst.
  { apply Hc; [done|]. destruct Hs as [_ _ ([w0 v0 d0 n0] & Hr & Hv & Hw & Hd) _]. cbn in *. subst.
    assert (server_in workspace id (with_ledger (others (sk_others s) (ledger db)) db) = Some (server_row.mk workspace v del n0)) as ->; [|done].
    by apply server_in_lookup. }
  destruct c; try done; rewrite Hst; by apply HQ.
Qed.

(** Whether the server is to be removed. *)
Definition due_removal (v : VPS) (del : bool) : bool :=
  del || match VPS.ExpiresAt v with Some expires => expires <=? now | None => false end || (VPS.Phase v == "deleting").

Lemma does_reconcile_locked v del st :
  stands v del (fun _ => True) st -> VPS.Phase v <> "drafted"%string -> VPS.Phase v <> "deleted"%string ->
  does (reconcile_locked workspace id) (ends (fun st => if due_removal v del then gone del st else running st)) st.
Proof.
  intros Hs Hd Hn. unfold reconcile_locked. apply does_bind_ok. eapply (does_read _ _ _ _ (GetServer workspace id) _ (Ok (v, del))); [exact Hs| |done|].
  { intros w s db Hf Hr. cbn [statement]. unfold under, Store_VPS. by rewrite Hf, Hr. }
  intros st1 H1. exists (v, del). split; [done|]. cbn [fst]. rewrite !bool_decide_false by done. cbn [orb].
  assert (VPS.Phase v ∈ server_phases /\ may_run v) as [Hin [Hap Hg]].
  { destruct H1 as [K1 _ (r & Hr & <- & _) _]. destruct (sv_row _ K1 _ _ Hr) as (_ & _ & Hin & [?|Hrun]); done. }
  destruct Hap as [t ->]. rewrite Hg, bool_decide_true by done. cbn [negb]. apply does_bind_ok.
  eapply (does_read _ _ _ _ (DeletionRequested workspace id) _ (Ok del)); [exact H1| |done|].
  { intros w s db Hf Hr. cbn [statement]. unfold under. by rewrite Hf, Hr. }
  intros st2 H2. exists del. split; [done|]. eapply does_now; [exact H2|]. intros st3 H3. cbv zeta. unfold due_removal.
  destruct (del || _ || _) eqn:Er; [by eapply does_remove|]. apply orb_false_iff in Er as [[-> _]%orb_false_iff Edel]. apply bool_decide_eq_false in Edel.
  destruct (_ == "ready") eqn:Eready.
  - apply bool_decide_eq_true in Eready. eapply does_save; [exact H3|done|by left|]. intros st4 H4. split; [done|]. by exists v.
  - apply bool_decide_eq_false in Eready. apply does_start; [done|]. clear -Hin Hd Hn Edel Eready. unfold server_phases in Hin. set_solver.
Qed.

Lemma does_Reconcile db w r :
  servers_ok db -> server_in workspace id db = Some r -> VPS.Phase (server_row.Document r) <> "drafted"%string ->
  VPS.Phase (server_row.Document r) <> "deleted"%string -> id ∉ locks ->
  does (Reconcile workspace id) (ends (fun st => st.1.2 = locks /\ exists r', server_in workspace id st.1.1 = Some r' /\
    if due_removal (server_row.Document r) (server_row.DeleteRequested r)
    then VPS.Phase (server_row.Document r') = "deleted"%string /\ freed (server_part (ledger st.1.1))
    else VPS.Phase (server_row.Document r') = "ready"%string)) (db, locks, w).
Proof.
  intros Hok Hin Hd Hn Hl. set (v := server_row.Document r) in *. set (del := server_row.DeleteRequested r). apply server_in_lookup in Hin as [Hr Hw].
  assert (forall v' del' P (st : state), stands v' del' P st -> exists r', server_in workspace id st.1.1 = Some r' /\ server_row.Document r' = v') as Hrow.
  { intros v' del' P st [_ _ (r' & Hr' & Hv & Hw' & _) _]. exists r'. split; [by apply server_in_lookup|done]. }
  unfold Reconcile. apply does_bind_ok, (does_call (TryLockServer id)). unfold server_handler. pose proof (calm_sky Hcalm w (TryLockServer id)) as Hf.
  destruct (outlook w (TryLockServer id)) as [s w']. cbn [fst] in Hf. rewrite Hf, bool_decide_false by done. exists true. split; [done|]. cbn [negb].
  apply does_bind. set (st := (_, {[id]} ∪ locks, w')).
  assert (stands v del (fun _ => True) st) as Hst.
  { eapply (stands_others _ _ _ db _ w). split; cbn [fst snd]; [done|done|by exists r|done]. }
  clearbody st. eapply does_mono; [by apply (does_reconcile_locked v del st)|]. intros a [[db1 l1] w1] [-> Hdo].
  assert (l1 = {[id]} ∪ locks) as -> by (by destruct (due_removal v del); destruct Hdo as (? & _ & [_ ? _ _])).
  apply (does_bind_call (UnlockServer id)). unfold server_handler. destruct (outlook w1 (UnlockServer id)) as [s1 w2]. apply does_ret. cbn [fst snd].
  split; [done|]. split; [set_solver|].
  destruct (due_removal v del); destruct Hdo as (v' & Hp & Hs); apply (stands_others _ _ _ _ _ _ w2 (sk_others s1)) in Hs;
    destruct (Hrow _ _ _ _ Hs) as (r' & Hr' & Hv'); exists r'; (split; [exact Hr'|]); rewrite Hv'; [|done]. split; [done|apply Hs].
Qed.

(** C20: the dispatcher gets there.  From any state of the tables the transactions
    can reach, with other servers locked or not and initial deployments going
    on: if the lock of an approved server is free, no statement fails and the
    services do what they are asked, one turn ends without error, leaves the
    locks as they were, and the server is deleted with nothing of it reserved if
    that was requested, due or under way, and ready otherwise, wherever an
    earlier turn was interrupted. *)
Theorem Reconcile_completes db w r :
  servers_ok db -> server_in workspace id db = Some r -> VPS.Phase (server_row.Document r) <> "drafted"%string ->
  VPS.Phase (server_row.Document r) <> "deleted"%string -> id ∉ locks ->
  exists db' w' h r', run handler (Reconcile workspace id) (db, locks, w) [] = (Ok tt, (db', locks, w'), h) /\
    server_in workspace id db' = Some r' /\
    if due_removal (server_row.Document r) (server_row.DeleteRequested r)
    then VPS.Phase (server_row.Document r') = "deleted"%string /\
         forall x, x ∈ reservations (ledger db') -> reserved_server workspace id x = false
    else VPS.Phase (server_row.Document r') = "ready"%string.
Proof.
  intros Hok Hin Hd Hn Hl. pose proof (does_Reconcile db w r Hok Hin Hd Hn Hl []) as Hdo.
  destruct (run handler (Reconcile workspace id) (db, locks, w) []) as [[a [[db' l'] w']] h]. cbn [fst snd] in Hdo.
  destruct Hdo as (-> & -> & r' & Hr' & Hend). exists db', w', h, r'. split; [done|]. split; [done|].
  destruct (due_removal _ _); [|done]. destruct Hend as [Hp Hf]. split; [done|]. intros x Hx. destruct (reserved_server workspace id x) eqn:Ex; [|done].
  rewrite <- Ex. apply Hf, server_part_elem. split; [done|]. by apply andb_true_iff in Ex as [[Hk _]%of_server_spec _].
Qed.
End Calm.

(** ** A run: a draft, an approval, two dispatchers at once, a request to delete *)
Definition wit_request : VPSRequest := VPSRequest.mk "box" 1 1024 20 "ssh-ed25519 AAAA" "203.0.113.7/32" 3600.
Definition wit_plan : VPSPlan := VPSPlan.mk demo_spec (Shape.mk "s1" "small" 1 1024 20) "img" ["net"].
Definition wit_state : State :=
  State.mk "box" "ready" "vps" "ubuntu-24.04" [Resource.mk "srv-1" "box" "ACTIVE" "203.0.113.9"] [] [] 0 None EmptyString [] None None.
Definition wit_ssh (key : string) : option (string * list string * string) := Some (key, [], EmptyString).

(** Everything succeeds, at time 0. *)
Definition wit_world (c : server_call) : server_answer c :=
  match c with
  | ServerNow => 0
  | ServerNewID _ => Ok "vps_1"
  | RoleOf _ _ => Ok "owner"
  | PayFor _ | EDestroyVPS _ => Ok tt
  | EPlanVPS _ _ _ => Ok wit_plan
  | EApplyVPS _ _ => Ok wit_state
  | EVPSHostFingerprint _ => Ok "SHA256:host"
  | ServerAudit _ _ _ _ | UnlockServer _ | SpawnReconcile _ _ => tt
  | ContextErr | ServerTick => None
  | TakeSlot => true
  | GetServer _ _ | ListServers _ | ApproveServer _ _ _ _ | TryLockServer _ | DeletionRequested _ _ | DueServers => Err ErrNotFound
  | InsertServer _ | RequestDeletion _ _ | SaveServer _ _ | ReleaseReservation _ _ => Ok tt
  end.
Definition wit_outlook (_ : unit) (c : server_call) : sky * unit := (Sky None true 0 0 (Ok "res-1") [], tt).
Definition wit_handler := server_handler wit_outlook (fun _ _ => wit_world).

Definition wit_human : Principal :=
  Principal.mk (ActorRef.mk "human" "acc" EmptyString EmptyString) (Some (Account.mk "acc" "a@example.com" 0)) None None "w" "owner".
Definition wit_digest : string := VPS.Digest (drafted "w" "vps_1" wit_request wit_plan 300 0).
Definition wit_route (parts : list string) : server_op := SRoute "POST" wit_human "w" parts (Some wit_request) (Some wit_digest).
Definition wit_ops : list server_op :=
  [wit_route []; wit_route ["vps_1"; "approve"]; SReconcile "w" "vps_1"; SReconcile "w" "vps_1"; wit_route ["vps_1"; "delete"]; SReconcile "w" "vps_1"]%string.
Definition wit_db : server_db := Servers.Db ∅ (Deployments.Db ∅ [] [] {["w"%string := usage_cap.mk 5000 0 0]} []).
Definition wit_threads : list (thread server_answer unit) := (fun op => Thread (server_program wit_ssh true op) []) <$> wit_ops.
Definition wit_pool : Type := list (thread server_answer unit) * (server_db * gset string * unit).
Definition wit_exec (schedule : list nat) (x : wit_pool) := fold_left (pool_exec wit_handler) schedule x.
(** Approved; made by one dispatcher while another finds the lock taken; to be deleted; deleted. *)
Definition wit_approved := wit_exec (repeat 0%nat 10 ++ repeat 1%nat 10) (wit_threads, (wit_db, ∅, tt)).
Definition wit_made := wit_exec ([2; 3]%nat ++ repeat 2%nat 20) wit_approved.
Definition wit_requested := wit_exec (repeat 4%nat 6) wit_made.
Definition wit_gone := wit_exec (repeat 5%nat 20) wit_requested.

Definition wit_at (x : wit_pool) : option (string * bool) :=
  (fun r => (VPS.Phase (server_row.Document r), due_removal 0 (server_row.Document r) (server_row.DeleteRequested r))) <$>
    server_in "w" "vps_1" x.2.1.1.
Definition billed (x : wit_pool) : list (string * Z) * list (Z * string) :=
  ((fun kv => (kv.1, usage_cap.ReservedCents kv.2)) <$> map_to_list (caps (ledger x.2.1.1)),
   (fun r => (usage_reservation.AmountCents r, usage_reservation.Phase r)) <$> reservations (ledger x.2.1.1)).
(** What is seen on the way. *)
Lemma wit_seen :
  wit_at wit_approved = Some ("queued"%string, false) /\ wit_at wit_made = Some ("ready"%string, false) /\
  wit_at wit_requested = Some ("ready"%string, true) /\ wit_at wit_gone = Some ("deleted"%string, true) /\
  billed wit_made = ([("w"%string, 500)], [(500, "reserved"%string)]) /\ billed wit_gone = ([("w"%string, 0)], [(500, "released"%string)]).
Proof. vm_compute. repeat split. Qed.

Lemma wit_db_ok : servers_ok wit_db.
Proof.
  split; cbn; [by intros ? ? ?|split; cbn|by intros ? ? ?|by intros x ?%not_elem_of_nil].
  - intros w cap [<- <-]%lookup_singleton_Some. split; [done|]. unfold cap_ok. cbn. lia.
  - constructor.
  - by intros x ?%not_elem_of_nil.
Qed.

Definition wit_reached (x : wit_pool) : Prop :=
  rtc (pool_step wit_handler) (wit_threads, (wit_db, ∅, tt)) (x.1, (x.2.1.1, x.2.1.2, x.2.2)).
Lemma wit_exec_reached schedule x : wit_reached x -> wit_reached (wit_exec schedule x).
Proof.
  unfold wit_reached, wit_exec. intros Hx. etransitivity; [exact Hx|]. destruct x as [ts [[db locks] w]]. cbn [fst snd].
  pose proof (pool_exec_steps wit_handler (ts, (db, locks, w)) schedule) as Hs. by destruct (fold_left _ _ _) as [ts' [[db' locks'] w']].
Qed.
Lemma wit_approved_reached : wit_reached wit_approved.
Proof. apply wit_exec_reached, rtc_refl. Qed.
Lemma wit_made_reached : wit_reached wit_made.
Proof. apply wit_exec_reached, wit_approved_reached. Qed.
Lemma wit_requested_reached : wit_reached wit_requested.
Proof. apply wit_exec_reached, wit_made_reached. Qed.
Lemma wit_gone_reached : wit_reached wit_gone.
Proof. apply wit_exec_reached, wit_requested_reached. Qed.

Lemma servers_lifecycle_witness :
  wit_at wit_made = Some ("ready"%string, false) /\
  forall id r', servers wit_made.2.1.1 !! id = Some r' ->
    exists v, VPS.Phase v = "drafted"%string /\ VPS.Digest v = vpsDigest v /\ rtc server_step v (server_row.Document r').
Proof.
  destruct wit_seen as (_ & Hseen & _). split; [exact Hseen|]. clear Hseen. pose proof wit_made_reached as Hs. revert Hs. generalize wit_made. intros x Hs.
  destruct (servers_lifecycle wit_ssh true wit_outlook (fun _ _ => wit_world) wit_ops wit_db tt _ _ _ _ wit_db_ok Hs) as (_ & Hnew & _).
  intros id r' Hr. by apply (Hnew id r' Hr).
Defined.

Lemma servers_spend_witness :
  billed wit_made = ([("w"%string, 500)], [(500, "reserved"%string)]) /\ billed wit_gone = ([("w"%string, 0)], [(500, "released"%string)]) /\
  wit_at wit_gone = Some ("deleted"%string, true) /\
  forall id r x, servers wit_gone.2.1.1 !! id = Some r -> x ∈ reservations (ledger wit_gone.2.1.1) ->
    of_server (server_row.WorkspaceID r) id x = true -> usage_reservation.Phase x = "released"%string ->
    destroyed wit_gone.1 (VPS.Plan_ (server_row.Document r)).
Proof.
  destruct wit_seen as (_ & _ & _ & Hgone & Hmade & Hfree). split; [exact Hmade|]. split; [exact Hfree|]. split; [exact Hgone|]. clear Hgone Hmade Hfree.
  pose proof wit_gone_reached as Hs. revert Hs. generalize wit_gone. intros z Hs.
  destruct (servers_spend wit_ssh true wit_outlook (fun _ _ => wit_world) wit_ops wit_db tt _ _ _ _ wit_db_ok Hs) as (_ & _ & Hr).
  intros id r x H1 H2 H3 H4. destruct (Hr id r x H1 H2 H3 H4) as [(y & Hy & _)|Hd]; [by apply not_elem_of_nil in Hy|exact Hd].
Defined.

(** The same services, for one dispatcher alone. *)
Lemma wit_calm : calm wit_outlook (fun _ _ => wit_world) 0.
Proof. split; try done; [intros; by exists wit_state, "203.0.113.9"%string|intros; by exists "SHA256:host"%string]. Qed.
Definition wit_turn x (db' : server_db) : Prop :=
  exists u h, run (server_handler wit_outlook (fun _ _ => wit_world)) (Reconcile "w" "vps_1") (x, ∅, tt) [] = (Ok tt, (db', ∅, u), h).
Lemma wit_reached_ok x : wit_reached x -> servers_ok x.2.1.1.
Proof. intros Hs. by destruct (run_ok wit_ssh true wit_outlook (fun _ _ => wit_world) wit_ops wit_db tt _ _ _ _ wit_db_ok Hs) as [[Hok _ _ _ _ _] _]. Qed.

Lemma wit_at_row x phase due :
  wit_at x = Some (phase, due) -> exists r, server_in "w" "vps_1" x.2.1.1 = Some r /\ VPS.Phase (server_row.Document r) = phase /\
    due_removal 0 (server_row.Document r) (server_row.DeleteRequested r) = due.
Proof. unfold wit_at. destruct (server_in _ _ _) as [r|]; [|discriminate]. intros [= <- <-]. by exists r. Qed.

Lemma Reconcile_completes_witness :
  wit_at wit_approved = Some ("queued"%string, false) /\ wit_at wit_requested = Some ("ready"%string, true) /\
  (exists db' r', wit_turn wit_approved.2.1.1 db' /\ server_in "w" "vps_1" db' = Some r' /\ VPS.Phase (server_row.Document r') = "ready"%string) /\
  exists db' r', wit_turn wit_requested.2.1.1 db' /\ server_in "w" "vps_1" db' = Some r' /\ VPS.Phase (server_row.Document r') = "deleted"%string.
Proof.
  destruct wit_seen as (Ha & _ & Hr & _). split; [exact Ha|]. split; [exact Hr|]. apply wit_at_row in Ha as (a & Ea & Pa & Da), Hr as (b & Eb & Pb & Db).
  pose proof (wit_reached_ok _ wit_approved_reached) as Hoka. pose proof (wit_reached_ok _ wit_requested_reached) as Hokb. split.
  - destruct (Reconcile_completes wit_outlook (fun _ _ => wit_world) 0 "w" "vps_1" ∅ wit_calm wit_approved.2.1.1 tt a Hoka Ea) as (db' & w' & h & r' & H1 & H2 & H3);
      [by rewrite Pa|by rewrite Pa|by apply not_elem_of_empty|]. rewrite Da in H3. exists db', r'. split; [exists w', h; exact H1|exact (conj H2 H3)].
  - destruct (Reconcile_completes wit_outlook (fun _ _ => wit_world) 0 "w" "vps_1" ∅ wit_calm wit_requested.2.1.1 tt b Hokb Eb) as (db' & w' & h & r' & H1 & H2 & H3);
      [by rewrite Pb|by rewrite Pb|by apply not_elem_of_empty|]. rewrite Db in H3. destruct H3 as [H3 _]. exists db', r'. split; [exists w', h; exact H1|exact (conj H2 H3)].
Defined.
